(* ===== verification/_CoqProject ===== *)
-Q . S2P
Prelude.v
CInt.v
CpuTypes.v
LoaderH.v
ArchTable.v
ByteSex.v
HeaderSwap.v
LoadCmdSwap.v
TableSwap.v
BitSwap.v
SwapSpec.v
BestArch.v
CpuCombine.v
BestArchSpec.v
CpuCombineSpec.v
NXArch.v
NXBestArch.v
NXBestArchSpec.v
Crc.v
Strtoul.v
Version.v
Rounding.v
Reloc.v
Leb128.v
DyldSegs.v
DyldState.v
DyldBind.v
DyldBindSpec.v
DyldBindRoundtrip.v
DyldBindValid.v
CallGraph.v
CallGraphSpec.v
Dfn.v
DfnClasses.v
DfnInv.v
DfnSpec.v
DoArcs.v
DoArcsSpec.v
CycleLinkSpec.v
HashTable.v
HashTableSpec.v
Flonum.v
Littlenums.v
FlonumSpec.v
InPlace.v
Assigns.v
InPlaceSpec.v
SwapHeaders.v
SwapHeadersSpec.v
SwapInPlaceSpec.v
SwapFileSpec.v
NXSwap.v
Overlap.v
TrieBuild.v
TrieTree.v
TrieEntries.v
TrieLayout.v
TrieParse.v
TrieReadSpec.v
TrieWalk.v
TrieRoundtrip.v
PruneTrieSpec.v
Fat.v
FatSpec.v
Lipo.v
LipoLayout.v
LipoSpec.v
CheckMachO.v
CheckFrame.v
CheckMachOSex.v
CheckMachOSpec.v
CheckMachOSafe.v
Archive.v
Members.v
ArchiveSpec.v
MembersSpec.v
Atof.v
AtofSpec.v
DecimalSpec.v
