(* ===== verification/Prelude.v ===== *)
(** * A verification development for cctools-port

    The repository is a port of Apple's cctools: the assembler, the archiver
    and the tools that inspect and change Mach-O files, in C, over two shared
    libraries, src/cctools/libstuff and src/cctools/libmacho, and the linker
    ld64 in C++.  This library models parts of those libraries, among them the
    check of object files, archives and fat files, the making of fat files by lipo,
    the interpreter of the dyld bind opcodes of otool, the call graph of gprof,
    the hash tables, flonums and decimal numbers of the assembler, and the export tries of the
    linker, as Rocq functions that can be run, and proves what they compute.
    All source paths below are relative to src/cctools.

    ** The parts and the files

    - Foundations.  Prelude (this file): statements with early returns, loops
      that look for an index or carry an accumulator, computations that can
      fail, shared tactics.  CInt: conversions to C's integer types as
      arithmetic modulo a power of two, bytes, loads of integers by a host of
      either byte sex, and the [printf] conversions the sources use.  Strtoul:
      [strtoul] in base ten and [strchr] for dots, of the C library.
    - Architectures.  CpuTypes: the cputypes and cpusubtypes of
      include/mach/machine-cctools.h.  LoaderH: the magic numbers and load
      command constants of include/mach-o/loader.h.  ArchTable: libstuff/arch.c, the tables
      of architecture names and of byte sexes, page sizes and stack
      directions, with their lookups.  NXArch: the same for libmacho/arch.c,
      where a lookup may allocate; [host_info] is an argument.
    - Choosing a slice of a fat file.  BestArch: the nest of loops of
      libstuff/best_arch.c that chooses a slice for a host; BestArchSpec: the
      preference lists it implements, what they guarantee, and where the
      comments of best_arch.c list others.  CpuCombine and
      CpuCombineSpec: which cpusubtypes can be linked together, and which
      host executes which.  NXBestArch and NXBestArchSpec: the second copy of
      the choice in libmacho/arch.c and where it agrees with the first.
    - Byte order.  ByteSex: the macros SWAP_SHORT, SWAP_INT and
      SWAP_LONG_LONG, [get_host_byte_sex], and the class [Swapped], the
      contract of a swapping routine.  HeaderSwap, LoadCmdSwap and TableSwap:
      one record, one load and one swap routine for each structure of
      libstuff/bytesex.c whose fields are whole integers, with the instance
      of [Swapped] for each that meets the contract.  BitSwap: the tables with
      bit-fields (relocation entries, two-level hints, dylib references).
      SwapSpec: the theorems over all of them.
    - Swapping a file in memory.  InPlace: assignments with a swapping macro
      to the fields of a structure in a memory image; Assigns: the list of
      assignments of each routine of libstuff/bytesex.c for headers, load
      commands and thread states.  SwapHeaders: [swap_object_headers] of
      libstuff/swap_headers.c, with its checking and its swapping pass.
      InPlaceSpec: assignments as reversals of spans of bytes.
      SwapHeadersSpec: the plan of the spans of a file, and what follows from
      it; SwapInPlaceSpec: what a host reads of a structure after its
      assignments, agreement with the routines on records, the
      commands that stay inside their bytes, and runs of the defects.
      SwapFileSpec: the header and the load commands the other host reads of a
      swapped file.  NXSwap: the routines of libmacho/swap.c and what is read
      after them.
    - The check of an object file, libstuff/ofile.c.  Overlap:
      check_overlaping_element, which keeps the list of the parts of a file.  CheckMachO: check_Mach_O, one definition per
      case of its switch and per cputype of the thread commands, the loop over
      the load commands and the checks behind it.  CheckFrame: what swapping a
      structure changes and how it is read afterwards.  CheckMachOSex,
      CheckMachOSpec and CheckMachOSafe: hosts of both byte sexes, the promise
      of the check, that it stays inside of the file, and files it does not
      see through.
    - Fat files.  Fat: the recognition of a fat file and check_fat of
      libstuff/ofile.c; FatSpec: the files it accepts.  Lipo: create_fat,
      process_fat and the breaking down of fat files of misc/lipo.c;
      LipoLayout: the layout of the slices; LipoSpec: making a fat file and
      taking it apart.
    - Archives.  Archive: the headers of members, check_archive and
      check_archive_toc of libstuff/ofile.c, and get_toc_byte_sex.c.  Members:
      the first, the next and the specific member of ofile.c as operations on
      the fields of [struct ofile], with the buffer a member may be copied to,
      fat files in archives, and the loop over the members.  ArchiveSpec: the
      chain of headers an accepted archive is, and the table of contents;
      MembersSpec: the walk over the members against that chain.  Archives
      the checks do not see through are at the end of Members.
    - Small routines of libstuff.  Crc: crc32.c.  Version: version_number.c
      and macosx_deployment_target.c.  Rounding: rnd.c, align.c and
      hash_string.c.  Reloc: reloc.c.
    - The bind opcodes, otool/dyld_bind_info.c.  Leb128: the readers of
      variable-length integers.  DyldSegs: the checks of ordinals and of
      offsets in segments.  DyldState: the locals of get_dyld_bind_info.
      DyldBind: the interpreter, one definition per opcode, the loop of a pass
      and the two passes.  DyldBindSpec: its specification, the refinement of
      it, termination and safety; DyldBindRoundtrip: an encoder and the round
      trip; DyldBindValid: the invariant of a run without errors.
    - The call graph of gprof.  CallGraph: the table of functions, nllookup,
      addarc, tally and the arcs of a profile (lookup.c, arcs.c, gprof.c);
      CallGraphSpec: well-formed graphs and the counts of calls.  Dfn: dfn.c,
      the depth-first numbering with its stack of 1000 entries; DfnClasses,
      DfnInv and DfnSpec: the cycles as classes of functions, the invariant of
      the search and that every call of it keeps it.  DoArcs: the parts of
      doarcs and cyclelink (arcs.c) on integers and pointers; DoArcsSpec: the
      numbering of a whole graph; CycleLinkSpec: the headers of cycles.
    - The assembler.  HashTable: as/hash.c, cells linked through a memory;
      HashTableSpec: it refines a finite map.  Flonum: as/flonum-mult.c,
      flonum-copy.c and the tables of flonum-const.c; Littlenums and
      FlonumSpec: littlenums as digits and the theorems.  Atof: decimal
      numbers, as/atof-generic.c, and their words in the formats of IEEE 754,
      as/atof-ieee.c; AtofSpec: the rounding of a flonum; DecimalSpec: the
      syntax of decimal numbers, integers without an error, and examples.
    - The export tries of ld64.  TrieBuild: GenericTrie and ExportsTrie of
      src/mach_o/ExportsTrie.cpp, which build a trie.  TrieParse: the parser of
      src/abstraction/MachOTrie.hpp.  TrieTree: the trie as a tree of prefixes;
      TrieEntries: the entries of a tree; TrieLayout: the offsets of the nodes
      and that they settle; TrieReadSpec and TrieWalk: reading the bytes of a
      tree back; TrieRoundtrip: both directions.  PruneTrieSpec: prune_trie of
      src/other/PruneTrie.cpp and its theorems.

    The libraries meet in a few places: ArchTable uses the byte sexes of CInt,
    BestArch is called with the cputypes of CpuTypes and on the slices of the
    fat headers of HeaderSwap, the alignment of a file (Rounding) is read
    through the loads and swaps of HeaderSwap, and the interpreter of DyldBind
    looks into the segments and sections of HeaderSwap and swaps pointers with
    SWAP_LONG_LONG.  SwapHeaders reads the headers of HeaderSwap and carries
    out the lists of Assigns.  check_Mach_O swaps with the same lists,
    records its parts with Overlap; the members of an archive that are object
    files are checked by check_Mach_O where they are, and their tables of
    contents swapped; lipo writes what the check of fat files
    reads.  doarcs runs the numbering of Dfn on the graph CallGraph reads, and
    cyclelink works on its result.  prune_trie parses a trie with TrieParse and
    builds one with TrieBuild.  A decimal number is made of flonums that Atof
    multiplies and copies with Flonum.

    ** How C is modelled

    Integers are [Z]; wherever an operation can leave its type the conversion
    is written out ([u32], [u64], [i32], ...).  A file in memory is a list of
    bytes, and a structure what a host [LE] or [BE] loads from it.  A routine
    that swaps in place is a function from the old structure to the new one.
    Tables are lists, searched in the order of the source.  A statement list
    with returns is an option ([seq_ret], written [;;;]).  Errors are values: a
    call that exits, aborts or reads through NULL has a constructor for it, as
    has undefined behaviour where the code can run into it ([undefined] in
    DyldBind, [NullHeader] in Rounding); [swap_object_headers] is in a monad
    of its own, where an access outside of the image is [Out_of_bounds], and
    check_Mach_O, the fat files and the tries are in the monad [outcome] with
    the failures of each.  A
    structure that several pointers reach (the functions and arcs of gprof,
    the entries of a hash table) is a cell of a store, and a pointer its
    index or address.  The outputs of the bind interpreter
    (errors counted and printed, entries counted and stored) are events of an
    opcode, carried out by [apply_events] according to the pass.

    Loops without a structural bound have fuel, and theorems say it is
    enough: 64 rounds for [guess_align], four bytes of a length for [crc32],
    the number of the opcode bytes for a pass of the bind interpreter and 2048
    pointers for a chain, which is what a page holds; the number of functions
    for the binary search and for the chains of a cycle, the depth of
    [DFN_DEPTH] for the search; the number of cells allocated for a chain of a
    hash table; the bytes of the command for the walks over thread states
    (each flavor takes eight at least).  In the tries a number of 64 bits has
    at most ten bytes, addEntry goes down at most as often as the name has
    characters, the offsets settle after at most 4 n + 2 rounds for n edges,
    and the parser goes down at most as often as the trie has bytes.  The loops
    over the members of an archive go round at most as often as it has bytes:
    a header takes 60.  The search for the first bit of a flonum goes through
    the bits of its littlenums, and an exponent has 32 bits.

    ** What the theorems show

    - The check of object files: of an accepted file the parts the load
      commands point to are inside of the file and recorded, and segments, encrypted
      ranges and notes inside of it, but for what the check lets pass
      ([command_parts], [command_ranges], [check_Mach_O_sound]); the
      check itself never looks outside of the file and ends, whatever the file
      holds ([check_Mach_O_safe]); hosts of both byte sexes agree, but for
      thread states one cannot swap ([check_Mach_O_byte_sex]).  The examples
      are a null pointer, ranges that wrap around 64 bits, and errors that are
      printed only.
    - Archives: with a 0 byte behind the header that could begin at its end, the
      check ends and reads nothing behind that byte
      ([check_archive_safe]); the walk over an accepted archive sees the
      members of the chain of headers, each once and in order, though members
      are swapped in place meanwhile, when the table of contents fits into its
      member ([archive_walk]); a table of contents that
      fits is swapped and accepted as it says ([toc_checked]).  Names in a
      System V table of strings are not covered: the code takes them from the
      wrong member.
    - Fat files: a 32-bit one is accepted exactly when the architectures lie in
      the file at multiples of their alignments and differ ([fat_file_accepted]; the sums of 64-bit ones
      wrap around); what lipo
      writes is accepted and gives the thin files back ([fat_file_roundtrip]).
    - Export tries, of exports that fit ([exports_fit]): what is built is parsed
      into the exports it was built from ([export_trie_roundtrip]), building ends ([trie_build_total]), and
      pruning a trie that was built keeps exactly the exports asked for
      ([prune_trie_correct]).  Malformed tries are not covered.
    - Choice of a slice: the code computes the preference lists of the
      specification, for every cputype and subtype
      ([findbestarch_refines_preferences]), which are not those of the comments
      for VEO1 and ARM ([veo_1_falls_through], [arm_comment_not_followed]); a chosen slice can be executed by
      the host; the 64-bit variant returns a pointer into its array; the copy
      in libmacho agrees outside of the families listed in [nx_find_agrees],
      and differs as [nx_arm64_choice] and [nx_ppc_never_750] say.
    - Combination of subtypes: [combine_ppc_sound], [combine_symmetric],
      [combine_arm_matrix].
    - Whole files: a file with a plan comes back when it is swapped on one
      host and then on the other, and the other host reads the same header and
      load commands in it, field by field, but for two fields that are not
      swapped ([swap_object_headers_reads_back]); the routine ends on every input; a command that is accepted is swapped
      inside its own bytes, but for seven kinds, and [second_pass_out_of_bounds],
      [first_pass_too_strict] and [thread_states_changed] are runs where the
      two passes do not fit together.  After the copies in libmacho a host reads
      what the other one read, but for two structures ([nx_swap_correct]).  Parts of a file that come in ascending
      order are accepted just when they are apart; [overlap_missed] is an
      order in which an overlap is accepted.
    - The call graph: it is well formed and holds the counts of the profile;
      the cycles are its strongly connected components and the numbers a
      topological order of them; calls of a cycle are conserved, and the
      checks of timepropagate hold.
    - The assembler: hash tables are finite maps; products of flonums are
      exact where no column overflows and there is room, copies keep values, and the tables of
      the powers of ten have the stated errors.  A flonum becomes the nearest
      number of a format, halves up, most denormal ones included
      ([gen_to_words_rounds]), and so does a decimal number that is an integer
      of at most 64 or 96 bits with at most 11 or 21 digits before its zeros
      ([atof_ieee_nearest]); the examples of
      DecimalSpec are numbers that become a NaN, an infinity or zero.
    - Byte order: swapping what one host read gives what the other host reads,
      for every structure but the four of [swap_defects]; relocation entries
      come back from a round trip whatever the uninitialised local held.
    - Names and tables: round trips between names and types, buffers large
      enough, allocation matched by release.
    - Small routines: the table-driven CRC is polynomial division and detects
      every error of one byte; rounding, alignment, version numbers, hash.
    - Bind opcodes: the integer readers are exact; the interpreter ends on
      every input; it computes the events of the stream; bindings that are
      encoded are read back; without errors every entry is valid, but its type
      may never have been set; the second
      pass stays in its array unless the stream uses the threaded format, and
      [bind_second_pass_differs] is a stream for which it does not.

    ** What is not modelled

    Input and output, allocation beyond success and failure, and the text of
    messages.  SWAP_FLOAT.  The thread states with bit-fields are an argument
    of SwapHeaders and CheckMachO.  Times in gprof, which are floating-point
    numbers, its printing, and the reading of its files.  Of libstuff/ofile.c
    the mapping of files and the modules of dynamic libraries; of misc/lipo.c the input files that
    are not fat and the options that only select files.  Left for later
    are the chained fixups of otool, the thread states of libmacho,
    and the expressions of as/; the [double] arithmetic of atof_generic is
    done with integers, and its uninitialised arrays are arguments.  The disassemblers, the
    machine-dependent parts of the assembler and the tools that are mostly
    input and output are left out, and so is the rest of the linker. *)

From Stdlib Require Import ZArith Lia Bool.
From Stdlib Require Import Init.Byte.
From stdpp Require Import base list strings option numbers.

#[global] Open Scope Z_scope.

(** ** Statements with an early return

    A C statement list whose statements may [return r] is an [option R]:
    [Some r] when it returned, [None] when control falls off its end. *)

Declare Scope cstmt_scope.
Delimit Scope cstmt_scope with cstmt.

Definition seq_ret {R : Type} (c1 c2 : option R) : option R :=
  match c1 with
  | Some r => Some r
  | None => c2
  end.

Notation "c1 ;;; c2" := (seq_ret c1 c2)
  (at level 95, right associativity) : cstmt_scope.
#[global] Open Scope cstmt_scope.

(** [if (b) c] with nothing on the other branch. *)
Definition when {R : Type} (b : bool) (c : option R) : option R :=
  if b then c else None.

Create HintDb cstmt discriminated.
Create HintDb cint discriminated.
Create Rewrite HintDb cint.

Lemma seq_ret_Some {R} (c1 c2 : option R) r :
  (c1 ;;; c2) = Some r -> c1 = Some r \/ (c1 = None /\ c2 = Some r).
Proof. destruct c1; simpl; intros; [left|right]; auto. Qed.

Lemma seq_ret_None {R} (c1 c2 : option R) :
  (c1 ;;; c2) = None <-> c1 = None /\ c2 = None.
Proof. destruct c1; simpl; intuition congruence. Qed.

Lemma seq_ret_assoc {R} (c1 c2 c3 : option R) :
  ((c1 ;;; c2) ;;; c3) = (c1 ;;; (c2 ;;; c3)).
Proof. by destruct c1. Qed.

Lemma seq_ret_None_l {R} (c : option R) : (None ;;; c) = c.
Proof. done. Qed.

Lemma seq_ret_None_r {R} (c : option R) : (c ;;; None) = c.
Proof. by destruct c. Qed.

(** [returns P c]: whenever [c] returns, the returned value satisfies [P]. *)
Definition returns {R} (P : R -> Prop) (c : option R) : Prop :=
  forall r, c = Some r -> P r.

Lemma returns_seq {R} (P : R -> Prop) c1 c2 :
  returns P c1 -> returns P c2 -> returns P (c1 ;;; c2).
Proof. intros H1 H2 r [Hr|[_ Hr]]%seq_ret_Some; auto. Qed.

Lemma returns_when {R} (P : R -> Prop) b c :
  (b = true -> returns P c) -> returns P (when b c).
Proof. destruct b; intros H; [by apply H|discriminate]. Qed.

Lemma returns_None {R} (P : R -> Prop) : returns P None.
Proof. discriminate. Qed.

#[export] Hint Resolve returns_seq returns_when returns_None : cstmt.

(** ** Loops that return at the first element satisfying a test

    [for(i = 0; i < n; i++) if(p(a[i])) return(i);] *)

Fixpoint find_index {A} (p : A -> bool) (l : list A) : option nat :=
  match l with
  | [] => None
  | x :: l' => if p x then Some O else S <$> find_index p l'
  end.

Section find_index.
Context {A : Type}.
Implicit Types (p q : A -> bool) (l : list A).

Lemma find_index_Some p l i :
  find_index p l = Some i <->
  (exists x, l !! i = Some x /\ p x = true) /\
  (forall j y, (j < i)%nat -> l !! j = Some y -> p y = false).
Proof.
  revert i. induction l as [|x l IH]; intros i; simpl.
  - split; [done|]. intros [(y & Hy & _) _]. by rewrite lookup_nil in Hy.
  - destruct (p x) eqn:Hx.
    + split.
      * intros [= <-]. split; [by exists x|]. intros; lia.
      * intros [(y & Hy & Hp) Hlt]. destruct i as [|i]; [done|].
        specialize (Hlt O x ltac:(lia) eq_refl). congruence.
    + split.
      * intros (i' & [Hex Hlt]%IH & ->)%fmap_Some. split; [done|].
        intros [|j] y Hj Hy; simpl in *; [congruence|].
        apply (Hlt j y); [lia|done].
      * intros [(y & Hy & Hp) Hlt]. destruct i as [|i]; simpl in Hy.
        { congruence. }
        apply fmap_Some. exists i. split; [|done]. apply IH. split; [eauto|].
        intros j z Hj Hz. apply (Hlt (S j) z); [lia|done].
Qed.

Lemma find_index_None p l :
  find_index p l = None <-> (forall x, x ∈ l -> p x = false).
Proof.
  induction l as [|x l IH]; simpl.
  - split; [|done]. intros _ x Hx. by apply elem_of_nil in Hx.
  - destruct (p x) eqn:Hx.
    + split; [done|]. intros H. specialize (H x ltac:(left)). congruence.
    + rewrite fmap_None, IH. split.
      * intros H y [->|Hy]%elem_of_cons; auto.
      * intros H y Hy. apply H. by right.
Qed.

Lemma find_index_ext p q l :
  (forall x, x ∈ l -> p x = q x) -> find_index p l = find_index q l.
Proof.
  induction l as [|x l IH]; simpl; [done|]. intros H.
  rewrite (H x) by left. rewrite IH; [done|]. intros; apply H. by right.
Qed.

Lemma find_index_lt p l i : find_index p l = Some i -> (i < length l)%nat.
Proof.
  intros [(x & Hx & _) _]%find_index_Some. by eapply lookup_lt_Some.
Qed.
End find_index.

(** ** Loops that carry an accumulator *)

Lemma fold_left_preserves {A B} (P : A -> Prop) (f : A -> B -> A) l a :
  (forall a b, P a -> P (f a b)) -> P a -> P (fold_left f l a).
Proof. intros Hf. revert a. induction l as [|b l IH]; intros a Ha; simpl; auto. Qed.

(** Two loops that do the same on the states that can occur. *)
Lemma fold_left_fmap_ext {A B C} (P : A -> Prop) (f : A -> B -> A) (g : A -> C -> A)
    (h : B -> C) l a :
  (forall a b, P a -> f a b = g a (h b)) -> (forall a b, P a -> P (f a b)) -> P a ->
  fold_left f l a = fold_left g (h <$> l) a.
Proof.
  intros Hfg Hf. revert a. induction l as [|b l IH]; intros a Ha; simpl; [done|].
  rewrite <- Hfg by done. apply IH. by apply Hf.
Qed.

(** A loop whose steps lose no information loses none. *)
Lemma fold_left_inj {A B} (P : A -> Prop) (Q : B -> Prop) (f : A -> B -> A) l a1 a2 :
  (forall a1 a2 b, P a1 -> P a2 -> Q b -> f a1 b = f a2 b -> a1 = a2) ->
  (forall a b, P (f a b)) -> Forall Q l -> P a1 -> P a2 ->
  fold_left f l a1 = fold_left f l a2 -> a1 = a2.
Proof.
  intros Hinj HP Hl. revert a1 a2. induction Hl as [|b l Hb Hl IH]; intros a1 a2 H1 H2 H;
    simpl in H; [done|]. eapply Hinj; [exact H1|exact H2|exact Hb|]. by apply IH.
Qed.

(** Case analysis on the boolean integer tests the code is written with. *)
Ltac bool_to_prop :=
  repeat match goal with
  | H : (_ && _) = true |- _ => apply andb_true_iff in H; destruct H
  | H : (_ || _) = false |- _ => apply orb_false_iff in H; destruct H
  | H : negb _ = true |- _ => apply negb_true_iff in H
  | H : negb _ = false |- _ => apply negb_false_iff in H
  | H : (_ =? _) = true |- _ => apply Z.eqb_eq in H
  | H : (_ =? _) = false |- _ => apply Z.eqb_neq in H
  | H : (_ <? _) = true |- _ => apply Z.ltb_lt in H
  | H : (_ <? _) = false |- _ => apply Z.ltb_ge in H
  | H : (_ <=? _) = true |- _ => apply Z.leb_le in H
  | H : (_ <=? _) = false |- _ => apply Z.leb_gt in H
  end.

(** Linear arithmetic with quotients and remainders by constants. *)
Ltac div_lia := Z.to_euclidean_division_equations; lia.

(** Evaluates the equality tests between constants in the goal. *)
Ltac is_Z_const x :=
  first [ is_const x | lazymatch x with Z0 => idtac | Zpos _ => idtac | Zneg _ => idtac end ].

Ltac eval_eqb :=
  repeat match goal with
  | |- context [?a =? ?b] =>
      is_Z_const a; is_Z_const b;
      let v := eval vm_compute in (a =? b) in
      change (a =? b) with v
  end; cbn [orb andb negb].

(** Case analysis on the [find_index] of the goal. *)
Tactic Notation "destruct_find" "as" ident(i) ident(H) :=
  match goal with
  | |- context [find_index ?p ?l] => destruct (find_index p l) as [i|] eqn:H
  end.

(** ** Computations that can fail

    [outcome F A] is what a routine that can stop in one of the ways [F]
    returns; the notation of the option monad works for it. *)

Inductive outcome (F A : Type) : Type :=
  | Ret (a : A)
  | Stop (f : F).
Arguments Ret {F A} a.
Arguments Stop {F A} f.

#[export] Instance outcome_bind F : MBind (outcome F) := fun A B k m =>
  match m with Ret a => k a | Stop f => Stop f end.
#[export] Instance outcome_ret F : MRet (outcome F) := fun A a => Ret a.

(** [x] or the failure [f]. *)
Definition or_stop {F A} (f : F) (x : option A) : outcome F A :=
  match x with Some a => Ret a | None => Stop f end.

Lemma bind_Ret {F A B} (m : outcome F A) (k : A -> outcome F B) b :
  m ≫= k = Ret b <-> exists a, m = Ret a /\ k a = Ret b.
Proof.
  destruct m as [a|f]; simpl; split; [by eauto|..].
  - by intros (a' & [= <-] & H).
  - done.
  - by intros (a & ? & _).
Qed.

Lemma or_stop_Ret {F A} (f : F) (x : option A) a : or_stop f x = Ret a <-> x = Some a.
Proof. destruct x; simpl; split; congruence. Qed.

(** Splits the equations that say a computation succeeded. *)
Ltac invert_ret :=
  repeat match goal with
  | H : _ ≫= _ = Ret _ |- _ => apply bind_Ret in H as (? & ? & H)
  | H : or_stop _ _ = Ret _ |- _ => apply or_stop_Ret in H
  | H : Ret _ = Ret _ |- _ => injection H as H
  | H : Stop _ = Ret _ |- _ => discriminate H
  end.
