(* ===== verification/CInt.v ===== *)
(** * C integers, bytes and loads

    The conversions between the integer types the sources use, written out
    as arithmetic modulo a power of two on [Z], and loads of 16-, 32- and
    64-bit integers of either byte sex from a sequence of bytes. *)

From Stdlib Require Import ZArith Lia.
From Stdlib Require Import Init.Byte Strings.Byte.
From stdpp Require Import base list option strings pretty numbers.
From S2P Require Import Prelude.

(** ** Conversions to the fixed-width types (two's complement) *)

Definition uw (w z : Z) : Z := z mod 2 ^ w.
Definition sw (w z : Z) : Z := (z + 2 ^ (w - 1)) mod 2 ^ w - 2 ^ (w - 1).

Abbreviation u8 := (uw 8).
Abbreviation u16 := (uw 16).
Abbreviation u32 := (uw 32).
Abbreviation u64 := (uw 64).
Abbreviation i16 := (sw 16).
Abbreviation i32 := (sw 32).
Abbreviation i64 := (sw 64).

Definition in_uw (w z : Z) : Prop := 0 <= z < 2 ^ w.
Definition in_sw (w z : Z) : Prop := - 2 ^ (w - 1) <= z < 2 ^ (w - 1).

Lemma uw_range w z : 0 <= w -> in_uw w (uw w z).
Proof. intros. apply Z.mod_pos_bound. lia. Qed.

Lemma uw_id w z : in_uw w z -> uw w z = z.
Proof. apply Z.mod_small. Qed.

Lemma sw_range w z : 0 < w -> in_sw w (sw w z).
Proof.
  intros. unfold in_sw, sw.
  replace (2 ^ w) with (2 * 2 ^ (w - 1)).
  - pose proof (Z.mod_pos_bound (z + 2 ^ (w - 1)) (2 * 2 ^ (w - 1))). lia.
  - rewrite <- Z.pow_succ_r by lia. f_equal. lia.
Qed.

Lemma pow2_half w : 0 < w -> 2 ^ w = 2 * 2 ^ (w - 1).
Proof. intros. rewrite <- Z.pow_succ_r by lia. f_equal. lia. Qed.

Lemma sw_id w z : 0 < w -> in_sw w z -> sw w z = z.
Proof.
  unfold in_sw, sw. intros Hw Hz. rewrite (pow2_half w Hw) in *.
  rewrite Z.mod_small; lia.
Qed.

Lemma sw_uw w z : 0 < w -> sw w (uw w z) = sw w z.
Proof. intros. unfold sw, uw. by rewrite Zplus_mod_idemp_l. Qed.

Lemma uw_sw w z : 0 < w -> uw w (sw w z) = uw w z.
Proof.
  intros. unfold sw, uw. rewrite Zminus_mod_idemp_l.
  f_equal. lia.
Qed.

Lemma sw_cong w a b : 0 < w -> uw w a = uw w b -> sw w a = sw w b.
Proof. intros Hw H. by rewrite <- (sw_uw w a), H, sw_uw. Qed.

Lemma i32_add_l a b : i32 (i32 a + b) = i32 (a + b).
Proof.
  apply sw_cong; [done|]. unfold uw. rewrite <- (Z.add_mod_idemp_l (i32 a)) by done.
  change (i32 a mod 2 ^ 32) with (uw 32 (i32 a)). rewrite uw_sw by done.
  unfold uw. by rewrite Z.add_mod_idemp_l.
Qed.

Lemma uw_uw w z : uw w (uw w z) = uw w z.
Proof. unfold uw. apply Zmod_mod. Qed.

Lemma testbit_uw w z i :
  0 <= w -> 0 <= i -> Z.testbit (uw w z) i = Z.testbit z i && (i <? w).
Proof.
  intros. unfold uw. destruct (Z.ltb_spec i w).
  - rewrite Z.mod_pow2_bits_low by lia. by rewrite andb_true_r.
  - rewrite Z.mod_pow2_bits_high by lia. by rewrite andb_false_r.
Qed.

(** A number below [2^k] has no bit from [k] on. *)
Lemma testbit_above b k i : 0 <= b < 2 ^ k -> k <= i -> Z.testbit b i = false.
Proof.
  intros Hb Hi. destruct (decide (b = 0)) as [->|]; [apply Z.bits_0|].
  assert (0 <= k) by (destruct (Z.lt_ge_cases k 0); [rewrite Z.pow_neg_r in Hb|]; lia).
  apply Z.bits_above_log2; [lia|]. apply Z.log2_lt_pow2; [lia|].
  apply Z.lt_le_trans with (2 ^ k); [lia|]. apply Z.pow_le_mono_r; lia.
Qed.

(** An [|] of a high and a low part that do not overlap is a sum. *)
Lemma lor_disjoint_add k a b :
  0 <= k -> 0 <= b < 2 ^ k -> Z.lor (2 ^ k * a) b = 2 ^ k * a + b.
Proof.
  intros Hk Hb. rewrite Z.mul_comm, <- Z.shiftl_mul_pow2 by lia.
  assert (Hland : Z.land (Z.shiftl a k) b = 0).
  { apply Z.bits_inj'. intros i Hi. rewrite Z.land_spec, Z.bits_0.
    destruct (Z.lt_ge_cases i k).
    - by rewrite Z.shiftl_spec_low by lia.
    - rewrite (testbit_above b k i) by lia. apply andb_false_r. }
  rewrite Z.add_nocarry_lxor by done. symmetry. by apply Z.lxor_lor.
Qed.

Lemma uw_lxor w a b : 0 <= w -> uw w (Z.lxor a b) = Z.lxor (uw w a) (uw w b).
Proof.
  intros. apply Z.bits_inj'. intros i Hi. rewrite Z.lxor_spec, !testbit_uw, Z.lxor_spec by done.
  by destruct (i <? w), (Z.testbit a i), (Z.testbit b i).
Qed.

Lemma lxor_in_uw w a b : 0 <= w -> in_uw w a -> in_uw w b -> in_uw w (Z.lxor a b).
Proof.
  intros Hw Ha Hb. rewrite <- (uw_id w a), <- (uw_id w b), <- uw_lxor by done.
  by apply uw_range.
Qed.

(** Clearing the low [k] bits of a [w]-bit value. *)
Lemma land_lnot_ones w k v :
  0 <= k <= w -> in_uw w v -> Z.land v (uw w (Z.lnot (Z.ones k))) = v / 2 ^ k * 2 ^ k.
Proof.
  intros Hk Hv. rewrite <- Z.shiftr_div_pow2, <- Z.shiftl_mul_pow2 by lia.
  apply Z.bits_inj'. intros i Hi.
  rewrite Z.land_spec, testbit_uw, Z.lnot_spec, Z.testbit_ones_nonneg, Z.shiftl_spec by lia.
  destruct (Z.ltb_spec i k).
  - rewrite (Z.testbit_neg_r _ (i - k)) by lia. by rewrite andb_false_r.
  - rewrite Z.shiftr_spec, Z.sub_add by lia. destruct (Z.ltb_spec i w); simpl.
    + by rewrite andb_true_r.
    + rewrite (testbit_above v w) by (apply Hv || lia). done.
Qed.

#[export] Hint Resolve uw_range sw_range : cint.
#[export] Hint Rewrite sw_uw uw_sw uw_uw using lia : cint.

(** ** Bytes *)

Definition byte_Z (b : byte) : Z := Z.of_N (Byte.to_N b).

Lemma byte_Z_range b : 0 <= byte_Z b < 256.
Proof. unfold byte_Z. pose proof (Byte.to_N_bounded b). lia. Qed.

Lemma byte_Z_inj a b : byte_Z a = byte_Z b -> a = b.
Proof.
  unfold byte_Z. intros H%N2Z.inj. apply (f_equal Byte.of_N) in H.
  rewrite !Byte.of_to_N in H. by injection H.
Qed.

(** The byte of a number below 256. *)
Definition byte_of (z : Z) : byte := default x00 (Byte.of_N (Z.to_N z)).

Lemma byte_Z_of z : 0 <= z < 256 -> byte_Z (byte_of z) = z.
Proof.
  intros Hz. unfold byte_of, byte_Z. destruct (Byte.of_N (Z.to_N z)) as [b|] eqn:E; simpl.
  - apply Byte.to_of_N in E. rewrite E. lia.
  - apply Byte.of_N_None_iff in E. lia.
Qed.

(** The byte at offset [o] of a memory image; [x00] past its end (the readers
    below are only used within it). *)
Definition byte_at (bs : list byte) (o : nat) : Z := byte_Z (nth o bs x00).

Lemma byte_at_range bs o : 0 <= byte_at bs o < 256.
Proof. apply byte_Z_range. Qed.

(** ** Byte sex (include/stuff/bytesex.h) *)

Inductive byte_sex := UNKNOWN_BYTE_SEX | BIG_ENDIAN_BYTE_SEX | LITTLE_ENDIAN_BYTE_SEX.

#[export] Instance byte_sex_eq_dec : EqDecision byte_sex.
Proof. solve_decision. Defined.

(** The two byte sexes a host can have. *)
Inductive host := LE | BE.

#[export] Instance host_eq_dec : EqDecision host.
Proof. solve_decision. Defined.

Definition host_sex (h : host) : byte_sex :=
  match h with LE => LITTLE_ENDIAN_BYTE_SEX | BE => BIG_ENDIAN_BYTE_SEX end.

Definition other (h : host) : host := match h with LE => BE | BE => LE end.

Lemma other_other h : other (other h) = h.
Proof. by destruct h. Qed.

(** The unsigned value of a sequence of bytes, least significant first. *)
Fixpoint le_value (l : list Z) : Z :=
  match l with
  | [] => 0
  | b :: l' => b + 256 * le_value l'
  end.

Definition value_of (h : host) (l : list Z) : Z :=
  match h with LE => le_value l | BE => le_value (rev l) end.

(** [n] bytes of [bs] from offset [o]. *)
Definition bytes_at (bs : list byte) (o n : nat) : list Z :=
  (fun i => byte_at bs (o + i)) <$> seq 0 n.

(** Loads, as a host of byte sex [h] performs them. *)
Definition ld_u (n : nat) (h : host) (bs : list byte) (o : nat) : Z :=
  value_of h (bytes_at bs o n).

Abbreviation ld_u16 := (ld_u 2).
Abbreviation ld_u32 := (ld_u 4).
Abbreviation ld_u64 := (ld_u 8).
Definition ld_i16 (h : host) (bs : list byte) (o : nat) : Z := i16 (ld_u16 h bs o).
Definition ld_i32 (h : host) (bs : list byte) (o : nat) : Z := i32 (ld_u32 h bs o).

Lemma le_value_range l :
  Forall (fun b => 0 <= b < 256) l -> 0 <= le_value l < 2 ^ (8 * Z.of_nat (length l)).
Proof.
  induction 1 as [|b l Hb Hl IH]; [simpl; lia|].
  cbn [le_value length]. rewrite Nat2Z.inj_succ.
  replace (8 * Z.succ (Z.of_nat (length l))) with (8 + 8 * Z.of_nat (length l)) by lia.
  rewrite Z.pow_add_r by lia. change (2 ^ 8) with 256. lia.
Qed.

Lemma bytes_at_range bs o n : Forall (fun b => 0 <= b < 256) (bytes_at bs o n).
Proof. apply Forall_fmap, Forall_true. intros i. apply byte_at_range. Qed.

Lemma length_bytes_at bs o n : length (bytes_at bs o n) = n.
Proof. unfold bytes_at. by rewrite length_fmap, length_seq. Qed.

Lemma ld_u_range n h bs o : in_uw (8 * Z.of_nat n) (ld_u n h bs o).
Proof.
  unfold ld_u, in_uw. destruct h; simpl.
  - pose proof (le_value_range _ (bytes_at_range bs o n)) as H.
    by rewrite length_bytes_at in H.
  - pose proof (le_value_range (rev (bytes_at bs o n))) as H.
    rewrite length_rev, length_bytes_at in H. apply H.
    apply Forall_rev, bytes_at_range.
Qed.

Lemma ld_u32_range h bs o : in_uw 32 (ld_u32 h bs o).
Proof. apply (ld_u_range 4). Qed.
Lemma ld_u16_range h bs o : in_uw 16 (ld_u16 h bs o).
Proof. apply (ld_u_range 2). Qed.
Lemma ld_u64_range h bs o : in_uw 64 (ld_u64 h bs o).
Proof. apply (ld_u_range 8). Qed.
#[export] Hint Resolve ld_u32_range ld_u16_range ld_u64_range : cint.

(** ** Decimal text: the [%u] conversion

    The standard library's [sprintf] conversion the sources use, and how many
    characters it can write. *)

(** [%u] of an [int] argument: its value converted to unsigned, in decimal. *)
Definition fmt_u (z : Z) : string := pretty (Z.to_N (u32 z)).

Lemma length_pretty_N_go (k : nat) (x : N) (s : string) :
  (x < 10 ^ N.of_nat k)%N ->
  (String.length (pretty_N_go x s) <= k + String.length s)%nat.
Proof.
  revert x s. induction k as [|k IH]; intros x s Hx.
  - assert (x = 0)%N as -> by (simpl in Hx; lia). by rewrite pretty_N_go_0.
  - destruct (decide (x = 0)%N) as [->|].
    + rewrite pretty_N_go_0. lia.
    + rewrite pretty_N_go_step by lia.
      etrans; [apply IH|simpl; lia].
      apply N.Div0.div_lt_upper_bound.
      by rewrite Nat2N.inj_succ, N.pow_succ_r' in Hx.
Qed.

Lemma length_pretty_N (k : nat) (x : N) :
  (0 < k)%nat -> (x < 10 ^ N.of_nat k)%N -> (String.length (pretty x) <= k)%nat.
Proof.
  intros Hk Hx. unfold pretty, pretty_N. case_decide; [simpl; lia|].
  pose proof (length_pretty_N_go k x "" Hx). simpl in *. lia.
Qed.

(** A value below [10 ^ k] takes at most [k] characters; any [unsigned] ten. *)
Lemma length_fmt_u_lt (k : nat) z :
  (0 < k)%nat -> 0 <= z < 10 ^ Z.of_nat k -> z < 2 ^ 32 ->
  (String.length (fmt_u z) <= k)%nat.
Proof.
  intros Hk Hz Hw. unfold fmt_u. apply length_pretty_N; [done|].
  rewrite uw_id by (unfold in_uw; lia).
  apply N2Z.inj_lt. rewrite Z2N.id, N2Z.inj_pow, nat_N_Z by lia.
  change (Z.of_N 10) with 10. lia.
Qed.

Lemma length_fmt_u z : (String.length (fmt_u z) <= 10)%nat.
Proof.
  unfold fmt_u. apply length_pretty_N; [lia|].
  pose proof (uw_range 32 z ltac:(lia)) as H. unfold in_uw in H.
  apply N2Z.inj_lt. rewrite Z2N.id by lia.
  change (Z.of_N (10 ^ N.of_nat 10)) with 10000000000. lia.
Qed.

Lemma length_string_app s1 s2 :
  String.length (s1 +:+ s2) = (String.length s1 + String.length s2)%nat.
Proof. induction s1 as [|a s1 IH]; simpl; [done|]. by rewrite IH. Qed.

#[export] Hint Rewrite length_string_app : cint.
