(* ===== verification/CpuTypes.v ===== *)
(** * cpu types and subtypes

    The constants of include/mach/machine-cctools.h the architecture code
    uses, and the test [cpusubtype & ~CPU_SUBTYPE_MASK] it applies to every
    cpusubtype. *)

From Stdlib Require Import ZArith Lia.
From stdpp Require Import base numbers.
From S2P Require Import Prelude CInt.

(** [integer_t] in the sources: a 32-bit [int], held as its signed value. *)
Abbreviation cpu_type_t := Z (only parsing).
Abbreviation cpu_subtype_t := Z (only parsing).

Definition CPU_TYPE_ANY : cpu_type_t := -1.
Definition CPU_TYPE_MC680x0 : cpu_type_t := 6.
Definition CPU_TYPE_I386 : cpu_type_t := 7.
Definition CPU_ARCH_ABI64 : Z := 0x1000000.
Definition CPU_ARCH_ABI64_32 : Z := 0x2000000.
Definition CPU_TYPE_X86_64 : cpu_type_t := (Z.lor CPU_TYPE_I386 CPU_ARCH_ABI64).
Definition CPU_TYPE_HPPA : cpu_type_t := 11.
Definition CPU_TYPE_ARM : cpu_type_t := 12.
Definition CPU_TYPE_MC88000 : cpu_type_t := 13.
Definition CPU_TYPE_SPARC : cpu_type_t := 14.
Definition CPU_TYPE_I860 : cpu_type_t := 15.
Definition CPU_TYPE_POWERPC : cpu_type_t := 18.
Definition CPU_TYPE_POWERPC64 : cpu_type_t := ((Z.lor CPU_TYPE_POWERPC CPU_ARCH_ABI64)).
Definition CPU_TYPE_VEO : cpu_type_t := 255.
Definition CPU_TYPE_ARM64 : cpu_type_t := ((Z.lor CPU_TYPE_ARM CPU_ARCH_ABI64)).
Definition CPU_TYPE_ARM64_32 : cpu_type_t := ((Z.lor CPU_TYPE_ARM CPU_ARCH_ABI64_32)).
Definition CPU_TYPE_RISCV32 : cpu_type_t := 24.
Definition CPU_SUBTYPE_MASK : Z := 0xff000000.
Definition CPU_SUBTYPE_MULTIPLE : cpu_subtype_t := -1.
Definition CPU_SUBTYPE_I386_ALL : cpu_subtype_t := 3.
Definition CPU_SUBTYPE_X86_64_ALL : cpu_subtype_t := CPU_SUBTYPE_I386_ALL.
Definition CPU_SUBTYPE_486 : cpu_subtype_t := 4.
Definition CPU_SUBTYPE_486SX : cpu_subtype_t := 4 + 128.
Definition CPU_SUBTYPE_586 : cpu_subtype_t := 5.
Definition CPU_SUBTYPE_INTEL (f  m : Z) : Z := f + (Z.shiftl m 4).
Definition CPU_SUBTYPE_PENT : cpu_subtype_t := CPU_SUBTYPE_INTEL 5 0.
Definition CPU_SUBTYPE_PENTPRO : cpu_subtype_t := CPU_SUBTYPE_INTEL 6 1.
Definition CPU_SUBTYPE_PENTII_M3 : cpu_subtype_t := CPU_SUBTYPE_INTEL 6 3.
Definition CPU_SUBTYPE_PENTII_M5 : cpu_subtype_t := CPU_SUBTYPE_INTEL 6 5.
Definition CPU_SUBTYPE_PENTIUM_4 : cpu_subtype_t := CPU_SUBTYPE_INTEL 10 0.
Definition CPU_SUBTYPE_INTEL_FAMILY (x : Z) : Z := (Z.land x 15).
Definition CPU_SUBTYPE_INTEL_FAMILY_MAX : Z := 15.
Definition CPU_SUBTYPE_INTEL_MODEL (x : Z) : Z := (Z.shiftr x 4).
Definition CPU_SUBTYPE_X86_64_H : cpu_subtype_t := 8.
Definition CPU_SUBTYPE_MC680x0_ALL : cpu_subtype_t := 1.
Definition CPU_SUBTYPE_MC68030 : cpu_subtype_t := 1.
Definition CPU_SUBTYPE_MC68040 : cpu_subtype_t := 2.
Definition CPU_SUBTYPE_MC68030_ONLY : cpu_subtype_t := 3.
Definition CPU_SUBTYPE_HPPA_ALL : cpu_subtype_t := 0.
Definition CPU_SUBTYPE_HPPA_7100 : cpu_subtype_t := 0.
Definition CPU_SUBTYPE_HPPA_7100LC : cpu_subtype_t := 1.
Definition CPU_SUBTYPE_ARM_ALL : cpu_subtype_t := 0.
Definition CPU_SUBTYPE_ARM_V4T : cpu_subtype_t := 5.
Definition CPU_SUBTYPE_ARM_V6 : cpu_subtype_t := 6.
Definition CPU_SUBTYPE_ARM_V5TEJ : cpu_subtype_t := 7.
Definition CPU_SUBTYPE_ARM_XSCALE : cpu_subtype_t := 8.
Definition CPU_SUBTYPE_ARM_V7 : cpu_subtype_t := 9.
Definition CPU_SUBTYPE_ARM_V7F : cpu_subtype_t := 10.
Definition CPU_SUBTYPE_ARM_V7S : cpu_subtype_t := 11.
Definition CPU_SUBTYPE_ARM_V7K : cpu_subtype_t := 12.
Definition CPU_SUBTYPE_ARM_V6M : cpu_subtype_t := 14.
Definition CPU_SUBTYPE_ARM_V7M : cpu_subtype_t := 15.
Definition CPU_SUBTYPE_ARM_V7EM : cpu_subtype_t := 16.
Definition CPU_SUBTYPE_ARM_V8 : cpu_subtype_t := 13.
Definition CPU_SUBTYPE_ARM64_ALL : cpu_subtype_t := 0.
Definition CPU_SUBTYPE_ARM64_V8 : cpu_subtype_t := 1.
Definition CPU_SUBTYPE_ARM64E : cpu_subtype_t := 2.
Definition CPU_SUBTYPE_ARM64_32_V8 : cpu_subtype_t := 1.
Definition CPU_SUBTYPE_MC88000_ALL : cpu_subtype_t := 0.
Definition CPU_SUBTYPE_MC88110 : cpu_subtype_t := 2.
Definition CPU_SUBTYPE_I860_ALL : cpu_subtype_t := 0.
Definition CPU_SUBTYPE_I860_860 : cpu_subtype_t := 1.
Definition CPU_SUBTYPE_LITTLE_ENDIAN : cpu_subtype_t := 0.
Definition CPU_SUBTYPE_BIG_ENDIAN : cpu_subtype_t := 1.
Definition CPU_SUBTYPE_SPARC_ALL : cpu_subtype_t := 0.
Definition CPU_SUBTYPE_POWERPC_ALL : cpu_subtype_t := 0.
Definition CPU_SUBTYPE_POWERPC_601 : cpu_subtype_t := 1.
Definition CPU_SUBTYPE_POWERPC_602 : cpu_subtype_t := 2.
Definition CPU_SUBTYPE_POWERPC_603 : cpu_subtype_t := 3.
Definition CPU_SUBTYPE_POWERPC_603e : cpu_subtype_t := 4.
Definition CPU_SUBTYPE_POWERPC_603ev : cpu_subtype_t := 5.
Definition CPU_SUBTYPE_POWERPC_604 : cpu_subtype_t := 6.
Definition CPU_SUBTYPE_POWERPC_604e : cpu_subtype_t := 7.
Definition CPU_SUBTYPE_POWERPC_620 : cpu_subtype_t := 8.
Definition CPU_SUBTYPE_POWERPC_750 : cpu_subtype_t := 9.
Definition CPU_SUBTYPE_POWERPC_7400 : cpu_subtype_t := 10.
Definition CPU_SUBTYPE_POWERPC_7450 : cpu_subtype_t := 11.
Definition CPU_SUBTYPE_POWERPC_970 : cpu_subtype_t := 100.
Definition CPU_SUBTYPE_VEO_1 : cpu_subtype_t := 1.
Definition CPU_SUBTYPE_VEO_2 : cpu_subtype_t := 2.
Definition CPU_SUBTYPE_VEO_3 : cpu_subtype_t := 3.
Definition CPU_SUBTYPE_VEO_4 : cpu_subtype_t := 4.
Definition CPU_SUBTYPE_VEO_ALL : cpu_subtype_t := CPU_SUBTYPE_VEO_2.

(** [cpusubtype & ~CPU_SUBTYPE_MASK]: the mask is an [unsigned int], so the
    [int] operand is converted to unsigned and the feature flags in its high
    byte are cleared. *)
Definition msub (cpusubtype : cpu_subtype_t) : Z :=
  Z.land (u32 cpusubtype) (u32 (Z.lnot CPU_SUBTYPE_MASK)).

Lemma msub_mod st : msub st = st mod 2 ^ 24.
Proof.
  unfold msub. change (u32 (Z.lnot CPU_SUBTYPE_MASK)) with (Z.ones 24).
  rewrite Z.land_ones by lia. unfold uw.
  change (2 ^ 32) with (2 ^ 24 * 2 ^ 8). apply Z.mod_mod_divide.
  by exists (2 ^ 8).
Qed.

Lemma msub_range st : 0 <= msub st < 2 ^ 24.
Proof. rewrite msub_mod. apply Z.mod_pos_bound. lia. Qed.

(** A subtype without feature flags. *)
Definition plain (st : cpu_subtype_t) : Prop := 0 <= st < 2 ^ 24.

Lemma msub_plain st : plain st -> msub st = st.
Proof. rewrite msub_mod. apply Z.mod_small. Qed.

Lemma msub_msub st : msub (msub st) = msub st.
Proof. apply msub_plain, msub_range. Qed.

#[export] Hint Resolve msub_range : cint.
#[export] Hint Rewrite msub_msub : cint.
