(* ===== verification/LoaderH.v ===== *)
(** * include/mach-o/loader.h: magic numbers and load command types *)

From Stdlib Require Import ZArith.
From S2P Require Import Prelude.

Definition MH_MAGIC : Z := 0xfeedface.
Definition MH_MAGIC_64 : Z := 0xfeedfacf.
Definition LC_REQ_DYLD : Z := 0x80000000.
Definition LC_SEGMENT : Z := 0x1.
Definition LC_SYMTAB : Z := 0x2.
Definition LC_SYMSEG : Z := 0x3.
Definition LC_THREAD : Z := 0x4.
Definition LC_UNIXTHREAD : Z := 0x5.
Definition LC_LOADFVMLIB : Z := 0x6.
Definition LC_IDFVMLIB : Z := 0x7.
Definition LC_IDENT : Z := 0x8.
Definition LC_FVMFILE : Z := 0x9.
Definition LC_PREPAGE : Z := 0xa.
Definition LC_DYSYMTAB : Z := 0xb.
Definition LC_LOAD_DYLIB : Z := 0xc.
Definition LC_ID_DYLIB : Z := 0xd.
Definition LC_LOAD_DYLINKER : Z := 0xe.
Definition LC_ID_DYLINKER : Z := 0xf.
Definition LC_PREBOUND_DYLIB : Z := 0x10.
Definition LC_ROUTINES : Z := 0x11.
Definition LC_SUB_FRAMEWORK : Z := 0x12.
Definition LC_SUB_UMBRELLA : Z := 0x13.
Definition LC_SUB_CLIENT : Z := 0x14.
Definition LC_SUB_LIBRARY : Z := 0x15.
Definition LC_TWOLEVEL_HINTS : Z := 0x16.
Definition LC_PREBIND_CKSUM : Z := 0x17.
Definition LC_LOAD_WEAK_DYLIB : Z := Z.lor 0x18 LC_REQ_DYLD.
Definition LC_SEGMENT_64 : Z := 0x19.
Definition LC_ROUTINES_64 : Z := 0x1a.
Definition LC_UUID : Z := 0x1b.
Definition LC_RPATH : Z := Z.lor 0x1c LC_REQ_DYLD.
Definition LC_CODE_SIGNATURE : Z := 0x1d.
Definition LC_SEGMENT_SPLIT_INFO : Z := 0x1e.
Definition LC_REEXPORT_DYLIB : Z := Z.lor 0x1f LC_REQ_DYLD.
Definition LC_LAZY_LOAD_DYLIB : Z := 0x20.
Definition LC_ENCRYPTION_INFO : Z := 0x21.
Definition LC_DYLD_INFO : Z := 0x22.
Definition LC_DYLD_INFO_ONLY : Z := Z.lor 0x22 LC_REQ_DYLD.
Definition LC_LOAD_UPWARD_DYLIB : Z := Z.lor 0x23 LC_REQ_DYLD.
Definition LC_VERSION_MIN_MACOSX : Z := 0x24.
Definition LC_VERSION_MIN_IPHONEOS : Z := 0x25.
Definition LC_FUNCTION_STARTS : Z := 0x26.
Definition LC_DYLD_ENVIRONMENT : Z := 0x27.
Definition LC_MAIN : Z := Z.lor 0x28 LC_REQ_DYLD.
Definition LC_DATA_IN_CODE : Z := 0x29.
Definition LC_SOURCE_VERSION : Z := 0x2a.
Definition LC_DYLIB_CODE_SIGN_DRS : Z := 0x2b.
Definition LC_ENCRYPTION_INFO_64 : Z := 0x2c.
Definition LC_LINKER_OPTION : Z := 0x2d.
Definition LC_LINKER_OPTIMIZATION_HINT : Z := 0x2e.
Definition LC_VERSION_MIN_TVOS : Z := 0x2f.
Definition LC_VERSION_MIN_WATCHOS : Z := 0x30.
Definition LC_NOTE : Z := 0x31.
Definition LC_BUILD_VERSION : Z := 0x32.
Definition LC_DYLD_EXPORTS_TRIE : Z := Z.lor 0x33 LC_REQ_DYLD.
Definition LC_DYLD_CHAINED_FIXUPS : Z := Z.lor 0x34 LC_REQ_DYLD.
Definition LC_FILESET_ENTRY : Z := Z.lor 0x35 LC_REQ_DYLD.
Definition LC_ATOM_INFO : Z := 0x36.
