(* ===== verification/ArchTable.v ===== *)
(** * libstuff/arch.c: the table of known architectures

    [arch_flags] and [cpu_entries] are the two tables of the file, each with
    its terminating entry; the loops over them stop at that entry.  A call of
    [abort] is the value [None]. *)

From Stdlib Require Import ZArith Lia.
From stdpp Require Import base list option strings numbers.
From S2P Require Import Prelude CInt CpuTypes.

(** [struct arch_flag]; a [None] name is a NULL pointer. *)
Record arch_flag := {
  af_name : option string;
  af_cputype : cpu_type_t;
  af_cpusubtype : cpu_subtype_t
}.

#[export] Instance arch_flag_eq_dec : EqDecision arch_flag.
Proof. solve_decision. Defined.

Definition mk_flag (name : string) (ct : cpu_type_t) (st : cpu_subtype_t) : arch_flag :=
  {| af_name := Some name; af_cputype := ct; af_cpusubtype := st |}.

(** The all-zero entry that ends the table, and the value [memset] leaves. *)
Definition zero_flag : arch_flag :=
  {| af_name := None; af_cputype := 0; af_cpusubtype := 0 |}.

Definition arch_flags : list arch_flag := [
  mk_flag "any" CPU_TYPE_ANY CPU_SUBTYPE_MULTIPLE;
  mk_flag "little" CPU_TYPE_ANY CPU_SUBTYPE_LITTLE_ENDIAN;
  mk_flag "big" CPU_TYPE_ANY CPU_SUBTYPE_BIG_ENDIAN;
  mk_flag "ppc64" CPU_TYPE_POWERPC64 CPU_SUBTYPE_POWERPC_ALL;
  mk_flag "x86_64" CPU_TYPE_X86_64 CPU_SUBTYPE_X86_64_ALL;
  mk_flag "x86_64h" CPU_TYPE_X86_64 CPU_SUBTYPE_X86_64_H;
  mk_flag "arm64" CPU_TYPE_ARM64 CPU_SUBTYPE_ARM64_ALL;
  mk_flag "ppc970-64" CPU_TYPE_POWERPC64 CPU_SUBTYPE_POWERPC_970;
  mk_flag "arm64_32" CPU_TYPE_ARM64_32 CPU_SUBTYPE_ARM64_32_V8;
  mk_flag "arm64e" CPU_TYPE_ARM64 CPU_SUBTYPE_ARM64E;
  mk_flag "ppc" CPU_TYPE_POWERPC CPU_SUBTYPE_POWERPC_ALL;
  mk_flag "i386" CPU_TYPE_I386 CPU_SUBTYPE_I386_ALL;
  mk_flag "m68k" CPU_TYPE_MC680x0 CPU_SUBTYPE_MC680x0_ALL;
  mk_flag "hppa" CPU_TYPE_HPPA CPU_SUBTYPE_HPPA_ALL;
  mk_flag "sparc" CPU_TYPE_SPARC CPU_SUBTYPE_SPARC_ALL;
  mk_flag "m88k" CPU_TYPE_MC88000 CPU_SUBTYPE_MC88000_ALL;
  mk_flag "i860" CPU_TYPE_I860 CPU_SUBTYPE_I860_ALL;
  mk_flag "veo" CPU_TYPE_VEO CPU_SUBTYPE_VEO_ALL;
  mk_flag "arm" CPU_TYPE_ARM CPU_SUBTYPE_ARM_ALL;
  mk_flag "ppc601" CPU_TYPE_POWERPC CPU_SUBTYPE_POWERPC_601;
  mk_flag "ppc603" CPU_TYPE_POWERPC CPU_SUBTYPE_POWERPC_603;
  mk_flag "ppc603e" CPU_TYPE_POWERPC CPU_SUBTYPE_POWERPC_603e;
  mk_flag "ppc603ev" CPU_TYPE_POWERPC CPU_SUBTYPE_POWERPC_603ev;
  mk_flag "ppc604" CPU_TYPE_POWERPC CPU_SUBTYPE_POWERPC_604;
  mk_flag "ppc604e" CPU_TYPE_POWERPC CPU_SUBTYPE_POWERPC_604e;
  mk_flag "ppc750" CPU_TYPE_POWERPC CPU_SUBTYPE_POWERPC_750;
  mk_flag "ppc7400" CPU_TYPE_POWERPC CPU_SUBTYPE_POWERPC_7400;
  mk_flag "ppc7450" CPU_TYPE_POWERPC CPU_SUBTYPE_POWERPC_7450;
  mk_flag "ppc970" CPU_TYPE_POWERPC CPU_SUBTYPE_POWERPC_970;
  mk_flag "i486" CPU_TYPE_I386 CPU_SUBTYPE_486;
  mk_flag "i486SX" CPU_TYPE_I386 CPU_SUBTYPE_486SX;
  mk_flag "pentium" CPU_TYPE_I386 CPU_SUBTYPE_PENT;
  mk_flag "i586" CPU_TYPE_I386 CPU_SUBTYPE_586;
  mk_flag "pentpro" CPU_TYPE_I386 CPU_SUBTYPE_PENTPRO;
  mk_flag "i686" CPU_TYPE_I386 CPU_SUBTYPE_PENTPRO;
  mk_flag "pentIIm3" CPU_TYPE_I386 CPU_SUBTYPE_PENTII_M3;
  mk_flag "pentIIm5" CPU_TYPE_I386 CPU_SUBTYPE_PENTII_M5;
  mk_flag "pentium4" CPU_TYPE_I386 CPU_SUBTYPE_PENTIUM_4;
  mk_flag "m68030" CPU_TYPE_MC680x0 CPU_SUBTYPE_MC68030_ONLY;
  mk_flag "m68040" CPU_TYPE_MC680x0 CPU_SUBTYPE_MC68040;
  mk_flag "hppa7100LC" CPU_TYPE_HPPA CPU_SUBTYPE_HPPA_7100LC;
  mk_flag "veo1" CPU_TYPE_VEO CPU_SUBTYPE_VEO_1;
  mk_flag "veo2" CPU_TYPE_VEO CPU_SUBTYPE_VEO_2;
  mk_flag "veo3" CPU_TYPE_VEO CPU_SUBTYPE_VEO_3;
  mk_flag "veo4" CPU_TYPE_VEO CPU_SUBTYPE_VEO_4;
  mk_flag "armv4t" CPU_TYPE_ARM CPU_SUBTYPE_ARM_V4T;
  mk_flag "armv5" CPU_TYPE_ARM CPU_SUBTYPE_ARM_V5TEJ;
  mk_flag "xscale" CPU_TYPE_ARM CPU_SUBTYPE_ARM_XSCALE;
  mk_flag "armv6" CPU_TYPE_ARM CPU_SUBTYPE_ARM_V6;
  mk_flag "armv6m" CPU_TYPE_ARM CPU_SUBTYPE_ARM_V6M;
  mk_flag "armv7" CPU_TYPE_ARM CPU_SUBTYPE_ARM_V7;
  mk_flag "armv7f" CPU_TYPE_ARM CPU_SUBTYPE_ARM_V7F;
  mk_flag "armv7s" CPU_TYPE_ARM CPU_SUBTYPE_ARM_V7S;
  mk_flag "armv7k" CPU_TYPE_ARM CPU_SUBTYPE_ARM_V7K;
  mk_flag "armv7m" CPU_TYPE_ARM CPU_SUBTYPE_ARM_V7M;
  mk_flag "armv7em" CPU_TYPE_ARM CPU_SUBTYPE_ARM_V7EM;
  mk_flag "arm64v8" CPU_TYPE_ARM64 CPU_SUBTYPE_ARM64_V8;
  zero_flag
].

Record cpu_entry := {
  ce_cputype : cpu_type_t;
  ce_endian : byte_sex;
  ce_staddr : Z;
  ce_segalign : Z
}.

Definition cpu_entries : list cpu_entry := [
  {| ce_cputype := CPU_TYPE_ARM64; ce_endian := LITTLE_ENDIAN_BYTE_SEX;
     ce_staddr := 0; ce_segalign := 0x4000 |};
  {| ce_cputype := CPU_TYPE_ARM64_32; ce_endian := LITTLE_ENDIAN_BYTE_SEX;
     ce_staddr := 0; ce_segalign := 0x4000 |};
  {| ce_cputype := CPU_TYPE_ARM; ce_endian := LITTLE_ENDIAN_BYTE_SEX;
     ce_staddr := 0; ce_segalign := 0x4000 |};
  {| ce_cputype := CPU_TYPE_X86_64; ce_endian := LITTLE_ENDIAN_BYTE_SEX;
     ce_staddr := 0x7fff5fc00000; ce_segalign := 0x1000 |};
  {| ce_cputype := CPU_TYPE_I386; ce_endian := LITTLE_ENDIAN_BYTE_SEX;
     ce_staddr := 0xc0000000; ce_segalign := 0x1000 |};
  {| ce_cputype := CPU_TYPE_POWERPC; ce_endian := BIG_ENDIAN_BYTE_SEX;
     ce_staddr := 0xc0000000; ce_segalign := 0x1000 |};
  {| ce_cputype := CPU_TYPE_POWERPC64; ce_endian := BIG_ENDIAN_BYTE_SEX;
     ce_staddr := 0x7ffff00000000; ce_segalign := 0x1000 |};
  {| ce_cputype := CPU_TYPE_VEO; ce_endian := BIG_ENDIAN_BYTE_SEX;
     ce_staddr := 0xc0000000; ce_segalign := 0x1000 |};
  {| ce_cputype := CPU_TYPE_MC680x0; ce_endian := BIG_ENDIAN_BYTE_SEX;
     ce_staddr := 0x04000000; ce_segalign := 0x2000 |};
  {| ce_cputype := CPU_TYPE_MC88000; ce_endian := BIG_ENDIAN_BYTE_SEX;
     ce_staddr := 0xffffe000; ce_segalign := 0x2000 |};
  {| ce_cputype := CPU_TYPE_SPARC; ce_endian := BIG_ENDIAN_BYTE_SEX;
     ce_staddr := 0xf0000000; ce_segalign := 0x2000 |};
  {| ce_cputype := CPU_TYPE_I860; ce_endian := BIG_ENDIAN_BYTE_SEX;
     ce_staddr := 0; ce_segalign := 0x2000 |};
  {| ce_cputype := CPU_TYPE_HPPA; ce_endian := BIG_ENDIAN_BYTE_SEX;
     ce_staddr := 0; ce_segalign := 0x2000 |};
  {| ce_cputype := 0; ce_endian := UNKNOWN_BYTE_SEX;
     ce_staddr := 0; ce_segalign := 0 |}
].

(** [for(i = 0; arch_flags[i].name != NULL; i++) if(p(arch_flags[i])) ...] *)
Fixpoint scan_flags (p : arch_flag -> bool) (l : list arch_flag) : option arch_flag :=
  match l with
  | [] => None
  | f :: l' =>
      match af_name f with
      | None => None
      | Some _ => if p f then Some f else scan_flags p l'
      end
  end.

(** The return value and the struct stored through a non-NULL [arch_flag]. *)
Definition get_arch_from_flag (name : string) : Z * arch_flag :=
  match scan_flags (fun f => bool_decide (af_name f = Some name)) arch_flags with
  | Some f => (1, f)
  | None => (0, zero_flag)
  end.

Definition get_arch_flags : list arch_flag := arch_flags.

Definition get_arch_name_if_known (cputype : cpu_type_t) (cpusubtype : cpu_subtype_t)
    : option string :=
  f ← scan_flags (fun f => (af_cputype f =? cputype) &&
                           (msub (af_cpusubtype f) =? msub cpusubtype)) arch_flags;
  af_name f.

(** The buffer [savestr] allocates before [sprintf] writes into it. *)
Definition unknown_arch_buffer : string := "cputype 1234567890 cpusubtype 1234567890".

Definition get_arch_name_from_types (cputype : cpu_type_t) (cpusubtype : cpu_subtype_t)
    : string :=
  match get_arch_name_if_known cputype cpusubtype with
  | Some s => s
  | None => "cputype " +:+ fmt_u cputype +:+ " cpusubtype " +:+ fmt_u (msub cpusubtype)
  end.

Definition get_arch_family_from_cputype (cputype : cpu_type_t) : option arch_flag :=
  if cputype =? CPU_TYPE_ARM64 then None
  else scan_flags (fun f => af_cputype f =? cputype) arch_flags.

(** [for (i = 0; cpu_entries[i].cputype != 0; ++i)]; [None] is the call of
    [abort_with_unknown_cputype]. *)
Fixpoint scan_entries (cputype : cpu_type_t) (l : list cpu_entry) : option cpu_entry :=
  match l with
  | [] => None
  | e :: l' =>
      if ce_cputype e =? 0 then None
      else if ce_cputype e =? cputype then Some e
      else scan_entries cputype l'
  end.

Definition get_cpu_entry_from_cputype (cputype : cpu_type_t) : option cpu_entry :=
  scan_entries cputype cpu_entries.

Definition get_byte_sex_from_flag (flag : arch_flag) : option byte_sex :=
  ce_endian <$> get_cpu_entry_from_cputype (af_cputype flag).

Definition get_stack_addr_from_flag (flag : arch_flag) : option Z :=
  ce_staddr <$> get_cpu_entry_from_cputype (af_cputype flag).

Definition get_segalign_from_flag (flag : arch_flag) : option Z :=
  ce_segalign <$> get_cpu_entry_from_cputype (af_cputype flag).

Definition get_shared_region_size_from_flag (flag : arch_flag) : Z :=
  if af_cputype flag =? CPU_TYPE_ARM then 0x08000000 else 0x10000000.

Definition force_cpusubtype_ALL_for_cputype (cputype : cpu_type_t) : bool :=
  cputype =? CPU_TYPE_I386.

(** ** Lemmas about the scans *)

Lemma scan_flags_Some p l f :
  scan_flags p l = Some f -> f ∈ l /\ p f = true /\ af_name f <> None.
Proof.
  induction l as [|g l IH]; simpl; [done|].
  destruct (af_name g) eqn:Hn; [|done]. destruct (p g) eqn:Hp.
  - intros [= <-]. split_and!; [by left|done|congruence].
  - intros (? & ? & ?)%IH. split_and!; [by right|done|done].
Qed.

(** A property of the rows of the table, checked by evaluation. *)
Definition all_flags (p : arch_flag -> bool) : bool := forallb p arch_flags.

Lemma all_flags_scan p q f :
  all_flags q = true -> scan_flags p arch_flags = Some f -> q f = true.
Proof.
  intros Hq (Hin & _ & _)%scan_flags_Some. unfold all_flags in Hq.
  rewrite forallb_forall in Hq. by apply Hq, list_elem_of_In.
Qed.

Lemma scan_entries_Some ct l e :
  scan_entries ct l = Some e -> e ∈ l /\ ce_cputype e = ct /\ ct <> 0.
Proof.
  induction l as [|g l IH]; simpl; [done|].
  destruct (Z.eqb_spec (ce_cputype g) 0); [done|].
  destruct (Z.eqb_spec (ce_cputype g) ct) as [<-|].
  - intros [= <-]. split_and!; [by left|done|done].
  - intros (? & ? & ?)%IH. split_and!; [by right|done|done].
Qed.

Lemma cpu_entries_None ct :
  scan_entries ct cpu_entries = None <->
  ~ exists e, e ∈ cpu_entries /\ ce_cputype e = ct /\ ce_cputype e <> 0.
Proof.
  split.
  - intros Hs (e & Hin & <- & Hne).
    unfold cpu_entries in Hin. rewrite !elem_of_cons, elem_of_nil in Hin.
    destruct_or!; subst; first [done | vm_compute in Hs; discriminate].
  - intros Hno. destruct (scan_entries ct cpu_entries) as [e|] eqn:He; [|done].
    apply scan_entries_Some in He as (? & ? & ?). destruct Hno. exists e. split_and!; congruence.
Qed.

(** ** Properties *)

(** The name lookup and the type lookup are inverse to each other up to
    aliases.  Whatever name [get_arch_from_flag] accepts, the types it stores
    have a canonical name, and that name leads back to the same cputype and to
    the same cpusubtype. *)
Theorem arch_name_roundtrip (name : string) (f : arch_flag) :
  get_arch_from_flag name = (1, f) ->
  af_name f = Some name /\
  exists canon g,
    get_arch_name_if_known (af_cputype f) (af_cpusubtype f) = Some canon /\
    get_arch_from_flag canon = (1, g) /\
    af_cputype g = af_cputype f /\ af_cpusubtype g = af_cpusubtype f.
Proof.
  unfold get_arch_from_flag at 1.
  destruct (scan_flags _ arch_flags) as [g|] eqn:Hg; [|done].
  intros [= <-].
  pose proof (scan_flags_Some _ _ _ Hg) as (_ & Hp%bool_decide_eq_true & _).
  split; [done|].
  pose (q g := match get_arch_name_if_known (af_cputype g) (af_cpusubtype g) with
    | Some c => let (r, g') := get_arch_from_flag c in
        (r =? 1) && (af_cputype g' =? af_cputype g) &&
        (af_cpusubtype g' =? af_cpusubtype g)
    | None => bool_decide (af_name g = None)
    end).
  assert (Hq : q g = true).
  { eapply all_flags_scan; [|exact Hg]. vm_compute. reflexivity. }
  unfold q in Hq. destruct (get_arch_name_if_known _ _) as [c|] eqn:Hc.
  - destruct (get_arch_from_flag c) as [r g'] eqn:Hr. bool_to_prop. subst r.
    exists c, g'. done.
  - apply bool_decide_eq_true in Hq. congruence.
Qed.

Lemma arch_name_roundtrip_witness :
  get_arch_from_flag "i586" = (1, mk_flag "i586" CPU_TYPE_I386 CPU_SUBTYPE_586) /\
  exists canon g,
    get_arch_name_if_known CPU_TYPE_I386 CPU_SUBTYPE_586 = Some canon /\
    get_arch_from_flag canon = (1, g) /\
    af_cputype g = CPU_TYPE_I386 /\ af_cpusubtype g = CPU_SUBTYPE_586.
Proof.
  split; [vm_compute; reflexivity|].
  apply (arch_name_roundtrip "i586" (mk_flag "i586" CPU_TYPE_I386 CPU_SUBTYPE_586)).
  vm_compute. reflexivity.
Defined.

(** The text [get_arch_name_from_types] writes with [sprintf] for an
    unknown architecture never outgrows the buffer [savestr] allocated for it,
    whatever the two 32-bit arguments are. *)
Theorem arch_name_fits_buffer (ct st : Z) :
  get_arch_name_if_known ct st = None ->
  (String.length (get_arch_name_from_types ct st)
     <= String.length unknown_arch_buffer)%nat.
Proof.
  intros Hn. unfold get_arch_name_from_types. rewrite Hn.
  pose proof (length_fmt_u ct). pose proof (length_fmt_u (msub st)).
  rewrite !length_string_app. simpl. lia.
Qed.

Lemma arch_name_fits_buffer_witness :
  get_arch_name_if_known (-2) (-1) = None /\
  (String.length (get_arch_name_from_types (-2) (-1)) <= 40)%nat.
Proof.
  split; [vm_compute; reflexivity|].
  apply (arch_name_fits_buffer (-2) (-1)). vm_compute. reflexivity.
Defined.

(** Every architecture that can be named on a command line, the three
    pseudo-architectures of [CPU_TYPE_ANY] excepted, has a cpu entry, so
    [get_byte_sex_from_flag], [get_stack_addr_from_flag] and
    [get_segalign_from_flag] never abort on it; its byte sex is a known one,
    its segment alignment is a power of two of at least 4096, and its initial
    stack address is a multiple of that alignment. *)
Theorem named_arch_has_entry (name : string) (f : arch_flag) :
  get_arch_from_flag name = (1, f) -> af_cputype f <> CPU_TYPE_ANY ->
  exists s addr align,
    get_byte_sex_from_flag f = Some s /\ s <> UNKNOWN_BYTE_SEX /\
    get_stack_addr_from_flag f = Some addr /\
    get_segalign_from_flag f = Some align /\
    (exists k, 12 <= k /\ align = 2 ^ k) /\ addr mod align = 0 /\ 0 <= addr < 2 ^ 64.
Proof.
  unfold get_arch_from_flag.
  destruct (scan_flags _ arch_flags) as [g|] eqn:Hg; [|done].
  intros [= <-] Hany.
  pose (q g := (af_cputype g =? CPU_TYPE_ANY) || bool_decide (af_name g = None) ||
    match get_cpu_entry_from_cputype (af_cputype g) with
    | Some e => bool_decide (ce_endian e <> UNKNOWN_BYTE_SEX) &&
        (ce_segalign e =? 2 ^ Z.log2 (ce_segalign e)) &&
        (12 <=? Z.log2 (ce_segalign e)) &&
        (ce_staddr e mod ce_segalign e =? 0) &&
        (0 <=? ce_staddr e) && (ce_staddr e <? 2 ^ 64)
    | None => false
    end).
  assert (Hq : q g = true).
  { eapply all_flags_scan; [|exact Hg]. vm_compute. reflexivity. }
  pose proof (scan_flags_Some _ _ _ Hg) as (_ & Hp%bool_decide_eq_true & _).
  unfold q in Hq. rewrite bool_decide_eq_false_2 in Hq by congruence.
  apply Z.eqb_neq in Hany. rewrite Hany in Hq. simpl in Hq.
  unfold get_byte_sex_from_flag, get_stack_addr_from_flag, get_segalign_from_flag.
  destruct (get_cpu_entry_from_cputype _) as [e|]; [|done].
  bool_to_prop. match goal with H : bool_decide _ = true |- _ =>
    apply bool_decide_eq_true in H end.
  exists (ce_endian e), (ce_staddr e), (ce_segalign e).
  split_and!; auto. by exists (Z.log2 (ce_segalign e)).
Qed.

Lemma named_arch_has_entry_witness :
  get_arch_from_flag "x86_64"
    = (1, mk_flag "x86_64" CPU_TYPE_X86_64 CPU_SUBTYPE_X86_64_ALL) /\
  exists s addr align,
    get_byte_sex_from_flag (mk_flag "x86_64" CPU_TYPE_X86_64 CPU_SUBTYPE_X86_64_ALL)
      = Some s /\ s <> UNKNOWN_BYTE_SEX /\
    get_stack_addr_from_flag (mk_flag "x86_64" CPU_TYPE_X86_64 CPU_SUBTYPE_X86_64_ALL)
      = Some addr /\
    get_segalign_from_flag (mk_flag "x86_64" CPU_TYPE_X86_64 CPU_SUBTYPE_X86_64_ALL)
      = Some align /\
    (exists k, 12 <= k /\ align = 2 ^ k) /\ addr mod align = 0 /\ 0 <= addr < 2 ^ 64.
Proof.
  split; [vm_compute; reflexivity|].
  apply (named_arch_has_entry "x86_64"); [vm_compute; reflexivity|].
  vm_compute. discriminate.
Defined.

(** For a cputype that is in no entry the byte sex is not reported as
    [UNKNOWN_BYTE_SEX]: the call aborts, and [UNKNOWN_BYTE_SEX] is never a
    result of [get_byte_sex_from_flag]. *)
Theorem byte_sex_never_unknown (f : arch_flag) :
  get_byte_sex_from_flag f <> Some UNKNOWN_BYTE_SEX /\
  (get_byte_sex_from_flag f = None <->
     ~ exists e, e ∈ cpu_entries /\ ce_cputype e = af_cputype f /\ ce_cputype e <> 0).
Proof.
  unfold get_byte_sex_from_flag, get_cpu_entry_from_cputype. split.
  - intros (e & (Hin & Heq & Hne)%scan_entries_Some & He)%fmap_Some.
    assert (Hall : forallb (fun e => bool_decide (ce_cputype e = 0 \/
      ce_endian e <> UNKNOWN_BYTE_SEX)) cpu_entries = true) by (vm_compute; reflexivity).
    rewrite forallb_forall in Hall.
    specialize (Hall e). rewrite bool_decide_eq_true in Hall.
    apply list_elem_of_In, Hall in Hin as [?|?]; congruence.
  - rewrite fmap_None. apply cpu_entries_None.
Qed.
