(* ===== verification/ByteSex.v ===== *)
(** * libstuff/bytesex.c: the swapping macros, and what swapping promises

    [SWAP_SHORT] and [SWAP_INT] are the macros of include/stuff/bytesex.h,
    [SWAP_LONG_LONG] the function of libstuff/bytesex.c.  The class [Swapped]
    is the contract every [swap_*] routine is held to: swapping a structure a
    host loaded from memory gives what a host of the other byte sex would
    have loaded from the same memory. *)

From Stdlib Require Import ZArith Lia.
From Stdlib Require Import Init.Byte Strings.Byte.
From stdpp Require Import base list option numbers.
From S2P Require Import Prelude CInt.

(** ** The macros *)

(** [( ((a & 0xff) << 8) | ((unsigned short)(a) >> 8) )], an [int]. *)
Definition SWAP_SHORT (a : Z) : Z :=
  Z.lor (Z.shiftl (Z.land a 0xff) 8) (Z.shiftr (u16 a) 8).

(** [( ((a) << 24) | (((a) << 8) & 0x00ff0000) | (((a) >> 8) & 0x0000ff00) |
    ((unsigned int)(a) >> 24) )], an [unsigned int]. *)
Definition SWAP_INT (a : Z) : Z :=
  Z.lor (Z.lor (Z.lor (u32 (Z.shiftl a 24))
                      (Z.land (u32 (Z.shiftl a 8)) 0x00ff0000))
               (Z.land (Z.shiftr a 8) 0x0000ff00))
        (Z.shiftr (u32 a) 24).

(** The [n] bytes of the low [8 n] bits of [z], least significant first. *)
Fixpoint le_bytes (n : nat) (z : Z) : list Z :=
  match n with
  | O => []
  | S n' => z mod 256 :: le_bytes n' (z / 256)
  end.

(** The bytes of an integer in the memory of a host of byte sex [h]. *)
Definition mem_bytes (h : host) (n : nat) (z : Z) : list Z :=
  match h with LE => le_bytes n z | BE => rev (le_bytes n z) end.

(** [SWAP_LONG_LONG] stores [ll] in a union, copies its eight [char]s in the
    opposite order into another one and reads that one. *)
Definition SWAP_LONG_LONG_on (h : host) (ll : Z) : Z :=
  match mem_bytes h 8 ll with
  | [c0; c1; c2; c3; c4; c5; c6; c7] =>
      i64 (value_of h [c7; c6; c5; c4; c3; c2; c1; c0])
  | _ => 0
  end.

(** It gives the same integer on every host (see [SWAP_LONG_LONG_host]). *)
Definition SWAP_LONG_LONG (ll : Z) : Z := SWAP_LONG_LONG_on LE ll.

(** [get_host_byte_sex]: the first byte of the [uint32_t]
    [(BIG_ENDIAN_BYTE_SEX << 24) | LITTLE_ENDIAN_BYTE_SEX], read as the enum. *)
Definition byte_sex_of_int (z : Z) : option byte_sex :=
  if z =? 0 then Some UNKNOWN_BYTE_SEX
  else if z =? 1 then Some BIG_ENDIAN_BYTE_SEX
  else if z =? 2 then Some LITTLE_ENDIAN_BYTE_SEX
  else None.

Definition get_host_byte_sex (h : host) : option byte_sex :=
  let s := Z.lor (Z.shiftl 1 24) 2 in
  c ← head (mem_bytes h 4 s);
  byte_sex_of_int c.

(** ** Bit arithmetic *)

(** Masking with a shifted block of ones is extracting a field. *)
Lemma land_shifted_ones x k n :
  0 <= k -> 0 <= n ->
  Z.land x (Z.shiftl (Z.ones n) k) = 2 ^ k * ((x / 2 ^ k) mod 2 ^ n).
Proof.
  intros Hk Hn. rewrite Z.mul_comm, <- Z.shiftl_mul_pow2 by lia.
  rewrite <- Z.land_ones by lia. rewrite <- Z.shiftr_div_pow2 by lia.
  apply Z.bits_inj'. intros i Hi.
  rewrite Z.land_spec, !Z.shiftl_spec by lia.
  destruct (Z.le_gt_cases k i).
  - rewrite Z.land_spec, Z.shiftr_spec by lia. by rewrite Z.sub_add.
  - rewrite !(Z.testbit_neg_r _ (i - k)) by lia. by rewrite andb_false_r.
Qed.

Lemma SWAP_INT_arith a :
  SWAP_INT a = 2 ^ 24 * (a mod 2 ^ 8) + 2 ^ 16 * ((a / 2 ^ 8) mod 2 ^ 8)
             + 2 ^ 8 * ((a / 2 ^ 16) mod 2 ^ 8) + (a / 2 ^ 24) mod 2 ^ 8.
Proof.
  unfold SWAP_INT.
  change 0x00ff0000 with (Z.shiftl (Z.ones 8) 16).
  change 0x0000ff00 with (Z.shiftl (Z.ones 8) 8).
  rewrite !land_shifted_ones by lia. unfold uw.
  rewrite !Z.shiftl_mul_pow2, !Z.shiftr_div_pow2 by lia.
  pose proof (Z.mod_pos_bound a (2 ^ 8) ltac:(lia)).
  pose proof (Z.mod_pos_bound (a / 2 ^ 8) (2 ^ 8) ltac:(lia)).
  pose proof (Z.mod_pos_bound (a / 2 ^ 16) (2 ^ 8) ltac:(lia)).
  pose proof (Z.mod_pos_bound (a / 2 ^ 24) (2 ^ 8) ltac:(lia)).
  replace ((a * 2 ^ 24) mod 2 ^ 32) with (2 ^ 24 * (a mod 2 ^ 8)) by div_lia.
  replace ((a * 2 ^ 8) mod 2 ^ 32 / 2 ^ 16) with (a / 2 ^ 8 mod 2 ^ 16) by div_lia.
  replace (a / 2 ^ 8 / 2 ^ 8) with (a / 2 ^ 16) by div_lia.
  replace (a mod 2 ^ 32 / 2 ^ 24) with ((a / 2 ^ 24) mod 2 ^ 8) by div_lia.
  replace (a / 2 ^ 8 mod 2 ^ 16 mod 2 ^ 8) with ((a / 2 ^ 8) mod 2 ^ 8) by div_lia.
  rewrite (lor_disjoint_add 24) by div_lia.
  replace (2 ^ 24 * (a mod 2 ^ 8) + 2 ^ 16 * (a / 2 ^ 8 mod 2 ^ 8))
    with (2 ^ 16 * (2 ^ 8 * (a mod 2 ^ 8) + (a / 2 ^ 8 mod 2 ^ 8))) by lia.
  rewrite (lor_disjoint_add 16) by div_lia.
  replace (2 ^ 16 * (2 ^ 8 * (a mod 2 ^ 8) + a / 2 ^ 8 mod 2 ^ 8)
           + 2 ^ 8 * (a / 2 ^ 16 mod 2 ^ 8))
    with (2 ^ 8 * (2 ^ 8 * (2 ^ 8 * (a mod 2 ^ 8) + a / 2 ^ 8 mod 2 ^ 8)
           + a / 2 ^ 16 mod 2 ^ 8)) by lia.
  rewrite (lor_disjoint_add 8) by lia. lia.
Qed.

(** ** Swapping is reversing the bytes *)

Lemma le_value_bytes_mod n z : le_value (le_bytes n z) = z mod 2 ^ (8 * Z.of_nat n).
Proof.
  revert z. induction n as [|n IH]; intros z; cbn [le_bytes le_value].
  - by rewrite Z.mod_1_r.
  - rewrite IH, Nat2Z.inj_succ.
    replace (8 * Z.succ (Z.of_nat n)) with (8 + 8 * Z.of_nat n) by lia.
    rewrite Z.pow_add_r by lia. change (2 ^ 8) with 256.
    rewrite Z.rem_mul_r by lia. lia.
Qed.

Lemma le_bytes_value l :
  Forall (fun b => 0 <= b < 256) l -> le_bytes (length l) (le_value l) = l.
Proof.
  induction 1 as [|b l Hb Hl IH]; [done|]. cbn [length le_bytes le_value].
  rewrite (Z.mul_comm 256), Z.mod_add, Z.mod_small by lia.
  by rewrite Z.div_add, Z.div_small, Z.add_0_l, IH by lia.
Qed.

Lemma le_bytes_mod n z : le_bytes n (z mod 2 ^ (8 * Z.of_nat n)) = le_bytes n z.
Proof.
  revert z. induction n as [|n IH]; intros z; cbn [le_bytes]; [done|].
  rewrite Nat2Z.inj_succ.
  replace (8 * Z.succ (Z.of_nat n)) with (8 + 8 * Z.of_nat n) by lia.
  rewrite Z.pow_add_r by lia. change (2 ^ 8) with 256.
  rewrite Z.rem_mul_r by lia. f_equal.
  - rewrite (Z.mul_comm 256), Z.mod_add by lia. apply Zmod_mod.
  - rewrite (Z.mul_comm 256), Z.div_add by lia.
    rewrite Z.div_small by (apply Z.mod_pos_bound; lia).
    by rewrite Z.add_0_l, IH.
Qed.

Lemma length_le_bytes n z : length (le_bytes n z) = n.
Proof. revert z. induction n; intros; simpl; auto. Qed.

Lemma le_bytes_range n z : Forall (fun b => 0 <= b < 256) (le_bytes n z).
Proof.
  revert z. induction n; intros; constructor; auto. apply Z.mod_pos_bound. lia.
Qed.

(** The value whose bytes are those of [z] in the opposite order. *)
Definition byte_reverse (n : nat) (z : Z) : Z := le_value (rev (le_bytes n z)).

Lemma SWAP_INT_reverse a : SWAP_INT a = byte_reverse 4 a.
Proof.
  rewrite SWAP_INT_arith. unfold byte_reverse. cbn [le_bytes rev app le_value].
  change (2 ^ 8) with 256. change (2 ^ 16) with (256 * 256).
  change (2 ^ 24) with (256 * 256 * 256).
  rewrite <- !Z.div_div by lia. lia.
Qed.

Lemma SWAP_SHORT_reverse a : SWAP_SHORT a = byte_reverse 2 a.
Proof.
  unfold SWAP_SHORT, byte_reverse. cbn [le_bytes rev app le_value].
  change 0xff with (Z.ones 8). rewrite Z.land_ones by lia.
  rewrite Z.shiftl_mul_pow2, Z.shiftr_div_pow2 by lia. unfold uw.
  rewrite (Z.mul_comm _ (2 ^ 8)).
  rewrite lor_disjoint_add by (try split; div_lia). div_lia.
Qed.

Lemma value_of_rev h l : value_of h (rev l) = value_of (other h) l.
Proof. destruct h; simpl; [done|]. by rewrite rev_involutive. Qed.

Lemma SWAP_LONG_LONG_on_reverse h ll : SWAP_LONG_LONG_on h ll = i64 (byte_reverse 8 ll).
Proof. destruct h; reflexivity. Qed.

Lemma SWAP_LONG_LONG_host h ll : SWAP_LONG_LONG_on h ll = SWAP_LONG_LONG ll.
Proof. unfold SWAP_LONG_LONG. by rewrite !SWAP_LONG_LONG_on_reverse. Qed.

Lemma SWAP_LONG_LONG_reverse ll : SWAP_LONG_LONG ll = i64 (byte_reverse 8 ll).
Proof. apply SWAP_LONG_LONG_on_reverse. Qed.

Lemma byte_reverse_range n z : in_uw (8 * Z.of_nat n) (byte_reverse n z).
Proof.
  unfold in_uw, byte_reverse.
  pose proof (le_value_range (rev (le_bytes n z))) as H.
  rewrite length_rev, length_le_bytes in H. apply H.
  apply Forall_rev, le_bytes_range.
Qed.

Lemma SWAP_INT_range a : 0 <= SWAP_INT a < 2 ^ 32.
Proof. rewrite SWAP_INT_reverse. apply (byte_reverse_range 4). Qed.

Lemma byte_reverse_mod n z : byte_reverse n (z mod 2 ^ (8 * Z.of_nat n)) = byte_reverse n z.
Proof. unfold byte_reverse. by rewrite le_bytes_mod. Qed.

Lemma byte_reverse_uw w n z :
  w = 8 * Z.of_nat n -> byte_reverse n (uw w z) = byte_reverse n z.
Proof. intros ->. apply byte_reverse_mod. Qed.

Lemma byte_reverse_sw w n z :
  w = 8 * Z.of_nat n -> 0 < w -> byte_reverse n (sw w z) = byte_reverse n z.
Proof.
  intros -> Hw. rewrite <- (byte_reverse_mod n (sw _ z)).
  fold (uw (8 * Z.of_nat n) (sw (8 * Z.of_nat n) z)).
  rewrite uw_sw by done. apply byte_reverse_mod.
Qed.

(** Reversing the bytes of what a host loads gives what the other one loads. *)
Lemma byte_reverse_ld n h bs o : byte_reverse n (ld_u n h bs o) = ld_u n (other h) bs o.
Proof.
  unfold byte_reverse, ld_u.
  pose proof (bytes_at_range bs o n) as Hr. pose proof (length_bytes_at bs o n) as Hl.
  destruct h; simpl.
  - rewrite <- Hl at 1. by rewrite le_bytes_value.
  - rewrite <- Hl at 1. rewrite <- length_rev.
    rewrite le_bytes_value by by apply Forall_rev. by rewrite rev_involutive.
Qed.

Lemma byte_reverse_involutive n z :
  byte_reverse n (byte_reverse n z) = z mod 2 ^ (8 * Z.of_nat n).
Proof.
  unfold byte_reverse.
  pose proof (le_bytes_value (rev (le_bytes n z))) as H.
  rewrite length_rev, length_le_bytes in H.
  rewrite H by apply Forall_rev, le_bytes_range.
  rewrite rev_involutive. apply le_value_bytes_mod.
Qed.

(** ** Loads through the macros *)

Lemma SWAP_INT_ld_u32 h bs o : SWAP_INT (ld_u32 h bs o) = ld_u32 (other h) bs o.
Proof. rewrite SWAP_INT_reverse. apply byte_reverse_ld. Qed.

Lemma SWAP_INT_ld_i32 h bs o : i32 (SWAP_INT (ld_i32 h bs o)) = ld_i32 (other h) bs o.
Proof.
  unfold ld_i32. rewrite SWAP_INT_reverse, (byte_reverse_sw 32 4) by lia.
  by rewrite byte_reverse_ld.
Qed.

Lemma SWAP_SHORT_ld_u16 h bs o : u16 (SWAP_SHORT (ld_u16 h bs o)) = ld_u16 (other h) bs o.
Proof. rewrite SWAP_SHORT_reverse, byte_reverse_ld. apply uw_id, ld_u16_range. Qed.

Lemma SWAP_SHORT_ld_i16 h bs o : i16 (SWAP_SHORT (ld_i16 h bs o)) = ld_i16 (other h) bs o.
Proof.
  unfold ld_i16. rewrite SWAP_SHORT_reverse, (byte_reverse_sw 16 2) by lia.
  by rewrite byte_reverse_ld.
Qed.

Lemma SWAP_LONG_LONG_ld_u64 h bs o :
  u64 (SWAP_LONG_LONG (ld_u64 h bs o)) = ld_u64 (other h) bs o.
Proof.
  rewrite SWAP_LONG_LONG_reverse, uw_sw, byte_reverse_ld by lia.
  apply uw_id, ld_u64_range.
Qed.

#[global] Arguments SWAP_SHORT : simpl never.
#[global] Arguments SWAP_INT : simpl never.
#[global] Arguments SWAP_LONG_LONG : simpl never.
#[global] Arguments uw : simpl never.
#[global] Arguments sw : simpl never.
#[global] Arguments ld_u : simpl never.

Create Rewrite HintDb swap.
#[export] Hint Rewrite SWAP_INT_ld_u32 SWAP_INT_ld_i32 SWAP_SHORT_ld_u16
  SWAP_SHORT_ld_i16 SWAP_LONG_LONG_ld_u64 other_other : swap.

(** ** The contract of a swapping routine *)

(** [ld h bs o] is the structure a host of byte sex [h] reads at offset [o] of
    the image [bs]; [swap] the routine. *)
Class Swapped (A : Type) := {
  ld_struct : host -> list byte -> nat -> A;
  swap_struct : A -> A;
  swap_ld : forall h bs o, swap_struct (ld_struct h bs o) = ld_struct (other h) bs o
}.

(** Swapping twice restores anything a host can have read. *)
Lemma swap_swap_ld `{Swapped A} h bs o :
  swap_struct (swap_struct (ld_struct h bs o)) = ld_struct h bs o.
Proof. by rewrite !swap_ld, other_other. Qed.

(** An array of [n] structures of [size] bytes each. *)
Definition ld_array {A} `{Swapped A} (size n : nat) (h : host) (bs : list byte) (o : nat)
    : list A :=
  (fun i => ld_struct h bs (o + i * size)) <$> seq 0 n.

Lemma swap_ld_array `{Swapped A} size n h bs o :
  swap_struct <$> ld_array size n h bs o = ld_array size n (other h) bs o.
Proof.
  unfold ld_array. rewrite <- list_fmap_compose. apply list_fmap_ext.
  intros i x Hx. apply swap_ld.
Qed.

(** Proves the contract of a structure whose fields are loaded and swapped one
    by one. *)
Ltac solve_swap ld sw :=
  intros h bs o; unfold ld, sw; cbn; autorewrite with swap; reflexivity.

(** [for(i = 0; i < n; i++)] applying [f] in place to element [i]. *)
Definition for_array {A} (f : A -> A) (n : nat) (l : list A) : list A :=
  (f <$> take n l) ++ drop n l.
