(* ===== verification/HeaderSwap.v ===== *)
(** * libstuff/bytesex.c: file headers, segments and sections

    For each structure: its record (include/mach-o/fat.h and loader.h), the
    load of one from a memory image, and its [swap_*] routine.  A routine that
    swaps an array is its per-element assignments and the loop over them. *)

From Stdlib Require Import ZArith Lia.
From Stdlib Require Import Init.Byte Strings.Byte.
From stdpp Require Import base list option numbers.
From S2P Require Import Prelude CInt ByteSex.

(** [struct fat_header], 8 bytes. *)
Record fat_header := {
  fat_header_magic : Z;
  fat_header_nfat_arch : Z
}.

Definition ld_fat_header (h : host) (bs : list byte) (o : nat) : fat_header :=
  {|
     fat_header_magic := ld_u32 h bs (o + 0);
     fat_header_nfat_arch := ld_u32 h bs (o + 4)
  |}.

Definition swap_fat_header (x : fat_header) : fat_header :=
  {|
     fat_header_magic := SWAP_INT (fat_header_magic x);
     fat_header_nfat_arch := SWAP_INT (fat_header_nfat_arch x)
  |}.

#[export] Instance fat_header_Swapped : Swapped fat_header.
Proof. refine {| ld_struct := ld_fat_header; swap_struct := swap_fat_header |}; solve_swap @ld_fat_header @swap_fat_header. Defined.

(** [struct fat_arch], 20 bytes. *)
Record fat_arch := {
  fat_arch_cputype : Z;
  fat_arch_cpusubtype : Z;
  fat_arch_offset : Z;
  fat_arch_size : Z;
  fat_arch_align : Z
}.

Definition ld_fat_arch (h : host) (bs : list byte) (o : nat) : fat_arch :=
  {|
     fat_arch_cputype := ld_i32 h bs (o + 0);
     fat_arch_cpusubtype := ld_i32 h bs (o + 4);
     fat_arch_offset := ld_u32 h bs (o + 8);
     fat_arch_size := ld_u32 h bs (o + 12);
     fat_arch_align := ld_u32 h bs (o + 16)
  |}.

Definition swap_fat_arch_elem (x : fat_arch) : fat_arch :=
  {|
     fat_arch_cputype := i32 (SWAP_INT (fat_arch_cputype x));
     fat_arch_cpusubtype := i32 (SWAP_INT (fat_arch_cpusubtype x));
     fat_arch_offset := SWAP_INT (fat_arch_offset x);
     fat_arch_size := SWAP_INT (fat_arch_size x);
     fat_arch_align := SWAP_INT (fat_arch_align x)
  |}.

Definition swap_fat_arch (l : list fat_arch) (n : nat) : list fat_arch :=
  for_array swap_fat_arch_elem n l.

#[export] Instance fat_arch_Swapped : Swapped fat_arch.
Proof. refine {| ld_struct := ld_fat_arch; swap_struct := swap_fat_arch_elem |}; solve_swap @ld_fat_arch @swap_fat_arch_elem. Defined.

(** [struct fat_arch_64], 32 bytes. *)
Record fat_arch_64 := {
  fat_arch_64_cputype : Z;
  fat_arch_64_cpusubtype : Z;
  fat_arch_64_offset : Z;
  fat_arch_64_size : Z;
  fat_arch_64_align : Z;
  fat_arch_64_reserved : Z
}.

Definition ld_fat_arch_64 (h : host) (bs : list byte) (o : nat) : fat_arch_64 :=
  {|
     fat_arch_64_cputype := ld_i32 h bs (o + 0);
     fat_arch_64_cpusubtype := ld_i32 h bs (o + 4);
     fat_arch_64_offset := ld_u64 h bs (o + 8);
     fat_arch_64_size := ld_u64 h bs (o + 16);
     fat_arch_64_align := ld_u32 h bs (o + 24);
     fat_arch_64_reserved := ld_u32 h bs (o + 28)
  |}.

Definition swap_fat_arch_64_elem (x : fat_arch_64) : fat_arch_64 :=
  {|
     fat_arch_64_cputype := i32 (SWAP_INT (fat_arch_64_cputype x));
     fat_arch_64_cpusubtype := i32 (SWAP_INT (fat_arch_64_cpusubtype x));
     fat_arch_64_offset := u64 (SWAP_LONG_LONG (fat_arch_64_offset x));
     fat_arch_64_size := u64 (SWAP_LONG_LONG (fat_arch_64_size x));
     fat_arch_64_align := SWAP_INT (fat_arch_64_align x);
     fat_arch_64_reserved := SWAP_INT (fat_arch_64_reserved x)
  |}.

Definition swap_fat_arch_64 (l : list fat_arch_64) (n : nat) : list fat_arch_64 :=
  for_array swap_fat_arch_64_elem n l.

#[export] Instance fat_arch_64_Swapped : Swapped fat_arch_64.
Proof. refine {| ld_struct := ld_fat_arch_64; swap_struct := swap_fat_arch_64_elem |}; solve_swap @ld_fat_arch_64 @swap_fat_arch_64_elem. Defined.

(** [struct mach_header], 28 bytes. *)
Record mach_header := {
  mach_header_magic : Z;
  mach_header_cputype : Z;
  mach_header_cpusubtype : Z;
  mach_header_filetype : Z;
  mach_header_ncmds : Z;
  mach_header_sizeofcmds : Z;
  mach_header_flags : Z
}.

Definition ld_mach_header (h : host) (bs : list byte) (o : nat) : mach_header :=
  {|
     mach_header_magic := ld_u32 h bs (o + 0);
     mach_header_cputype := ld_i32 h bs (o + 4);
     mach_header_cpusubtype := ld_i32 h bs (o + 8);
     mach_header_filetype := ld_u32 h bs (o + 12);
     mach_header_ncmds := ld_u32 h bs (o + 16);
     mach_header_sizeofcmds := ld_u32 h bs (o + 20);
     mach_header_flags := ld_u32 h bs (o + 24)
  |}.

Definition swap_mach_header (x : mach_header) : mach_header :=
  {|
     mach_header_magic := SWAP_INT (mach_header_magic x);
     mach_header_cputype := i32 (SWAP_INT (mach_header_cputype x));
     mach_header_cpusubtype := i32 (SWAP_INT (mach_header_cpusubtype x));
     mach_header_filetype := SWAP_INT (mach_header_filetype x);
     mach_header_ncmds := SWAP_INT (mach_header_ncmds x);
     mach_header_sizeofcmds := SWAP_INT (mach_header_sizeofcmds x);
     mach_header_flags := SWAP_INT (mach_header_flags x)
  |}.

#[export] Instance mach_header_Swapped : Swapped mach_header.
Proof. refine {| ld_struct := ld_mach_header; swap_struct := swap_mach_header |}; solve_swap @ld_mach_header @swap_mach_header. Defined.

(** [struct mach_header_64], 32 bytes. *)
Record mach_header_64 := {
  mach_header_64_magic : Z;
  mach_header_64_cputype : Z;
  mach_header_64_cpusubtype : Z;
  mach_header_64_filetype : Z;
  mach_header_64_ncmds : Z;
  mach_header_64_sizeofcmds : Z;
  mach_header_64_flags : Z;
  mach_header_64_reserved : Z
}.

Definition ld_mach_header_64 (h : host) (bs : list byte) (o : nat) : mach_header_64 :=
  {|
     mach_header_64_magic := ld_u32 h bs (o + 0);
     mach_header_64_cputype := ld_i32 h bs (o + 4);
     mach_header_64_cpusubtype := ld_i32 h bs (o + 8);
     mach_header_64_filetype := ld_u32 h bs (o + 12);
     mach_header_64_ncmds := ld_u32 h bs (o + 16);
     mach_header_64_sizeofcmds := ld_u32 h bs (o + 20);
     mach_header_64_flags := ld_u32 h bs (o + 24);
     mach_header_64_reserved := ld_u32 h bs (o + 28)
  |}.

Definition swap_mach_header_64 (x : mach_header_64) : mach_header_64 :=
  {|
     mach_header_64_magic := SWAP_INT (mach_header_64_magic x);
     mach_header_64_cputype := i32 (SWAP_INT (mach_header_64_cputype x));
     mach_header_64_cpusubtype := i32 (SWAP_INT (mach_header_64_cpusubtype x));
     mach_header_64_filetype := SWAP_INT (mach_header_64_filetype x);
     mach_header_64_ncmds := SWAP_INT (mach_header_64_ncmds x);
     mach_header_64_sizeofcmds := SWAP_INT (mach_header_64_sizeofcmds x);
     mach_header_64_flags := SWAP_INT (mach_header_64_flags x);
     mach_header_64_reserved := SWAP_INT (mach_header_64_reserved x)
  |}.

#[export] Instance mach_header_64_Swapped : Swapped mach_header_64.
Proof. refine {| ld_struct := ld_mach_header_64; swap_struct := swap_mach_header_64 |}; solve_swap @ld_mach_header_64 @swap_mach_header_64. Defined.

(** [struct load_command], 8 bytes. *)
Record load_command := {
  load_command_cmd : Z;
  load_command_cmdsize : Z
}.

Definition ld_load_command (h : host) (bs : list byte) (o : nat) : load_command :=
  {|
     load_command_cmd := ld_u32 h bs (o + 0);
     load_command_cmdsize := ld_u32 h bs (o + 4)
  |}.

Definition swap_load_command (x : load_command) : load_command :=
  {|
     load_command_cmd := SWAP_INT (load_command_cmd x);
     load_command_cmdsize := SWAP_INT (load_command_cmdsize x)
  |}.

#[export] Instance load_command_Swapped : Swapped load_command.
Proof. refine {| ld_struct := ld_load_command; swap_struct := swap_load_command |}; solve_swap @ld_load_command @swap_load_command. Defined.

(** [struct segment_command], 56 bytes. *)
Record segment_command := {
  segment_command_cmd : Z;
  segment_command_cmdsize : Z;
  segment_command_segname : list Z;
  segment_command_vmaddr : Z;
  segment_command_vmsize : Z;
  segment_command_fileoff : Z;
  segment_command_filesize : Z;
  segment_command_maxprot : Z;
  segment_command_initprot : Z;
  segment_command_nsects : Z;
  segment_command_flags : Z
}.

Definition ld_segment_command (h : host) (bs : list byte) (o : nat) : segment_command :=
  {|
     segment_command_cmd := ld_u32 h bs (o + 0);
     segment_command_cmdsize := ld_u32 h bs (o + 4);
     segment_command_segname := bytes_at bs (o + 8) 16;
     segment_command_vmaddr := ld_u32 h bs (o + 24);
     segment_command_vmsize := ld_u32 h bs (o + 28);
     segment_command_fileoff := ld_u32 h bs (o + 32);
     segment_command_filesize := ld_u32 h bs (o + 36);
     segment_command_maxprot := ld_i32 h bs (o + 40);
     segment_command_initprot := ld_i32 h bs (o + 44);
     segment_command_nsects := ld_u32 h bs (o + 48);
     segment_command_flags := ld_u32 h bs (o + 52)
  |}.

Definition swap_segment_command (x : segment_command) : segment_command :=
  {|
     segment_command_cmd := SWAP_INT (segment_command_cmd x);
     segment_command_cmdsize := SWAP_INT (segment_command_cmdsize x);
     segment_command_segname := segment_command_segname x;
     segment_command_vmaddr := SWAP_INT (segment_command_vmaddr x);
     segment_command_vmsize := SWAP_INT (segment_command_vmsize x);
     segment_command_fileoff := SWAP_INT (segment_command_fileoff x);
     segment_command_filesize := SWAP_INT (segment_command_filesize x);
     segment_command_maxprot := i32 (SWAP_INT (segment_command_maxprot x));
     segment_command_initprot := i32 (SWAP_INT (segment_command_initprot x));
     segment_command_nsects := SWAP_INT (segment_command_nsects x);
     segment_command_flags := SWAP_INT (segment_command_flags x)
  |}.

#[export] Instance segment_command_Swapped : Swapped segment_command.
Proof. refine {| ld_struct := ld_segment_command; swap_struct := swap_segment_command |}; solve_swap @ld_segment_command @swap_segment_command. Defined.

(** [struct segment_command_64], 72 bytes. *)
Record segment_command_64 := {
  segment_command_64_cmd : Z;
  segment_command_64_cmdsize : Z;
  segment_command_64_segname : list Z;
  segment_command_64_vmaddr : Z;
  segment_command_64_vmsize : Z;
  segment_command_64_fileoff : Z;
  segment_command_64_filesize : Z;
  segment_command_64_maxprot : Z;
  segment_command_64_initprot : Z;
  segment_command_64_nsects : Z;
  segment_command_64_flags : Z
}.

Definition ld_segment_command_64 (h : host) (bs : list byte) (o : nat) : segment_command_64 :=
  {|
     segment_command_64_cmd := ld_u32 h bs (o + 0);
     segment_command_64_cmdsize := ld_u32 h bs (o + 4);
     segment_command_64_segname := bytes_at bs (o + 8) 16;
     segment_command_64_vmaddr := ld_u64 h bs (o + 24);
     segment_command_64_vmsize := ld_u64 h bs (o + 32);
     segment_command_64_fileoff := ld_u64 h bs (o + 40);
     segment_command_64_filesize := ld_u64 h bs (o + 48);
     segment_command_64_maxprot := ld_i32 h bs (o + 56);
     segment_command_64_initprot := ld_i32 h bs (o + 60);
     segment_command_64_nsects := ld_u32 h bs (o + 64);
     segment_command_64_flags := ld_u32 h bs (o + 68)
  |}.

Definition swap_segment_command_64 (x : segment_command_64) : segment_command_64 :=
  {|
     segment_command_64_cmd := SWAP_INT (segment_command_64_cmd x);
     segment_command_64_cmdsize := SWAP_INT (segment_command_64_cmdsize x);
     segment_command_64_segname := segment_command_64_segname x;
     segment_command_64_vmaddr := u64 (SWAP_LONG_LONG (segment_command_64_vmaddr x));
     segment_command_64_vmsize := u64 (SWAP_LONG_LONG (segment_command_64_vmsize x));
     segment_command_64_fileoff := u64 (SWAP_LONG_LONG (segment_command_64_fileoff x));
     segment_command_64_filesize := u64 (SWAP_LONG_LONG (segment_command_64_filesize x));
     segment_command_64_maxprot := i32 (SWAP_INT (segment_command_64_maxprot x));
     segment_command_64_initprot := i32 (SWAP_INT (segment_command_64_initprot x));
     segment_command_64_nsects := SWAP_INT (segment_command_64_nsects x);
     segment_command_64_flags := SWAP_INT (segment_command_64_flags x)
  |}.

#[export] Instance segment_command_64_Swapped : Swapped segment_command_64.
Proof. refine {| ld_struct := ld_segment_command_64; swap_struct := swap_segment_command_64 |}; solve_swap @ld_segment_command_64 @swap_segment_command_64. Defined.

(** [struct section], 68 bytes. *)
Record section := {
  section_sectname : list Z;
  section_segname : list Z;
  section_addr : Z;
  section_size : Z;
  section_offset : Z;
  section_align : Z;
  section_reloff : Z;
  section_nreloc : Z;
  section_flags : Z;
  section_reserved1 : Z;
  section_reserved2 : Z
}.

Definition ld_section (h : host) (bs : list byte) (o : nat) : section :=
  {|
     section_sectname := bytes_at bs (o + 0) 16;
     section_segname := bytes_at bs (o + 16) 16;
     section_addr := ld_u32 h bs (o + 32);
     section_size := ld_u32 h bs (o + 36);
     section_offset := ld_u32 h bs (o + 40);
     section_align := ld_u32 h bs (o + 44);
     section_reloff := ld_u32 h bs (o + 48);
     section_nreloc := ld_u32 h bs (o + 52);
     section_flags := ld_u32 h bs (o + 56);
     section_reserved1 := ld_u32 h bs (o + 60);
     section_reserved2 := ld_u32 h bs (o + 64)
  |}.

Definition swap_section_elem (x : section) : section :=
  {|
     section_sectname := section_sectname x;
     section_segname := section_segname x;
     section_addr := SWAP_INT (section_addr x);
     section_size := SWAP_INT (section_size x);
     section_offset := SWAP_INT (section_offset x);
     section_align := SWAP_INT (section_align x);
     section_reloff := SWAP_INT (section_reloff x);
     section_nreloc := SWAP_INT (section_nreloc x);
     section_flags := SWAP_INT (section_flags x);
     section_reserved1 := SWAP_INT (section_reserved1 x);
     section_reserved2 := SWAP_INT (section_reserved2 x)
  |}.

Definition swap_section (l : list section) (n : nat) : list section :=
  for_array swap_section_elem n l.

#[export] Instance section_Swapped : Swapped section.
Proof. refine {| ld_struct := ld_section; swap_struct := swap_section_elem |}; solve_swap @ld_section @swap_section_elem. Defined.

(** [struct section_64], 80 bytes. *)
Record section_64 := {
  section_64_sectname : list Z;
  section_64_segname : list Z;
  section_64_addr : Z;
  section_64_size : Z;
  section_64_offset : Z;
  section_64_align : Z;
  section_64_reloff : Z;
  section_64_nreloc : Z;
  section_64_flags : Z;
  section_64_reserved1 : Z;
  section_64_reserved2 : Z;
  section_64_reserved3 : Z
}.

Definition ld_section_64 (h : host) (bs : list byte) (o : nat) : section_64 :=
  {|
     section_64_sectname := bytes_at bs (o + 0) 16;
     section_64_segname := bytes_at bs (o + 16) 16;
     section_64_addr := ld_u64 h bs (o + 32);
     section_64_size := ld_u64 h bs (o + 40);
     section_64_offset := ld_u32 h bs (o + 48);
     section_64_align := ld_u32 h bs (o + 52);
     section_64_reloff := ld_u32 h bs (o + 56);
     section_64_nreloc := ld_u32 h bs (o + 60);
     section_64_flags := ld_u32 h bs (o + 64);
     section_64_reserved1 := ld_u32 h bs (o + 68);
     section_64_reserved2 := ld_u32 h bs (o + 72);
     section_64_reserved3 := ld_u32 h bs (o + 76)
  |}.

Definition swap_section_64_elem (x : section_64) : section_64 :=
  {|
     section_64_sectname := section_64_sectname x;
     section_64_segname := section_64_segname x;
     section_64_addr := u64 (SWAP_LONG_LONG (section_64_addr x));
     section_64_size := u64 (SWAP_LONG_LONG (section_64_size x));
     section_64_offset := SWAP_INT (section_64_offset x);
     section_64_align := SWAP_INT (section_64_align x);
     section_64_reloff := SWAP_INT (section_64_reloff x);
     section_64_nreloc := SWAP_INT (section_64_nreloc x);
     section_64_flags := SWAP_INT (section_64_flags x);
     section_64_reserved1 := SWAP_INT (section_64_reserved1 x);
     section_64_reserved2 := SWAP_INT (section_64_reserved2 x);
     section_64_reserved3 := section_64_reserved3 x
  |}.

Definition swap_section_64 (l : list section_64) (n : nat) : list section_64 :=
  for_array swap_section_64_elem n l.
