(* ===== verification/LoadCmdSwap.v ===== *)
(** * libstuff/bytesex.c: load commands

    The structures of include/mach-o/loader.h, written out the same way as
    the file headers; the members of a [union lc_str] and of the nested
    [struct dylib] and [struct fvmlib] are written as fields of the command. *)

From Stdlib Require Import ZArith Lia.
From Stdlib Require Import Init.Byte Strings.Byte.
From stdpp Require Import base list option numbers.
From S2P Require Import Prelude CInt ByteSex.

(** [struct symtab_command], 24 bytes. *)
Record symtab_command := {
  symtab_command_cmd : Z;
  symtab_command_cmdsize : Z;
  symtab_command_symoff : Z;
  symtab_command_nsyms : Z;
  symtab_command_stroff : Z;
  symtab_command_strsize : Z
}.

Definition ld_symtab_command (h : host) (bs : list byte) (o : nat) : symtab_command :=
  {|
     symtab_command_cmd := ld_u32 h bs (o + 0);
     symtab_command_cmdsize := ld_u32 h bs (o + 4);
     symtab_command_symoff := ld_u32 h bs (o + 8);
     symtab_command_nsyms := ld_u32 h bs (o + 12);
     symtab_command_stroff := ld_u32 h bs (o + 16);
     symtab_command_strsize := ld_u32 h bs (o + 20)
  |}.

Definition swap_symtab_command (x : symtab_command) : symtab_command :=
  {|
     symtab_command_cmd := SWAP_INT (symtab_command_cmd x);
     symtab_command_cmdsize := SWAP_INT (symtab_command_cmdsize x);
     symtab_command_symoff := SWAP_INT (symtab_command_symoff x);
     symtab_command_nsyms := SWAP_INT (symtab_command_nsyms x);
     symtab_command_stroff := SWAP_INT (symtab_command_stroff x);
     symtab_command_strsize := SWAP_INT (symtab_command_strsize x)
  |}.

#[export] Instance symtab_command_Swapped : Swapped symtab_command.
Proof. refine {| ld_struct := ld_symtab_command; swap_struct := swap_symtab_command |}; solve_swap @ld_symtab_command @swap_symtab_command. Defined.

(** [struct dysymtab_command], 80 bytes. *)
Record dysymtab_command := {
  dysymtab_command_cmd : Z;
  dysymtab_command_cmdsize : Z;
  dysymtab_command_ilocalsym : Z;
  dysymtab_command_nlocalsym : Z;
  dysymtab_command_iextdefsym : Z;
  dysymtab_command_nextdefsym : Z;
  dysymtab_command_iundefsym : Z;
  dysymtab_command_nundefsym : Z;
  dysymtab_command_tocoff : Z;
  dysymtab_command_ntoc : Z;
  dysymtab_command_modtaboff : Z;
  dysymtab_command_nmodtab : Z;
  dysymtab_command_extrefsymoff : Z;
  dysymtab_command_nextrefsyms : Z;
  dysymtab_command_indirectsymoff : Z;
  dysymtab_command_nindirectsyms : Z;
  dysymtab_command_extreloff : Z;
  dysymtab_command_nextrel : Z;
  dysymtab_command_locreloff : Z;
  dysymtab_command_nlocrel : Z
}.

Definition ld_dysymtab_command (h : host) (bs : list byte) (o : nat) : dysymtab_command :=
  {|
     dysymtab_command_cmd := ld_u32 h bs (o + 0);
     dysymtab_command_cmdsize := ld_u32 h bs (o + 4);
     dysymtab_command_ilocalsym := ld_u32 h bs (o + 8);
     dysymtab_command_nlocalsym := ld_u32 h bs (o + 12);
     dysymtab_command_iextdefsym := ld_u32 h bs (o + 16);
     dysymtab_command_nextdefsym := ld_u32 h bs (o + 20);
     dysymtab_command_iundefsym := ld_u32 h bs (o + 24);
     dysymtab_command_nundefsym := ld_u32 h bs (o + 28);
     dysymtab_command_tocoff := ld_u32 h bs (o + 32);
     dysymtab_command_ntoc := ld_u32 h bs (o + 36);
     dysymtab_command_modtaboff := ld_u32 h bs (o + 40);
     dysymtab_command_nmodtab := ld_u32 h bs (o + 44);
     dysymtab_command_extrefsymoff := ld_u32 h bs (o + 48);
     dysymtab_command_nextrefsyms := ld_u32 h bs (o + 52);
     dysymtab_command_indirectsymoff := ld_u32 h bs (o + 56);
     dysymtab_command_nindirectsyms := ld_u32 h bs (o + 60);
     dysymtab_command_extreloff := ld_u32 h bs (o + 64);
     dysymtab_command_nextrel := ld_u32 h bs (o + 68);
     dysymtab_command_locreloff := ld_u32 h bs (o + 72);
     dysymtab_command_nlocrel := ld_u32 h bs (o + 76)
  |}.

Definition swap_dysymtab_command (x : dysymtab_command) : dysymtab_command :=
  {|
     dysymtab_command_cmd := SWAP_INT (dysymtab_command_cmd x);
     dysymtab_command_cmdsize := SWAP_INT (dysymtab_command_cmdsize x);
     dysymtab_command_ilocalsym := SWAP_INT (dysymtab_command_ilocalsym x);
     dysymtab_command_nlocalsym := SWAP_INT (dysymtab_command_nlocalsym x);
     dysymtab_command_iextdefsym := SWAP_INT (dysymtab_command_iextdefsym x);
     dysymtab_command_nextdefsym := SWAP_INT (dysymtab_command_nextdefsym x);
     dysymtab_command_iundefsym := SWAP_INT (dysymtab_command_iundefsym x);
     dysymtab_command_nundefsym := SWAP_INT (dysymtab_command_nundefsym x);
     dysymtab_command_tocoff := SWAP_INT (dysymtab_command_tocoff x);
     dysymtab_command_ntoc := SWAP_INT (dysymtab_command_ntoc x);
     dysymtab_command_modtaboff := SWAP_INT (dysymtab_command_modtaboff x);
     dysymtab_command_nmodtab := SWAP_INT (dysymtab_command_nmodtab x);
     dysymtab_command_extrefsymoff := SWAP_INT (dysymtab_command_extrefsymoff x);
     dysymtab_command_nextrefsyms := SWAP_INT (dysymtab_command_nextrefsyms x);
     dysymtab_command_indirectsymoff := SWAP_INT (dysymtab_command_indirectsymoff x);
     dysymtab_command_nindirectsyms := SWAP_INT (dysymtab_command_nindirectsyms x);
     dysymtab_command_extreloff := SWAP_INT (dysymtab_command_extreloff x);
     dysymtab_command_nextrel := SWAP_INT (dysymtab_command_nextrel x);
     dysymtab_command_locreloff := SWAP_INT (dysymtab_command_locreloff x);
     dysymtab_command_nlocrel := SWAP_INT (dysymtab_command_nlocrel x)
  |}.

#[export] Instance dysymtab_command_Swapped : Swapped dysymtab_command.
Proof. refine {| ld_struct := ld_dysymtab_command; swap_struct := swap_dysymtab_command |}; solve_swap @ld_dysymtab_command @swap_dysymtab_command. Defined.

(** [struct symseg_command], 16 bytes. *)
Record symseg_command := {
  symseg_command_cmd : Z;
  symseg_command_cmdsize : Z;
  symseg_command_offset : Z;
  symseg_command_size : Z
}.

Definition ld_symseg_command (h : host) (bs : list byte) (o : nat) : symseg_command :=
  {|
     symseg_command_cmd := ld_u32 h bs (o + 0);
     symseg_command_cmdsize := ld_u32 h bs (o + 4);
     symseg_command_offset := ld_u32 h bs (o + 8);
     symseg_command_size := ld_u32 h bs (o + 12)
  |}.

Definition swap_symseg_command (x : symseg_command) : symseg_command :=
  {|
     symseg_command_cmd := SWAP_INT (symseg_command_cmd x);
     symseg_command_cmdsize := SWAP_INT (symseg_command_cmdsize x);
     symseg_command_offset := SWAP_INT (symseg_command_offset x);
     symseg_command_size := SWAP_INT (symseg_command_size x)
  |}.

#[export] Instance symseg_command_Swapped : Swapped symseg_command.
Proof. refine {| ld_struct := ld_symseg_command; swap_struct := swap_symseg_command |}; solve_swap @ld_symseg_command @swap_symseg_command. Defined.

(** [struct fvmlib_command], 20 bytes. *)
Record fvmlib_command := {
  fvmlib_command_cmd : Z;
  fvmlib_command_cmdsize : Z;
  fvmlib_command_fvmlib_name_offset : Z;
  fvmlib_command_fvmlib_minor_version : Z;
  fvmlib_command_fvmlib_header_addr : Z
}.

Definition ld_fvmlib_command (h : host) (bs : list byte) (o : nat) : fvmlib_command :=
  {|
     fvmlib_command_cmd := ld_u32 h bs (o + 0);
     fvmlib_command_cmdsize := ld_u32 h bs (o + 4);
     fvmlib_command_fvmlib_name_offset := ld_u32 h bs (o + 8);
     fvmlib_command_fvmlib_minor_version := ld_u32 h bs (o + 12);
     fvmlib_command_fvmlib_header_addr := ld_u32 h bs (o + 16)
  |}.

Definition swap_fvmlib_command (x : fvmlib_command) : fvmlib_command :=
  {|
     fvmlib_command_cmd := SWAP_INT (fvmlib_command_cmd x);
     fvmlib_command_cmdsize := SWAP_INT (fvmlib_command_cmdsize x);
     fvmlib_command_fvmlib_name_offset := SWAP_INT (fvmlib_command_fvmlib_name_offset x);
     fvmlib_command_fvmlib_minor_version := SWAP_INT (fvmlib_command_fvmlib_minor_version x);
     fvmlib_command_fvmlib_header_addr := SWAP_INT (fvmlib_command_fvmlib_header_addr x)
  |}.

#[export] Instance fvmlib_command_Swapped : Swapped fvmlib_command.
Proof. refine {| ld_struct := ld_fvmlib_command; swap_struct := swap_fvmlib_command |}; solve_swap @ld_fvmlib_command @swap_fvmlib_command. Defined.

(** [struct dylib_command], 24 bytes. *)
Record dylib_command := {
  dylib_command_cmd : Z;
  dylib_command_cmdsize : Z;
  dylib_command_dylib_name_offset : Z;
  dylib_command_dylib_timestamp : Z;
  dylib_command_dylib_current_version : Z;
  dylib_command_dylib_compatibility_version : Z
}.

Definition ld_dylib_command (h : host) (bs : list byte) (o : nat) : dylib_command :=
  {|
     dylib_command_cmd := ld_u32 h bs (o + 0);
     dylib_command_cmdsize := ld_u32 h bs (o + 4);
     dylib_command_dylib_name_offset := ld_u32 h bs (o + 8);
     dylib_command_dylib_timestamp := ld_u32 h bs (o + 12);
     dylib_command_dylib_current_version := ld_u32 h bs (o + 16);
     dylib_command_dylib_compatibility_version := ld_u32 h bs (o + 20)
  |}.

Definition swap_dylib_command (x : dylib_command) : dylib_command :=
  {|
     dylib_command_cmd := SWAP_INT (dylib_command_cmd x);
     dylib_command_cmdsize := SWAP_INT (dylib_command_cmdsize x);
     dylib_command_dylib_name_offset := SWAP_INT (dylib_command_dylib_name_offset x);
     dylib_command_dylib_timestamp := SWAP_INT (dylib_command_dylib_timestamp x);
     dylib_command_dylib_current_version := SWAP_INT (dylib_command_dylib_current_version x);
     dylib_command_dylib_compatibility_version := SWAP_INT (dylib_command_dylib_compatibility_version x)
  |}.

#[export] Instance dylib_command_Swapped : Swapped dylib_command.
Proof. refine {| ld_struct := ld_dylib_command; swap_struct := swap_dylib_command |}; solve_swap @ld_dylib_command @swap_dylib_command. Defined.

(** [struct sub_framework_command], 12 bytes. *)
Record sub_framework_command := {
  sub_framework_command_cmd : Z;
  sub_framework_command_cmdsize : Z;
  sub_framework_command_umbrella_offset : Z
}.

Definition ld_sub_framework_command (h : host) (bs : list byte) (o : nat) : sub_framework_command :=
  {|
     sub_framework_command_cmd := ld_u32 h bs (o + 0);
     sub_framework_command_cmdsize := ld_u32 h bs (o + 4);
     sub_framework_command_umbrella_offset := ld_u32 h bs (o + 8)
  |}.

Definition swap_sub_framework_command (x : sub_framework_command) : sub_framework_command :=
  {|
     sub_framework_command_cmd := SWAP_INT (sub_framework_command_cmd x);
     sub_framework_command_cmdsize := SWAP_INT (sub_framework_command_cmdsize x);
     sub_framework_command_umbrella_offset := SWAP_INT (sub_framework_command_umbrella_offset x)
  |}.

#[export] Instance sub_framework_command_Swapped : Swapped sub_framework_command.
Proof. refine {| ld_struct := ld_sub_framework_command; swap_struct := swap_sub_framework_command |}; solve_swap @ld_sub_framework_command @swap_sub_framework_command. Defined.

(** [struct sub_umbrella_command], 12 bytes. *)
Record sub_umbrella_command := {
  sub_umbrella_command_cmd : Z;
  sub_umbrella_command_cmdsize : Z;
  sub_umbrella_command_sub_umbrella_offset : Z
}.

Definition ld_sub_umbrella_command (h : host) (bs : list byte) (o : nat) : sub_umbrella_command :=
  {|
     sub_umbrella_command_cmd := ld_u32 h bs (o + 0);
     sub_umbrella_command_cmdsize := ld_u32 h bs (o + 4);
     sub_umbrella_command_sub_umbrella_offset := ld_u32 h bs (o + 8)
  |}.

Definition swap_sub_umbrella_command (x : sub_umbrella_command) : sub_umbrella_command :=
  {|
     sub_umbrella_command_cmd := SWAP_INT (sub_umbrella_command_cmd x);
     sub_umbrella_command_cmdsize := SWAP_INT (sub_umbrella_command_cmdsize x);
     sub_umbrella_command_sub_umbrella_offset := SWAP_INT (sub_umbrella_command_sub_umbrella_offset x)
  |}.

#[export] Instance sub_umbrella_command_Swapped : Swapped sub_umbrella_command.
Proof. refine {| ld_struct := ld_sub_umbrella_command; swap_struct := swap_sub_umbrella_command |}; solve_swap @ld_sub_umbrella_command @swap_sub_umbrella_command. Defined.

(** [struct sub_library_command], 12 bytes. *)
Record sub_library_command := {
  sub_library_command_cmd : Z;
  sub_library_command_cmdsize : Z;
  sub_library_command_sub_library_offset : Z
}.

Definition ld_sub_library_command (h : host) (bs : list byte) (o : nat) : sub_library_command :=
  {|
     sub_library_command_cmd := ld_u32 h bs (o + 0);
     sub_library_command_cmdsize := ld_u32 h bs (o + 4);
     sub_library_command_sub_library_offset := ld_u32 h bs (o + 8)
  |}.

Definition swap_sub_library_command (x : sub_library_command) : sub_library_command :=
  {|
     sub_library_command_cmd := SWAP_INT (sub_library_command_cmd x);
     sub_library_command_cmdsize := SWAP_INT (sub_library_command_cmdsize x);
     sub_library_command_sub_library_offset := SWAP_INT (sub_library_command_sub_library_offset x)
  |}.

#[export] Instance sub_library_command_Swapped : Swapped sub_library_command.
Proof. refine {| ld_struct := ld_sub_library_command; swap_struct := swap_sub_library_command |}; solve_swap @ld_sub_library_command @swap_sub_library_command. Defined.

(** [struct sub_client_command], 12 bytes. *)
Record sub_client_command := {
  sub_client_command_cmd : Z;
  sub_client_command_cmdsize : Z;
  sub_client_command_client_offset : Z
}.

Definition ld_sub_client_command (h : host) (bs : list byte) (o : nat) : sub_client_command :=
  {|
     sub_client_command_cmd := ld_u32 h bs (o + 0);
     sub_client_command_cmdsize := ld_u32 h bs (o + 4);
     sub_client_command_client_offset := ld_u32 h bs (o + 8)
  |}.

Definition swap_sub_client_command (x : sub_client_command) : sub_client_command :=
  {|
     sub_client_command_cmd := SWAP_INT (sub_client_command_cmd x);
     sub_client_command_cmdsize := SWAP_INT (sub_client_command_cmdsize x);
     sub_client_command_client_offset := SWAP_INT (sub_client_command_client_offset x)
  |}.

#[export] Instance sub_client_command_Swapped : Swapped sub_client_command.
Proof. refine {| ld_struct := ld_sub_client_command; swap_struct := swap_sub_client_command |}; solve_swap @ld_sub_client_command @swap_sub_client_command. Defined.

(** [struct prebound_dylib_command], 20 bytes. *)
Record prebound_dylib_command := {
  prebound_dylib_command_cmd : Z;
  prebound_dylib_command_cmdsize : Z;
  prebound_dylib_command_name_offset : Z;
  prebound_dylib_command_nmodules : Z;
  prebound_dylib_command_linked_modules_offset : Z
}.

Definition ld_prebound_dylib_command (h : host) (bs : list byte) (o : nat) : prebound_dylib_command :=
  {|
     prebound_dylib_command_cmd := ld_u32 h bs (o + 0);
     prebound_dylib_command_cmdsize := ld_u32 h bs (o + 4);
     prebound_dylib_command_name_offset := ld_u32 h bs (o + 8);
     prebound_dylib_command_nmodules := ld_u32 h bs (o + 12);
     prebound_dylib_command_linked_modules_offset := ld_u32 h bs (o + 16)
  |}.

Definition swap_prebound_dylib_command (x : prebound_dylib_command) : prebound_dylib_command :=
  {|
     prebound_dylib_command_cmd := SWAP_INT (prebound_dylib_command_cmd x);
     prebound_dylib_command_cmdsize := SWAP_INT (prebound_dylib_command_cmdsize x);
     prebound_dylib_command_name_offset := SWAP_INT (prebound_dylib_command_name_offset x);
     prebound_dylib_command_nmodules := SWAP_INT (prebound_dylib_command_nmodules x);
     prebound_dylib_command_linked_modules_offset := SWAP_INT (prebound_dylib_command_linked_modules_offset x)
  |}.

#[export] Instance prebound_dylib_command_Swapped : Swapped prebound_dylib_command.
Proof. refine {| ld_struct := ld_prebound_dylib_command; swap_struct := swap_prebound_dylib_command |}; solve_swap @ld_prebound_dylib_command @swap_prebound_dylib_command. Defined.

(** [struct dylinker_command], 12 bytes. *)
Record dylinker_command := {
  dylinker_command_cmd : Z;
  dylinker_command_cmdsize : Z;
  dylinker_command_name_offset : Z
}.

Definition ld_dylinker_command (h : host) (bs : list byte) (o : nat) : dylinker_command :=
  {|
     dylinker_command_cmd := ld_u32 h bs (o + 0);
     dylinker_command_cmdsize := ld_u32 h bs (o + 4);
     dylinker_command_name_offset := ld_u32 h bs (o + 8)
  |}.

Definition swap_dylinker_command (x : dylinker_command) : dylinker_command :=
  {|
     dylinker_command_cmd := SWAP_INT (dylinker_command_cmd x);
     dylinker_command_cmdsize := SWAP_INT (dylinker_command_cmdsize x);
     dylinker_command_name_offset := SWAP_INT (dylinker_command_name_offset x)
  |}.

#[export] Instance dylinker_command_Swapped : Swapped dylinker_command.
Proof. refine {| ld_struct := ld_dylinker_command; swap_struct := swap_dylinker_command |}; solve_swap @ld_dylinker_command @swap_dylinker_command. Defined.

(** [struct fvmfile_command], 16 bytes. *)
Record fvmfile_command := {
  fvmfile_command_cmd : Z;
  fvmfile_command_cmdsize : Z;
  fvmfile_command_name_offset : Z;
  fvmfile_command_header_addr : Z
}.

Definition ld_fvmfile_command (h : host) (bs : list byte) (o : nat) : fvmfile_command :=
  {|
     fvmfile_command_cmd := ld_u32 h bs (o + 0);
     fvmfile_command_cmdsize := ld_u32 h bs (o + 4);
     fvmfile_command_name_offset := ld_u32 h bs (o + 8);
     fvmfile_command_header_addr := ld_u32 h bs (o + 12)
  |}.

Definition swap_fvmfile_command (x : fvmfile_command) : fvmfile_command :=
  {|
     fvmfile_command_cmd := SWAP_INT (fvmfile_command_cmd x);
     fvmfile_command_cmdsize := SWAP_INT (fvmfile_command_cmdsize x);
     fvmfile_command_name_offset := SWAP_INT (fvmfile_command_name_offset x);
     fvmfile_command_header_addr := SWAP_INT (fvmfile_command_header_addr x)
  |}.

#[export] Instance fvmfile_command_Swapped : Swapped fvmfile_command.
Proof. refine {| ld_struct := ld_fvmfile_command; swap_struct := swap_fvmfile_command |}; solve_swap @ld_fvmfile_command @swap_fvmfile_command. Defined.

(** [struct thread_command], 8 bytes. *)
Record thread_command := {
  thread_command_cmd : Z;
  thread_command_cmdsize : Z
}.

Definition ld_thread_command (h : host) (bs : list byte) (o : nat) : thread_command :=
  {|
     thread_command_cmd := ld_u32 h bs (o + 0);
     thread_command_cmdsize := ld_u32 h bs (o + 4)
  |}.

Definition swap_thread_command (x : thread_command) : thread_command :=
  {|
     thread_command_cmd := SWAP_INT (thread_command_cmd x);
     thread_command_cmdsize := SWAP_INT (thread_command_cmdsize x)
  |}.

#[export] Instance thread_command_Swapped : Swapped thread_command.
Proof. refine {| ld_struct := ld_thread_command; swap_struct := swap_thread_command |}; solve_swap @ld_thread_command @swap_thread_command. Defined.

(** [struct ident_command], 8 bytes. *)
Record ident_command := {
  ident_command_cmd : Z;
  ident_command_cmdsize : Z
}.

Definition ld_ident_command (h : host) (bs : list byte) (o : nat) : ident_command :=
  {|
     ident_command_cmd := ld_u32 h bs (o + 0);
     ident_command_cmdsize := ld_u32 h bs (o + 4)
  |}.

Definition swap_ident_command (x : ident_command) : ident_command :=
  {|
     ident_command_cmd := SWAP_INT (ident_command_cmd x);
     ident_command_cmdsize := SWAP_INT (ident_command_cmdsize x)
  |}.

#[export] Instance ident_command_Swapped : Swapped ident_command.
Proof. refine {| ld_struct := ld_ident_command; swap_struct := swap_ident_command |}; solve_swap @ld_ident_command @swap_ident_command. Defined.

(** [struct routines_command], 40 bytes. *)
Record routines_command := {
  routines_command_cmd : Z;
  routines_command_cmdsize : Z;
  routines_command_init_address : Z;
  routines_command_init_module : Z;
  routines_command_reserved1 : Z;
  routines_command_reserved2 : Z;
  routines_command_reserved3 : Z;
  routines_command_reserved4 : Z;
  routines_command_reserved5 : Z;
  routines_command_reserved6 : Z
}.

Definition ld_routines_command (h : host) (bs : list byte) (o : nat) : routines_command :=
  {|
     routines_command_cmd := ld_u32 h bs (o + 0);
     routines_command_cmdsize := ld_u32 h bs (o + 4);
     routines_command_init_address := ld_u32 h bs (o + 8);
     routines_command_init_module := ld_u32 h bs (o + 12);
     routines_command_reserved1 := ld_u32 h bs (o + 16);
     routines_command_reserved2 := ld_u32 h bs (o + 20);
     routines_command_reserved3 := ld_u32 h bs (o + 24);
     routines_command_reserved4 := ld_u32 h bs (o + 28);
     routines_command_reserved5 := ld_u32 h bs (o + 32);
     routines_command_reserved6 := ld_u32 h bs (o + 36)
  |}.

Definition swap_routines_command (x : routines_command) : routines_command :=
  {|
     routines_command_cmd := SWAP_INT (routines_command_cmd x);
     routines_command_cmdsize := SWAP_INT (routines_command_cmdsize x);
     routines_command_init_address := SWAP_INT (routines_command_init_address x);
     routines_command_init_module := SWAP_INT (routines_command_init_module x);
     routines_command_reserved1 := SWAP_INT (routines_command_reserved1 x);
     routines_command_reserved2 := SWAP_INT (routines_command_reserved2 x);
     routines_command_reserved3 := SWAP_INT (routines_command_reserved3 x);
     routines_command_reserved4 := SWAP_INT (routines_command_reserved4 x);
     routines_command_reserved5 := SWAP_INT (routines_command_reserved5 x);
     routines_command_reserved6 := SWAP_INT (routines_command_reserved6 x)
  |}.

#[export] Instance routines_command_Swapped : Swapped routines_command.
Proof. refine {| ld_struct := ld_routines_command; swap_struct := swap_routines_command |}; solve_swap @ld_routines_command @swap_routines_command. Defined.

(** [struct routines_command_64], 72 bytes. *)
Record routines_command_64 := {
  routines_command_64_cmd : Z;
  routines_command_64_cmdsize : Z;
  routines_command_64_init_address : Z;
  routines_command_64_init_module : Z;
  routines_command_64_reserved1 : Z;
  routines_command_64_reserved2 : Z;
  routines_command_64_reserved3 : Z;
  routines_command_64_reserved4 : Z;
  routines_command_64_reserved5 : Z;
  routines_command_64_reserved6 : Z
}.

Definition ld_routines_command_64 (h : host) (bs : list byte) (o : nat) : routines_command_64 :=
  {|
     routines_command_64_cmd := ld_u32 h bs (o + 0);
     routines_command_64_cmdsize := ld_u32 h bs (o + 4);
     routines_command_64_init_address := ld_u64 h bs (o + 8);
     routines_command_64_init_module := ld_u64 h bs (o + 16);
     routines_command_64_reserved1 := ld_u64 h bs (o + 24);
     routines_command_64_reserved2 := ld_u64 h bs (o + 32);
     routines_command_64_reserved3 := ld_u64 h bs (o + 40);
     routines_command_64_reserved4 := ld_u64 h bs (o + 48);
     routines_command_64_reserved5 := ld_u64 h bs (o + 56);
     routines_command_64_reserved6 := ld_u64 h bs (o + 64)
  |}.

Definition swap_routines_command_64 (x : routines_command_64) : routines_command_64 :=
  {|
     routines_command_64_cmd := SWAP_INT (routines_command_64_cmd x);
     routines_command_64_cmdsize := SWAP_INT (routines_command_64_cmdsize x);
     routines_command_64_init_address := u64 (SWAP_LONG_LONG (routines_command_64_init_address x));
     routines_command_64_init_module := u64 (SWAP_LONG_LONG (routines_command_64_init_module x));
     routines_command_64_reserved1 := u64 (SWAP_LONG_LONG (routines_command_64_reserved1 x));
     routines_command_64_reserved2 := u64 (SWAP_LONG_LONG (routines_command_64_reserved2 x));
     routines_command_64_reserved3 := u64 (SWAP_LONG_LONG (routines_command_64_reserved3 x));
     routines_command_64_reserved4 := u64 (SWAP_LONG_LONG (routines_command_64_reserved4 x));
     routines_command_64_reserved5 := u64 (SWAP_LONG_LONG (routines_command_64_reserved5 x));
     routines_command_64_reserved6 := u64 (SWAP_LONG_LONG (routines_command_64_reserved6 x))
  |}.

#[export] Instance routines_command_64_Swapped : Swapped routines_command_64.
Proof. refine {| ld_struct := ld_routines_command_64; swap_struct := swap_routines_command_64 |}; solve_swap @ld_routines_command_64 @swap_routines_command_64. Defined.

(** [struct twolevel_hints_command], 16 bytes. *)
Record twolevel_hints_command := {
  twolevel_hints_command_cmd : Z;
  twolevel_hints_command_cmdsize : Z;
  twolevel_hints_command_offset : Z;
  twolevel_hints_command_nhints : Z
}.

Definition ld_twolevel_hints_command (h : host) (bs : list byte) (o : nat) : twolevel_hints_command :=
  {|
     twolevel_hints_command_cmd := ld_u32 h bs (o + 0);
     twolevel_hints_command_cmdsize := ld_u32 h bs (o + 4);
     twolevel_hints_command_offset := ld_u32 h bs (o + 8);
     twolevel_hints_command_nhints := ld_u32 h bs (o + 12)
  |}.

Definition swap_twolevel_hints_command (x : twolevel_hints_command) : twolevel_hints_command :=
  {|
     twolevel_hints_command_cmd := SWAP_INT (twolevel_hints_command_cmd x);
     twolevel_hints_command_cmdsize := SWAP_INT (twolevel_hints_command_cmdsize x);
     twolevel_hints_command_offset := SWAP_INT (twolevel_hints_command_offset x);
     twolevel_hints_command_nhints := SWAP_INT (twolevel_hints_command_nhints x)
  |}.

#[export] Instance twolevel_hints_command_Swapped : Swapped twolevel_hints_command.
Proof. refine {| ld_struct := ld_twolevel_hints_command; swap_struct := swap_twolevel_hints_command |}; solve_swap @ld_twolevel_hints_command @swap_twolevel_hints_command. Defined.

(** [struct prebind_cksum_command], 12 bytes. *)
Record prebind_cksum_command := {
  prebind_cksum_command_cmd : Z;
  prebind_cksum_command_cmdsize : Z;
  prebind_cksum_command_cksum : Z
}.

Definition ld_prebind_cksum_command (h : host) (bs : list byte) (o : nat) : prebind_cksum_command :=
  {|
     prebind_cksum_command_cmd := ld_u32 h bs (o + 0);
     prebind_cksum_command_cmdsize := ld_u32 h bs (o + 4);
     prebind_cksum_command_cksum := ld_u32 h bs (o + 8)
  |}.

Definition swap_prebind_cksum_command (x : prebind_cksum_command) : prebind_cksum_command :=
  {|
     prebind_cksum_command_cmd := SWAP_INT (prebind_cksum_command_cmd x);
     prebind_cksum_command_cmdsize := SWAP_INT (prebind_cksum_command_cmdsize x);
     prebind_cksum_command_cksum := SWAP_INT (prebind_cksum_command_cksum x)
  |}.

#[export] Instance prebind_cksum_command_Swapped : Swapped prebind_cksum_command.
Proof. refine {| ld_struct := ld_prebind_cksum_command; swap_struct := swap_prebind_cksum_command |}; solve_swap @ld_prebind_cksum_command @swap_prebind_cksum_command. Defined.

(** [struct uuid_command], 24 bytes. *)
Record uuid_command := {
  uuid_command_cmd : Z;
  uuid_command_cmdsize : Z;
  uuid_command_uuid : list Z
}.

Definition ld_uuid_command (h : host) (bs : list byte) (o : nat) : uuid_command :=
  {|
     uuid_command_cmd := ld_u32 h bs (o + 0);
     uuid_command_cmdsize := ld_u32 h bs (o + 4);
     uuid_command_uuid := bytes_at bs (o + 8) 16
  |}.

Definition swap_uuid_command (x : uuid_command) : uuid_command :=
  {|
     uuid_command_cmd := SWAP_INT (uuid_command_cmd x);
     uuid_command_cmdsize := SWAP_INT (uuid_command_cmdsize x);
     uuid_command_uuid := uuid_command_uuid x
  |}.

#[export] Instance uuid_command_Swapped : Swapped uuid_command.
Proof. refine {| ld_struct := ld_uuid_command; swap_struct := swap_uuid_command |}; solve_swap @ld_uuid_command @swap_uuid_command. Defined.

(** [struct linkedit_data_command], 16 bytes. *)
Record linkedit_data_command := {
  linkedit_data_command_cmd : Z;
  linkedit_data_command_cmdsize : Z;
  linkedit_data_command_dataoff : Z;
  linkedit_data_command_datasize : Z
}.

Definition ld_linkedit_data_command (h : host) (bs : list byte) (o : nat) : linkedit_data_command :=
  {|
     linkedit_data_command_cmd := ld_u32 h bs (o + 0);
     linkedit_data_command_cmdsize := ld_u32 h bs (o + 4);
     linkedit_data_command_dataoff := ld_u32 h bs (o + 8);
     linkedit_data_command_datasize := ld_u32 h bs (o + 12)
  |}.

Definition swap_linkedit_data_command (x : linkedit_data_command) : linkedit_data_command :=
  {|
     linkedit_data_command_cmd := SWAP_INT (linkedit_data_command_cmd x);
     linkedit_data_command_cmdsize := SWAP_INT (linkedit_data_command_cmdsize x);
     linkedit_data_command_dataoff := SWAP_INT (linkedit_data_command_dataoff x);
     linkedit_data_command_datasize := SWAP_INT (linkedit_data_command_datasize x)
  |}.

#[export] Instance linkedit_data_command_Swapped : Swapped linkedit_data_command.
Proof. refine {| ld_struct := ld_linkedit_data_command; swap_struct := swap_linkedit_data_command |}; solve_swap @ld_linkedit_data_command @swap_linkedit_data_command. Defined.

(** [struct build_version_command], 24 bytes. *)
Record build_version_command := {
  build_version_command_cmd : Z;
  build_version_command_cmdsize : Z;
  build_version_command_platform : Z;
  build_version_command_minos : Z;
  build_version_command_sdk : Z;
  build_version_command_ntools : Z
}.

Definition ld_build_version_command (h : host) (bs : list byte) (o : nat) : build_version_command :=
  {|
     build_version_command_cmd := ld_u32 h bs (o + 0);
     build_version_command_cmdsize := ld_u32 h bs (o + 4);
     build_version_command_platform := ld_u32 h bs (o + 8);
     build_version_command_minos := ld_u32 h bs (o + 12);
     build_version_command_sdk := ld_u32 h bs (o + 16);
     build_version_command_ntools := ld_u32 h bs (o + 20)
  |}.

Definition swap_build_version_command (x : build_version_command) : build_version_command :=
  {|
     build_version_command_cmd := SWAP_INT (build_version_command_cmd x);
     build_version_command_cmdsize := SWAP_INT (build_version_command_cmdsize x);
     build_version_command_platform := SWAP_INT (build_version_command_platform x);
     build_version_command_minos := SWAP_INT (build_version_command_minos x);
     build_version_command_sdk := SWAP_INT (build_version_command_sdk x);
     build_version_command_ntools := SWAP_INT (build_version_command_ntools x)
  |}.

#[export] Instance build_version_command_Swapped : Swapped build_version_command.
Proof. refine {| ld_struct := ld_build_version_command; swap_struct := swap_build_version_command |}; solve_swap @ld_build_version_command @swap_build_version_command. Defined.

(** [struct rpath_command], 12 bytes. *)
Record rpath_command := {
  rpath_command_cmd : Z;
  rpath_command_cmdsize : Z;
  rpath_command_path_offset : Z
}.

Definition ld_rpath_command (h : host) (bs : list byte) (o : nat) : rpath_command :=
  {|
     rpath_command_cmd := ld_u32 h bs (o + 0);
     rpath_command_cmdsize := ld_u32 h bs (o + 4);
     rpath_command_path_offset := ld_u32 h bs (o + 8)
  |}.

Definition swap_rpath_command (x : rpath_command) : rpath_command :=
  {|
     rpath_command_cmd := SWAP_INT (rpath_command_cmd x);
     rpath_command_cmdsize := SWAP_INT (rpath_command_cmdsize x);
     rpath_command_path_offset := SWAP_INT (rpath_command_path_offset x)
  |}.

#[export] Instance rpath_command_Swapped : Swapped rpath_command.
Proof. refine {| ld_struct := ld_rpath_command; swap_struct := swap_rpath_command |}; solve_swap @ld_rpath_command @swap_rpath_command. Defined.

(** [struct linker_option_command], 12 bytes. *)
Record linker_option_command := {
  linker_option_command_cmd : Z;
  linker_option_command_cmdsize : Z;
  linker_option_command_count : Z
}.

Definition ld_linker_option_command (h : host) (bs : list byte) (o : nat) : linker_option_command :=
  {|
     linker_option_command_cmd := ld_u32 h bs (o + 0);
     linker_option_command_cmdsize := ld_u32 h bs (o + 4);
     linker_option_command_count := ld_u32 h bs (o + 8)
  |}.

Definition swap_linker_option_command (x : linker_option_command) : linker_option_command :=
  {|
     linker_option_command_cmd := SWAP_INT (linker_option_command_cmd x);
     linker_option_command_cmdsize := SWAP_INT (linker_option_command_cmdsize x);
     linker_option_command_count := SWAP_INT (linker_option_command_count x)
  |}.

#[export] Instance linker_option_command_Swapped : Swapped linker_option_command.
Proof. refine {| ld_struct := ld_linker_option_command; swap_struct := swap_linker_option_command |}; solve_swap @ld_linker_option_command @swap_linker_option_command. Defined.

(** [struct dyld_info_command], 48 bytes. *)
Record dyld_info_command := {
  dyld_info_command_cmd : Z;
  dyld_info_command_cmdsize : Z;
  dyld_info_command_rebase_off : Z;
  dyld_info_command_rebase_size : Z;
  dyld_info_command_bind_off : Z;
  dyld_info_command_bind_size : Z;
  dyld_info_command_weak_bind_off : Z;
  dyld_info_command_weak_bind_size : Z;
  dyld_info_command_lazy_bind_off : Z;
  dyld_info_command_lazy_bind_size : Z;
  dyld_info_command_export_off : Z;
  dyld_info_command_export_size : Z
}.

Definition ld_dyld_info_command (h : host) (bs : list byte) (o : nat) : dyld_info_command :=
  {|
     dyld_info_command_cmd := ld_u32 h bs (o + 0);
     dyld_info_command_cmdsize := ld_u32 h bs (o + 4);
     dyld_info_command_rebase_off := ld_u32 h bs (o + 8);
     dyld_info_command_rebase_size := ld_u32 h bs (o + 12);
     dyld_info_command_bind_off := ld_u32 h bs (o + 16);
     dyld_info_command_bind_size := ld_u32 h bs (o + 20);
     dyld_info_command_weak_bind_off := ld_u32 h bs (o + 24);
     dyld_info_command_weak_bind_size := ld_u32 h bs (o + 28);
     dyld_info_command_lazy_bind_off := ld_u32 h bs (o + 32);
     dyld_info_command_lazy_bind_size := ld_u32 h bs (o + 36);
     dyld_info_command_export_off := ld_u32 h bs (o + 40);
     dyld_info_command_export_size := ld_u32 h bs (o + 44)
  |}.

Definition swap_dyld_info_command (x : dyld_info_command) : dyld_info_command :=
  {|
     dyld_info_command_cmd := SWAP_INT (dyld_info_command_cmd x);
     dyld_info_command_cmdsize := SWAP_INT (dyld_info_command_cmdsize x);
     dyld_info_command_rebase_off := SWAP_INT (dyld_info_command_rebase_off x);
     dyld_info_command_rebase_size := SWAP_INT (dyld_info_command_rebase_size x);
     dyld_info_command_bind_off := SWAP_INT (dyld_info_command_bind_off x);
     dyld_info_command_bind_size := SWAP_INT (dyld_info_command_bind_size x);
     dyld_info_command_weak_bind_off := SWAP_INT (dyld_info_command_weak_bind_off x);
     dyld_info_command_weak_bind_size := SWAP_INT (dyld_info_command_weak_bind_size x);
     dyld_info_command_lazy_bind_off := SWAP_INT (dyld_info_command_lazy_bind_off x);
     dyld_info_command_lazy_bind_size := SWAP_INT (dyld_info_command_lazy_bind_size x);
     dyld_info_command_export_off := SWAP_INT (dyld_info_command_export_off x);
     dyld_info_command_export_size := SWAP_INT (dyld_info_command_export_size x)
  |}.

#[export] Instance dyld_info_command_Swapped : Swapped dyld_info_command.
Proof. refine {| ld_struct := ld_dyld_info_command; swap_struct := swap_dyld_info_command |}; solve_swap @ld_dyld_info_command @swap_dyld_info_command. Defined.

(** [struct entry_point_command], 24 bytes. *)
Record entry_point_command := {
  entry_point_command_cmd : Z;
  entry_point_command_cmdsize : Z;
  entry_point_command_entryoff : Z;
  entry_point_command_stacksize : Z
}.

Definition ld_entry_point_command (h : host) (bs : list byte) (o : nat) : entry_point_command :=
  {|
     entry_point_command_cmd := ld_u32 h bs (o + 0);
     entry_point_command_cmdsize := ld_u32 h bs (o + 4);
     entry_point_command_entryoff := ld_u64 h bs (o + 8);
     entry_point_command_stacksize := ld_u64 h bs (o + 16)
  |}.

Definition swap_entry_point_command (x : entry_point_command) : entry_point_command :=
  {|
     entry_point_command_cmd := SWAP_INT (entry_point_command_cmd x);
     entry_point_command_cmdsize := SWAP_INT (entry_point_command_cmdsize x);
     entry_point_command_entryoff := u64 (SWAP_LONG_LONG (entry_point_command_entryoff x));
     entry_point_command_stacksize := u64 (SWAP_LONG_LONG (entry_point_command_stacksize x))
  |}.

#[export] Instance entry_point_command_Swapped : Swapped entry_point_command.
Proof. refine {| ld_struct := ld_entry_point_command; swap_struct := swap_entry_point_command |}; solve_swap @ld_entry_point_command @swap_entry_point_command. Defined.

(** [struct source_version_command], 16 bytes. *)
Record source_version_command := {
  source_version_command_cmd : Z;
  source_version_command_cmdsize : Z;
  source_version_command_version : Z
}.

Definition ld_source_version_command (h : host) (bs : list byte) (o : nat) : source_version_command :=
  {|
     source_version_command_cmd := ld_u32 h bs (o + 0);
     source_version_command_cmdsize := ld_u32 h bs (o + 4);
     source_version_command_version := ld_u64 h bs (o + 8)
  |}.

Definition swap_source_version_command (x : source_version_command) : source_version_command :=
  {|
     source_version_command_cmd := SWAP_INT (source_version_command_cmd x);
     source_version_command_cmdsize := SWAP_INT (source_version_command_cmdsize x);
     source_version_command_version := u64 (SWAP_LONG_LONG (source_version_command_version x))
  |}.

#[export] Instance source_version_command_Swapped : Swapped source_version_command.
Proof. refine {| ld_struct := ld_source_version_command; swap_struct := swap_source_version_command |}; solve_swap @ld_source_version_command @swap_source_version_command. Defined.

(** [struct note_command], 40 bytes. *)
Record note_command := {
  note_command_cmd : Z;
  note_command_cmdsize : Z;
  note_command_data_owner : list Z;
  note_command_offset : Z;
  note_command_size : Z
}.

Definition ld_note_command (h : host) (bs : list byte) (o : nat) : note_command :=
  {|
     note_command_cmd := ld_u32 h bs (o + 0);
     note_command_cmdsize := ld_u32 h bs (o + 4);
     note_command_data_owner := bytes_at bs (o + 8) 16;
     note_command_offset := ld_u64 h bs (o + 24);
     note_command_size := ld_u64 h bs (o + 32)
  |}.

Definition swap_note_command (x : note_command) : note_command :=
  {|
     note_command_cmd := SWAP_INT (note_command_cmd x);
     note_command_cmdsize := SWAP_INT (note_command_cmdsize x);
     note_command_data_owner := note_command_data_owner x;
     note_command_offset := u64 (SWAP_LONG_LONG (note_command_offset x));
     note_command_size := u64 (SWAP_LONG_LONG (note_command_size x))
  |}.

#[export] Instance note_command_Swapped : Swapped note_command.
Proof. refine {| ld_struct := ld_note_command; swap_struct := swap_note_command |}; solve_swap @ld_note_command @swap_note_command. Defined.

(** [struct fileset_entry_command], 32 bytes. *)
Record fileset_entry_command := {
  fileset_entry_command_cmd : Z;
  fileset_entry_command_cmdsize : Z;
  fileset_entry_command_vmaddr : Z;
  fileset_entry_command_fileoff : Z;
  fileset_entry_command_entry_id_offset : Z;
  fileset_entry_command_reserved : Z
}.

Definition ld_fileset_entry_command (h : host) (bs : list byte) (o : nat) : fileset_entry_command :=
  {|
     fileset_entry_command_cmd := ld_u32 h bs (o + 0);
     fileset_entry_command_cmdsize := ld_u32 h bs (o + 4);
     fileset_entry_command_vmaddr := ld_u64 h bs (o + 8);
     fileset_entry_command_fileoff := ld_u64 h bs (o + 16);
     fileset_entry_command_entry_id_offset := ld_u32 h bs (o + 24);
     fileset_entry_command_reserved := ld_u32 h bs (o + 28)
  |}.

Definition swap_fileset_entry_command (x : fileset_entry_command) : fileset_entry_command :=
  {|
     fileset_entry_command_cmd := SWAP_INT (fileset_entry_command_cmd x);
     fileset_entry_command_cmdsize := SWAP_INT (fileset_entry_command_cmdsize x);
     fileset_entry_command_vmaddr := u64 (SWAP_LONG_LONG (fileset_entry_command_vmaddr x));
     fileset_entry_command_fileoff := u64 (SWAP_LONG_LONG (fileset_entry_command_fileoff x));
     fileset_entry_command_entry_id_offset := SWAP_INT (fileset_entry_command_entry_id_offset x);
     fileset_entry_command_reserved := SWAP_INT (fileset_entry_command_reserved x)
  |}.

#[export] Instance fileset_entry_command_Swapped : Swapped fileset_entry_command.
Proof. refine {| ld_struct := ld_fileset_entry_command; swap_struct := swap_fileset_entry_command |}; solve_swap @ld_fileset_entry_command @swap_fileset_entry_command. Defined.

(** [struct encryption_info_command], 20 bytes. *)
Record encryption_info_command := {
  encryption_info_command_cmd : Z;
  encryption_info_command_cmdsize : Z;
  encryption_info_command_cryptoff : Z;
  encryption_info_command_cryptsize : Z;
  encryption_info_command_cryptid : Z
}.

Definition ld_encryption_info_command (h : host) (bs : list byte) (o : nat) : encryption_info_command :=
  {|
     encryption_info_command_cmd := ld_u32 h bs (o + 0);
     encryption_info_command_cmdsize := ld_u32 h bs (o + 4);
     encryption_info_command_cryptoff := ld_u32 h bs (o + 8);
     encryption_info_command_cryptsize := ld_u32 h bs (o + 12);
     encryption_info_command_cryptid := ld_u32 h bs (o + 16)
  |}.

Definition swap_encryption_command (x : encryption_info_command) : encryption_info_command :=
  {|
     encryption_info_command_cmd := SWAP_INT (encryption_info_command_cmd x);
     encryption_info_command_cmdsize := SWAP_INT (encryption_info_command_cmdsize x);
     encryption_info_command_cryptoff := SWAP_INT (encryption_info_command_cryptoff x);
     encryption_info_command_cryptsize := SWAP_INT (encryption_info_command_cryptsize x);
     encryption_info_command_cryptid := SWAP_INT (encryption_info_command_cryptid x)
  |}.

#[export] Instance encryption_info_command_Swapped : Swapped encryption_info_command.
Proof. refine {| ld_struct := ld_encryption_info_command; swap_struct := swap_encryption_command |}; solve_swap @ld_encryption_info_command @swap_encryption_command. Defined.

(** [struct build_tool_version], 8 bytes. *)
Record build_tool_version := {
  build_tool_version_tool : Z;
  build_tool_version_version : Z
}.

Definition ld_build_tool_version (h : host) (bs : list byte) (o : nat) : build_tool_version :=
  {|
     build_tool_version_tool := ld_u32 h bs (o + 0);
     build_tool_version_version := ld_u32 h bs (o + 4)
  |}.

Definition swap_build_tool_version_elem (x : build_tool_version) : build_tool_version :=
  {|
     build_tool_version_tool := SWAP_INT (build_tool_version_tool x);
     build_tool_version_version := SWAP_INT (build_tool_version_version x)
  |}.

Definition swap_build_tool_version (l : list build_tool_version) (n : nat) : list build_tool_version :=
  for_array swap_build_tool_version_elem n l.

#[export] Instance build_tool_version_Swapped : Swapped build_tool_version.
Proof. refine {| ld_struct := ld_build_tool_version; swap_struct := swap_build_tool_version_elem |}; solve_swap @ld_build_tool_version @swap_build_tool_version_elem. Defined.

(** [struct encryption_info_command_64], 24 bytes. *)
Record encryption_info_command_64 := {
  encryption_info_command_64_cmd : Z;
  encryption_info_command_64_cmdsize : Z;
  encryption_info_command_64_cryptoff : Z;
  encryption_info_command_64_cryptsize : Z;
  encryption_info_command_64_cryptid : Z;
  encryption_info_command_64_pad : Z
}.

Definition ld_encryption_info_command_64 (h : host) (bs : list byte) (o : nat) : encryption_info_command_64 :=
  {|
     encryption_info_command_64_cmd := ld_u32 h bs (o + 0);
     encryption_info_command_64_cmdsize := ld_u32 h bs (o + 4);
     encryption_info_command_64_cryptoff := ld_u32 h bs (o + 8);
     encryption_info_command_64_cryptsize := ld_u32 h bs (o + 12);
     encryption_info_command_64_cryptid := ld_u32 h bs (o + 16);
     encryption_info_command_64_pad := ld_u32 h bs (o + 20)
  |}.

Definition swap_encryption_command_64 (x : encryption_info_command_64) : encryption_info_command_64 :=
  {|
     encryption_info_command_64_cmd := SWAP_INT (encryption_info_command_64_cmd x);
     encryption_info_command_64_cmdsize := SWAP_INT (encryption_info_command_64_cmdsize x);
     encryption_info_command_64_cryptoff := SWAP_INT (encryption_info_command_64_cryptoff x);
     encryption_info_command_64_cryptsize := SWAP_INT (encryption_info_command_64_cryptsize x);
     encryption_info_command_64_cryptid := SWAP_INT (encryption_info_command_64_pad x);
     encryption_info_command_64_pad := encryption_info_command_64_pad x
  |}.

(** [struct version_min_command], 16 bytes. *)
Record version_min_command := {
  version_min_command_cmd : Z;
  version_min_command_cmdsize : Z;
  version_min_command_version : Z;
  version_min_command_sdk : Z
}.

Definition ld_version_min_command (h : host) (bs : list byte) (o : nat) : version_min_command :=
  {|
     version_min_command_cmd := ld_u32 h bs (o + 0);
     version_min_command_cmdsize := ld_u32 h bs (o + 4);
     version_min_command_version := ld_u32 h bs (o + 8);
     version_min_command_sdk := ld_u32 h bs (o + 12)
  |}.

Definition swap_version_min_command (x : version_min_command) : version_min_command :=
  {|
     version_min_command_cmd := SWAP_INT (version_min_command_cmd x);
     version_min_command_cmdsize := SWAP_INT (version_min_command_cmdsize x);
     version_min_command_version := SWAP_INT (version_min_command_version x);
     version_min_command_sdk := version_min_command_sdk x
  |}.
