(* ===== verification/TableSwap.v ===== *)
(** * libstuff/bytesex.c: the tables of the link edit segment *)

From Stdlib Require Import ZArith Lia.
From Stdlib Require Import Init.Byte Strings.Byte.
From stdpp Require Import base list option numbers.
From S2P Require Import Prelude CInt ByteSex.

(** [struct nlist], 12 bytes. *)
Record nlist := {
  nlist_n_un_n_strx : Z;
  nlist_n_type : Z;
  nlist_n_sect : Z;
  nlist_n_desc : Z;
  nlist_n_value : Z
}.

Definition ld_nlist (h : host) (bs : list byte) (o : nat) : nlist :=
  {|
     nlist_n_un_n_strx := ld_u32 h bs (o + 0);
     nlist_n_type := byte_at bs (o + 4);
     nlist_n_sect := byte_at bs (o + 5);
     nlist_n_desc := ld_i16 h bs (o + 6);
     nlist_n_value := ld_u32 h bs (o + 8)
  |}.

Definition swap_nlist_elem (x : nlist) : nlist :=
  {|
     nlist_n_un_n_strx := SWAP_INT (nlist_n_un_n_strx x);
     nlist_n_type := nlist_n_type x;
     nlist_n_sect := nlist_n_sect x;
     nlist_n_desc := i16 (SWAP_SHORT (nlist_n_desc x));
     nlist_n_value := SWAP_INT (nlist_n_value x)
  |}.

Definition swap_nlist (l : list nlist) (n : nat) : list nlist :=
  for_array swap_nlist_elem n l.

#[export] Instance nlist_Swapped : Swapped nlist.
Proof. refine {| ld_struct := ld_nlist; swap_struct := swap_nlist_elem |}; solve_swap @ld_nlist @swap_nlist_elem. Defined.

(** [struct nlist_64], 16 bytes. *)
Record nlist_64 := {
  nlist_64_n_un_n_strx : Z;
  nlist_64_n_type : Z;
  nlist_64_n_sect : Z;
  nlist_64_n_desc : Z;
  nlist_64_n_value : Z
}.

Definition ld_nlist_64 (h : host) (bs : list byte) (o : nat) : nlist_64 :=
  {|
     nlist_64_n_un_n_strx := ld_u32 h bs (o + 0);
     nlist_64_n_type := byte_at bs (o + 4);
     nlist_64_n_sect := byte_at bs (o + 5);
     nlist_64_n_desc := ld_u16 h bs (o + 6);
     nlist_64_n_value := ld_u64 h bs (o + 8)
  |}.

Definition swap_nlist_64_elem (x : nlist_64) : nlist_64 :=
  {|
     nlist_64_n_un_n_strx := SWAP_INT (nlist_64_n_un_n_strx x);
     nlist_64_n_type := nlist_64_n_type x;
     nlist_64_n_sect := nlist_64_n_sect x;
     nlist_64_n_desc := u16 (SWAP_SHORT (nlist_64_n_desc x));
     nlist_64_n_value := u64 (SWAP_LONG_LONG (nlist_64_n_value x))
  |}.

Definition swap_nlist_64 (l : list nlist_64) (n : nat) : list nlist_64 :=
  for_array swap_nlist_64_elem n l.

#[export] Instance nlist_64_Swapped : Swapped nlist_64.
Proof. refine {| ld_struct := ld_nlist_64; swap_struct := swap_nlist_64_elem |}; solve_swap @ld_nlist_64 @swap_nlist_64_elem. Defined.

(** [struct ranlib], 8 bytes. *)
Record ranlib := {
  ranlib_ran_un_ran_strx : Z;
  ranlib_ran_off : Z
}.

Definition ld_ranlib (h : host) (bs : list byte) (o : nat) : ranlib :=
  {|
     ranlib_ran_un_ran_strx := ld_u32 h bs (o + 0);
     ranlib_ran_off := ld_u32 h bs (o + 4)
  |}.

Definition swap_ranlib_elem (x : ranlib) : ranlib :=
  {|
     ranlib_ran_un_ran_strx := SWAP_INT (ranlib_ran_un_ran_strx x);
     ranlib_ran_off := SWAP_INT (ranlib_ran_off x)
  |}.

Definition swap_ranlib (l : list ranlib) (n : nat) : list ranlib :=
  for_array swap_ranlib_elem n l.

#[export] Instance ranlib_Swapped : Swapped ranlib.
Proof. refine {| ld_struct := ld_ranlib; swap_struct := swap_ranlib_elem |}; solve_swap @ld_ranlib @swap_ranlib_elem. Defined.

(** [struct ranlib_64], 16 bytes. *)
Record ranlib_64 := {
  ranlib_64_ran_un_ran_strx : Z;
  ranlib_64_ran_off : Z
}.

Definition ld_ranlib_64 (h : host) (bs : list byte) (o : nat) : ranlib_64 :=
  {|
     ranlib_64_ran_un_ran_strx := ld_u64 h bs (o + 0);
     ranlib_64_ran_off := ld_u64 h bs (o + 8)
  |}.

Definition swap_ranlib_64_elem (x : ranlib_64) : ranlib_64 :=
  {|
     ranlib_64_ran_un_ran_strx := u64 (SWAP_LONG_LONG (ranlib_64_ran_un_ran_strx x));
     ranlib_64_ran_off := u64 (SWAP_LONG_LONG (ranlib_64_ran_off x))
  |}.

Definition swap_ranlib_64 (l : list ranlib_64) (n : nat) : list ranlib_64 :=
  for_array swap_ranlib_64_elem n l.

#[export] Instance ranlib_64_Swapped : Swapped ranlib_64.
Proof. refine {| ld_struct := ld_ranlib_64; swap_struct := swap_ranlib_64_elem |}; solve_swap @ld_ranlib_64 @swap_ranlib_64_elem. Defined.

(** [struct dylib_module], 52 bytes. *)
Record dylib_module := {
  dylib_module_module_name : Z;
  dylib_module_iextdefsym : Z;
  dylib_module_nextdefsym : Z;
  dylib_module_irefsym : Z;
  dylib_module_nrefsym : Z;
  dylib_module_ilocalsym : Z;
  dylib_module_nlocalsym : Z;
  dylib_module_iextrel : Z;
  dylib_module_nextrel : Z;
  dylib_module_iinit_iterm : Z;
  dylib_module_ninit_nterm : Z;
  dylib_module_objc_module_info_addr : Z;
  dylib_module_objc_module_info_size : Z
}.

Definition ld_dylib_module (h : host) (bs : list byte) (o : nat) : dylib_module :=
  {|
     dylib_module_module_name := ld_u32 h bs (o + 0);
     dylib_module_iextdefsym := ld_u32 h bs (o + 4);
     dylib_module_nextdefsym := ld_u32 h bs (o + 8);
     dylib_module_irefsym := ld_u32 h bs (o + 12);
     dylib_module_nrefsym := ld_u32 h bs (o + 16);
     dylib_module_ilocalsym := ld_u32 h bs (o + 20);
     dylib_module_nlocalsym := ld_u32 h bs (o + 24);
     dylib_module_iextrel := ld_u32 h bs (o + 28);
     dylib_module_nextrel := ld_u32 h bs (o + 32);
     dylib_module_iinit_iterm := ld_u32 h bs (o + 36);
     dylib_module_ninit_nterm := ld_u32 h bs (o + 40);
     dylib_module_objc_module_info_addr := ld_u32 h bs (o + 44);
     dylib_module_objc_module_info_size := ld_u32 h bs (o + 48)
  |}.

Definition swap_dylib_module_elem (x : dylib_module) : dylib_module :=
  {|
     dylib_module_module_name := SWAP_INT (dylib_module_module_name x);
     dylib_module_iextdefsym := SWAP_INT (dylib_module_iextdefsym x);
     dylib_module_nextdefsym := SWAP_INT (dylib_module_nextdefsym x);
     dylib_module_irefsym := SWAP_INT (dylib_module_irefsym x);
     dylib_module_nrefsym := SWAP_INT (dylib_module_nrefsym x);
     dylib_module_ilocalsym := SWAP_INT (dylib_module_ilocalsym x);
     dylib_module_nlocalsym := SWAP_INT (dylib_module_nlocalsym x);
     dylib_module_iextrel := SWAP_INT (dylib_module_iextrel x);
     dylib_module_nextrel := SWAP_INT (dylib_module_nextrel x);
     dylib_module_iinit_iterm := SWAP_INT (dylib_module_iinit_iterm x);
     dylib_module_ninit_nterm := SWAP_INT (dylib_module_ninit_nterm x);
     dylib_module_objc_module_info_addr := SWAP_INT (dylib_module_objc_module_info_addr x);
     dylib_module_objc_module_info_size := SWAP_INT (dylib_module_objc_module_info_size x)
  |}.

Definition swap_dylib_module (l : list dylib_module) (n : nat) : list dylib_module :=
  for_array swap_dylib_module_elem n l.

#[export] Instance dylib_module_Swapped : Swapped dylib_module.
Proof. refine {| ld_struct := ld_dylib_module; swap_struct := swap_dylib_module_elem |}; solve_swap @ld_dylib_module @swap_dylib_module_elem. Defined.

(** [struct dylib_module_64], 56 bytes. *)
Record dylib_module_64 := {
  dylib_module_64_module_name : Z;
  dylib_module_64_iextdefsym : Z;
  dylib_module_64_nextdefsym : Z;
  dylib_module_64_irefsym : Z;
  dylib_module_64_nrefsym : Z;
  dylib_module_64_ilocalsym : Z;
  dylib_module_64_nlocalsym : Z;
  dylib_module_64_iextrel : Z;
  dylib_module_64_nextrel : Z;
  dylib_module_64_iinit_iterm : Z;
  dylib_module_64_ninit_nterm : Z;
  dylib_module_64_objc_module_info_size : Z;
  dylib_module_64_objc_module_info_addr : Z
}.

Definition ld_dylib_module_64 (h : host) (bs : list byte) (o : nat) : dylib_module_64 :=
  {|
     dylib_module_64_module_name := ld_u32 h bs (o + 0);
     dylib_module_64_iextdefsym := ld_u32 h bs (o + 4);
     dylib_module_64_nextdefsym := ld_u32 h bs (o + 8);
     dylib_module_64_irefsym := ld_u32 h bs (o + 12);
     dylib_module_64_nrefsym := ld_u32 h bs (o + 16);
     dylib_module_64_ilocalsym := ld_u32 h bs (o + 20);
     dylib_module_64_nlocalsym := ld_u32 h bs (o + 24);
     dylib_module_64_iextrel := ld_u32 h bs (o + 28);
     dylib_module_64_nextrel := ld_u32 h bs (o + 32);
     dylib_module_64_iinit_iterm := ld_u32 h bs (o + 36);
     dylib_module_64_ninit_nterm := ld_u32 h bs (o + 40);
     dylib_module_64_objc_module_info_size := ld_u32 h bs (o + 44);
     dylib_module_64_objc_module_info_addr := ld_u64 h bs (o + 48)
  |}.

Definition swap_dylib_module_64_elem (x : dylib_module_64) : dylib_module_64 :=
  {|
     dylib_module_64_module_name := SWAP_INT (dylib_module_64_module_name x);
     dylib_module_64_iextdefsym := SWAP_INT (dylib_module_64_iextdefsym x);
     dylib_module_64_nextdefsym := SWAP_INT (dylib_module_64_nextdefsym x);
     dylib_module_64_irefsym := SWAP_INT (dylib_module_64_irefsym x);
     dylib_module_64_nrefsym := SWAP_INT (dylib_module_64_nrefsym x);
     dylib_module_64_ilocalsym := SWAP_INT (dylib_module_64_ilocalsym x);
     dylib_module_64_nlocalsym := SWAP_INT (dylib_module_64_nlocalsym x);
     dylib_module_64_iextrel := SWAP_INT (dylib_module_64_iextrel x);
     dylib_module_64_nextrel := SWAP_INT (dylib_module_64_nextrel x);
     dylib_module_64_iinit_iterm := SWAP_INT (dylib_module_64_iinit_iterm x);
     dylib_module_64_ninit_nterm := SWAP_INT (dylib_module_64_ninit_nterm x);
     dylib_module_64_objc_module_info_size := SWAP_INT (dylib_module_64_objc_module_info_size x);
     dylib_module_64_objc_module_info_addr := u64 (SWAP_LONG_LONG (dylib_module_64_objc_module_info_addr x))
  |}.

Definition swap_dylib_module_64 (l : list dylib_module_64) (n : nat) : list dylib_module_64 :=
  for_array swap_dylib_module_64_elem n l.

#[export] Instance dylib_module_64_Swapped : Swapped dylib_module_64.
Proof. refine {| ld_struct := ld_dylib_module_64; swap_struct := swap_dylib_module_64_elem |}; solve_swap @ld_dylib_module_64 @swap_dylib_module_64_elem. Defined.

(** [struct dylib_table_of_contents], 8 bytes. *)
Record dylib_table_of_contents := {
  dylib_table_of_contents_symbol_index : Z;
  dylib_table_of_contents_module_index : Z
}.

Definition ld_dylib_table_of_contents (h : host) (bs : list byte) (o : nat) : dylib_table_of_contents :=
  {|
     dylib_table_of_contents_symbol_index := ld_u32 h bs (o + 0);
     dylib_table_of_contents_module_index := ld_u32 h bs (o + 4)
  |}.

Definition swap_dylib_table_of_contents_elem (x : dylib_table_of_contents) : dylib_table_of_contents :=
  {|
     dylib_table_of_contents_symbol_index := SWAP_INT (dylib_table_of_contents_symbol_index x);
     dylib_table_of_contents_module_index := SWAP_INT (dylib_table_of_contents_module_index x)
  |}.

Definition swap_dylib_table_of_contents (l : list dylib_table_of_contents) (n : nat) : list dylib_table_of_contents :=
  for_array swap_dylib_table_of_contents_elem n l.

#[export] Instance dylib_table_of_contents_Swapped : Swapped dylib_table_of_contents.
Proof. refine {| ld_struct := ld_dylib_table_of_contents; swap_struct := swap_dylib_table_of_contents_elem |}; solve_swap @ld_dylib_table_of_contents @swap_dylib_table_of_contents_elem. Defined.

(** [struct xar_header], 28 bytes. *)
Record xar_header := {
  xar_header_magic : Z;
  xar_header_size : Z;
  xar_header_version : Z;
  xar_header_toc_length_compressed : Z;
  xar_header_toc_length_uncompressed : Z;
  xar_header_cksum_alg : Z
}.

Definition ld_xar_header (h : host) (bs : list byte) (o : nat) : xar_header :=
  {|
     xar_header_magic := ld_u32 h bs (o + 0);
     xar_header_size := ld_u16 h bs (o + 4);
     xar_header_version := ld_u16 h bs (o + 6);
     xar_header_toc_length_compressed := ld_u64 h bs (o + 8);
     xar_header_toc_length_uncompressed := ld_u64 h bs (o + 16);
     xar_header_cksum_alg := ld_u32 h bs (o + 24)
  |}.

Definition swap_xar_header (x : xar_header) : xar_header :=
  {|
     xar_header_magic := SWAP_INT (xar_header_magic x);
     xar_header_size := u16 (SWAP_SHORT (xar_header_size x));
     xar_header_version := u16 (SWAP_SHORT (xar_header_version x));
     xar_header_toc_length_compressed := u64 (SWAP_LONG_LONG (xar_header_toc_length_compressed x));
     xar_header_toc_length_uncompressed := u64 (SWAP_LONG_LONG (xar_header_toc_length_uncompressed x));
     xar_header_cksum_alg := SWAP_INT (xar_header_cksum_alg x)
  |}.

#[export] Instance xar_header_Swapped : Swapped xar_header.
Proof. refine {| ld_struct := ld_xar_header; swap_struct := swap_xar_header |}; solve_swap @ld_xar_header @swap_xar_header. Defined.

(** [struct data_in_code_entry], 8 bytes. *)
Record data_in_code_entry := {
  data_in_code_entry_offset : Z;
  data_in_code_entry_length : Z;
  data_in_code_entry_kind : Z
}.

Definition ld_data_in_code_entry (h : host) (bs : list byte) (o : nat) : data_in_code_entry :=
  {|
     data_in_code_entry_offset := ld_u32 h bs (o + 0);
     data_in_code_entry_length := ld_u16 h bs (o + 4);
     data_in_code_entry_kind := ld_u16 h bs (o + 6)
  |}.

Definition swap_data_in_code_entry_elem (x : data_in_code_entry) : data_in_code_entry :=
  {|
     data_in_code_entry_offset := SWAP_INT (data_in_code_entry_offset x);
     data_in_code_entry_length := u16 (SWAP_INT (data_in_code_entry_length x));
     data_in_code_entry_kind := u16 (SWAP_INT (data_in_code_entry_kind x))
  |}.

Definition swap_data_in_code_entry (l : list data_in_code_entry) (n : nat) : list data_in_code_entry :=
  for_array swap_data_in_code_entry_elem n l.
