(* ===== verification/BitSwap.v ===== *)
(** * libstuff/bytesex.c: tables of bit-fields

    Relocation entries, two-level hints and references to dylib symbols pack
    bit-fields into a word.  A compiler lays bit-fields out from the least
    significant bit on a little-endian host and from the most significant on a
    big-endian one, so for these tables swapping the bytes is not enough and
    the routines go through a struct with the fields in the opposite order. *)

From Stdlib Require Import ZArith Lia Bool.
From Stdlib Require Import Init.Byte.
From stdpp Require Import base list option numbers.
From S2P Require Import Prelude CInt ByteSex.

(** ** Bit-fields of a 32-bit word *)

(** A field is its offset in the order of declaration and its width. *)
Definition field : Type := Z * Z.

Definition shift_of (h : host) (f : field) : Z :=
  match h with LE => f.1 | BE => 32 - f.1 - f.2 end.

Definition bf_get (h : host) (f : field) (word : Z) : Z :=
  Z.land (Z.shiftr word (shift_of h f)) (Z.ones f.2).

Definition bf_set (h : host) (f : field) (v word : Z) : Z :=
  Z.lor (Z.ldiff word (Z.shiftl (Z.ones f.2) (shift_of h f)))
        (Z.shiftl (Z.land v (Z.ones f.2)) (shift_of h f)).

(** The place of the field in a struct that declares the fields in the
    opposite order. *)
Definition reversed (f : field) : field := (32 - f.1 - f.2, f.2).

Definition in_word (f : field) : Prop := 0 <= f.1 /\ 0 < f.2 /\ f.1 + f.2 <= 32.
Definition disjoint_fields (f g : field) : Prop := f.1 + f.2 <= g.1 \/ g.1 + g.2 <= f.1.

Lemma bf_get_reversed h f word :
  bf_get h (reversed f) word = bf_get (other h) f word.
Proof. unfold bf_get, reversed. destruct h; simpl; f_equal; f_equal; lia. Qed.

Lemma bf_set_reversed h f v word :
  bf_set h (reversed f) v word = bf_set (other h) f v word.
Proof.
  unfold bf_set, reversed. destruct h; simpl; [done|].
  by replace (32 - (32 - f.1 - f.2) - f.2) with f.1 by lia.
Qed.

Lemma shift_of_range h f : in_word f -> 0 <= shift_of h f /\ shift_of h f + f.2 <= 32.
Proof. unfold in_word. destruct h; simpl; lia. Qed.

Lemma testbit_bf_get h f word i :
  in_word f -> 0 <= i ->
  Z.testbit (bf_get h f word) i = Z.testbit word (i + shift_of h f) && (i <? f.2).
Proof.
  intros Hf Hi. pose proof (shift_of_range h f Hf). unfold bf_get, in_word in *.
  rewrite Z.land_spec, Z.shiftr_spec, Z.testbit_ones_nonneg by lia. done.
Qed.

Lemma testbit_bf_set h f v word i :
  in_word f -> 0 <= i ->
  Z.testbit (bf_set h f v word) i =
    if (shift_of h f <=? i) && (i <? shift_of h f + f.2)
    then Z.testbit v (i - shift_of h f) else Z.testbit word i.
Proof.
  intros Hf Hi. pose proof (shift_of_range h f Hf). unfold bf_set, in_word in *.
  set (s := shift_of h f) in *. clearbody s.
  rewrite Z.lor_spec, Z.ldiff_spec, !Z.shiftl_spec by lia.
  destruct (Z.leb_spec s i) as [Hle|Hlt]; simpl.
  - rewrite Z.land_spec, !Z.testbit_ones_nonneg by lia.
    destruct (Z.ltb_spec (i - s) f.2), (Z.ltb_spec i (s + f.2)); try lia; simpl;
      by rewrite ?andb_false_r, ?andb_true_r, ?orb_false_r.
  - rewrite !(Z.testbit_neg_r _ (i - s)) by lia. by rewrite andb_true_r, orb_false_r.
Qed.

Lemma bf_get_set_same h f v word :
  in_word f -> bf_get h f (bf_set h f v word) = Z.land v (Z.ones f.2).
Proof.
  intros Hf. pose proof (shift_of_range h f Hf). apply Z.bits_inj'. intros i Hi.
  rewrite testbit_bf_get, testbit_bf_set, Z.land_spec, Z.testbit_ones_nonneg
    by (unfold in_word in *; lia).
  destruct (Z.ltb_spec i f.2); [|by rewrite !andb_false_r].
  rewrite (proj2 (Z.leb_le _ _)), (proj2 (Z.ltb_lt _ _)) by lia. simpl.
  by replace (i + shift_of h f - shift_of h f) with i by lia.
Qed.

Lemma bf_get_set_other h f g v word :
  in_word f -> in_word g -> disjoint_fields f g ->
  bf_get h f (bf_set h g v word) = bf_get h f word.
Proof.
  intros Hf Hg Hd. pose proof (shift_of_range h f Hf). apply Z.bits_inj'. intros i Hi.
  rewrite !testbit_bf_get, testbit_bf_set by (try done; lia).
  destruct (Z.ltb_spec i f.2); [|by rewrite !andb_false_r]. f_equal.
  destruct ((_ <=? _) && _) eqn:E; [|done]. bool_to_prop.
  unfold disjoint_fields, in_word in *. destruct h; simpl in *; lia.
Qed.

Lemma bf_get_range h f word : in_word f -> 0 <= bf_get h f word < 2 ^ f.2.
Proof.
  intros (? & ? & ?). unfold bf_get. rewrite Z.land_ones by lia.
  apply Z.mod_pos_bound. lia.
Qed.

Lemma bf_get_fits h f word : in_word f -> Z.land (bf_get h f word) (Z.ones f.2) = bf_get h f word.
Proof.
  intros Hf. pose proof (bf_get_range h f word Hf). destruct Hf as (? & ? & ?).
  rewrite Z.land_ones by lia. by apply Z.mod_small.
Qed.

(** Decides the side conditions on concrete fields. *)
Ltac field_side := unfold in_word, disjoint_fields, reversed; cbn; lia.

(** Reads a field through the assignments made to the word. *)
Ltac bf_simpl :=
  repeat first
    [ rewrite bf_get_set_same by field_side
    | rewrite bf_get_set_other by field_side
    | rewrite bf_get_fits by field_side
    | rewrite bf_get_reversed
    | rewrite bf_set_reversed ];
  rewrite ?other_other.

(** ** swap_relocation_info *)

(** The two words of an entry as the host has them in memory. *)
Record relocation_info := { r_address : Z; r_word : Z }.

Definition ld_relocation_info (h : host) (bs : list byte) (o : nat) : relocation_info :=
  {| r_address := ld_i32 h bs o; r_word := ld_u32 h bs (o + 4) |}.

Definition r_symbolnum : field := (0, 24).
Definition r_pcrel : field := (24, 1).
Definition r_length : field := (25, 2).
Definition r_extern : field := (27, 1).
Definition r_type : field := (28, 4).
Definition reloc_fields : list field := [r_symbolnum; r_pcrel; r_length; r_extern; r_type].

Definition R_SCATTERED : Z := 0x80000000.

(** The fields of [struct swapped_relocation_info] are those of
    [relocation_info] in the opposite order: [reversed]. *)
Definition reloc_scattered (to_host : bool) (r : relocation_info) : bool :=
  if to_host then negb (Z.land (SWAP_INT (r_address r)) R_SCATTERED =? 0)
  else negb (Z.land (u32 (r_address r)) R_SCATTERED =? 0).

Definition reloc_to_host (h : host) (r : relocation_info) : relocation_info :=
  let sr_address := i32 (SWAP_INT (r_address r)) in
  let sr_word := SWAP_INT (r_word r) in
  let w := r_word r in
  let w := bf_set h r_symbolnum (bf_get h (reversed r_symbolnum) sr_word) w in
  let w := bf_set h r_pcrel (bf_get h (reversed r_pcrel) sr_word) w in
  let w := bf_set h r_length (bf_get h (reversed r_length) sr_word) w in
  let w := bf_set h r_extern (bf_get h (reversed r_extern) sr_word) w in
  let w := bf_set h r_type (bf_get h (reversed r_type) sr_word) w in
  {| r_address := sr_address; r_word := w |}.

(** [junk] is what the uninitialised local [sr] holds. *)
Definition reloc_from_host (h : host) (junk : Z) (r : relocation_info) : relocation_info :=
  let w := bf_set h (reversed r_symbolnum) (bf_get h r_symbolnum (r_word r)) junk in
  let w := bf_set h (reversed r_length) (bf_get h r_length (r_word r)) w in
  let w := bf_set h (reversed r_pcrel) (bf_get h r_pcrel (r_word r)) w in
  let w := bf_set h (reversed r_extern) (bf_get h r_extern (r_word r)) w in
  let w := bf_set h (reversed r_type) (bf_get h r_type (r_word r)) w in
  {| r_address := i32 (SWAP_INT (r_address r)); r_word := SWAP_INT w |}.

(** The cast to [struct swapped_scattered_relocation_info]: two plain words. *)
Definition reloc_swap_scattered (r : relocation_info) : relocation_info :=
  {| r_address := i32 (SWAP_INT (u32 (r_address r)));
     r_word := u32 (SWAP_INT (i32 (r_word r))) |}.

Definition swap_relocation_info_elem (h : host) (junk : Z) (target_byte_sex : byte_sex)
    (r : relocation_info) : relocation_info :=
  let to_host := bool_decide (Some target_byte_sex = get_host_byte_sex h) in
  if negb (reloc_scattered to_host r) then
    if to_host then reloc_to_host h r else reloc_from_host h junk r
  else reloc_swap_scattered r.

Definition swap_relocation_info (h : host) (junk : Z) (target_byte_sex : byte_sex)
    (relocs : list relocation_info) (nrelocs : nat) : list relocation_info :=
  for_array (swap_relocation_info_elem h junk target_byte_sex) nrelocs relocs.

(** ** swap_twolevel_hint and swap_dylib_reference *)

Definition isub_image : field := (0, 8).
Definition itoc : field := (8, 24).

Definition swap_twolevel_hint_elem (h : host) (junk : Z) (target_byte_sex : byte_sex)
    (hint : Z) : Z :=
  if bool_decide (Some target_byte_sex = get_host_byte_sex h) then
    let shint := SWAP_INT hint in
    let w := bf_set h itoc (bf_get h (reversed itoc) shint) hint in
    bf_set h isub_image (bf_get h (reversed isub_image) shint) w
  else
    let w := bf_set h (reversed isub_image) (bf_get h isub_image hint) junk in
    let w := bf_set h (reversed itoc) (bf_get h itoc hint) w in
    SWAP_INT w.

Definition swap_twolevel_hint (h : host) (junk : Z) (target_byte_sex : byte_sex)
    (hints : list Z) (nhints : nat) : list Z :=
  for_array (swap_twolevel_hint_elem h junk target_byte_sex) nhints hints.

Definition isym : field := (0, 24).
Definition flags : field := (24, 8).

Definition swap_dylib_reference_elem (h : host) (junk : Z) (target_byte_sex : byte_sex)
    (ref : Z) : Z :=
  if bool_decide (Some target_byte_sex = get_host_byte_sex h) then
    let sref := SWAP_INT ref in
    let w := bf_set h flags (bf_get h (reversed flags) sref) ref in
    bf_set h isym (bf_get h (reversed isym) sref) w
  else
    let w := bf_set h (reversed isym) (bf_get h isym ref) junk in
    let w := bf_set h (reversed flags) (bf_get h flags ref) w in
    SWAP_INT w.

Definition swap_dylib_reference (h : host) (junk : Z) (target_byte_sex : byte_sex)
    (refs : list Z) (nrefs : nat) : list Z :=
  for_array (swap_dylib_reference_elem h junk target_byte_sex) nrefs refs.

(** ** swap_indirect_symbols *)

Definition swap_indirect_symbols (indirect_symbols : list Z) (nindirect_symbols : nat)
    : list Z :=
  for_array SWAP_INT nindirect_symbols indirect_symbols.

(** ** Lemmas *)

Lemma host_byte_sex_known h : get_host_byte_sex h = Some (host_sex h).
Proof. by destruct h. Qed.

Lemma to_host_spec h : bool_decide (Some (host_sex h) = get_host_byte_sex h) = true.
Proof. by destruct h. Qed.

Lemma from_host_spec h : bool_decide (Some (host_sex (other h)) = get_host_byte_sex h) = false.
Proof. by destruct h. Qed.

Lemma SWAP_INT_SWAP_INT a : SWAP_INT (SWAP_INT a) = u32 a.
Proof. rewrite !SWAP_INT_reverse. by rewrite byte_reverse_involutive. Qed.

Lemma SWAP_INT_u32 a : SWAP_INT (u32 a) = SWAP_INT a.
Proof. rewrite !SWAP_INT_reverse. by apply (byte_reverse_uw 32 4). Qed.

Lemma SWAP_INT_i32 a : SWAP_INT (i32 a) = SWAP_INT a.
Proof. rewrite !SWAP_INT_reverse. by apply (byte_reverse_sw 32 4). Qed.

Lemma bf_get_u32 h f w : in_word f -> bf_get h f (u32 w) = bf_get h f w.
Proof.
  intros Hf. pose proof (shift_of_range h f Hf). apply Z.bits_inj'. intros i Hi.
  rewrite !testbit_bf_get by done. destruct (Z.ltb_spec i f.2); [|by rewrite !andb_false_r].
  f_equal. unfold uw. apply Z.mod_pow2_bits_low. lia.
Qed.

(** Every field of [relocation_info] as a host reads it. *)
Definition same_reloc_fields (h1 : host) (w1 : Z) (h2 : host) (w2 : Z) : Prop :=
  Forall (fun f => bf_get h1 f w1 = bf_get h2 f w2) reloc_fields.

Lemma reloc_to_host_fields h r :
  same_reloc_fields h (r_word (reloc_to_host h r)) (other h) (SWAP_INT (r_word r)).
Proof.
  unfold same_reloc_fields, reloc_fields, reloc_to_host; simpl r_word.
  repeat constructor; unfold r_symbolnum, r_pcrel, r_length, r_extern, r_type; bf_simpl; done.
Qed.

Lemma reloc_from_host_fields h junk r :
  same_reloc_fields (other h) (SWAP_INT (r_word (reloc_from_host h junk r))) h (r_word r).
Proof.
  unfold same_reloc_fields, reloc_fields, reloc_from_host; simpl r_word.
  rewrite SWAP_INT_SWAP_INT.
  repeat constructor; (rewrite bf_get_u32 by field_side);
    unfold r_symbolnum, r_pcrel, r_length, r_extern, r_type; bf_simpl; done.
Qed.

Lemma scattered_to_host r :
  reloc_scattered true r = reloc_scattered false (reloc_swap_scattered r).
Proof.
  unfold reloc_scattered, reloc_swap_scattered; simpl.
  rewrite uw_sw by done. rewrite SWAP_INT_u32, (uw_id 32); [done|]. apply SWAP_INT_range.
Qed.

Lemma swap_scattered_ld h bs o :
  reloc_swap_scattered (ld_relocation_info h bs o) = ld_relocation_info (other h) bs o.
Proof.
  unfold reloc_swap_scattered, ld_relocation_info; simpl.
  rewrite SWAP_INT_u32, SWAP_INT_ld_i32, SWAP_INT_i32, SWAP_INT_ld_u32.
  f_equal. apply uw_id. apply (ld_u_range 4).
Qed.

Lemma swap_scattered_twice r :
  in_sw 32 (r_address r) -> in_uw 32 (r_word r) ->
  reloc_swap_scattered (reloc_swap_scattered r) = r.
Proof.
  intros Ha Hw. destruct r as [a w]; unfold reloc_swap_scattered; simpl in *.
  rewrite !SWAP_INT_u32, !SWAP_INT_i32, SWAP_INT_u32, !SWAP_INT_SWAP_INT.
  rewrite sw_uw, sw_id, uw_uw, uw_id by done. done.
Qed.

Lemma from_host_scattered h junk r :
  reloc_scattered true (reloc_from_host h junk r) = reloc_scattered false r.
Proof.
  unfold reloc_scattered, reloc_from_host; cbn [r_address].
  by rewrite SWAP_INT_i32, SWAP_INT_SWAP_INT.
Qed.

(** ** Properties *)

(** C35: reading a foreign relocation entry.  After [swap_relocation_info]
    with the host as target, an entry that is not scattered has the address
    and, bit-field by bit-field, the contents a host of the file's byte sex
    reads from the same bytes; a scattered entry has the two words of that
    host. *)
Theorem swap_reloc_to_host (h : host) (junk : Z) (bs : list byte) (o : nat) :
  let native := ld_relocation_info (other h) bs o in
  let r := swap_relocation_info_elem h junk (host_sex h) (ld_relocation_info h bs o) in
  r_address r = r_address native /\
  if reloc_scattered false native then r = native
  else same_reloc_fields h (r_word r) (other h) (r_word native).
Proof.
  intros native r. subst r. unfold swap_relocation_info_elem.
  rewrite to_host_spec, scattered_to_host, swap_scattered_ld. fold native.
  destruct (reloc_scattered false native); simpl.
  - done.
  - split; [apply SWAP_INT_ld_i32|].
    rewrite <- (SWAP_INT_ld_u32 h bs (o + 4)).
    exact (reloc_to_host_fields h (ld_relocation_info h bs o)).
Qed.

(** writing a relocation entry for a foreign host and reading it back.
    What the uninitialised local of the routine holds does not matter; the
    address and every bit-field come back, and a scattered entry comes back
    whole. *)
Theorem swap_reloc_roundtrip (h : host) (junk junk' : Z) (r : relocation_info) :
  in_sw 32 (r_address r) -> in_uw 32 (r_word r) ->
  let foreign := swap_relocation_info_elem h junk (host_sex (other h)) r in
  let back := swap_relocation_info_elem h junk' (host_sex h) foreign in
  r_address back = r_address r /\
  same_reloc_fields h (r_word back) h (r_word r) /\
  (reloc_scattered false r = true -> back = r).
Proof.
  intros Ha Hw foreign back. subst back foreign. unfold swap_relocation_info_elem at 2 4 6.
  rewrite from_host_spec.
  destruct (reloc_scattered false r) eqn:Hs; simpl.
  - assert (H : swap_relocation_info_elem h junk' (host_sex h) (reloc_swap_scattered r) = r).
    { unfold swap_relocation_info_elem.
      rewrite to_host_spec, scattered_to_host, swap_scattered_twice, Hs by done. simpl.
      done. }
    rewrite H. split_and!; try done. apply Forall_forall. done.
  - assert (Hs' : reloc_scattered true (reloc_from_host h junk r) = false).
    { by rewrite from_host_scattered. }
    unfold swap_relocation_info_elem. rewrite to_host_spec, Hs'. cbn [negb]. split_and!; [|  |done].
    + unfold reloc_to_host, reloc_from_host; cbn [r_address].
      rewrite SWAP_INT_i32, SWAP_INT_SWAP_INT, sw_uw by done. by apply sw_id.
    + apply Forall_forall. intros f Hf.
      pose proof (reloc_to_host_fields h (reloc_from_host h junk r)) as H1.
      pose proof (reloc_from_host_fields h junk r) as H2.
      unfold same_reloc_fields in H1, H2. rewrite Forall_forall in H1, H2.
      etrans; [by apply H1|by apply H2].
Qed.

Lemma swap_reloc_roundtrip_witness :
  let r := {| r_address := -5; r_word := 0xDEADBEEF |} in
  let foreign := swap_relocation_info_elem BE 7 (host_sex LE) r in
  let back := swap_relocation_info_elem BE 9 (host_sex BE) foreign in
  r_address back = -5 /\
  same_reloc_fields BE (r_word back) BE 0xDEADBEEF /\
  (reloc_scattered false r = true -> back = r).
Proof.
  intros r. apply (swap_reloc_roundtrip BE 7 9 r); vm_compute; split; congruence.
Defined.

(** Two-level hints and dylib references.  The bit-fields the host reads
    after swapping a foreign entry are those its own host reads; an entry
    swapped for a foreign host and back has its bit-fields again. *)
Theorem swap_bitfield_tables (h : host) (junk junk' : Z) (bs : list byte) (o : nat) (w : Z) :
  let image := ld_u32 h bs o in
  let native := ld_u32 (other h) bs o in
  (let hint := swap_twolevel_hint_elem h junk (host_sex h) image in
   bf_get h isub_image hint = bf_get (other h) isub_image native /\
   bf_get h itoc hint = bf_get (other h) itoc native) /\
  (let ref := swap_dylib_reference_elem h junk (host_sex h) image in
   bf_get h isym ref = bf_get (other h) isym native /\
   bf_get h flags ref = bf_get (other h) flags native) /\
  (let back := swap_twolevel_hint_elem h junk' (host_sex h)
                 (swap_twolevel_hint_elem h junk (host_sex (other h)) w) in
   bf_get h isub_image back = bf_get h isub_image w /\ bf_get h itoc back = bf_get h itoc w) /\
  (let back := swap_dylib_reference_elem h junk' (host_sex h)
                 (swap_dylib_reference_elem h junk (host_sex (other h)) w) in
   bf_get h isym back = bf_get h isym w /\ bf_get h flags back = bf_get h flags w).
Proof.
  cbv zeta. unfold swap_twolevel_hint_elem, swap_dylib_reference_elem.
  rewrite to_host_spec, from_host_spec, !SWAP_INT_ld_u32, !SWAP_INT_SWAP_INT.
  unfold isub_image, itoc, isym, flags.
  split_and!; bf_simpl; rewrite ?bf_get_u32 by field_side; bf_simpl; done.
Qed.
