(* ===== verification/SwapSpec.v ===== *)
(** * What the byte swapping of libstuff/bytesex.c promises

    [ld_x h bs o] is the structure a host of byte sex [h] reads from the image
    [bs] at offset [o].  A routine is right when it takes what this host reads
    to what the host of the other byte sex reads.  Four routines are not. *)

From Stdlib Require Import ZArith Lia Bool.
From Stdlib Require Import Init.Byte.
From stdpp Require Import base list option numbers.
From S2P Require Import Prelude CInt ByteSex HeaderSwap LoadCmdSwap TableSwap.

(** The contract of a routine for one structure, and of one for the first [n]
    structures, of [size] bytes each, of an array. *)
Definition swaps {A} (ld : host -> list byte -> nat -> A) (swap : A -> A) : Prop :=
  forall h bs o, swap (ld h bs o) = ld (other h) bs o.

Definition load_array {A} (ld : host -> list byte -> nat -> A) (size n : nat) (h : host)
    (bs : list byte) (o : nat) : list A :=
  (fun i => ld h bs (o + i * size)%nat) <$> seq 0 n.

Definition swaps_array {A} (size : nat) (ld : host -> list byte -> nat -> A)
    (swap : list A -> nat -> list A) : Prop :=
  forall n h bs o rest,
    swap (load_array ld size n h bs o ++ rest) n
      = load_array ld size n (other h) bs o ++ rest.

Lemma length_load_array {A} (ld : host -> list byte -> nat -> A) size n h bs o :
  length (load_array ld size n h bs o) = n.
Proof. unfold load_array. by rewrite length_fmap, length_seq. Qed.

Lemma for_array_exact {A} (f : A -> A) l rest :
  for_array f (length l) (l ++ rest) = (f <$> l) ++ rest.
Proof. unfold for_array. by rewrite take_app_length, drop_app_length. Qed.

(** The two contracts follow from the one of the class. *)
Lemma swaps_instance `{Swapped A} : swaps ld_struct swap_struct.
Proof. exact swap_ld. Qed.

Lemma swaps_array_instance `{Swapped A} size :
  swaps_array size ld_struct (fun l n => for_array swap_struct n l).
Proof.
  intros n h bs o rest.
  pose proof (for_array_exact swap_struct (load_array ld_struct size n h bs o) rest) as E.
  rewrite length_load_array in E. rewrite E. f_equal. apply swap_ld_array.
Qed.

(** Finds the instance the structure of the goal has. *)
Ltac by_instance :=
  match goal with
  | |- @swaps ?A _ _ => exact (@swaps_instance A _)
  | |- @swaps_array ?A ?size _ _ => exact (@swaps_array_instance A _ size)
  end.

(** The three swapping macros reverse the bytes of what a host read, so
    that it becomes what the other host reads; on every host the same
    [SWAP_LONG_LONG] is computed; swapping twice is the identity on the width
    swapped; and the byte sex of the host is recognised. *)
Theorem swap_macros_reverse (h : host) (bs : list byte) (o : nat) (a : Z) :
  u16 (SWAP_SHORT (ld_u16 h bs o)) = ld_u16 (other h) bs o /\
  SWAP_INT (ld_u32 h bs o) = ld_u32 (other h) bs o /\
  u64 (SWAP_LONG_LONG_on h (ld_u64 h bs o)) = ld_u64 (other h) bs o /\
  SWAP_INT (SWAP_INT a) = u32 a /\
  u64 (SWAP_LONG_LONG_on h (SWAP_LONG_LONG_on h a)) = u64 a /\
  get_host_byte_sex h = Some (host_sex h).
Proof.
  split_and!.
  - apply SWAP_SHORT_ld_u16.
  - apply SWAP_INT_ld_u32.
  - rewrite SWAP_LONG_LONG_host. apply SWAP_LONG_LONG_ld_u64.
  - rewrite !SWAP_INT_reverse. apply (byte_reverse_involutive 4).
  - rewrite !SWAP_LONG_LONG_on_reverse, uw_sw, (byte_reverse_sw 64 8) by done.
    rewrite (byte_reverse_involutive 8). apply uw_uw.
  - by destruct h.
Qed.

(** every file header, the fat archs, the segment commands and the 32-bit
    sections are swapped field by field at the width of the field; a routine
    for an array swaps the entries it is given and leaves what follows. *)
Theorem swap_headers_correct :
  swaps ld_fat_header swap_fat_header /\
  swaps_array 20 ld_fat_arch swap_fat_arch /\
  swaps_array 32 ld_fat_arch_64 swap_fat_arch_64 /\
  swaps ld_mach_header swap_mach_header /\
  swaps ld_mach_header_64 swap_mach_header_64 /\
  swaps ld_load_command swap_load_command /\
  swaps ld_segment_command swap_segment_command /\
  swaps ld_segment_command_64 swap_segment_command_64 /\
  swaps_array 68 ld_section swap_section.
Proof.
  split_and!; by_instance.
Qed.

(** The two load commands that are not swapped right. *)
Lemma version_min_swapped h bs o :
  swap_version_min_command (ld_version_min_command h bs o) =
  (let n := ld_version_min_command (other h) bs o in
   {| version_min_command_cmd := version_min_command_cmd n;
      version_min_command_cmdsize := version_min_command_cmdsize n;
      version_min_command_version := version_min_command_version n;
      version_min_command_sdk := version_min_command_sdk (ld_version_min_command h bs o) |}).
Proof. unfold swap_version_min_command, ld_version_min_command; cbn. by autorewrite with swap. Qed.

Lemma encryption_64_swapped h bs o :
  swap_encryption_command_64 (ld_encryption_info_command_64 h bs o) =
  (let n := ld_encryption_info_command_64 (other h) bs o in
   {| encryption_info_command_64_cmd := encryption_info_command_64_cmd n;
      encryption_info_command_64_cmdsize := encryption_info_command_64_cmdsize n;
      encryption_info_command_64_cryptoff := encryption_info_command_64_cryptoff n;
      encryption_info_command_64_cryptsize := encryption_info_command_64_cryptsize n;
      encryption_info_command_64_cryptid := encryption_info_command_64_pad n;
      encryption_info_command_64_pad :=
        encryption_info_command_64_pad (ld_encryption_info_command_64 h bs o) |}).
Proof.
  unfold swap_encryption_command_64, ld_encryption_info_command_64; cbn. by autorewrite with swap.
Qed.

(** C34: Every load command (segments, and the tools behind a build_version
    command, included) is swapped, as a record, into what the host of the
    other byte sex reads, but for two whose exact results are stated:
    [swap_version_min_command] leaves [sdk] as it was, and
    [swap_encryption_command_64] puts the swapped [pad] into [cryptid] and
    leaves [pad] as it was. *)
Theorem swap_load_commands_correct :
  swaps ld_segment_command swap_segment_command /\
  swaps ld_segment_command_64 swap_segment_command_64 /\
  swaps ld_symtab_command swap_symtab_command /\
  swaps ld_dysymtab_command swap_dysymtab_command /\
  swaps ld_symseg_command swap_symseg_command /\
  swaps ld_fvmlib_command swap_fvmlib_command /\
  swaps ld_dylib_command swap_dylib_command /\
  swaps ld_sub_framework_command swap_sub_framework_command /\
  swaps ld_sub_umbrella_command swap_sub_umbrella_command /\
  swaps ld_sub_library_command swap_sub_library_command /\
  swaps ld_sub_client_command swap_sub_client_command /\
  swaps ld_prebound_dylib_command swap_prebound_dylib_command /\
  swaps ld_dylinker_command swap_dylinker_command /\
  swaps ld_fvmfile_command swap_fvmfile_command /\
  swaps ld_thread_command swap_thread_command /\
  swaps ld_ident_command swap_ident_command /\
  swaps ld_routines_command swap_routines_command /\
  swaps ld_routines_command_64 swap_routines_command_64 /\
  swaps ld_twolevel_hints_command swap_twolevel_hints_command /\
  swaps ld_prebind_cksum_command swap_prebind_cksum_command /\
  swaps ld_uuid_command swap_uuid_command /\
  swaps ld_linkedit_data_command swap_linkedit_data_command /\
  swaps ld_build_version_command swap_build_version_command /\
  swaps ld_rpath_command swap_rpath_command /\
  swaps ld_linker_option_command swap_linker_option_command /\
  swaps ld_dyld_info_command swap_dyld_info_command /\
  swaps ld_entry_point_command swap_entry_point_command /\
  swaps ld_source_version_command swap_source_version_command /\
  swaps ld_note_command swap_note_command /\
  swaps ld_fileset_entry_command swap_fileset_entry_command /\
  swaps ld_encryption_info_command swap_encryption_command /\
  swaps_array 8 ld_build_tool_version swap_build_tool_version /\
  (forall h bs o, swap_version_min_command (ld_version_min_command h bs o) =
   (let n := ld_version_min_command (other h) bs o in
    {| version_min_command_cmd := version_min_command_cmd n;
       version_min_command_cmdsize := version_min_command_cmdsize n;
       version_min_command_version := version_min_command_version n;
       version_min_command_sdk := version_min_command_sdk (ld_version_min_command h bs o) |})) /\
  (forall h bs o, swap_encryption_command_64 (ld_encryption_info_command_64 h bs o) =
   (let n := ld_encryption_info_command_64 (other h) bs o in
    {| encryption_info_command_64_cmd := encryption_info_command_64_cmd n;
       encryption_info_command_64_cmdsize := encryption_info_command_64_cmdsize n;
       encryption_info_command_64_cryptoff := encryption_info_command_64_cryptoff n;
       encryption_info_command_64_cryptsize := encryption_info_command_64_cryptsize n;
       encryption_info_command_64_cryptid := encryption_info_command_64_pad n;
       encryption_info_command_64_pad :=
         encryption_info_command_64_pad (ld_encryption_info_command_64 h bs o) |})).
Proof.
  repeat apply conj; try by_instance.
  - apply version_min_swapped.
  - apply encryption_64_swapped.
Qed.

(** Symbols, archive tables of contents, dylib modules and tables of contents
    and the xar header are swapped into what the host of the other byte sex
    reads. *)
Theorem swap_tables_correct :
  swaps_array 12 ld_nlist swap_nlist /\
  swaps_array 16 ld_nlist_64 swap_nlist_64 /\
  swaps_array 8 ld_ranlib swap_ranlib /\
  swaps_array 16 ld_ranlib_64 swap_ranlib_64 /\
  swaps_array 52 ld_dylib_module swap_dylib_module /\
  swaps_array 56 ld_dylib_module_64 swap_dylib_module_64 /\
  swaps_array 8 ld_dylib_table_of_contents swap_dylib_table_of_contents /\
  swaps ld_xar_header swap_xar_header.
Proof.
  split_and!; by_instance.
Qed.

(** A 16-bit value keeps no bit in the low half of its swapped 32-bit word. *)
Lemma SWAP_INT_u16_vanishes h bs o : u16 (SWAP_INT (ld_u16 h bs o)) = 0.
Proof.
  pose proof (ld_u16_range h bs o) as Hr. rewrite SWAP_INT_arith. unfold in_uw in Hr.
  unfold uw. div_lia.
Qed.

(** the four routines that are not right.  [swap_section_64] leaves
    [reserved3] and [swap_version_min_command] leaves [sdk] as they were;
    [swap_encryption_command_64] overwrites the [cryptid] it has swapped with
    [pad] and leaves [pad] alone; [swap_data_in_code_entry] swaps its 16-bit
    fields as if they had 32 bits, which makes both of them zero.  Every
    other field is right. *)
Theorem swap_defects (h : host) (bs : list byte) (o : nat) :
  swap_section_64_elem (ld_section_64 h bs o) =
    (let n := ld_section_64 (other h) bs o in
     {| section_64_sectname := section_64_sectname n; section_64_segname := section_64_segname n;
        section_64_addr := section_64_addr n; section_64_size := section_64_size n;
        section_64_offset := section_64_offset n; section_64_align := section_64_align n;
        section_64_reloff := section_64_reloff n; section_64_nreloc := section_64_nreloc n;
        section_64_flags := section_64_flags n; section_64_reserved1 := section_64_reserved1 n;
        section_64_reserved2 := section_64_reserved2 n;
        section_64_reserved3 := section_64_reserved3 (ld_section_64 h bs o) |}) /\
  swap_version_min_command (ld_version_min_command h bs o) =
    (let n := ld_version_min_command (other h) bs o in
     {| version_min_command_cmd := version_min_command_cmd n;
        version_min_command_cmdsize := version_min_command_cmdsize n;
        version_min_command_version := version_min_command_version n;
        version_min_command_sdk := version_min_command_sdk (ld_version_min_command h bs o) |}) /\
  swap_encryption_command_64 (ld_encryption_info_command_64 h bs o) =
    (let n := ld_encryption_info_command_64 (other h) bs o in
     {| encryption_info_command_64_cmd := encryption_info_command_64_cmd n;
        encryption_info_command_64_cmdsize := encryption_info_command_64_cmdsize n;
        encryption_info_command_64_cryptoff := encryption_info_command_64_cryptoff n;
        encryption_info_command_64_cryptsize := encryption_info_command_64_cryptsize n;
        encryption_info_command_64_cryptid := encryption_info_command_64_pad n;
        encryption_info_command_64_pad :=
          encryption_info_command_64_pad (ld_encryption_info_command_64 h bs o) |}) /\
  swap_data_in_code_entry_elem (ld_data_in_code_entry h bs o) =
    {| data_in_code_entry_offset := data_in_code_entry_offset (ld_data_in_code_entry (other h) bs o);
       data_in_code_entry_length := 0; data_in_code_entry_kind := 0 |}.
Proof.
  split; [|split; [apply version_min_swapped|split; [apply encryption_64_swapped|]]];
    unfold swap_section_64_elem, ld_section_64, swap_data_in_code_entry_elem,
      ld_data_in_code_entry; cbn; autorewrite with swap; [done|].
  by rewrite !SWAP_INT_u16_vanishes.
Qed.
