(* ===== verification/BestArch.v ===== *)
(** * libstuff/best_arch.c: choosing an architecture

    [internal_cpusubtype_findbestarch] chooses a slice of a fat file for a
    cputype and cpusubtype, [cpusubtype_combine] joins the cpusubtypes of
    objects linked together, [cpusubtype_execute] says which subtypes a host
    can run.  The [switch] on the cputype of the first two is a [Definition]
    per case; a case that falls through calls the code it falls into. *)

From Stdlib Require Import ZArith Lia Bool.
From Stdlib Require Import Init.Byte.
From stdpp Require Import base list option numbers.
From S2P Require Import Prelude CInt CpuTypes ByteSex HeaderSwap.

(** ** The slices *)

(** What the loops read of a slice: [fat_cputype] and [fat_cpusubtype]. *)
Definition slice : Type := cpu_type_t * cpu_subtype_t.

Definition fat_arch_slice (a : fat_arch) : slice :=
  (fat_arch_cputype a, fat_arch_cpusubtype a).
Definition fat_arch_64_slice (a : fat_arch_64) : slice :=
  (fat_arch_64_cputype a, fat_arch_64_cpusubtype a).

(** The slices the loops see: of [fat_archs64] when that pointer is not NULL,
    of [fat_archs] otherwise; the first [nfat_archs] of them. *)
Definition slices (fat_archs : list fat_arch) (fat_archs64 : option (list fat_arch_64))
    (nfat_archs : nat) : list slice :=
  take nfat_archs
    match fat_archs64 with
    | Some l => fat_arch_64_slice <$> l
    | None => fat_arch_slice <$> fat_archs
    end.

(** [return(i)] from a function returning [int32_t]. *)
Definition ret_index (i : nat) : Z := i32 (Z.of_nat i).

Definition for_slices (p : cpu_type_t -> cpu_subtype_t -> bool) (sl : list slice)
    : option Z :=
  ret_index <$> find_index (fun s => p s.1 s.2) sl.

(** The loop most cases are made of: return the first slice of the cputype
    whose subtype, feature flags cleared, is [want]. *)
Definition find_sub (cputype : cpu_type_t) (want : Z) (sl : list slice) : option Z :=
  for_slices (fun ct st =>
    if negb (ct =? cputype) then false else msub st =? want) sl.

(** The loop of the ARM case, which compares the whole cpusubtype. *)
Definition find_raw (cputype : cpu_type_t) (want : Z) (sl : list slice) : option Z :=
  for_slices (fun ct st => (ct =? cputype) && (st =? want)) sl.

(** ** internal_cpusubtype_findbestarch *)

Section findbestarch.
Variable sl : list slice.
Variables (cputype : cpu_type_t) (cpusubtype : cpu_subtype_t).

Definition fb_exact : option Z :=
  for_slices (fun ct st => (ct =? cputype) && (msub st =? msub cpusubtype)) sl.

Definition fb_ppc64_default : option Z := find_sub cputype CPU_SUBTYPE_POWERPC_ALL sl.

Definition fb_ppc64 : option Z :=
  let s := msub cpusubtype in
  if (s =? CPU_SUBTYPE_POWERPC_ALL) || (s =? CPU_SUBTYPE_POWERPC_970) then
    find_sub cputype CPU_SUBTYPE_POWERPC_970 sl ;;;
    fb_ppc64_default
  else fb_ppc64_default.

Definition fb_x86_64 : option Z := find_sub cputype CPU_SUBTYPE_I386_ALL sl.

(** The [switch] on the subtype at the head of the i386 case. *)
Definition fb_i386_switch : option Z :=
  let s := msub cpusubtype in
  if (s =? CPU_SUBTYPE_PENT) || (s =? CPU_SUBTYPE_486SX) then
    find_sub cputype CPU_SUBTYPE_486 sl
  else if (s =? CPU_SUBTYPE_I386_ALL) || (s =? CPU_SUBTYPE_486) then None
  else (* default: *)
    find_sub cputype CPU_SUBTYPE_PENT sl ;;;
    find_sub cputype CPU_SUBTYPE_486 sl.

(** One pass of the loop that looks for the lowest family. *)
Definition lowest_family_step (lowest_family : Z) (s : slice) : Z :=
  if negb (s.1 =? cputype) then lowest_family
  else if CPU_SUBTYPE_INTEL_FAMILY (msub s.2) <? lowest_family
  then CPU_SUBTYPE_INTEL_FAMILY (msub s.2)
  else lowest_family.

Definition lowest_family : Z :=
  fold_left lowest_family_step sl (CPU_SUBTYPE_INTEL_FAMILY_MAX + 1).

(** One pass of the loop that looks for the lowest model of that family;
    the state is [(i, lowest_model, lowest_index)]. *)
Definition lowest_model_step (family : Z) (st : nat * Z * Z) (s : slice)
    : nat * Z * Z :=
  let '(i, lowest_model, lowest_index) := st in
  if negb (s.1 =? cputype) then (S i, lowest_model, lowest_index)
  else if CPU_SUBTYPE_INTEL_FAMILY (msub s.2) =? family then
    if CPU_SUBTYPE_INTEL_MODEL (msub s.2) <? lowest_model
    then (S i, CPU_SUBTYPE_INTEL_MODEL (msub s.2), Z.of_nat i)
    else (S i, lowest_model, lowest_index)
  else (S i, lowest_model, lowest_index).

Definition LONG_MAX : Z := 2 ^ 63 - 1.

(** [lowest_index] is a [uint32_t] set to -1 before the loop. *)
Definition lowest_model_index (family model_max : Z) : Z :=
  let '(_, _, lowest_index) :=
    fold_left (lowest_model_step family) sl (O, model_max, u32 (-1)) in
  i32 lowest_index.

Definition fb_i386_lowest : option Z :=
  if lowest_family =? CPU_SUBTYPE_INTEL_FAMILY_MAX + 1 then Some (-1)
  else Some (lowest_model_index lowest_family LONG_MAX).

Definition fb_i386 : option Z :=
  fb_i386_switch ;;;
  find_sub cputype CPU_SUBTYPE_I386_ALL sl ;;;
  (* A match failed, promote as little as possible. *)
  find_sub cputype CPU_SUBTYPE_486 sl ;;;
  find_sub cputype CPU_SUBTYPE_486SX sl ;;;
  find_sub cputype CPU_SUBTYPE_586 sl ;;;
  fb_i386_lowest.

Definition fb_mc680x0 : option Z :=
  find_sub cputype CPU_SUBTYPE_MC680x0_ALL sl ;;;
  when (msub cpusubtype =? CPU_SUBTYPE_MC680x0_ALL)
    (find_sub cputype CPU_SUBTYPE_MC68040 sl ;;;
     find_sub cputype CPU_SUBTYPE_MC68030_ONLY sl).

Definition fb_ppc_default : option Z := find_sub cputype CPU_SUBTYPE_POWERPC_ALL sl.

Definition fb_ppc_750_603 : option Z :=
  find_sub cputype CPU_SUBTYPE_POWERPC_750 sl ;;;
  find_sub cputype CPU_SUBTYPE_POWERPC_604e sl ;;;
  find_sub cputype CPU_SUBTYPE_POWERPC_604 sl ;;;
  find_sub cputype CPU_SUBTYPE_POWERPC_603ev sl ;;;
  find_sub cputype CPU_SUBTYPE_POWERPC_603e sl ;;;
  find_sub cputype CPU_SUBTYPE_POWERPC_603 sl ;;;
  fb_ppc_default.

Definition fb_ppc_7450_7400 : option Z :=
  find_sub cputype CPU_SUBTYPE_POWERPC_7450 sl ;;;
  find_sub cputype CPU_SUBTYPE_POWERPC_7400 sl ;;;
  fb_ppc_750_603.

Definition fb_ppc : option Z :=
  let s := msub cpusubtype in
  if (s =? CPU_SUBTYPE_POWERPC_ALL) || (s =? CPU_SUBTYPE_POWERPC_970) then
    find_sub cputype CPU_SUBTYPE_POWERPC_970 sl ;;; fb_ppc_7450_7400
  else if (s =? CPU_SUBTYPE_POWERPC_7450) || (s =? CPU_SUBTYPE_POWERPC_7400) then
    fb_ppc_7450_7400
  else if (s =? CPU_SUBTYPE_POWERPC_750) || (s =? CPU_SUBTYPE_POWERPC_604e) ||
          (s =? CPU_SUBTYPE_POWERPC_604) || (s =? CPU_SUBTYPE_POWERPC_603ev) ||
          (s =? CPU_SUBTYPE_POWERPC_603e) || (s =? CPU_SUBTYPE_POWERPC_603) then
    fb_ppc_750_603
  else fb_ppc_default.

Definition fb_veo_4 : option Z :=
  find_sub cputype CPU_SUBTYPE_VEO_3 sl ;;;
  find_sub cputype CPU_SUBTYPE_VEO_2 sl.

Definition fb_veo : option Z :=
  let s := msub cpusubtype in
  if (s =? CPU_SUBTYPE_VEO_1) || (s =? CPU_SUBTYPE_VEO_3) then
    find_sub cputype CPU_SUBTYPE_VEO_2 sl ;;; fb_veo_4
  else if s =? CPU_SUBTYPE_VEO_4 then fb_veo_4
  else None.

Definition fb_arm64 : option Z := find_sub cputype CPU_SUBTYPE_ARM64_ALL sl.

(** The ARM case has no [break]: it falls into the ARM64 one. *)
Definition fb_arm : option Z :=
  let s := cpusubtype in
  when ((s =? CPU_SUBTYPE_ARM_ALL) || (s =? CPU_SUBTYPE_ARM_V7K))
    (find_raw cputype CPU_SUBTYPE_ARM_V7S sl) ;;;
  when ((s =? CPU_SUBTYPE_ARM_ALL) || (s =? CPU_SUBTYPE_ARM_V7S))
    (find_raw cputype CPU_SUBTYPE_ARM_V7F sl) ;;;
  when ((s =? CPU_SUBTYPE_ARM_ALL) || (s =? CPU_SUBTYPE_ARM_V7F))
    (find_raw cputype CPU_SUBTYPE_ARM_V7 sl) ;;;
  when ((s =? CPU_SUBTYPE_ARM_ALL) || (s =? CPU_SUBTYPE_ARM_V7) ||
        (s =? CPU_SUBTYPE_ARM_V6))
    (find_raw cputype CPU_SUBTYPE_ARM_V6 sl) ;;;
  when ((s =? CPU_SUBTYPE_ARM_ALL) || (s =? CPU_SUBTYPE_ARM_V6) ||
        (s =? CPU_SUBTYPE_ARM_V5TEJ))
    (find_raw cputype CPU_SUBTYPE_ARM_V5TEJ sl) ;;;
  when ((s =? CPU_SUBTYPE_ARM_ALL) || (s =? CPU_SUBTYPE_ARM_XSCALE))
    (find_raw cputype CPU_SUBTYPE_ARM_XSCALE sl) ;;;
  find_raw cputype CPU_SUBTYPE_ARM_V4T sl ;;;
  find_raw cputype CPU_SUBTYPE_ARM_V6M sl ;;;
  find_raw cputype CPU_SUBTYPE_ARM_V7M sl ;;;
  find_raw cputype CPU_SUBTYPE_ARM_V7EM sl ;;;
  find_raw cputype CPU_SUBTYPE_ARM_ALL sl ;;;
  fb_arm64.

(** [switch(cputype)]; a case that breaks goes on to [return(-1)]. *)
Definition fb_switch : option Z :=
  if cputype =? CPU_TYPE_POWERPC64 then fb_ppc64
  else if cputype =? CPU_TYPE_X86_64 then fb_x86_64
  else if cputype =? CPU_TYPE_I386 then fb_i386
  else if cputype =? CPU_TYPE_MC680x0 then fb_mc680x0
  else if cputype =? CPU_TYPE_POWERPC then fb_ppc
  else if cputype =? CPU_TYPE_VEO then fb_veo
  else if cputype =? CPU_TYPE_MC88000 then find_sub cputype CPU_SUBTYPE_MC88000_ALL sl
  else if cputype =? CPU_TYPE_I860 then find_sub cputype CPU_SUBTYPE_I860_ALL sl
  else if cputype =? CPU_TYPE_HPPA then find_sub cputype CPU_SUBTYPE_HPPA_ALL sl
  else if cputype =? CPU_TYPE_SPARC then find_sub cputype CPU_SUBTYPE_SPARC_ALL sl
  else if cputype =? CPU_TYPE_ARM then fb_arm
  else if cputype =? CPU_TYPE_ARM64 then fb_arm64
  else Some (-1).

Definition findbestarch_slices : Z := default (-1) (fb_exact ;;; fb_switch).
End findbestarch.

Definition internal_cpusubtype_findbestarch (cputype : cpu_type_t)
    (cpusubtype : cpu_subtype_t) (fat_archs : list fat_arch)
    (fat_archs64 : option (list fat_arch_64)) (nfat_archs : nat) : Z :=
  findbestarch_slices (slices fat_archs fat_archs64 nfat_archs) cputype cpusubtype.

(** [None] is NULL; [Some a] the struct the returned pointer is at. *)
Definition cpusubtype_findbestarch_64 (cputype : cpu_type_t) (cpusubtype : cpu_subtype_t)
    (fat_archs64 : list fat_arch_64) (nfat_archs : nat) : option fat_arch_64 :=
  let i := internal_cpusubtype_findbestarch cputype cpusubtype [] (Some fat_archs64)
             nfat_archs in
  if i =? -1 then None else fat_archs64 !! Z.to_nat i.

Definition cpusubtype_findbestarch (cputype : cpu_type_t) (cpusubtype : cpu_subtype_t)
    (fat_archs : list fat_arch) (nfat_archs : nat) : option fat_arch :=
  let i := internal_cpusubtype_findbestarch cputype cpusubtype fat_archs None
             nfat_archs in
  if i =? -1 then None else fat_archs !! Z.to_nat i.

(** ** What a statement of the selection can return *)

(** [r] is the index of a slice that satisfies [P]. *)
Definition picked (sl : list slice) (P : slice -> Prop) (r : Z) : Prop :=
  exists i s, sl !! i = Some s /\ P s /\ r = ret_index i.

Section returns.
Variable sl : list slice.
Implicit Types P : slice -> Prop.

Lemma picked_mono P Q r : (forall s, P s -> Q s) -> picked sl P r -> picked sl Q r.
Proof. intros HPQ (i & s & ? & ? & ?). exists i, s. auto. Qed.

Lemma returns_for_slices p P :
  (forall s, p s.1 s.2 = true -> P s) -> returns (picked sl P) (for_slices p sl).
Proof.
  intros Hp r (i & [(s & Hs & Ht) _]%find_index_Some & ->)%fmap_Some.
  exists i, s. auto.
Qed.

Lemma returns_find_sub P ct w :
  (forall st, msub st = w -> P (ct, st)) -> returns (picked sl P) (find_sub ct w sl).
Proof.
  intros HP. apply returns_for_slices. intros [ct' st] H; simpl in H.
  destruct (Z.eqb_spec ct' ct) as [->|]; [|done]. simpl in H. bool_to_prop. auto.
Qed.

Lemma returns_find_raw P ct w :
  P (ct, w) -> returns (picked sl P) (find_raw ct w sl).
Proof.
  intros HP. apply returns_for_slices. intros [ct' st] H; simpl in H.
  bool_to_prop. by subst.
Qed.

(** Which subtypes the loops of [find_sub] cannot have missed. *)
Lemma find_sub_None ct w :
  find_sub ct w sl = None <-> (forall st, (ct, st) ∈ sl -> msub st <> w).
Proof.
  unfold find_sub, for_slices. rewrite fmap_None, find_index_None. split.
  - intros H st Hin. specialize (H _ Hin). simpl in H.
    rewrite Z.eqb_refl in H. simpl in H. by apply Z.eqb_neq in H.
  - intros H [ct' st] Hin; simpl. destruct (Z.eqb_spec ct' ct) as [->|]; [|done].
    simpl. by apply Z.eqb_neq, H.
Qed.

Lemma fb_exact_None ct cs :
  fb_exact sl ct cs = None <-> (forall st, (ct, st) ∈ sl -> msub st <> msub cs).
Proof.
  unfold fb_exact, for_slices. rewrite fmap_None, find_index_None. split.
  - intros H st Hin. specialize (H _ Hin). simpl in H.
    rewrite Z.eqb_refl in H. simpl in H. by apply Z.eqb_neq in H.
  - intros H [ct' st] Hin; simpl. destruct (Z.eqb_spec ct' ct) as [->|]; [|done].
    simpl. by apply Z.eqb_neq, H.
Qed.
End returns.

#[export] Hint Resolve returns_find_sub returns_find_raw : cstmt.

(** ** The scan for the lowest family and model *)

Section lowest.
Variables (ct : cpu_type_t).

Lemma intel_family_range st : 0 <= CPU_SUBTYPE_INTEL_FAMILY st <= 15.
Proof.
  unfold CPU_SUBTYPE_INTEL_FAMILY. change (Z.land st 15) with (Z.land st (Z.ones 4)).
  rewrite Z.land_ones by lia. pose proof (Z.mod_pos_bound st (2 ^ 4) ltac:(lia)). lia.
Qed.

Lemma intel_model_range st : 0 <= st < 2 ^ 24 -> 0 <= CPU_SUBTYPE_INTEL_MODEL st < 2 ^ 20.
Proof.
  unfold CPU_SUBTYPE_INTEL_MODEL. rewrite Z.shiftr_div_pow2 by lia. intros. div_lia.
Qed.

Lemma lowest_family_fold sl f0 :
  let f := fold_left (lowest_family_step ct) sl f0 in
  f <= f0 /\
  (forall st, (ct, st) ∈ sl -> f <= CPU_SUBTYPE_INTEL_FAMILY (msub st)) /\
  (f = f0 \/ exists st, (ct, st) ∈ sl /\ f = CPU_SUBTYPE_INTEL_FAMILY (msub st)).
Proof.
  revert f0. induction sl as [|[ct' st'] sl IH]; intros f0; simpl.
  { split_and!; [lia| |by left]. intros st H. by apply elem_of_nil in H. }
  specialize (IH (lowest_family_step ct f0 (ct', st'))) as (Hle & Hall & Hex).
  assert (Hstep : lowest_family_step ct f0 (ct', st') <= f0 /\
    (ct' = ct -> lowest_family_step ct f0 (ct', st')
                   <= CPU_SUBTYPE_INTEL_FAMILY (msub st')) /\
    (lowest_family_step ct f0 (ct', st') = f0 \/
     ct' = ct /\ lowest_family_step ct f0 (ct', st')
                   = CPU_SUBTYPE_INTEL_FAMILY (msub st'))).
  { unfold lowest_family_step; simpl.
    destruct (Z.eqb_spec ct' ct); simpl; [|split_and!; [lia|congruence|auto]].
    destruct (Z.ltb_spec (CPU_SUBTYPE_INTEL_FAMILY (msub st')) f0);
      split_and!; auto; lia. }
  destruct Hstep as (Hs1 & Hs2 & Hs3). split_and!.
  - lia.
  - intros st [[= <- <-]|Hin]%elem_of_cons; [|auto]. specialize (Hs2 eq_refl). lia.
  - destruct Hex as [->|(st & Hin & ->)].
    + destruct Hs3 as [->|[-> ->]]; [by left|right].
      exists st'. split; [by left|done].
    + right. exists st. split; [by right|done].
Qed.

(** The loop over the models keeps the first slice of the lowest model of
    the family among those already seen. *)
Definition model_inv (fam mmax : Z) (seen : list slice) (st : nat * Z * Z) : Prop :=
  let '(i, m, idx) := st in
  i = length seen /\
  ((m = mmax /\ idx = u32 (-1) /\
    forall s, (ct, s) ∈ seen -> CPU_SUBTYPE_INTEL_FAMILY (msub s) <> fam) \/
   (exists j s, idx = Z.of_nat j /\ seen !! j = Some (ct, s) /\
      CPU_SUBTYPE_INTEL_FAMILY (msub s) = fam /\
      m = CPU_SUBTYPE_INTEL_MODEL (msub s) /\
      forall s', (ct, s') ∈ seen -> CPU_SUBTYPE_INTEL_FAMILY (msub s') = fam ->
        m <= CPU_SUBTYPE_INTEL_MODEL (msub s'))).

Lemma model_inv_step fam mmax seen st s :
  2 ^ 20 <= mmax ->
  model_inv fam mmax seen st -> model_inv fam mmax (seen ++ [s]) (lowest_model_step ct fam st s).
Proof.
  intros Hmax. destruct st as [[i m] idx]. intros [-> Hinv]. destruct s as [ct' s'].
  unfold lowest_model_step; cbn [fst snd].
  pose proof (intel_model_range (msub s') (msub_range s')) as Hm'.
  destruct (Z.eqb_spec ct' ct) as [->|Hne]; simpl.
  2: { split; [rewrite length_app; simpl; lia|].
    destruct Hinv as [(-> & -> & Hno)|(j & s & -> & Hj & Hf & Hm & Hmin)]; [left|right].
    - split_and!; auto. intros s [?|[[=]|[]%elem_of_nil]%elem_of_cons]%elem_of_app; [auto|congruence].
    - exists j, s. split_and!; auto.
      + by apply lookup_app_l_Some.
      + intros s1 [?|[[=]|[]%elem_of_nil]%elem_of_cons]%elem_of_app; [auto|congruence]. }
  destruct (Z.eqb_spec (CPU_SUBTYPE_INTEL_FAMILY (msub s')) fam) as [Hfam|Hfam].
  2: { split; [rewrite length_app; simpl; lia|].
    destruct Hinv as [(-> & -> & Hno)|(j & s & -> & Hj & Hf & Hm & Hmin)]; [left|right].
    - split_and!; auto. intros s [?|[[= ->]|[]%elem_of_nil]%elem_of_cons]%elem_of_app; auto.
    - exists j, s. split_and!; auto.
      + by apply lookup_app_l_Some.
      + intros s1 [?|[[= ->]|[]%elem_of_nil]%elem_of_cons]%elem_of_app; [auto|congruence]. }
  destruct (Z.ltb_spec (CPU_SUBTYPE_INTEL_MODEL (msub s')) m) as [Hlt|Hge];
    (split; [rewrite length_app; simpl; lia|]).
  - right. exists (length seen), s'. split_and!; auto.
    + by apply list_lookup_middle.
    + intros s1 [Hin|[[= ->]|[]%elem_of_nil]%elem_of_cons]%elem_of_app Hf1; [|lia].
      destruct Hinv as [(-> & -> & Hno)|(j & s & -> & Hj & Hf & Hm & Hmin)].
      * by apply Hno in Hin.
      * specialize (Hmin _ Hin Hf1). lia.
  - destruct Hinv as [(-> & -> & Hno)|(j & s & -> & Hj & Hf & Hm & Hmin)]; [lia|right].
    exists j, s. split_and!; auto.
    + by apply lookup_app_l_Some.
    + intros s1 [?|[[= ->]|[]%elem_of_nil]%elem_of_cons]%elem_of_app Hf1; [auto|lia].
Qed.

Lemma model_inv_fold fam mmax sl seen st :
  2 ^ 20 <= mmax -> model_inv fam mmax seen st ->
  model_inv fam mmax (seen ++ sl) (fold_left (lowest_model_step ct fam) sl st).
Proof.
  intros Hmax. revert seen st. induction sl as [|s sl IH]; intros seen st Hinv; simpl.
  { by rewrite app_nil_r. }
  rewrite cons_middle, app_assoc. apply IH. by apply model_inv_step.
Qed.
End lowest.
