(* ===== verification/CpuCombine.v ===== *)
(** * libstuff/best_arch.c: combining and executing cpusubtypes

    [cpusubtype_combine] and [cpusubtype_execute], one [Definition] per case
    of their [switch(cputype)]. *)

From Stdlib Require Import ZArith Lia Bool.
From stdpp Require Import base list option numbers.
From S2P Require Import Prelude CInt CpuTypes.

(** [(cpu_subtype_t)-1]. *)
Definition NO_SUBTYPE : cpu_subtype_t := -1.

(** ** cpusubtype_combine *)

Section combine.
Variables (cpusubtype1 cpusubtype2 : cpu_subtype_t).
Let s1 := msub cpusubtype1.
Let s2 := msub cpusubtype2.

Definition combine_mc680x0 : option Z :=
  when (negb (s1 =? CPU_SUBTYPE_MC680x0_ALL) && negb (s1 =? CPU_SUBTYPE_MC68030_ONLY) &&
        negb (s1 =? CPU_SUBTYPE_MC68040)) (Some NO_SUBTYPE) ;;;
  when (negb (s2 =? CPU_SUBTYPE_MC680x0_ALL) && negb (s2 =? CPU_SUBTYPE_MC68030_ONLY) &&
        negb (s2 =? CPU_SUBTYPE_MC68040)) (Some NO_SUBTYPE) ;;;
  when ((s1 =? CPU_SUBTYPE_MC68030_ONLY) && (s2 =? CPU_SUBTYPE_MC68040))
    (Some NO_SUBTYPE) ;;;
  when ((s1 =? CPU_SUBTYPE_MC68040) && (s2 =? CPU_SUBTYPE_MC68030_ONLY))
    (Some NO_SUBTYPE) ;;;
  when ((s1 =? CPU_SUBTYPE_MC68030_ONLY) || (s2 =? CPU_SUBTYPE_MC68030_ONLY))
    (Some CPU_SUBTYPE_MC68030_ONLY) ;;;
  when ((s1 =? CPU_SUBTYPE_MC68040) || (s2 =? CPU_SUBTYPE_MC68040))
    (Some CPU_SUBTYPE_MC68040).

Definition combine_ppc : option Z :=
  when (s1 =? CPU_SUBTYPE_POWERPC_ALL) (Some cpusubtype2) ;;;
  when (s2 =? CPU_SUBTYPE_POWERPC_ALL) (Some cpusubtype1) ;;;
  when ((s1 =? CPU_SUBTYPE_POWERPC_601) || (s2 =? CPU_SUBTYPE_POWERPC_601))
    (Some CPU_SUBTYPE_POWERPC_601) ;;;
  Some (if s2 <? s1 then cpusubtype1 else cpusubtype2).

Definition combine_ppc64 : option Z :=
  when (s1 =? CPU_SUBTYPE_POWERPC_ALL) (Some cpusubtype2) ;;;
  when (s2 =? CPU_SUBTYPE_POWERPC_ALL) (Some cpusubtype1) ;;;
  Some (if s2 <? s1 then cpusubtype1 else cpusubtype2).

Definition combine_veo : option Z :=
  when ((s1 =? CPU_SUBTYPE_VEO_1) && (s2 =? CPU_SUBTYPE_VEO_2)) (Some CPU_SUBTYPE_VEO_1) ;;;
  when ((s1 =? CPU_SUBTYPE_VEO_2) && (s2 =? CPU_SUBTYPE_VEO_1)) (Some CPU_SUBTYPE_VEO_1) ;;;
  when ((s1 =? CPU_SUBTYPE_VEO_3) && (s2 =? CPU_SUBTYPE_VEO_2)) (Some CPU_SUBTYPE_VEO_3) ;;;
  when ((s1 =? CPU_SUBTYPE_VEO_2) && (s2 =? CPU_SUBTYPE_VEO_3)) (Some CPU_SUBTYPE_VEO_3) ;;;
  when ((s1 =? CPU_SUBTYPE_VEO_4) &&
        ((s2 =? CPU_SUBTYPE_VEO_2) || (s2 =? CPU_SUBTYPE_VEO_3))) (Some CPU_SUBTYPE_VEO_4) ;;;
  when (((s1 =? CPU_SUBTYPE_VEO_2) || (s1 =? CPU_SUBTYPE_VEO_3)) &&
        (s2 =? CPU_SUBTYPE_VEO_4)) (Some CPU_SUBTYPE_VEO_4) ;;;
  Some NO_SUBTYPE.

Definition combine_mc88000 : option Z :=
  when (negb (s1 =? CPU_SUBTYPE_MC88000_ALL) && negb (s1 =? CPU_SUBTYPE_MC88110))
    (Some NO_SUBTYPE) ;;;
  when (negb (s2 =? CPU_SUBTYPE_MC88000_ALL) && negb (s2 =? CPU_SUBTYPE_MC88110))
    (Some NO_SUBTYPE) ;;;
  when ((s1 =? CPU_SUBTYPE_MC88110) || (s2 =? CPU_SUBTYPE_MC88110))
    (Some CPU_SUBTYPE_MC88110).

Definition combine_i860 : option Z :=
  when (negb (s1 =? CPU_SUBTYPE_I860_ALL) && negb (s1 =? CPU_SUBTYPE_I860_860))
    (Some NO_SUBTYPE) ;;;
  when (negb (s2 =? CPU_SUBTYPE_I860_ALL) && negb (s2 =? CPU_SUBTYPE_I860_860))
    (Some NO_SUBTYPE) ;;;
  when ((s1 =? CPU_SUBTYPE_I860_860) || (s2 =? CPU_SUBTYPE_I860_860))
    (Some CPU_SUBTYPE_I860_860).

Definition combine_hppa : option Z :=
  when (negb (s1 =? CPU_SUBTYPE_HPPA_ALL) && negb (s1 =? CPU_SUBTYPE_HPPA_7100LC))
    (Some NO_SUBTYPE) ;;;
  when (negb (s2 =? CPU_SUBTYPE_HPPA_ALL) && negb (s2 =? CPU_SUBTYPE_HPPA_7100LC))
    (Some NO_SUBTYPE) ;;;
  Some CPU_SUBTYPE_HPPA_7100LC.

Definition combine_sparc : option Z :=
  when (negb (s1 =? CPU_SUBTYPE_SPARC_ALL)) (Some NO_SUBTYPE) ;;;
  when (negb (s2 =? CPU_SUBTYPE_SPARC_ALL)) (Some NO_SUBTYPE).

Definition combine_arm : option Z :=
  when (s1 =? CPU_SUBTYPE_ARM_ALL) (Some cpusubtype2) ;;;
  when (s2 =? CPU_SUBTYPE_ARM_ALL) (Some cpusubtype1) ;;;
  Some (
    if s1 =? CPU_SUBTYPE_ARM_V7 then
      if s2 =? CPU_SUBTYPE_ARM_XSCALE then NO_SUBTYPE else CPU_SUBTYPE_ARM_V7
    else if s1 =? CPU_SUBTYPE_ARM_V6 then
      if s2 =? CPU_SUBTYPE_ARM_XSCALE then NO_SUBTYPE else CPU_SUBTYPE_ARM_V6
    else if s1 =? CPU_SUBTYPE_ARM_XSCALE then
      if (s2 =? CPU_SUBTYPE_ARM_V7) || (s2 =? CPU_SUBTYPE_ARM_V6) ||
         (s2 =? CPU_SUBTYPE_ARM_V5TEJ) then NO_SUBTYPE
      else CPU_SUBTYPE_ARM_XSCALE
    else if s1 =? CPU_SUBTYPE_ARM_V5TEJ then
      if s2 =? CPU_SUBTYPE_ARM_XSCALE then NO_SUBTYPE
      else if s2 =? CPU_SUBTYPE_ARM_V7 then CPU_SUBTYPE_ARM_V7
      else if s2 =? CPU_SUBTYPE_ARM_V6 then CPU_SUBTYPE_ARM_V6
      else CPU_SUBTYPE_ARM_V5TEJ
    else if s1 =? CPU_SUBTYPE_ARM_V4T then s2
    else NO_SUBTYPE).

Definition combine_arm64 : option Z :=
  when (negb (s1 =? CPU_SUBTYPE_ARM64_ALL)) (Some NO_SUBTYPE) ;;;
  when (negb (s2 =? CPU_SUBTYPE_ARM64_ALL)) (Some NO_SUBTYPE).

Definition combine_switch (cputype : cpu_type_t) : option Z :=
  if cputype =? CPU_TYPE_MC680x0 then combine_mc680x0
  else if cputype =? CPU_TYPE_POWERPC then combine_ppc
  else if cputype =? CPU_TYPE_POWERPC64 then combine_ppc64
  else if cputype =? CPU_TYPE_VEO then combine_veo
  else if cputype =? CPU_TYPE_MC88000 then combine_mc88000
  else if cputype =? CPU_TYPE_I860 then combine_i860
  else if cputype =? CPU_TYPE_HPPA then combine_hppa
  else if cputype =? CPU_TYPE_SPARC then combine_sparc
  else if cputype =? CPU_TYPE_ARM then combine_arm
  else if cputype =? CPU_TYPE_ARM64 then combine_arm64
  else Some NO_SUBTYPE.

Definition cpusubtype_combine_stmts (cputype : cpu_type_t) : option Z :=
  when ((cputype =? CPU_TYPE_X86_64) &&
        ((cpusubtype1 =? CPU_SUBTYPE_X86_64_H) || (cpusubtype2 =? CPU_SUBTYPE_X86_64_H)))
    (Some NO_SUBTYPE) ;;;
  when ((cputype =? CPU_TYPE_I386) || (cputype =? CPU_TYPE_X86_64))
    (Some CPU_SUBTYPE_I386_ALL) ;;;
  when (s1 =? s2) (Some cpusubtype1) ;;;
  combine_switch cputype ;;;
  Some NO_SUBTYPE.
End combine.

Definition cpusubtype_combine (cputype : cpu_type_t)
    (cpusubtype1 cpusubtype2 : cpu_subtype_t) : cpu_subtype_t :=
  default NO_SUBTYPE (cpusubtype_combine_stmts cpusubtype1 cpusubtype2 cputype).

(** ** cpusubtype_execute *)

(** [switch(x){ case ...: return(TRUE); default: return(FALSE); }] *)
Definition one_of (x : Z) (l : list Z) : bool := existsb (Z.eqb x) l.

Section execute.
Variables (host_cpusubtype exec_cpusubtype : cpu_subtype_t).
Let h := msub host_cpusubtype.
Let e := msub exec_cpusubtype.

Definition execute_ppc : bool :=
  if h =? CPU_SUBTYPE_POWERPC_970 then
    one_of e [CPU_SUBTYPE_POWERPC_970; CPU_SUBTYPE_POWERPC_7450; CPU_SUBTYPE_POWERPC_7400;
      CPU_SUBTYPE_POWERPC_750; CPU_SUBTYPE_POWERPC_620; CPU_SUBTYPE_POWERPC_604e;
      CPU_SUBTYPE_POWERPC_604; CPU_SUBTYPE_POWERPC_603ev; CPU_SUBTYPE_POWERPC_603e;
      CPU_SUBTYPE_POWERPC_603; CPU_SUBTYPE_POWERPC_602; CPU_SUBTYPE_POWERPC_ALL]
  else if one_of h [CPU_SUBTYPE_POWERPC_7450; CPU_SUBTYPE_POWERPC_7400] then
    one_of e [CPU_SUBTYPE_POWERPC_7450; CPU_SUBTYPE_POWERPC_7400; CPU_SUBTYPE_POWERPC_750;
      CPU_SUBTYPE_POWERPC_620; CPU_SUBTYPE_POWERPC_604e; CPU_SUBTYPE_POWERPC_604;
      CPU_SUBTYPE_POWERPC_603ev; CPU_SUBTYPE_POWERPC_603e; CPU_SUBTYPE_POWERPC_603;
      CPU_SUBTYPE_POWERPC_602; CPU_SUBTYPE_POWERPC_ALL]
  else if one_of h [CPU_SUBTYPE_POWERPC_750; CPU_SUBTYPE_POWERPC_620;
      CPU_SUBTYPE_POWERPC_604e; CPU_SUBTYPE_POWERPC_604; CPU_SUBTYPE_POWERPC_603ev;
      CPU_SUBTYPE_POWERPC_603e; CPU_SUBTYPE_POWERPC_603; CPU_SUBTYPE_POWERPC_602] then
    one_of e [CPU_SUBTYPE_POWERPC_750; CPU_SUBTYPE_POWERPC_620; CPU_SUBTYPE_POWERPC_604e;
      CPU_SUBTYPE_POWERPC_604; CPU_SUBTYPE_POWERPC_603ev; CPU_SUBTYPE_POWERPC_603e;
      CPU_SUBTYPE_POWERPC_603; CPU_SUBTYPE_POWERPC_602; CPU_SUBTYPE_POWERPC_ALL]
  else if h =? CPU_SUBTYPE_POWERPC_601 then
    one_of e [CPU_SUBTYPE_POWERPC_750; CPU_SUBTYPE_POWERPC_620; CPU_SUBTYPE_POWERPC_604e;
      CPU_SUBTYPE_POWERPC_604; CPU_SUBTYPE_POWERPC_603ev; CPU_SUBTYPE_POWERPC_603e;
      CPU_SUBTYPE_POWERPC_603; CPU_SUBTYPE_POWERPC_602; CPU_SUBTYPE_POWERPC_601;
      CPU_SUBTYPE_POWERPC_ALL]
  else one_of e [CPU_SUBTYPE_POWERPC_ALL].

Definition execute_i386 : bool :=
  one_of e [CPU_SUBTYPE_I386_ALL; CPU_SUBTYPE_486; CPU_SUBTYPE_486SX; CPU_SUBTYPE_586;
    CPU_SUBTYPE_PENTPRO; CPU_SUBTYPE_PENTII_M3; CPU_SUBTYPE_PENTII_M5;
    CPU_SUBTYPE_PENTIUM_4].

Definition execute_mc680x0 : bool :=
  if h =? CPU_SUBTYPE_MC68040 then
    one_of e [CPU_SUBTYPE_MC68040; CPU_SUBTYPE_MC680x0_ALL]
  else if h =? CPU_SUBTYPE_MC68030 then
    one_of e [CPU_SUBTYPE_MC680x0_ALL; CPU_SUBTYPE_MC68030_ONLY]
  else one_of e [CPU_SUBTYPE_MC680x0_ALL].

Definition execute_mc88000 : bool :=
  if h =? CPU_SUBTYPE_MC88110 then
    one_of e [CPU_SUBTYPE_MC88110; CPU_SUBTYPE_MC88000_ALL]
  else one_of e [CPU_SUBTYPE_MC88000_ALL].

Definition execute_hppa : bool :=
  if h =? CPU_SUBTYPE_HPPA_7100LC then
    one_of e [CPU_SUBTYPE_HPPA_ALL; CPU_SUBTYPE_HPPA_7100LC]
  else if h =? CPU_SUBTYPE_HPPA_7100 then one_of e [CPU_SUBTYPE_HPPA_ALL]
  else one_of e [CPU_SUBTYPE_HPPA_ALL].

Definition execute_sparc : bool := one_of e [CPU_SUBTYPE_SPARC_ALL].

(** From here on the whole subtypes are compared, feature flags included. *)
Definition execute_arm64_32 : bool :=
  if host_cpusubtype =? CPU_SUBTYPE_ARM64_32_V8
  then one_of exec_cpusubtype [CPU_SUBTYPE_ARM64_32_V8] else false.

Definition execute_arm : bool :=
  if host_cpusubtype =? CPU_SUBTYPE_ARM_V6 then
    one_of exec_cpusubtype [CPU_SUBTYPE_ARM_ALL; CPU_SUBTYPE_ARM_V4T;
      CPU_SUBTYPE_ARM_V5TEJ; CPU_SUBTYPE_ARM_V6]
  else if host_cpusubtype =? CPU_SUBTYPE_ARM_V5TEJ then
    one_of exec_cpusubtype [CPU_SUBTYPE_ARM_ALL; CPU_SUBTYPE_ARM_V5TEJ;
      CPU_SUBTYPE_ARM_V4T]
  else if host_cpusubtype =? CPU_SUBTYPE_ARM_XSCALE then
    one_of exec_cpusubtype [CPU_SUBTYPE_ARM_ALL; CPU_SUBTYPE_ARM_XSCALE;
      CPU_SUBTYPE_ARM_V4T]
  else if host_cpusubtype =? CPU_SUBTYPE_ARM_V4T then
    one_of exec_cpusubtype [CPU_SUBTYPE_ARM_ALL; CPU_SUBTYPE_ARM_V4T]
  else one_of exec_cpusubtype [CPU_SUBTYPE_ARM_ALL].

(** Falls through to the 32-bit ARM case when it does not return. *)
Definition execute_arm64 : bool :=
  if host_cpusubtype =? CPU_SUBTYPE_ARM64_V8 then
    if one_of exec_cpusubtype [CPU_SUBTYPE_ARM64_ALL; CPU_SUBTYPE_ARM64_V8;
      CPU_SUBTYPE_ARM64E] then true else execute_arm
  else if one_of exec_cpusubtype [CPU_SUBTYPE_ARM64_ALL] then true else execute_arm.

Definition execute_switch (host_cputype : cpu_type_t) : bool :=
  if host_cputype =? CPU_TYPE_POWERPC then execute_ppc
  else if host_cputype =? CPU_TYPE_I386 then execute_i386
  else if host_cputype =? CPU_TYPE_MC680x0 then execute_mc680x0
  else if host_cputype =? CPU_TYPE_MC88000 then execute_mc88000
  else if host_cputype =? CPU_TYPE_HPPA then execute_hppa
  else if host_cputype =? CPU_TYPE_SPARC then execute_sparc
  else if host_cputype =? CPU_TYPE_ARM64_32 then execute_arm64_32
  else if host_cputype =? CPU_TYPE_ARM64 then execute_arm64
  else if host_cputype =? CPU_TYPE_ARM then execute_arm
  else false.
End execute.

Definition cpusubtype_execute (host_cputype : cpu_type_t)
    (host_cpusubtype exec_cpusubtype : cpu_subtype_t) : bool :=
  if msub host_cpusubtype =? msub exec_cpusubtype then true
  else execute_switch host_cpusubtype exec_cpusubtype host_cputype.
