(* ===== verification/BestArchSpec.v ===== *)
(** * Correctness of the architecture selection

    An abstract specification of [internal_cpusubtype_findbestarch], a table
    of acceptable subtypes in order of preference, the refinement theorem,
    and what a caller of [cpusubtype_findbestarch] can rely on. *)

From Stdlib Require Import ZArith Lia Bool.
From Stdlib Require Import Init.Byte.
From stdpp Require Import base list option numbers.
From S2P Require Import Prelude CInt CpuTypes ByteSex HeaderSwap BestArch CpuCombine.

(** ** The specification *)

(** A wanted subtype: [Sub w] compares with the feature flags cleared, [Raw w]
    the whole cpusubtype. *)
Inductive want := Sub (w : Z) | Raw (w : Z).

Definition wants (w : want) (st : cpu_subtype_t) : bool :=
  match w with Sub w => msub st =? w | Raw w => st =? w end.

(** The first slice of the cputype satisfying the first satisfiable wish. *)
Fixpoint first_wanted (ct : cpu_type_t) (ws : list want) (sl : list slice) : option nat :=
  match ws with
  | [] => None
  | w :: ws' =>
      match find_index (fun s => (s.1 =? ct) && wants w s.2) sl with
      | Some i => Some i
      | None => first_wanted ct ws' sl
      end
  end.

Definition ppc_603_up : list Z :=
  [CPU_SUBTYPE_POWERPC_750; CPU_SUBTYPE_POWERPC_604e; CPU_SUBTYPE_POWERPC_604;
   CPU_SUBTYPE_POWERPC_603ev; CPU_SUBTYPE_POWERPC_603e; CPU_SUBTYPE_POWERPC_603].

Definition altivec : list Z := [CPU_SUBTYPE_POWERPC_7450; CPU_SUBTYPE_POWERPC_7400].

Definition prefer_ppc (s : Z) : list want :=
  Sub <$>
    (if one_of s [CPU_SUBTYPE_POWERPC_ALL; CPU_SUBTYPE_POWERPC_970]
     then [CPU_SUBTYPE_POWERPC_970] ++ altivec ++ ppc_603_up
     else if one_of s altivec then altivec ++ ppc_603_up
     else if one_of s ppc_603_up then ppc_603_up
     else []) ++ [CPU_SUBTYPE_POWERPC_ALL].

Definition prefer_veo (s : Z) : list want :=
  Sub <$>
    if s =? CPU_SUBTYPE_VEO_1 then [CPU_SUBTYPE_VEO_2; CPU_SUBTYPE_VEO_3]
    else if s =? CPU_SUBTYPE_VEO_3 then [CPU_SUBTYPE_VEO_2; CPU_SUBTYPE_VEO_3]
    else if s =? CPU_SUBTYPE_VEO_4 then [CPU_SUBTYPE_VEO_3; CPU_SUBTYPE_VEO_2]
    else [].

Definition arm_common : list want :=
  (Raw <$> [CPU_SUBTYPE_ARM_V4T; CPU_SUBTYPE_ARM_V6M; CPU_SUBTYPE_ARM_V7M;
            CPU_SUBTYPE_ARM_V7EM; CPU_SUBTYPE_ARM_ALL]) ++ [Sub CPU_SUBTYPE_ARM64_ALL].

Definition prefer_arm (cs : Z) : list want :=
  (Raw <$>
    if cs =? CPU_SUBTYPE_ARM_ALL then
      [CPU_SUBTYPE_ARM_V7S; CPU_SUBTYPE_ARM_V7F; CPU_SUBTYPE_ARM_V7; CPU_SUBTYPE_ARM_V6;
       CPU_SUBTYPE_ARM_V5TEJ; CPU_SUBTYPE_ARM_XSCALE]
    else if cs =? CPU_SUBTYPE_ARM_V7K then [CPU_SUBTYPE_ARM_V7S]
    else if cs =? CPU_SUBTYPE_ARM_V7S then [CPU_SUBTYPE_ARM_V7F]
    else if cs =? CPU_SUBTYPE_ARM_V7F then [CPU_SUBTYPE_ARM_V7]
    else if cs =? CPU_SUBTYPE_ARM_V7 then [CPU_SUBTYPE_ARM_V6]
    else if cs =? CPU_SUBTYPE_ARM_V6 then [CPU_SUBTYPE_ARM_V6; CPU_SUBTYPE_ARM_V5TEJ]
    else if cs =? CPU_SUBTYPE_ARM_V5TEJ then [CPU_SUBTYPE_ARM_V5TEJ]
    else if cs =? CPU_SUBTYPE_ARM_XSCALE then [CPU_SUBTYPE_ARM_XSCALE]
    else []) ++ arm_common.

Definition prefer_i386 (s : Z) : list want :=
  Sub <$>
    (if one_of s [CPU_SUBTYPE_I386_ALL; CPU_SUBTYPE_486] then []
     else if one_of s [CPU_SUBTYPE_PENT; CPU_SUBTYPE_486SX] then [CPU_SUBTYPE_486]
     else [CPU_SUBTYPE_PENT; CPU_SUBTYPE_486])
    ++ [CPU_SUBTYPE_I386_ALL; CPU_SUBTYPE_486; CPU_SUBTYPE_486SX; CPU_SUBTYPE_586].

(** Acceptable subtypes, best first, once no slice matches exactly. *)
Definition preferences (ct : cpu_type_t) (cs : cpu_subtype_t) : list want :=
  let s := msub cs in
  if ct =? CPU_TYPE_POWERPC64 then
    if one_of s [CPU_SUBTYPE_POWERPC_ALL; CPU_SUBTYPE_POWERPC_970]
    then [Sub CPU_SUBTYPE_POWERPC_970; Sub CPU_SUBTYPE_POWERPC_ALL]
    else [Sub CPU_SUBTYPE_POWERPC_ALL]
  else if ct =? CPU_TYPE_X86_64 then [Sub CPU_SUBTYPE_X86_64_ALL]
  else if ct =? CPU_TYPE_I386 then prefer_i386 s
  else if ct =? CPU_TYPE_MC680x0 then
    Sub <$> CPU_SUBTYPE_MC680x0_ALL ::
      (if s =? CPU_SUBTYPE_MC680x0_ALL
       then [CPU_SUBTYPE_MC68040; CPU_SUBTYPE_MC68030_ONLY] else [])
  else if ct =? CPU_TYPE_POWERPC then prefer_ppc s
  else if ct =? CPU_TYPE_VEO then prefer_veo s
  else if one_of ct [CPU_TYPE_MC88000; CPU_TYPE_I860; CPU_TYPE_HPPA;
                             CPU_TYPE_SPARC; CPU_TYPE_ARM64] then [Sub 0]
  else if ct =? CPU_TYPE_ARM then prefer_arm cs
  else [].

(** The exact match, then the preferences; for i386 the scan for the lowest
    family and model comes last. *)
Definition best_spec (sl : list slice) (ct : cpu_type_t) (cs : cpu_subtype_t) : Z :=
  match first_wanted ct (Sub (msub cs) :: preferences ct cs) sl with
  | Some i => ret_index i
  | None => if ct =? CPU_TYPE_I386 then default (-1) (fb_i386_lowest sl ct) else -1
  end.

(** ** Refinement *)

Lemma first_wanted_app ct ws1 ws2 sl :
  first_wanted ct (ws1 ++ ws2) sl =
    match first_wanted ct ws1 sl with
    | Some i => Some i
    | None => first_wanted ct ws2 sl
    end.
Proof. induction ws1 as [|w ws1 IH]; simpl; [done|]. by destruct find_index. Qed.

(** A statement that computes a run of preferences. *)
Definition computes (ct : cpu_type_t) (sl : list slice) (ws : list want) (c : option Z) : Prop :=
  c = ret_index <$> first_wanted ct ws sl.

Lemma computes_nil ct sl : computes ct sl [] None.
Proof. done. Qed.

Lemma computes_sub ct sl w : computes ct sl [Sub w] (find_sub ct w sl).
Proof.
  unfold computes, find_sub, for_slices. f_equal. simpl.
  rewrite (find_index_ext _ (fun s => (s.1 =? ct) && wants (Sub w) s.2)).
  - by destruct find_index.
  - intros [ct' st] _; simpl. by destruct (ct' =? ct).
Qed.

Lemma computes_raw ct sl w : computes ct sl [Raw w] (find_raw ct w sl).
Proof. unfold computes, find_raw, for_slices. simpl. by destruct find_index. Qed.

Lemma computes_seq ct sl ws1 ws2 c1 c2 :
  computes ct sl ws1 c1 -> computes ct sl ws2 c2 -> computes ct sl (ws1 ++ ws2) (c1 ;;; c2).
Proof.
  unfold computes. intros -> ->. rewrite first_wanted_app.
  by destruct (first_wanted ct ws1 sl).
Qed.

Lemma computes_when ct sl (b : bool) ws c :
  computes ct sl ws c -> computes ct sl (if b then ws else []) (when b c).
Proof. by destruct b. Qed.

Lemma computes_fallthrough ct sl w ws c :
  computes ct sl ws c -> computes ct sl (Sub w :: ws) (find_sub ct w sl ;;; c).
Proof. apply (computes_seq ct sl [Sub w]), computes_sub. Qed.

#[local] Hint Resolve computes_nil computes_sub computes_raw computes_when
  computes_fallthrough : cstmt.

Lemma fb_ppc64_computes sl cs :
  computes CPU_TYPE_POWERPC64 sl (preferences CPU_TYPE_POWERPC64 cs)
    (fb_ppc64 sl CPU_TYPE_POWERPC64 cs).
Proof.
  unfold preferences, fb_ppc64, fb_ppc64_default, one_of; simpl.
  rewrite orb_false_r. destruct (_ || _); auto with cstmt.
Qed.

Lemma fb_ppc_computes sl cs :
  computes CPU_TYPE_POWERPC sl (prefer_ppc (msub cs)) (fb_ppc sl CPU_TYPE_POWERPC cs).
Proof.
  unfold prefer_ppc, fb_ppc, fb_ppc_7450_7400, fb_ppc_750_603, fb_ppc_default, one_of,
    altivec, ppc_603_up; simpl.
  repeat match goal with |- context [msub cs =? ?w] =>
    destruct (msub cs =? w); simpl; auto 12 with cstmt end.
Qed.

Lemma fb_veo_computes sl cs :
  computes CPU_TYPE_VEO sl (prefer_veo (msub cs)) (fb_veo sl CPU_TYPE_VEO cs).
Proof.
  unfold prefer_veo, fb_veo, fb_veo_4.
  assert (H : computes CPU_TYPE_VEO sl [Sub CPU_SUBTYPE_VEO_2; Sub CPU_SUBTYPE_VEO_3]
    (find_sub CPU_TYPE_VEO CPU_SUBTYPE_VEO_2 sl ;;;
     find_sub CPU_TYPE_VEO CPU_SUBTYPE_VEO_3 sl ;;;
     find_sub CPU_TYPE_VEO CPU_SUBTYPE_VEO_2 sl)).
  { destruct (find_sub _ CPU_SUBTYPE_VEO_2 sl) as [r|] eqn:H2.
    - cbn [seq_ret].
      change (Some r) with (Some r ;;; find_sub CPU_TYPE_VEO CPU_SUBTYPE_VEO_3 sl).
      rewrite <- H2. auto with cstmt.
    - rewrite seq_ret_None_l, seq_ret_None_r.
      rewrite <- (seq_ret_None_l (find_sub _ _ sl)), <- H2. auto with cstmt. }
  repeat match goal with |- context [msub cs =? ?w] =>
    destruct (msub cs =? w); simpl; auto with cstmt end.
Qed.

(** A guarded loop of the ARM case, skipped for this subtype. *)
Lemma computes_skip ct sl ws (c1 : option Z) c2 :
  c1 = None -> computes ct sl ws c2 -> computes ct sl ws (c1 ;;; c2).
Proof. by intros ->. Qed.

Lemma computes_raw_then ct sl w ws c :
  computes ct sl ws c -> computes ct sl (Raw w :: ws) (find_raw ct w sl ;;; c).
Proof. apply (computes_seq ct sl [Raw w]), computes_raw. Qed.

#[local] Hint Resolve computes_raw_then : cstmt.

Lemma fb_arm_computes sl cs :
  computes CPU_TYPE_ARM sl (prefer_arm cs) (fb_arm sl CPU_TYPE_ARM cs).
Proof.
  unfold prefer_arm, arm_common, fb_arm, fb_arm64.
  repeat match goal with
  | |- context [cs =? ?w] =>
      destruct (Z.eqb_spec cs w) as [->|];
      [eval_eqb; unfold when; simpl; auto 20 with cstmt|]
  end.
  unfold when; simpl. auto 20 with cstmt.
Qed.

Lemma fb_i386_computes sl cs :
  fb_i386 sl CPU_TYPE_I386 cs =
    ((ret_index <$> first_wanted CPU_TYPE_I386 (prefer_i386 (msub cs)) sl) ;;;
     fb_i386_lowest sl CPU_TYPE_I386).
Proof.
  assert (H : computes CPU_TYPE_I386 sl (prefer_i386 (msub cs))
    (fb_i386_switch sl CPU_TYPE_I386 cs ;;;
     find_sub CPU_TYPE_I386 CPU_SUBTYPE_I386_ALL sl ;;;
     find_sub CPU_TYPE_I386 CPU_SUBTYPE_486 sl ;;;
     find_sub CPU_TYPE_I386 CPU_SUBTYPE_486SX sl ;;;
     find_sub CPU_TYPE_I386 CPU_SUBTYPE_586 sl)).
  { unfold prefer_i386. rewrite fmap_app. apply computes_seq; [|simpl; auto with cstmt].
    unfold fb_i386_switch, one_of; simpl.
    repeat match goal with |- context [msub cs =? ?w] =>
      destruct (Z.eqb_spec (msub cs) w) as [Heq|];
        rewrite ?Heq; eval_eqb; simpl; auto with cstmt end. }
  unfold computes in H. rewrite <- H. unfold fb_i386. by rewrite !seq_ret_assoc.
Qed.

Lemma fb_mc680x0_computes sl cs :
  computes CPU_TYPE_MC680x0 sl (preferences CPU_TYPE_MC680x0 cs)
    (fb_mc680x0 sl CPU_TYPE_MC680x0 cs).
Proof.
  unfold preferences, fb_mc680x0, when. eval_eqb.
  destruct (msub cs =? CPU_SUBTYPE_MC680x0_ALL); simpl;
    rewrite ?seq_ret_None_r; auto with cstmt.
Qed.

(** Every case but the i386 one computes its preferences; the default one
    returns -1 at once and has none. *)
Lemma fb_switch_computes sl ct cs :
  ct <> CPU_TYPE_I386 ->
  default (-1) (fb_switch sl ct cs) =
    default (-1) (ret_index <$> first_wanted ct (preferences ct cs) sl).
Proof.
  intros Hne.
  assert (Hc : computes ct sl (preferences ct cs) (fb_switch sl ct cs) \/
    (preferences ct cs = [] /\ fb_switch sl ct cs = Some (-1))).
  2: { destruct Hc as [->|[-> ->]]; done. }
  unfold fb_switch.
  destruct (Z.eqb_spec ct CPU_TYPE_POWERPC64) as [->|].
  { left. apply fb_ppc64_computes. }
  destruct (Z.eqb_spec ct CPU_TYPE_X86_64) as [->|].
  { left. apply computes_sub. }
  destruct (Z.eqb_spec ct CPU_TYPE_I386) as [->|]; [done|].
  destruct (Z.eqb_spec ct CPU_TYPE_MC680x0) as [->|].
  { left. apply fb_mc680x0_computes. }
  destruct (Z.eqb_spec ct CPU_TYPE_POWERPC) as [->|].
  { left. apply fb_ppc_computes. }
  destruct (Z.eqb_spec ct CPU_TYPE_VEO) as [->|].
  { left. apply fb_veo_computes. }
  destruct (Z.eqb_spec ct CPU_TYPE_MC88000) as [->|]; [left; apply computes_sub|].
  destruct (Z.eqb_spec ct CPU_TYPE_I860) as [->|]; [left; apply computes_sub|].
  destruct (Z.eqb_spec ct CPU_TYPE_HPPA) as [->|]; [left; apply computes_sub|].
  destruct (Z.eqb_spec ct CPU_TYPE_SPARC) as [->|]; [left; apply computes_sub|].
  destruct (Z.eqb_spec ct CPU_TYPE_ARM) as [->|].
  { left. apply fb_arm_computes. }
  destruct (Z.eqb_spec ct CPU_TYPE_ARM64) as [->|]; [left; apply computes_sub|].
  right. split; [|done]. unfold preferences, one_of; simpl.
  repeat match goal with H : ct <> _ |- _ => apply Z.eqb_neq in H; rewrite ?H; clear H end.
  done.
Qed.

Lemma findbestarch_spec (ct : cpu_type_t) (cs : cpu_subtype_t)
    (fat_archs : list fat_arch) (fat_archs64 : option (list fat_arch_64)) (n : nat) :
  internal_cpusubtype_findbestarch ct cs fat_archs fat_archs64 n
    = best_spec (slices fat_archs fat_archs64 n) ct cs.
Proof.
  unfold internal_cpusubtype_findbestarch. generalize (slices fat_archs fat_archs64 n).
  intros sl. unfold findbestarch_slices, best_spec.
  change (Sub (msub cs) :: preferences ct cs) with ([Sub (msub cs)] ++ preferences ct cs).
  rewrite first_wanted_app.
  assert (Hex : fb_exact sl ct cs = ret_index <$> first_wanted ct [Sub (msub cs)] sl).
  { unfold fb_exact, for_slices. simpl. by destruct find_index. }
  rewrite Hex. destruct (first_wanted ct [Sub (msub cs)] sl) as [i|]; [done|].
  cbn [fmap option_fmap option_map seq_ret].
  destruct (Z.eqb_spec ct CPU_TYPE_I386) as [->|Hne].
  - unfold fb_switch, preferences. eval_eqb. rewrite fb_i386_computes.
    by destruct first_wanted.
  - rewrite fb_switch_computes by done. by destruct first_wanted.
Qed.

(** ** Where the comments of best_arch.c say something else

    [documented_veo] and [documented_arm] are the lists of the comments (lines
    562 to 567 and 688 to 699), [None] for a subtype the comment does not
    mention.  The code does not follow them everywhere. *)
Definition documented_veo (s : Z) : list want :=
  Sub <$>
    if one_of s [CPU_SUBTYPE_VEO_1; CPU_SUBTYPE_VEO_3] then [CPU_SUBTYPE_VEO_2]
    else if s =? CPU_SUBTYPE_VEO_4 then [CPU_SUBTYPE_VEO_3; CPU_SUBTYPE_VEO_2]
    else [].

Definition documented_arm (cs : Z) : option (list want) :=
  (fun l : list Z => Raw <$> l) <$>
    (if cs =? CPU_SUBTYPE_ARM_V4T then Some [CPU_SUBTYPE_ARM_V4T; CPU_SUBTYPE_ARM_ALL]
    else if cs =? CPU_SUBTYPE_ARM_V5TEJ then
      Some [CPU_SUBTYPE_ARM_V5TEJ; CPU_SUBTYPE_ARM_V4T; CPU_SUBTYPE_ARM_ALL]
    else if cs =? CPU_SUBTYPE_ARM_XSCALE then
      Some [CPU_SUBTYPE_ARM_XSCALE; CPU_SUBTYPE_ARM_V4T; CPU_SUBTYPE_ARM_ALL]
    else if cs =? CPU_SUBTYPE_ARM_V6 then
      Some [CPU_SUBTYPE_ARM_V7; CPU_SUBTYPE_ARM_V6; CPU_SUBTYPE_ARM_V5TEJ;
            CPU_SUBTYPE_ARM_V4T; CPU_SUBTYPE_ARM_ALL]
    else if cs =? CPU_SUBTYPE_ARM_ALL then
      Some [CPU_SUBTYPE_ARM_V6; CPU_SUBTYPE_ARM_V5TEJ; CPU_SUBTYPE_ARM_XSCALE;
            CPU_SUBTYPE_ARM_V4T; CPU_SUBTYPE_ARM_ALL]
    else None).

(** For every VEO subtype but VEO1 the code chooses what the comment says. *)
Lemma documented_veo_followed (cs : Z) (sl : list slice) :
  msub cs <> CPU_SUBTYPE_VEO_1 ->
  first_wanted CPU_TYPE_VEO (Sub (msub cs) :: documented_veo (msub cs)) sl =
  first_wanted CPU_TYPE_VEO (Sub (msub cs) :: prefer_veo (msub cs)) sl.
Proof.
  intros H1%Z.eqb_neq. unfold documented_veo, prefer_veo, one_of. cbn [existsb].
  rewrite H1. destruct (Z.eqb_spec (msub cs) CPU_SUBTYPE_VEO_3) as [->|]; [|done].
  cbn. by repeat case_match.
Qed.

(** For VEO1 the case has no [break]: a VEO3 slice is taken too, though by the
    comment only VEO2 can be used. *)
Lemma veo_1_falls_through :
  first_wanted CPU_TYPE_VEO (Sub CPU_SUBTYPE_VEO_1 :: documented_veo CPU_SUBTYPE_VEO_1)
    [(CPU_TYPE_VEO, CPU_SUBTYPE_VEO_3)] = None /\
  findbestarch_slices [(CPU_TYPE_VEO, CPU_SUBTYPE_VEO_3)] CPU_TYPE_VEO CPU_SUBTYPE_VEO_1 = 0.
Proof. by vm_compute. Qed.

(** For v4t, v5 and xscale the code chooses what the comment says when there
    is no v6m, v7m, v7em slice and no ALL slice with feature flags. *)
Lemma documented_arm_followed (cs : Z) (ws : list want) (sl : list slice) :
  cs ∈ [CPU_SUBTYPE_ARM_V4T; CPU_SUBTYPE_ARM_V5TEJ; CPU_SUBTYPE_ARM_XSCALE] ->
  documented_arm cs = Some ws ->
  (forall st, (CPU_TYPE_ARM, st) ∈ sl ->
     st ∉ [CPU_SUBTYPE_ARM_V6M; CPU_SUBTYPE_ARM_V7M; CPU_SUBTYPE_ARM_V7EM] /\
     (msub st = CPU_SUBTYPE_ARM_ALL -> st = CPU_SUBTYPE_ARM_ALL)) ->
  first_wanted CPU_TYPE_ARM ws sl = first_wanted CPU_TYPE_ARM (prefer_arm cs) sl.
Proof.
  intros Hcs Hws Hsl.
  assert (Hno : forall w, w ∈ [CPU_SUBTYPE_ARM_V6M; CPU_SUBTYPE_ARM_V7M; CPU_SUBTYPE_ARM_V7EM] ->
    find_index (fun s => (s.1 =? CPU_TYPE_ARM) && (s.2 =? w)) sl = None).
  { intros w Hw. apply find_index_None. intros [ct st] Hin. simpl.
    destruct (Z.eqb_spec ct CPU_TYPE_ARM) as [->|]; [|done].
    destruct (Hsl st Hin) as [Hst _]. destruct (Z.eqb_spec st w) as [->|]; done. }
  assert (Hall : find_index (fun s => (s.1 =? CPU_TYPE_ARM) &&
      (msub s.2 =? CPU_SUBTYPE_ARM64_ALL)) sl =
    find_index (fun s => (s.1 =? CPU_TYPE_ARM) && (s.2 =? CPU_SUBTYPE_ARM_ALL)) sl).
  { apply find_index_ext. intros [ct st] Hin. simpl.
    destruct (Z.eqb_spec ct CPU_TYPE_ARM) as [->|]; [|done]. simpl.
    destruct (Hsl st Hin) as [_ Hst].
    destruct (Z.eqb_spec st CPU_SUBTYPE_ARM_ALL) as [->|Hne]; [done|].
    apply Z.eqb_neq. intros H. by apply Hne, Hst. }
  rewrite !elem_of_cons, elem_of_nil in Hcs.
  pose proof (Hno CPU_SUBTYPE_ARM_V6M ltac:(repeat constructor)) as H6.
  pose proof (Hno CPU_SUBTYPE_ARM_V7M ltac:(repeat constructor)) as H7.
  pose proof (Hno CPU_SUBTYPE_ARM_V7EM ltac:(repeat constructor)) as H7e. clear Hno Hsl.
  destruct_or!; subst cs; revert Hws; unfold documented_arm, prefer_arm, arm_common; eval_eqb;
    intros [= <-]; cbn [fmap list_fmap app first_wanted wants];
    rewrite H6, H7, H7e, Hall; by repeat case_match.
Qed.

(** The rest differs.  A v6 host never takes the v7 slice its line names
    first; ALL prefers v7s, v7f and v7; and every ARM host accepts a v6m, v7m
    or v7em slice, and takes it before an ALL slice; last, the case falls
    through into that of ARM64, whose test ignores the feature flags, so that
    an ALL slice with flags is taken as well. *)
Lemma arm_comment_not_followed :
  let arm st := (CPU_TYPE_ARM, st) in
  let chosen cs sts := findbestarch_slices (arm <$> sts) CPU_TYPE_ARM cs in
  let documented cs sts := ws ← documented_arm cs; first_wanted CPU_TYPE_ARM ws (arm <$> sts) in
  (documented CPU_SUBTYPE_ARM_V6 [CPU_SUBTYPE_ARM_V7] = Some 0%nat /\
   chosen CPU_SUBTYPE_ARM_V6 [CPU_SUBTYPE_ARM_V7] = -1) /\
  (documented CPU_SUBTYPE_ARM_V6 [CPU_SUBTYPE_ARM_V6; CPU_SUBTYPE_ARM_V7] = Some 1%nat /\
   chosen CPU_SUBTYPE_ARM_V6 [CPU_SUBTYPE_ARM_V6; CPU_SUBTYPE_ARM_V7] = 0) /\
  (documented CPU_SUBTYPE_ARM_ALL [CPU_SUBTYPE_ARM_V6; CPU_SUBTYPE_ARM_V7] = Some 0%nat /\
   chosen CPU_SUBTYPE_ARM_ALL [CPU_SUBTYPE_ARM_V6; CPU_SUBTYPE_ARM_V7] = 1) /\
  (documented CPU_SUBTYPE_ARM_V5TEJ [CPU_SUBTYPE_ARM_ALL; CPU_SUBTYPE_ARM_V7M] = Some 0%nat /\
   chosen CPU_SUBTYPE_ARM_V5TEJ [CPU_SUBTYPE_ARM_ALL; CPU_SUBTYPE_ARM_V7M] = 1) /\
  (documented CPU_SUBTYPE_ARM_V4T [-2 ^ 31] = None /\
   chosen CPU_SUBTYPE_ARM_V4T [-2 ^ 31] = 0).
Proof. by vm_compute. Qed.


(** ** What the result is *)

Lemma ret_index_id i : Z.of_nat i < 2 ^ 31 -> ret_index i = Z.of_nat i.
Proof. intros. apply sw_id; [lia|]. unfold in_sw. simpl. lia. Qed.

Lemma first_wanted_Some ct ws sl i :
  first_wanted ct ws sl = Some i ->
  exists st w, sl !! i = Some (ct, st) /\ w ∈ ws /\ wants w st = true.
Proof.
  induction ws as [|w ws IH]; simpl; [done|].
  destruct_find as j Hj.
  - intros [= <-]. apply find_index_Some in Hj as [([ct' st] & Hst & Hp) _].
    simpl in Hp. bool_to_prop. subst. exists st, w. split_and!; [done|by left|done].
  - intros (st & w' & ? & ? & ?)%IH. exists st, w'. split_and!; [done|by right|done].
Qed.

Lemma first_wanted_None ct ws sl :
  first_wanted ct ws sl = None <->
  (forall w st, w ∈ ws -> (ct, st) ∈ sl -> wants w st = false).
Proof.
  induction ws as [|w ws IH]; simpl.
  - split; [|done]. intros _ w st H. by apply elem_of_nil in H.
  - destruct_find as j Hj.
    + split; [done|]. intros H. apply find_index_Some in Hj as [([ct' st] & Hst & Hp) _].
      simpl in Hp. bool_to_prop. subst. rewrite (H w st) in *; [done|by left|].
      by eapply list_elem_of_lookup_2.
    + rewrite IH. rewrite find_index_None in Hj. split.
      * intros H w' st [->|Hin]%elem_of_cons Hst; [|eauto].
        specialize (Hj _ Hst). simpl in Hj. by rewrite Z.eqb_refl in Hj.
      * intros H w' st Hin Hst. apply H; [by right|done].
Qed.

(** The slice [j] is an i386 one of the lowest family, and of the lowest model
    of that family. *)
Definition lowest_i386 (sl : list slice) (j : nat) : Prop :=
  exists s, sl !! j = Some (CPU_TYPE_I386, s) /\
  forall s', (CPU_TYPE_I386, s') ∈ sl ->
    CPU_SUBTYPE_INTEL_FAMILY (msub s) < CPU_SUBTYPE_INTEL_FAMILY (msub s') \/
    (CPU_SUBTYPE_INTEL_FAMILY (msub s) = CPU_SUBTYPE_INTEL_FAMILY (msub s') /\
     CPU_SUBTYPE_INTEL_MODEL (msub s) <= CPU_SUBTYPE_INTEL_MODEL (msub s')).

Lemma fb_i386_lowest_spec sl :
  (fb_i386_lowest sl CPU_TYPE_I386 = Some (-1) /\
     forall s, (CPU_TYPE_I386, s) ∉ sl) \/
  (exists j, fb_i386_lowest sl CPU_TYPE_I386 = Some (ret_index j) /\ lowest_i386 sl j).
Proof.
  unfold fb_i386_lowest. set (ct := CPU_TYPE_I386).
  pose proof (lowest_family_fold ct sl (CPU_SUBTYPE_INTEL_FAMILY_MAX + 1)) as
    (Hle & Hall & Hex). fold (lowest_family sl ct) in *.
  destruct (Z.eqb_spec (lowest_family sl ct) (CPU_SUBTYPE_INTEL_FAMILY_MAX + 1)) as [Heq|Hne].
  - left. split; [done|]. intros s Hin. specialize (Hall _ Hin). rewrite Heq in Hall.
    pose proof (intel_family_range (msub s)). unfold CPU_SUBTYPE_INTEL_FAMILY_MAX in *. lia.
  - destruct Hex as [?|(s0 & Hin0 & Hf0)]; [done|right].
    unfold lowest_model_index.
    pose proof (model_inv_fold ct (lowest_family sl ct) LONG_MAX sl []
      (O, LONG_MAX, u32 (-1))) as Hfold. simpl app in Hfold.
    destruct (fold_left _ sl _) as [[i m] idx].
    destruct Hfold as [_ [(_ & _ & Hno)|(j & s & -> & Hj & Hf & -> & Hmin)]].
    { unfold LONG_MAX. lia. }
    { split; [done|left]. split_and!; [done..|]. intros s H. by apply elem_of_nil in H. }
    { by edestruct Hno. }
    exists j. split; [done|]. exists s. split; [done|]. intros s' Hs'.
    rewrite Hf. specialize (Hall _ Hs').
    destruct (decide (CPU_SUBTYPE_INTEL_FAMILY (msub s') = lowest_family sl ct)) as [He|];
      [right|left; lia]. split; [lia|]. by apply Hmin.
Qed.

(** Whatever is returned is -1 or a slice of the wanted cputype. *)
Lemma best_spec_sound sl ct cs :
  best_spec sl ct cs = -1 \/
  exists i st, best_spec sl ct cs = ret_index i /\ sl !! i = Some (ct, st) /\
    ((exists w, w ∈ Sub (msub cs) :: preferences ct cs /\ wants w st = true) \/
     (ct = CPU_TYPE_I386 /\ lowest_i386 sl i)).
Proof.
  unfold best_spec. destruct (first_wanted _ _ sl) as [i|] eqn:Hi.
  - right. apply first_wanted_Some in Hi as (st & w & ? & ? & ?). exists i, st. eauto 7.
  - destruct (Z.eqb_spec ct CPU_TYPE_I386) as [->|]; [|by left].
    destruct (fb_i386_lowest_spec sl) as [[-> _]|(j & -> & Hj)]; [by left|right].
    destruct (Hj) as (s & Hs & _). exists j, s. eauto.
Qed.

(** ** What a caller of [cpusubtype_findbestarch] can rely on *)

Lemma slices_lookup archs n i s :
  slices archs None n !! i = Some s <->
  (i < n)%nat /\ exists a, archs !! i = Some a /\ fat_arch_slice a = s.
Proof.
  unfold slices. rewrite lookup_take_Some, list_lookup_fmap, fmap_Some. split.
  - intros [(a & Ha & ->) Hlt]. eauto.
  - intros (Hlt & a & Ha & <-). eauto.
Qed.

Lemma slices_64_lookup archs64 n i s :
  slices [] (Some archs64) n !! i = Some s <->
  (i < n)%nat /\ exists a, archs64 !! i = Some a /\ fat_arch_64_slice a = s.
Proof.
  unfold slices. rewrite lookup_take_Some, list_lookup_fmap, fmap_Some. split.
  - intros [(a & Ha & ->) Hlt]. eauto.
  - intros (Hlt & a & Ha & <-). eauto.
Qed.

(** The pointer returned for an index below [2 ^ 31]. *)
Lemma findbestarch_at archs n ct cs i a :
  Z.of_nat n < 2 ^ 31 -> (i < n)%nat -> archs !! i = Some a ->
  internal_cpusubtype_findbestarch ct cs archs None n = ret_index i ->
  cpusubtype_findbestarch ct cs archs n = Some a.
Proof.
  intros Hn Hi Ha Hr. unfold cpusubtype_findbestarch. rewrite Hr, ret_index_id by lia.
  destruct (Z.eqb_spec (Z.of_nat i) (-1)); [lia|]. by rewrite Nat2Z.id.
Qed.

(** If some slice has the wanted cputype and, feature flags aside, the
    wanted cpusubtype, [cpusubtype_findbestarch] succeeds and returns the
    first such slice. *)
Theorem findbestarch_exact_first (ct : Z) (cs : Z) (archs : list fat_arch) (n : nat) :
  Z.of_nat n < 2 ^ 31 ->
  (exists i a, (i < n)%nat /\ archs !! i = Some a /\
     fat_arch_cputype a = ct /\ msub (fat_arch_cpusubtype a) = msub cs) ->
  exists i a, cpusubtype_findbestarch ct cs archs n = Some a /\
    archs !! i = Some a /\ (i < n)%nat /\
    fat_arch_cputype a = ct /\ msub (fat_arch_cpusubtype a) = msub cs /\
    (forall j b, (j < i)%nat -> archs !! j = Some b ->
       ~ (fat_arch_cputype b = ct /\ msub (fat_arch_cpusubtype b) = msub cs)).
Proof.
  intros Hn (i0 & a0 & Hi0 & Ha0 & Hct0 & Hcs0).
  pose (sl := slices archs None n).
  assert (Hex : fb_exact sl ct cs <> None).
  { rewrite fb_exact_None. intros H. apply (H (fat_arch_cpusubtype a0)); [|done].
    apply (list_elem_of_lookup_2 _ i0), slices_lookup. split; [done|].
    exists a0. unfold fat_arch_slice. by rewrite Hct0. }
  unfold fb_exact, for_slices in Hex. fold sl in Hex.
  revert Hex. destruct_find as i Hfind; [intros _|done].
  pose proof Hfind as Hi.
  apply find_index_Some in Hi as [([ct' st] & Hs & Hp) Hfirst]. simpl in Hp. bool_to_prop.
  apply slices_lookup in Hs as (Hlt & a & Ha & Hsl). inversion Hsl; subst ct' st.
  exists i, a. split_and!; auto.
  - eapply findbestarch_at; eauto.
    unfold internal_cpusubtype_findbestarch, findbestarch_slices, fb_exact, for_slices.
    fold sl. by rewrite Hfind.
  - intros j b Hj Hb [Hbt Hbs].
    assert (Hsj : sl !! j = Some (fat_arch_slice b)) by (apply slices_lookup; eauto with lia).
    specialize (Hfirst _ _ Hj Hsj). simpl in Hfirst.
    by rewrite Hbt, Hbs, !Z.eqb_refl in Hfirst.
Qed.

Definition demo_arch (ct cs : Z) : fat_arch :=
  {| fat_arch_cputype := ct; fat_arch_cpusubtype := cs; fat_arch_offset := 4096;
     fat_arch_size := 64; fat_arch_align := 12 |}.

Lemma findbestarch_exact_first_witness :
  exists i a,
    cpusubtype_findbestarch CPU_TYPE_X86_64 CPU_SUBTYPE_X86_64_H
      [demo_arch CPU_TYPE_I386 3; demo_arch CPU_TYPE_X86_64 8] 2 = Some a /\
    [demo_arch CPU_TYPE_I386 3; demo_arch CPU_TYPE_X86_64 8] !! i = Some a /\
    (i < 2)%nat /\ fat_arch_cputype a = CPU_TYPE_X86_64 /\
    msub (fat_arch_cpusubtype a) = msub CPU_SUBTYPE_X86_64_H /\
    (forall j b, (j < i)%nat ->
       [demo_arch CPU_TYPE_I386 3; demo_arch CPU_TYPE_X86_64 8] !! j = Some b ->
       ~ (fat_arch_cputype b = CPU_TYPE_X86_64 /\
          msub (fat_arch_cpusubtype b) = msub CPU_SUBTYPE_X86_64_H)).
Proof.
  apply findbestarch_exact_first; [simpl; lia|].
  exists 1%nat, (demo_arch CPU_TYPE_X86_64 8). split_and!; [lia|reflexivity..].
Defined.

(** the pointer [cpusubtype_findbestarch_64] returns is to one of the
    first [nfat_archs] structs and that struct has the requested cputype: the
    selection never returns an index out of range, nor a slice of another
    cputype; and when no struct has that cputype the result is NULL. *)
Theorem findbestarch_64_sound (ct cs : Z) (archs64 : list fat_arch_64) (n : nat) :
  Z.of_nat n < 2 ^ 31 -> (n <= length archs64)%nat ->
  match cpusubtype_findbestarch_64 ct cs archs64 n with
  | Some a => exists i, (i < n)%nat /\ archs64 !! i = Some a /\ fat_arch_64_cputype a = ct
  | None => internal_cpusubtype_findbestarch ct cs [] (Some archs64) n = -1
  end /\
  ((forall i a, (i < n)%nat -> archs64 !! i = Some a -> fat_arch_64_cputype a <> ct) ->
   cpusubtype_findbestarch_64 ct cs archs64 n = None).
Proof.
  intros Hn Hlen. unfold cpusubtype_findbestarch_64.
  rewrite findbestarch_spec.
  destruct (best_spec_sound (slices [] (Some archs64) n) ct cs)
    as [->|(i & st & -> & Hi & _)]; [done|].
  apply slices_64_lookup in Hi as (Hlt & a & Ha & Hsl). inversion Hsl; subst.
  rewrite ret_index_id by lia. destruct (Z.eqb_spec (Z.of_nat i) (-1)); [lia|].
  rewrite Nat2Z.id, Ha. split; [eauto|]. intros H. by destruct (H i a).
Qed.

Lemma findbestarch_64_sound_witness :
  match cpusubtype_findbestarch_64 CPU_TYPE_ARM64 CPU_SUBTYPE_ARM64_ALL [] 0 with
  | Some a => exists i, (i < 0)%nat /\ ([] : list fat_arch_64) !! i = Some a /\
      fat_arch_64_cputype a = CPU_TYPE_ARM64
  | None => internal_cpusubtype_findbestarch CPU_TYPE_ARM64 CPU_SUBTYPE_ARM64_ALL []
      (Some []) 0 = -1
  end /\
  ((forall i a, (i < 0)%nat -> ([] : list fat_arch_64) !! i = Some a ->
      fat_arch_64_cputype a <> CPU_TYPE_ARM64) ->
   cpusubtype_findbestarch_64 CPU_TYPE_ARM64 CPU_SUBTYPE_ARM64_ALL [] 0 = None).
Proof. apply findbestarch_64_sound; simpl; lia. Defined.

(** For a host cpusubtype whose slices offer no exact match and none of
    386/ALL, 486, 486SX and 586 (Pentium), the i386 selection returns a slice
    of the lowest family, and of the lowest model of that family; it returns
    -1 only when there is no i386 slice at all. *)
Theorem findbestarch_i386_lowest (cs : Z) (archs : list fat_arch) (n : nat) :
  Z.of_nat n < 2 ^ 31 ->
  (forall st, (CPU_TYPE_I386, st) ∈ slices archs None n ->
     msub st <> msub cs /\ msub st <> CPU_SUBTYPE_I386_ALL /\ msub st <> CPU_SUBTYPE_486 /\
     msub st <> CPU_SUBTYPE_486SX /\ msub st <> CPU_SUBTYPE_586) ->
  (exists st, (CPU_TYPE_I386, st) ∈ slices archs None n) ->
  exists i, internal_cpusubtype_findbestarch CPU_TYPE_I386 cs archs None n = Z.of_nat i /\
    lowest_i386 (slices archs None n) i.
Proof.
  intros Hn Hnone (st0 & Hin0). rewrite findbestarch_spec.
  set (sl := slices archs None n) in *.
  assert (Hw : first_wanted CPU_TYPE_I386
    (Sub (msub cs) :: preferences CPU_TYPE_I386 cs) sl = None).
  { apply first_wanted_None. intros w st Hw Hst.
    destruct (Hnone st Hst) as (He & H1 & H2 & H3 & H4).
    apply Z.eqb_neq in He, H1, H2, H3, H4.
    apply elem_of_cons in Hw as [->|Hw]; [done|].
    unfold preferences in Hw. revert Hw. eval_eqb. unfold prefer_i386.
    intros (w' & -> & Hw)%list_elem_of_fmap. simpl.
    repeat match type of Hw with context [if ?b then _ else _] => destruct b end;
      simpl in Hw;
      rewrite !elem_of_cons, elem_of_nil in Hw; destruct_or!; subst; done. }
  unfold best_spec. rewrite Hw. eval_eqb.
  destruct (fb_i386_lowest_spec sl) as [[_ Hno]|(j & -> & Hj)]; [by destruct (Hno st0)|].
  exists j. split; [|done]. simpl. apply ret_index_id.
  destruct Hj as (s & Hs & _). apply slices_lookup in Hs as [? _]. lia.
Qed.

Lemma findbestarch_i386_lowest_witness :
  exists i, internal_cpusubtype_findbestarch CPU_TYPE_I386 CPU_SUBTYPE_PENTIUM_4
      [demo_arch CPU_TYPE_I386 CPU_SUBTYPE_PENTII_M5;
       demo_arch CPU_TYPE_I386 CPU_SUBTYPE_PENTPRO] None 2 = Z.of_nat i /\
    lowest_i386 (slices [demo_arch CPU_TYPE_I386 CPU_SUBTYPE_PENTII_M5;
       demo_arch CPU_TYPE_I386 CPU_SUBTYPE_PENTPRO] None 2) i.
Proof.
  apply findbestarch_i386_lowest; [simpl; lia| |].
  - intros st H. cbn in H. rewrite !elem_of_cons, elem_of_nil in H.
    destruct H as [[= ->]|[[= ->]|[]]]; vm_compute; repeat split; discriminate.
  - exists CPU_SUBTYPE_PENTPRO. cbn. right. left.
Defined.

(** ** The chosen slice can be executed *)

Lemma execute_exact ct h e : msub h = msub e -> cpusubtype_execute ct h e = true.
Proof. intros H. unfold cpusubtype_execute. by rewrite H, Z.eqb_refl. Qed.

Lemma one_of_In x l : one_of x l = true <-> x ∈ l.
Proof.
  unfold one_of. rewrite existsb_exists. split.
  - intros (y & Hy & ->%Z.eqb_eq). by apply list_elem_of_In.
  - intros Hx%list_elem_of_In. exists x. by rewrite Z.eqb_refl.
Qed.

Lemma execute_ppc_sub h e e' :
  msub e = msub e' -> execute_ppc h e = execute_ppc h e'.
Proof. unfold execute_ppc. by intros ->. Qed.

(** Every preference of a PowerPC host that is not the ALL type runs on it. *)
Lemma prefer_ppc_execute h e w :
  msub h <> CPU_SUBTYPE_POWERPC_ALL -> w ∈ prefer_ppc (msub h) -> wants w e = true ->
  execute_ppc h e = true.
Proof.
  intros Hall Hw Hwants. unfold prefer_ppc in Hw.
  apply list_elem_of_fmap in Hw as (s & -> & Hs). simpl in Hwants. apply Z.eqb_eq in Hwants.
  unfold execute_ppc. rewrite Hwants. clear e Hwants. unfold one_of, altivec, ppc_603_up in *.
  apply Z.eqb_neq in Hall. revert Hs. simpl. rewrite Hall. simpl.
  repeat match goal with |- context [msub h =? ?w] =>
    destruct (Z.eqb_spec (msub h) w) as [Heq|]; rewrite ?Heq; eval_eqb; simpl end;
  rewrite !elem_of_cons, elem_of_nil; intros; destruct_or!; subst; done.
Qed.

(** C25: the slice the selection returns can run.  For a PowerPC, 88k, HP-PA or
    SPARC host, whose cpusubtype is not the ALL type, [cpusubtype_execute] says
    that the host executes the cpusubtype of whatever slice
    [cpusubtype_findbestarch] picked. *)
Theorem findbestarch_executes (ct cs : Z) (archs : list fat_arch) (n : nat) (a : fat_arch) :
  Z.of_nat n < 2 ^ 31 ->
  ct ∈ [CPU_TYPE_POWERPC; CPU_TYPE_MC88000; CPU_TYPE_HPPA; CPU_TYPE_SPARC] ->
  (ct = CPU_TYPE_POWERPC -> msub cs <> CPU_SUBTYPE_POWERPC_ALL) ->
  cpusubtype_findbestarch ct cs archs n = Some a ->
  cpusubtype_execute ct cs (fat_arch_cpusubtype a) = true.
Proof.
  intros Hn Hct Hall. unfold cpusubtype_findbestarch.
  rewrite findbestarch_spec.
  destruct (best_spec_sound (slices archs None n) ct cs)
    as [->|(i & st & -> & Hi & Hw)]; [done|].
  apply slices_lookup in Hi as (Hlt & b & Hb & Hsl). injection Hsl as Hbt Hbs.
  rewrite ret_index_id by lia. destruct (Z.eqb_spec (Z.of_nat i) (-1)); [lia|].
  rewrite Nat2Z.id, Hb. intros [= <-]. rewrite Hbs.
  destruct Hw as [(w & Hw & Hwants)|[-> _]].
  2: { rewrite !elem_of_cons, elem_of_nil in Hct. by destruct_or!. }
  apply elem_of_cons in Hw as [->|Hw].
  { apply execute_exact. simpl in Hwants. bool_to_prop. congruence. }
  unfold cpusubtype_execute. destruct (Z.eqb_spec (msub cs) (msub st)); [done|].
  unfold execute_switch. rewrite !elem_of_cons, elem_of_nil in Hct.
  destruct_or!; subst ct; eval_eqb; [by eapply prefer_ppc_execute; eauto| | |];
    (apply list_elem_of_singleton in Hw as ->; simpl in Hwants;
     unfold execute_mc88000, execute_hppa, execute_sparc, one_of; bool_to_prop; rewrite Hwants;
     repeat case_match; done).
Qed.

Lemma findbestarch_executes_witness :
  cpusubtype_execute CPU_TYPE_POWERPC CPU_SUBTYPE_POWERPC_7400
    (fat_arch_cpusubtype (demo_arch CPU_TYPE_POWERPC CPU_SUBTYPE_POWERPC_604e)) = true.
Proof.
  apply (findbestarch_executes CPU_TYPE_POWERPC CPU_SUBTYPE_POWERPC_7400
    [demo_arch CPU_TYPE_POWERPC CPU_SUBTYPE_POWERPC_970;
     demo_arch CPU_TYPE_POWERPC CPU_SUBTYPE_POWERPC_604e] 2).
  - simpl. lia.
  - left.
  - intros _. vm_compute. discriminate.
  - vm_compute. reflexivity.
Defined.
