(* ===== verification/CpuCombineSpec.v ===== *)
(** * Properties of cpusubtype_combine

    Symmetry, idempotence, the ARM combinability matrix of the comment in
    libstuff/best_arch.c, and soundness with respect to [cpusubtype_execute]. *)

From Stdlib Require Import ZArith Lia Bool.
From stdpp Require Import base list option numbers.
From S2P Require Import Prelude CInt CpuTypes CpuCombine.

(** Splits every test of a [combine_*] definition, with the subtypes named. *)
Ltac split_tests :=
  unfold when; simpl;
  repeat (match goal with
  | |- context [?x =? ?y] =>
      is_var x; destruct (Z.eqb_spec x y); [subst x; eval_eqb; simpl|simpl]
  | |- context [?x <? ?y] => destruct (Z.ltb_spec x y)
  end; try (exfalso; congruence); try done).

Section symmetric.
Variables (a b : cpu_subtype_t).

Lemma combine_mc680x0_sym : combine_mc680x0 a b = combine_mc680x0 b a.
Proof. unfold combine_mc680x0. generalize (msub a) (msub b). intros x y. split_tests. Qed.
Lemma combine_veo_sym : combine_veo a b = combine_veo b a.
Proof. unfold combine_veo. generalize (msub a) (msub b). intros x y. split_tests. Qed.
Lemma combine_mc88000_sym : combine_mc88000 a b = combine_mc88000 b a.
Proof. unfold combine_mc88000. generalize (msub a) (msub b). intros x y. split_tests. Qed.
Lemma combine_i860_sym : combine_i860 a b = combine_i860 b a.
Proof. unfold combine_i860. generalize (msub a) (msub b). intros x y. split_tests. Qed.
Lemma combine_hppa_sym : combine_hppa a b = combine_hppa b a.
Proof. unfold combine_hppa. generalize (msub a) (msub b). intros x y. split_tests. Qed.
Lemma combine_sparc_sym : combine_sparc a b = combine_sparc b a.
Proof. unfold combine_sparc. generalize (msub a) (msub b). intros x y. split_tests. Qed.
Lemma combine_arm64_sym : combine_arm64 a b = combine_arm64 b a.
Proof. unfold combine_arm64. generalize (msub a) (msub b). intros x y. split_tests. Qed.
End symmetric.

(** The two greater-than cases differ only when the subtypes are equal. *)
Lemma combine_ppc_sym a b :
  msub a <> msub b ->
  msub (default NO_SUBTYPE (combine_ppc a b)) = msub (default NO_SUBTYPE (combine_ppc b a)).
Proof.
  intros Hne. unfold combine_ppc, when, CPU_SUBTYPE_POWERPC_ALL, CPU_SUBTYPE_POWERPC_601.
  destruct (Z.eqb_spec (msub a) 0), (Z.eqb_spec (msub b) 0); simpl; try congruence.
  rewrite (orb_comm (msub a =? 1)).
  destruct (_ || _); simpl; [done|].
  destruct (Z.ltb_spec (msub b) (msub a)), (Z.ltb_spec (msub a) (msub b)); simpl; lia.
Qed.

Lemma combine_ppc64_sym a b :
  msub a <> msub b ->
  msub (default NO_SUBTYPE (combine_ppc64 a b)) = msub (default NO_SUBTYPE (combine_ppc64 b a)).
Proof.
  intros Hne. unfold combine_ppc64, when, CPU_SUBTYPE_POWERPC_ALL.
  destruct (Z.eqb_spec (msub a) 0), (Z.eqb_spec (msub b) 0); simpl; try congruence.
  destruct (Z.ltb_spec (msub b) (msub a)), (Z.ltb_spec (msub a) (msub b)); simpl; lia.
Qed.

Lemma combine_switch_sym ct a b :
  ct <> CPU_TYPE_ARM -> msub a <> msub b ->
  msub (default NO_SUBTYPE (combine_switch a b ct))
    = msub (default NO_SUBTYPE (combine_switch b a ct)).
Proof.
  intros Hne%Z.eqb_neq Hab. unfold combine_switch. rewrite Hne. cbv iota.
  repeat match goal with |- context [if ?b then _ else _] => destruct b end;
    auto using combine_ppc_sym, combine_ppc64_sym; do 2 f_equal;
    auto using combine_mc680x0_sym, combine_veo_sym, combine_mc88000_sym, combine_i860_sym,
      combine_hppa_sym, combine_sparc_sym, combine_arm64_sym.
Qed.

Lemma default_seq_ret {R} (r : R) (c1 c2 : option R) :
  default r (c1 ;;; c2) = default (default r c2) c1.
Proof. by destruct c1. Qed.

(** Combining is symmetric.  For every cputype but ARM, the order in
    which two objects are given does not matter: [cpusubtype_combine] gives the
    same cpusubtype, feature flags aside, or -1 both ways. *)
Theorem combine_symmetric (ct a b : Z) :
  ct <> CPU_TYPE_ARM ->
  msub (cpusubtype_combine ct a b) = msub (cpusubtype_combine ct b a).
Proof.
  intros Hct. unfold cpusubtype_combine, cpusubtype_combine_stmts.
  rewrite !default_seq_ret. cbn [default]. rewrite (orb_comm (a =? _)).
  destruct (_ && _); [done|]. destruct (_ || _); [done|]. simpl.
  rewrite (Z.eqb_sym (msub b)). destruct (Z.eqb_spec (msub a) (msub b)); simpl; [done|].
  by apply combine_switch_sym.
Qed.

Lemma combine_symmetric_witness :
  CPU_TYPE_POWERPC <> CPU_TYPE_ARM /\
  msub (cpusubtype_combine CPU_TYPE_POWERPC CPU_SUBTYPE_POWERPC_603 CPU_SUBTYPE_POWERPC_970)
  = msub (cpusubtype_combine CPU_TYPE_POWERPC CPU_SUBTYPE_POWERPC_970 CPU_SUBTYPE_POWERPC_603).
Proof.
  split; [vm_compute; discriminate|].
  apply (combine_symmetric CPU_TYPE_POWERPC). vm_compute. discriminate.
Defined.

(** Combining two objects of the same cpusubtype.  The result is that
    cpusubtype, as the comment says, except on Intel: there it is the ALL type,
    and two Haswell objects are refused. *)
Theorem combine_same (ct a b : Z) :
  msub a = msub b ->
  cpusubtype_combine ct a b =
    if (ct =? CPU_TYPE_X86_64) && ((a =? CPU_SUBTYPE_X86_64_H) || (b =? CPU_SUBTYPE_X86_64_H))
    then -1
    else if (ct =? CPU_TYPE_I386) || (ct =? CPU_TYPE_X86_64) then CPU_SUBTYPE_I386_ALL
    else a.
Proof.
  intros H. unfold cpusubtype_combine, cpusubtype_combine_stmts.
  rewrite H, Z.eqb_refl, !default_seq_ret.
  destruct (_ && _); [done|]. by destruct (_ || _).
Qed.

Lemma combine_same_witness :
  msub CPU_SUBTYPE_X86_64_H = msub CPU_SUBTYPE_X86_64_H /\
  cpusubtype_combine CPU_TYPE_X86_64 CPU_SUBTYPE_X86_64_H CPU_SUBTYPE_X86_64_H = -1.
Proof.
  split; [reflexivity|].
  apply (combine_same CPU_TYPE_X86_64 CPU_SUBTYPE_X86_64_H CPU_SUBTYPE_X86_64_H).
  reflexivity.
Defined.

(** ** The ARM matrix *)

Definition arm_implementations : list Z :=
  [CPU_SUBTYPE_ARM_V4T; CPU_SUBTYPE_ARM_V5TEJ; CPU_SUBTYPE_ARM_XSCALE;
   CPU_SUBTYPE_ARM_V6; CPU_SUBTYPE_ARM_V7].

(** The rows and columns of the comment's matrix for these five: the higher of
    the two on the chain V4T, V5, V6, V7; XSCALE combines with V4T only. *)
Definition arm_rank (a : Z) : Z :=
  if a =? CPU_SUBTYPE_ARM_V4T then 0 else if a =? CPU_SUBTYPE_ARM_V5TEJ then 1
  else if a =? CPU_SUBTYPE_ARM_V6 then 2 else 3.

Definition arm_matrix (a b : Z) : Z :=
  if a =? b then a
  else if a =? CPU_SUBTYPE_ARM_XSCALE then
    if b =? CPU_SUBTYPE_ARM_V4T then CPU_SUBTYPE_ARM_XSCALE else -1
  else if b =? CPU_SUBTYPE_ARM_XSCALE then
    if a =? CPU_SUBTYPE_ARM_V4T then CPU_SUBTYPE_ARM_XSCALE else -1
  else if arm_rank a <? arm_rank b then b else a.

(** [cpusubtype_combine] agrees with the ARM combinability matrix on every
    pair of specific subtypes but one: for a V6 object followed by a V7 one it
    gives V6, where the matrix (and the same pair the other way round) gives
    V7.  The ALL subtype is an identity of the combination, where the matrix
    has it absorb the other one. *)
Theorem combine_arm_matrix (a b : Z) :
  a ∈ arm_implementations -> b ∈ arm_implementations ->
  (cpusubtype_combine CPU_TYPE_ARM a b = arm_matrix a b <->
     ~ (a = CPU_SUBTYPE_ARM_V6 /\ b = CPU_SUBTYPE_ARM_V7)) /\
  cpusubtype_combine CPU_TYPE_ARM CPU_SUBTYPE_ARM_V6 CPU_SUBTYPE_ARM_V7 = CPU_SUBTYPE_ARM_V6 /\
  cpusubtype_combine CPU_TYPE_ARM CPU_SUBTYPE_ARM_V7 CPU_SUBTYPE_ARM_V6 = CPU_SUBTYPE_ARM_V7 /\
  cpusubtype_combine CPU_TYPE_ARM a CPU_SUBTYPE_ARM_ALL = a /\
  cpusubtype_combine CPU_TYPE_ARM CPU_SUBTYPE_ARM_ALL a = a.
Proof.
  unfold arm_implementations. rewrite !elem_of_cons, !elem_of_nil. intros Ha Hb.
  destruct_or!; subst; split_and!; try (vm_compute; reflexivity);
    (split; [intros H [? ?]; vm_compute in *; discriminate|]);
    intros H; first [vm_compute; reflexivity | by destruct H].
Qed.

Lemma combine_arm_matrix_witness :
  (cpusubtype_combine CPU_TYPE_ARM CPU_SUBTYPE_ARM_V5TEJ CPU_SUBTYPE_ARM_V7
     = arm_matrix CPU_SUBTYPE_ARM_V5TEJ CPU_SUBTYPE_ARM_V7 <->
     ~ (CPU_SUBTYPE_ARM_V5TEJ = CPU_SUBTYPE_ARM_V6 /\
        CPU_SUBTYPE_ARM_V7 = CPU_SUBTYPE_ARM_V7)) /\
  cpusubtype_combine CPU_TYPE_ARM CPU_SUBTYPE_ARM_V6 CPU_SUBTYPE_ARM_V7 = CPU_SUBTYPE_ARM_V6 /\
  cpusubtype_combine CPU_TYPE_ARM CPU_SUBTYPE_ARM_V7 CPU_SUBTYPE_ARM_V6 = CPU_SUBTYPE_ARM_V7 /\
  cpusubtype_combine CPU_TYPE_ARM CPU_SUBTYPE_ARM_V5TEJ CPU_SUBTYPE_ARM_ALL
    = CPU_SUBTYPE_ARM_V5TEJ /\
  cpusubtype_combine CPU_TYPE_ARM CPU_SUBTYPE_ARM_ALL CPU_SUBTYPE_ARM_V5TEJ
    = CPU_SUBTYPE_ARM_V5TEJ.
Proof.
  apply (combine_arm_matrix CPU_SUBTYPE_ARM_V5TEJ CPU_SUBTYPE_ARM_V7).
  - right. left.
  - do 4 right. left.
Defined.

(** ** Combining and executing *)

(** The PowerPC subtypes with a rank: what runs everywhere, what needs AltiVec,
    what needs the 64-bit instructions too.  601 is left out. *)
Definition ppc_rank (s : Z) : option Z :=
  if s =? CPU_SUBTYPE_POWERPC_ALL then Some 0
  else if (CPU_SUBTYPE_POWERPC_602 <=? s) && (s <=? CPU_SUBTYPE_POWERPC_750) then Some 1
  else if (s =? CPU_SUBTYPE_POWERPC_7400) || (s =? CPU_SUBTYPE_POWERPC_7450) then Some 2
  else if s =? CPU_SUBTYPE_POWERPC_970 then Some 3
  else None.

(** The ranks of the subtypes a host executes form an initial segment. *)
Definition ppc_host_rank (h : Z) : option Z :=
  if h =? CPU_SUBTYPE_POWERPC_601 then Some 1 else ppc_rank h.

Lemma ppc_rank_inv s r :
  ppc_rank s = Some r ->
  s ∈ [0; 2; 3; 4; 5; 6; 7; 8; 9; 10; 11; 100].
Proof.
  unfold ppc_rank, CPU_SUBTYPE_POWERPC_ALL, CPU_SUBTYPE_POWERPC_602, CPU_SUBTYPE_POWERPC_750,
    CPU_SUBTYPE_POWERPC_7400, CPU_SUBTYPE_POWERPC_7450, CPU_SUBTYPE_POWERPC_970.
  rewrite !elem_of_cons, elem_of_nil.
  destruct (Z.eqb_spec s 0); [auto|].
  destruct (Z.leb_spec 2 s), (Z.leb_spec s 9); simpl;
    repeat (match goal with |- context [s =? ?y] => destruct (Z.eqb_spec s y) end; simpl);
    try discriminate; intros _; lia.
Qed.

Definition ppc_hosts : list Z := [0; 1; 2; 3; 4; 5; 6; 7; 8; 9; 10; 11; 100].

(** A subtype outside that list fails every test made of it. *)
Lemma not_ppc_host z w :
  one_of z ppc_hosts = false -> one_of w ppc_hosts = true -> (z =? w) = false.
Proof. intros Hz Hw. apply Z.eqb_neq. intros ->. congruence. Qed.

Lemma ppc_rank_host s r : ppc_rank s = Some r -> one_of s ppc_hosts = true.
Proof.
  intros Hs%ppc_rank_inv. rewrite !elem_of_cons, elem_of_nil in Hs. by destruct_or!; subst.
Qed.

Definition execute_ppc_on (z x : Z) : bool := if z =? x then true else execute_ppc z x.

(** What a PowerPC host runs, in terms of ranks. *)
Lemma execute_ppc_rank h e r :
  ppc_rank (msub e) = Some r ->
  cpusubtype_execute CPU_TYPE_POWERPC h e = (r <=? default 0 (ppc_host_rank (msub h))).
Proof.
  intros Hr. change (cpusubtype_execute CPU_TYPE_POWERPC h e) with
    (if msub h =? msub e then true else execute_ppc h e).
  assert (Heq : execute_ppc h e = execute_ppc (msub h) (msub e)).
  { unfold execute_ppc. by rewrite !msub_msub. }
  rewrite Heq. fold (execute_ppc_on (msub h) (msub e)). clear Heq. revert Hr.
  generalize (msub_msub e). generalize (msub_msub h). generalize (msub e) (msub h).
  intros x z Hz Hx Hr. pose proof (ppc_rank_inv _ _ Hr) as Hin.
  destruct (one_of z ppc_hosts) eqn:Hhost.
  - assert (Hall : forallb (fun z => forallb (fun x => match ppc_rank x with
        | Some r => eqb (execute_ppc_on z x) (r <=? default 0 (ppc_host_rank z))
        | None => false end) [0; 2; 3; 4; 5; 6; 7; 8; 9; 10; 11; 100]) ppc_hosts = true)
      by (vm_compute; reflexivity).
    rewrite forallb_forall in Hall.
    unfold one_of in Hhost. apply existsb_exists in Hhost as (z' & Hz' & ->%Z.eqb_eq).
    specialize (Hall _ Hz'). rewrite forallb_forall in Hall.
    specialize (Hall x (proj1 (list_elem_of_In _ _) Hin)). rewrite Hr in Hall.
    by apply eqb_prop.
  - pose proof (fun w => not_ppc_host z w Hhost) as Hno.
    unfold execute_ppc_on. rewrite (Hno x) by by eapply ppc_rank_host.
    unfold execute_ppc. rewrite Hz, Hx.
    assert (Hrank : ppc_host_rank z = None).
    { unfold ppc_host_rank. rewrite Hno by reflexivity.
      destruct (ppc_rank z) as [k|] eqn:Hk; [|done].
      apply ppc_rank_host in Hk. congruence. }
    rewrite Hrank. unfold one_of. simpl.
    repeat match goal with |- context [z =? ?w] => rewrite (Hno w) by reflexivity end. simpl.
    rewrite !elem_of_cons, elem_of_nil in Hin.
    destruct_or!; subst; vm_compute in Hr; injection Hr as <-; reflexivity.
Qed.

Lemma combine_ppc_rank a b ra rb :
  ppc_rank (msub a) = Some ra -> ppc_rank (msub b) = Some rb ->
  ppc_rank (msub (cpusubtype_combine CPU_TYPE_POWERPC a b)) = Some (Z.max ra rb).
Proof.
  intros Ha Hb.
  assert (Hc : cpusubtype_combine CPU_TYPE_POWERPC a b =
    if (msub a =? msub b) then a else if msub a =? 0 then b else if msub b =? 0 then a
    else if (msub a =? 1) || (msub b =? 1) then 1
    else if msub b <? msub a then a else b).
  { unfold cpusubtype_combine, cpusubtype_combine_stmts, combine_switch, combine_ppc,
      CPU_SUBTYPE_POWERPC_ALL, CPU_SUBTYPE_POWERPC_601. eval_eqb.
    unfold when. by repeat match goal with |- context [if ?b then _ else _] => destruct b end. }
  assert (Hm : msub (cpusubtype_combine CPU_TYPE_POWERPC a b) =
    cpusubtype_combine CPU_TYPE_POWERPC (msub a) (msub b)).
  { rewrite Hc. unfold cpusubtype_combine, cpusubtype_combine_stmts, combine_switch, combine_ppc,
      CPU_SUBTYPE_POWERPC_ALL, CPU_SUBTYPE_POWERPC_601. eval_eqb. rewrite !msub_msub.
    unfold when. by repeat match goal with |- context [if ?b then _ else _] => destruct b end. }
  rewrite Hm. clear Hc Hm.
  pose proof (ppc_rank_inv _ _ Ha) as Hina. pose proof (ppc_rank_inv _ _ Hb) as Hinb.
  revert Ha Hb Hina Hinb. generalize (msub a) (msub b). clear a b. intros x y Hx Hy Hina Hinb.
  assert (Hall : forallb (fun x => forallb (fun y => match ppc_rank x, ppc_rank y with
      | Some rx, Some ry => bool_decide (
          ppc_rank (cpusubtype_combine CPU_TYPE_POWERPC x y) = Some (Z.max rx ry))
      | _, _ => false end) [0; 2; 3; 4; 5; 6; 7; 8; 9; 10; 11; 100])
      [0; 2; 3; 4; 5; 6; 7; 8; 9; 10; 11; 100] = true) by (vm_compute; reflexivity).
  rewrite forallb_forall in Hall. specialize (Hall x (proj1 (list_elem_of_In _ _) Hina)).
  rewrite forallb_forall in Hall. specialize (Hall y (proj1 (list_elem_of_In _ _) Hinb)).
  rewrite Hx, Hy in Hall. by apply bool_decide_eq_true in Hall.
Qed.

(** the combined subtype protects both objects.  For known PowerPC
    subtypes other than 601, a host that [cpusubtype_execute] allows to run the
    combined cpusubtype is allowed to run each of the two that were combined:
    the linked image is never marked as runnable where one of its parts is
    not. *)
Theorem combine_ppc_sound (a b h : Z) :
  ppc_rank (msub a) <> None -> ppc_rank (msub b) <> None ->
  cpusubtype_execute CPU_TYPE_POWERPC h (cpusubtype_combine CPU_TYPE_POWERPC a b) = true ->
  cpusubtype_execute CPU_TYPE_POWERPC h a = true /\
  cpusubtype_execute CPU_TYPE_POWERPC h b = true.
Proof.
  destruct (ppc_rank (msub a)) as [ra|] eqn:Ha; [|done].
  destruct (ppc_rank (msub b)) as [rb|] eqn:Hb; [|done]. intros _ _.
  rewrite (execute_ppc_rank _ _ _ (combine_ppc_rank _ _ _ _ Ha Hb)).
  rewrite (execute_ppc_rank _ _ _ Ha), (execute_ppc_rank _ _ _ Hb), !Z.leb_le. lia.
Qed.

Lemma combine_ppc_sound_witness :
  cpusubtype_execute CPU_TYPE_POWERPC CPU_SUBTYPE_POWERPC_970 CPU_SUBTYPE_POWERPC_750 = true /\
  cpusubtype_execute CPU_TYPE_POWERPC CPU_SUBTYPE_POWERPC_970 CPU_SUBTYPE_POWERPC_7400 = true.
Proof.
  apply (combine_ppc_sound CPU_SUBTYPE_POWERPC_750 CPU_SUBTYPE_POWERPC_7400
    CPU_SUBTYPE_POWERPC_970).
  - vm_compute. discriminate.
  - vm_compute. discriminate.
  - vm_compute. reflexivity.
Defined.
