(* ===== verification/NXArch.v ===== *)
(** * libmacho/arch.c: the NXArchInfo table and its lookups

    [ArchInfoTable] row by row, the lookups by name and by cputype, the
    description [NXGetArchInfoFromCpuType] makes up for an Intel or PowerPC
    subtype it has no row for, and [NXFreeArchInfo].  A pointer into the table
    and a pointer to a [malloc]ed struct are told apart, because
    [NXFreeArchInfo] has to. *)

From Stdlib Require Import ZArith Lia Bool.
From stdpp Require Import base list option numbers strings.
From S2P Require Import Prelude CInt CpuTypes ArchTable.

Open Scope string_scope.
Open Scope Z_scope.

(** ** Data *)

Inductive NXByteOrder := NX_UnknownByteOrder | NX_LittleEndian | NX_BigEndian.

#[export] Instance NXByteOrder_eq_dec : EqDecision NXByteOrder.
Proof. solve_decision. Defined.

(** [name] and [description] are [None] where the pointer is NULL. *)
Record NXArchInfo := {
  ai_name : option string;
  ai_cputype : cpu_type_t;
  ai_cpusubtype : cpu_subtype_t;
  ai_byteorder : NXByteOrder;
  ai_description : option string
}.

#[export] Instance NXArchInfo_eq_dec : EqDecision NXArchInfo.
Proof. solve_decision. Defined.

Definition arch_info (name : string) (ct : cpu_type_t) (st : cpu_subtype_t)
    (bo : NXByteOrder) (descr : string) : NXArchInfo :=
  {| ai_name := Some name; ai_cputype := ct; ai_cpusubtype := st; ai_byteorder := bo;
     ai_description := Some descr |}.

Definition ArchInfoTable : list NXArchInfo := [
  arch_info "hppa" CPU_TYPE_HPPA CPU_SUBTYPE_HPPA_ALL NX_BigEndian
    "HP-PA";
  arch_info "i386" CPU_TYPE_I386 CPU_SUBTYPE_I386_ALL NX_LittleEndian
    "Intel 80x86";
  arch_info "x86_64" CPU_TYPE_X86_64 CPU_SUBTYPE_X86_64_ALL NX_LittleEndian
    "Intel x86-64";
  arch_info "x86_64h" CPU_TYPE_X86_64 CPU_SUBTYPE_X86_64_H NX_LittleEndian
    "Intel x86-64h Haswell";
  arch_info "i860" CPU_TYPE_I860 CPU_SUBTYPE_I860_ALL NX_BigEndian
    "Intel 860";
  arch_info "m68k" CPU_TYPE_MC680x0 CPU_SUBTYPE_MC680x0_ALL NX_BigEndian
    "Motorola 68K";
  arch_info "m88k" CPU_TYPE_MC88000 CPU_SUBTYPE_MC88000_ALL NX_BigEndian
    "Motorola 88K";
  arch_info "ppc" CPU_TYPE_POWERPC CPU_SUBTYPE_POWERPC_ALL NX_BigEndian
    "PowerPC";
  arch_info "ppc64" CPU_TYPE_POWERPC64 CPU_SUBTYPE_POWERPC_ALL NX_BigEndian
    "PowerPC 64-bit";
  arch_info "sparc" CPU_TYPE_SPARC CPU_SUBTYPE_SPARC_ALL NX_BigEndian
    "SPARC";
  arch_info "arm" CPU_TYPE_ARM CPU_SUBTYPE_ARM_ALL NX_LittleEndian
    "ARM";
  arch_info "arm64" CPU_TYPE_ARM64 CPU_SUBTYPE_ARM64_ALL NX_LittleEndian
    "ARM64";
  arch_info "arm64_32" CPU_TYPE_ARM64_32 CPU_SUBTYPE_ARM64_32_V8 NX_LittleEndian
    "ARM64_32";
  arch_info "arm64e" CPU_TYPE_ARM64 CPU_SUBTYPE_ARM64E NX_LittleEndian
    "ARM64E";
  arch_info "any" CPU_TYPE_ANY CPU_SUBTYPE_MULTIPLE NX_UnknownByteOrder
    "Architecture Independent";
  arch_info "veo" CPU_TYPE_VEO CPU_SUBTYPE_VEO_ALL NX_BigEndian
    "veo";
  arch_info "hppa7100LC" CPU_TYPE_HPPA CPU_SUBTYPE_HPPA_7100LC NX_BigEndian
    "HP-PA 7100LC";
  arch_info "m68030" CPU_TYPE_MC680x0 CPU_SUBTYPE_MC68030_ONLY NX_BigEndian
    "Motorola 68030";
  arch_info "m68040" CPU_TYPE_MC680x0 CPU_SUBTYPE_MC68040 NX_BigEndian
    "Motorola 68040";
  arch_info "i486" CPU_TYPE_I386 CPU_SUBTYPE_486 NX_LittleEndian
    "Intel 80486";
  arch_info "i486SX" CPU_TYPE_I386 CPU_SUBTYPE_486SX NX_LittleEndian
    "Intel 80486SX";
  arch_info "pentium" CPU_TYPE_I386 CPU_SUBTYPE_PENT NX_LittleEndian
    "Intel Pentium";
  arch_info "i586" CPU_TYPE_I386 CPU_SUBTYPE_586 NX_LittleEndian
    "Intel 80586";
  arch_info "pentpro" CPU_TYPE_I386 CPU_SUBTYPE_PENTPRO NX_LittleEndian
    "Intel Pentium Pro";
  arch_info "i686" CPU_TYPE_I386 CPU_SUBTYPE_PENTPRO NX_LittleEndian
    "Intel Pentium Pro";
  arch_info "pentIIm3" CPU_TYPE_I386 CPU_SUBTYPE_PENTII_M3 NX_LittleEndian
    "Intel Pentium II Model 3";
  arch_info "pentIIm5" CPU_TYPE_I386 CPU_SUBTYPE_PENTII_M5 NX_LittleEndian
    "Intel Pentium II Model 5";
  arch_info "pentium4" CPU_TYPE_I386 CPU_SUBTYPE_PENTIUM_4 NX_LittleEndian
    "Intel Pentium 4";
  arch_info "x86_64h" CPU_TYPE_I386 CPU_SUBTYPE_X86_64_H NX_LittleEndian
    "Intel x86-64h Haswell";
  arch_info "ppc601" CPU_TYPE_POWERPC CPU_SUBTYPE_POWERPC_601 NX_BigEndian
    "PowerPC 601";
  arch_info "ppc603" CPU_TYPE_POWERPC CPU_SUBTYPE_POWERPC_603 NX_BigEndian
    "PowerPC 603";
  arch_info "ppc603e" CPU_TYPE_POWERPC CPU_SUBTYPE_POWERPC_603e NX_BigEndian
    "PowerPC 603e";
  arch_info "ppc603ev" CPU_TYPE_POWERPC CPU_SUBTYPE_POWERPC_603ev NX_BigEndian
    "PowerPC 603ev";
  arch_info "ppc604" CPU_TYPE_POWERPC CPU_SUBTYPE_POWERPC_604 NX_BigEndian
    "PowerPC 604";
  arch_info "ppc604e" CPU_TYPE_POWERPC CPU_SUBTYPE_POWERPC_604e NX_BigEndian
    "PowerPC 604e";
  arch_info "ppc750" CPU_TYPE_POWERPC CPU_SUBTYPE_POWERPC_750 NX_BigEndian
    "PowerPC 750";
  arch_info "ppc7400" CPU_TYPE_POWERPC CPU_SUBTYPE_POWERPC_7400 NX_BigEndian
    "PowerPC 7400";
  arch_info "ppc7450" CPU_TYPE_POWERPC CPU_SUBTYPE_POWERPC_7450 NX_BigEndian
    "PowerPC 7450";
  arch_info "ppc970" CPU_TYPE_POWERPC CPU_SUBTYPE_POWERPC_970 NX_BigEndian
    "PowerPC 970";
  arch_info "ppc970-64" CPU_TYPE_POWERPC64 CPU_SUBTYPE_POWERPC_970 NX_BigEndian
    "PowerPC 970 64-bit";
  arch_info "armv4t" CPU_TYPE_ARM CPU_SUBTYPE_ARM_V4T NX_LittleEndian
    "arm v4t";
  arch_info "armv5" CPU_TYPE_ARM CPU_SUBTYPE_ARM_V5TEJ NX_LittleEndian
    "arm v5";
  arch_info "xscale" CPU_TYPE_ARM CPU_SUBTYPE_ARM_XSCALE NX_LittleEndian
    "arm xscale";
  arch_info "armv6" CPU_TYPE_ARM CPU_SUBTYPE_ARM_V6 NX_LittleEndian
    "arm v6";
  arch_info "armv6m" CPU_TYPE_ARM CPU_SUBTYPE_ARM_V6M NX_LittleEndian
    "arm v6m";
  arch_info "armv7" CPU_TYPE_ARM CPU_SUBTYPE_ARM_V7 NX_LittleEndian
    "arm v7";
  arch_info "armv7f" CPU_TYPE_ARM CPU_SUBTYPE_ARM_V7F NX_LittleEndian
    "arm v7f";
  arch_info "armv7s" CPU_TYPE_ARM CPU_SUBTYPE_ARM_V7S NX_LittleEndian
    "arm v7s";
  arch_info "armv7k" CPU_TYPE_ARM CPU_SUBTYPE_ARM_V7K NX_LittleEndian
    "arm v7k";
  arch_info "armv7m" CPU_TYPE_ARM CPU_SUBTYPE_ARM_V7M NX_LittleEndian
    "arm v7m";
  arch_info "armv7em" CPU_TYPE_ARM CPU_SUBTYPE_ARM_V7EM NX_LittleEndian
    "arm v7em";
  arch_info "armv8" CPU_TYPE_ARM CPU_SUBTYPE_ARM_V8 NX_LittleEndian
    "arm v8";
  arch_info "arm64" CPU_TYPE_ARM64 CPU_SUBTYPE_ARM64_V8 NX_LittleEndian
    "arm64 v8";
  arch_info "little" CPU_TYPE_ANY CPU_SUBTYPE_LITTLE_ENDIAN NX_LittleEndian
    "Little Endian";
  arch_info "big" CPU_TYPE_ANY CPU_SUBTYPE_BIG_ENDIAN NX_BigEndian
    "Big Endian";
  arch_info "veo1" CPU_TYPE_VEO CPU_SUBTYPE_VEO_1 NX_BigEndian
    "veo 1";
  arch_info "veo2" CPU_TYPE_VEO CPU_SUBTYPE_VEO_2 NX_BigEndian
    "veo 2";
  {| ai_name := None; ai_cputype := 0; ai_cpusubtype := 0;
     ai_byteorder := NX_UnknownByteOrder; ai_description := None |}
].

(** ** Operations *)

Definition NXGetAllArchInfos : list NXArchInfo := ArchInfoTable.

(** [for(ai = ArchInfoTable; ai->name != NULL; ai++) if(p(ai)) return(ai);],
    with the index of the row the pointer is at. *)
Fixpoint scan_infos (p : NXArchInfo -> bool) (l : list NXArchInfo) : option nat :=
  match l with
  | [] => None
  | ai :: l' =>
      match ai_name ai with
      | None => None
      | Some _ => if p ai then Some O else S <$> scan_infos p l'
      end
  end.

(** A non-NULL [NXArchInfo *]: into the table, or to a struct of its own. *)
Inductive ArchInfoPtr :=
  | InTable (row : nat)
  | OnHeap (ai : NXArchInfo).

(** The two blocks [NXGetArchInfoFromCpuType] allocates. *)
Inductive block := StructBlock | DescriptionBlock.

#[export] Instance block_eq_dec : EqDecision block.
Proof. solve_decision. Defined.

(** What a call does: return NULL or a pointer, with the blocks it allocated
    and did not free, or behave in an undefined way: write through the NULL an
    unchecked [malloc] gave, or go on with [*q] never written. *)
Inductive lookup_result :=
  | Returns (p : option ArchInfoPtr) (live : list block)
  | Undefined.

Definition NXGetArchInfoFromName (name : string) : option ArchInfoPtr :=
  InTable <$> scan_infos (fun ai => bool_decide (ai_name ai = Some name)) ArchInfoTable.

(** The test of the first loop of [NXGetArchInfoFromCpuType]. *)
Definition info_matches (cputype : cpu_type_t) (cpusubtype : cpu_subtype_t)
    (ai : NXArchInfo) : bool :=
  (ai_cputype ai =? cputype) &&
  ((cpusubtype =? CPU_SUBTYPE_MULTIPLE) ||
   (msub (ai_cpusubtype ai) =? msub cpusubtype)).

(** [sizeof("Intel family  model ") + 2 + 8] and
    [sizeof("PowerPC cpusubtype ") + 10]; [sizeof] counts the final NUL. *)
Definition intel_buffer : Z :=
  Z.of_nat (String.length "Intel family  model ") + 1 + 2 + 8.
Definition ppc_buffer : Z :=
  Z.of_nat (String.length "PowerPC cpusubtype ") + 1 + 10.

Definition intel_description (cpusubtype : cpu_subtype_t) : string :=
  "Intel family " +:+ fmt_u (CPU_SUBTYPE_INTEL_FAMILY (msub cpusubtype)) +:+
  " model " +:+ fmt_u (CPU_SUBTYPE_INTEL_MODEL (msub cpusubtype)).

Definition ppc_description (cpusubtype : cpu_subtype_t) : string :=
  "PowerPC cpusubtype " +:+ fmt_u cpusubtype.

(** The part of the I386 and POWERPC branches they have in common: [*q] is
    the first row of the cputype with its own subtype and description.
    [struct_ok] and [description_ok] say whether the two [malloc]s succeed;
    only the second is checked. *)
Definition describe_unknown (struct_ok description_ok : bool) (cputype : cpu_type_t)
    (cpusubtype : cpu_subtype_t) (description : string) : lookup_result :=
  if negb struct_ok then Undefined
  else
    match scan_infos (fun ai => ai_cputype ai =? cputype) ArchInfoTable ≫= (ArchInfoTable !!.) with
    | None => Undefined
    | Some ai =>
        if negb description_ok then Returns None []
        else Returns (Some (OnHeap
          {| ai_name := ai_name ai; ai_cputype := ai_cputype ai;
             ai_cpusubtype := cpusubtype; ai_byteorder := ai_byteorder ai;
             ai_description := Some description |})) [StructBlock; DescriptionBlock]
    end.

Definition NXGetArchInfoFromCpuType (struct_ok description_ok : bool)
    (cputype : cpu_type_t) (cpusubtype : cpu_subtype_t) : lookup_result :=
  match scan_infos (info_matches cputype cpusubtype) ArchInfoTable with
  | Some row => Returns (Some (InTable row)) []
  | None =>
      if cputype =? CPU_TYPE_I386 then
        describe_unknown struct_ok description_ok cputype cpusubtype
          (intel_description cpusubtype)
      else if cputype =? CPU_TYPE_POWERPC then
        describe_unknown struct_ok description_ok cputype cpusubtype
          (ppc_description cpusubtype)
      else Returns None []
  end.

(** The blocks the call frees: none for a pointer into the table. *)
Definition NXFreeArchInfo (x : ArchInfoPtr) : list block :=
  match x with
  | InTable _ => []
  | OnHeap _ => [DescriptionBlock; StructBlock]
  end.

(** [host_user] and [host_basic] are what [host_info] answers for the
    preferred user architecture and for the basic one; [None] where it
    fails, and for [host_user] also where the flavour is not compiled in. *)
Definition NXGetLocalArchInfo (host_user host_basic : option (cpu_type_t * cpu_subtype_t))
    (struct_ok description_ok : bool) : lookup_result :=
  match (match host_user with Some t => Some t | None => host_basic end) with
  | None => Returns None []
  | Some (cputype, cpusubtype) =>
      NXGetArchInfoFromCpuType struct_ok description_ok cputype
        (if (cputype =? CPU_TYPE_MC680x0) && (cpusubtype =? CPU_SUBTYPE_MC680x0_ALL)
         then CPU_SUBTYPE_MC68030_ONLY else cpusubtype)
  end.

(** ** Lemmas about the scans *)

Lemma scan_infos_Some p l i :
  scan_infos p l = Some i ->
  exists ai, l !! i = Some ai /\ p ai = true /\ ai_name ai <> None.
Proof.
  revert i. induction l as [|ai l IH]; intros i; simpl; [done|].
  destruct (ai_name ai) eqn:Hn; [|done]. destruct (p ai) eqn:Hp.
  - intros [= <-]. exists ai. split_and!; [done|done|congruence].
  - intros (j & Hj & ->)%fmap_Some. apply IH in Hj as (aj & ? & ? & ?). by exists aj.
Qed.

Lemma scan_infos_hit p l i ai :
  l !! i = Some ai -> p ai = true ->
  (forall k ak, (k <= i)%nat -> l !! k = Some ak -> ai_name ak <> None) ->
  exists j, scan_infos p l = Some j /\ (j <= i)%nat.
Proof.
  revert l. induction i as [|i IH]; intros [|a l] Hi Hp Hn; try done.
  all: pose proof (Hn O a ltac:(lia) eq_refl); simpl in *; destruct (ai_name a); [|done].
  - injection Hi as ->. rewrite Hp. by exists O.
  - destruct (p a); [exists O; split; [done|lia]|].
    destruct (IH l Hi Hp) as (j & -> & Hj); [|exists (S j); split; [done|lia]].
    intros k ak Hk. apply (Hn (S k)). lia.
Qed.

(** A property of the rows of the table, checked by evaluation. *)
Definition all_infos (p : NXArchInfo -> bool) : bool := forallb p ArchInfoTable.

Lemma all_infos_lookup p i ai :
  all_infos p = true -> ArchInfoTable !! i = Some ai -> p ai = true.
Proof.
  unfold all_infos. rewrite forallb_forall. intros Hp Hi.
  apply Hp, list_elem_of_In. by eapply list_elem_of_lookup_2.
Qed.

(** Only the last row, the terminator, has no name. *)
Lemma named_row i ai :
  ArchInfoTable !! i = Some ai -> ai_name ai <> None ->
  forall k ak, (k <= i)%nat -> ArchInfoTable !! k = Some ak -> ai_name ak <> None.
Proof.
  intros Hi Hn.
  assert (Hlt : (i < 57)%nat).
  { pose proof (lookup_lt_Some _ _ _ Hi) as Hl.
    change (length ArchInfoTable) with 58%nat in Hl.
    destruct (decide (i = 57%nat)) as [->|]; [|lia]. by injection Hi as <-. }
  assert (Hall : forallb (fun ai => match ai_name ai with Some _ => true | None => false end)
    (take 57 ArchInfoTable) = true) by reflexivity.
  rewrite forallb_forall in Hall. intros k ak Hk Hak.
  assert (Hin : ak ∈ take 57 ArchInfoTable).
  { apply (list_elem_of_lookup_2 _ k). rewrite lookup_take_lt by lia. done. }
  apply list_elem_of_In, Hall in Hin. by destruct (ai_name ak).
Qed.

Lemma scan_infos_row p j :
  scan_infos p ArchInfoTable = Some j ->
  exists aj, ArchInfoTable !! j = Some aj /\ p aj = true /\ ai_name aj <> None.
Proof. apply scan_infos_Some. Qed.

(** The two ways [NXGetArchInfoFromCpuType] ends. *)
Lemma from_cpu_type_cases b1 b2 ct st :
  (exists j aj, NXGetArchInfoFromCpuType b1 b2 ct st = Returns (Some (InTable j)) [] /\
     ArchInfoTable !! j = Some aj /\ info_matches ct st aj = true) \/
  (scan_infos (info_matches ct st) ArchInfoTable = None /\
   NXGetArchInfoFromCpuType b1 b2 ct st =
     if ct =? CPU_TYPE_I386
     then describe_unknown b1 b2 ct st (intel_description st)
     else if ct =? CPU_TYPE_POWERPC
     then describe_unknown b1 b2 ct st (ppc_description st)
     else Returns None []).
Proof.
  unfold NXGetArchInfoFromCpuType.
  destruct (scan_infos _ ArchInfoTable) as [j|] eqn:Hj; [left|by right].
  apply scan_infos_row in Hj as (aj & ? & ? & _). by exists j, aj.
Qed.

(** The row of the family whose struct the unknown subtypes are copies of. *)
Lemma describe_unknown_family b2 ct st d ai :
  scan_infos (fun ai => ai_cputype ai =? ct) ArchInfoTable ≫= (ArchInfoTable !!.) = Some ai ->
  describe_unknown true b2 ct st d =
    if b2 then
      Returns (Some (OnHeap {| ai_name := ai_name ai; ai_cputype := ai_cputype ai;
        ai_cpusubtype := st; ai_byteorder := ai_byteorder ai; ai_description := Some d |}))
        [StructBlock; DescriptionBlock]
    else Returns None [].
Proof. intros H. unfold describe_unknown. simpl negb. cbv iota. rewrite H. by destruct b2. Qed.

Lemma intel_description_length st :
  (String.length (intel_description st) <= 29)%nat.
Proof.
  unfold intel_description. rewrite !length_string_app.
  pose proof (msub_range st) as Hm.
  assert (Hf : (String.length (fmt_u (CPU_SUBTYPE_INTEL_FAMILY (msub st))) <= 2)%nat).
  { apply (length_fmt_u_lt 2); [lia| |]; unfold CPU_SUBTYPE_INTEL_FAMILY;
      change 15 with (Z.ones 4); rewrite Z.land_ones by lia; simpl; div_lia. }
  assert (Hmod : (String.length (fmt_u (CPU_SUBTYPE_INTEL_MODEL (msub st))) <= 7)%nat).
  { apply (length_fmt_u_lt 7); [lia| |]; unfold CPU_SUBTYPE_INTEL_MODEL;
      rewrite Z.shiftr_div_pow2 by lia; simpl; div_lia. }
  simpl String.length in *. lia.
Qed.

(** ** Properties *)

(** Looking a row up by its types finds a row of the same cputype and of
    the same cpusubtype, at or before it in the table: every named row is
    reachable by its types up to aliases, and [malloc] plays no part in it. *)
Theorem nx_row_found_by_types (i : nat) (ai : NXArchInfo) (struct_ok description_ok : bool) :
  ArchInfoTable !! i = Some ai -> ai_name ai <> None ->
  exists j aj,
    NXGetArchInfoFromCpuType struct_ok description_ok (ai_cputype ai) (ai_cpusubtype ai)
      = Returns (Some (InTable j)) [] /\
    (j <= i)%nat /\ ArchInfoTable !! j = Some aj /\
    ai_cputype aj = ai_cputype ai /\
    (ai_cpusubtype ai = CPU_SUBTYPE_MULTIPLE \/ ai_cpusubtype aj = ai_cpusubtype ai).
Proof.
  intros Hi Hn.
  destruct (scan_infos_hit (info_matches (ai_cputype ai) (ai_cpusubtype ai)) ArchInfoTable i ai)
    as (j & Hj & Hle); [done| |by eapply named_row|].
  { unfold info_matches. rewrite !Z.eqb_refl. by rewrite orb_true_r. }
  unfold NXGetArchInfoFromCpuType. rewrite Hj.
  apply scan_infos_row in Hj as (aj & Haj & Hm & _). exists j, aj.
  unfold info_matches in Hm. bool_to_prop. split_and!; try done.
  destruct (orb_prop _ _ H0) as [Heq%Z.eqb_eq|Heq%Z.eqb_eq]; [by left|right].
  assert (Hplain : all_infos (fun a => (ai_cpusubtype a =? CPU_SUBTYPE_MULTIPLE) ||
    ((0 <=? ai_cpusubtype a) && (ai_cpusubtype a <? 2 ^ 16))) = true) by (vm_compute; done).
  pose proof (all_infos_lookup _ _ _ Hplain Hi) as Hpi.
  pose proof (all_infos_lookup _ _ _ Hplain Haj) as Hpj.
  cbv beta in Hpi, Hpj. rewrite !orb_true_iff, !andb_true_iff, !Z.eqb_eq, !Z.leb_le,
    !Z.ltb_lt in Hpi, Hpj.
  rewrite !msub_mod in Heq. unfold CPU_SUBTYPE_MULTIPLE in *.
  destruct Hpi as [Hpi|Hpi], Hpj as [Hpj|Hpj]; rewrite ?Hpi, ?Hpj in *; try done;
    [exfalso|exfalso|]; revert Heq; div_lia.
Qed.

Lemma nx_row_found_by_types_witness :
  exists j aj,
    NXGetArchInfoFromCpuType false false CPU_TYPE_ARM64 CPU_SUBTYPE_ARM64_V8
      = Returns (Some (InTable j)) [] /\
    (j <= 52)%nat /\ ArchInfoTable !! j = Some aj /\ ai_cputype aj = CPU_TYPE_ARM64 /\
    (CPU_SUBTYPE_ARM64_V8 = CPU_SUBTYPE_MULTIPLE \/ ai_cpusubtype aj = CPU_SUBTYPE_ARM64_V8).
Proof.
  apply (nx_row_found_by_types 52
    (arch_info "arm64" CPU_TYPE_ARM64 CPU_SUBTYPE_ARM64_V8 NX_LittleEndian "arm64 v8")
    false false); [reflexivity|discriminate].
Defined.

(** A struct made up for an unknown subtype belongs to the Intel or the
    PowerPC family, carries the types that were asked for, and its
    description, final NUL included, fits the buffer it is written into. *)
Theorem nx_description_fits (struct_ok description_ok : bool) (ct st : Z)
    (ai : NXArchInfo) (live : list block) :
  NXGetArchInfoFromCpuType struct_ok description_ok ct st = Returns (Some (OnHeap ai)) live ->
  ai_cputype ai = ct /\ ai_cpusubtype ai = st /\
  exists d, ai_description ai = Some d /\
    ((ct = CPU_TYPE_I386 /\ ai_name ai = Some "i386" /\ d = intel_description st /\
      Z.of_nat (String.length d) + 1 <= intel_buffer) \/
     (ct = CPU_TYPE_POWERPC /\ ai_name ai = Some "ppc" /\ d = ppc_description st /\
      Z.of_nat (String.length d) + 1 <= ppc_buffer)).
Proof.
  destruct (from_cpu_type_cases struct_ok description_ok ct st)
    as [(j & aj & -> & _)|[_ ->]]; [done|].
  destruct struct_ok; [|unfold describe_unknown; simpl; repeat case_match; done].
  destruct (Z.eqb_spec ct CPU_TYPE_I386) as [->|].
  - erewrite describe_unknown_family by reflexivity.
    destruct description_ok; [|done]. intros [= <- _]. split_and!; [done..|].
    eexists. split; [done|left]. split_and!; [done..|].
    pose proof (intel_description_length st). change intel_buffer with 31. lia.
  - destruct (Z.eqb_spec ct CPU_TYPE_POWERPC) as [->|]; [|done].
    erewrite describe_unknown_family by reflexivity.
    destruct description_ok; [|done]. intros [= <- _]. split_and!; [done..|].
    eexists. split; [done|right]. split_and!; [done..|].
    unfold ppc_description. rewrite length_string_app.
    pose proof (length_fmt_u st). change ppc_buffer with 30. simpl. lia.
Qed.

Lemma nx_description_fits_witness :
  let ai := {| ai_name := Some "ppc"; ai_cputype := CPU_TYPE_POWERPC; ai_cpusubtype := -2;
    ai_byteorder := NX_BigEndian;
    ai_description := Some "PowerPC cpusubtype 4294967294" |} in
  ai_cputype ai = CPU_TYPE_POWERPC /\ ai_cpusubtype ai = -2 /\
  exists d, ai_description ai = Some d /\
    ((CPU_TYPE_POWERPC = CPU_TYPE_I386 /\ ai_name ai = Some "i386" /\
      d = intel_description (-2) /\ Z.of_nat (String.length d) + 1 <= intel_buffer) \/
     (CPU_TYPE_POWERPC = CPU_TYPE_POWERPC /\ ai_name ai = Some "ppc" /\
      d = ppc_description (-2) /\ Z.of_nat (String.length d) + 1 <= ppc_buffer)).
Proof.
  intros ai. apply (nx_description_fits true true CPU_TYPE_POWERPC (-2) ai
    [StructBlock; DescriptionBlock]). vm_compute. reflexivity.
Defined.

(** No leak and no wild free.  Whatever the two allocations do, a lookup
    that returns NULL holds no block, and the blocks a lookup with a result
    holds are the ones [NXFreeArchInfo] frees; the only lookup with undefined
    behaviour is one of an unknown Intel or PowerPC subtype whose first,
    unchecked, [malloc] fails. *)
Theorem nx_free_matches_allocation (struct_ok description_ok : bool) (ct st : Z) :
  match NXGetArchInfoFromCpuType struct_ok description_ok ct st with
  | Returns (Some p) live => NXFreeArchInfo p ≡ₚ live
  | Returns None live => live = []
  | Undefined => struct_ok = false /\ (ct = CPU_TYPE_I386 \/ ct = CPU_TYPE_POWERPC) /\
      scan_infos (info_matches ct st) ArchInfoTable = None
  end.
Proof.
  destruct (from_cpu_type_cases struct_ok description_ok ct st)
    as [(j & aj & -> & _)|[Hn ->]]; [done|].
  assert (Hswap : [DescriptionBlock; StructBlock] ≡ₚ [StructBlock; DescriptionBlock])
    by constructor.
  destruct (Z.eqb_spec ct CPU_TYPE_I386) as [->|];
    [|destruct (Z.eqb_spec ct CPU_TYPE_POWERPC) as [->|]; [|done]];
    (destruct struct_ok; [|split_and!; auto]);
    erewrite describe_unknown_family by reflexivity; by destruct description_ok.
Qed.

Definition sex_of_order (o : NXByteOrder) : byte_sex :=
  match o with
  | NX_UnknownByteOrder => UNKNOWN_BYTE_SEX
  | NX_LittleEndian => LITTLE_ENDIAN_BYTE_SEX
  | NX_BigEndian => BIG_ENDIAN_BYTE_SEX
  end.

(** The two tables agree.  A name known to libstuff's [arch_flags] and to
    libmacho's [ArchInfoTable] has the same cputype and cpusubtype in both,
    and unless it is one of the "any" names, the byte order of the one is the
    byte sex of the other. *)
Theorem nx_table_agrees_with_libstuff (name : string) (f : arch_flag) (row : nat)
    (ai : NXArchInfo) :
  get_arch_from_flag name = (1, f) ->
  NXGetArchInfoFromName name = Some (InTable row) -> ArchInfoTable !! row = Some ai ->
  ai_cputype ai = af_cputype f /\ ai_cpusubtype ai = af_cpusubtype f /\
  (af_cputype f <> CPU_TYPE_ANY ->
     get_byte_sex_from_flag f = Some (sex_of_order (ai_byteorder ai))).
Proof.
  unfold get_arch_from_flag. destruct (scan_flags _ _) as [g|] eqn:Hg; [|done].
  intros [= <-] Hrow Hai.
  pose proof (scan_flags_Some _ _ _ Hg) as (_ & Hp%bool_decide_eq_true & _).
  pose (q g := match af_name g with
    | Some n => match NXGetArchInfoFromName n with
        | Some (InTable r) => match ArchInfoTable !! r with
            | Some a => bool_decide (ai_cputype a = af_cputype g /\
                ai_cpusubtype a = af_cpusubtype g /\
                (af_cputype g = CPU_TYPE_ANY \/
                 get_byte_sex_from_flag g = Some (sex_of_order (ai_byteorder a))))
            | None => false
            end
        | _ => true
        end
    | None => true
    end).
  assert (Hq : q g = true) by (eapply all_flags_scan; [vm_compute; reflexivity|exact Hg]).
  unfold q in Hq. rewrite Hp, Hrow, Hai in Hq. apply bool_decide_eq_true in Hq. naive_solver.
Qed.

Lemma nx_table_agrees_with_libstuff_witness :
  CPU_TYPE_VEO = CPU_TYPE_VEO /\ CPU_SUBTYPE_VEO_2 = CPU_SUBTYPE_VEO_ALL /\
  (CPU_TYPE_VEO <> CPU_TYPE_ANY ->
     get_byte_sex_from_flag (mk_flag "veo" CPU_TYPE_VEO CPU_SUBTYPE_VEO_2)
       = Some (sex_of_order NX_BigEndian)).
Proof.
  apply (nx_table_agrees_with_libstuff "veo" (mk_flag "veo" CPU_TYPE_VEO CPU_SUBTYPE_VEO_2) 15
    (arch_info "veo" CPU_TYPE_VEO CPU_SUBTYPE_VEO_ALL NX_BigEndian "veo"));
    vm_compute; reflexivity.
Defined.
