(* ===== verification/NXBestArchSpec.v ===== *)
(** * libmacho's and libstuff's choice of a slice compared

    Where [NXFindBestFatArch] chooses as [cpusubtype_findbestarch] does, and
    what it does where it differs: the ARM cases, which grade the slices, and
    the POWERPC case, whose 750 loop cannot match. *)

From Stdlib Require Import ZArith Lia Bool.
From Stdlib Require Import Init.Byte.
From stdpp Require Import base list option numbers.
From S2P Require Import Prelude CInt CpuTypes ByteSex HeaderSwap BestArch CpuCombine.
From S2P Require Import BestArchSpec NXBestArch.

(** ** The scan for the lowest model does not depend on its start value *)

Section lowest_model.
Variables (ct : cpu_type_t) (fam : Z).

(** Two runs of the loop from different start values: equal, or both still
    at their start. *)
Definition same_run (m1 m2 : Z) (st1 st2 : nat * Z * Z) : Prop :=
  st1 = st2 \/
  exists i, st1 = (i, m1, u32 (-1)) /\ st2 = (i, m2, u32 (-1)).

Lemma same_run_step m1 m2 st1 st2 s :
  2 ^ 20 <= m1 -> 2 ^ 20 <= m2 -> same_run m1 m2 st1 st2 ->
  same_run m1 m2 (lowest_model_step ct fam st1 s) (lowest_model_step ct fam st2 s).
Proof.
  intros Hm1 Hm2 [->|(i & -> & ->)]; [by left|].
  unfold lowest_model_step. pose proof (intel_model_range _ (msub_range s.2)) as Hm.
  destruct (negb _); [right; eauto|]. destruct (_ =? fam); [|right; eauto].
  rewrite !(proj2 (Z.ltb_lt _ _)) by lia. by left.
Qed.

Lemma lowest_model_index_start sl m1 m2 :
  2 ^ 20 <= m1 -> 2 ^ 20 <= m2 ->
  lowest_model_index sl ct fam m1 = lowest_model_index sl ct fam m2.
Proof.
  intros Hm1 Hm2. unfold lowest_model_index.
  assert (H : forall st1 st2, same_run m1 m2 st1 st2 ->
    same_run m1 m2 (fold_left (lowest_model_step ct fam) sl st1)
      (fold_left (lowest_model_step ct fam) sl st2)).
  { induction sl as [|s sl IH]; intros st1 st2 Hst; simpl; [done|].
    apply IH. by apply same_run_step. }
  destruct (H (O, m1, u32 (-1)) (O, m2, u32 (-1))) as [->|(i & -> & ->)]; [|done|done].
  right. by exists O.
Qed.
End lowest_model.

(** ** The scans of the ARM cases *)

Section arm.
Implicit Types sl : list slice.

Definition grade (s : slice) : Z :=
  if s.1 =? CPU_TYPE_ARM64 then grade_arm64 (u32 s.2) else 0.

(** [b] is the first slice of the highest value of [v] among those of [seen]
    for which [p] holds. *)
Definition first_max (p : slice -> bool) (v : slice -> Z) (seen : list slice) (b : nat) : Prop :=
  exists s, seen !! b = Some s /\ p s = true /\
    forall j s', seen !! j = Some s' -> p s' = true ->
      v s' <= v s /\ ((j < b)%nat -> v s' < v s).

Lemma first_max_keep p v seen b s' :
  first_max p v seen b ->
  (p s' = true -> forall s, seen !! b = Some s -> v s' <= v s) ->
  first_max p v (seen ++ [s']) b.
Proof.
  intros (s & Hb & Hp & Hmax) Hs'. exists s. split_and!; [by apply lookup_app_l_Some|done|].
  intros j t [Hj|[Hge Hj]]%lookup_app_Some Hpt; [eauto|].
  apply list_lookup_singleton_Some in Hj as [Hj <-].
  split; [eauto|]. intros. apply lookup_lt_Some in Hb. lia.
Qed.

Lemma first_max_new p v seen s' :
  p s' = true ->
  (forall j s, seen !! j = Some s -> p s = true -> v s < v s') ->
  first_max p v (seen ++ [s']) (length seen).
Proof.
  intros Hp Hlt. exists s'. split_and!; [by apply list_lookup_middle|done|].
  intros j t [Hj|[Hge Hj]]%lookup_app_Some Hpt.
  - specialize (Hlt _ _ Hj Hpt). split; [lia|auto].
  - apply list_lookup_singleton_Some in Hj as [Hj <-]. split; lia.
Qed.

Lemma grade_nonneg s : 0 <= grade s.
Proof. unfold grade, grade_arm64. repeat case_match; lia. Qed.

Lemma best_grade_scan_spec sl :
  exists b, (best_grade_scan sl = (length sl, 0, b) /\ forall s, s ∈ sl -> grade s = 0) \/
    (exists s, best_grade_scan sl = (length sl, grade s, b) /\ sl !! b = Some s /\
       0 < grade s /\ first_max (fun _ => true) grade sl b).
Proof.
  unfold best_grade_scan. induction sl as [|s' sl IH] using rev_ind.
  { exists O. left. split; [done|]. intros s H. by apply elem_of_nil in H. }
  rewrite fold_left_app, length_app. simpl. rewrite Nat.add_1_r.
  assert (Hstep : forall i g b, 0 <= g -> grade_step (i, g, b) s' =
    (S i, Z.max g (grade s'), if g <? grade s' then i else b)).
  { intros i g b Hg. unfold grade_step, grade. destruct (s'.1 =? CPU_TYPE_ARM64); simpl.
    - destruct (Z.ltb_spec g (grade_arm64 (u32 s'.2))); f_equal; f_equal; lia.
    - destruct (Z.ltb_spec g 0); [lia|]. by rewrite Z.max_l by lia. }
  pose proof (grade_nonneg s') as Hs'.
  destruct IH as (b & [[-> Hall]|(s & -> & Hb & Hpos & Hmax)]); rewrite Hstep by lia.
  - destruct (Z.ltb_spec 0 (grade s')) as [Hlt|Hge].
    + exists (length sl). right. exists s'. rewrite Z.max_r by lia.
      split_and!; [done|by apply list_lookup_middle|done|].
      apply first_max_new; [done|]. intros j s Hj _.
      rewrite (Hall s); [done|]. by eapply list_elem_of_lookup_2.
    + exists b. left. split; [f_equal; f_equal; lia|].
      intros s [?|Hs%list_elem_of_singleton]%elem_of_app; [auto|subst; lia].
  - destruct (Z.ltb_spec (grade s) (grade s')) as [Hlt|Hge].
    + exists (length sl). right. exists s'. rewrite Z.max_r by lia.
      split_and!; [done|by apply list_lookup_middle|lia|].
      apply first_max_new; [done|]. intros j t Hj _.
      destruct Hmax as (s0 & Hs0 & _ & Hm). rewrite Hb in Hs0. injection Hs0 as <-.
      destruct (Hm _ _ Hj eq_refl). lia.
    + exists b. right. exists s. rewrite Z.max_l by lia.
      split_and!; [done|by apply lookup_app_l_Some|done|].
      apply first_max_keep; [done|]. intros _ t Ht. congruence || (rewrite Hb in Ht; injection Ht as <-; done).
Qed.

Definition is_arm (s : slice) : bool := s.1 =? CPU_TYPE_ARM.

Lemma highest_arm_fold sl pre post :
  sl = pre ++ post ->
  (fold_left (highest_arm_step sl) pre (O, None) = (length pre, None) /\
     forall s, s ∈ pre -> is_arm s = false) \/
  (exists b, fold_left (highest_arm_step sl) pre (O, None) = (length pre, Some b) /\
     first_max is_arm snd pre b).
Proof.
  revert post. induction pre as [|s' pre IH] using rev_ind; intros post Hsl.
  { left. split; [done|]. intros s H. by apply elem_of_nil in H. }
  rewrite fold_left_app, length_app. simpl. rewrite Nat.add_1_r.
  rewrite <-app_assoc in Hsl.
  destruct (IH _ Hsl) as [[-> Hall]|(b & -> & Hmax)]; unfold highest_arm_step;
    fold (is_arm s'); destruct (is_arm s') eqn:Harm; simpl.
  - right. exists (length pre). split; [done|]. apply first_max_new; [done|].
    intros j s Hj Hp. rewrite Hall in Hp; [done|]. by eapply list_elem_of_lookup_2.
  - left. split; [done|].
    intros s [?|Hs%list_elem_of_singleton]%elem_of_app; subst; auto.
  - pose proof Hmax as (s & Hb & Hp & Hm).
    assert (Hb' : sl !! b = Some s) by (rewrite Hsl; by apply lookup_app_l_Some).
    rewrite Hb'.
    destruct (Z.ltb_spec s.2 s'.2) as [Hlt|Hge]; right; eexists; (split; [done|]).
    + apply first_max_new; [done|]. intros j u Hj Hu. destruct (Hm _ _ Hj Hu).
      simpl in *. lia.
    + apply first_max_keep; [done|]. intros _ u Hu. rewrite Hb in Hu. by injection Hu as <-.
  - right. exists b. split; [done|]. apply first_max_keep; [done|]. congruence.
Qed.

Lemma highest_arm_spec sl :
  (highest_arm sl = None /\ forall s, s ∈ sl -> is_arm s = false) \/
  (exists b, highest_arm sl = Some b /\ first_max is_arm snd sl b).
Proof.
  unfold highest_arm.
  destruct (highest_arm_fold sl sl []) as [[-> ?]|(b & -> & ?)];
    [by rewrite app_nil_r|by left|right; by exists b].
Qed.
End arm.

(** ** Agreement with libstuff *)

Lemma nx_exact_fb sl ct cs :
  ct <> CPU_TYPE_ARM64 -> nx_exact sl ct cs = fb_exact sl ct cs.
Proof.
  intros Hne. unfold nx_exact, fb_exact, for_slices.
  rewrite (proj2 (Z.eqb_neq _ _) Hne). simpl. f_equal.
  apply find_index_ext. intros s _. by rewrite andb_true_r.
Qed.

Lemma nx_i386_fb sl ct cs : nx_i386 sl ct cs = fb_i386 sl ct cs.
Proof.
  unfold nx_i386, fb_i386, nx_i386_lowest, fb_i386_lowest.
  by rewrite (lowest_model_index_start ct _ sl INT_MAX LONG_MAX).
Qed.

(** On every cputype but ARM, ARM64, POWERPC and VEO, libmacho's
    [NXFindBestFatArch] and libstuff's [cpusubtype_findbestarch] choose the
    same slice of the same fat file, 32-bit or 64-bit; the different start
    values of their search for the lowest Intel model do not matter. *)
Theorem nx_find_agrees (ct : cpu_type_t) (cs : cpu_subtype_t) (fat_archs : list fat_arch)
    (fat_archs64 : option (list fat_arch_64)) (n : nat) :
  ct <> CPU_TYPE_ARM -> ct <> CPU_TYPE_ARM64 -> ct <> CPU_TYPE_POWERPC -> ct <> CPU_TYPE_VEO ->
  internal_NXFindBestFatArch ct cs fat_archs fat_archs64 n =
    internal_cpusubtype_findbestarch ct cs fat_archs fat_archs64 n.
Proof.
  intros Ha Ha64 Hp Hv.
  unfold internal_NXFindBestFatArch, internal_cpusubtype_findbestarch, nx_find_slices,
    findbestarch_slices. rewrite nx_exact_fb by done.
  destruct (fb_exact _ ct cs); [done|]. rewrite !seq_ret_None_l.
  unfold nx_switch, fb_switch.
  rewrite !(proj2 (Z.eqb_neq _ _) Ha), !(proj2 (Z.eqb_neq _ _) Ha64),
    !(proj2 (Z.eqb_neq _ _) Hp), !(proj2 (Z.eqb_neq _ _) Hv). simpl.
  rewrite nx_i386_fb.
  repeat match goal with |- context [ct =? ?k] =>
    destruct (Z.eqb_spec ct k) as [->|?]; [eval_eqb; try reflexivity|] end.
  done.
Qed.

Lemma nx_find_agrees_witness :
  internal_NXFindBestFatArch CPU_TYPE_I386 CPU_SUBTYPE_PENT
      [demo_arch CPU_TYPE_I386 (CPU_SUBTYPE_INTEL 6 3)] None 1 =
    internal_cpusubtype_findbestarch CPU_TYPE_I386 CPU_SUBTYPE_PENT
      [demo_arch CPU_TYPE_I386 (CPU_SUBTYPE_INTEL 6 3)] None 1.
Proof. apply nx_find_agrees; discriminate. Defined.

(** ** Where they differ *)

Lemma nx_at archs n ct cs i a :
  Z.of_nat n < 2 ^ 31 -> (i < n)%nat -> archs !! i = Some a ->
  internal_NXFindBestFatArch ct cs archs None n = ret_index i ->
  NXFindBestFatArch ct cs archs n = Some a.
Proof.
  intros Hn Hi Ha Hr. unfold NXFindBestFatArch. rewrite Hr, ret_index_id by lia.
  destruct (Z.eqb_spec (Z.of_nat i) (-1)); [lia|]. by rewrite Nat2Z.id.
Qed.

(** what the ARM64 case of [NXFindBestFatArch] chooses.  The subtype
    asked for plays no part in it: it is the first slice of the highest grade
    among the ARM64 ones (V8 before ALL, every other subtype and every subtype
    with feature flags ungraded); without a graded slice, the first ARM slice of
    the highest subtype; without an ARM slice, none. *)
Theorem nx_arm64_choice (cs : cpu_subtype_t) (archs : list fat_arch) (n : nat) :
  Z.of_nat n < 2 ^ 31 ->
  let sl := slices archs None n in
  match NXFindBestFatArch CPU_TYPE_ARM64 cs archs n with
  | Some a => exists b, archs !! b = Some a /\ (b < n)%nat /\
      ((0 < grade (fat_arch_slice a) /\ first_max (fun _ => true) grade sl b) \/
       ((forall s, s ∈ sl -> grade s = 0) /\ first_max is_arm snd sl b))
  | None => forall s, s ∈ sl -> grade s = 0 /\ is_arm s = false
  end.
Proof.
  intros Hn sl.
  assert (Hfind : internal_NXFindBestFatArch CPU_TYPE_ARM64 cs archs None n
    = default (-1) (nx_arm sl CPU_TYPE_ARM64)).
  { unfold internal_NXFindBestFatArch, nx_find_slices. fold sl.
    replace (nx_exact sl CPU_TYPE_ARM64 cs) with (None : option Z); [done|].
    unfold nx_exact, for_slices. symmetry. apply fmap_None, find_index_None.
    intros s _. eval_eqb. by rewrite andb_false_r. }
  assert (Hat : forall b s, sl !! b = Some s ->
    internal_NXFindBestFatArch CPU_TYPE_ARM64 cs archs None n = ret_index b ->
    exists a, NXFindBestFatArch CPU_TYPE_ARM64 cs archs n = Some a /\
      archs !! b = Some a /\ (b < n)%nat /\ fat_arch_slice a = s).
  { intros b s (Hlt & a & Ha & Hs)%slices_lookup Hr. exists a. split_and!; try done.
    by eapply nx_at. }
  unfold nx_arm in Hfind.
  destruct (best_grade_scan_spec sl) as (b & [[Hs Hall]|(s & Hs & Hb & Hpos & Hmax)]);
    rewrite Hs in Hfind; simpl in Hfind.
  - destruct (highest_arm_spec sl) as [[Hh Hno]|(k & Hh & Hmax)];
      rewrite Hh in Hfind; simpl in Hfind.
    + unfold NXFindBestFatArch. rewrite Hfind. simpl. auto.
    + pose proof Hmax as (t & Ht & _). destruct (Hat _ _ Ht Hfind) as (a & -> & Ha & Hk & _).
      exists k. split_and!; auto.
  - destruct (Z.eqb_spec (grade s) 0); [lia|]. simpl in Hfind.
    destruct (Hat _ _ Hb Hfind) as (a & -> & Ha & Hk & <-). exists b. split_and!; auto.
Qed.

Lemma nx_arm64_choice_witness :
  let archs := [demo_arch CPU_TYPE_ARM64 CPU_SUBTYPE_ARM64E;
                demo_arch CPU_TYPE_ARM CPU_SUBTYPE_ARM_V7;
                demo_arch CPU_TYPE_ARM CPU_SUBTYPE_ARM_V7S] in
  let sl := slices archs None 3 in
  match NXFindBestFatArch CPU_TYPE_ARM64 CPU_SUBTYPE_ARM64E archs 3 with
  | Some a => exists b, archs !! b = Some a /\ (b < 3)%nat /\
      ((0 < grade (fat_arch_slice a) /\ first_max (fun _ => true) grade sl b) \/
       ((forall s, s ∈ sl -> grade s = 0) /\ first_max is_arm snd sl b))
  | None => forall s, s ∈ sl -> grade s = 0 /\ is_arm s = false
  end.
Proof.
  intros archs. apply (nx_arm64_choice CPU_SUBTYPE_ARM64E archs 3). vm_compute. reflexivity.
Defined.

(** [fat_cpusubtype & CPU_SUBTYPE_MASK] has its low 24 bits clear. *)
Lemma flags_not_750 st : Z.land (u32 st) CPU_SUBTYPE_MASK <> CPU_SUBTYPE_POWERPC_750.
Proof.
  intros H. apply (f_equal (fun z => Z.testbit z 0)) in H.
  rewrite Z.land_spec in H. change (Z.testbit CPU_SUBTYPE_MASK 0) with false in H.
  rewrite andb_false_r in H. discriminate H.
Qed.

Definition not_750 (s : slice) : Prop := msub s.2 <> CPU_SUBTYPE_POWERPC_750.

Lemma find_sub_not_750 sl ct w :
  w <> CPU_SUBTYPE_POWERPC_750 -> returns (picked sl not_750) (find_sub ct w sl).
Proof. intros Hw. apply returns_find_sub. unfold not_750; simpl. congruence. Qed.

Lemma nx_ppc_not_750 sl ct cs : returns (picked sl not_750) (nx_ppc sl ct cs).
Proof.
  assert (Hdef : returns (picked sl not_750) (nx_ppc_default sl ct))
    by (by apply find_sub_not_750).
  assert (H603 : returns (picked sl not_750) (nx_ppc_750_603 sl ct)).
  { unfold nx_ppc_750_603.
    repeat (apply returns_seq; [first [by apply find_sub_not_750|apply returns_for_slices]|]);
      try done; intros s Hs; destruct (negb _); try done; apply Z.eqb_eq in Hs.
    - by apply flags_not_750 in Hs.
    - unfold not_750. rewrite Hs. done. }
  assert (H7450 : returns (picked sl not_750) (nx_ppc_7450_7400 sl ct))
    
    by (unfold nx_ppc_7450_7400; do 2 (apply returns_seq; [by apply find_sub_not_750|]); done).
  unfold nx_ppc. repeat case_match; auto.
  apply returns_seq; [by apply find_sub_not_750|done].
Qed.

(** the 750 loop of [NXFindBestFatArch] tests the feature flags where it
    means to clear them, so it never matches: for a PowerPC host that is not
    itself a 750 no 750 slice is ever chosen, not even where the comment's
    preference order and libstuff choose it. *)
Theorem nx_ppc_never_750 (cs : cpu_subtype_t) (archs : list fat_arch) (n : nat) (a : fat_arch) :
  Z.of_nat n < 2 ^ 31 -> msub cs <> CPU_SUBTYPE_POWERPC_750 ->
  NXFindBestFatArch CPU_TYPE_POWERPC cs archs n = Some a ->
  msub (fat_arch_cpusubtype a) <> CPU_SUBTYPE_POWERPC_750 /\
  exists only, cpusubtype_findbestarch CPU_TYPE_POWERPC CPU_SUBTYPE_POWERPC_7400 [only] 1
                 = Some only /\
               NXFindBestFatArch CPU_TYPE_POWERPC CPU_SUBTYPE_POWERPC_7400 [only] 1 = None.
Proof.
  intros Hn Hcs Ha. split.
  2: { exists (demo_arch CPU_TYPE_POWERPC CPU_SUBTYPE_POWERPC_750). by vm_compute. }
  set (sl := slices archs None n).
  assert (Hret : returns (picked sl not_750)
    (nx_exact sl CPU_TYPE_POWERPC cs ;;; nx_switch sl CPU_TYPE_POWERPC cs)).
  { apply returns_seq; [|exact (nx_ppc_not_750 sl CPU_TYPE_POWERPC cs)].
    apply returns_for_slices. intros s Hs. bool_to_prop. unfold not_750. congruence. }
  unfold NXFindBestFatArch, internal_NXFindBestFatArch, nx_find_slices in Ha. fold sl in Ha.
  destruct (nx_exact sl _ cs ;;; nx_switch sl _ cs) as [r|] eqn:Hr; [|done]. simpl in Ha.
  destruct (Hret r eq_refl) as (i & s & Hi & Hs & ->).
  apply slices_lookup in Hi as (Hlt & b & Hb & <-). rewrite ret_index_id in Ha by lia.
  destruct (Z.eqb_spec (Z.of_nat i) (-1)); [lia|].
  rewrite Nat2Z.id, Hb in Ha. by injection Ha as <-.
Qed.

Lemma nx_ppc_never_750_witness :
  msub CPU_SUBTYPE_POWERPC_604 <> CPU_SUBTYPE_POWERPC_750 /\
  exists only, cpusubtype_findbestarch CPU_TYPE_POWERPC CPU_SUBTYPE_POWERPC_7400 [only] 1
                 = Some only /\
               NXFindBestFatArch CPU_TYPE_POWERPC CPU_SUBTYPE_POWERPC_7400 [only] 1 = None.
Proof.
  apply (nx_ppc_never_750 CPU_SUBTYPE_POWERPC_970
    [demo_arch CPU_TYPE_POWERPC CPU_SUBTYPE_POWERPC_750;
     demo_arch CPU_TYPE_POWERPC CPU_SUBTYPE_POWERPC_604] 2
    (demo_arch CPU_TYPE_POWERPC CPU_SUBTYPE_POWERPC_604)); [|vm_compute; discriminate|];
    vm_compute; reflexivity.
Defined.
