(* ===== verification/Crc.v ===== *)
(** * libstuff/crc32.c: the checksum of cksum(1)

    The table, the routine, and a proof that it computes, bit by bit, the
    remainder of the message followed by its length modulo the polynomial
    0x04c11db7. *)

From Stdlib Require Import ZArith Lia Bool.
From Stdlib Require Import Init.Byte.
From stdpp Require Import base list option numbers.
From S2P Require Import Prelude CInt.

Definition crctab : list Z := [
  0x0; 0x04c11db7; 0x09823b6e; 0x0d4326d9; 0x130476dc; 0x17c56b6b;
  0x1a864db2; 0x1e475005; 0x2608edb8; 0x22c9f00f; 0x2f8ad6d6; 0x2b4bcb61;
  0x350c9b64; 0x31cd86d3; 0x3c8ea00a; 0x384fbdbd; 0x4c11db70; 0x48d0c6c7;
  0x4593e01e; 0x4152fda9; 0x5f15adac; 0x5bd4b01b; 0x569796c2; 0x52568b75;
  0x6a1936c8; 0x6ed82b7f; 0x639b0da6; 0x675a1011; 0x791d4014; 0x7ddc5da3;
  0x709f7b7a; 0x745e66cd; 0x9823b6e0; 0x9ce2ab57; 0x91a18d8e; 0x95609039;
  0x8b27c03c; 0x8fe6dd8b; 0x82a5fb52; 0x8664e6e5; 0xbe2b5b58; 0xbaea46ef;
  0xb7a96036; 0xb3687d81; 0xad2f2d84; 0xa9ee3033; 0xa4ad16ea; 0xa06c0b5d;
  0xd4326d90; 0xd0f37027; 0xddb056fe; 0xd9714b49; 0xc7361b4c; 0xc3f706fb;
  0xceb42022; 0xca753d95; 0xf23a8028; 0xf6fb9d9f; 0xfbb8bb46; 0xff79a6f1;
  0xe13ef6f4; 0xe5ffeb43; 0xe8bccd9a; 0xec7dd02d; 0x34867077; 0x30476dc0;
  0x3d044b19; 0x39c556ae; 0x278206ab; 0x23431b1c; 0x2e003dc5; 0x2ac12072;
  0x128e9dcf; 0x164f8078; 0x1b0ca6a1; 0x1fcdbb16; 0x018aeb13; 0x054bf6a4;
  0x0808d07d; 0x0cc9cdca; 0x7897ab07; 0x7c56b6b0; 0x71159069; 0x75d48dde;
  0x6b93dddb; 0x6f52c06c; 0x6211e6b5; 0x66d0fb02; 0x5e9f46bf; 0x5a5e5b08;
  0x571d7dd1; 0x53dc6066; 0x4d9b3063; 0x495a2dd4; 0x44190b0d; 0x40d816ba;
  0xaca5c697; 0xa864db20; 0xa527fdf9; 0xa1e6e04e; 0xbfa1b04b; 0xbb60adfc;
  0xb6238b25; 0xb2e29692; 0x8aad2b2f; 0x8e6c3698; 0x832f1041; 0x87ee0df6;
  0x99a95df3; 0x9d684044; 0x902b669d; 0x94ea7b2a; 0xe0b41de7; 0xe4750050;
  0xe9362689; 0xedf73b3e; 0xf3b06b3b; 0xf771768c; 0xfa325055; 0xfef34de2;
  0xc6bcf05f; 0xc27dede8; 0xcf3ecb31; 0xcbffd686; 0xd5b88683; 0xd1799b34;
  0xdc3abded; 0xd8fba05a; 0x690ce0ee; 0x6dcdfd59; 0x608edb80; 0x644fc637;
  0x7a089632; 0x7ec98b85; 0x738aad5c; 0x774bb0eb; 0x4f040d56; 0x4bc510e1;
  0x46863638; 0x42472b8f; 0x5c007b8a; 0x58c1663d; 0x558240e4; 0x51435d53;
  0x251d3b9e; 0x21dc2629; 0x2c9f00f0; 0x285e1d47; 0x36194d42; 0x32d850f5;
  0x3f9b762c; 0x3b5a6b9b; 0x0315d626; 0x07d4cb91; 0x0a97ed48; 0x0e56f0ff;
  0x1011a0fa; 0x14d0bd4d; 0x19939b94; 0x1d528623; 0xf12f560e; 0xf5ee4bb9;
  0xf8ad6d60; 0xfc6c70d7; 0xe22b20d2; 0xe6ea3d65; 0xeba91bbc; 0xef68060b;
  0xd727bbb6; 0xd3e6a601; 0xdea580d8; 0xda649d6f; 0xc423cd6a; 0xc0e2d0dd;
  0xcda1f604; 0xc960ebb3; 0xbd3e8d7e; 0xb9ff90c9; 0xb4bcb610; 0xb07daba7;
  0xae3afba2; 0xaafbe615; 0xa7b8c0cc; 0xa379dd7b; 0x9b3660c6; 0x9ff77d71;
  0x92b45ba8; 0x9675461f; 0x8832161a; 0x8cf30bad; 0x81b02d74; 0x857130c3;
  0x5d8a9099; 0x594b8d2e; 0x5408abf7; 0x50c9b640; 0x4e8ee645; 0x4a4ffbf2;
  0x470cdd2b; 0x43cdc09c; 0x7b827d21; 0x7f436096; 0x7200464f; 0x76c15bf8;
  0x68860bfd; 0x6c47164a; 0x61043093; 0x65c52d24; 0x119b4be9; 0x155a565e;
  0x18197087; 0x1cd86d30; 0x029f3d35; 0x065e2082; 0x0b1d065b; 0x0fdc1bec;
  0x3793a651; 0x3352bbe6; 0x3e119d3f; 0x3ad08088; 0x2497d08d; 0x2056cd3a;
  0x2d15ebe3; 0x29d4f654; 0xc5a92679; 0xc1683bce; 0xcc2b1d17; 0xc8ea00a0;
  0xd6ad50a5; 0xd26c4d12; 0xdf2f6bcb; 0xdbee767c; 0xe3a1cbc1; 0xe760d676;
  0xea23f0af; 0xeee2ed18; 0xf0a5bd1d; 0xf464a0aa; 0xf9278673; 0xfde69bc4;
  0x89b8fd09; 0x8d79e0be; 0x803ac667; 0x84fbdbd0; 0x9abc8bd5; 0x9e7d9662;
  0x933eb0bb; 0x97ffad0c; 0xafb010b1; 0xab710d06; 0xa6322bdf; 0xa2f33668;
  0xbcb4666d; 0xb8757bda; 0xb5365d03; 0xb1f740b4
].

(** [crctab[i]], with 0 where C would read past the table; no index the
    routine forms does (see [crc_index_range]). *)
Definition crctab_at (i : Z) : Z := nth (Z.to_nat i) crctab 0.

(** [#define COMPUTE(var, ch) (var) = (var) << 8 ^ crctab[(var) >> 24 ^ (ch)]] *)
Definition COMPUTE (var ch : Z) : Z :=
  Z.lxor (u32 (Z.shiftl var 8)) (crctab_at (Z.lxor (Z.shiftr var 24) ch)).

(** [for (; len != 0; len >>= 8)]; four rounds empty a [uint32_t]. *)
Fixpoint crc_length (fuel : nat) (crc len : Z) : Z :=
  match fuel with
  | O => crc
  | S f => if len =? 0 then crc
           else crc_length f (COMPUTE crc (Z.land len 0xff)) (Z.shiftr len 8)
  end.

(** The first loop reads [len] bytes of [buf]; [nr] is an [int], so [len] is
    meant to be less than 2^31. *)
Definition crc32 (buf : list byte) (len : Z) : Z :=
  let crc := fold_left (fun crc b => COMPUTE crc (byte_Z b)) (take (Z.to_nat len) buf) 0 in
  u32 (Z.lnot (crc_length 4 crc len)).

(** ** The specification: division of polynomials over GF(2), bit by bit *)

Definition POLY : Z := 0x04c11db7.

(** The remainder after one more bit, the top bit of the message first. *)
Definition bit_step (c : Z) : Z :=
  Z.lxor (u32 (Z.shiftl c 1)) (if Z.testbit c 31 then POLY else 0).

Definition byte_step (c b : Z) : Z := Nat.iter 8 bit_step (Z.lxor c (Z.shiftl b 24)).

(** The bytes of the length, least significant first, without the zero bytes
    at the top. *)
Fixpoint length_bytes (fuel : nat) (len : Z) : list Z :=
  match fuel with
  | O => []
  | S f => if len =? 0 then [] else Z.land len 0xff :: length_bytes f (Z.shiftr len 8)
  end.

Definition crc_spec (msg : list Z) : Z := u32 (Z.lnot (fold_left byte_step msg 0)).

(** ** A step of the table is eight steps of the division *)

Lemma bit_step_lxor a b : bit_step (Z.lxor a b) = Z.lxor (bit_step a) (bit_step b).
Proof.
  unfold bit_step. rewrite Z.shiftl_lxor, uw_lxor, Z.lxor_spec by done.
  destruct (Z.testbit a 31), (Z.testbit b 31); simpl xorb; cbv iota.
  all: apply Z.bits_inj'; intros i Hi; rewrite !Z.lxor_spec, ?Z.bits_0.
  all: by destruct (Z.testbit (u32 (Z.shiftl a 1)) i), (Z.testbit (u32 (Z.shiftl b 1)) i),
    (Z.testbit POLY i).
Qed.

Lemma bit_steps_lxor n a b :
  Nat.iter n bit_step (Z.lxor a b) = Z.lxor (Nat.iter n bit_step a) (Nat.iter n bit_step b).
Proof. induction n as [|n IH]; simpl; [done|]. by rewrite IH, bit_step_lxor. Qed.

Lemma bit_step_range c : in_uw 32 (bit_step c).
Proof.
  unfold bit_step. apply lxor_in_uw; [done|by apply uw_range|].
  destruct (Z.testbit c 31); by vm_compute.
Qed.

(** While the bits that are shifted stay below the top, a step is a shift. *)
Lemma bit_steps_low (n : nat) c :
  (n <= 32)%nat -> 0 <= c < 2 ^ (32 - Z.of_nat n) ->
  Nat.iter n bit_step c = c * 2 ^ Z.of_nat n.
Proof.
  intros Hn Hc. induction n as [|n IH]; [simpl; lia|].
  rewrite Nat.iter_succ, IH; [|lia|].
  2: { split; [lia|]. eapply Z.lt_le_trans; [apply Hc|]. apply Z.pow_le_mono_r; lia. }
  assert (Hlt : 0 <= c * 2 ^ Z.of_nat n < 2 ^ 31).
  { split; [nia|]. replace 31 with ((32 - Z.of_nat (S n)) + Z.of_nat n) by lia.
    rewrite Z.pow_add_r by lia. nia. }
  unfold bit_step. rewrite (testbit_above _ 31), Z.shiftl_mul_pow2 by (done || lia).
  rewrite Z.lxor_0_r, uw_id, Nat2Z.inj_succ, Z.pow_succ_r by (unfold in_uw; lia). lia.
Qed.

(** The 256 rows of the table, by evaluation. *)
Lemma crctab_spec i : 0 <= i < 256 -> crctab_at i = Nat.iter 8 bit_step (Z.shiftl i 24).
Proof.
  intros Hi.
  assert (H : forallb (fun n => crctab_at (Z.of_nat n) =?
    Nat.iter 8 bit_step (Z.shiftl (Z.of_nat n) 24)) (seq 0 256) = true) by (vm_compute; done).
  rewrite forallb_forall in H. apply Z.eqb_eq.
  rewrite <- (Z2Nat.id i) by lia. apply H. apply in_seq. lia.
Qed.

(** A 32-bit value is its top byte and the rest. *)
Lemma split_top c :
  in_uw 32 c -> c = Z.lxor (Z.shiftl (Z.shiftr c 24) 24) (Z.land c (Z.ones 24)).
Proof.
  intros Hc. apply Z.bits_inj'. intros i Hi.
  rewrite Z.lxor_spec, Z.land_spec, Z.shiftl_spec, Z.testbit_ones_nonneg by lia.
  destruct (Z.ltb_spec i 24).
  - rewrite (Z.testbit_neg_r _ (i - 24)) by lia. by rewrite andb_true_r.
  - rewrite Z.shiftr_spec, Z.sub_add by lia. rewrite andb_false_r. by destruct (Z.testbit c i).
Qed.

Lemma crc_index_range c b :
  in_uw 32 c -> 0 <= b < 256 -> 0 <= Z.lxor (Z.shiftr c 24) b < 256.
Proof.
  intros Hc Hb. apply (lxor_in_uw 8); [done| |done].
  unfold in_uw in *. rewrite Z.shiftr_div_pow2 by done. div_lia.
Qed.

Lemma COMPUTE_byte_step c b :
  in_uw 32 c -> 0 <= b < 256 -> COMPUTE c b = byte_step c b.
Proof.
  intros Hc Hb. unfold COMPUTE, byte_step.
  rewrite crctab_spec by (by apply crc_index_range).
  rewrite (split_top c) at 3 by done.
  rewrite (Z.lxor_comm (Z.shiftl _ _) (Z.land _ _)), Z.lxor_assoc, <- Z.shiftl_lxor,
    bit_steps_lxor, (bit_steps_low 8 (Z.land c (Z.ones 24))).
  - f_equal. rewrite Z.shiftl_mul_pow2 by done. unfold uw.
    rewrite Z.land_ones by done. change (2 ^ 32) with (2 ^ 24 * 2 ^ 8).
    by rewrite Zmult_mod_distr_r.
  - lia.
  - rewrite Z.land_ones by done. by apply Z.mod_pos_bound.
Qed.

#[local] Arguments byte_step : simpl never.
#[local] Arguments COMPUTE : simpl never.

Lemma byte_step_range c b : in_uw 32 (byte_step c b).
Proof. apply bit_step_range. Qed.

Lemma fold_byte_step_range l c : in_uw 32 c -> in_uw 32 (fold_left byte_step l c).
Proof. apply fold_left_preserves. intros. apply byte_step_range. Qed.

Lemma fold_COMPUTE l c :
  in_uw 32 c ->
  fold_left (fun crc b => COMPUTE crc (byte_Z b)) l c = fold_left byte_step (byte_Z <$> l) c.
Proof.
  apply (fold_left_fmap_ext (in_uw 32)); intros.
  - apply COMPUTE_byte_step; [assumption|apply byte_Z_range].
  - rewrite COMPUTE_byte_step by (assumption || apply byte_Z_range). apply byte_step_range.
Qed.

Lemma crc_length_S f crc len :
  crc_length (S f) crc len =
    if len =? 0 then crc
    else crc_length f (COMPUTE crc (Z.land len 0xff)) (Z.shiftr len 8).
Proof. reflexivity. Qed.

Lemma fold_left_cons {A B} (f : A -> B -> A) b l a :
  fold_left f (b :: l) a = fold_left f l (f a b).
Proof. reflexivity. Qed.

Lemma crc_length_spec fuel c len :
  in_uw 32 c -> crc_length fuel c len = fold_left byte_step (length_bytes fuel len) c.
Proof.
  revert c len. induction fuel as [|f IH]; intros c len Hc; [reflexivity|].
  rewrite crc_length_S. cbn [length_bytes]. destruct (len =? 0); [reflexivity|].
  rewrite fold_left_cons, <- IH by apply byte_step_range. f_equal.
  apply COMPUTE_byte_step; [exact Hc|].
  change 0xff with (Z.ones 8). rewrite Z.land_ones by lia. apply Z.mod_pos_bound. lia.
Qed.

(** More than [k] rounds change nothing for a length of at most [k] bytes. *)
Lemma length_bytes_enough k n len :
  0 <= len < 2 ^ (8 * Z.of_nat k) -> length_bytes (k + n) len = length_bytes k len.
Proof.
  revert len. induction k as [|k IH]; intros len Hlen.
  - assert (len = 0) as -> by (simpl in Hlen; lia). by destruct n.
  - cbn [length_bytes Nat.add]. destruct (len =? 0); [reflexivity|]. f_equal. apply IH.
    rewrite Z.shiftr_div_pow2 by lia.
    replace (8 * Z.of_nat (S k)) with (8 + 8 * Z.of_nat k) in Hlen by lia.
    rewrite Z.pow_add_r in Hlen by lia. split; [apply Z.div_pos; lia|].
    apply Z.div_lt_upper_bound; lia.
Qed.

(** ** A step loses no information *)

Lemma bit_step_zero c : in_uw 32 c -> bit_step c = 0 -> c = 0.
Proof.
  intros Hc H. assert (Hodd : Z.testbit (bit_step c) 0 = Z.testbit c 31).
  { unfold bit_step. rewrite Z.lxor_spec, testbit_uw, Z.shiftl_spec by lia.
    by destruct (Z.testbit c 31). }
  rewrite H, Z.bits_0 in Hodd. unfold bit_step in H. rewrite <- Hodd, Z.lxor_0_r in H.
  apply Z.bits_inj'. intros i Hi. rewrite Z.bits_0.
  destruct (Z.lt_ge_cases i 31) as [Hlt|Hge].
  - apply (f_equal (fun z => Z.testbit z (i + 1))) in H.
    rewrite Z.bits_0, testbit_uw, Z.shiftl_spec, (proj2 (Z.ltb_lt _ _)), andb_true_r in H by lia.
    by replace (i + 1 - 1) with i in H by lia.
  - destruct (decide (i = 31)) as [->|]; [done|]. apply (testbit_above c 32); [apply Hc|lia].
Qed.

Lemma bit_steps_inj n a b :
  in_uw 32 a -> in_uw 32 b -> Nat.iter n bit_step a = Nat.iter n bit_step b -> a = b.
Proof.
  intros Ha Hb H. apply Z.lxor_eq.
  assert (Hx : Nat.iter n bit_step (Z.lxor a b) = 0) by (rewrite bit_steps_lxor, H; apply Z.lxor_nilpotent).
  assert (Hr : in_uw 32 (Z.lxor a b)) by (apply lxor_in_uw; [lia|exact Ha|exact Hb]).
  revert Hx Hr. generalize (Z.lxor a b). clear. induction n as [|n IH]; intros c Hx Hr; [exact Hx|].
  rewrite Nat.iter_succ_r in Hx. apply bit_step_zero; [exact Hr|].
  apply IH; [exact Hx|apply bit_step_range].
Qed.

Lemma byte_step_eq c b : byte_step c b = Nat.iter 8 bit_step (Z.lxor c (Z.shiftl b 24)).
Proof. reflexivity. Qed.

Lemma byte_step_inj c1 c2 b1 b2 :
  in_uw 32 c1 -> in_uw 32 c2 -> 0 <= b1 < 256 -> 0 <= b2 < 256 ->
  byte_step c1 b1 = byte_step c2 b2 -> (c1 = c2 <-> b1 = b2).
Proof.
  assert (Hshift : forall b, 0 <= b < 256 -> in_uw 32 (Z.shiftl b 24)).
  { intros b Hb. unfold in_uw. rewrite Z.shiftl_mul_pow2 by lia. lia. }
  assert (Hcancel : forall x y z, Z.lxor x y = Z.lxor x z -> y = z).
  { intros x y z H. apply (f_equal (Z.lxor x)) in H.
    by rewrite <- !Z.lxor_assoc, Z.lxor_nilpotent, !Z.lxor_0_l in H. }
  intros Hc1 Hc2 Hb1 Hb2 H. rewrite !byte_step_eq in H.
  apply (bit_steps_inj 8) in H; [|apply lxor_in_uw; auto; lia..].
  split; [intros ->|intros ->].
  - apply Hcancel in H. rewrite !Z.shiftl_mul_pow2 in H by lia. lia.
  - apply (Hcancel (Z.shiftl b2 24)). by rewrite !(Z.lxor_comm (Z.shiftl b2 24)).
Qed.

(** Two remainders that differ still do after the same bytes. *)
Lemma fold_byte_step_inj l c1 c2 :
  Forall (fun b => 0 <= b < 256) l -> in_uw 32 c1 -> in_uw 32 c2 ->
  fold_left byte_step l c1 = fold_left byte_step l c2 -> c1 = c2.
Proof.
  apply (fold_left_inj (in_uw 32)); [|intros; apply byte_step_range].
  intros a1 a2 b H1 H2 Hb H. apply (byte_step_inj a1 a2 b b) in H as [_ Hc]; auto.
Qed.

Lemma lnot_u32_inj a b : in_uw 32 a -> in_uw 32 b -> u32 (Z.lnot a) = u32 (Z.lnot b) -> a = b.
Proof. unfold in_uw, uw, Z.lnot. intros. Z.to_euclidean_division_equations. lia. Qed.

Lemma length_bytes_range k len : Forall (fun b => 0 <= b < 256) (length_bytes k len).
Proof.
  revert len. induction k as [|k IH]; intros len; cbn [length_bytes]; [constructor|].
  destruct (len =? 0); constructor; [|apply IH].
  change 0xff with (Z.ones 8). rewrite Z.land_ones by lia. apply Z.mod_pos_bound. lia.
Qed.

Lemma bytes_range (l : list byte) : Forall (fun b => 0 <= b < 256) (byte_Z <$> l).
Proof. apply Forall_fmap, Forall_forall. intros b _. apply byte_Z_range. Qed.

(** ** Properties *)

(** C36: the table-driven routine is the bitwise one.  For a buffer of fewer
    than 2^31 bytes [crc32] is the complement of the remainder, computed a bit
    at a time, of the buffer followed by the bytes of its length modulo the
    polynomial of cksum(1); four rounds of the second loop are all it makes. *)
Theorem crc32_correct (buf : list byte) :
  Z.of_nat (length buf) < 2 ^ 31 ->
  let len := Z.of_nat (length buf) in
  crc32 buf len = crc_spec ((byte_Z <$> buf) ++ length_bytes 4 len) /\
  forall n, length_bytes (4 + n) len = length_bytes 4 len.
Proof.
  intros Hlen len. split; [|intros n; apply (length_bytes_enough 4); simpl; lia].
  unfold crc32, crc_spec. rewrite fold_left_app. subst len.
  rewrite Nat2Z.id, firstn_all, fold_COMPUTE, crc_length_spec; [reflexivity| |].
  - apply fold_byte_step_range. split; lia.
  - split; lia.
Qed.

(** the checksum tells apart two buffers that differ in one byte. *)
Theorem crc32_detects_byte_error (pre post : list byte) (x y : byte) :
  Z.of_nat (length pre + length post) < 2 ^ 31 - 1 -> x <> y ->
  let len := Z.of_nat (length pre + 1 + length post) in
  crc32 (pre ++ x :: post) len <> crc32 (pre ++ y :: post) len.
Proof.
  intros Hlen Hxy len. subst len.
  assert (Hcrc : forall z, crc32 (pre ++ z :: post) (Z.of_nat (length pre + 1 + length post)) =
    u32 (Z.lnot (fold_left byte_step
      ((byte_Z <$> post) ++ length_bytes 4 (Z.of_nat (length pre + 1 + length post)))
      (byte_step (fold_left byte_step (byte_Z <$> pre) 0) (byte_Z z))))).
  { intros z. replace (length pre + 1 + length post)%nat with (length (pre ++ z :: post))
      by (rewrite length_app; simpl; lia).
    unfold crc32. rewrite Nat2Z.id, firstn_all, fold_COMPUTE, crc_length_spec
      by (first [apply fold_byte_step_range|idtac]; split; lia).
    by rewrite fmap_app, fmap_cons, !fold_left_app, fold_left_cons. }
  rewrite !Hcrc. intros H. apply lnot_u32_inj in H;
    [|apply fold_byte_step_range, byte_step_range..].
  apply fold_byte_step_inj in H; [|apply Forall_app; split|apply byte_step_range..];
    [|apply bytes_range|apply length_bytes_range].
  assert (H0 : in_uw 32 (fold_left byte_step (byte_Z <$> pre) 0))
    by (apply fold_byte_step_range; split; lia).
  apply byte_step_inj in H as [Hb _]; [|exact H0|exact H0|apply byte_Z_range..].
  apply Hxy, byte_Z_inj. by apply Hb.
Qed.

Lemma crc32_detects_byte_error_witness :
  crc32 ([x00; x00] ++ x00 :: [x00]) 4 <> crc32 ([x00; x00] ++ x01 :: [x00]) 4.
Proof.
  apply (crc32_detects_byte_error [x00; x00] [x00] x00 x01); [vm_compute; reflexivity|discriminate].
Defined.

Lemma crc32_correct_witness :
  let buf := [x31; x32; x33; x34; x35; x36; x37; x38; x39] in
  crc32 buf 9 = 930766865 /\
  crc32 buf 9 = crc_spec ((byte_Z <$> buf) ++ length_bytes 4 9).
Proof.
  intros buf. split; [vm_compute; reflexivity|].
  apply (crc32_correct buf). vm_compute. reflexivity.
Defined.
