(* ===== verification/Strtoul.v ===== *)
(** * Decimal text: [strtoul] and [strchr]

    The two functions of the C library the parsers of version numbers call:
    [strtoul] in base 10 in the "C" locale, with a 64-bit [unsigned long], and
    the split of a string at the first dot.  Their relation to the [%u] of
    the file CInt is proved here. *)

From Stdlib Require Import ZArith Lia Bool Ascii.
From stdpp Require Import base list option strings pretty numbers.
From S2P Require Import Prelude CInt.

Open Scope string_scope.
Open Scope Z_scope.

Definition ULONG_MAX : Z := 2 ^ 64 - 1.

(** [isspace]: space, and tab to carriage return. *)
Definition isspace (a : ascii) : bool :=
  let n := Z.of_nat (nat_of_ascii a) in (n =? 32) || ((9 <=? n) && (n <=? 13)).

Definition digit (a : ascii) : option Z :=
  let n := Z.of_nat (nat_of_ascii a) in
  if (48 <=? n) && (n <=? 57) then Some (n - 48) else None.

(** The digits at the head of the string, accumulated, and what follows. *)
Fixpoint scan_digits (acc : Z) (s : string) : Z * string :=
  match s with
  | String a s' =>
      match digit a with
      | Some d => scan_digits (10 * acc + d) s'
      | None => (acc, s)
      end
  | EmptyString => (acc, s)
  end.

Definition starts_with_digit (s : string) : bool :=
  match s with
  | String a _ => match digit a with Some _ => true | None => false end
  | EmptyString => false
  end.

Fixpoint skip_spaces (s : string) : string :=
  match s with
  | String a s' => if isspace a then skip_spaces s' else s
  | EmptyString => s
  end.

(** The sign, and the rest. *)
Definition scan_sign (s : string) : bool * string :=
  match s with
  | String a s' => if Ascii.eqb a "-" then (true, s')
                   else if Ascii.eqb a "+" then (false, s') else (false, s)
  | EmptyString => (false, s)
  end.

(** [strtoul(s, &endp, 10)]: the value and the text [endp] points at, which is
    [s] itself when there are no digits to convert. *)
Definition strtoul (s : string) : Z * string :=
  let (neg, t) := scan_sign (skip_spaces s) in
  if starts_with_digit t then
    let (n, rest) := scan_digits 0 t in
    (if ULONG_MAX <? n then ULONG_MAX else if neg then uw 64 (- n) else n, rest)
  else (0, s).

(** [strchr(s, '.')]: the text before the first dot and the text after it. *)
Fixpoint split_dot (s : string) : option (string * string) :=
  match s with
  | EmptyString => None
  | String a s' =>
      if Ascii.eqb a "." then Some ("", s')
      else
        match split_dot s' with
        | Some (before, after) => Some (String a before, after)
        | None => None
        end
  end.

(** ** Printing and reading back *)

(** [n] in decimal. *)
Definition dec (n : Z) : string := pretty (Z.to_N n).

Lemma fmt_u_dec z : fmt_u z = dec (u32 z).
Proof. reflexivity. Qed.

Lemma digit_pretty_char (d : N) : (d < 10)%N -> digit (pretty_N_char d) = Some (Z.of_N d).
Proof.
  intros Hd. assert (d = 0 \/ d = 1 \/ d = 2 \/ d = 3 \/ d = 4 \/ d = 5 \/ d = 6 \/ d = 7
    \/ d = 8 \/ d = 9)%N by lia. by destruct_or!; subst.
Qed.

(** What a scan of digits makes of the decimal text of [x] put before [s]. *)
Lemma scan_digits_go (x : N) s :
  scan_digits 0 (pretty_N_go x s) = scan_digits (Z.of_N x) s.
Proof.
  revert s. induction (N.lt_wf_0 x) as [x _ IH]; intros s.
  destruct (decide (x = 0)%N) as [->|]; [by rewrite pretty_N_go_0|].
  rewrite pretty_N_go_step by lia. rewrite IH by (apply N.div_lt; lia). simpl.
  rewrite digit_pretty_char by (apply N.mod_lt; lia). f_equal.
  rewrite (N.div_mod x 10) at 3 by lia. lia.
Qed.

(** The digits of a number: not empty, and digits only. *)
Definition all_digits (s : string) : Prop :=
  forall a, In a (String.list_ascii_of_string s) -> exists d, digit a = Some d.

Lemma all_digits_go (x : N) s : all_digits s -> all_digits (pretty_N_go x s).
Proof.
  revert s. induction (N.lt_wf_0 x) as [x _ IH]; intros s Hs.
  destruct (decide (x = 0)%N) as [->|]; [by rewrite pretty_N_go_0|].
  rewrite pretty_N_go_step by lia. apply IH; [apply N.div_lt; lia|].
  simpl. intros a [<-|Ha]; [|by apply Hs].
  eexists. apply digit_pretty_char. apply N.mod_lt. lia.
Qed.

Lemma go_not_empty (x : N) s : s <> "" -> pretty_N_go x s <> "".
Proof.
  revert s. induction (N.lt_wf_0 x) as [x _ IH]; intros s Hs.
  destruct (decide (x = 0)%N) as [->|]; [by rewrite pretty_N_go_0|].
  rewrite pretty_N_go_step by lia. apply IH; [apply N.div_lt; lia|discriminate].
Qed.

Lemma dec_digits n : all_digits (dec n) /\ dec n <> "".
Proof.
  unfold dec, pretty, pretty_N. case_decide as Hn.
  - split; [|done]. intros a [<-|[]]. by exists 0.
  - split; [apply all_digits_go; intros a []|]. rewrite pretty_N_go_step by lia. by apply go_not_empty.
Qed.

Lemma scan_digits_app acc s t :
  all_digits s -> starts_with_digit t = false ->
  scan_digits acc (s +:+ t) = ((scan_digits acc s).1, t).
Proof.
  intros Hs Ht. revert acc. induction s as [|a s IH]; intros acc; simpl.
  - destruct t as [|b t]; simpl in *; [done|]. by destruct (digit b).
  - destruct (Hs a) as [d ->]; [by left|]. apply IH. intros b Hb. apply Hs. by right.
Qed.

Lemma scan_digits_dec n : 0 <= n -> (scan_digits 0 (dec n)).1 = n.
Proof.
  intros Hn. unfold dec, pretty, pretty_N. case_decide as H0.
  - change ((scan_digits 0 "0").1) with 0. lia.
  - rewrite scan_digits_go. cbn [scan_digits fst]. lia.
Qed.

Lemma digit_not_special a d :
  digit a = Some d ->
  isspace a = false /\ Ascii.eqb a "-" = false /\ Ascii.eqb a "+" = false /\
  Ascii.eqb a "." = false.
Proof.
  unfold digit, isspace. intros H.
  destruct ((48 <=? Z.of_nat (nat_of_ascii a)) && (Z.of_nat (nat_of_ascii a) <=? 57)) eqn:E;
    [|done]. bool_to_prop.
  assert (Hne : forall c, (nat_of_ascii c < 48)%nat -> Ascii.eqb a c = false).
  { intros c Hc. apply Ascii.eqb_neq. intros ->. lia. }
  split_and!; [|apply Hne; vm_compute; lia..].
  apply orb_false_iff. split; [apply Z.eqb_neq; lia|]. apply andb_false_iff. right.
  apply Z.leb_gt. lia.
Qed.

(** [strtoul] on the decimal text of a number and a text that does not go on
    with a digit. *)
Lemma strtoul_dec n t :
  0 <= n <= ULONG_MAX -> starts_with_digit t = false -> strtoul (dec n +:+ t) = (n, t).
Proof.
  intros Hn Ht. destruct (dec_digits n) as [Hd Hne].
  pose proof (scan_digits_dec n ltac:(lia)) as Hv.
  pose proof (scan_digits_app 0 (dec n) t Hd Ht) as Happ. rewrite Hv in Happ.
  destruct (dec n) as [|a s] eqn:E; [done|].
  destruct (Hd a) as [d Ha]; [by left|].
  destruct (digit_not_special a d Ha) as (Hsp & Hm & Hp & _).
  unfold strtoul. simpl. rewrite Hsp. simpl. rewrite Hm, Hp. simpl. rewrite Ha.
  simpl in Happ. rewrite Ha in Happ. rewrite Happ.
  by rewrite (proj2 (Z.ltb_ge _ _)) by lia.
Qed.

Lemma split_dot_app s t : all_digits s -> split_dot (s +:+ String "." t) = Some (s, t).
Proof.
  intros Hs. induction s as [|a s IH]; simpl; [done|].
  destruct (Hs a) as [d Ha]; [by left|].
  destruct (digit_not_special a d Ha) as (_ & _ & _ & ->).
  rewrite IH; [done|]. intros b Hb. apply Hs. by right.
Qed.

Lemma split_dot_digits s : all_digits s -> split_dot s = None.
Proof.
  intros Hs. induction s as [|a s IH]; simpl; [done|].
  destruct (Hs a) as [d Ha]; [by left|].
  destruct (digit_not_special a d Ha) as (_ & _ & _ & ->).
  rewrite IH; [done|]. intros b Hb. apply Hs. by right.
Qed.

Lemma string_app_empty s : String.append s "" = s.
Proof.
  induction s as [|a s IH]; [reflexivity|].
  change (String a (s +:+ "") = String a s). by rewrite IH.
Qed.

Lemma strtoul_dec_end n : 0 <= n <= ULONG_MAX -> strtoul (dec n) = (n, "").
Proof. intros Hn. rewrite <- (string_app_empty (dec n)). by apply strtoul_dec. Qed.

Lemma dec_not_empty n : dec n <> "".
Proof. apply dec_digits. Qed.

Lemma dec_all_digits n : all_digits (dec n).
Proof. apply dec_digits. Qed.

#[export] Hint Resolve dec_not_empty dec_all_digits : cstmt.
