(* ===== verification/Version.v ===== *)
(** * libstuff/version_number.c and libstuff/macosx_deployment_target.c

    The parsers of version numbers given on the command line or in the
    environment, on top of [strtoul] (file Strtoul). *)

From Stdlib Require Import ZArith Lia Bool Ascii.
From stdpp Require Import base list option strings numbers.
From S2P Require Import Prelude CInt Strtoul.

Open Scope string_scope.
Open Scope Z_scope.

(** ** get_version_number *)

(** The error reported: which field, and which of the two messages. *)
Inductive version_field := FirstField | SecondField | ThirdField.
Inductive version_error :=
  | NotANumber (f : version_field)
  | TooLarge (f : version_field).

(** [x = p; dot = strchr(x, '.'); ...]: the texts of [x], [y] and [z], where
    [y] and [z] are NULL unless a dot with something after it was found. *)
Definition split_version (p : string) : string * option string * option string :=
  match split_dot p with
  | Some (x, String c t) =>
      let y := String c t in
      match split_dot y with
      | Some (y', String c' t') =>
          let z := String c' t' in
          match split_dot z with
          | Some (z', _) => (x, Some y', Some z')
          | None => (x, Some y', Some z)
          end
      | _ => (x, Some y, None)
      end
  | _ => (p, None, None)
  end.

(** One field: [(uint32_t)strtoul(s, &endp, 10)], the test of [*endp] and the
    one of the range. *)
Definition version_part (f : version_field) (maximum : Z) (s : string)
    : version_error + Z :=
  let (n, endp) := strtoul s in
  let X := u32 n in
  match endp with
  | String _ _ => inl (NotANumber f)
  | EmptyString => if maximum <? X then inl (TooLarge f) else inr X
  end.

Definition get_version_number (argument : string) : version_error + Z :=
  let '(x, y, z) := split_version argument in
  match version_part FirstField 0xffff x with
  | inl e => inl e
  | inr X =>
      let pack Y Z := u32 (Z.lor (Z.lor (Z.shiftl X 16) (Z.shiftl Y 8)) Z) in
      match y with
      | None => inr (pack 0 0)
      | Some y =>
          match version_part SecondField 0xff y with
          | inl e => inl e
          | inr Y =>
              match z with
              | None => inr (pack Y 0)
              | Some z =>
                  match version_part ThirdField 0xff z with
                  | inl e => inl e
                  | inr Z => inr (pack Y Z)
                  end
              end
          end
      end
  end.

(** [*value] after the call: it is set to 0 first and stays 0 on an error. *)
Definition version_value (argument : string) : Z :=
  match get_version_number argument with inl _ => 0 | inr v => v end.

(** ** macosx_deployment_target *)

Record macosx_deployment_target := {
  dt_major : Z;
  dt_minor : Z;
  dt_name : string
}.

(** The warnings the call prints. *)
Inductive target_warning :=
  | UnknownOsrelease (osversion used : string)
  | UnknownCommandLine (p used : string)
  | UnknownEnvironment (p used : string).

(** [put_macosx_deployment_target]: the static pointer after the call. *)
Definition put_macosx_deployment_target (target : option string) : option string := target.

(** The parse of the user's value; [None] is [goto use_default]. *)
Definition parse_user_target (p : string) : option macosx_deployment_target :=
  let (ten, endp) := strtoul p in
  match endp with
  | String a q =>
      if negb (Ascii.eqb a ".") then None
      else if negb (u32 ten =? 10) then None
      else
        let (maj, endp) := strtoul q in
        if u32 maj =? 0 then None
        else
          match endp with
          | EmptyString => Some {| dt_major := u32 maj; dt_minor := 0; dt_name := p |}
          | String a q =>
              if negb (Ascii.eqb a ".") then None
              else
                let (min, endp) := strtoul q in
                match endp with
                | EmptyString => Some {| dt_major := u32 maj; dt_minor := u32 min; dt_name := p |}
                | String _ _ => None
                end
          end
  | EmptyString => None
  end.

(** The parse of the release of the system; [None] is [goto bad_system_value]. *)
Definition parse_osrelease (osversion : string) : option macosx_deployment_target :=
  let (maj, endp) := strtoul osversion in
  match endp with
  | String a q =>
      if negb (Ascii.eqb a ".") then None
      else if u32 maj <=? 4 then None
      else
        let major := u32 maj - 4 in
        let (min, endp) := strtoul q in
        match endp with
        | String a' _ =>
            if negb (Ascii.eqb a' ".") then None
            else Some {| dt_major := major; dt_minor := u32 min;
                         dt_name := "10." +:+ fmt_u major +:+ "." +:+ fmt_u (u32 min) |}
        | EmptyString => None
        end
  | EmptyString => None
  end.

Definition highest_known_target : macosx_deployment_target :=
  {| dt_major := 6; dt_minor := 0; dt_name := "10.6" |}.

(** From [use_default] on; [osversion] is what [sysctl] reports, or the text
    compiled in where it does not exist. *)
Definition default_target (osversion : string) : macosx_deployment_target * list target_warning :=
  match parse_osrelease osversion with
  | Some v => (v, [])
  | None => (highest_known_target, [UnknownOsrelease osversion (dt_name highest_known_target)])
  end.

Definition get_macosx_deployment_target (osversion : string)
    (command_line env : option string) : macosx_deployment_target * list target_warning :=
  let p := match command_line with Some t => Some t | None => env end in
  match p ≫= parse_user_target with
  | Some v => (v, [])
  | None =>
      let (v, ws) := default_target osversion in
      (v, ws ++
        match p with
        | None => []
        | Some p => [match command_line with
                     | Some _ => UnknownCommandLine p (dt_name v)
                     | None => UnknownEnvironment p (dt_name v)
                     end]
        end)%list
  end.

(** The text compiled in on systems that are not Apple's. *)
Definition port_osversion : string := "10.5".

(** ** Lemmas *)

Lemma version_part_dec f maximum n :
  0 <= n <= ULONG_MAX ->
  version_part f maximum (dec n) =
    if maximum <? n mod 2 ^ 32 then inl (TooLarge f) else inr (n mod 2 ^ 32).
Proof. intros Hn. unfold version_part. by rewrite strtoul_dec_end. Qed.

Lemma version_part_in_range f maximum n :
  0 <= n <= maximum -> maximum < 2 ^ 32 -> version_part f maximum (dec n) = inr n.
Proof.
  intros Hn Hm. rewrite version_part_dec by (unfold ULONG_MAX; lia).
  rewrite Z.mod_small by lia. by rewrite (proj2 (Z.ltb_ge _ _)) by lia.
Qed.

(** The fields do not overlap. *)
Lemma pack_version X Y Z :
  0 <= X <= 0xffff -> 0 <= Y <= 0xff -> 0 <= Z <= 0xff ->
  u32 (Z.lor (Z.lor (Z.shiftl X 16) (Z.shiftl Y 8)) Z) = X * 65536 + Y * 256 + Z.
Proof.
  intros HX HY HZ. rewrite !Z.shiftl_mul_pow2 by lia.
  assert (H1 : Z.lor (X * 2 ^ 16) (Y * 2 ^ 8) = X * 2 ^ 16 + Y * 2 ^ 8).
  { replace (X * 2 ^ 16) with (2 ^ 16 * X) by lia. apply lor_disjoint_add; lia. }
  rewrite H1. replace (X * 2 ^ 16 + Y * 2 ^ 8) with (2 ^ 8 * (X * 2 ^ 8 + Y)) by lia.
  rewrite lor_disjoint_add by lia. rewrite uw_id; unfold in_uw; lia.
Qed.

Lemma dec_cases n : exists a s, dec n = String a s.
Proof. destruct (dec n) as [|a s] eqn:E; [by apply dec_not_empty in E|]. eauto. Qed.

Lemma append_cons a s t : String a s +:+ t = String a (s +:+ t).
Proof. reflexivity. Qed.

(** [split_version] on a first field and a text [t] that is not empty. *)
Lemma split_version_field X t :
  t <> "" ->
  split_version (dec X +:+ String "." t) =
    match split_dot t with
    | Some (y, String c u) =>
        match split_dot (String c u) with
        | Some (z, _) => (dec X, Some y, Some z)
        | None => (dec X, Some y, Some (String c u))
        end
    | _ => (dec X, Some t, None)
    end.
Proof.
  intros Ht. unfold split_version. rewrite split_dot_app by apply dec_all_digits.
  by destruct t.
Qed.

Lemma dec_append_not_empty n t : dec n +:+ t <> "".
Proof. by destruct (dec_cases n) as (a & s & ->). Qed.

(** The text of a version number of three fields, then [rest]. *)
Definition version_text (X Y Z : Z) (rest : string) : string :=
  dec X +:+ String "." (dec Y +:+ String "." (dec Z +:+ rest)).

Lemma split_version_three X Y Z :
  split_version (version_text X Y Z "") = (dec X, Some (dec Y), Some (dec Z)).
Proof.
  unfold version_text. rewrite split_version_field by apply dec_append_not_empty.
  rewrite split_dot_app, string_app_empty by apply dec_all_digits.
  destruct (dec_cases Z) as (a & s & E). rewrite E, <- E.
  by rewrite split_dot_digits by apply dec_all_digits.
Qed.

Lemma split_version_trailing X Y Z rest :
  split_version (version_text X Y Z (String "." rest)) = (dec X, Some (dec Y), Some (dec Z)).
Proof.
  unfold version_text. rewrite split_version_field by apply dec_append_not_empty.
  rewrite split_dot_app by apply dec_all_digits.
  destruct (dec Z +:+ String "." rest) as [|a s] eqn:E; [by apply dec_append_not_empty in E|].
  rewrite <- E. by rewrite split_dot_app by apply dec_all_digits.
Qed.

Lemma split_version_two X Y :
  split_version (dec X +:+ String "." (dec Y)) = (dec X, Some (dec Y), None).
Proof.
  rewrite split_version_field by apply dec_not_empty.
  by rewrite split_dot_digits by apply dec_all_digits.
Qed.

Lemma split_version_one X : split_version (dec X) = (dec X, None, None).
Proof. unfold split_version. by rewrite split_dot_digits by apply dec_all_digits. Qed.

Lemma strtoul_ten t : strtoul ("10." +:+ t) = (10, String "." t).
Proof. apply (strtoul_dec 10 (String "." t)); [unfold ULONG_MAX; lia|done]. Qed.

(** ** Properties *)

(** A version number printed as one, two or three decimal fields in range
    is read back: [X.Y.Z] gives (X << 16) | (Y << 8) | Z, a missing field
    counting as zero. *)
Theorem version_number_roundtrip (X Y Z : Z) :
  0 <= X <= 0xffff -> 0 <= Y <= 0xff -> 0 <= Z <= 0xff ->
  get_version_number (version_text X Y Z "") = inr (X * 65536 + Y * 256 + Z) /\
  get_version_number (dec X +:+ String "." (dec Y)) = inr (X * 65536 + Y * 256) /\
  get_version_number (dec X) = inr (X * 65536).
Proof.
  intros HX HY HZ. unfold get_version_number.
  rewrite split_version_three, split_version_two, split_version_one.
  rewrite !version_part_in_range by lia. rewrite !pack_version by lia.
  split_and!; f_equal; lia.
Qed.

Lemma version_number_roundtrip_witness :
  get_version_number "10.15.7" = inr (10 * 65536 + 15 * 256 + 7) /\
  get_version_number "10.15" = inr (10 * 65536 + 15 * 256) /\
  get_version_number "10" = inr (10 * 65536).
Proof. apply (version_number_roundtrip 10 15 7); lia. Defined.

(** What the range checks let through.  The fields are tested after the
    conversion to 32 bits, so any number below 2^64 is accepted whose last
    32 bits are in range; and whatever follows the third field and a dot is
    ignored. *)
Theorem version_number_accepts_more (n X Y Z : Z) (rest : string) :
  0 <= n < 2 ^ 64 -> 0 <= X <= 0xffff -> 0 <= Y <= 0xff -> 0 <= Z <= 0xff ->
  get_version_number (dec n) =
    (if 0xffff <? n mod 2 ^ 32 then inl (TooLarge FirstField)
     else inr ((n mod 2 ^ 32) * 65536)) /\
  get_version_number (version_text X Y Z (String "." rest)) =
    get_version_number (version_text X Y Z "").
Proof.
  intros Hn HX HY HZ. unfold get_version_number.
  rewrite split_version_three, split_version_trailing, split_version_one. split; [|done].
  rewrite version_part_dec by (unfold ULONG_MAX; lia).
  destruct (Z.ltb_spec 0xffff (n mod 2 ^ 32)) as [Hlt|Hge]; [done|].
  pose proof (Z.mod_pos_bound n (2 ^ 32) ltac:(lia)).
  rewrite pack_version by lia. f_equal. lia.
Qed.

Lemma version_number_accepts_more_witness :
  get_version_number "4294967297" = inr 65536 /\
  get_version_number "1.2.3.junk" = get_version_number "1.2.3".
Proof.
  apply (version_number_accepts_more 4294967297 1 2 3 "junk"); lia.
Defined.

(** The deployment target.  A well-formed "10.x" or "10.x.y" given on the
    command line is taken, with no warning and whatever the environment says;
    without a command line the same holds of the environment.  With neither,
    a system without [sysctl] does not get the 10.5 the port means to claim:
    the text has no second dot, so the target is 10.6 with a warning. *)
Theorem deployment_target_cases (x y : Z) (os : string) (env : option string) :
  0 < x < 2 ^ 32 -> 0 <= y < 2 ^ 32 ->
  let two := "10." +:+ dec x in
  let three := "10." +:+ dec x +:+ String "." (dec y) in
  get_macosx_deployment_target os (put_macosx_deployment_target (Some two)) env =
    ({| dt_major := x; dt_minor := 0; dt_name := two |}, []) /\
  get_macosx_deployment_target os (Some three) env =
    ({| dt_major := x; dt_minor := y; dt_name := three |}, []) /\
  get_macosx_deployment_target os None (Some three) =
    get_macosx_deployment_target os (Some three) env /\
  get_macosx_deployment_target port_osversion None None =
    ({| dt_major := 6; dt_minor := 0; dt_name := "10.6" |}, [UnknownOsrelease "10.5" "10.6"]).
Proof.
  intros Hx Hy two three.
  assert (Htwo : parse_user_target two = Some {| dt_major := x; dt_minor := 0; dt_name := two |}).
  { unfold parse_user_target. subst two.
    rewrite strtoul_ten. simpl.
    rewrite strtoul_dec_end, uw_id by (unfold ULONG_MAX, in_uw; lia).
    by rewrite (proj2 (Z.eqb_neq _ _)) by lia. }
  assert (Hthree : parse_user_target three =
    Some {| dt_major := x; dt_minor := y; dt_name := three |}).
  { unfold parse_user_target. subst three.
    rewrite strtoul_ten. simpl.
    rewrite strtoul_dec, uw_id by (unfold ULONG_MAX, in_uw; lia || done).
    rewrite (proj2 (Z.eqb_neq _ _)) by lia. simpl.
    by rewrite strtoul_dec_end, uw_id by (unfold ULONG_MAX, in_uw; lia). }
  unfold get_macosx_deployment_target, put_macosx_deployment_target. simpl.
  rewrite Htwo, Hthree. done.
Qed.

Lemma deployment_target_cases_witness :
  get_macosx_deployment_target "19.6.0" (put_macosx_deployment_target (Some "10.4")) None =
    ({| dt_major := 4; dt_minor := 0; dt_name := "10.4" |}, []) /\
  get_macosx_deployment_target "19.6.0" (Some "10.4.11") None =
    ({| dt_major := 4; dt_minor := 11; dt_name := "10.4.11" |}, []) /\
  get_macosx_deployment_target "19.6.0" None (Some "10.4.11") =
    get_macosx_deployment_target "19.6.0" (Some "10.4.11") None /\
  get_macosx_deployment_target port_osversion None None =
    ({| dt_major := 6; dt_minor := 0; dt_name := "10.6" |}, [UnknownOsrelease "10.5" "10.6"]).
Proof. apply (deployment_target_cases 4 11 "19.6.0" None); lia. Defined.
