(* ===== verification/Rounding.v ===== *)
(** * libstuff/rnd.c, libstuff/align.c and libstuff/hash_string.c

    Rounding to a power of two, guessing the alignment of a segment and of a
    whole Mach-O file, and the hash of the string tables. *)

From Stdlib Require Import ZArith Lia Bool Ascii.
From Stdlib Require Import Init.Byte.
From stdpp Require Import base list option numbers strings.
From S2P Require Import Prelude CInt LoaderH ByteSex HeaderSwap.

(** ** rnd.c *)

Definition rnd64 (v r : Z) : Z :=
  let r := u64 (r - 1) in
  let v := u64 (v + r) in
  Z.land v (u64 (Z.lnot r)).

Definition rnd32 (v r : Z) : Z :=
  let r := u32 (r - 1) in
  let v := u32 (v + r) in
  Z.land v (u32 (Z.lnot r)).

Definition rnd (v r : Z) : Z := rnd64 v r.

(** The common form of [rnd64] and [rnd32]. *)
Definition rnd_w (w v r : Z) : Z :=
  let r := uw w (r - 1) in Z.land (uw w (v + r)) (uw w (Z.lnot r)).

Lemma rnd_w_pow2 w k v :
  0 <= k < w -> in_uw w v ->
  rnd_w w v (2 ^ k) =
    if v + 2 ^ k - 1 <? 2 ^ w then (v + 2 ^ k - 1) / 2 ^ k * 2 ^ k else 0.
Proof.
  intros Hk Hv. unfold rnd_w, in_uw in *.
  assert (Hpow : 2 ^ k < 2 ^ w) by (apply Z.pow_lt_mono_r; lia).
  assert (0 < 2 ^ k) by lia.
  rewrite (uw_id w (2 ^ k - 1)) by (unfold in_uw; lia).
  replace (2 ^ k - 1) with (Z.ones k) by (rewrite Z.ones_equiv; lia).
  rewrite land_lnot_ones by (try apply uw_range; lia).
  rewrite Z.ones_equiv. replace (v + Z.pred (2 ^ k)) with (v + 2 ^ k - 1) by lia.
  destruct (Z.ltb_spec (v + 2 ^ k - 1) (2 ^ w)).
  - rewrite uw_id by (unfold in_uw; lia). done.
  - replace (uw w (v + 2 ^ k - 1)) with (v + 2 ^ k - 1 - 2 ^ w).
    + rewrite Z.div_small by lia. lia.
    + unfold uw. rewrite <- (Z.mod_add (v + 2 ^ k - 1) (-1)) by lia.
      rewrite Z.mod_small; lia.
Qed.

(** ** guess_align *)

(** [while((segalign & vmaddr) == 0)]; [None] when the fuel runs out. *)
Fixpoint guess_loop (fuel : nat) (segalign align vmaddr : Z) : option Z :=
  match fuel with
  | O => None
  | S f =>
      if Z.land segalign vmaddr =? 0
      then guess_loop f (u64 (Z.shiftl segalign 1)) (u32 (align + 1)) vmaddr
      else Some align
  end.

Definition clamp (align min max : Z) : Z :=
  let align := if align <? min then min else align in
  if max <? align then max else align.

(** A 64-bit address has a bit set after at most 64 rounds. *)
Definition guess_align (vmaddr min max : Z) : option Z :=
  if vmaddr =? 0 then Some max
  else align ← guess_loop 64 1 0 vmaddr; Some (clamp align min max).

(** ** hash_string *)

(** A [char] is signed. *)
Definition char_value (a : ascii) : Z := sw 8 (Z.of_nat (nat_of_ascii a)).

Definition hash_step (k : Z) (a : ascii) : Z :=
  Z.land (Z.lxor (Z.shiftl k 1 + Z.shiftr k 14) (char_value a)) 0x3fff.

Definition hash_string (key : string) : Z :=
  fold_left hash_step (String.list_ascii_of_string key) 0.

(** ** get_seg_align *)

Definition MAXSEGALIGN : Z := 15.
Definition MINSEGALIGN32 : Z := 2.
Definition MINSEGALIGN64 : Z := 3.
Definition MH_OBJECT : Z := 1.

(** How the call ends: with an alignment, in [fatal], or reading through the
    NULL pointer [mhp64]. *)
Inductive align_result :=
  | Aligned (align : Z)
  | FatalTruncated
  | FatalTwoHeaders
  | FatalZeroSize (i : nat)
  | FatalPastEnd (i : nat)
  | NullHeader.

Section get_seg_align.
(** The bytes of the file from [load_commands] on, read by the host [h]; what
    lies behind the end of the list reads as zero. *)
Variables (h : host) (load_commands : list byte) (swap_load_commands : bool).
Variables (mhp : option mach_header) (mhp64 : option mach_header_64).

(** [struct x l = *lcp; if(swap_load_commands) swap_x(&l, host_byte_sex);] *)
Definition read_command (o : nat) : load_command :=
  let l := ld_load_command h load_commands o in
  if swap_load_commands then swap_load_command l else l.
Definition read_segment (o : nat) : segment_command :=
  let sg := ld_segment_command h load_commands o in
  if swap_load_commands then swap_segment_command sg else sg.
Definition read_segment_64 (o : nat) : segment_command_64 :=
  let sg := ld_segment_command_64 h load_commands o in
  if swap_load_commands then swap_segment_command_64 sg else sg.
Definition read_section (o : nat) : section :=
  let s := ld_section h load_commands o in
  if swap_load_commands then swap_section_elem s else s.
Definition read_section_64 (o : nat) : section_64 :=
  let s := ld_section_64 h load_commands o in
  if swap_load_commands then swap_section_64_elem s else s.

Definition largest (align s_align : Z) : Z := if align <? s_align then s_align else align.

Definition section_align_32 (o : nat) (nsects : nat) : Z :=
  fold_left (fun align j => largest align (section_align (read_section (o + 56 + j * 68))))
    (seq 0 nsects) MINSEGALIGN32.

Definition section_align_64 (o : nat) (nsects : nat) : Z :=
  fold_left (fun align j => largest align (section_64_align (read_section_64 (o + 72 + j * 80))))
    (seq 0 nsects) MINSEGALIGN64.


(** [align] after the two [if]s of the body, for the command at [o]; [None]
    where [mhp64->filetype] is read and [mhp64] is NULL. *)
Definition command_align (ft : Z) (o : nat) : option Z :=
  let cmd := load_command_cmd (read_command o) in
  if cmd =? LC_SEGMENT then
    let sg := read_segment o in
    if ft =? MH_OBJECT
    then Some (section_align_32 o (Z.to_nat (segment_command_nsects sg)))
    else guess_align (segment_command_vmaddr sg) MINSEGALIGN32 MAXSEGALIGN
  else if cmd =? LC_SEGMENT_64 then
    m ← mhp64;
    let sg := read_segment_64 o in
    if mach_header_64_filetype m =? MH_OBJECT
    then Some (section_align_64 o (Z.to_nat (segment_command_64_nsects sg)))
    else guess_align (segment_command_64_vmaddr sg) MINSEGALIGN64 MAXSEGALIGN
  else Some MAXSEGALIGN.

(** The loop, for the [n] commands from number [i] on at offset [o]; the list
    collects the commands [error] complains about. *)
Fixpoint seg_align_loop (ft sizeofcmds : Z) (n i o : nat) (cur_align : Z)
    (errors : list nat) : align_result * list nat :=
  match n with
  | O => (Aligned cur_align, errors)
  | S n' =>
      let cmdsize := load_command_cmdsize (read_command o) in
      let errors := if cmdsize mod 4 =? 0 then errors else (errors ++ [i])%list in
      if cmdsize <=? 0 then (FatalZeroSize i, errors)
      else if sizeofcmds <? Z.of_nat o + cmdsize then (FatalPastEnd i, errors)
      else
        match command_align ft o with
        | None => (NullHeader, errors)
        | Some align =>
            seg_align_loop ft sizeofcmds n' (S i) (o + Z.to_nat cmdsize)
              (if align <? cur_align then align else cur_align) errors
        end
  end.

Definition get_seg_align (size : Z) : align_result * list nat :=
  let header (ncmds sizeofcmds sizeofhdr ft : Z) :=
    if size <? sizeofcmds + sizeofhdr then (FatalTruncated, [])
    else
      match mhp, mhp64 with
      | Some _, Some _ => (FatalTwoHeaders, [])
      | _, _ => seg_align_loop ft sizeofcmds (Z.to_nat ncmds) 0 0 MAXSEGALIGN []
      end in
  match mhp, mhp64 with
  | Some m, _ => header (mach_header_ncmds m) (mach_header_sizeofcmds m) 28
                   (mach_header_filetype m)
  | None, Some m => header (mach_header_64_ncmds m) (mach_header_64_sizeofcmds m) 32
                   (mach_header_64_filetype m)
  | None, None => (NullHeader, [])
  end.
End get_seg_align.

(** ** Lemmas *)

Lemma land_pow2_eqb j v : 0 <= j -> (Z.land (2 ^ j) v =? 0) = negb (Z.testbit v j).
Proof.
  intros Hj. destruct (Z.testbit v j) eqn:Hb; simpl.
  - apply Z.eqb_neq. intros H. apply (f_equal (fun z => Z.testbit z j)) in H.
    by rewrite Z.land_spec, Z.pow2_bits_true, Hb, Z.bits_0 in H by lia.
  - apply Z.eqb_eq, Z.bits_inj'. intros i Hi. rewrite Z.land_spec, Z.bits_0, Z.pow2_bits_eqb by lia.
    destruct (Z.eqb_spec j i) as [<-|]; by rewrite ?Hb.
Qed.

Lemma mod_pow2_succ v j :
  0 <= j -> v mod 2 ^ j = 0 -> Z.testbit v j = false -> v mod 2 ^ (j + 1) = 0.
Proof.
  intros Hj Hm Hb. apply Z.bits_inj'. intros i Hi. rewrite Z.bits_0.
  destruct (Z.lt_ge_cases i (j + 1)); [|rewrite Z.mod_pow2_bits_high by lia; done].
  rewrite Z.mod_pow2_bits_low by lia. destruct (decide (i = j)) as [->|]; [done|].
  rewrite <- (Z.mod_pow2_bits_low v j i), Hm by lia. apply Z.bits_0.
Qed.

(** [a] is the number of trailing zero bits of [v]. *)
Definition trailing_zeros (v a : Z) : Prop :=
  0 <= a /\ (2 ^ a | v) /\ ~ (2 ^ (a + 1) | v).

Lemma testbit_not_divide v j : 0 <= j -> Z.testbit v j = true -> ~ (2 ^ (j + 1) | v).
Proof.
  intros Hj Hb Hd. apply Z.mod_divide in Hd; [|lia].
  by rewrite <- (Z.mod_pow2_bits_low v (j + 1) j), Hd, Z.bits_0 in Hb by lia.
Qed.

Lemma guess_loop_spec fuel j v :
  0 <= j -> j + Z.of_nat fuel = 64 -> in_uw 64 v -> v <> 0 -> v mod 2 ^ j = 0 ->
  exists a, guess_loop fuel (2 ^ j) j v = Some a /\ trailing_zeros v a /\ a < 64.
Proof.
  revert j. induction fuel as [|f IH]; intros j Hj Hf Hv Hne Hm.
  - destruct Hne. replace j with 64 in Hm by lia. rewrite Z.mod_small in Hm; [done|apply Hv].
  - simpl. rewrite land_pow2_eqb by lia. destruct (Z.testbit v j) eqn:Hb; simpl.
    + exists j. split; [done|]. split; [|lia].
      split; [lia|]. split; [|by apply testbit_not_divide].
      apply Z.mod_divide; [apply Z.pow_nonzero; lia|done].
    + assert (Hm' : v mod 2 ^ (j + 1) = 0) by (by apply mod_pow2_succ).
      assert (j + 1 < 64).
      { destruct (Z.lt_ge_cases (j + 1) 64); [done|]. replace (j + 1) with 64 in Hm' by lia.
        rewrite Z.mod_small in Hm' by apply Hv. lia. }
      rewrite Z.shiftl_mul_pow2 by lia. change (2 ^ 1) with 2.
      replace (2 ^ j * 2) with (2 ^ (j + 1)) by (rewrite Z.pow_add_r by lia; lia).
      rewrite !uw_id; [apply IH; lia||done| |].
      * unfold in_uw. lia.
      * unfold in_uw. split; [lia|]. apply Z.pow_lt_mono_r; lia.
Qed.

Lemma trailing_zeros_unique v a b : trailing_zeros v a -> trailing_zeros v b -> a = b.
Proof.
  assert (H : forall x y, trailing_zeros v x -> trailing_zeros v y -> ~ x < y).
  { intros x y (Hx & _ & Hnx) (Hy & Hdy & _) Hlt. apply Hnx. etrans; [|exact Hdy].
    exists (2 ^ (y - (x + 1))). rewrite <- Z.pow_add_r by lia. f_equal. lia. }
  intros Ha Hb. pose proof (H a b Ha Hb). pose proof (H b a Hb Ha). lia.
Qed.

Lemma clamp_range a min max : min <= max -> min <= clamp a min max <= max.
Proof.
  unfold clamp. cbv zeta. intros.
  destruct (Z.ltb_spec a min), (Z.ltb_spec max min), (Z.ltb_spec max a); lia.
Qed.

Lemma guess_align_trailing v min max :
  in_uw 64 v -> v <> 0 ->
  exists a, trailing_zeros v a /\ guess_align v min max = Some (clamp a min max).
Proof.
  intros Hv Hne. unfold guess_align. rewrite (proj2 (Z.eqb_neq _ _) Hne).
  destruct (guess_loop_spec 64 0 v) as (a & Ha & Ht & _);
    [lia|lia|exact Hv|exact Hne|by rewrite Z.mod_1_r|].
  exists a. split; [done|]. change (2 ^ 0) with 1 in Ha. by rewrite Ha.
Qed.

Lemma guess_align_total v min max :
  in_uw 64 v -> exists a, guess_align v min max = Some a /\ (min <= max -> min <= a <= max).
Proof.
  intros Hv. destruct (decide (v = 0)) as [->|Hne].
  - exists max. split; [done|lia].
  - destruct (guess_align_trailing v min max Hv Hne) as (a & _ & ->).
    exists (clamp a min max). split; [done|apply clamp_range].
Qed.

(** *** The walk over the load commands *)

Section walk.
Variables (h : host) (cmds : list byte) (swap : bool) (mhp64 : option mach_header_64).

(** Where the [k]-th command after the one at [o] starts. *)
Fixpoint command_offset (k o : nat) : nat :=
  match k with
  | O => o
  | S k' => command_offset k' (o + Z.to_nat (load_command_cmdsize (read_command h cmds swap o)))
  end.

(** What a successful loop says of every command it walked over. *)
Lemma seg_align_loop_inv ft sizeofcmds n i o cur errs a errs' :
  seg_align_loop h cmds swap mhp64 ft sizeofcmds n i o cur errs = (Aligned a, errs') ->
  a <= cur /\
  (a = cur \/ exists k, (k < n)%nat /\
     command_align h cmds swap mhp64 ft (command_offset k o) = Some a) /\
  forall k, (k < n)%nat ->
    (exists al, command_align h cmds swap mhp64 ft (command_offset k o) = Some al /\ a <= al) /\
    Z.of_nat (command_offset k o) < Z.of_nat (command_offset (S k) o) <= sizeofcmds.
Proof.
  revert i o cur errs. induction n as [|n IH]; intros i o cur errs H; simpl in H.
  { injection H as <- _. split_and!; [lia|by left|lia]. }
  set (cmdsize := load_command_cmdsize (read_command h cmds swap o)) in *.
  destruct (Z.leb_spec cmdsize 0); [done|].
  destruct (Z.ltb_spec sizeofcmds (Z.of_nat o + cmdsize)); [done|].
  destruct (command_align h cmds swap mhp64 ft o) as [al|] eqn:Hal; [|done].
  apply IH in H as (Hle & Hex & Hall).
  assert (Ha : a <= al /\ a <= cur) by (destruct (Z.ltb_spec al cur); lia).
  split_and!; [lia| |].
  - destruct Hex as [->|(k & Hk & Hka)].
    + destruct (Z.ltb_spec al cur); [right|by left]. exists O. split; [lia|done].
    + right. exists (S k). split; [lia|done].
  - intros [|k] Hk; [|apply Hall; lia]. simpl. fold cmdsize. split; [|lia].
    exists al. split; [done|lia].
Qed.
End walk.

(** *** The alignment of one command *)

Lemma largest_fold_ge (f : nat -> Z) l al : al <= fold_left (fun al j => largest al (f j)) l al.
Proof.
  revert al. induction l as [|j l IH]; intros al; simpl; [lia|].
  etrans; [|apply IH]. unfold largest. destruct (Z.ltb_spec al (f j)); lia.
Qed.

Section one_command.
Variables (h : host) (cmds : list byte) (swap : bool) (mhp64 : option mach_header_64).

Lemma vmaddr_range o : in_uw 64 (segment_command_vmaddr (read_segment h cmds swap o)).
Proof.
  assert (H : in_uw 32 (segment_command_vmaddr (read_segment h cmds swap o))).
  { unfold read_segment. destruct swap; simpl; [apply SWAP_INT_range|apply ld_u32_range]. }
  unfold in_uw in *. lia.
Qed.

Lemma vmaddr_64_range o : in_uw 64 (segment_command_64_vmaddr (read_segment_64 h cmds swap o)).
Proof.
  unfold read_segment_64. destruct swap; simpl; [apply uw_range; lia|apply ld_u64_range].
Qed.

Lemma command_align_min ft o al :
  command_align h cmds swap mhp64 ft o = Some al -> MINSEGALIGN32 <= al.
Proof.
  unfold command_align. intros H.
  destruct (_ =? LC_SEGMENT); [|destruct (_ =? LC_SEGMENT_64)].
  - destruct (ft =? MH_OBJECT).
    + injection H as <-. apply largest_fold_ge.
    + destruct (guess_align_total _ MINSEGALIGN32 MAXSEGALIGN (vmaddr_range o)) as (a & Ha & Hr).
      rewrite Ha in H. injection H as <-. apply Hr. done.
  - destruct mhp64 as [m|]; [|done]. simpl in H.
    destruct (mach_header_64_filetype m =? MH_OBJECT).
    + injection H as <-. etrans; [|apply largest_fold_ge]. done.
    + destruct (guess_align_total _ MINSEGALIGN64 MAXSEGALIGN (vmaddr_64_range o)) as (a & Ha & Hr).
      rewrite Ha in H. injection H as <-. etrans; [|apply Hr; done]. done.
  - injection H as <-. done.
Qed.

(** An alignment that is at most the guess divides an address that is aligned
    to the minimum. *)
Lemma guess_align_divides v min al a :
  in_uw 64 v -> 0 <= min -> 0 <= a -> guess_align v min MAXSEGALIGN = Some al -> a <= al ->
  (2 ^ min | v) -> (2 ^ a | v).
Proof.
  intros Hv Hmin Ha0 Hal Ha Hd. destruct (decide (v = 0)) as [->|Hne]; [apply Z.divide_0_r|].
  destruct (guess_align_trailing v min MAXSEGALIGN Hv Hne) as (t & Ht & Heq).
  rewrite Heq in Hal. injection Hal as <-. destruct Ht as (Ht0 & Htd & Htn).
  assert (Hmt : min <= t).
  { destruct (Z.lt_ge_cases t min); [|done]. destruct Htn. etrans; [|exact Hd].
    exists (2 ^ (min - (t + 1))). rewrite <- Z.pow_add_r by lia. f_equal. lia. }
  assert (a <= t) by (unfold clamp in Ha; cbv zeta in Ha;
    destruct (Z.ltb_spec t min), (Z.ltb_spec MAXSEGALIGN min), (Z.ltb_spec MAXSEGALIGN t); lia).
  etrans; [|exact Htd]. exists (2 ^ (t - a)). rewrite <- Z.pow_add_r by lia. f_equal. lia.
Qed.
End one_command.

(** ** Properties *)

(** Rounding up to a power of two.  When the sum fits the width, [rnd64]
    and [rnd32] give the least multiple of the alignment that is not below the
    value; when it does not they give 0, which is below it.  For an alignment
    that is not a power of two the result need not be a multiple of it. *)
Theorem rnd_power_of_two (k v : Z) :
  (0 <= k < 64 -> in_uw 64 v ->
   rnd v (2 ^ k) = if v + 2 ^ k - 1 <? 2 ^ 64 then (v + 2 ^ k - 1) / 2 ^ k * 2 ^ k else 0) /\
  (0 <= k < 32 -> in_uw 32 v ->
   rnd32 v (2 ^ k) = if v + 2 ^ k - 1 <? 2 ^ 32 then (v + 2 ^ k - 1) / 2 ^ k * 2 ^ k else 0) /\
  (0 <= k ->
   let up := (v + 2 ^ k - 1) / 2 ^ k * 2 ^ k in
   (2 ^ k | up) /\ v <= up < v + 2 ^ k /\ forall m, (2 ^ k | m) -> v <= m -> up <= m) /\
  ~ (3 | rnd 5 3).
Proof.
  split_and!.
  - apply (rnd_w_pow2 64).
  - apply (rnd_w_pow2 32).
  - intros Hk up. assert (Hp : 0 < 2 ^ k) by lia. subst up. split_and!.
    + by exists ((v + 2 ^ k - 1) / 2 ^ k).
    + revert Hp. generalize (2 ^ k). intros r Hr. Z.to_euclidean_division_equations. nia.
    + revert Hp. generalize (2 ^ k). intros r Hr. Z.to_euclidean_division_equations. nia.
    + intros m [q ->] Hle. revert Hp Hle. generalize (2 ^ k). intros r Hr Hle.
      apply Z.mul_le_mono_nonneg_r; [lia|]. apply Z.lt_succ_r, Z.div_lt_upper_bound; nia.
  - intros [q Hq]. change (rnd 5 3) with 5 in Hq. lia.
Qed.

Lemma rnd_power_of_two_witness :
  rnd 4097 (2 ^ 12) =
    (if 4097 + 2 ^ 12 - 1 <? 2 ^ 64 then (4097 + 2 ^ 12 - 1) / 2 ^ 12 * 2 ^ 12 else 0).
Proof. apply (rnd_power_of_two 12 4097); [lia|split; vm_compute; congruence]. Defined.

(** [guess_align] always ends, within 64 rounds, and gives the number of
    trailing zero bits of the address brought into the range asked for; for
    the address 0 it gives the maximum. *)
Theorem guess_align_correct (v min max : Z) :
  in_uw 64 v ->
  (v = 0 -> guess_align v min max = Some max) /\
  (v <> 0 -> exists a, trailing_zeros v a /\ guess_align v min max = Some (clamp a min max)).
Proof. intros Hv. split; [by intros ->|by apply guess_align_trailing]. Qed.

Lemma guess_align_correct_witness :
  (0x4000 = 0 -> guess_align 0x4000 2 15 = Some 15) /\
  (0x4000 <> 0 -> exists a, trailing_zeros 0x4000 a /\
     guess_align 0x4000 2 15 = Some (clamp a 2 15)).
Proof. apply (guess_align_correct 0x4000 2 15). split; vm_compute; congruence. Defined.

(** What a successful [get_seg_align] promises, for a header of either
    kind.  The alignment lies between 4 and 32768 bytes; every load command
    walked over starts after the previous one and ends within [sizeofcmds];
    and in a file that is not an object file every segment of the header's
    kind whose address is a multiple of the word size is aligned to the
    result, so the answer is a legal page size for the file. *)
Theorem get_seg_align_sound (h : host) (cmds : list byte) (swap : bool)
    (mhp : option mach_header) (mhp64 : option mach_header_64) (size a : Z) (errs : list nat)
    (ncmds sizeofcmds ft : Z) :
  get_seg_align h cmds swap mhp mhp64 size = (Aligned a, errs) ->
  (mach_header_ncmds <$> mhp = Some ncmds /\ mach_header_sizeofcmds <$> mhp = Some sizeofcmds /\
   mach_header_filetype <$> mhp = Some ft \/
   mach_header_64_ncmds <$> mhp64 = Some ncmds /\
   mach_header_64_sizeofcmds <$> mhp64 = Some sizeofcmds /\
   mach_header_64_filetype <$> mhp64 = Some ft) ->
  MINSEGALIGN32 <= a <= MAXSEGALIGN /\
  forall k, (k < Z.to_nat ncmds)%nat ->
    let o := command_offset h cmds swap k 0 in
    let cmd := load_command_cmd (read_command h cmds swap o) in
    Z.of_nat o < Z.of_nat (command_offset h cmds swap (S k) 0) <= sizeofcmds /\
    (ft <> MH_OBJECT -> cmd = LC_SEGMENT ->
       let vmaddr := segment_command_vmaddr (read_segment h cmds swap o) in
       (4 | vmaddr) -> (2 ^ a | vmaddr)) /\
    (ft <> MH_OBJECT -> cmd = LC_SEGMENT_64 ->
       let vmaddr := segment_command_64_vmaddr (read_segment_64 h cmds swap o) in
       (8 | vmaddr) -> (2 ^ a | vmaddr)).
Proof.
  intros H Hhdr.
  assert (Hloop : seg_align_loop h cmds swap mhp64 ft sizeofcmds (Z.to_nat ncmds) 0 0
      MAXSEGALIGN [] = (Aligned a, errs) /\
    forall m, mhp64 = Some m -> mach_header_64_filetype m = ft).
  { unfold get_seg_align in H. destruct mhp as [m|], mhp64 as [m64|]; simpl in Hhdr;
      try done; (destruct (size <? _); [done|]); try done;
      destruct Hhdr as [(Hn & Hs & Hf)|(Hn & Hs & Hf)]; simplify_eq; (split; [exact H|]);
      congruence. }
  destruct Hloop as [Hloop Hft]. apply seg_align_loop_inv in Hloop as (Hle & Hex & Hall).
  assert (Hmin : MINSEGALIGN32 <= a).
  { destruct Hex as [->|(k & _ & Hk)]; [done|by eapply command_align_min]. }
  split; [done|]. intros k Hk o cmd. destruct (Hall k Hk) as [(al & Hal & Ha) Hoff].
  split; [exact Hoff|]. unfold command_align in Hal. fold o in Hal. fold cmd in Hal.
  unfold MINSEGALIGN32 in Hmin. split; intros Hobj Hcmd; rewrite Hcmd in Hal.
  - rewrite (proj2 (Z.eqb_neq _ _) Hobj) in Hal. simpl in Hal. intros vmaddr Hd.
    eapply (guess_align_divides vmaddr 2 al a); [exact (vmaddr_range h cmds swap o)|lia|lia|exact Hal|done|exact Hd].
  - simpl in Hal. destruct mhp64 as [m|]; [|done]. simpl in Hal. rewrite (Hft m eq_refl) in Hal.
    rewrite (proj2 (Z.eqb_neq _ _) Hobj) in Hal. intros vmaddr Hd.
    eapply (guess_align_divides vmaddr 3 al a); [exact (vmaddr_64_range h cmds swap o)|lia|lia|exact Hal|done|exact Hd].
Qed.

(** A 64-bit executable with one segment, at 0x100004000. *)
Definition demo_header : mach_header_64 :=
  {| mach_header_64_magic := 0xfeedfacf; mach_header_64_cputype := 0x1000007;
     mach_header_64_cpusubtype := 3; mach_header_64_filetype := 2; mach_header_64_ncmds := 1;
     mach_header_64_sizeofcmds := 72; mach_header_64_flags := 0; mach_header_64_reserved := 0 |}.

Definition demo_commands : list byte :=
  ([x19; x00; x00; x00; x48; x00; x00; x00] ++ repeat x00 16 ++
   [x00; x40; x00; x00; x01; x00; x00; x00] ++ repeat x00 40)%list.

Lemma get_seg_align_sound_witness :
  get_seg_align LE demo_commands false None (Some demo_header) 4096 = (Aligned 14, []) /\
  MINSEGALIGN32 <= 14 <= MAXSEGALIGN /\
  forall k, (k < Z.to_nat 1)%nat ->
    let o := command_offset LE demo_commands false k 0 in
    let cmd := load_command_cmd (read_command LE demo_commands false o) in
    Z.of_nat o < Z.of_nat (command_offset LE demo_commands false (S k) 0) <= 72 /\
    (2 <> MH_OBJECT -> cmd = LC_SEGMENT ->
       let vmaddr := segment_command_vmaddr (read_segment LE demo_commands false o) in
       (4 | vmaddr) -> (2 ^ 14 | vmaddr)) /\
    (2 <> MH_OBJECT -> cmd = LC_SEGMENT_64 ->
       let vmaddr := segment_command_64_vmaddr (read_segment_64 LE demo_commands false o) in
       (8 | vmaddr) -> (2 ^ 14 | vmaddr)).
Proof.
  split; [vm_compute; reflexivity|].
  apply (get_seg_align_sound LE demo_commands false None (Some demo_header) 4096 14 []).
  - vm_compute. reflexivity.
  - right. split; [|split]; reflexivity.
Defined.

Lemma hash_step_bit k a i :
  0 <= k < 2 ^ 14 -> 0 <= i ->
  Z.testbit (hash_step k a) i =
    (i <? 14) && xorb (if i =? 0 then false else Z.testbit k (i - 1)) (Z.testbit (char_value a) i).
Proof.
  intros Hk Hi. unfold hash_step. change 0x3fff with (Z.ones 14).
  rewrite Z.shiftr_div_pow2, Z.div_small, Z.add_0_r by lia.
  rewrite Z.land_spec, Z.lxor_spec, Z.testbit_ones_nonneg, Z.shiftl_spec by lia.
  rewrite andb_comm. f_equal. f_equal. destruct (Z.eqb_spec i 0) as [->|]; [|done].
  by apply Z.testbit_neg_r.
Qed.

Lemma hash_step_range k a : 0 <= hash_step k a < 2 ^ 14.
Proof.
  unfold hash_step. change 0x3fff with (Z.ones 14). rewrite Z.land_ones by lia.
  apply Z.mod_pos_bound. lia.
Qed.

Definition hash_from (k : Z) (s : string) : Z :=
  fold_left hash_step (String.list_ascii_of_string s) k.

Lemma hash_from_range k s : 0 <= k < 2 ^ 14 -> 0 <= hash_from k s < 2 ^ 14.
Proof.
  apply (fold_left_preserves (fun k => 0 <= k < 2 ^ 14)). intros. apply hash_step_range.
Qed.

(** Each character makes one more low bit independent of where the hash
    started. *)
Lemma hash_from_low (m : Z) k1 k2 s :
  0 <= m -> 0 <= k1 < 2 ^ 14 -> 0 <= k2 < 2 ^ 14 ->
  (forall i, 0 <= i < m -> Z.testbit k1 i = Z.testbit k2 i) ->
  forall i, 0 <= i < m + Z.of_nat (String.length s) ->
    Z.testbit (hash_from k1 s) i = Z.testbit (hash_from k2 s) i.
Proof.
  revert m k1 k2. induction s as [|a s IH]; intros m k1 k2 Hm H1 H2 Hlow i Hi.
  - apply Hlow. simpl in Hi. lia.
  - apply (IH (m + 1) (hash_step k1 a) (hash_step k2 a)); [lia|apply hash_step_range..| |].
    + intros j Hj. rewrite !hash_step_bit by lia. f_equal. f_equal.
      destruct (Z.eqb_spec j 0); [done|]. apply Hlow. lia.
    + simpl in Hi. lia.
Qed.

Lemma list_ascii_app s t :
  String.list_ascii_of_string (s +:+ t)
    = (String.list_ascii_of_string s ++ String.list_ascii_of_string t)%list.
Proof.
  induction s as [|a s IH]; [done|]. change (String a s +:+ t) with (String a (s +:+ t)).
  simpl. by rewrite IH.
Qed.

(** The hash of a string is an index below 16384, and only the last 14
    characters count: the [k >> 14] that would feed the high bits back is
    always zero, so two strings that end in the same 14 characters or more
    collide. *)
Theorem hash_string_last_14 (s1 s2 t : string) :
  0 <= hash_string s1 < 0x4000 /\
  ((14 <= String.length t)%nat -> hash_string (s1 +:+ t) = hash_string (s2 +:+ t)).
Proof.
  assert (H0 : forall s, 0 <= hash_from 0 s < 2 ^ 14) by (intros; apply hash_from_range; lia).
  split; [exact (H0 s1)|]. intros Ht. unfold hash_string. rewrite !list_ascii_app, !fold_left_app.
  apply Z.bits_inj'. intros i Hi. destruct (Z.lt_ge_cases i 14).
  - apply (hash_from_low 0 (hash_from 0 s1) (hash_from 0 s2) t); [lia|apply H0..|lia|lia].
  - rewrite !(testbit_above _ 14); [done|apply hash_from_range, H0|lia|apply hash_from_range, H0|lia].
Qed.

Lemma hash_string_last_14_witness :
  hash_string ("_first" +:+ "_initialize_me") = hash_string ("_second" +:+ "_initialize_me").
Proof.
  apply (hash_string_last_14 "_first" "_second" "_initialize_me"). vm_compute. lia.
Defined.
