(* ===== verification/Reloc.v ===== *)
(** * libstuff/reloc.c: which relocation types come in pairs

    The constants are those of the relocation headers of each architecture;
    [None] is the call of [fatal] for a cputype the routine does not know. *)

From Stdlib Require Import ZArith Lia Bool.
From stdpp Require Import base list option numbers.
From S2P Require Import Prelude CInt CpuTypes CpuCombine.

Definition GENERIC_RELOC_PAIR : Z := 1.
Definition GENERIC_RELOC_SECTDIFF : Z := 2.
Definition GENERIC_RELOC_LOCAL_SECTDIFF : Z := 4.
Definition M88K_RELOC_PAIR : Z := 1.
Definition M88K_RELOC_HI16 : Z := 4.
Definition M88K_RELOC_LO16 : Z := 5.
Definition M88K_RELOC_SECTDIFF : Z := 6.
Definition I860_RELOC_PAIR : Z := 1.
Definition I860_RELOC_HIGH : Z := 2.
Definition I860_RELOC_HIGHADJ : Z := 11.
Definition I860_RELOC_SECTDIFF : Z := 13.
Definition PPC_RELOC_PAIR : Z := 1.
Definition PPC_RELOC_HI16 : Z := 4.
Definition PPC_RELOC_LO16 : Z := 5.
Definition PPC_RELOC_HA16 : Z := 6.
Definition PPC_RELOC_LO14 : Z := 7.
Definition PPC_RELOC_SECTDIFF : Z := 8.
Definition PPC_RELOC_HI16_SECTDIFF : Z := 10.
Definition PPC_RELOC_LO16_SECTDIFF : Z := 11.
Definition PPC_RELOC_HA16_SECTDIFF : Z := 12.
Definition PPC_RELOC_JBSR : Z := 13.
Definition PPC_RELOC_LO14_SECTDIFF : Z := 14.
Definition PPC_RELOC_LOCAL_SECTDIFF : Z := 15.
Definition HPPA_RELOC_PAIR : Z := 1.
Definition HPPA_RELOC_HI21 : Z := 2.
Definition HPPA_RELOC_LO14 : Z := 3.
Definition HPPA_RELOC_BR17 : Z := 4.
Definition HPPA_RELOC_JBSR : Z := 6.
Definition HPPA_RELOC_SECTDIFF : Z := 7.
Definition HPPA_RELOC_HI21_SECTDIFF : Z := 8.
Definition HPPA_RELOC_LO14_SECTDIFF : Z := 9.
Definition SPARC_RELOC_PAIR : Z := 1.
Definition SPARC_RELOC_HI22 : Z := 2.
Definition SPARC_RELOC_LO10 : Z := 3.
Definition SPARC_RELOC_SECTDIFF : Z := 6.
Definition SPARC_RELOC_HI22_SECTDIFF : Z := 7.
Definition SPARC_RELOC_LO10_SECTDIFF : Z := 8.
Definition ARM_RELOC_PAIR : Z := 1.
Definition ARM_RELOC_SECTDIFF : Z := 2.
Definition ARM_RELOC_LOCAL_SECTDIFF : Z := 3.
Definition ARM_RELOC_HALF : Z := 8.
Definition ARM_RELOC_HALF_SECTDIFF : Z := 9.

Definition reloc_pair_r_type (cputype : cpu_type_t) : option Z :=
  if (cputype =? CPU_TYPE_MC680x0) || (cputype =? CPU_TYPE_I386) then Some GENERIC_RELOC_PAIR
  else if cputype =? CPU_TYPE_X86_64 then None
  else if cputype =? CPU_TYPE_MC88000 then Some M88K_RELOC_PAIR
  else if cputype =? CPU_TYPE_I860 then Some I860_RELOC_PAIR
  else if (cputype =? CPU_TYPE_POWERPC) || (cputype =? CPU_TYPE_POWERPC64) ||
          (cputype =? CPU_TYPE_VEO) then Some PPC_RELOC_PAIR
  else if cputype =? CPU_TYPE_HPPA then Some HPPA_RELOC_PAIR
  else if cputype =? CPU_TYPE_SPARC then Some SPARC_RELOC_PAIR
  else if cputype =? CPU_TYPE_ARM then Some ARM_RELOC_PAIR
  else None.

Definition reloc_has_pair (cputype : cpu_type_t) (r_type : Z) : option bool :=
  if (cputype =? CPU_TYPE_MC680x0) || (cputype =? CPU_TYPE_I386) then
    Some (one_of r_type [GENERIC_RELOC_SECTDIFF; GENERIC_RELOC_LOCAL_SECTDIFF])
  else if cputype =? CPU_TYPE_X86_64 then Some false
  else if cputype =? CPU_TYPE_MC88000 then
    Some (one_of r_type [M88K_RELOC_HI16; M88K_RELOC_LO16; M88K_RELOC_SECTDIFF])
  else if cputype =? CPU_TYPE_I860 then
    Some (one_of r_type [I860_RELOC_HIGH; I860_RELOC_HIGHADJ; I860_RELOC_SECTDIFF])
  else if (cputype =? CPU_TYPE_POWERPC) || (cputype =? CPU_TYPE_POWERPC64) ||
          (cputype =? CPU_TYPE_VEO) then
    Some (one_of r_type [PPC_RELOC_HI16; PPC_RELOC_LO16; PPC_RELOC_HA16; PPC_RELOC_LO14;
      PPC_RELOC_SECTDIFF; PPC_RELOC_LOCAL_SECTDIFF; PPC_RELOC_HI16_SECTDIFF;
      PPC_RELOC_LO16_SECTDIFF; PPC_RELOC_LO14_SECTDIFF; PPC_RELOC_HA16_SECTDIFF;
      PPC_RELOC_JBSR])
  else if cputype =? CPU_TYPE_HPPA then
    Some (one_of r_type [HPPA_RELOC_HI21; HPPA_RELOC_LO14; HPPA_RELOC_BR17; HPPA_RELOC_JBSR;
      HPPA_RELOC_SECTDIFF; HPPA_RELOC_HI21_SECTDIFF; HPPA_RELOC_LO14_SECTDIFF])
  else if cputype =? CPU_TYPE_SPARC then
    Some (one_of r_type [SPARC_RELOC_HI22; SPARC_RELOC_LO10; SPARC_RELOC_HI22_SECTDIFF;
      SPARC_RELOC_LO10_SECTDIFF; SPARC_RELOC_SECTDIFF])
  else if cputype =? CPU_TYPE_ARM then
    Some (one_of r_type [ARM_RELOC_SECTDIFF; ARM_RELOC_LOCAL_SECTDIFF; ARM_RELOC_HALF;
      ARM_RELOC_HALF_SECTDIFF])
  else if (cputype =? CPU_TYPE_ARM64) || (cputype =? CPU_TYPE_ARM64_32) then Some false
  else if cputype =? CPU_TYPE_RISCV32 then Some false
  else None.

Definition reloc_is_sectdiff (cputype : cpu_type_t) (r_type : Z) : option bool :=
  if (cputype =? CPU_TYPE_MC680x0) || (cputype =? CPU_TYPE_I386) then
    Some (one_of r_type [GENERIC_RELOC_SECTDIFF; GENERIC_RELOC_LOCAL_SECTDIFF])
  else if cputype =? CPU_TYPE_X86_64 then Some false
  else if cputype =? CPU_TYPE_MC88000 then Some (one_of r_type [M88K_RELOC_SECTDIFF])
  else if cputype =? CPU_TYPE_I860 then Some (one_of r_type [I860_RELOC_SECTDIFF])
  else if (cputype =? CPU_TYPE_POWERPC) || (cputype =? CPU_TYPE_VEO) then
    Some (one_of r_type [PPC_RELOC_SECTDIFF; PPC_RELOC_LOCAL_SECTDIFF; PPC_RELOC_HI16_SECTDIFF;
      PPC_RELOC_LO16_SECTDIFF; PPC_RELOC_LO14_SECTDIFF; PPC_RELOC_HA16_SECTDIFF])
  else if cputype =? CPU_TYPE_HPPA then
    Some (one_of r_type [HPPA_RELOC_SECTDIFF; HPPA_RELOC_HI21_SECTDIFF;
      HPPA_RELOC_LO14_SECTDIFF])
  else if cputype =? CPU_TYPE_SPARC then
    Some (one_of r_type [SPARC_RELOC_SECTDIFF; SPARC_RELOC_HI22_SECTDIFF;
      SPARC_RELOC_LO10_SECTDIFF])
  else if cputype =? CPU_TYPE_ARM then
    Some (one_of r_type [ARM_RELOC_SECTDIFF; ARM_RELOC_LOCAL_SECTDIFF; ARM_RELOC_HALF_SECTDIFF])
  else if (cputype =? CPU_TYPE_ARM64) || (cputype =? CPU_TYPE_ARM64_32) then Some false
  else None.

(** Splits a goal along the cputypes and relocation types it tests. *)
Ltac split_tests ct :=
  repeat match goal with
  | |- context [ct =? ?k] => destruct (Z.eqb_spec ct k) as [->|]; [eval_eqb|]
  end.

Lemma one_of_incl x l1 l2 :
  forallb (fun y => one_of y l2) l1 = true -> one_of x l1 = true -> one_of x l2 = true.
Proof.
  unfold one_of at 2. rewrite forallb_forall, existsb_exists.
  intros H (y & Hy & ->%Z.eqb_eq). by apply H.
Qed.

Lemma sectdiff_has_pair ct r_type :
  reloc_is_sectdiff ct r_type = Some true -> reloc_has_pair ct r_type = Some true.
Proof.
  unfold reloc_is_sectdiff, reloc_has_pair.
  split_tests ct; try done; cbv iota; intros H%(inj Some); f_equal; revert H; by apply one_of_incl.
Qed.

Lemma pair_type_plain ct r_type :
  reloc_has_pair ct r_type = Some true ->
  exists pair, reloc_pair_r_type ct = Some pair /\ reloc_has_pair ct pair = Some false /\
    (reloc_is_sectdiff ct pair = Some false \/ ct = CPU_TYPE_POWERPC64).
Proof.
  unfold reloc_is_sectdiff, reloc_has_pair, reloc_pair_r_type.
  split_tests ct; try done; cbv iota; intros _; (eexists; split; [reflexivity|]; split; [reflexivity|]);
    first [by left|by right].
Qed.

Lemma sectdiff_unknown ct r_type :
  reloc_is_sectdiff ct r_type = None /\ reloc_has_pair ct r_type <> None <->
  ct = CPU_TYPE_POWERPC64 \/ ct = CPU_TYPE_RISCV32.
Proof.
  unfold reloc_is_sectdiff, reloc_has_pair.
  split_tests ct; simpl;
    first [split; [by intros [? ?]|by intros [?|?]] | split; [auto|done] | naive_solver].
Qed.

(** The three tables are consistent.  A type that is a section difference
    has a pair; a cputype with a type that has a pair has a PAIR type, which
    neither has a pair nor is a section difference; and a cputype one of the
    tables of pairs and section differences knows, the other knows too, except
    POWERPC64 and RISCV32, for which [reloc_is_sectdiff] alone is fatal. *)
Theorem reloc_tables_consistent (ct r_type : Z) :
  (reloc_is_sectdiff ct r_type = Some true -> reloc_has_pair ct r_type = Some true) /\
  (reloc_has_pair ct r_type = Some true ->
     exists pair, reloc_pair_r_type ct = Some pair /\ reloc_has_pair ct pair = Some false /\
       (reloc_is_sectdiff ct pair = Some false \/ ct = CPU_TYPE_POWERPC64)) /\
  (reloc_is_sectdiff ct r_type = None /\ reloc_has_pair ct r_type <> None <->
     ct = CPU_TYPE_POWERPC64 \/ ct = CPU_TYPE_RISCV32).
Proof. split_and!; [apply sectdiff_has_pair|apply pair_type_plain|apply sectdiff_unknown..]. Qed.

Lemma reloc_tables_consistent_witness :
  reloc_has_pair CPU_TYPE_ARM ARM_RELOC_HALF_SECTDIFF = Some true.
Proof.
  apply (reloc_tables_consistent CPU_TYPE_ARM ARM_RELOC_HALF_SECTDIFF). vm_compute. reflexivity.
Defined.
