(* ===== verification/Leb128.v ===== *)
(** * otool/dyld_bind_info.c: the LEB128 readers

    [read_uleb128] and [read_sleb128], which every opcode interpreter of the
    file uses, and the encoders they read back.  The pointer [*pp] is the list
    of the bytes from it to [end]. *)

From Stdlib Require Import ZArith Lia Bool.
From Stdlib Require Import Init.Byte.
From stdpp Require Import base list option numbers.
From S2P Require Import Prelude CInt.

(** What [*error] is set to. *)
Inductive leb_error := LebPastEnd | LebTooBig.

(** The low seven bits of a byte, and whether another one follows. *)
Definition slice7 (b : byte) : Z := Z.land (byte_Z b) 0x7f.
Definition more (b : byte) : bool := negb (Z.land (byte_Z b) 0x80 =? 0).

(** ** read_uleb128 *)

(** The loop: the value, [p] at the end and the error. *)
Fixpoint uleb_loop (p : list byte) (result bit : Z) : Z * list byte * option leb_error :=
  match p with
  | [] => (0, [], Some LebPastEnd)
  | b :: p' =>
      if (64 <=? bit) || negb (Z.shiftr (u64 (Z.shiftl (slice7 b) bit)) bit =? slice7 b)
      then (0, p, Some LebTooBig)
      else
        let result := Z.lor result (u64 (Z.shiftl (slice7 b) bit)) in
        if more b then uleb_loop p' result (bit + 7) else (result, p', None)
  end.

Definition read_uleb128 (p : list byte) : Z * list byte * option leb_error :=
  uleb_loop p 0 0.

(** ** read_sleb128 *)

(** The shifts are those of two's complement; [None] where the count is 64 or
    more, which C leaves undefined. *)
Definition shift_int64 (v bit : Z) : option Z :=
  if bit <? 64 then Some (i64 (Z.shiftl v bit)) else None.

Fixpoint sleb_loop (p : list byte) (result bit : Z)
    : option (Z * list byte * option leb_error) :=
  match p with
  | [] => Some (0, [], Some LebPastEnd)
  | b :: p' =>
      v ← shift_int64 (slice7 b) bit;
      let result := Z.lor result v in
      let bit := bit + 7 in
      if more b then sleb_loop p' result bit
      else if negb (Z.land (byte_Z b) 0x40 =? 0) then
        ones ← shift_int64 (-1) bit;
        Some (Z.lor result ones, p', None)
      else Some (result, p', None)
  end.

Definition read_sleb128 (p : list byte) : option (Z * list byte * option leb_error) :=
  sleb_loop p 0 0.

(** ** The encodings *)

(** An encoding is a run of bytes that say another one follows, and one that
    does not; its value is that of its slices, the first one lowest. *)
Inductive leb_encoding : list byte -> Prop :=
  | leb_last b : more b = false -> leb_encoding [b]
  | leb_more b enc : more b = true -> leb_encoding enc -> leb_encoding (b :: enc).

Fixpoint uleb_value (enc : list byte) : Z :=
  match enc with
  | [] => 0
  | b :: enc' => slice7 b + 128 * uleb_value enc'
  end.

(** The shortest encodings; ten bytes are enough for 64 bits. *)
Fixpoint uleb_encode (fuel : nat) (n : Z) : list byte :=
  match fuel with
  | O => []
  | S f => if n <? 128 then [byte_of n]
           else byte_of (n mod 128 + 128) :: uleb_encode f (n / 128)
  end.

Fixpoint sleb_encode (fuel : nat) (n : Z) : list byte :=
  match fuel with
  | O => []
  | S f => if (-64 <=? n) && (n <? 64) then [byte_of (n mod 128)]
           else byte_of (n mod 128 + 128) :: sleb_encode f (n / 128)
  end.

Definition uleb (n : Z) : list byte := uleb_encode 10 n.
Definition sleb (n : Z) : list byte := sleb_encode 10 n.

(** ** Lemmas *)

Lemma slice_mod b : slice7 b = byte_Z b mod 128.
Proof. unfold slice7. change 0x7f with (Z.ones 7). by rewrite Z.land_ones. Qed.

Lemma slice_range b : 0 <= slice7 b < 128.
Proof. rewrite slice_mod. apply Z.mod_pos_bound. lia. Qed.

Lemma more_spec b : more b = (128 <=? byte_Z b).
Proof. by destruct b. Qed.

Lemma more_false_slice b : more b = false -> slice7 b = byte_Z b.
Proof.
  rewrite more_spec, slice_mod. intros H. bool_to_prop.
  pose proof (byte_Z_range b). apply Z.mod_small. lia.
Qed.

(** The bytes of the encoders. *)
Lemma last_byte n : 0 <= n < 128 -> slice7 (byte_of n) = n /\ more (byte_of n) = false.
Proof.
  intros Hn. rewrite more_spec, slice_mod, byte_Z_of by lia.
  split; [apply Z.mod_small; lia|apply Z.leb_gt; lia].
Qed.

Lemma more_byte n : slice7 (byte_of (n mod 128 + 128)) = n mod 128 /\
  more (byte_of (n mod 128 + 128)) = true.
Proof.
  pose proof (Z.mod_pos_bound n 128 ltac:(lia)).
  rewrite more_spec, slice_mod, byte_Z_of by lia. split; [div_lia|apply Z.leb_le; lia].
Qed.

(** [slice << bit >> bit != slice]: the slice does not fit any more. *)
Lemma shift_back s bit :
  0 <= bit -> 0 <= s ->
  (Z.shiftr (u64 (Z.shiftl s bit)) bit =? s) = (s * 2 ^ bit <? 2 ^ 64).
Proof.
  intros Hb Hs. rewrite Z.shiftl_mul_pow2, Z.shiftr_div_pow2 by lia.
  assert (0 < 2 ^ bit) by lia. destruct (Z.ltb_spec (s * 2 ^ bit) (2 ^ 64)) as [Hlt|Hge].
  - rewrite uw_id by (unfold in_uw; lia). rewrite Z.div_mul by lia. apply Z.eqb_refl.
  - apply Z.eqb_neq. intros Heq.
    assert (u64 (s * 2 ^ bit) / 2 ^ bit * 2 ^ bit <= u64 (s * 2 ^ bit)).
    { rewrite Z.mul_comm. apply Z.mul_div_le. lia. }
    pose proof (uw_range 64 (s * 2 ^ bit) ltac:(lia)) as [_ Hr]. rewrite Heq in *. lia.
Qed.

Lemma uleb_value_nonneg enc : 0 <= uleb_value enc.
Proof. induction enc as [|b enc IH]; simpl; [lia|]. pose proof (slice_range b). lia. Qed.

(** One round of [read_uleb128]: with [n] rounds done the value is below
    [2^(7n)], so the [|] is a sum. *)
Lemma uleb_loop_step b p result n :
  0 <= n -> 0 <= result < 2 ^ (7 * n) ->
  uleb_loop (b :: p) result (7 * n) =
    if (n <? 10) && (slice7 b * 2 ^ (7 * n) <? 2 ^ 64) then
      if more b then uleb_loop p (result + slice7 b * 2 ^ (7 * n)) (7 * (n + 1))
      else (result + slice7 b * 2 ^ (7 * n), p, None)
    else (0, b :: p, Some LebTooBig).
Proof.
  intros Hn Hr. pose proof (slice_range b). cbn [uleb_loop].
  rewrite shift_back by lia. destruct (Z.leb_spec 64 (7 * n)), (Z.ltb_spec n 10); try lia; [done|].
  destruct (Z.ltb_spec (slice7 b * 2 ^ (7 * n)) (2 ^ 64)); [|done]. cbn [orb negb andb].
  rewrite Z.shiftl_mul_pow2, uw_id by (unfold in_uw; lia).
  assert (Hlor : Z.lor result (slice7 b * 2 ^ (7 * n)) = result + slice7 b * 2 ^ (7 * n)).
  { rewrite Z.lor_comm, (Z.mul_comm (slice7 b)), lor_disjoint_add by lia. lia. }
  rewrite Hlor. by replace (7 * n + 7) with (7 * (n + 1)) by lia.
Qed.

(** The invariant of the rounds. *)
Lemma round_range b result n :
  0 <= n -> 0 <= result < 2 ^ (7 * n) -> 0 <= result + slice7 b * 2 ^ (7 * n) < 2 ^ (7 * (n + 1)).
Proof.
  intros. pose proof (slice_range b). replace (7 * (n + 1)) with (7 + 7 * n) by lia.
  rewrite Z.pow_add_r by lia. change (2 ^ 7) with 128. nia.
Qed.

(** The first slice of a value that fits, fits. *)
Lemma first_slice_fits result s m P :
  0 <= result -> 0 <= m -> 0 < P -> result + (s + 128 * m) * P < 2 ^ 64 -> s * P < 2 ^ 64.
Proof. intros. nia. Qed.

Lemma uleb_loop_complete enc rest result n :
  leb_encoding enc -> 0 <= n -> 0 <= result < 2 ^ (7 * n) ->
  n + Z.of_nat (length enc) <= 10 -> result + uleb_value enc * 2 ^ (7 * n) < 2 ^ 64 ->
  uleb_loop (enc ++ rest) result (7 * n) = (result + uleb_value enc * 2 ^ (7 * n), rest, None).
Proof.
  intros Henc. revert result n.
  induction Henc as [b Hb|b enc Hb Henc IH]; intros result n Hn Hr Hlen Hv;
    cbn [app uleb_value length] in *; assert (0 < 2 ^ (7 * n)) by lia;
    pose proof (slice_range b) as Hs.
  - apply first_slice_fits in Hv as Hfit; [|lia..].
    rewrite uleb_loop_step, Hb by lia.
    rewrite (proj2 (Z.ltb_lt n 10)), (proj2 (Z.ltb_lt _ (2 ^ 64))) by lia. simpl.
    by rewrite Z.mul_0_r, Z.add_0_r.
  - pose proof (uleb_value_nonneg enc).
    apply first_slice_fits in Hv as Hfit; [|lia..].
    rewrite uleb_loop_step, Hb by lia.
    rewrite (proj2 (Z.ltb_lt n 10)), (proj2 (Z.ltb_lt _ (2 ^ 64))) by lia. cbn [andb].
    assert (Hpow : 2 ^ (7 * (n + 1)) = 128 * 2 ^ (7 * n)).
    { replace (7 * (n + 1)) with (7 + 7 * n) by lia. rewrite Z.pow_add_r by lia. lia. }
    assert (Hsum : result + (slice7 b + 128 * uleb_value enc) * 2 ^ (7 * n) =
      result + slice7 b * 2 ^ (7 * n) + uleb_value enc * 2 ^ (7 * (n + 1))) by lia.
    rewrite Hsum in *. apply IH; [lia|by apply round_range|lia|done].
Qed.

(** What a last slice that fits adds does not overflow. *)
Lemma last_round_fits result s n :
  0 <= n < 10 -> 0 <= result < 2 ^ (7 * n) -> s * 2 ^ (7 * n) < 2 ^ 64 ->
  result + s * 2 ^ (7 * n) < 2 ^ 64.
Proof.
  intros Hn Hr Hs. assert (Hpow : 2 ^ 64 = 2 ^ (64 - 7 * n) * 2 ^ (7 * n)).
  { rewrite <- Z.pow_add_r by lia. f_equal. lia. }
  assert (s < 2 ^ (64 - 7 * n)) by (apply (Z.mul_lt_mono_pos_r (2 ^ (7 * n))); lia).
  rewrite Hpow. clear Hpow Hs. nia.
Qed.

(** The outcomes of the loop. *)
Lemma uleb_loop_outcome p result n v p' e :
  0 <= n -> 0 <= result < 2 ^ (7 * n) ->
  uleb_loop p result (7 * n) = (v, p', e) ->
  match e with
  | None => exists enc, p = enc ++ p' /\ leb_encoding enc /\ n + Z.of_nat (length enc) <= 10 /\
              v = result + uleb_value enc * 2 ^ (7 * n) /\ v < 2 ^ 64
  | Some e => v = 0 /\ p' `suffix_of` p /\
              (e = LebPastEnd -> p' = [] /\ Forall (fun b => more b = true) p)
  end.
Proof.
  revert result n. induction p as [|b p IH]; intros result n Hn Hr H.
  - injection H as <- <- <-. split_and!; [done|by exists []|done].
  - rewrite uleb_loop_step in H by done. pose proof (slice_range b).
    destruct (Z.ltb_spec n 10); [|injection H as <- <- <-; split_and!; [done|by exists []|done]].
    destruct (Z.ltb_spec (slice7 b * 2 ^ (7 * n)) (2 ^ 64));
      [|injection H as <- <- <-; split_and!; [done|by exists []|done]].
    cbn [andb] in H. destruct (more b) eqn:Hb.
    + apply IH in H; [|lia|by apply round_range]. destruct e as [e|].
      * destruct H as (-> & Hsuf & He). split_and!; [done|by apply suffix_cons_r|].
        intros Hpe. destruct (He Hpe). split; [done|by constructor].
      * destruct H as (enc & -> & Henc & Hlen & -> & Hv). exists (b :: enc).
        split_and!; [done|by constructor|simpl; lia| |exact Hv].
        replace (7 * (n + 1)) with (7 + 7 * n) by lia. rewrite Z.pow_add_r by lia. simpl. lia.
    + injection H as <- <- <-. exists [b].
      split_and!; [done|by constructor|simpl; lia|simpl; lia|by apply last_round_fits].
Qed.

(** *** Signed numbers *)

Lemma sign_bit b : negb (Z.land (byte_Z b) 0x40 =? 0) = (64 <=? slice7 b).
Proof. by destruct b. Qed.

Lemma shift_int64_small v bit :
  0 <= bit < 64 -> in_sw 64 (v * 2 ^ bit) -> shift_int64 v bit = Some (v * 2 ^ bit).
Proof.
  intros Hb Hv. unfold shift_int64. rewrite (proj2 (Z.ltb_lt _ _)) by lia.
  by rewrite Z.shiftl_mul_pow2, sw_id by (lia || done).
Qed.

(** A round before the tenth: the slice fits below the sign bit. *)
Lemma sleb_round s result n :
  0 <= n <= 8 -> 0 <= s < 128 -> 0 <= result < 2 ^ (7 * n) ->
  shift_int64 s (7 * n) = Some (s * 2 ^ (7 * n)) /\
  Z.lor result (s * 2 ^ (7 * n)) = result + s * 2 ^ (7 * n) /\
  0 <= result + s * 2 ^ (7 * n) < 2 ^ (7 * (n + 1)) /\ 2 ^ (7 * (n + 1)) <= 2 ^ 63.
Proof.
  intros Hn Hs Hr.
  assert (Hpow : 2 ^ (7 * (n + 1)) = 128 * 2 ^ (7 * n)).
  { replace (7 * (n + 1)) with (7 + 7 * n) by lia. rewrite Z.pow_add_r by lia. lia. }
  assert (H63 : 2 ^ (7 * (n + 1)) <= 2 ^ 63) by (apply Z.pow_le_mono_r; lia).
  rewrite Hpow in *. split_and!; [|  |nia..].
  - apply shift_int64_small; [lia|]. unfold in_sw. change (64 - 1) with 63. nia.
  - rewrite Z.lor_comm, (Z.mul_comm s), lor_disjoint_add by lia. lia.
Qed.

Lemma sleb_encode_more f m :
  ~ -64 <= m < 64 -> sleb_encode (S f) m = byte_of (m mod 128 + 128) :: sleb_encode f (m / 128).
Proof.
  intros Hm. simpl. destruct (Z.leb_spec (-64) m), (Z.ltb_spec m 64); simpl; done || lia.
Qed.

Lemma sleb_encode_last f m : -64 <= m < 64 -> sleb_encode (S f) m = [byte_of (m mod 128)].
Proof.
  intros Hm. simpl. destruct (Z.leb_spec (-64) m), (Z.ltb_spec m 64); simpl; done || lia.
Qed.

(** The bounds of what is left after [n] rounds shrink by 128. *)
Lemma pow2_shrink k n : 0 <= k - 7 * (n + 1) -> 2 ^ (k - 7 * n) = 128 * 2 ^ (k - 7 * (n + 1)).
Proof.
  intros. replace (k - 7 * n) with (7 + (k - 7 * (n + 1))) by lia. by rewrite Z.pow_add_r by lia.
Qed.

(** The byte of a round that is not the last, and the loop behind it. *)
Lemma sleb_loop_more m f rest result n :
  0 <= n <= 8 -> ~ -64 <= m < 64 -> 0 <= result < 2 ^ (7 * n) ->
  sleb_loop (sleb_encode (S f) m ++ rest) result (7 * n) =
    sleb_loop (sleb_encode f (m / 128) ++ rest) (result + m mod 128 * 2 ^ (7 * n)) (7 * (n + 1)).
Proof.
  intros Hn Hm Hr. rewrite sleb_encode_more by done. destruct (more_byte m) as [Hs Hmo].
  destruct (sleb_round (m mod 128) result n) as (Hsh & Hlor & _);
    [lia|apply Z.mod_pos_bound; lia|done|].
  cbn [app sleb_loop]. rewrite Hs, Hmo, Hsh. simpl. rewrite Hlor.
  by replace (7 * n + 7) with (7 * (n + 1)) by lia.
Qed.

Lemma sleb_loop_last m f rest result n :
  0 <= n -> -64 <= m < 64 -> (m < 0 -> n <= 8) -> (0 <= m -> m * 2 ^ (7 * n) < 2 ^ 63) ->
  n <= 9 -> 0 <= result < 2 ^ (7 * n) ->
  sleb_loop (sleb_encode (S f) m ++ rest) result (7 * n) = Some (result + m * 2 ^ (7 * n), rest, None).
Proof.
  intros Hn Hm Hneg Hpos H9 Hr. rewrite sleb_encode_last by done.
  destruct (last_byte (m mod 128)) as [Hs Hmo]; [apply Z.mod_pos_bound; lia|].
  cbn [app sleb_loop]. rewrite sign_bit, Hs, Hmo.
  destruct (Z.lt_ge_cases m 0) as [Hlt|Hge].
  - replace (m mod 128) with (m + 128) by div_lia.
    destruct (sleb_round (m + 128) result n) as (Hsh & Hlor & Hrange & H63); [lia..|].
    rewrite Hsh. simpl. rewrite Hlor, (proj2 (Z.leb_le _ _)) by lia.
    replace (7 * n + 7) with (7 * (n + 1)) by lia.
    rewrite shift_int64_small by (unfold in_sw; change (64 - 1) with 63; lia). simpl.
    rewrite (Z.mul_comm (-1)), Z.lor_comm, lor_disjoint_add by lia. do 3 f_equal.
    replace (7 * (n + 1)) with (7 + 7 * n) by lia. rewrite Z.pow_add_r by lia. lia.
  - rewrite Z.mod_small by lia. specialize (Hpos Hge).
    assert (0 <= m * 2 ^ (7 * n)) by (apply Z.mul_nonneg_nonneg; lia).
    rewrite (shift_int64_small m) by (unfold in_sw; change (64 - 1) with 63; lia). simpl.
    rewrite (proj2 (Z.leb_gt _ _)) by lia.
    by rewrite Z.lor_comm, (Z.mul_comm m), lor_disjoint_add, Z.add_comm by lia.
Qed.

Lemma sleb_loop_encode f m rest result n :
  n + Z.of_nat f = 10 -> 0 <= n <= 9 -> 0 <= result < 2 ^ (7 * n) ->
  - 2 ^ (62 - 7 * n) <= m < 2 ^ (63 - 7 * n) ->
  sleb_loop (sleb_encode f m ++ rest) result (7 * n) = Some (result + m * 2 ^ (7 * n), rest, None).
Proof.
  revert m result n. induction f as [|f IH]; intros m result n Hf Hn Hr Hm; [lia|].
  assert (H9 : n = 9 -> m = 0) by (intros ->; simpl in Hm; lia).
  destruct (decide (-64 <= m < 64)) as [Hlast|Hmore].
  - apply sleb_loop_last; try lia. intros Hge.
    assert (Hpow : 2 ^ 63 = 2 ^ (63 - 7 * n) * 2 ^ (7 * n)).
    { rewrite <- Z.pow_add_r by lia. f_equal. lia. }
    rewrite Hpow. apply Z.mul_lt_mono_pos_r; lia.
  - assert (n <= 8) by lia. rewrite sleb_loop_more by (lia || done).
    destruct (sleb_round (m mod 128) result n) as (_ & _ & Hrange & _);
      [lia|apply Z.mod_pos_bound; lia|done|].
    rewrite IH; [|lia|lia|lia|].
    + do 3 f_equal. replace (7 * (n + 1)) with (7 + 7 * n) by lia.
      rewrite Z.pow_add_r by lia. change (2 ^ 7) with 128.
      rewrite (Z.div_mod m 128) at 3 by lia. lia.
    + destruct (decide (n = 8)) as [->|]; [simpl in *; div_lia|].
      rewrite (pow2_shrink 62), (pow2_shrink 63) in Hm by lia. div_lia.
Qed.

(** Below [-2^62] the tenth byte has its sign bit set and 70 bits are read. *)
Lemma sleb_loop_overshift f m rest result n :
  n + Z.of_nat f = 10 -> 0 <= n <= 9 -> 0 <= result < 2 ^ (7 * n) ->
  - 2 ^ (63 - 7 * n) <= m < - 2 ^ (62 - 7 * n) ->
  sleb_loop (sleb_encode f m ++ rest) result (7 * n) = None.
Proof.
  revert m result n. induction f as [|f IH]; intros m result n Hf Hn Hr Hm; [lia|].
  destruct (decide (n = 9)) as [->|].
  - replace m with (-1) by (simpl in Hm; lia). reflexivity.
  - assert (64 <= 2 ^ (62 - 7 * n)).
    { change 64 with (2 ^ 6). apply Z.pow_le_mono_r; lia. }
    rewrite sleb_loop_more by lia.
    destruct (sleb_round (m mod 128) result n) as (_ & _ & Hrange & _);
      [lia|apply Z.mod_pos_bound; lia|done|].
    apply IH; [lia|lia|lia|].
    destruct (decide (n = 8)) as [->|]; [simpl in *; div_lia|].
    rewrite (pow2_shrink 62), (pow2_shrink 63) in Hm by lia. div_lia.
Qed.

Lemma sleb_loop_suffix p result bit v p' e :
  sleb_loop p result bit = Some (v, p', e) -> p' `suffix_of` p.
Proof.
  revert result bit. induction p as [|b p IH]; intros result bit H; simpl in H.
  - injection H as _ <- _. by exists [].
  - destruct (shift_int64 (slice7 b) bit) as [x|]; simpl in H; [|done].
    destruct (more b); [apply suffix_cons_r; by eapply IH|].
    destruct (negb _); [destruct (shift_int64 (-1) _); simpl in H; [|done]|];
      injection H as _ <- _; apply suffix_cons_r; by exists [].
Qed.

Lemma uleb_encode_spec f n :
  0 <= n < 2 ^ (7 * Z.of_nat f) -> (f <> 0)%nat ->
  leb_encoding (uleb_encode f n) /\ uleb_value (uleb_encode f n) = n /\
  (length (uleb_encode f n) <= f)%nat.
Proof.
  revert n. induction f as [|f IH]; intros n Hn Hf; [done|]. simpl.
  destruct (Z.ltb_spec n 128) as [Hlt|Hge].
  - destruct (last_byte n) as [Hs Hm]; [lia|]. simpl. rewrite Hs.
    split_and!; [by constructor|lia|lia].
  - destruct (more_byte n) as [Hs Hm].
    assert (Hpow : 2 ^ (7 * Z.of_nat (S f)) = 128 * 2 ^ (7 * Z.of_nat f)).
    { replace (7 * Z.of_nat (S f)) with (7 + 7 * Z.of_nat f) by lia.
      rewrite Z.pow_add_r by lia. lia. }
    rewrite Hpow in Hn.
    destruct f as [|f]; [simpl in Hn; lia|].
    destruct (IH (n / 128)) as (Henc & Hv & Hlen); [div_lia|lia|].
    cbn [uleb_value length]. rewrite Hs, Hv. split_and!; [by constructor|div_lia|lia].
Qed.

(** What the state machines use. *)
Lemma read_uleb128_encode n rest : 0 <= n < 2 ^ 64 -> read_uleb128 (uleb n ++ rest) = (n, rest, None).
Proof.
  intros Hn. destruct (uleb_encode_spec 10 n) as (Henc & Hv & Hlen); [lia|done|].
  unfold read_uleb128, uleb. rewrite (uleb_loop_complete _ rest 0 0) by (done || lia).
  by rewrite Hv, Z.mul_1_r.
Qed.

Lemma read_sleb128_encode n rest :
  - 2 ^ 62 <= n < 2 ^ 63 -> read_sleb128 (sleb n ++ rest) = Some (n, rest, None).
Proof.
  intros Hn. etrans; [apply (sleb_loop_encode 10 n rest 0 0); simpl; lia|].
  by rewrite Z.mul_1_r.
Qed.

Lemma read_uleb128_suffix p v p' e : read_uleb128 p = (v, p', e) -> p' `suffix_of` p.
Proof.
  intros H. apply (uleb_loop_outcome _ 0 0) in H; [|simpl; lia..]. destruct e.
  - apply H.
  - destruct H as (enc & -> & _). by exists enc.
Qed.

Lemma read_uleb128_range p v p' e : read_uleb128 p = (v, p', e) -> in_uw 64 v.
Proof.
  intros H. apply (uleb_loop_outcome _ 0 0) in H; [|simpl; lia..]. unfold in_uw. destruct e.
  - destruct H as [-> _]. lia.
  - destruct H as (enc & _ & _ & _ & -> & Hv). pose proof (uleb_value_nonneg enc). lia.
Qed.

Lemma read_sleb128_suffix p v p' e : read_sleb128 p = Some (v, p', e) -> p' `suffix_of` p.
Proof. apply sleb_loop_suffix. Qed.

(** ** Properties *)

(** C38: [read_uleb128] is exact.  It succeeds just when the bytes start with an
    encoding of at most ten bytes whose value fits 64 bits; it then gives that
    value and stops behind the encoding.  On an error it gives 0 and a place
    not before where it started; the error is "extends past" only when every
    byte left says that another one follows.  The shortest
    encoding of any 64-bit number is read back. *)
Theorem read_uleb128_exact (p p' : list byte) (v n : Z) :
  (read_uleb128 p = (v, p', None) <->
     exists enc, p = enc ++ p' /\ leb_encoding enc /\ (length enc <= 10)%nat /\
       v = uleb_value enc /\ v < 2 ^ 64) /\
  (forall e, read_uleb128 p = (v, p', Some e) ->
     v = 0 /\ p' `suffix_of` p /\
     (e = LebPastEnd -> p' = [] /\ Forall (fun b => more b = true) p)) /\
  (0 <= n < 2 ^ 64 -> read_uleb128 (uleb n ++ p) = (n, p, None)).
Proof.
  assert (H0 : 0 <= 0 < 2 ^ (7 * 0)) by (simpl; lia).
  split_and!; [split| |by apply read_uleb128_encode].
  - intros H. apply (uleb_loop_outcome _ 0 0) in H as (enc & Hp & Henc & Hlen & Hv & Hlt); try lia.
    exists enc. split_and!; [done|done|lia|lia|done].
  - intros (enc & -> & Henc & Hlen & -> & Hlt).
    etrans; [apply (uleb_loop_complete enc p' 0 0); done || (simpl; lia)|].
    by rewrite Z.mul_1_r.
  - intros e H. by apply (uleb_loop_outcome _ 0 0) in H.
Qed.

Lemma read_uleb128_exact_witness :
  read_uleb128 (uleb 624485 ++ [x00]) = (624485, [x00], None) /\
  read_uleb128 [x80; x80] = (0, [], Some LebPastEnd).
Proof.
  split; [|reflexivity]. apply (read_uleb128_exact [x00] [] 0 624485). lia.
Defined.

(** [read_sleb128] reads back the shortest encoding of the numbers from
    -2^62 up to 2^63; for the rest of the 64-bit numbers, those below -2^62,
    it shifts by 70 bits, which C leaves undefined. *)
Theorem read_sleb128_roundtrip (n : Z) (rest : list byte) :
  (- 2 ^ 62 <= n < 2 ^ 63 -> read_sleb128 (sleb n ++ rest) = Some (n, rest, None)) /\
  (- 2 ^ 63 <= n < - 2 ^ 62 -> read_sleb128 (sleb n ++ rest) = None).
Proof.
  split; [apply read_sleb128_encode|]. intros Hn.
  apply (sleb_loop_overshift 10 n rest 0 0); simpl; lia.
Qed.

Lemma read_sleb128_roundtrip_witness :
  read_sleb128 (sleb (-123456) ++ [x00]) = Some (-123456, [x00], None) /\
  read_sleb128 (sleb (- 2 ^ 63) ++ [x00]) = None.
Proof.
  split; [apply (read_sleb128_roundtrip (-123456) [x00])|
          apply (read_sleb128_roundtrip (- 2 ^ 63) [x00])]; lia.
Defined.
