(* ===== verification/DyldSegs.v ===== *)
(** * otool/dyld_bind_info.c: ordinals and segments

    The checks the interpreter of the bind opcodes makes: of library ordinals
    against the array of dylibs, and of segment indexes and offsets against
    the array of segments, 32-bit or 64-bit ones, whichever the file has. *)

From Stdlib Require Import ZArith Lia Bool Ascii.
From Stdlib Require Import Init.Byte.
From stdpp Require Import base list option numbers strings.
From S2P Require Import Prelude CInt HeaderSwap Leb128.

Open Scope string_scope.
Open Scope Z_scope.

(** ** Errors *)

(** The messages of the interpreter. *)
Inductive bind_error :=
  | UnknownSpecialOrdinal
  | OrdinalOutOfRange
  | SegmentIndexOutOfRange
  | MissingSetSegment
  | BadSegIndex
  | BadSegOffset
  | BadCountAndSkip
  | BadLeb (e : leb_error)
  | SymbolPastOpcodes
  | SegmentIndexInvalid
  | MissingSymbol
  | MissingOrdinal
  | TableSizeExceeded
  | TableSizeMismatch
  | Misaligned
  | BadLibraryOrdinal (ordinal : Z) (error : bind_error)
  | BadPointerOrdinal (ordinal address : Z)
  | BadBindType (type : Z)
  | NextPastFile (address : Z)
  | NextPastPage (address : Z)
  | BadSubOpcode (immediate : Z)
  | BadOpcode (opcode : Z).

#[export] Instance leb_error_eq_dec : EqDecision leb_error.
Proof. solve_decision. Defined.
#[export] Instance bind_error_eq_dec : EqDecision bind_error.
Proof. unfold EqDecision, Decision. fix IH 1. intros x y. decide equality; solve [apply Z.eq_dec|apply leb_error_eq_dec|apply IH]. Defined.

(** ** Strings in memory *)

(** The C string that starts a run of characters. *)
Fixpoint c_string (l : list Z) : string :=
  match l with
  | [] => ""
  | c :: l' => if c =? 0 then "" else String (ascii_of_N (Z.to_N c)) (c_string l')
  end.

(** ** Library ordinals *)

Definition BIND_SPECIAL_DYLIB_SELF : Z := 0.
Definition BIND_SPECIAL_DYLIB_MAIN_EXECUTABLE : Z := -1.
Definition BIND_SPECIAL_DYLIB_FLAT_LOOKUP : Z := -2.
Definition BIND_SPECIAL_DYLIB_WEAK_LOOKUP : Z := -3.

(** The name of the dylib, or the error when it is FALSE that is returned; the
    default case indexes the array, [None] where that is out of bounds. *)
Definition validateOrdinal (dylibOrdinal : Z) (dylibs : list string)
    : bind_error + option string :=
  if dylibOrdinal <? BIND_SPECIAL_DYLIB_WEAK_LOOKUP then inl UnknownSpecialOrdinal
  else if (0 <? dylibOrdinal) && (Z.of_nat (length dylibs) <? u32 dylibOrdinal)
  then inl OrdinalOutOfRange
  else inr
    (if dylibOrdinal =? BIND_SPECIAL_DYLIB_SELF then Some "this-image"
     else if dylibOrdinal =? BIND_SPECIAL_DYLIB_MAIN_EXECUTABLE then Some "main-executable"
     else if dylibOrdinal =? BIND_SPECIAL_DYLIB_FLAT_LOOKUP then Some "flat-namespace"
     else if dylibOrdinal =? BIND_SPECIAL_DYLIB_WEAK_LOOKUP then Some "weak"
     else dylibs !! Z.to_nat (dylibOrdinal - 1)).

(** ** Segments *)

(** A load command in memory, with the sections behind it. *)
Record segment_32 := { seg32_command : segment_command; seg32_sections : list section }.
Record segment_64 := { seg64_command : segment_command_64; seg64_sections : list section_64 }.

Section segments.
(** [segs] with [nsegs], and [segs64] with [nsegs64]; [None] is NULL. *)
Variables (segs : option (list segment_32)) (segs64 : option (list segment_64)).

Definition nsegs : Z := Z.of_nat (length (default [] segs)).
Definition nsegs64 : Z := Z.of_nat (length (default [] segs64)).

Definition seg (segIndex : Z) : option segment_32 := default [] segs !! Z.to_nat segIndex.
Definition seg64 (segIndex : Z) : option segment_64 := default [] segs64 !! Z.to_nat segIndex.

Definition validateSegIndex (segIndex : Z) : option bind_error :=
  if bool_decide (is_Some segs64) && (nsegs64 <=? segIndex) then Some SegmentIndexOutOfRange
  else if bool_decide (is_Some segs) && (nsegs <=? segIndex) then Some SegmentIndexOutOfRange
  else None.

Definition segStartAddress (segIndex : Z) : Z :=
  if bool_decide (is_Some segs) then
    match seg segIndex with
    | Some s => segment_command_vmaddr (seg32_command s)
    | None => 0
    end
  else
    match seg64 segIndex with
    | Some s => segment_command_64_vmaddr (seg64_command s)
    | None => 0
    end.

Definition segmentName (segIndex : Z) : string :=
  if bool_decide (is_Some segs) then
    match seg segIndex with
    | Some s => c_string (segment_command_segname (seg32_command s))
    | None => "??"
    end
  else
    match seg64 segIndex with
    | Some s => c_string (segment_command_64_segname (seg64_command s))
    | None => "??"
    end.

Definition in_section (address : Z) (s : section) : bool :=
  (section_addr s <=? address) && (address <? u32 (section_addr s + section_size s)).

Definition in_section_64 (address : Z) (s : section_64) : bool :=
  (section_64_addr s <=? address) && (address <? u64 (section_64_addr s + section_64_size s)).

Definition sectionName (segIndex address : Z) : string :=
  if bool_decide (is_Some segs) then
    match seg segIndex with
    | None => "??"
    | Some s =>
        let nsects := Z.to_nat (segment_command_nsects (seg32_command s)) in
        match List.find (in_section address) (take nsects (seg32_sections s)) with
        | Some sect => c_string (section_sectname sect)
        | None => "??"
        end
    end
  else
    match seg64 segIndex with
    | None => "??"
    | Some s =>
        let nsects := Z.to_nat (segment_command_64_nsects (seg64_command s)) in
        match List.find (in_section_64 address) (take nsects (seg64_sections s)) with
        | Some sect => c_string (section_64_sectname sect)
        | None => "??"
        end
    end.

(** The two tests of an offset against a segment, in the width of its fields:
    [vmaddr + vmsize] wraps in it, [vmaddr + segOffset] in 64 bits. *)
Definition check_offset (vmaddr segEnd segOffset : Z) (endInvalid : bool) : option bind_error :=
  let address := u64 (vmaddr + segOffset) in
  if segEnd <? address then Some BadSegOffset
  else if endInvalid && (address =? segEnd) then Some BadSegOffset
  else None.

Definition segment_end (s : segment_32) : Z :=
  u32 (segment_command_vmaddr (seg32_command s) + segment_command_vmsize (seg32_command s)).
Definition segment_end_64 (s : segment_64) : Z :=
  u64 (segment_command_64_vmaddr (seg64_command s) + segment_command_64_vmsize (seg64_command s)).

(** [segIndex >= nsegs] compares unsigned numbers, so -1 is too large. *)
Definition checkSegAndOffset (segIndex segOffset : Z) (endInvalid : bool) : option bind_error :=
  if segIndex =? -1 then Some MissingSetSegment
  else if bool_decide (is_Some segs) then
    match seg (u32 segIndex) with
    | None => Some BadSegIndex
    | Some s => check_offset (segment_command_vmaddr (seg32_command s)) (segment_end s)
                  segOffset endInvalid
    end
  else if bool_decide (is_Some segs64) then
    match seg64 (u32 segIndex) with
    | None => Some BadSegIndex
    | Some s => check_offset (segment_command_64_vmaddr (seg64_command s)) (segment_end_64 s)
                  segOffset endInvalid
    end
  else None.

(** The two tests of a run of [count] pointers of [size] bytes. *)
Definition check_run (count skip size vmaddr segEnd segOffset : Z) : option bind_error :=
  let i := if 1 <? count then u64 ((skip + size) * (count - 1)) else 0 in
  let address := u64 (vmaddr + segOffset) in
  if segEnd <=? address then Some BadSegOffset
  else if segEnd <=? u64 (address + i) then Some BadCountAndSkip
  else None.

(** The new [*count] and the error. *)
Definition checkCountAndSkip (count skip segIndex segOffset : Z) : Z * option bind_error :=
  let checked :=
    if bool_decide (is_Some segs) then
      match seg (u32 segIndex) with
      | None => Some BadSegIndex
      | Some s => check_run count skip 4 (segment_command_vmaddr (seg32_command s))
                    (segment_end s) segOffset
      end
    else if bool_decide (is_Some segs64) then
      match seg64 (u32 segIndex) with
      | None => Some BadSegIndex
      | Some s => check_run count skip 8 (segment_command_64_vmaddr (seg64_command s))
                    (segment_end_64 s) segOffset
      end
    else None in
  (match checked with Some _ => 1 | None => count end, checked).
End segments.
