(* ===== verification/DyldState.v ===== *)
(** * otool/dyld_bind_info.c: the state of get_dyld_bind_info

    The local variables of the interpreter of the bind opcodes as a record
    with a setter each, the entries it produces and the ordinal table of the
    threaded format. *)

From Stdlib Require Import ZArith.
From Stdlib Require Import Init.Byte.
From stdpp Require Import base list option numbers strings gmap.
From S2P Require Import Prelude CInt DyldSegs.

(** An entry of the result (dyld_bind_info.h); a string that is [None] is NULL. *)
Record dyld_bind_info := {
  bi_segname : option string;
  bi_sectname : option string;
  bi_address : Z;
  bi_bind_type : Z;
  bi_lib_ordinal : Z;
  bi_bind_name : option string;
  bi_addend : Z;
  bi_dylibname : option string;
  bi_symbolname : option string;
  bi_weak_import : bool;
  bi_pointer_value : Z;
  bi_pointer_ondisk : Z;
  bi_pointer_format : Z;
  bi_has_auth : bool;
  bi_auth_diversity : Z;
  bi_auth_addr_div : bool;
  bi_auth_key : Z
}.

(** What [memset] leaves. *)
Definition zero_bind_info : dyld_bind_info :=
  {| bi_segname := None; bi_sectname := None; bi_address := 0; bi_bind_type := 0;
     bi_lib_ordinal := 0; bi_bind_name := None; bi_addend := 0; bi_dylibname := None;
     bi_symbolname := None; bi_weak_import := false; bi_pointer_value := 0;
     bi_pointer_ondisk := 0; bi_pointer_format := 0; bi_has_auth := false;
     bi_auth_diversity := 0; bi_auth_addr_div := false; bi_auth_key := 0 |}.

(** An entry of the ordinal table, 24 bytes. *)
Record ThreadedBindData := {
  td_symbolName : option string;
  td_addend : Z;
  td_libraryOrdinal : Z;
  td_flags : Z;
  td_type : Z
}.

Definition CHAIN_FORMAT_NONE : Z := 0.
Definition CHAIN_FORMAT_ARM64E : Z := 1.

(** What an opcode does to the outputs, in order: an error is counted, and
    printed in the first pass, or in both ([both]); an entry is counted, and
    stored in the second pass. *)
Inductive bind_event :=
  | BindError (both : bool) (location : Z) (error : bind_error)
  | BindEntry (info : dyld_bind_info).

(** The locals.  [b_p] is the list of the opcode bytes from [p] to [end]; the
    table is the part of its memory that has been written, and the number of
    bytes allocated for it; [b_log] collects the events of one opcode. *)
Record bind_state := mk_bind_state {
  b_p : list byte;
  b_type : Z;
  b_segIndex : Z;
  b_segOffset : Z;
  b_symbolName : option string;
  b_fromDylib : option string;
  b_libraryOrdinalSet : bool;
  b_libraryOrdinal : Z;
  b_addend : Z;
  b_flags : Z;
  b_segStartAddr : Z;
  b_segName : option string;
  b_sectName : option string;
  b_weak_import : bool;
  b_done : bool;
  b_ordinalTable : gmap Z ThreadedBindData;
  b_ordinalTableSize : Z;
  b_ordinalTableCount : Z;
  b_ordinalTableIndex : Z;
  b_chain_format : Z;
  b_log : list bind_event
}.

Definition set_p (x : list byte) (s : bind_state) : bind_state :=
  mk_bind_state x (b_type s) (b_segIndex s) (b_segOffset s) (b_symbolName s) (b_fromDylib s)
    (b_libraryOrdinalSet s) (b_libraryOrdinal s) (b_addend s) (b_flags s) (b_segStartAddr s)
    (b_segName s) (b_sectName s) (b_weak_import s) (b_done s) (b_ordinalTable s)
    (b_ordinalTableSize s) (b_ordinalTableCount s) (b_ordinalTableIndex s) (b_chain_format s)
    (b_log s).
Definition set_type (x : Z) (s : bind_state) : bind_state :=
  mk_bind_state (b_p s) x (b_segIndex s) (b_segOffset s) (b_symbolName s) (b_fromDylib s)
    (b_libraryOrdinalSet s) (b_libraryOrdinal s) (b_addend s) (b_flags s) (b_segStartAddr s)
    (b_segName s) (b_sectName s) (b_weak_import s) (b_done s) (b_ordinalTable s)
    (b_ordinalTableSize s) (b_ordinalTableCount s) (b_ordinalTableIndex s) (b_chain_format s)
    (b_log s).
Definition set_segIndex (x : Z) (s : bind_state) : bind_state :=
  mk_bind_state (b_p s) (b_type s) x (b_segOffset s) (b_symbolName s) (b_fromDylib s)
    (b_libraryOrdinalSet s) (b_libraryOrdinal s) (b_addend s) (b_flags s) (b_segStartAddr s)
    (b_segName s) (b_sectName s) (b_weak_import s) (b_done s) (b_ordinalTable s)
    (b_ordinalTableSize s) (b_ordinalTableCount s) (b_ordinalTableIndex s) (b_chain_format s)
    (b_log s).
Definition set_segOffset (x : Z) (s : bind_state) : bind_state :=
  mk_bind_state (b_p s) (b_type s) (b_segIndex s) x (b_symbolName s) (b_fromDylib s)
    (b_libraryOrdinalSet s) (b_libraryOrdinal s) (b_addend s) (b_flags s) (b_segStartAddr s)
    (b_segName s) (b_sectName s) (b_weak_import s) (b_done s) (b_ordinalTable s)
    (b_ordinalTableSize s) (b_ordinalTableCount s) (b_ordinalTableIndex s) (b_chain_format s)
    (b_log s).
Definition set_symbolName (x : option string) (s : bind_state) : bind_state :=
  mk_bind_state (b_p s) (b_type s) (b_segIndex s) (b_segOffset s) x (b_fromDylib s)
    (b_libraryOrdinalSet s) (b_libraryOrdinal s) (b_addend s) (b_flags s) (b_segStartAddr s)
    (b_segName s) (b_sectName s) (b_weak_import s) (b_done s) (b_ordinalTable s)
    (b_ordinalTableSize s) (b_ordinalTableCount s) (b_ordinalTableIndex s) (b_chain_format s)
    (b_log s).
Definition set_fromDylib (x : option string) (s : bind_state) : bind_state :=
  mk_bind_state (b_p s) (b_type s) (b_segIndex s) (b_segOffset s) (b_symbolName s) x
    (b_libraryOrdinalSet s) (b_libraryOrdinal s) (b_addend s) (b_flags s) (b_segStartAddr s)
    (b_segName s) (b_sectName s) (b_weak_import s) (b_done s) (b_ordinalTable s)
    (b_ordinalTableSize s) (b_ordinalTableCount s) (b_ordinalTableIndex s) (b_chain_format s)
    (b_log s).
Definition set_libraryOrdinalSet (x : bool) (s : bind_state) : bind_state :=
  mk_bind_state (b_p s) (b_type s) (b_segIndex s) (b_segOffset s) (b_symbolName s) (b_fromDylib s)
    x (b_libraryOrdinal s) (b_addend s) (b_flags s) (b_segStartAddr s) (b_segName s)
    (b_sectName s) (b_weak_import s) (b_done s) (b_ordinalTable s) (b_ordinalTableSize s)
    (b_ordinalTableCount s) (b_ordinalTableIndex s) (b_chain_format s) (b_log s).
Definition set_libraryOrdinal (x : Z) (s : bind_state) : bind_state :=
  mk_bind_state (b_p s) (b_type s) (b_segIndex s) (b_segOffset s) (b_symbolName s) (b_fromDylib s)
    (b_libraryOrdinalSet s) x (b_addend s) (b_flags s) (b_segStartAddr s) (b_segName s)
    (b_sectName s) (b_weak_import s) (b_done s) (b_ordinalTable s) (b_ordinalTableSize s)
    (b_ordinalTableCount s) (b_ordinalTableIndex s) (b_chain_format s) (b_log s).
Definition set_addend (x : Z) (s : bind_state) : bind_state :=
  mk_bind_state (b_p s) (b_type s) (b_segIndex s) (b_segOffset s) (b_symbolName s) (b_fromDylib s)
    (b_libraryOrdinalSet s) (b_libraryOrdinal s) x (b_flags s) (b_segStartAddr s) (b_segName s)
    (b_sectName s) (b_weak_import s) (b_done s) (b_ordinalTable s) (b_ordinalTableSize s)
    (b_ordinalTableCount s) (b_ordinalTableIndex s) (b_chain_format s) (b_log s).
Definition set_flags (x : Z) (s : bind_state) : bind_state :=
  mk_bind_state (b_p s) (b_type s) (b_segIndex s) (b_segOffset s) (b_symbolName s) (b_fromDylib s)
    (b_libraryOrdinalSet s) (b_libraryOrdinal s) (b_addend s) x (b_segStartAddr s) (b_segName s)
    (b_sectName s) (b_weak_import s) (b_done s) (b_ordinalTable s) (b_ordinalTableSize s)
    (b_ordinalTableCount s) (b_ordinalTableIndex s) (b_chain_format s) (b_log s).
Definition set_segStartAddr (x : Z) (s : bind_state) : bind_state :=
  mk_bind_state (b_p s) (b_type s) (b_segIndex s) (b_segOffset s) (b_symbolName s) (b_fromDylib s)
    (b_libraryOrdinalSet s) (b_libraryOrdinal s) (b_addend s) (b_flags s) x (b_segName s)
    (b_sectName s) (b_weak_import s) (b_done s) (b_ordinalTable s) (b_ordinalTableSize s)
    (b_ordinalTableCount s) (b_ordinalTableIndex s) (b_chain_format s) (b_log s).
Definition set_segName (x : option string) (s : bind_state) : bind_state :=
  mk_bind_state (b_p s) (b_type s) (b_segIndex s) (b_segOffset s) (b_symbolName s) (b_fromDylib s)
    (b_libraryOrdinalSet s) (b_libraryOrdinal s) (b_addend s) (b_flags s) (b_segStartAddr s) x
    (b_sectName s) (b_weak_import s) (b_done s) (b_ordinalTable s) (b_ordinalTableSize s)
    (b_ordinalTableCount s) (b_ordinalTableIndex s) (b_chain_format s) (b_log s).
Definition set_sectName (x : option string) (s : bind_state) : bind_state :=
  mk_bind_state (b_p s) (b_type s) (b_segIndex s) (b_segOffset s) (b_symbolName s) (b_fromDylib s)
    (b_libraryOrdinalSet s) (b_libraryOrdinal s) (b_addend s) (b_flags s) (b_segStartAddr s)
    (b_segName s) x (b_weak_import s) (b_done s) (b_ordinalTable s) (b_ordinalTableSize s)
    (b_ordinalTableCount s) (b_ordinalTableIndex s) (b_chain_format s) (b_log s).
Definition set_weak_import (x : bool) (s : bind_state) : bind_state :=
  mk_bind_state (b_p s) (b_type s) (b_segIndex s) (b_segOffset s) (b_symbolName s) (b_fromDylib s)
    (b_libraryOrdinalSet s) (b_libraryOrdinal s) (b_addend s) (b_flags s) (b_segStartAddr s)
    (b_segName s) (b_sectName s) x (b_done s) (b_ordinalTable s) (b_ordinalTableSize s)
    (b_ordinalTableCount s) (b_ordinalTableIndex s) (b_chain_format s) (b_log s).
Definition set_done (x : bool) (s : bind_state) : bind_state :=
  mk_bind_state (b_p s) (b_type s) (b_segIndex s) (b_segOffset s) (b_symbolName s) (b_fromDylib s)
    (b_libraryOrdinalSet s) (b_libraryOrdinal s) (b_addend s) (b_flags s) (b_segStartAddr s)
    (b_segName s) (b_sectName s) (b_weak_import s) x (b_ordinalTable s) (b_ordinalTableSize s)
    (b_ordinalTableCount s) (b_ordinalTableIndex s) (b_chain_format s) (b_log s).
Definition set_ordinalTable (x : gmap Z ThreadedBindData) (s : bind_state) : bind_state :=
  mk_bind_state (b_p s) (b_type s) (b_segIndex s) (b_segOffset s) (b_symbolName s) (b_fromDylib s)
    (b_libraryOrdinalSet s) (b_libraryOrdinal s) (b_addend s) (b_flags s) (b_segStartAddr s)
    (b_segName s) (b_sectName s) (b_weak_import s) (b_done s) x (b_ordinalTableSize s)
    (b_ordinalTableCount s) (b_ordinalTableIndex s) (b_chain_format s) (b_log s).
Definition set_ordinalTableSize (x : Z) (s : bind_state) : bind_state :=
  mk_bind_state (b_p s) (b_type s) (b_segIndex s) (b_segOffset s) (b_symbolName s) (b_fromDylib s)
    (b_libraryOrdinalSet s) (b_libraryOrdinal s) (b_addend s) (b_flags s) (b_segStartAddr s)
    (b_segName s) (b_sectName s) (b_weak_import s) (b_done s) (b_ordinalTable s) x
    (b_ordinalTableCount s) (b_ordinalTableIndex s) (b_chain_format s) (b_log s).
Definition set_ordinalTableCount (x : Z) (s : bind_state) : bind_state :=
  mk_bind_state (b_p s) (b_type s) (b_segIndex s) (b_segOffset s) (b_symbolName s) (b_fromDylib s)
    (b_libraryOrdinalSet s) (b_libraryOrdinal s) (b_addend s) (b_flags s) (b_segStartAddr s)
    (b_segName s) (b_sectName s) (b_weak_import s) (b_done s) (b_ordinalTable s)
    (b_ordinalTableSize s) x (b_ordinalTableIndex s) (b_chain_format s) (b_log s).
Definition set_ordinalTableIndex (x : Z) (s : bind_state) : bind_state :=
  mk_bind_state (b_p s) (b_type s) (b_segIndex s) (b_segOffset s) (b_symbolName s) (b_fromDylib s)
    (b_libraryOrdinalSet s) (b_libraryOrdinal s) (b_addend s) (b_flags s) (b_segStartAddr s)
    (b_segName s) (b_sectName s) (b_weak_import s) (b_done s) (b_ordinalTable s)
    (b_ordinalTableSize s) (b_ordinalTableCount s) x (b_chain_format s) (b_log s).
Definition set_chain_format (x : Z) (s : bind_state) : bind_state :=
  mk_bind_state (b_p s) (b_type s) (b_segIndex s) (b_segOffset s) (b_symbolName s) (b_fromDylib s)
    (b_libraryOrdinalSet s) (b_libraryOrdinal s) (b_addend s) (b_flags s) (b_segStartAddr s)
    (b_segName s) (b_sectName s) (b_weak_import s) (b_done s) (b_ordinalTable s)
    (b_ordinalTableSize s) (b_ordinalTableCount s) (b_ordinalTableIndex s) x (b_log s).
Definition set_log (x : list bind_event) (s : bind_state) : bind_state :=
  mk_bind_state (b_p s) (b_type s) (b_segIndex s) (b_segOffset s) (b_symbolName s) (b_fromDylib s)
    (b_libraryOrdinalSet s) (b_libraryOrdinal s) (b_addend s) (b_flags s) (b_segStartAddr s)
    (b_segName s) (b_sectName s) (b_weak_import s) (b_done s) (b_ordinalTable s)
    (b_ordinalTableSize s) (b_ordinalTableCount s) (b_ordinalTableIndex s) (b_chain_format s) x.
