(* ===== verification/DyldBind.v ===== *)
(** * otool/dyld_bind_info.c: get_dyld_bind_info

    The interpreter of the bind opcodes of LC_DYLD_INFO: a state machine over
    the locals of DyldState, run twice over the same bytes.  The first pass
    counts the entries and prints the errors, the second one fills an array
    of that many entries.  One definition per opcode; [bind_opcode] is the
    switch, [bind_loop] the loop of a pass. *)

From Stdlib Require Import ZArith Lia Bool.
From Stdlib Require Import Init.Byte.
From stdpp Require Import base list option numbers strings gmap.
From S2P Require Import Prelude CInt ByteSex HeaderSwap Leb128 DyldSegs DyldState.

Open Scope string_scope.
Open Scope Z_scope.

(** ** Outcomes *)

(** What C leaves undefined, or what reads or writes outside of the objects. *)
Inductive undefined :=
  | SlebOvershift
  | StoreOutOfBounds (n : nat)
  | TableOutOfBounds
  | TableUninitialised
  | NullSegments
  | ReadOutOfBounds
  | OutOfFuel.

(** A computation ends, is undefined, or exits because memory is exhausted. *)
Inductive res (A : Type) :=
  | Ok (a : A)
  | Undefined (u : undefined)
  | Fatal.
#[global] Arguments Ok {A} _.
#[global] Arguments Undefined {A} _.
#[global] Arguments Fatal {A}.

#[export] Instance res_ret : MRet res := @Ok.
#[export] Instance res_bind : MBind res := fun A B f m =>
  match m with
  | Ok a => f a
  | Undefined u => Undefined u
  | Fatal => Fatal
  end.

(** ** Constants *)

Definition BIND_OPCODE_MASK : Z := 0xF0.
Definition BIND_IMMEDIATE_MASK : Z := 0x0F.
Definition BIND_OPCODE_DONE : Z := 0x00.
Definition BIND_OPCODE_SET_DYLIB_ORDINAL_IMM : Z := 0x10.
Definition BIND_OPCODE_SET_DYLIB_ORDINAL_ULEB : Z := 0x20.
Definition BIND_OPCODE_SET_DYLIB_SPECIAL_IMM : Z := 0x30.
Definition BIND_OPCODE_SET_SYMBOL_TRAILING_FLAGS_IMM : Z := 0x40.
Definition BIND_OPCODE_SET_TYPE_IMM : Z := 0x50.
Definition BIND_OPCODE_SET_ADDEND_SLEB : Z := 0x60.
Definition BIND_OPCODE_SET_SEGMENT_AND_OFFSET_ULEB : Z := 0x70.
Definition BIND_OPCODE_ADD_ADDR_ULEB : Z := 0x80.
Definition BIND_OPCODE_DO_BIND : Z := 0x90.
Definition BIND_OPCODE_DO_BIND_ADD_ADDR_ULEB : Z := 0xA0.
Definition BIND_OPCODE_DO_BIND_ADD_ADDR_IMM_SCALED : Z := 0xB0.
Definition BIND_OPCODE_DO_BIND_ULEB_TIMES_SKIPPING_ULEB : Z := 0xC0.
Definition BIND_OPCODE_THREADED : Z := 0xD0.
Definition BIND_SUBOPCODE_THREADED_SET_BIND_ORDINAL_TABLE_SIZE_ULEB : Z := 0x00.
Definition BIND_SUBOPCODE_THREADED_APPLY : Z := 0x01.
Definition BIND_TYPE_POINTER : Z := 1.
Definition BIND_TYPE_TEXT_ABSOLUTE32 : Z := 2.
Definition BIND_TYPE_TEXT_PCREL32 : Z := 3.
Definition BIND_SYMBOL_FLAGS_WEAK_IMPORT : Z := 0x1.
Definition MAXERRORCOUNT : Z := 20.

(** The name print_dyld_bind_info prints for the type of an entry. *)
Definition bindTypeName (type : Z) : string :=
  if type =? BIND_TYPE_POINTER then "pointer"
  else if type =? BIND_TYPE_TEXT_ABSOLUTE32 then "text abs32"
  else if type =? BIND_TYPE_TEXT_PCREL32 then "text rel32"
  else "!!Unknown!!".

(** [sizeof(struct ThreadedBindData)] and [sizeof(struct dyld_bind_info)]. *)
Definition sizeof_table_entry : Z := 24.
Definition sizeof_bind_info : Z := 112.

(** ** Pieces the opcodes share *)

(** [printErrorBind] and its variants. *)
Definition report (location : Z) (e : bind_error) (s : bind_state) : bind_state :=
  set_log (b_log s ++ [BindError false location e])%list s.

(** An entry is stored at [n], and [n] advances. *)
Definition emit (e : dyld_bind_info) (s : bind_state) : bind_state :=
  set_log (b_log s ++ [BindEntry e])%list s.

Definition reset_segment (s : bind_state) : bind_state :=
  set_segIndex (-1) (set_segStartAddr 0 (set_segName None (set_segOffset 0 s))).

Definition reset_section (s : bind_state) : bind_state := set_sectName None (reset_segment s).

(** The entry of every DO_BIND opcode that is not threaded. *)
Definition make_entry (s : bind_state) : dyld_bind_info :=
  {| bi_segname := Some (String.substring 0 16 (default "??" (b_segName s)));
     bi_sectname := Some (String.substring 0 16 (default "??" (b_sectName s)));
     bi_address := u64 (b_segStartAddr s + b_segOffset s);
     bi_bind_type := b_type s;
     bi_lib_ordinal := if b_libraryOrdinalSet s then b_libraryOrdinal s else 0;
     bi_bind_name := None;
     bi_addend := u64 (b_addend s);
     bi_dylibname := Some (default "??" (b_fromDylib s));
     bi_symbolname := Some (default "Symbol name not set" (b_symbolName s));
     bi_weak_import := b_weak_import s;
     bi_pointer_value := 0;
     bi_pointer_ondisk := 0;
     bi_pointer_format := 0;
     bi_has_auth := false;
     bi_auth_diversity := 0;
     bi_auth_addr_div := false;
     bi_auth_key := 0 |}.

(** The bytes of a symbol name, and those from its NUL on, if there is one. *)
Fixpoint scan_name (p : list byte) : list byte * list byte :=
  match p with
  | [] => ([], [])
  | b :: p' => if byte_Z b =? 0 then ([], p)
               else let (name, rest) := scan_name p' in (b :: name, rest)
  end.

Section get_dyld_bind_info.
(** The inputs: the segments, the names of the dylibs, the host and whether
    the file has the other byte sex, the bytes of the object file; and whether
    an allocation of so many bytes succeeds. *)
Variables (segs : option (list segment_32)) (segs64 : option (list segment_64)).
Variables (dylibs : list string) (h : host) (swapped : bool) (object : list byte).
Variable can_allocate : Z -> bool.

Definition sizeof_pointer : Z := if bool_decide (is_Some segs) then 4 else 8.

(** Where the entry would go: the section of it, or an error. *)
Definition find_location (endInvalid : bool) (location : Z) (s : bind_state) : bind_state :=
  match checkSegAndOffset segs segs64 (b_segIndex s) (b_segOffset s) endInvalid with
  | Some e => reset_section (report location e s)
  | None => set_sectName (Some (sectionName segs segs64 (u8 (b_segIndex s))
                                  (u64 (b_segStartAddr s + b_segOffset s)))) s
  end.

Definition check_symbol (location : Z) (s : bind_state) : bind_state :=
  let s := match b_symbolName s with None => report location MissingSymbol s | Some _ => s end in
  if b_libraryOrdinalSet s then s else report location MissingOrdinal s.

(** The check after the offset was advanced. *)
Definition check_next (location : Z) (s : bind_state) : bind_state :=
  match checkSegAndOffset segs segs64 (b_segIndex s) (b_segOffset s) false with
  | Some e => reset_section (report location e s)
  | None => s
  end.

(** ** The opcodes *)

(** [libraryOrdinalSet = validateOrdinal(libraryOrdinal, ...)] and the report. *)
Definition set_ordinal (location : Z) (s : bind_state) : bind_state :=
  match validateOrdinal (b_libraryOrdinal s) dylibs with
  | inr name => set_libraryOrdinalSet true (set_fromDylib name s)
  | inl e => report location (BadLibraryOrdinal (b_libraryOrdinal s) e)
               (set_libraryOrdinalSet false (set_fromDylib None s))
  end.

Definition op_set_dylib_ordinal_imm (location immediate : Z) (s : bind_state) : bind_state :=
  set_ordinal location (set_libraryOrdinal immediate s).

Definition op_set_dylib_ordinal_uleb (location : Z) (s : bind_state) : bind_state :=
  let '(v, p, error) := read_uleb128 (b_p s) in
  let s := set_libraryOrdinal (i32 v) (set_p p s) in
  match error with
  | Some e => report location (BadLibraryOrdinal (b_libraryOrdinal s) (BadLeb e))
                (set_libraryOrdinalSet false s)
  | None => set_ordinal location s
  end.

Definition op_set_dylib_special_imm (location immediate : Z) (s : bind_state) : bind_state :=
  let ordinal := if immediate =? 0 then 0 else sw 8 (Z.lor BIND_OPCODE_MASK immediate) in
  set_ordinal location (set_libraryOrdinal ordinal s).

Definition op_set_symbol (location immediate : Z) (s : bind_state) : bind_state :=
  let (name, rest) := scan_name (b_p s) in
  let s := set_symbolName (Some (c_string (byte_Z <$> name))) s in
  let s :=
    match rest with
    | [] => report location SymbolPastOpcodes (set_p [] s)
    | _ :: p => set_p p s
    end in
  set_weak_import (negb (Z.land immediate BIND_SYMBOL_FLAGS_WEAK_IMPORT =? 0))
    (set_flags immediate s).

Definition op_set_type (location immediate : Z) (s : bind_state) : bind_state :=
  if (immediate =? 0) || (BIND_TYPE_TEXT_PCREL32 <? immediate)
  then set_type 0 (report location (BadBindType immediate) s)
  else set_type immediate s.

Definition op_set_addend (location : Z) (s : bind_state) : res bind_state :=
  match read_sleb128 (b_p s) with
  | None => Undefined SlebOvershift
  | Some (v, p, error) =>
      let s := set_addend v (set_p p s) in
      Ok match error with
         | Some e => set_addend 0 (report location (BadLeb e) s)
         | None => s
         end
  end.

Definition op_set_segment_and_offset (location immediate : Z) (s : bind_state) : bind_state :=
  let '(error, s) :=
    match validateSegIndex segs segs64 immediate with
    | Some e => (Some e, s)
    | None => let '(v, p, error) := read_uleb128 (b_p s) in
              (BadLeb <$> error, set_segOffset v (set_p p s))
    end in
  let '(error, s) :=
    match error with
    | Some e => (Some e, s)
    | None =>
        let s := set_segName (Some (segmentName segs segs64 immediate))
                   (set_segStartAddr (segStartAddress segs segs64 immediate)
                      (set_segIndex immediate s)) in
        (checkSegAndOffset segs segs64 (b_segIndex s) (b_segOffset s) true, s)
    end in
  match error with
  | Some e => reset_segment (report location e s)
  | None => s
  end.

Definition op_add_addr (location : Z) (s : bind_state) : bind_state :=
  let '(error, s) :=
    if b_segIndex s =? -1 then (Some SegmentIndexInvalid, s)
    else let '(v, p, error) := read_uleb128 (b_p s) in
         (BadLeb <$> error, set_segOffset (u64 (b_segOffset s + v)) (set_p p s)) in
  let error :=
    match error with
    | Some e => Some e
    | None => checkSegAndOffset segs segs64 (b_segIndex s) (b_segOffset s) true
    end in
  match error with
  | Some e => reset_segment (report location e s)
  | None => s
  end.

(** The threaded format collects the binds in the ordinal table instead. *)
Definition store_ordinal (location : Z) (s : bind_state) : res bind_state :=
  if b_ordinalTableCount s <=? b_ordinalTableIndex s
  then Ok (set_log (b_log s ++ [BindError true location TableSizeExceeded])%list s)
  else
    let oti := b_ordinalTableIndex s in
    let s := set_ordinalTableIndex (u64 (oti + 1)) s in
    if b_ordinalTableSize s <? sizeof_table_entry * (oti + 1) then Undefined TableOutOfBounds
    else Ok (set_ordinalTable
               (<[oti := {| td_symbolName := b_symbolName s;
                            td_addend := b_addend s;
                            td_libraryOrdinal :=
                              if b_libraryOrdinalSet s then b_libraryOrdinal s else 0;
                            td_flags := u8 (b_flags s);
                            td_type := b_type s |}]> (b_ordinalTable s)) s).

Definition op_do_bind (location : Z) (s : bind_state) : res bind_state :=
  let s := if b_chain_format s =? CHAIN_FORMAT_NONE then find_location true location s else s in
  let s := check_symbol location s in
  if b_chain_format s =? CHAIN_FORMAT_ARM64E then store_ordinal location s
  else Ok (set_segOffset (u64 (b_segOffset s + sizeof_pointer)) (emit (make_entry s) s)).

Definition op_do_bind_add_addr_uleb (location : Z) (s : bind_state) : bind_state :=
  let s := find_location true location s in
  let s := check_symbol location s in
  let s := emit (make_entry s) s in
  let '(v, p, error) := read_uleb128 (b_p s) in
  let s := set_segOffset (u64 (b_segOffset s + (v + sizeof_pointer))) (set_p p s) in
  let s :=
    match error with
    | Some e => reset_section (report location (BadLeb e) s)
    | None => s
    end in
  check_next location s.

Definition op_do_bind_add_addr_imm_scaled (location immediate : Z) (s : bind_state)
    : bind_state :=
  let s := find_location true location s in
  let s := check_symbol location s in
  let s := emit (make_entry s) s in
  let s := set_segOffset
             (u64 (b_segOffset s + (immediate * sizeof_pointer + sizeof_pointer))) s in
  check_next location s.

(** [for (uint32_t i=0; i < count; ++i)]; [skip + sizeof_pointer] is an
    [uint32_t]. *)
Fixpoint bind_times (count : nat) (skip : Z) (s : bind_state) : bind_state :=
  match count with
  | O => s
  | S n =>
      let s := emit (make_entry s) s in
      bind_times n skip
        (if b_segIndex s =? -1 then s
         else set_segOffset (u64 (b_segOffset s + u32 (skip + sizeof_pointer))) s)
  end.

(** An operand of the next opcode, 0 after an error. *)
Definition read_operand (location : Z) (s : bind_state) : Z * bind_state :=
  let '(v, p, error) := read_uleb128 (b_p s) in
  let s := set_p p s in
  match error with
  | Some e => (0, report location (BadLeb e) s)
  | None => (u32 v, s)
  end.

Definition op_do_bind_uleb_times_skipping_uleb (location : Z) (s : bind_state) : bind_state :=
  let (count, s) := read_operand location s in
  let (skip, s) := read_operand location s in
  let s := find_location true location s in
  let s := check_symbol location s in
  let (count, error) := checkCountAndSkip segs segs64 count skip (b_segIndex s) (b_segOffset s) in
  let s :=
    match error with
    | Some e => reset_section (report location e s)
    | None => s
    end in
  bind_times (Z.to_nat count) skip s.

(** *** The threaded format *)

(** [reallocate(ordinalTable, sizeof(struct ThreadedBindData) * count)]: what
    fits the new size is kept. *)
Definition op_threaded_table_size (location : Z) (s : bind_state) : res bind_state :=
  let '(v, p, error) := read_uleb128 (b_p s) in
  let s := set_ordinalTableCount v (set_p p s) in
  let s :=
    match error with
    | Some e => set_ordinalTableIndex (2 ^ 64 - 1)
                  (set_ordinalTableCount 0 (report location (BadLeb e) s))
    | None => set_ordinalTableIndex 0 s
    end in
  let size := u64 (sizeof_table_entry * b_ordinalTableCount s) in
  if (size =? 0) && (b_ordinalTableSize s =? 0) || can_allocate size then
    Ok (set_chain_format CHAIN_FORMAT_ARM64E
          (set_ordinalTableSize size
             (set_ordinalTable
                (filter (fun '(i, _) => sizeof_table_entry * (i + 1) <= size) (b_ordinalTable s)) s)))
  else Fatal.

(** [value = *(uint64_t * )(object_addr + offset)], swapped if need be. *)
Definition read_pointer (offset : Z) : res Z :=
  if (0 <=? offset) && (offset + 8 <=? Z.of_nat (length object)) then
    let value := ld_u64 h object (Z.to_nat offset) in
    Ok (if swapped then u64 (SWAP_LONG_LONG value) else value)
  else Undefined ReadOutOfBounds.

(** The entry of a bind in a chain. *)
Definition make_threaded_entry (d : ThreadedBindData) (value : Z) (s : bind_state)
    : dyld_bind_info :=
  let has_auth := Z.testbit value 63 in
  {| bi_segname := Some (String.substring 0 16 (default "??" (b_segName s)));
     bi_sectname := Some (String.substring 0 16 (default "??" (b_sectName s)));
     bi_address := u64 (b_segStartAddr s + b_segOffset s);
     bi_bind_type := td_type d;
     bi_lib_ordinal := b_libraryOrdinal s;
     bi_bind_name := None;
     bi_addend := u64 (td_addend d);
     bi_dylibname := b_fromDylib s;
     bi_symbolname := td_symbolName d;
     bi_weak_import := b_weak_import s;
     bi_pointer_value := value;
     bi_pointer_ondisk := value;
     bi_pointer_format := CHAIN_FORMAT_ARM64E;
     bi_has_auth := has_auth;
     bi_auth_diversity := if has_auth then Z.land (Z.shiftr value 32) 0xFFFF else 0;
     bi_auth_addr_div := has_auth && negb (Z.land (Z.shiftr value 48) 1 =? 0);
     bi_auth_key := if has_auth then Z.land (Z.shiftr value 49) 2 else 0 |}.

(** The bind of one pointer of a chain; [false] is the [break] after an error. *)
Definition chain_bind (location value pointerAddress : Z) (s : bind_state)
    : res (bool * bind_state) :=
  if negb (Z.testbit value 62) then Ok (true, s)
  else
    let ordinal := Z.land value 0xFFFF in
    if b_ordinalTableCount s <=? ordinal
    then Ok (false, report location (BadPointerOrdinal ordinal pointerAddress) s)
    else if b_ordinalTableSize s <? sizeof_table_entry * (ordinal + 1)
    then Undefined TableOutOfBounds
    else
      match b_ordinalTable s !! ordinal with
      | None => Undefined TableUninitialised
      | Some d =>
          let s := set_libraryOrdinal (td_libraryOrdinal d) s in
          match validateOrdinal (b_libraryOrdinal s) dylibs with
          | inl e => Ok (false, report location (BadLibraryOrdinal (b_libraryOrdinal s) e)
                                  (set_fromDylib None s))
          | inr name =>
              let s := set_weak_import
                         (negb (Z.land (td_flags d) BIND_SYMBOL_FLAGS_WEAK_IMPORT =? 0))
                         (set_flags (td_flags d) (set_fromDylib name s)) in
              Ok (true, emit (make_threaded_entry d value s) s)
          end
      end.

(** The bits [51..61] of a pointer: the distance to the next one, in words. *)
Definition chain_delta (value : Z) : Z :=
  Z.shiftr (Z.land (Z.land value (Z.lnot (Z.shiftl 1 62))) 0x3FF8000000000000) 51.

Definition page_start (address : Z) : Z := Z.land address (u64 (Z.lnot 0x3fff)).

Fixpoint chain_loop (fuel : nat) (location : Z) (sg : segment_command_64)
    (pointerPageStart : Z) (s : bind_state) : res bind_state :=
  match fuel with
  | O => Undefined OutOfFuel
  | S f =>
      let offset := u64 (segment_command_64_fileoff sg + b_segOffset s) in
      let pointerAddress := u64 (segment_command_64_vmaddr sg + b_segOffset s) in
      value ← read_pointer offset;
      '(continue, s) ← chain_bind location value pointerAddress s;
      if negb continue then Ok s
      else
        let delta := chain_delta value in
        if delta =? 0 then Ok s
        else
          let s := set_segOffset (u64 (b_segOffset s + delta * 8)) s in
          let offset := u64 (segment_command_64_fileoff sg + b_segOffset s) in
          let pointerAddress := u64 (segment_command_64_vmaddr sg + b_segOffset s) in
          if Z.of_nat (length object) <? u64 (offset + 8)
          then Ok (report location (NextPastFile pointerAddress) s)
          else if negb (pointerPageStart =? page_start pointerAddress)
          then Ok (report location (NextPastPage pointerAddress) s)
          else chain_loop f location sg pointerPageStart s
  end.

(** A page of 0x4000 bytes has room for 2048 pointers 8 bytes apart. *)
Definition chain_fuel : nat := 2048.

Definition op_threaded_apply (location : Z) (s : bind_state) : res bind_state :=
  let s := if b_ordinalTableIndex s =? b_ordinalTableCount s then s
           else report location TableSizeMismatch s in
  let s := find_location false location s in
  let s := if negb (Z.land (u64 (b_segStartAddr s + b_segOffset s)) 0x3 =? 0)
           then report location Misaligned s else s in
  if b_segIndex s =? -1 then Ok s
  else
    match seg64 segs64 (b_segIndex s) with
    | None => Undefined NullSegments
    | Some sg =>
        let sg := seg64_command sg in
        chain_loop chain_fuel location sg
          (page_start (u64 (segment_command_64_vmaddr sg + b_segOffset s))) s
    end.

Definition op_threaded (location immediate : Z) (s : bind_state) : res bind_state :=
  if immediate =? BIND_SUBOPCODE_THREADED_SET_BIND_ORDINAL_TABLE_SIZE_ULEB
  then op_threaded_table_size location s
  else if immediate =? BIND_SUBOPCODE_THREADED_APPLY then op_threaded_apply location s
  else Ok (set_done true (report location (BadSubOpcode immediate) s)).

(** The switch; [s] is behind the opcode byte. *)
Definition bind_opcode (opcode immediate location : Z) (s : bind_state) : res bind_state :=
  if opcode =? BIND_OPCODE_DONE then Ok (set_done true s)
  else if opcode =? BIND_OPCODE_SET_DYLIB_ORDINAL_IMM
  then Ok (op_set_dylib_ordinal_imm location immediate s)
  else if opcode =? BIND_OPCODE_SET_DYLIB_ORDINAL_ULEB
  then Ok (op_set_dylib_ordinal_uleb location s)
  else if opcode =? BIND_OPCODE_SET_DYLIB_SPECIAL_IMM
  then Ok (op_set_dylib_special_imm location immediate s)
  else if opcode =? BIND_OPCODE_SET_SYMBOL_TRAILING_FLAGS_IMM
  then Ok (op_set_symbol location immediate s)
  else if opcode =? BIND_OPCODE_SET_TYPE_IMM then Ok (op_set_type location immediate s)
  else if opcode =? BIND_OPCODE_SET_ADDEND_SLEB then op_set_addend location s
  else if opcode =? BIND_OPCODE_SET_SEGMENT_AND_OFFSET_ULEB
  then Ok (op_set_segment_and_offset location immediate s)
  else if opcode =? BIND_OPCODE_ADD_ADDR_ULEB then Ok (op_add_addr location s)
  else if opcode =? BIND_OPCODE_DO_BIND then op_do_bind location s
  else if opcode =? BIND_OPCODE_DO_BIND_ADD_ADDR_ULEB
  then Ok (op_do_bind_add_addr_uleb location s)
  else if opcode =? BIND_OPCODE_DO_BIND_ADD_ADDR_IMM_SCALED
  then Ok (op_do_bind_add_addr_imm_scaled location immediate s)
  else if opcode =? BIND_OPCODE_DO_BIND_ULEB_TIMES_SKIPPING_ULEB
  then Ok (op_do_bind_uleb_times_skipping_uleb location s)
  else if opcode =? BIND_OPCODE_THREADED then op_threaded location immediate s
  else Ok (set_done true (report location (BadOpcode opcode) s)).

(** ** The outputs *)

(** The lines printed. *)
Inductive bind_message :=
  | MissingBindInfo
  | TooManyErrors
  | BadBindInfo (location : Z) (error : bind_error).

(** [errorCount], [n], the array and what was printed. *)
Record bind_output := {
  o_errorCount : Z;
  o_n : nat;
  o_dbi : list dyld_bind_info;
  o_printed : list bind_message
}.

Definition apply_event (pass : Z) (print_errors : bool) (o : bind_output) (ev : bind_event)
    : res bind_output :=
  match ev with
  | BindError both location e =>
      Ok {| o_errorCount := u32 (o_errorCount o + 1); o_n := o_n o; o_dbi := o_dbi o;
            o_printed :=
              if (both || (pass =? 1)) && print_errors
              then o_printed o ++ [BadBindInfo location e] else o_printed o |}
  | BindEntry e =>
      if pass =? 2 then
        if bool_decide (o_n o < length (o_dbi o))%nat then
          Ok {| o_errorCount := o_errorCount o; o_n := S (o_n o);
                o_dbi := <[o_n o := e]> (o_dbi o); o_printed := o_printed o |}
        else Undefined (StoreOutOfBounds (o_n o))
      else Ok {| o_errorCount := o_errorCount o; o_n := S (o_n o); o_dbi := o_dbi o;
                 o_printed := o_printed o |}
  end.

Fixpoint apply_events (pass : Z) (print_errors : bool) (l : list bind_event) (o : bind_output)
    : res bind_output :=
  match l with
  | [] => Ok o
  | ev :: l' => o ← apply_event pass print_errors o ev; apply_events pass print_errors l' o
  end.

(** ** The passes *)

(** One round of the loop: the state with the log of this opcode alone. *)
Definition bind_round (size : Z) (s : bind_state) : res bind_state :=
  match b_p s with
  | [] => Ok s
  | b :: p =>
      let location := size - Z.of_nat (length (b_p s)) in
      let immediate := Z.land (byte_Z b) BIND_IMMEDIATE_MASK in
      let opcode := Z.land (byte_Z b) BIND_OPCODE_MASK in
      bind_opcode opcode immediate location (set_p p (set_log [] s))
  end.

Fixpoint bind_loop (fuel : nat) (size pass : Z) (print_errors : bool)
    (s : bind_state) (o : bind_output) : res (bind_state * bind_output) :=
  match fuel with
  | O => Undefined OutOfFuel
  | S f =>
      if b_done s || bool_decide (b_p s = []) || (MAXERRORCOUNT <=? o_errorCount o)
      then Ok (s, o)
      else
        s ← bind_round size s;
        o ← apply_events pass print_errors (b_log s) o;
        bind_loop f size pass print_errors s o
  end.

(** The locals at the start of a pass; the table and the format stay. *)
Definition pass_start (start : list byte) (s : bind_state) : bind_state :=
  {| b_p := start; b_type := 0; b_segIndex := -1; b_segOffset := 0; b_symbolName := None;
     b_fromDylib := None; b_libraryOrdinalSet := false; b_libraryOrdinal := 0; b_addend := 0;
     b_flags := 0; b_segStartAddr := 0; b_segName := None; b_sectName := None;
     b_weak_import := false; b_done := false; b_ordinalTable := b_ordinalTable s;
     b_ordinalTableSize := b_ordinalTableSize s; b_ordinalTableCount := b_ordinalTableCount s;
     b_ordinalTableIndex := 2 ^ 64 - 1; b_chain_format := b_chain_format s; b_log := [] |}.

(** Before the first pass: no table, [CHAIN_FORMAT_NONE]. *)
Definition initial_state : bind_state :=
  {| b_p := []; b_type := 0; b_segIndex := -1; b_segOffset := 0; b_symbolName := None;
     b_fromDylib := None; b_libraryOrdinalSet := false; b_libraryOrdinal := 0; b_addend := 0;
     b_flags := 0; b_segStartAddr := 0; b_segName := None; b_sectName := None;
     b_weak_import := false; b_done := false; b_ordinalTable := ∅; b_ordinalTableSize := 0;
     b_ordinalTableCount := 0; b_ordinalTableIndex := 2 ^ 64 - 1;
     b_chain_format := CHAIN_FORMAT_NONE; b_log := [] |}.

Definition run_pass (start : list byte) (pass : Z) (print_errors : bool)
    (s : bind_state) (o : bind_output) : res (bind_state * bind_output) :=
  bind_loop (S (length start)) (Z.of_nat (length start)) pass print_errors
    (pass_start start s) o.

Definition initial_output : bind_output :=
  {| o_errorCount := 0; o_n := 0; o_dbi := []; o_printed := [] |}.

(** What the call hands back, and prints. *)
Record bind_result := {
  r_dbi : list dyld_bind_info;
  r_ndbi : nat;
  r_chain_format : Z;
  r_printed : list bind_message
}.

(** [*dbi = NULL; *ndbi = 0;] after too many errors. *)
Definition too_many_errors (print_errors : bool) (s : bind_state) (o : bind_output) : bind_result :=
  {| r_dbi := []; r_ndbi := 0; r_chain_format := b_chain_format s;
     r_printed := if print_errors then o_printed o ++ [TooManyErrors] else o_printed o |}.

Definition allocate_bind_info (n : nat) : res (list dyld_bind_info) :=
  let size := u64 (Z.of_nat n * sizeof_bind_info) in
  if (size =? 0) || can_allocate size
  then Ok (replicate (Z.to_nat (size / sizeof_bind_info)) zero_bind_info) else Fatal.

Definition get_dyld_bind_info (start : option (list byte)) (print_errors : bool)
    : res bind_result :=
  match start with
  | None => Ok {| r_dbi := []; r_ndbi := 0; r_chain_format := CHAIN_FORMAT_NONE;
                  r_printed := [MissingBindInfo] |}
  | Some start =>
      '(s, o) ← run_pass start 1 print_errors initial_state initial_output;
      if MAXERRORCOUNT <=? o_errorCount o then Ok (too_many_errors print_errors s o)
      else
        let ndbi := o_n o in
        dbi ← allocate_bind_info ndbi;
        '(s, o) ← run_pass start 2 print_errors s
                    {| o_errorCount := o_errorCount o; o_n := 0; o_dbi := dbi;
                       o_printed := o_printed o |};
        Ok {| r_dbi := o_dbi o; r_ndbi := ndbi; r_chain_format := b_chain_format s;
              r_printed := o_printed o |}
  end.
End get_dyld_bind_info.
