(* ===== verification/DyldBindSpec.v ===== *)
(** * What get_dyld_bind_info computes

    A specification of the interpreter without passes and without a limit on
    errors, [bind_events], and the refinement of it: when the stream does not
    use the threaded format, both passes go through the same events, the
    second one stores in bounds, and the array is the list of the entries.
    Also: every loop ends; and a stream that mixes the formats makes the
    second pass store behind the array. *)

From Stdlib Require Import ZArith Lia Bool.
From Stdlib Require Import Init.Byte.
From stdpp Require Import base list option numbers strings gmap.
From S2P Require Import Prelude CInt ByteSex HeaderSwap Leb128 DyldSegs DyldState DyldBind.

Open Scope list_scope.

(** ** Reasoning about outcomes *)

(** Whenever the computation ends normally, the result satisfies [P]. *)
Definition ends {A} (P : A -> Prop) (r : res A) : Prop := forall a, r = Ok a -> P a.

Lemma ends_Ok {A} (P : A -> Prop) a : P a -> ends P (Ok a).
Proof. by intros Ha ? [= <-]. Qed.

Lemma ends_bind {A B} (P : B -> Prop) (m : res A) (f : A -> res B) :
  ends (fun a => ends P (f a)) m -> ends P (m ≫= f).
Proof. intros H b. destruct m as [a| |]; simpl; [by apply H|done..]. Qed.

Lemma ends_undefined {A} (P : A -> Prop) u : ends P (Undefined u).
Proof. by intros ?. Qed.

Lemma ends_fatal {A} (P : A -> Prop) : ends P Fatal.
Proof. by intros ?. Qed.

Lemma ends_weaken {A} (P Q : A -> Prop) r : ends P r -> (forall a, P a -> Q a) -> ends Q r.
Proof. intros H HPQ a Ha. apply HPQ, H, Ha. Qed.

Create HintDb bind discriminated.
#[export] Hint Resolve ends_Ok ends_undefined ends_fatal : bind.

(** ** What no opcode does

    [advances s t]: [p] only moves forward, the format never goes back to
    [CHAIN_FORMAT_NONE] and the table is untouched while it stays there, and
    the log only grows, without errors printed in both passes outside of the
    threaded format. *)
Definition once (ev : bind_event) : Prop :=
  match ev with BindError both _ _ => both = false | BindEntry _ => True end.

Record advances (s t : bind_state) : Prop := {
  adv_p : b_p t `suffix_of` b_p s;
  adv_format : b_chain_format t = CHAIN_FORMAT_NONE ->
    b_chain_format s = CHAIN_FORMAT_NONE /\ b_ordinalTable t = b_ordinalTable s /\
    b_ordinalTableSize t = b_ordinalTableSize s /\ b_ordinalTableCount t = b_ordinalTableCount s;
  adv_log : exists l, b_log t = b_log s ++ l /\
    (b_chain_format t = CHAIN_FORMAT_NONE -> Forall once l)
}.

#[export] Instance advances_preorder : PreOrder advances.
Proof.
  split.
  - intros s. split; [done|done|]. exists []. by rewrite app_nil_r.
  - intros s t u [Hp Hf (l & Hl & Ho)] [Hp' Hf' (l' & Hl' & Ho')]. split; [by etrans| |].
    + intros (Ht & -> & -> & ->)%Hf'. auto.
    + exists (l ++ l'). rewrite Hl', Hl, app_assoc. split; [done|]. intros Hu.
      apply Forall_app. split; [apply Ho, Hf', Hu|by apply Ho'].
Qed.

Lemma adv_refl s : advances s s.
Proof. reflexivity. Qed.

Section advances.
Variables (s t : bind_state).
Hypothesis Hst : advances s t.

(** The setters of the other variables. *)
Ltac same := destruct Hst as [? ? ?]; split; assumption.

Lemma adv_type x : advances s (set_type x t). Proof. same. Qed.
Lemma adv_segIndex x : advances s (set_segIndex x t). Proof. same. Qed.
Lemma adv_segOffset x : advances s (set_segOffset x t). Proof. same. Qed.
Lemma adv_symbolName x : advances s (set_symbolName x t). Proof. same. Qed.
Lemma adv_fromDylib x : advances s (set_fromDylib x t). Proof. same. Qed.
Lemma adv_libraryOrdinalSet x : advances s (set_libraryOrdinalSet x t). Proof. same. Qed.
Lemma adv_libraryOrdinal x : advances s (set_libraryOrdinal x t). Proof. same. Qed.
Lemma adv_addend x : advances s (set_addend x t). Proof. same. Qed.
Lemma adv_flags x : advances s (set_flags x t). Proof. same. Qed.
Lemma adv_segStartAddr x : advances s (set_segStartAddr x t). Proof. same. Qed.
Lemma adv_segName x : advances s (set_segName x t). Proof. same. Qed.
Lemma adv_sectName x : advances s (set_sectName x t). Proof. same. Qed.
Lemma adv_weak_import x : advances s (set_weak_import x t). Proof. same. Qed.
Lemma adv_done x : advances s (set_done x t). Proof. same. Qed.
Lemma adv_ordinalTableIndex x : advances s (set_ordinalTableIndex x t). Proof. same. Qed.

Lemma adv_append l :
  (b_chain_format t = CHAIN_FORMAT_NONE -> Forall once l) ->
  advances s (set_log (b_log t ++ l) t).
Proof.
  intros Hl. destruct Hst as [? Hf (l' & Heq & Ho)]. split; [done|done|].
  exists (l' ++ l). cbn. rewrite Heq, app_assoc. split; [done|]. intros Ht.
  apply Forall_app. auto.
Qed.

Lemma adv_report location e : advances s (report location e t).
Proof. apply adv_append. by repeat constructor. Qed.

Lemma adv_emit e : advances s (emit e t).
Proof. apply adv_append. by repeat constructor. Qed.

Lemma adv_set_p p : p `suffix_of` b_p t -> advances s (set_p p t).
Proof. intros Hp. destruct Hst. split; [by etrans|done|done]. Qed.

(** In the threaded format the table may change. *)
Lemma adv_threaded t' :
  b_chain_format t' = CHAIN_FORMAT_ARM64E -> b_p t' = b_p t -> b_log t' = b_log t ->
  advances s t'.
Proof.
  intros Hf Hp Hl. destruct Hst as [? ? (l & Heq & _)]. split; [by rewrite Hp|by rewrite Hf|].
  exists l. rewrite Hl. split; [done|]. by rewrite Hf.
Qed.
End advances.

#[export] Hint Resolve adv_refl adv_type adv_segIndex adv_segOffset adv_symbolName adv_fromDylib
  adv_libraryOrdinalSet adv_libraryOrdinal adv_addend adv_flags adv_segStartAddr adv_segName
  adv_sectName adv_weak_import adv_done adv_ordinalTableIndex adv_report adv_emit
  adv_set_p : bind.

(** Splits the matches of an opcode and finishes with the hints. *)
Ltac advance :=
  repeat match goal with
  | |- advances _ (match ?x with _ => _ end) => destruct x
  | |- advances _ (if ?x then _ else _) => destruct x
  | |- ends _ (match ?x with _ => _ end) => destruct x
  | |- ends _ (if ?x then _ else _) => destruct x
  | |- ends _ (Ok _) => apply ends_Ok
  end; auto 12 with bind.

Section opcodes.
Variables (segs : option (list segment_32)) (segs64 : option (list segment_64)).
Variables (dylibs : list string) (h : host) (swapped : bool) (object : list byte).
Variable can_allocate : Z -> bool.

Lemma adv_reset_segment s t : advances s t -> advances s (reset_segment t).
Proof. unfold reset_segment. auto 8 with bind. Qed.
#[local] Hint Resolve adv_reset_segment : bind.

Lemma adv_reset_section s t : advances s t -> advances s (reset_section t).
Proof. unfold reset_section. auto with bind. Qed.
#[local] Hint Resolve adv_reset_section : bind.

Lemma adv_find_location e l s t : advances s t -> advances s (find_location segs segs64 e l t).
Proof. intros. unfold find_location. advance. Qed.

Lemma adv_check_symbol l s t : advances s t -> advances s (check_symbol l t).
Proof. intros. unfold check_symbol. cbv zeta. destruct (b_symbolName t); advance. Qed.

Lemma adv_check_next l s t : advances s t -> advances s (check_next segs segs64 l t).
Proof. intros. unfold check_next. advance. Qed.

Lemma adv_set_ordinal l s t : advances s t -> advances s (set_ordinal dylibs l t).
Proof. intros. unfold set_ordinal. advance. Qed.
#[local] Hint Resolve adv_find_location adv_check_symbol adv_check_next adv_set_ordinal : bind.

Lemma adv_read l s t : advances s t -> advances s (read_operand l t).2.
Proof.
  intros. unfold read_operand. destruct (read_uleb128 (b_p t)) as [[v p] error] eqn:E.
  apply read_uleb128_suffix in E. destruct error; simpl; auto with bind.
Qed.

Lemma adv_bind_times n skip s t : advances s t -> advances s (bind_times segs n skip t).
Proof. revert t. induction n as [|n IH]; intros t H; simpl; [done|]. apply IH. advance. Qed.
#[local] Hint Resolve adv_read adv_bind_times : bind.

(** Names the rest and the error of the operand the goal reads. *)
Tactic Notation "read_uleb" ident(p) ident(err) :=
  match goal with
  | |- context [read_uleb128 ?q] =>
      let E := fresh "E" in
      destruct (read_uleb128 q) as [[? p] err] eqn:E; apply read_uleb128_suffix in E
  end.

Lemma scan_name_suffix p : (scan_name p).2 `suffix_of` p.
Proof.
  induction p as [|b p IH]; simpl; [done|]. destruct (byte_Z b =? 0); [done|].
  destruct (scan_name p). by apply suffix_cons_r.
Qed.

Lemma adv_op_set_symbol l i s t : advances s t -> advances s (op_set_symbol l i t).
Proof.
  intros H. unfold op_set_symbol. pose proof (scan_name_suffix (b_p t)) as Hs.
  destruct (scan_name (b_p t)) as [name rest]; simpl in Hs.
  apply adv_weak_import, adv_flags. destruct rest as [|b p].
  - auto with bind.
  - apply adv_set_p; [auto with bind|]. simpl. etrans; [|exact Hs]. by apply suffix_cons_r.
Qed.

Lemma adv_op_set_segment l i s t :
  advances s t -> advances s (op_set_segment_and_offset segs segs64 l i t).
Proof.
  intros H. unfold op_set_segment_and_offset.
  destruct (validateSegIndex segs segs64 i); [auto with bind|].
  read_uleb p err. destruct err; simpl; [auto with bind|]. advance.
Qed.

Lemma adv_op_add_addr l s t : advances s t -> advances s (op_add_addr segs segs64 l t).
Proof.
  intros H. unfold op_add_addr. destruct (b_segIndex t =? -1); [auto with bind|].
  read_uleb p err. destruct err; simpl; advance.
Qed.

Lemma adv_op_ordinal_uleb l s t :
  advances s t -> advances s (op_set_dylib_ordinal_uleb dylibs l t).
Proof. intros H. unfold op_set_dylib_ordinal_uleb. read_uleb p err. advance. Qed.

Lemma adv_op_set_type l i s t : advances s t -> advances s (op_set_type l i t).
Proof. intros H. unfold op_set_type. advance. Qed.

Lemma adv_op_set_addend l s t : advances s t -> ends (advances s) (op_set_addend l t).
Proof.
  intros H. unfold op_set_addend. destruct (read_sleb128 (b_p t)) as [[[v p] e]|] eqn:E;
    [|auto with bind]. apply read_sleb128_suffix in E. advance.
Qed.

Lemma adv_op_do_bind l s t : advances s t -> ends (advances s) (op_do_bind segs segs64 l t).
Proof.
  intros H. unfold op_do_bind, store_ordinal. cbv zeta.
  set (u := check_symbol l _). assert (Hu : advances s u).
  { subst u. destruct (b_chain_format t =? CHAIN_FORMAT_NONE); auto with bind. }
  destruct (Z.eqb_spec (b_chain_format u) CHAIN_FORMAT_ARM64E) as [Hf|]; advance.
  - apply adv_append; [done|]. by rewrite Hf.
  - by apply (adv_threaded s u).
Qed.

Lemma adv_op_add_addr_uleb l s t :
  advances s t -> advances s (op_do_bind_add_addr_uleb segs segs64 l t).
Proof. intros H. unfold op_do_bind_add_addr_uleb. cbv zeta. read_uleb p err. destruct err; advance. Qed.

Lemma adv_op_imm_scaled l i s t :
  advances s t -> advances s (op_do_bind_add_addr_imm_scaled segs segs64 l i t).
Proof. intros H. unfold op_do_bind_add_addr_imm_scaled. auto 8 with bind. Qed.

Lemma adv_op_times l s t :
  advances s t -> advances s (op_do_bind_uleb_times_skipping_uleb segs segs64 l t).
Proof.
  intros H. unfold op_do_bind_uleb_times_skipping_uleb.
  pose proof (adv_read l s t H) as H1. destruct (read_operand l t) as [count t1]. simpl in H1.
  pose proof (adv_read l s t1 H1) as H2. destruct (read_operand l t1) as [skip t2]. simpl in H2.
  cbv zeta. destruct (checkCountAndSkip _ _ _ _ _ _) as [? []]; auto 8 with bind.
Qed.

Lemma adv_table_size l s t : advances s t -> ends (advances s) (op_threaded_table_size can_allocate l t).
Proof.
  intros H. unfold op_threaded_table_size. read_uleb p err. cbv zeta.
  match goal with |- ends _ (if ?c then _ else _) => destruct c end; [|auto with bind].
  apply ends_Ok. destruct err as [e|].
  - by eapply (adv_threaded s (report l (BadLeb e) (set_p p t))); auto with bind.
  - by eapply (adv_threaded s (set_p p t)); auto with bind.
Qed.

Lemma adv_chain_bind l v a s t :
  advances s t -> ends (fun r => advances s r.2) (chain_bind dylibs l v a t).
Proof. intros H. unfold chain_bind. cbv zeta. advance; cbn [snd]; auto 8 with bind. Qed.

Lemma adv_chain_loop fuel l sg pg s t :
  advances s t -> ends (advances s) (chain_loop dylibs h swapped object fuel l sg pg t).
Proof.
  revert t. induction fuel as [|f IH]; intros t H; [apply ends_undefined|].
  cbn [chain_loop]. cbv zeta. apply ends_bind. intros v _. apply ends_bind.
  eapply ends_weaken; [by apply adv_chain_bind|]. intros [c u] Hu. cbn [snd] in Hu. cbv beta iota.
  destruct c; cbn [negb]; [|auto with bind].
  destruct (chain_delta v =? 0); [auto with bind|].
  destruct (_ <? _); [auto with bind|]. destruct (negb _); auto with bind.
Qed.

Lemma adv_apply l s t :
  advances s t ->
  ends (advances s) (op_threaded_apply segs segs64 dylibs h swapped object l t).
Proof.
  intros H. unfold op_threaded_apply. cbv zeta.
  set (t1 := find_location _ _ _ _ _). assert (H1 : advances s t1).
  { subst t1. destruct (_ =? _); auto using adv_find_location with bind. }
  set (t2 := if negb _ then _ else _). assert (H2 : advances s t2).
  { subst t2. destruct (negb _); auto with bind. }
  clearbody t1 t2. destruct (_ =? _); [auto with bind|]. destruct (seg64 _ _); [|auto with bind].
  by apply adv_chain_loop.
Qed.
#[local] Hint Resolve adv_op_set_symbol adv_op_set_segment adv_op_add_addr adv_op_ordinal_uleb
  adv_op_set_type adv_op_set_addend adv_op_do_bind adv_op_add_addr_uleb adv_op_imm_scaled
  adv_op_times adv_table_size adv_apply : bind.

Lemma adv_opcode op i l s t :
  advances s t ->
  ends (advances s) (bind_opcode segs segs64 dylibs h swapped object can_allocate op i l t).
Proof.
  intros H. unfold bind_opcode, op_threaded, op_set_dylib_ordinal_imm, op_set_dylib_special_imm.
  repeat match goal with |- ends _ (if ?c then _ else _) => destruct c end;
    first [apply ends_Ok|idtac]; auto 8 with bind.
Qed.

(** A round consumes its opcode byte at least. *)
Lemma round_advances size b p s :
  b_p s = b :: p ->
  ends (fun t => advances (set_log [] s) t /\ (length (b_p t) < length (b_p s))%nat)
    (bind_round segs segs64 dylibs h swapped object can_allocate size s).
Proof.
  intros Hp. unfold bind_round. rewrite Hp.
  eapply ends_weaken.
  - apply (adv_opcode _ _ _ (set_p p (set_log [] s))). reflexivity.
  - intros t Ht. assert (Hs : advances (set_log [] s) (set_p p (set_log [] s))).
    { apply adv_set_p; [done|]. simpl. rewrite Hp. by apply suffix_cons_r. }
    split; [by etrans|]. destruct Ht as [Hsuf _ _]. apply suffix_length in Hsuf. simpl in *. lia.
Qed.
End opcodes.

(** ** The events of a stream *)

Definition event_entry (ev : bind_event) : option dyld_bind_info :=
  match ev with BindEntry e => Some e | BindError _ _ _ => None end.
Definition event_error (ev : bind_event) : option (bool * Z * bind_error) :=
  match ev with BindEntry _ => None | BindError both l e => Some (both, l, e) end.

Definition entries (l : list bind_event) : list dyld_bind_info := omap event_entry l.
Definition errors (l : list bind_event) : list (bool * Z * bind_error) := omap event_error l.

(** What a pass prints of them. *)
Definition messages (pass : Z) (print_errors : bool) (l : list bind_event) : list bind_message :=
  omap (fun '(both, location, e) =>
          if (both || (pass =? 1)) && print_errors then Some (BadBindInfo location e) else None)
       (errors l).

Definition error_count (l : list bind_event) : Z := Z.of_nat (length (errors l)).

Lemma entries_app l1 l2 : entries (l1 ++ l2) = entries l1 ++ entries l2.
Proof. apply omap_app. Qed.
Lemma errors_app l1 l2 : errors (l1 ++ l2) = errors l1 ++ errors l2.
Proof. apply omap_app. Qed.
Lemma messages_app pass pe l1 l2 : messages pass pe (l1 ++ l2) = messages pass pe l1 ++ messages pass pe l2.
Proof. unfold messages. by rewrite errors_app, omap_app. Qed.
Lemma error_count_app l1 l2 : error_count (l1 ++ l2) = error_count l1 + error_count l2.
Proof. unfold error_count. rewrite errors_app, length_app. lia. Qed.
Lemma error_count_nonneg l : 0 <= error_count l.
Proof. unfold error_count. lia. Qed.

(** Storing [l] from index [n] on. *)
Fixpoint store_at {A} (n : nat) (l : list A) (dbi : list A) : list A :=
  match l with
  | [] => dbi
  | e :: l' => store_at (S n) l' (<[n := e]> dbi)
  end.

Lemma length_store_at {A} n (l dbi : list A) : length (store_at n l dbi) = length dbi.
Proof. revert n dbi. induction l; intros; simpl; [done|]. by rewrite IHl, length_insert. Qed.

Lemma store_at_app {A} n (l1 l2 dbi : list A) :
  store_at n (l1 ++ l2) dbi = store_at (n + length l1) l2 (store_at n l1 dbi).
Proof.
  revert n dbi. induction l1 as [|e l1 IH]; intros n dbi; simpl; [by rewrite Nat.add_0_r|].
  rewrite IH. f_equal. lia.
Qed.

(** Filling an array of the same length gives the list. *)
Lemma store_at_all {A} (pre l dbi : list A) :
  length dbi = length l -> store_at (length pre) l (pre ++ dbi) = pre ++ l.
Proof.
  revert pre dbi. induction l as [|e l IH]; intros pre [|d dbi] Hlen; try done.
  simpl. rewrite insert_app_r_alt, Nat.sub_diag by lia. simpl.
  specialize (IH (pre ++ [e]) dbi). rewrite length_app, <- !app_assoc in IH. simpl in *.
  replace (S (length pre)) with (length pre + 1)%nat by lia. apply IH. lia.
Qed.

(** What a pass does with a list of events, when the array is long enough. *)
Lemma apply_events_spec pass pe l o :
  (pass = 2 -> (o_n o + length (entries l) <= length (o_dbi o))%nat) ->
  exists o', apply_events pass pe l o = Ok o' /\
    o_n o' = (o_n o + length (entries l))%nat /\
    o_dbi o' = (if pass =? 2 then store_at (o_n o) (entries l) (o_dbi o) else o_dbi o) /\
    o_printed o' = o_printed o ++ messages pass pe l /\
    (0 <= o_errorCount o -> o_errorCount o + error_count l < 2 ^ 32 ->
     o_errorCount o' = o_errorCount o + error_count l).
Proof.
  revert o. induction l as [|ev l IH]; intros o Hlen.
  - exists o. simpl. rewrite app_nil_r, Nat.add_0_r. unfold error_count. simpl.
    split_and!; [done|done|by destruct (pass =? 2)|done|lia].
  - destruct ev as [both location e|e]; cbn [apply_events apply_event].
    + set (o1 := {| o_errorCount := _ |}). destruct (IH o1) as (o' & Hap & Hn & Hd & Hp & He);
        [exact Hlen|]. exists o'. simpl. rewrite Hap. split_and!; [done|done|done| |].
      * rewrite Hp. subst o1. simpl. unfold messages. simpl.
        destruct ((both || (pass =? 1)) && pe); by rewrite <- ?app_assoc.
      * unfold error_count in *. simpl. intros H0 Hlt. rewrite He; subst o1; simpl;
          rewrite ?uw_id by (unfold in_uw; lia); lia.
    + destruct (Z.eqb_spec pass 2) as [Heq|Hne].
      * specialize (Hlen Heq). simpl in Hlen. rewrite bool_decide_eq_true_2 by lia.
        set (o1 := {| o_errorCount := _ |}). destruct (IH o1) as (o' & Hap & Hn & Hd & Hp & He).
        { intros _. subst o1. simpl. rewrite length_insert. lia. }
        exists o'. simpl. rewrite Hap, Hn, Hd, Hp. subst o1. simpl.
        split_and!; [done|lia|by subst|done|exact He].
      * set (o1 := {| o_errorCount := _ |}). destruct (IH o1) as (o' & Hap & Hn & Hd & Hp & He);
          [done|]. exists o'. simpl. rewrite Hap, Hn, Hd, Hp. subst o1. simpl.
        split_and!; [done|lia|done|done|exact He].
Qed.

(** A pass that ends normally has counted the entries. *)
Lemma apply_events_n pass pe l o o' :
  apply_events pass pe l o = Ok o' -> o_n o' = (o_n o + length (entries l))%nat.
Proof.
  revert o. induction l as [|ev l IH]; intros o H; cbn [apply_events] in H.
  - injection H as ->. simpl. lia.
  - destruct (apply_event pass pe o ev) as [o1| |] eqn:E; simpl in H; try done.
    apply IH in H. rewrite H. destruct ev; simpl in E.
    + by injection E as <-.
    + destruct (pass =? 2); [case_bool_decide; [|done]|]; injection E as <-; simpl; lia.
Qed.

(** ** The events of a whole stream *)

Section passes.
Variables (segs : option (list segment_32)) (segs64 : option (list segment_64)).
Variables (dylibs : list string) (h : host) (swapped : bool) (object : list byte).
Variable can_allocate : Z -> bool.

#[local] Abbreviation bind_round := (bind_round segs segs64 dylibs h swapped object can_allocate).
#[local] Abbreviation bind_loop := (bind_loop segs segs64 dylibs h swapped object can_allocate).
#[local] Abbreviation run_pass := (run_pass segs segs64 dylibs h swapped object can_allocate).
#[local] Abbreviation get_dyld_bind_info :=
  (get_dyld_bind_info segs segs64 dylibs h swapped object can_allocate).

(** The events of the opcodes up to BIND_OPCODE_DONE, a bad opcode or the end. *)
Fixpoint bind_events (fuel : nat) (size : Z) (s : bind_state)
    : res (bind_state * list bind_event) :=
  match fuel with
  | O => Undefined OutOfFuel
  | S f =>
      if b_done s || bool_decide (b_p s = []) then Ok (s, [])
      else
        s ← bind_round size s;
        '(t, l) ← bind_events f size s;
        Ok (t, b_log s ++ l)
  end.

(** What a stream denotes. *)
Definition stream_events (start : list byte) : res (bind_state * list bind_event) :=
  bind_events (S (length start)) (Z.of_nat (length start)) (pass_start start initial_state).

(** The format and the table, as every loop leaves them. *)
Definition format_kept (s t : bind_state) : Prop :=
  b_chain_format t = CHAIN_FORMAT_NONE ->
  b_chain_format s = CHAIN_FORMAT_NONE /\ b_ordinalTable t = b_ordinalTable s /\
  b_ordinalTableSize t = b_ordinalTableSize s /\ b_ordinalTableCount t = b_ordinalTableCount s.

Lemma format_kept_trans s t u : format_kept s t -> format_kept t u -> format_kept s u.
Proof. intros H1 H2 (Ht & -> & -> & ->)%H2. by apply H1. Qed.

Lemma round_format size b p s t :
  b_p s = b :: p -> bind_round size s = Ok t -> format_kept s t.
Proof. intros Hp H. by destruct (round_advances _ _ _ _ _ _ _ _ _ _ _ Hp t H) as [[_ Hf _] _]. Qed.

Lemma round_once size b p s t :
  b_p s = b :: p -> bind_round size s = Ok t -> b_chain_format t = CHAIN_FORMAT_NONE ->
  Forall once (b_log t).
Proof.
  intros Hp H Hf. destruct (round_advances _ _ _ _ _ _ _ _ _ _ _ Hp t H) as [[_ _ (l & -> & Ho)] _].
  by apply Ho.
Qed.

(** A loop that goes on is in front of an opcode. *)
Lemma loop_goes_on s : b_done s || bool_decide (b_p s = []) = false -> exists b p, b_p s = b :: p.
Proof.
  intros [_ Hp%bool_decide_eq_false]%orb_false_iff. destruct (b_p s) as [|b p]; [done|]. eauto.
Qed.

Lemma loop_format fuel size pass pe s o t o' :
  bind_loop fuel size pass pe s o = Ok (t, o') -> format_kept s t.
Proof.
  revert s o. induction fuel as [|f IH]; intros s o H; cbn [DyldBind.bind_loop] in H; [done|].
  destruct (b_done s || bool_decide (b_p s = [])) eqn:Hstop; simpl in H.
  { by injection H as <- _. }
  destruct (MAXERRORCOUNT <=? o_errorCount o); [by injection H as <- _|].
  apply loop_goes_on in Hstop as (b & p & Hp).
  destruct (bind_round size s) as [u| |] eqn:Hr; simpl in H; try done.
  destruct (apply_events pass pe (b_log u) o) as [o1| |]; simpl in H; try done.
  eapply format_kept_trans; [by eapply round_format|by eapply IH].
Qed.

Lemma events_format fuel size s t evs : bind_events fuel size s = Ok (t, evs) -> format_kept s t.
Proof.
  revert s evs. induction fuel as [|f IH]; intros s evs H; cbn [bind_events] in H; [done|].
  destruct (b_done s || bool_decide (b_p s = [])) eqn:Hstop; [by injection H as <- _|].
  apply loop_goes_on in Hstop as (b & p & Hp).
  destruct (bind_round size s) as [u| |] eqn:Hr; simpl in H; try done.
  destruct (bind_events f size u) as [[v l]| |] eqn:Hl; simpl in H; try done.
  injection H as <- <-. eapply format_kept_trans; [by eapply round_format|by eapply IH].
Qed.

Lemma events_once fuel size s t evs :
  bind_events fuel size s = Ok (t, evs) -> b_chain_format t = CHAIN_FORMAT_NONE -> Forall once evs.
Proof.
  revert s evs. induction fuel as [|f IH]; intros s evs H Hf; cbn [bind_events] in H; [done|].
  destruct (b_done s || bool_decide (b_p s = [])) eqn:Hstop; [by injection H as <- <-|].
  apply loop_goes_on in Hstop as (b & p & Hp).
  destruct (bind_round size s) as [u| |] eqn:Hr; simpl in H; try done.
  destruct (bind_events f size u) as [[v l]| |] eqn:Hl; simpl in H; try done.
  injection H as <- <-. apply Forall_app. split; [|by eapply IH].
  eapply round_once; [done..|]. by eapply events_format in Hl as [? _].
Qed.

(** Such errors are printed in the first pass only. *)
Lemma messages_once pe evs : Forall once evs -> messages 2 pe evs = [].
Proof.
  unfold messages. induction 1 as [|[both l e|e] evs Hev _ IH]; simpl; [done| |done].
  simpl in Hev. by rewrite Hev.
Qed.

Lemma pass_start_again start t :
  format_kept (pass_start start initial_state) t -> b_chain_format t = CHAIN_FORMAT_NONE ->
  pass_start start t = pass_start start initial_state.
Proof. intros H Hf. destruct (H Hf) as (_ & Ht & Hs & Hc). unfold pass_start. by rewrite Hf, Ht, Hs, Hc. Qed.

Lemma loop_n_mono fuel size pass pe s o t o' :
  bind_loop fuel size pass pe s o = Ok (t, o') -> (o_n o <= o_n o')%nat.
Proof.
  revert s o. induction fuel as [|f IH]; intros s o H; cbn [DyldBind.bind_loop] in H; [done|].
  destruct (_ || _); [injection H as _ <-; lia|].
  destruct (bind_round size s) as [u| |]; simpl in H; try done.
  destruct (apply_events pass pe (b_log u) o) as [o1| |] eqn:Ha; simpl in H; try done.
  apply apply_events_n in Ha. apply IH in H. lia.
Qed.

(** *** The second pass stores in bounds

    It goes through a prefix of the rounds of a first pass that was not cut
    short by errors, so it stores at most as many entries. *)
Lemma second_pass_in_bounds fuel size pe pe2 s o1 o2 t o1' :
  bind_loop fuel size 1 pe s o1 = Ok (t, o1') -> o_errorCount o1' < MAXERRORCOUNT ->
  o_n o1 = o_n o2 -> (o_n o1' <= length (o_dbi o2))%nat ->
  exists u o2', bind_loop fuel size 2 pe2 s o2 = Ok (u, o2') /\
    length (o_dbi o2') = length (o_dbi o2) /\ (o_n o2' <= o_n o1')%nat.
Proof.
  revert s o1 o2. induction fuel as [|f IH]; intros s o1 o2 H Herr Hn Hlen; [done|].
  pose proof (loop_n_mono _ _ _ _ _ _ _ _ H) as Hmono.
  cbn [DyldBind.bind_loop] in *.
  destruct (b_done s || bool_decide (b_p s = [])); simpl in H |- *; [eauto with lia|].
  destruct (Z.leb_spec MAXERRORCOUNT (o_errorCount o1)); [injection H as _ <-; lia|].
  destruct (MAXERRORCOUNT <=? o_errorCount o2); [eauto with lia|].
  destruct (bind_round size s) as [u| |]; simpl in H |- *; try done.
  destruct (apply_events 1 pe (b_log u) o1) as [o1a| |] eqn:Ha1; simpl in H; try done.
  apply apply_events_n in Ha1. pose proof (loop_n_mono _ _ _ _ _ _ _ _ H) as Hmono'.
  destruct (apply_events_spec 2 pe2 (b_log u) o2) as (o2a & Ha2 & Hn2 & Hd2 & _); [lia|].
  rewrite Ha2. simpl. simpl in Hd2.
  destruct (IH u o1a o2a) as (v & o2' & Hl & Hlen' & Hle); [done|done|lia| |].
  - rewrite Hd2, length_store_at. lia.
  - exists v, o2'. rewrite Hd2, length_store_at in Hlen'. done.
Qed.

(** *** A pass that reports few errors carries out all the events *)
Lemma loop_carries_out fuel size pass pe s o t evs :
  bind_events fuel size s = Ok (t, evs) ->
  0 <= o_errorCount o -> o_errorCount o + error_count evs < MAXERRORCOUNT ->
  (pass = 2 -> (o_n o + length (entries evs) <= length (o_dbi o))%nat) ->
  exists o', bind_loop fuel size pass pe s o = Ok (t, o') /\
    o_n o' = (o_n o + length (entries evs))%nat /\
    o_dbi o' = (if pass =? 2 then store_at (o_n o) (entries evs) (o_dbi o) else o_dbi o) /\
    o_printed o' = o_printed o ++ messages pass pe evs /\
    o_errorCount o' = o_errorCount o + error_count evs.
Proof.
  unfold MAXERRORCOUNT. revert s o evs.
  induction fuel as [|f IH]; intros s o evs H H0 Herr Hlen; [done|].
  cbn [bind_events DyldBind.bind_loop] in *.
  destruct (b_done s || bool_decide (b_p s = [])); simpl in H |- *.
  { injection H as <- <-. exists o. unfold error_count. simpl.
    rewrite app_nil_r, Nat.add_0_r, Z.add_0_r. split_and!; try done. by destruct (pass =? 2). }
  destruct (bind_round size s) as [u| |]; simpl in H; try done.
  destruct (bind_events f size u) as [[v l]| |] eqn:Hl; simpl in H; try done.
  injection H as <- <-. rewrite entries_app, error_count_app, length_app in *.
  pose proof (error_count_nonneg l). pose proof (error_count_nonneg (b_log u)).
  unfold MAXERRORCOUNT. rewrite (proj2 (Z.leb_gt _ _)) by lia. simpl.
  destruct (apply_events_spec pass pe (b_log u) o) as (o1 & Ha & Hn & Hd & Hp & He).
  { intros Hpass. specialize (Hlen Hpass). lia. }
  rewrite Ha. simpl. specialize (He H0 ltac:(lia)).
  destruct (IH u o1 l Hl) as (o' & Hloop & Hn' & Hd' & Hp' & He').
  - lia.
  - lia.
  - intros Hpass. specialize (Hlen Hpass). rewrite Hd, Hn.
    rewrite (proj2 (Z.eqb_eq _ _) Hpass), length_store_at. lia.
  - exists o'. split_and!; [done|lia| |by rewrite Hp', Hp, messages_app, app_assoc|lia].
    rewrite Hd', Hd, Hn. destruct (pass =? 2); [|done]. by rewrite store_at_app.
Qed.

(** *** Every loop ends *)

Lemma page_start_eq a : in_uw 64 a -> page_start a = a - a mod 2 ^ 14.
Proof.
  intros Ha. unfold page_start. change 0x3fff with (Z.ones 14).
  rewrite land_lnot_ones by (done || lia). pose proof (Z.div_mod a (2 ^ 14)). lia.
Qed.

Lemma chain_delta_range v : 0 <= chain_delta v < 2 ^ 11.
Proof.
  unfold chain_delta. change 0x3FF8000000000000 with (Z.shiftl (Z.ones 11) 51).
  rewrite land_shifted_ones, Z.shiftr_div_pow2, Z.mul_comm, Z.div_mul by lia.
  apply Z.mod_pos_bound. lia.
Qed.

(** The next pointer of a chain lies behind in the page, or in another page. *)
Lemma next_in_page a d :
  in_uw 64 a -> 0 < d < 2 ^ 11 -> page_start a = page_start (u64 (a + d * 8)) ->
  a mod 2 ^ 14 + 8 <= u64 (a + d * 8) mod 2 ^ 14.
Proof.
  intros Ha Hd. rewrite !page_start_eq by (done || apply uw_range; lia).
  destruct (Z.lt_ge_cases (a + d * 8) (2 ^ 64)).
  - unfold in_uw in *. rewrite uw_id by (unfold in_uw; lia). lia.
  - replace (u64 (a + d * 8)) with (a + d * 8 - 2 ^ 64).
    + unfold in_uw in Ha. intros Heq. exfalso. div_lia.
    + unfold uw. rewrite <- (Z.mod_add (a + d * 8) (-1)) by lia.
      unfold in_uw in Ha. rewrite Z.mod_small; lia.
Qed.

Definition fuelled {A} (r : res A) : Prop := r <> Undefined OutOfFuel.

Lemma fuelled_bind {A B} (m : res A) (f : A -> res B) :
  fuelled m -> (forall a, m = Ok a -> fuelled (f a)) -> fuelled (m ≫= f).
Proof.
  unfold fuelled. intros Hm Hf. destruct m as [a|u|]; simpl; [by apply Hf|congruence|done].
Qed.

Lemma fuelled_chain_bind l v a s : fuelled (chain_bind dylibs l v a s).
Proof. unfold chain_bind, fuelled. cbv zeta. repeat case_match; done. Qed.

Lemma chain_bind_offset l v a s c t :
  chain_bind dylibs l v a s = Ok (c, t) -> b_segOffset t = b_segOffset s.
Proof. unfold chain_bind. cbv zeta. intros H. repeat case_match; by simplify_eq. Qed.

Lemma fuelled_chain fuel l sg s :
  let a := u64 (segment_command_64_vmaddr sg + b_segOffset s) in
  2 ^ 14 <= a mod 2 ^ 14 + 8 * Z.of_nat fuel ->
  fuelled (chain_loop dylibs h swapped object fuel l sg (page_start a) s).
Proof.
  revert s. induction fuel as [|f IH]; intros s a Hfuel.
  - pose proof (Z.mod_pos_bound a (2 ^ 14)). lia.
  - cbn [chain_loop]. cbv zeta. apply fuelled_bind.
    { unfold fuelled, read_pointer. by destruct (_ && _). }
    intros v _. apply fuelled_bind; [apply fuelled_chain_bind|].
    intros [c t] Hc. apply chain_bind_offset in Hc. cbv beta iota. destruct c; cbn [negb]; [|done].
    pose proof (chain_delta_range v). destruct (Z.eqb_spec (chain_delta v) 0); [done|].
    destruct (_ <? _); [done|]. destruct (Z.eqb_spec (page_start a) (page_start (u64
      (segment_command_64_vmaddr sg + b_segOffset (set_segOffset
        (u64 (b_segOffset t + chain_delta v * 8)) t))))) as [Heq|]; cbn [negb]; [|done].
    rewrite Heq. apply IH. cbn [b_segOffset set_segOffset] in *.
    assert (Hnext : u64 (segment_command_64_vmaddr sg + u64 (b_segOffset t + chain_delta v * 8))
      = u64 (a + chain_delta v * 8)).
    { subst a. rewrite Hc. unfold uw. rewrite Zplus_mod_idemp_r, Zplus_mod_idemp_l.
      f_equal. lia. }
    rewrite Hnext in *. apply next_in_page in Heq; [lia|apply uw_range; lia|lia].
Qed.

Lemma fuelled_opcode op i l s :
  fuelled (bind_opcode segs segs64 dylibs h swapped object can_allocate op i l s).
Proof.
  unfold bind_opcode, op_threaded.
  repeat match goal with |- fuelled (if ?c then _ else _) => destruct c end; try done;
    unfold op_set_addend, op_do_bind, store_ordinal, op_threaded_table_size, op_threaded_apply;
    cbv zeta; repeat case_match; try done.
  all: apply fuelled_chain; unfold chain_fuel;
    match goal with |- context [?a mod 2 ^ 14] => pose proof (Z.mod_pos_bound a (2 ^ 14)) end; lia.
Qed.

Lemma fuelled_round size s : fuelled (bind_round size s).
Proof. unfold DyldBind.bind_round. destruct (b_p s); [done|]. apply fuelled_opcode. Qed.

Lemma fuelled_events pass pe l o : fuelled (apply_events pass pe l o).
Proof.
  revert o. induction l as [|ev l IH]; intros o; [done|]. cbn [apply_events].
  apply fuelled_bind; [|intros; apply IH].
  destruct ev; simpl; [done|]. repeat case_match; done.
Qed.

Lemma round_shorter size s t :
  b_done s || bool_decide (b_p s = []) = false -> bind_round size s = Ok t ->
  (length (b_p t) < length (b_p s))%nat.
Proof.
  intros (b & p & Hp)%loop_goes_on H.
  by destruct (round_advances _ _ _ _ _ _ _ _ _ _ _ Hp t H) as [_ ?].
Qed.

Lemma fuelled_loop fuel size pass pe s o :
  (length (b_p s) < fuel)%nat -> fuelled (bind_loop fuel size pass pe s o).
Proof.
  revert s o. induction fuel as [|f IH]; intros s o Hlen; [lia|]. cbn [DyldBind.bind_loop].
  destruct (b_done s || bool_decide (b_p s = [])) eqn:Hstop; simpl; [done|].
  destruct (_ <=? _); [done|]. apply fuelled_bind; [apply fuelled_round|]. intros t Ht.
  apply fuelled_bind; [apply fuelled_events|]. intros o1 _. apply IH.
  apply round_shorter in Ht; [lia|done].
Qed.

Lemma fuelled_bind_events fuel size s :
  (length (b_p s) < fuel)%nat -> fuelled (bind_events fuel size s).
Proof.
  revert s. induction fuel as [|f IH]; intros s Hlen; [lia|]. cbn [bind_events].
  destruct (b_done s || bool_decide (b_p s = [])) eqn:Hstop; [done|].
  apply fuelled_bind; [apply fuelled_round|]. intros t Ht. apply round_shorter in Ht; [|done].
  apply fuelled_bind; [apply IH; lia|]. by intros [].
Qed.

Lemma fuelled_pass start pass pe s o : fuelled (run_pass start pass pe s o).
Proof. apply fuelled_loop. simpl. lia. Qed.

(** ** Properties *)

(** C39: the interpreter always ends, whatever the opcodes, the segments, the
    file and the pointers in it: every round of a pass consumes a byte, and a
    chain of pointers, which must stay in its page of 0x4000 bytes, has at
    most 2048 of them. *)
Theorem get_dyld_bind_info_terminates (start : option (list byte)) (pe : bool) :
  get_dyld_bind_info start pe <> Undefined OutOfFuel /\
  forall opcodes, start = Some opcodes -> stream_events opcodes <> Undefined OutOfFuel.
Proof.
  split; [|intros opcodes ->; apply fuelled_bind_events; simpl; lia].
  destruct start as [start|]; [|done]. unfold DyldBind.get_dyld_bind_info.
  apply fuelled_bind; [apply fuelled_pass|]. intros [s o] _.
  destruct (_ <=? _); [done|]. apply fuelled_bind.
  { unfold allocate_bind_info. cbv zeta. by destruct (_ || _). }
  intros dbi _. apply fuelled_bind; [apply fuelled_pass|]. by intros [].
Qed.

Lemma bind_info_refines (start : list byte) (pe : bool) (s : bind_state)
    (evs : list bind_event) :
  stream_events start = Ok (s, evs) -> b_chain_format s = CHAIN_FORMAT_NONE ->
  2 * error_count evs < MAXERRORCOUNT ->
  let size := Z.of_nat (length (entries evs)) * sizeof_bind_info in
  size < 2 ^ 64 -> can_allocate size = true ->
  get_dyld_bind_info (Some start) pe =
    Ok {| r_dbi := entries evs; r_ndbi := length (entries evs);
          r_chain_format := CHAIN_FORMAT_NONE;
          r_printed := messages 1 pe evs |}.
Proof.
  intros Hev Hf Herr size Hsize Halloc. subst size. pose proof (error_count_nonneg evs) as H0.
  unfold sizeof_bind_info in *.
  destruct (loop_carries_out _ _ 1 pe _ initial_output _ _ Hev) as (o1 & Hl1 & Hn & _ & Hp & He);
    [done|cbn [o_errorCount initial_output]; lia|done|].
  cbn [o_n o_errorCount o_dbi o_printed initial_output] in *. rewrite Nat.add_0_l in Hn.
  unfold DyldBind.get_dyld_bind_info, DyldBind.run_pass. rewrite Hl1. cbn [mbind res_bind].
  rewrite (proj2 (Z.leb_gt _ _)), Hn by lia. unfold allocate_bind_info, sizeof_bind_info. cbv zeta.
  rewrite uw_id by (unfold in_uw; lia). rewrite Halloc, orb_true_r. cbn [mbind res_bind].
  rewrite pass_start_again by (done || by eapply loop_format).
  rewrite Z.div_mul, Nat2Z.id by lia. set (dbi := replicate _ _).
  destruct (loop_carries_out _ _ 2 pe _ {| o_errorCount := o_errorCount o1; o_n := 0;
    o_dbi := dbi; o_printed := o_printed o1 |} _ _ Hev) as (o2 & Hl2 & _ & Hd2 & Hp2 & _);
    cbn [o_n o_errorCount o_dbi o_printed] in *;
    [lia|lia|subst dbi; rewrite length_replicate; lia|].
  rewrite Hl2. cbn [mbind res_bind]. rewrite Hf, Hd2, Hp2, Hp.
  rewrite messages_once, app_nil_r by (by eapply events_once). f_equal. f_equal.
  apply (store_at_all []). subst dbi. by rewrite length_replicate.
Qed.

(** C4: the two passes compute the specification.  If the stream does not use
    the threaded format and makes fewer than ten errors, the array is the list
    of the entries of its events, and the errors are printed once, in order.
    Ten errors are enough to cut the second pass short, since the count is not
    reset between the passes. *)
Theorem get_dyld_bind_info_refines (start : list byte) (pe : bool) (s : bind_state)
    (evs : list bind_event) :
  stream_events start = Ok (s, evs) -> b_chain_format s = CHAIN_FORMAT_NONE ->
  2 * error_count evs < MAXERRORCOUNT ->
  let size := Z.of_nat (length (entries evs)) * sizeof_bind_info in
  size < 2 ^ 64 -> can_allocate size = true ->
  get_dyld_bind_info (Some start) pe =
    Ok {| r_dbi := entries evs; r_ndbi := length (entries evs);
          r_chain_format := CHAIN_FORMAT_NONE;
          r_printed := messages 1 pe evs |}.
Proof. apply bind_info_refines. Qed.

(** C33: when the first pass ends without the threaded format, the second one
    is defined and stores in bounds, however many errors there are: the array
    handed back has the length handed back, which is the number of entries of
    the first pass, or nothing after twenty errors. *)
Theorem bind_passes_in_bounds (start : list byte) (pe : bool) (s : bind_state) (o : bind_output) :
  run_pass start 1 pe initial_state initial_output = Ok (s, o) ->
  b_chain_format s = CHAIN_FORMAT_NONE ->
  Z.of_nat (o_n o) * sizeof_bind_info < 2 ^ 64 ->
  match get_dyld_bind_info (Some start) pe with
  | Ok r => length (r_dbi r) = r_ndbi r /\
            r_ndbi r = if MAXERRORCOUNT <=? o_errorCount o then O else o_n o
  | Undefined _ => False
  | Fatal => can_allocate (Z.of_nat (o_n o) * sizeof_bind_info) = false
  end.
Proof.
  intros H Hf Hsize. unfold DyldBind.get_dyld_bind_info. rewrite H. simpl.
  destruct (Z.leb_spec MAXERRORCOUNT (o_errorCount o)) as [Hge|Hlt]; [done|].
  unfold allocate_bind_info. unfold sizeof_bind_info in *. cbv zeta.
  rewrite uw_id by (unfold in_uw; lia).
  destruct (_ || _) eqn:Ha; simpl; [|by apply orb_false_iff in Ha as [_ Ha]].
  rewrite Z.div_mul, Nat2Z.id by lia. unfold DyldBind.run_pass in *.
  rewrite pass_start_again by (done || by eapply loop_format).
  edestruct second_pass_in_bounds as (u & o2' & -> & Hlen & _); [exact H|exact Hlt|..]; simpl in *.
  - done.
  - by rewrite length_replicate.
  - by rewrite Hlen, length_replicate.
Qed.
End passes.

(** ** Streams that show what the hypotheses exclude *)

(** A 64-bit segment "__DATA" of 32 pointers at 0x1000, without sections. *)
Definition demo_segment : segment_64 :=
  {| seg64_command :=
       {| segment_command_64_cmd := 0x19; segment_command_64_cmdsize := 72;
          segment_command_64_segname := [95; 95; 68; 65; 84; 65; 0; 0; 0; 0; 0; 0; 0; 0; 0; 0];
          segment_command_64_vmaddr := 0x1000; segment_command_64_vmsize := 0x100;
          segment_command_64_fileoff := 0; segment_command_64_filesize := 0x100;
          segment_command_64_maxprot := 3; segment_command_64_initprot := 3;
          segment_command_64_nsects := 0; segment_command_64_flags := 0 |};
     seg64_sections := [] |}.

Definition demo_run (start : list byte) : res bind_result :=
  get_dyld_bind_info None (Some [demo_segment]) ["libA.dylib"%string] LE false [] (fun _ => true)
    (Some start) true.

Definition opcode_byte (opcode immediate : Z) : list byte := [byte_of (opcode + immediate)].

(** Ordinal 1, the symbol "_a", a pointer, at the start of the segment. *)
Definition demo_setup : list byte :=
  opcode_byte BIND_OPCODE_SET_DYLIB_ORDINAL_IMM 1 ++
  opcode_byte BIND_OPCODE_SET_SYMBOL_TRAILING_FLAGS_IMM 0 ++ [x5f; x61; x00] ++
  opcode_byte BIND_OPCODE_SET_TYPE_IMM 1 ++
  opcode_byte BIND_OPCODE_SET_SEGMENT_AND_OFFSET_ULEB 0 ++ uleb 0.

(** A bind, a run of 32 binds and the opcode that switches the format. *)
Definition overflow_stream : list byte :=
  demo_setup ++ opcode_byte BIND_OPCODE_DO_BIND 0 ++
  opcode_byte BIND_OPCODE_DO_BIND_ULEB_TIMES_SKIPPING_ULEB 0 ++ uleb 32 ++ uleb 0 ++
  opcode_byte BIND_OPCODE_THREADED BIND_SUBOPCODE_THREADED_SET_BIND_ORDINAL_TABLE_SIZE_ULEB ++
  uleb 0.

(** A bind, ten bad types, another bind. *)
Definition errors_stream : list byte :=
  demo_setup ++ opcode_byte BIND_OPCODE_DO_BIND 0 ++
  mjoin (replicate 10 (opcode_byte BIND_OPCODE_SET_TYPE_IMM 0)) ++
  opcode_byte BIND_OPCODE_DO_BIND 0 ++ opcode_byte BIND_OPCODE_DONE 0.

(** What the second pass does when the first one is not repeated.  The
    format is not reset between the passes: in [overflow_stream] the first pass
    counts two entries, the bind and one for a run that does not fit behind it;
    in the second pass the bind goes to the ordinal table, the run fits, and
    its third entry is stored behind the array of two.  The count of errors is
    not reset either: in [errors_stream] ten errors count twice, the second
    pass stops before the second bind, and the entry handed back for it is
    the zeroed one, whose names are NULL. *)
Theorem bind_second_pass_differs :
  demo_run overflow_stream = Undefined (StoreOutOfBounds 2) /\
  exists e r, demo_run errors_stream = Ok r /\ r_ndbi r = 2%nat /\ r_dbi r = [e; zero_bind_info].
Proof. split; [reflexivity|]. eexists _, _. split; [vm_compute; reflexivity|done]. Qed.

(** A bind and a run of three, within both theorems. *)
Definition plain_stream : list byte :=
  demo_setup ++ opcode_byte BIND_OPCODE_DO_BIND 0 ++
  opcode_byte BIND_OPCODE_DO_BIND_ULEB_TIMES_SKIPPING_ULEB 0 ++ uleb 3 ++ uleb 0 ++
  opcode_byte BIND_OPCODE_DONE 0.

Lemma get_dyld_bind_info_refines_witness :
  exists r, demo_run plain_stream = Ok r /\ r_ndbi r = 4%nat.
Proof.
  eexists. unfold demo_run. split.
  - eapply get_dyld_bind_info_refines; [vm_compute; reflexivity|reflexivity|reflexivity|
      reflexivity|reflexivity].
  - reflexivity.
Defined.

Lemma bind_passes_in_bounds_witness :
  match demo_run plain_stream with
  | Ok r => length (r_dbi r) = r_ndbi r /\ r_ndbi r = 4%nat
  | _ => False
  end.
Proof.
  unfold demo_run.
  pose proof (bind_passes_in_bounds None (Some [demo_segment]) ["libA.dylib"%string] LE false []
    (fun _ => true) plain_stream true _ _ ltac:(vm_compute; reflexivity) eq_refl eq_refl) as H.
  destruct (get_dyld_bind_info _ _ _ _ _ _ _ _ _); [exact H|exact H|discriminate H].
Defined.
