(* ===== verification/DyldBindRoundtrip.v ===== *)
(** * Encoding bindings and reading them back

    An encoder of bindings as bind opcodes, and the proof that
    get_dyld_bind_info gives back the bindings. *)

From Stdlib Require Import ZArith Lia Bool.
From Stdlib Require Import Init.Byte.
From stdpp Require Import base list option numbers strings gmap.
From S2P Require Import Prelude CInt ByteSex HeaderSwap Leb128 DyldSegs DyldState DyldBind.
From S2P Require Import DyldBindSpec.

Open Scope list_scope.

(** ** Bindings and their opcodes *)

(** A pointer at an offset of a segment bound to a symbol of a dylib. *)
Record binding := {
  bd_segment : Z;
  bd_offset : Z;
  bd_symbol : list byte;
  bd_weak : bool;
  bd_ordinal : Z;
  bd_type : Z;
  bd_addend : Z
}.

(** The shortest of the three opcodes for an ordinal. *)
Definition encode_ordinal (o : Z) : list byte :=
  if o <=? 0 then opcode_byte BIND_OPCODE_SET_DYLIB_SPECIAL_IMM (o mod 16)
  else if o <? 16 then opcode_byte BIND_OPCODE_SET_DYLIB_ORDINAL_IMM o
  else opcode_byte BIND_OPCODE_SET_DYLIB_ORDINAL_ULEB 0 ++ uleb o.

Definition encode_binding (b : binding) : list byte :=
  encode_ordinal (bd_ordinal b) ++
  opcode_byte BIND_OPCODE_SET_SYMBOL_TRAILING_FLAGS_IMM (if bd_weak b then 1 else 0) ++
  bd_symbol b ++ [x00] ++
  opcode_byte BIND_OPCODE_SET_TYPE_IMM (bd_type b) ++
  opcode_byte BIND_OPCODE_SET_ADDEND_SLEB 0 ++ sleb (bd_addend b) ++
  opcode_byte BIND_OPCODE_SET_SEGMENT_AND_OFFSET_ULEB (bd_segment b) ++ uleb (bd_offset b) ++
  opcode_byte BIND_OPCODE_DO_BIND 0.

Definition encode_bindings (l : list binding) : list byte :=
  mjoin (encode_binding <$> l) ++ opcode_byte BIND_OPCODE_DONE 0.

(** ** Opcode bytes *)

Lemma opcode_mask b : Z.land (byte_Z b) BIND_OPCODE_MASK = 16 * (byte_Z b / 16).
Proof. by destruct b. Qed.

Lemma immediate_mask b : Z.land (byte_Z b) BIND_IMMEDIATE_MASK = byte_Z b mod 16.
Proof. by destruct b. Qed.

Section roundtrip.
Variables (segs : option (list segment_32)) (segs64 : option (list segment_64)).
Variables (dylibs : list string) (h : host) (swapped : bool) (object : list byte).
Variable can_allocate : Z -> bool.

#[local] Abbreviation bind_round := (bind_round segs segs64 dylibs h swapped object can_allocate).
#[local] Abbreviation bind_opcode := (bind_opcode segs segs64 dylibs h swapped object can_allocate).
#[local] Abbreviation bind_events := (bind_events segs segs64 dylibs h swapped object can_allocate).
#[local] Abbreviation stream_events :=
  (stream_events segs segs64 dylibs h swapped object can_allocate).

(** The bindings the file's segments and dylibs allow. *)
Record valid_binding (b : binding) (name : option string) : Prop := {
  vb_segment : 0 <= bd_segment b < 16;
  vb_seg_index : validateSegIndex segs segs64 (bd_segment b) = None;
  vb_offset : in_uw 64 (bd_offset b);
  vb_in_segment : checkSegAndOffset segs segs64 (bd_segment b) (bd_offset b) true = None;
  vb_symbol : Forall (fun c => byte_Z c <> 0) (bd_symbol b);
  vb_ordinal : - 3 <= bd_ordinal b < 2 ^ 31;
  vb_dylib : validateOrdinal (bd_ordinal b) dylibs = inr name;
  vb_type : 1 <= bd_type b <= 3;
  vb_addend : - 2 ^ 62 <= bd_addend b < 2 ^ 63
}.

(** The entry of a binding. *)
Definition binding_entry (b : binding) : dyld_bind_info :=
  let address := u64 (segStartAddress segs segs64 (bd_segment b) + bd_offset b) in
  {| bi_segname := Some (String.substring 0 16 (segmentName segs segs64 (bd_segment b)));
     bi_sectname := Some (String.substring 0 16 (sectionName segs segs64 (bd_segment b) address));
     bi_address := address;
     bi_bind_type := bd_type b;
     bi_lib_ordinal := bd_ordinal b;
     bi_bind_name := None;
     bi_addend := u64 (bd_addend b);
     bi_dylibname := Some (match validateOrdinal (bd_ordinal b) dylibs with
                           | inr (Some name) => name
                           | _ => "??"%string
                           end);
     bi_symbolname := Some (c_string (byte_Z <$> bd_symbol b));
     bi_weak_import := bd_weak b;
     bi_pointer_value := 0;
     bi_pointer_ondisk := 0;
     bi_pointer_format := 0;
     bi_has_auth := false;
     bi_auth_diversity := 0;
     bi_auth_addr_div := false;
     bi_auth_key := 0 |}.

(** ** One round for each opcode of an encoding *)

Lemma round_opcode size s opcode immediate p k :
  opcode = 16 * k -> 0 <= k < 16 -> 0 <= immediate < 16 ->
  b_p s = opcode_byte opcode immediate ++ p ->
  exists location, bind_round size s = bind_opcode opcode immediate location (set_p p (set_log [] s)).
Proof.
  intros -> Hk Hi Hp. unfold DyldBind.bind_round. rewrite Hp. simpl.
  rewrite opcode_mask, immediate_mask, byte_Z_of by lia.
  replace ((16 * k + immediate) / 16) with k by div_lia.
  replace ((16 * k + immediate) mod 16) with immediate by div_lia. eauto.
Qed.

Lemma round_ordinal size s o name p :
  - 3 <= o < 2 ^ 31 -> validateOrdinal o dylibs = inr name -> b_p s = encode_ordinal o ++ p ->
  bind_round size s = Ok (set_libraryOrdinalSet true (set_fromDylib name
    (set_libraryOrdinal o (set_p p (set_log [] s))))).
Proof.
  intros Ho Hv Hp. unfold encode_ordinal in Hp.
  destruct (Z.leb_spec o 0); [|destruct (Z.ltb_spec o 16)].
  - apply (round_opcode size _ _ _ _ 3) in Hp as [l ->]; [|done|lia|apply Z.mod_pos_bound; lia].
    assert (Hsign : (if o mod 16 =? 0 then 0 else sw 8 (Z.lor BIND_OPCODE_MASK (o mod 16))) = o).
    { assert (o = -3 \/ o = -2 \/ o = -1 \/ o = 0) as [->|[->|[->| ->]]] by lia; reflexivity. }
    change (Ok (op_set_dylib_special_imm dylibs l (o mod 16) (set_p p (set_log [] s))) = Ok
      (set_libraryOrdinalSet true (set_fromDylib name (set_libraryOrdinal o (set_p p (set_log [] s)))))).
    unfold op_set_dylib_special_imm. rewrite Hsign. unfold set_ordinal.
    cbn [b_libraryOrdinal set_libraryOrdinal]. by rewrite Hv.
  - apply (round_opcode size _ _ _ _ 1) in Hp as [l ->]; [|done|lia|lia].
    change (Ok (set_ordinal dylibs l (set_libraryOrdinal o (set_p p (set_log [] s)))) = Ok
      (set_libraryOrdinalSet true (set_fromDylib name (set_libraryOrdinal o (set_p p (set_log [] s)))))).
    unfold set_ordinal. cbn [b_libraryOrdinal set_libraryOrdinal]. by rewrite Hv.
  - rewrite <- app_assoc in Hp. apply (round_opcode size _ _ _ _ 2) in Hp as [l ->]; [|done|lia|lia].
    change (Ok (op_set_dylib_ordinal_uleb dylibs l (set_p (uleb o ++ p) (set_log [] s))) = Ok
      (set_libraryOrdinalSet true (set_fromDylib name (set_libraryOrdinal o (set_p p (set_log [] s)))))).
    unfold op_set_dylib_ordinal_uleb. cbn [b_p set_p]. rewrite read_uleb128_encode by lia.
    rewrite sw_id by (unfold in_sw; lia). unfold set_ordinal.
    cbn [b_libraryOrdinal set_libraryOrdinal]. by rewrite Hv.
Qed.

Lemma scan_name_symbol name p :
  Forall (fun c => byte_Z c <> 0) name -> scan_name (name ++ [x00] ++ p) = (name, x00 :: p).
Proof.
  induction 1 as [|c name Hc _ IH]; [done|]. cbn [app scan_name].
  rewrite (proj2 (Z.eqb_neq _ _) Hc). simpl app in IH. by rewrite IH.
Qed.

Lemma round_symbol size s (weak : bool) name p :
  Forall (fun c => byte_Z c <> 0) name ->
  b_p s = opcode_byte BIND_OPCODE_SET_SYMBOL_TRAILING_FLAGS_IMM (if weak then 1 else 0) ++
          name ++ [x00] ++ p ->
  bind_round size s = Ok (set_weak_import weak (set_flags (if weak then 1 else 0)
    (set_p p (set_symbolName (Some (c_string (byte_Z <$> name))) (set_log [] s))))).
Proof.
  intros Hname Hp.
  apply (round_opcode size _ _ _ _ 4) in Hp as [l ->]; [|done|lia|by destruct weak].
  change (Ok (op_set_symbol l (if weak then 1 else 0)
    (set_p (name ++ [x00] ++ p) (set_log [] s))) = Ok (set_weak_import weak
      (set_flags (if weak then 1 else 0)
        (set_p p (set_symbolName (Some (c_string (byte_Z <$> name))) (set_log [] s)))))).
  unfold op_set_symbol. cbn [b_p set_p]. rewrite scan_name_symbol by done.
  by destruct weak.
Qed.

Lemma round_type size s type p :
  1 <= type <= 3 -> b_p s = opcode_byte BIND_OPCODE_SET_TYPE_IMM type ++ p ->
  bind_round size s = Ok (set_type type (set_p p (set_log [] s))).
Proof.
  intros Ht Hp. apply (round_opcode size _ _ _ _ 5) in Hp as [l ->]; [|done|lia|lia].
  change (Ok (op_set_type l type (set_p p (set_log [] s))) =
    Ok (set_type type (set_p p (set_log [] s)))).
  unfold op_set_type, BIND_TYPE_TEXT_PCREL32.
  by rewrite (proj2 (Z.eqb_neq _ _)), (proj2 (Z.ltb_ge _ _)) by lia.
Qed.

Lemma round_addend size s addend p :
  - 2 ^ 62 <= addend < 2 ^ 63 ->
  b_p s = opcode_byte BIND_OPCODE_SET_ADDEND_SLEB 0 ++ sleb addend ++ p ->
  bind_round size s = Ok (set_addend addend (set_p p (set_log [] s))).
Proof.
  intros Ha Hp. apply (round_opcode size _ _ _ _ 6) in Hp as [l ->]; [|done|lia|lia].
  change (op_set_addend l (set_p (sleb addend ++ p) (set_log [] s)) =
    Ok (set_addend addend (set_p p (set_log [] s)))).
  unfold op_set_addend. cbn [b_p set_p]. by rewrite read_sleb128_encode by lia.
Qed.

Lemma round_segment size s i off p :
  0 <= i < 16 -> validateSegIndex segs segs64 i = None -> in_uw 64 off ->
  checkSegAndOffset segs segs64 i off true = None ->
  b_p s = opcode_byte BIND_OPCODE_SET_SEGMENT_AND_OFFSET_ULEB i ++ uleb off ++ p ->
  bind_round size s = Ok (set_segName (Some (segmentName segs segs64 i))
    (set_segStartAddr (segStartAddress segs segs64 i)
      (set_segIndex i (set_segOffset off (set_p p (set_log [] s)))))).
Proof.
  intros Hi Hv Hoff Hc Hp. apply (round_opcode size _ _ _ _ 7) in Hp as [l ->]; [|done|lia|lia].
  change (Ok (op_set_segment_and_offset segs segs64 l i (set_p (uleb off ++ p) (set_log [] s))) =
    Ok (set_segName (Some (segmentName segs segs64 i))
      (set_segStartAddr (segStartAddress segs segs64 i)
        (set_segIndex i (set_segOffset off (set_p p (set_log [] s))))))).
  unfold op_set_segment_and_offset. rewrite Hv. cbn [b_p set_p].
  rewrite read_uleb128_encode by exact Hoff.
  cbn [fmap option_fmap option_map b_segIndex b_segOffset set_segName set_segStartAddr
    set_segIndex set_segOffset]. by rewrite Hc.
Qed.

(** A bind at a checked place, with a symbol and an ordinal. *)
Lemma round_bind size s p sym :
  b_chain_format s = CHAIN_FORMAT_NONE -> b_symbolName s = Some sym ->
  b_libraryOrdinalSet s = true ->
  checkSegAndOffset segs segs64 (b_segIndex s) (b_segOffset s) true = None ->
  b_p s = opcode_byte BIND_OPCODE_DO_BIND 0 ++ p ->
  exists t, bind_round size s = Ok t /\ b_p t = p /\ b_done t = b_done s /\
    b_chain_format t = CHAIN_FORMAT_NONE /\
    b_log t = [BindEntry (make_entry (set_sectName (Some (sectionName segs segs64
      (u8 (b_segIndex s)) (u64 (b_segStartAddr s + b_segOffset s)))) s))].
Proof.
  intros Hf Hs Ho Hc Hp. apply (round_opcode size _ _ _ _ 9) in Hp as [l ->]; [|done|lia|lia].
  eexists. split; [|split_and!].
  - change (bind_opcode BIND_OPCODE_DO_BIND 0 l (set_p p (set_log [] s))) with
      (op_do_bind segs segs64 l (set_p p (set_log [] s))).
    unfold op_do_bind. cbn [b_chain_format set_p set_log]. rewrite Hf.
    rewrite (proj2 (Z.eqb_eq _ _) eq_refl). unfold find_location.
    cbn [b_segIndex b_segOffset set_p set_log]. rewrite Hc. unfold check_symbol. cbv zeta.
    cbn [b_symbolName b_libraryOrdinalSet set_sectName set_p set_log]. rewrite Hs.
    cbn [b_libraryOrdinalSet set_sectName set_p set_log]. rewrite Ho.
    cbn [b_chain_format set_sectName set_p set_log]. rewrite Hf. reflexivity.
  - done.
  - done.
  - exact Hf.
  - done.
Qed.

(** ** Runs of rounds *)

(** From [s] the events [l] come first, then those from [t]. *)
Definition runs (size : Z) (s : bind_state) (l : list bind_event) (t : bind_state) : Prop :=
  exists k, forall f, bind_events (k + f) size s =
    ('(u, l') ← bind_events f size t; Ok (u, l ++ l')).

Lemma runs_refl size s : runs size s [] s.
Proof. exists O. intros f. simpl. by destruct (bind_events f size s) as [[]| |]. Qed.

Lemma runs_round size s t l u p :
  b_done s = false -> b_p s = p -> p <> [] -> bind_round size s = Ok t ->
  runs size t l u -> runs size s (b_log t ++ l) u.
Proof.
  intros Hd Hp Hne Hr (k & Hk). exists (S k). intros f. simpl. rewrite Hd, Hp.
  rewrite bool_decide_eq_false_2 by done. simpl. rewrite Hr. cbn [mbind res_bind]. rewrite Hk.
  destruct (bind_events f size u) as [[v l']| |]; simpl; [|done..]. by rewrite app_assoc.
Qed.

(** A round without events. *)
Lemma runs_quiet size s t l u p :
  b_done s = false -> b_p s = p -> p <> [] -> bind_round size s = Ok t -> b_log t = [] ->
  runs size t l u -> runs size s l u.
Proof.
  intros Hd Hp Hne Hr Hl H. pose proof (runs_round _ _ _ _ _ _ Hd Hp Hne Hr H) as H'.
  by rewrite Hl in H'.
Qed.

Lemma runs_trans size s l t l' u :
  runs size s l t -> runs size t l' u -> runs size s (l ++ l') u.
Proof.
  intros (k & Hk) (k' & Hk'). exists (k + k')%nat. intros f. rewrite <- Nat.add_assoc, Hk, Hk'.
  destruct (bind_events f size u) as [[v l2]| |]; simpl; [|done..]. by rewrite app_assoc.
Qed.

(** More fuel than enough changes nothing. *)
Lemma events_more_fuel f g size s :
  fuelled (bind_events f size s) -> bind_events (f + g) size s = bind_events f size s.
Proof.
  revert s. induction f as [|f IH]; intros s H; [done|]. simpl in *.
  destruct (b_done s || bool_decide (b_p s = [])); [done|].
  destruct (bind_round size s) as [t| |]; simpl in *; try done.
  rewrite IH; [done|]. unfold fuelled in *. intros Heq. by rewrite Heq in H.
Qed.

(** A run that ends gives the events of the stream. *)
Lemma runs_stream size s l t f :
  runs size s l t -> b_done t || bool_decide (b_p t = []) = true ->
  (length (b_p s) < f)%nat -> bind_events f size s = Ok (t, l).
Proof.
  intros (k & Hk) Ht Hf. specialize (Hk (S f)). cbn [DyldBindSpec.bind_events] in Hk.
  rewrite Ht in Hk. cbn [mbind res_bind] in Hk. rewrite app_nil_r in Hk.
  rewrite <- Hk. symmetry. replace (k + S f)%nat with (f + S k)%nat by lia.
  apply events_more_fuel, fuelled_bind_events, Hf.
Qed.

Lemma opcode_byte_ne opcode immediate p : opcode_byte opcode immediate ++ p <> [].
Proof. done. Qed.

Lemma encode_ordinal_ne o p : encode_ordinal o ++ p <> [].
Proof. unfold encode_ordinal. by repeat case_match. Qed.

(** The rounds of one binding. *)
Lemma runs_binding size s b name p :
  valid_binding b name -> b_done s = false -> b_chain_format s = CHAIN_FORMAT_NONE ->
  b_p s = encode_binding b ++ p ->
  exists t, runs size s [BindEntry (binding_entry b)] t /\
    b_done t = false /\ b_chain_format t = CHAIN_FORMAT_NONE /\ b_p t = p.
Proof.
  intros [Hseg Hidx Hoff Hin Hsym Hord Hdy Hty Had] Hd Hf Hp. unfold encode_binding in Hp.
  rewrite <- !app_assoc in Hp.
  pose proof (round_ordinal size s _ _ _ Hord Hdy Hp) as R1.
  set (s1 := set_libraryOrdinalSet _ _) in R1.
  pose proof (round_symbol size s1 _ _ _ Hsym eq_refl) as R2. set (s2 := set_weak_import _ _) in R2.
  pose proof (round_type size s2 _ _ Hty eq_refl) as R3. set (s3 := set_type _ _) in R3.
  pose proof (round_addend size s3 _ _ Had eq_refl) as R4. set (s4 := set_addend _ _) in R4.
  pose proof (round_segment size s4 _ _ _ Hseg Hidx Hoff Hin eq_refl) as R5.
  set (s5 := set_segName _ _) in R5.
  destruct (round_bind size s5 p _ Hf eq_refl eq_refl Hin eq_refl) as (t & R6 & Hpt & Hdt & Hft & Hl).
  exists t. split; [|split_and!; [by rewrite Hdt|done|done]].
  assert (Hentry : make_entry (set_sectName (Some (sectionName segs segs64 (u8 (b_segIndex s5))
      (u64 (b_segStartAddr s5 + b_segOffset s5)))) s5) = binding_entry b).
  { change (u8 (b_segIndex s5)) with (u8 (bd_segment b)).
    rewrite uw_id by (unfold in_uw; lia). unfold binding_entry. rewrite Hdy. by destruct name. }
  rewrite Hentry in Hl. rewrite <- Hl. rewrite <- (app_nil_r (b_log t)).
  apply (runs_quiet _ _ s1 _ _ _ Hd Hp); [apply encode_ordinal_ne|exact R1|done|].
  apply (runs_quiet _ s1 s2 _ _ _ Hd eq_refl); [apply opcode_byte_ne|exact R2|done|].
  apply (runs_quiet _ s2 s3 _ _ _ Hd eq_refl); [apply opcode_byte_ne|exact R3|done|].
  apply (runs_quiet _ s3 s4 _ _ _ Hd eq_refl); [apply opcode_byte_ne|exact R4|done|].
  apply (runs_quiet _ s4 s5 _ _ _ Hd eq_refl); [apply opcode_byte_ne|exact R5|done|].
  apply (runs_round _ s5 t _ _ _ Hd eq_refl); [apply opcode_byte_ne|exact R6|apply runs_refl].
Qed.

Lemma runs_bindings size l s p :
  Forall (fun b => exists name, valid_binding b name) l ->
  b_done s = false -> b_chain_format s = CHAIN_FORMAT_NONE ->
  b_p s = mjoin (encode_binding <$> l) ++ p ->
  exists t, runs size s (BindEntry <$> (binding_entry <$> l)) t /\
    b_done t = false /\ b_chain_format t = CHAIN_FORMAT_NONE /\ b_p t = p.
Proof.
  intros Hl. revert s. induction Hl as [|b l [name Hb] _ IH]; intros s Hd Hf Hp.
  - exists s. split_and!; [apply runs_refl|done..].
  - simpl in Hp. rewrite <- app_assoc in Hp.
    destruct (runs_binding size s b name _ Hb Hd Hf Hp) as (t & Hr & Hd' & Hf' & Hp').
    destruct (IH t Hd' Hf' Hp') as (u & Hru & Hu). exists u. split; [|done].
    rewrite !fmap_cons. by apply (runs_trans _ _ [_] t).
Qed.

Lemma stream_events_encode l :
  Forall (fun b => exists name, valid_binding b name) l ->
  exists t, stream_events (encode_bindings l) = Ok (t, BindEntry <$> (binding_entry <$> l)) /\
    b_chain_format t = CHAIN_FORMAT_NONE.
Proof.
  intros Hl. unfold DyldBindSpec.stream_events. set (size := Z.of_nat _).
  destruct (runs_bindings size l (pass_start (encode_bindings l) initial_state) _ Hl eq_refl eq_refl
    eq_refl) as (t & Hr & Hd & Hf & Hp).
  destruct (round_opcode size t BIND_OPCODE_DONE 0 [] 0 eq_refl) as [loc Hdone]; [lia|lia|exact Hp|].
  change (bind_opcode BIND_OPCODE_DONE 0 loc (set_p [] (set_log [] t))) with
    (Ok (set_done true (set_p [] (set_log [] t)))) in Hdone.
  exists (set_done true (set_p [] (set_log [] t))). split; [|exact Hf].
  apply runs_stream; [|reflexivity|simpl; lia].
  rewrite <- (app_nil_r (BindEntry <$> _)). eapply runs_trans; [exact Hr|].
  by eapply (runs_quiet _ _ _ _ _ _ Hd Hp); [|exact Hdone| |apply runs_refl].
Qed.
End roundtrip.

(** ** Properties *)

(** C7: bindings written as bind opcodes are read back: for any list of
    bindings to dylibs and segments of the file, at offsets inside of the
    segments, with a symbol and an addend that can be encoded,
    get_dyld_bind_info hands back their entries, in order, and prints nothing.
    Each entry has the address, the names of the segment, section and dylib,
    the ordinal, type, symbol, addend and weak flag of its binding. *)
Theorem bindings_roundtrip (segs : option (list segment_32)) (segs64 : option (list segment_64))
    (dylibs : list string) (h : host) (swapped : bool) (object : list byte)
    (can_allocate : Z -> bool) (pe : bool) (l : list binding) :
  Forall (fun b => exists name, valid_binding segs segs64 dylibs b name) l ->
  Z.of_nat (length l) * sizeof_bind_info < 2 ^ 64 ->
  can_allocate (Z.of_nat (length l) * sizeof_bind_info) = true ->
  get_dyld_bind_info segs segs64 dylibs h swapped object can_allocate
    (Some (encode_bindings l)) pe =
    Ok {| r_dbi := binding_entry segs segs64 dylibs <$> l; r_ndbi := length l;
          r_chain_format := CHAIN_FORMAT_NONE; r_printed := [] |}.
Proof.
  intros Hl Hsize Ha.
  destruct (stream_events_encode segs segs64 dylibs h swapped object can_allocate l Hl)
    as (t & Hev & Hf).
  assert (Hen : entries (BindEntry <$> (binding_entry segs segs64 dylibs <$> l)) =
    binding_entry segs segs64 dylibs <$> l) by (clear; induction l; simpl; [done|by f_equal]).
  assert (Her : errors (BindEntry <$> (binding_entry segs segs64 dylibs <$> l)) = [])
    by (clear; induction l; simpl; done).
  rewrite (bind_info_refines _ _ _ _ _ _ _ _ pe _ _ Hev Hf); rewrite ?Hen, ?length_fmap;
    try done.
  - unfold messages. by rewrite Her.
  - unfold error_count. by rewrite Her.
Qed.

(** Two bindings into the demo segment. *)
Definition demo_bindings : list binding :=
  [{| bd_segment := 0; bd_offset := 8; bd_symbol := [x5f; x61]; bd_weak := false;
      bd_ordinal := 1; bd_type := 1; bd_addend := -4 |};
   {| bd_segment := 0; bd_offset := 248; bd_symbol := [x5f; x62]; bd_weak := true;
      bd_ordinal := -2; bd_type := 1; bd_addend := 0 |}].

Lemma bindings_roundtrip_witness :
  exists r, demo_run (encode_bindings demo_bindings) = Ok r /\ r_ndbi r = 2%nat.
Proof.
  eexists. split; [apply bindings_roundtrip|]; [|reflexivity..].
  repeat constructor; eexists; (split; [| reflexivity | | reflexivity | | | reflexivity | |]);
    simpl; first [lia|split; [discriminate|reflexivity]|repeat constructor; discriminate].
Defined.
