(* ===== verification/DyldBindValid.v ===== *)
(** * Entries of a stream without errors

    An invariant of the interpreter: as long as no error is reported, the
    current segment, offset and library ordinal are valid ones, and every
    entry is a pointer below the end of a segment, bound to a dylib of the
    file or to one of the special ones. *)

From Stdlib Require Import ZArith Lia Bool.
From Stdlib Require Import Init.Byte.
From stdpp Require Import base list option numbers strings gmap.
From S2P Require Import Prelude CInt ByteSex HeaderSwap Leb128 DyldSegs DyldState DyldBind.
From S2P Require Import DyldBindSpec.

Open Scope list_scope.

Section valid.
Variables (segs : option (list segment_32)) (segs64 : option (list segment_64)).

(** ** Where an offset is accepted *)

(** The start and the end of a segment, in 64 bits. *)
Definition segment_bounds (i : Z) : option (Z * Z) :=
  if bool_decide (is_Some segs) then
    (fun s => (segment_command_vmaddr (seg32_command s), segment_end s)) <$> seg segs i
  else
    (fun s => (segment_command_64_vmaddr (seg64_command s), segment_end_64 s)) <$> seg64 segs64 i.

(** The file has segments, and none of them reaches 2^63. *)
Definition segments_fit : Prop :=
  (is_Some segs \/ is_Some segs64) /\
  forall i lo hi, segment_bounds i = Some (lo, hi) -> 0 <= lo <= hi /\ hi < 2 ^ 63.

Lemma check_offset_None lo hi off e :
  check_offset lo hi off e = None <->
  if e then u64 (lo + off) < hi else u64 (lo + off) <= hi.
Proof.
  unfold check_offset. destruct (Z.ltb_spec hi (u64 (lo + off))), (Z.eqb_spec (u64 (lo + off)) hi);
    destruct e; simpl; (split; [intros; try done; lia|intros; try done; lia]).
Qed.

(** [checkSegAndOffset] accepts the offsets at which the wrapped address lies
    before the end of the segment. *)
Lemma checkSegAndOffset_None i off e :
  is_Some segs \/ is_Some segs64 -> 0 <= i < 2 ^ 32 ->
  checkSegAndOffset segs segs64 i off e = None <->
  exists lo hi, segment_bounds i = Some (lo, hi) /\
    if e then u64 (lo + off) < hi else u64 (lo + off) <= hi.
Proof.
  intros Hsome Hi. unfold checkSegAndOffset, segment_bounds.
  rewrite (proj2 (Z.eqb_neq _ _)), uw_id by (unfold in_uw; lia).
  case_bool_decide as Hs; [destruct (seg segs i) as [s|]|
    rewrite bool_decide_eq_true_2 by tauto; destruct (seg64 segs64 i) as [s|]]; simpl.
  all: rewrite ?check_offset_None; split; [by eauto|by intros (lo & hi & [= <- <-] & Hlt)].
Qed.

Lemma checkCountAndSkip_None c skip i off c' :
  is_Some segs \/ is_Some segs64 -> 0 <= i < 2 ^ 32 ->
  checkCountAndSkip segs segs64 c skip i off = (c', None) ->
  c' = c /\ exists lo hi, segment_bounds i = Some (lo, hi) /\
    check_run c skip (sizeof_pointer segs) lo hi off = None.
Proof.
  intros Hsome Hi. unfold checkCountAndSkip, segment_bounds, sizeof_pointer.
  rewrite uw_id by (unfold in_uw; lia). cbv zeta.
  case_bool_decide as Hs; [destruct (seg segs i) as [s|]|
    rewrite bool_decide_eq_true_2 by tauto; destruct (seg64 segs64 i) as [s|]];
    intros [= <- Hc]; try done; rewrite Hc; eauto.
Qed.

(** A run of pointers that passes the check stays before the end, when it is
    short enough for its length not to wrap. *)
Lemma check_run_None c skip size lo hi off k :
  check_run c skip size lo hi off = None -> 0 <= hi < 2 ^ 63 ->
  0 <= skip < 2 ^ 32 -> 0 <= size <= 8 -> 0 <= k < c -> c <= 2 ^ 30 ->
  u64 (lo + off + k * u32 (skip + size)) < hi.
Proof.
  intros Hc Hhi Hskip Hsize Hk Hle. unfold check_run in Hc. cbv zeta in Hc.
  pose proof (uw_range 64 (lo + off) ltac:(lia)) as Ha.
  replace (u64 (lo + off + k * u32 (skip + size)))
    with (u64 (u64 (lo + off) + k * u32 (skip + size)))
    by (unfold uw; by rewrite Zplus_mod_idemp_l).
  set (a := u64 (lo + off)) in *. unfold in_uw in Ha.
  destruct (Z.leb_spec hi a); [done|].
  pose proof (uw_range 32 (skip + size) ltac:(lia)) as Hstep. unfold in_uw in Hstep.
  assert (Hstep' : u32 (skip + size) <= skip + size) by (apply Z.mod_le; lia).
  destruct (Z.ltb_spec 1 c).
  - assert (Hi : 0 <= (skip + size) * (c - 1) < 2 ^ 63) by nia.
    rewrite (uw_id 64 ((skip + size) * (c - 1))) in Hc by (unfold in_uw; lia).
    rewrite uw_id in Hc by (unfold in_uw; lia).
    destruct (Z.leb_spec hi (a + (skip + size) * (c - 1))); [done|].
    assert (0 <= k * u32 (skip + size) <= (skip + size) * (c - 1)) by nia.
    rewrite uw_id by (unfold in_uw; lia). lia.
  - replace k with 0 by lia. rewrite uw_id by (unfold in_uw; lia). lia.
Qed.

(** ** The invariant *)

Variables (dylibs : list string) (h : host) (swapped : bool) (object : list byte).
Variable can_allocate : Z -> bool.

(** A type of the format, or 0, the type before BIND_OPCODE_SET_TYPE_IMM. *)
Definition type_or_unset (type : Z) : Prop :=
  type = 0 \/ type ∈ [BIND_TYPE_POINTER; BIND_TYPE_TEXT_ABSOLUTE32; BIND_TYPE_TEXT_PCREL32].

Lemma type_or_unset_range type : 0 <= type <= 3 -> type_or_unset type.
Proof.
  intros H. unfold type_or_unset. rewrite !elem_of_cons.
  unfold BIND_TYPE_POINTER, BIND_TYPE_TEXT_ABSOLUTE32, BIND_TYPE_TEXT_PCREL32. lia.
Qed.

(** The entry is a pointer of a segment, bound to a valid ordinal. *)
Record valid_entry (e : dyld_bind_info) : Prop := {
  ve_segment : exists i lo hi, 0 <= i < 16 /\ segment_bounds i = Some (lo, hi) /\
    bi_segname e = Some (String.substring 0 16 (segmentName segs segs64 i)) /\
    0 <= bi_address e < hi;
  ve_ordinal : exists name, validateOrdinal (bi_lib_ordinal e) dylibs = inr name /\
    bi_dylibname e = Some (default "??"%string name);
  ve_type : type_or_unset (bi_bind_type e)
}.

Record valid_state (s : bind_state) : Prop := {
  vs_segment : b_segIndex s = -1 \/
    (0 <= b_segIndex s < 16 /\ b_segStartAddr s = segStartAddress segs segs64 (b_segIndex s) /\
     b_segName s = Some (segmentName segs segs64 (b_segIndex s)));
  vs_ordinal : b_libraryOrdinalSet s = true ->
    validateOrdinal (b_libraryOrdinal s) dylibs = inr (b_fromDylib s);
  vs_type : 0 <= b_type s <= 3;
  vs_table : b_ordinalTableCount s = 0 /\ b_ordinalTableIndex s = 2 ^ 64 - 1
}.

(** Not in the threaded format, no error, and fewer than 2^30 entries. *)
Record clean (s : bind_state) : Prop := {
  cl_format : b_chain_format s = CHAIN_FORMAT_NONE;
  cl_errors : errors (b_log s) = [];
  cl_short : Z.of_nat (length (entries (b_log s))) < 2 ^ 30
}.

(** What the opcodes keep. *)
Definition sound (s : bind_state) : Prop :=
  clean s -> valid_state s /\ Forall valid_entry (entries (b_log s)).

Lemma clean_before s t : advances s t -> clean t -> clean s.
Proof.
  intros [_ Hf (l & Hl & _)] [Hc He Hs]. rewrite Hl in *. rewrite errors_app in He.
  rewrite entries_app, length_app in Hs. apply app_nil in He as [He _].
  split; [apply Hf, Hc|done|lia].
Qed.

Lemma report_not_clean l e s : ~ clean (report l e s).
Proof. intros [_ He _]. simpl in He. rewrite errors_app in He. by apply app_nil in He as [_ ?]. Qed.

Lemma advance_not_clean s t : advances s t -> ~ clean s -> ~ clean t.
Proof. intros H Hs Ht. by eapply Hs, clean_before. Qed.

(** *** The pieces of the opcodes, without errors *)

Lemma find_location_clean e l s :
  clean (find_location segs segs64 e l s) ->
  checkSegAndOffset segs segs64 (b_segIndex s) (b_segOffset s) e = None /\
  exists name, find_location segs segs64 e l s = set_sectName name s.
Proof.
  unfold find_location. destruct (checkSegAndOffset _ _ _ _ _) as [err|]; [|eauto].
  intros Hc. exfalso. eapply (report_not_clean l err s), clean_before, Hc.
  apply adv_reset_section. reflexivity.
Qed.

Lemma check_symbol_clean l s :
  clean (check_symbol l s) -> check_symbol l s = s /\ b_libraryOrdinalSet s = true.
Proof.
  unfold check_symbol. intros Hc. destruct (b_symbolName s).
  - destruct (b_libraryOrdinalSet s); [done|]. by apply report_not_clean in Hc.
  - exfalso. cbv zeta in Hc. destruct (b_libraryOrdinalSet _); [by apply report_not_clean in Hc|].
    eapply (report_not_clean l MissingSymbol s), clean_before, Hc. apply adv_report. reflexivity.
Qed.

Lemma check_next_clean l s :
  clean (check_next segs segs64 l s) -> check_next segs segs64 l s = s.
Proof.
  unfold check_next. destruct (checkSegAndOffset _ _ _ _ _) as [err|]; [|done].
  intros Hc. exfalso. eapply (report_not_clean l err s), clean_before, Hc.
  apply adv_reset_section. reflexivity.
Qed.

(** *** The opcodes that produce no entry *)

(** An opcode that leaves the log alone and whose result is valid. *)
Lemma sound_quiet s t :
  (clean s -> valid_state s -> clean t -> valid_state t) -> advances s t ->
  entries (b_log t) = entries (b_log s) -> sound s -> sound t.
Proof.
  intros Hv Ha Hl Hs Hc. pose proof (clean_before _ _ Ha Hc) as Hcs.
  destruct (Hs Hcs) as [Hvs He]. rewrite Hl. auto.
Qed.

(** After an error nothing is left to show. *)
Lemma sound_dirty s t : advances s t -> ~ clean s -> sound t.
Proof. intros Ha Hs Hc. by destruct (advance_not_clean _ _ Ha Hs). Qed.

Lemma sound_reported l e s t : advances (report l e s) t -> sound t.
Proof. intros Ha. eapply sound_dirty; [exact Ha|apply report_not_clean]. Qed.

Lemma sound_set_ordinal l o s : sound s -> sound (set_ordinal dylibs l (set_libraryOrdinal o s)).
Proof.
  unfold set_ordinal. cbn [b_libraryOrdinal set_libraryOrdinal].
  destruct (validateOrdinal o dylibs) as [e|name] eqn:E.
  - intros _. eapply sound_reported. reflexivity.
  - apply sound_quiet; [|auto with bind|done].
    intros _ [Hseg _ Hty Htab] _. split; [exact Hseg|done|exact Hty|exact Htab].
Qed.

Lemma sound_set_p p s : p `suffix_of` b_p s -> sound s -> sound (set_p p s).
Proof.
  intros Hp. apply sound_quiet; [|auto with bind|done]. by intros _ [? ? ? ?] _.
Qed.

Lemma sound_ordinal_uleb l s : sound s -> sound (op_set_dylib_ordinal_uleb dylibs l s).
Proof.
  intros Hs. unfold op_set_dylib_ordinal_uleb.
  destruct (read_uleb128 (b_p s)) as [[v p] [e|]] eqn:E; apply read_uleb128_suffix in E.
  - eapply sound_reported. reflexivity.
  - by apply sound_set_ordinal, sound_set_p.
Qed.

Lemma sound_symbol l i s : sound s -> sound (op_set_symbol l i s).
Proof.
  intros Hs. pose proof (adv_op_set_symbol l i s s ltac:(reflexivity)) as Ha. revert Ha.
  unfold op_set_symbol. destruct (scan_name (b_p s)) as [name [|c rest]]; intros Ha.
  - eapply sound_reported. apply adv_weak_import, adv_flags. reflexivity.
  - revert Hs. apply sound_quiet; [|exact Ha|done]. by intros _ [? ? ? ?] _.
Qed.

Lemma sound_type l i s : 0 <= i -> sound s -> sound (op_set_type l i s).
Proof.
  intros Hi Hs. unfold op_set_type, BIND_TYPE_TEXT_PCREL32.
  destruct (Z.eqb_spec i 0), (Z.ltb_spec 3 i); simpl;
    try (eapply sound_reported; apply adv_type; reflexivity).
  revert Hs. apply sound_quiet; [|auto with bind|done].
  intros _ [Hseg Hord _ Htab] _. split; [exact Hseg|exact Hord|simpl; lia|exact Htab].
Qed.

Lemma sound_addend l s : sound s -> ends sound (op_set_addend l s).
Proof.
  intros Hs. unfold op_set_addend.
  destruct (read_sleb128 (b_p s)) as [[[v p] [e|]]|] eqn:E; try apply ends_undefined;
    apply ends_Ok.
  - eapply sound_reported. apply adv_addend. reflexivity.
  - apply read_sleb128_suffix in E. apply (sound_set_p p) in Hs; [|exact E]. revert Hs.
    apply sound_quiet; [|auto with bind|done]. by intros _ [? ? ? ?] _.
Qed.

Lemma sound_segment l i s :
  0 <= i < 16 -> sound s -> sound (op_set_segment_and_offset segs segs64 l i s).
Proof.
  intros Hi Hs. unfold op_set_segment_and_offset.
  destruct (validateSegIndex segs segs64 i) as [e|].
  { eapply sound_reported. apply adv_reset_segment. reflexivity. }
  destruct (read_uleb128 (b_p s)) as [[v p] [e|]] eqn:E; apply read_uleb128_suffix in E;
    cbn [fmap option_fmap option_map].
  { eapply sound_reported. apply adv_reset_segment. reflexivity. }
  destruct (checkSegAndOffset _ _ _ _ _) as [e|].
  { eapply sound_reported. apply adv_reset_segment. reflexivity. }
  revert Hs. apply sound_quiet; [|auto 8 with bind|done].
  intros _ [_ Hord Hty Htab] _. split; [by right|exact Hord|exact Hty|exact Htab].
Qed.

Lemma sound_segOffset x s : sound s -> sound (set_segOffset x s).
Proof. apply sound_quiet; [|auto with bind|done]. by intros _ [? ? ? ?] _. Qed.

Lemma sound_add_addr l s : sound s -> sound (op_add_addr segs segs64 l s).
Proof.
  intros Hs. unfold op_add_addr. destruct (b_segIndex s =? -1).
  { eapply sound_reported. apply adv_reset_segment. reflexivity. }
  destruct (read_uleb128 (b_p s)) as [[v p] [e|]] eqn:E; apply read_uleb128_suffix in E;
    cbn [fmap option_fmap option_map].
  { eapply sound_reported. apply adv_reset_segment. reflexivity. }
  destruct (checkSegAndOffset _ _ _ _ _) as [e|].
  { eapply sound_reported. apply adv_reset_segment. reflexivity. }
  by apply sound_segOffset, sound_set_p.
Qed.

(** *** The opcodes that produce entries *)

Hypothesis Hfit : segments_fit.

(** Where an entry may be made. *)
Record ready (s : bind_state) : Prop := {
  rd_checked : checkSegAndOffset segs segs64 (b_segIndex s) (b_segOffset s) true = None;
  rd_ordinal : b_libraryOrdinalSet s = true
}.

Lemma ready_bounds s :
  valid_state s -> ready s ->
  0 <= b_segIndex s < 16 /\ b_segName s = Some (segmentName segs segs64 (b_segIndex s)) /\
  exists lo hi, segment_bounds (b_segIndex s) = Some (lo, hi) /\ b_segStartAddr s = lo /\
    u64 (lo + b_segOffset s) < hi.
Proof.
  intros [[Hneg|(Hi & Hstart & Hname)] _ _ _] [Hc _]; [by rewrite Hneg in Hc|].
  split_and!; [lia|lia|done|]. destruct Hfit as [Hsome _].
  apply checkSegAndOffset_None in Hc as (lo & hi & Hb & Hlt); [|done|lia].
  exists lo, hi. split_and!; [done| |done]. rewrite Hstart. unfold segment_bounds in Hb.
  unfold segStartAddress. case_bool_decide; [destruct (seg _ _)|destruct (seg64 _ _)];
    simpl in Hb; by simplify_eq.
Qed.

Lemma valid_make_entry s lo hi :
  valid_state s -> b_libraryOrdinalSet s = true -> 0 <= b_segIndex s < 16 ->
  b_segName s = Some (segmentName segs segs64 (b_segIndex s)) ->
  segment_bounds (b_segIndex s) = Some (lo, hi) -> u64 (b_segStartAddr s + b_segOffset s) < hi ->
  valid_entry (make_entry s).
Proof.
  intros [_ Hord Hty _] Hset Hi Hname Hb Hlt. split.
  - exists (b_segIndex s), lo, hi. unfold make_entry; simpl. rewrite Hname.
    split_and!; [lia|lia|done|done|apply uw_range; lia|done].
  - exists (b_fromDylib s). unfold make_entry; simpl. rewrite Hset. auto.
  - by apply type_or_unset_range.
Qed.

Lemma sound_emit s :
  sound s -> (clean s -> valid_state s -> valid_entry (make_entry s)) -> sound (emit (make_entry s) s).
Proof.
  intros Hs He Hc. assert (Hcs : clean s) by (eapply clean_before, Hc; auto with bind).
  destruct (Hs Hcs) as [Hv Hl]. split; [by destruct Hv; split|].
  simpl. rewrite entries_app. apply Forall_app. split; [done|]. apply Forall_singleton. auto.
Qed.

Lemma sound_find e l s : sound s -> sound (find_location segs segs64 e l s).
Proof.
  intros Hs. unfold find_location. destruct (checkSegAndOffset _ _ _ _ _) as [err|].
  - eapply sound_reported. apply adv_reset_section. reflexivity.
  - revert Hs. apply sound_quiet; [|auto with bind|done]. by intros _ [? ? ? ?] _.
Qed.

Lemma sound_check_symbol l s : sound s -> sound (check_symbol l s).
Proof.
  intros Hs Hc. destruct (check_symbol_clean _ _ Hc) as [Heq _]. rewrite Heq in Hc |- *. by apply Hs.
Qed.

Lemma sound_check_next l s : sound s -> sound (check_next segs segs64 l s).
Proof.
  intros Hs Hc. pose proof (check_next_clean _ _ Hc) as Heq. rewrite Heq in Hc |- *. by apply Hs.
Qed.

(** The checks in front of every entry. *)
Lemma sound_checks l s :
  sound s -> let u := check_symbol l (find_location segs segs64 true l s) in
  sound u /\ (clean u -> ready u).
Proof.
  intros Hs u. split; [by apply sound_check_symbol, sound_find|]. subst u. intros Hc.
  destruct (check_symbol_clean _ _ Hc) as [Heq Hset]. rewrite Heq in Hc |- *.
  destruct (find_location_clean _ _ _ Hc) as [Hchk [name Hf]]. rewrite Hf in Hset |- *. by split.
Qed.

Lemma sound_checked_emit l s :
  sound s -> let u := check_symbol l (find_location segs segs64 true l s) in
  sound (emit (make_entry u) u).
Proof.
  intros Hs u. destruct (sound_checks l s Hs) as [Hu Hr]. fold u in Hu, Hr.
  apply sound_emit; [done|]. intros Hc Hv. specialize (Hr Hc).
  destruct (ready_bounds u Hv Hr) as (Hi & Hn & lo & hi & Hb & Hlo & Hlt).
  eapply valid_make_entry; [done|by destruct Hr|lia|done|exact Hb|by rewrite Hlo].
Qed.

Lemma sound_do_bind l s : sound s -> ends sound (op_do_bind segs segs64 l s).
Proof.
  intros Hs t Ht Hc. pose proof (adv_op_do_bind segs segs64 l s s ltac:(reflexivity) t Ht) as Ha.
  destruct (clean_before _ _ Ha Hc) as [Hf _ _]. revert Hc. revert Ht. unfold op_do_bind.
  rewrite Hf. cbn [Z.eqb CHAIN_FORMAT_NONE]. set (u := check_symbol l _).
  destruct (Z.eqb_spec (b_chain_format u) CHAIN_FORMAT_ARM64E) as [Hf'|_].
  - intros _ Hc. destruct Ha as [_ Hfmt _]. exfalso.
    assert (Hfu : b_chain_format u = b_chain_format s).
    { subst u. unfold check_symbol, find_location.
      destruct (checkSegAndOffset _ _ _ _ _), (b_symbolName _); simpl; by repeat case_match. }
    rewrite Hf', Hf in Hfu. discriminate.
  - intros [= <-]. by apply sound_segOffset, (sound_checked_emit l s).
Qed.

Lemma sound_add_addr_uleb l s : sound s -> sound (op_do_bind_add_addr_uleb segs segs64 l s).
Proof.
  intros Hs. unfold op_do_bind_add_addr_uleb. cbv zeta.
  pose proof (sound_checked_emit l s Hs) as Hu. cbv zeta in Hu. revert Hu.
  set (u := emit _ _). intros Hu. destruct (read_uleb128 (b_p u)) as [[v p] [e|]] eqn:E;
    apply read_uleb128_suffix in E; apply sound_check_next.
  - eapply sound_reported. apply adv_reset_section. reflexivity.
  - by apply sound_segOffset, sound_set_p.
Qed.

Lemma sound_imm_scaled l i s : sound s -> sound (op_do_bind_add_addr_imm_scaled segs segs64 l i s).
Proof.
  intros Hs. apply sound_check_next, sound_segOffset. by apply (sound_checked_emit l s).
Qed.

(** *** Runs *)

Lemma sound_operand l s :
  sound s -> sound (read_operand l s).2 /\ 0 <= (read_operand l s).1 < 2 ^ 32.
Proof.
  intros Hs. unfold read_operand. destruct (read_uleb128 (b_p s)) as [[v p] [e|]] eqn:E;
    apply read_uleb128_suffix in E; simpl.
  - split; [eapply sound_reported; reflexivity|lia].
  - split; [by apply sound_set_p|apply (uw_range 32); lia].
Qed.

Lemma length_bind_times n skip s :
  length (entries (b_log (bind_times segs n skip s))) = (length (entries (b_log s)) + n)%nat.
Proof.
  revert s. induction n as [|n IH]; intros s; simpl; [lia|]. rewrite IH.
  assert (Hl : length (entries (b_log (emit (make_entry s) s))) = S (length (entries (b_log s)))).
  { simpl. rewrite entries_app, length_app. simpl. lia. }
  destruct (b_segIndex s =? -1); simpl in *; lia.
Qed.

Lemma u64_advance lo off step k :
  u64 (lo + u64 (off + step) + k * step) = u64 (lo + off + (k + 1) * step).
Proof.
  unfold uw. replace (lo + (off + step) mod 2 ^ 64 + k * step)
    with ((off + step) mod 2 ^ 64 + (lo + k * step)) by lia.
  rewrite Zplus_mod_idemp_l. f_equal. lia.
Qed.

(** The pointers of a run all lie before the end of the segment. *)
Lemma valid_bind_times n skip s lo hi :
  valid_state s -> b_libraryOrdinalSet s = true -> 0 <= b_segIndex s < 16 ->
  b_segName s = Some (segmentName segs segs64 (b_segIndex s)) ->
  segment_bounds (b_segIndex s) = Some (lo, hi) -> b_segStartAddr s = lo ->
  (forall k, 0 <= k < Z.of_nat n ->
     u64 (lo + b_segOffset s + k * u32 (skip + sizeof_pointer segs)) < hi) ->
  Forall valid_entry (entries (b_log s)) ->
  valid_state (bind_times segs n skip s) /\
  Forall valid_entry (entries (b_log (bind_times segs n skip s))).
Proof.
  revert s. induction n as [|n IH]; intros s Hv Hset Hi Hname Hb Hlo Hk Hl; [done|]. simpl.
  rewrite (proj2 (Z.eqb_neq _ _)) by lia.
  set (t := set_segOffset _ _).
  assert (Hoff : b_segOffset t = u64 (b_segOffset s + u32 (skip + sizeof_pointer segs))) by done.
  apply IH; try assumption.
  - destruct Hv. by split.
  - intros k Hkn. rewrite Hoff.
    rewrite u64_advance. apply Hk. lia.
  - subst t. simpl. rewrite entries_app. apply Forall_app. split; [done|]. apply Forall_singleton.
    eapply valid_make_entry; [done|done|done|done|exact Hb|].
    rewrite Hlo. specialize (Hk 0). rewrite Z.mul_0_l, Z.add_0_r in Hk. apply Hk. lia.
Qed.

Lemma sizeof_pointer_range : 0 <= sizeof_pointer segs <= 8.
Proof. unfold sizeof_pointer. case_bool_decide; lia. Qed.

Lemma sound_times l s : sound s -> sound (op_do_bind_uleb_times_skipping_uleb segs segs64 l s).
Proof.
  intros Hs. unfold op_do_bind_uleb_times_skipping_uleb.
  pose proof (sound_operand l s Hs) as [H1 _]. destruct (read_operand l s) as [count t1].
  simpl in H1. pose proof (sound_operand l t1 H1) as [H2 Hskip].
  destruct (read_operand l t1) as [skip t2]. cbn [fst snd] in *. cbv zeta.
  destruct (sound_checks l t2 H2) as [Hu Hr]. revert Hu Hr. set (u := check_symbol l _). intros Hu Hr.
  destruct (checkCountAndSkip _ _ _ _ _ _) as [c [e|]] eqn:E.
  { eapply sound_reported. apply adv_bind_times, adv_reset_section. reflexivity. }
  intros Hc. pose proof (clean_before _ _ (adv_bind_times segs (Z.to_nat c) skip u u (adv_refl u)) Hc)
    as Hcu.
  destruct (Hu Hcu) as [Hv Hl]. specialize (Hr Hcu).
  destruct (ready_bounds u Hv Hr) as (Hi & Hname & lo & hi & Hb & Hlo & _).
  apply checkCountAndSkip_None in E as (-> & lo' & hi' & Hb' & Hrun); [|apply Hfit|lia].
  rewrite Hb in Hb'. injection Hb' as <- <-. destruct Hc as [_ _ Hshort].
  rewrite length_bind_times in Hshort. destruct Hfit as [_ Hseg].
  specialize (Hseg _ _ _ Hb) as [??]. pose proof sizeof_pointer_range.
  eapply valid_bind_times; [done|by destruct Hr|done|done|exact Hb|done| |done].
  intros k Hk. eapply check_run_None; [exact Hrun|lia|lia|lia|lia|lia].
Qed.

(** *** The threaded opcodes, which are never clean *)

Lemma sound_table_size l s : ends sound (op_threaded_table_size can_allocate l s).
Proof.
  unfold op_threaded_table_size. destruct (read_uleb128 (b_p s)) as [[v p] e]. cbv zeta.
  destruct (_ || _); [|apply ends_fatal]. apply ends_Ok. intros [Hf _ _]. discriminate Hf.
Qed.

Lemma sound_apply l s :
  sound s -> ends sound (op_threaded_apply segs segs64 dylibs h swapped object l s).
Proof.
  intros Hs t Ht Hc. exfalso.
  assert (Ha : advances s t) by (eapply adv_apply; [reflexivity|exact Ht]).
  destruct (Hs (clean_before _ _ Ha Hc)) as [[_ _ _ [Hcount Hidx]] _]. revert Ht.
  unfold op_threaded_apply. rewrite Hcount, Hidx. cbn [Z.eqb]. cbv zeta. intros Ht.
  eapply (report_not_clean l TableSizeMismatch s), clean_before, Hc.
  set (s1 := find_location _ _ _ _ _) in Ht.
  assert (H1 : advances (report l TableSizeMismatch s) s1) by (apply adv_find_location; reflexivity).
  set (s2 := if negb _ then _ else _) in Ht.
  assert (H2 : advances (report l TableSizeMismatch s) s2)
    by (subst s2; destruct (negb _); auto with bind).
  clearbody s1 s2. destruct (b_segIndex s2 =? -1); [by injection Ht as <-|].
  destruct (seg64 _ _); [|done]. by eapply adv_chain_loop in Ht.
Qed.

(** *** The switch and the loop *)

Lemma sound_done s : sound s -> sound (set_done true s).
Proof. apply sound_quiet; [|auto with bind|done]. by intros _ [? ? ? ?] _. Qed.

Lemma sound_opcode op i l s :
  0 <= i < 16 -> sound s ->
  ends sound (bind_opcode segs segs64 dylibs h swapped object can_allocate op i l s).
Proof.
  intros Hi Hs. unfold bind_opcode, op_threaded, op_set_dylib_ordinal_imm, op_set_dylib_special_imm.
  repeat match goal with |- ends _ (if ?c then _ else _) => destruct c end;
    first [apply ends_Ok|idtac];
    auto using sound_done, sound_set_ordinal, sound_ordinal_uleb, sound_symbol, sound_addend,
      sound_segment, sound_add_addr, sound_do_bind, sound_add_addr_uleb, sound_imm_scaled,
      sound_times, sound_table_size, sound_apply.
  - apply sound_type; [lia|done].
  - apply sound_done. eapply sound_reported. reflexivity.
  - apply sound_done. eapply sound_reported. reflexivity.
Qed.

Lemma valid_initial start : valid_state (pass_start start initial_state).
Proof. split; simpl; [by left|done|lia|done]. Qed.

(** One round, from any valid state. *)
Lemma round_valid size b p s t :
  b_p s = b :: p -> valid_state s ->
  bind_round segs segs64 dylibs h swapped object can_allocate size s = Ok t -> sound t.
Proof.
  intros Hp Hv Ht. unfold bind_round in Ht. rewrite Hp in Ht.
  eapply sound_opcode; [| |exact Ht].
  - change BIND_IMMEDIATE_MASK with (Z.ones 4). rewrite Z.land_ones by lia.
    apply Z.mod_pos_bound. lia.
  - intros _. split; [by destruct Hv; split|constructor].
Qed.

Lemma events_valid fuel size s t evs :
  bind_events segs segs64 dylibs h swapped object can_allocate fuel size s = Ok (t, evs) ->
  valid_state s -> b_chain_format t = CHAIN_FORMAT_NONE -> errors evs = [] ->
  Z.of_nat (length (entries evs)) < 2 ^ 30 -> Forall valid_entry (entries evs).
Proof.
  revert s evs. induction fuel as [|f IH]; intros s evs H Hv Hf He Hshort;
    cbn [bind_events] in H; [done|].
  destruct (b_done s || bool_decide (b_p s = [])) eqn:Hstop; [by injection H as <- <-|].
  apply loop_goes_on in Hstop as (b & p & Hp).
  destruct (bind_round segs segs64 dylibs h swapped object can_allocate size s) as [u| |] eqn:Hr;
    simpl in H; try done.
  destruct (bind_events segs segs64 dylibs h swapped object can_allocate f size u)
    as [[v l]| |] eqn:Hl; simpl in H; try done.
  injection H as <- <-. rewrite errors_app in He. apply app_nil in He as [He1 He2].
  rewrite entries_app, length_app in Hshort. rewrite entries_app.
  destruct (round_valid _ _ _ _ _ Hp Hv Hr) as [Hvu Hlu].
  { split; [by eapply events_format in Hl as [? _]|done|lia]. }
  apply Forall_app. split; [done|]. eapply IH; [exact Hl|done|done|done|lia].
Qed.
End valid.

(** ** Properties *)

(** C40: what [checkSegAndOffset] accepts.  With [endInvalid] an offset is
    accepted just when the segment exists and the address, wrapped to 64 bits,
    lies before its end.  For an offset below 2^63 that means inside of the
    segment; but an offset that wraps is accepted as well and leads below it,
    as -1 does in every segment that does not start at 0. *)
Theorem checkSegAndOffset_exact (segs : option (list segment_32))
    (segs64 : option (list segment_64)) (i off : Z) :
  segments_fit segs segs64 -> 0 <= i < 2 ^ 32 -> in_uw 64 off ->
  (checkSegAndOffset segs segs64 i off true = None <->
     exists lo hi, segment_bounds segs segs64 i = Some (lo, hi) /\ u64 (lo + off) < hi) /\
  (off < 2 ^ 63 -> checkSegAndOffset segs segs64 i off true = None ->
     exists lo hi, segment_bounds segs segs64 i = Some (lo, hi) /\
       lo <= u64 (lo + off) < hi /\ u64 (lo + off) = lo + off) /\
  (forall lo hi, segment_bounds segs segs64 i = Some (lo, hi) -> 0 < lo ->
     checkSegAndOffset segs segs64 i (2 ^ 64 - 1) true = None /\ u64 (lo + (2 ^ 64 - 1)) = lo - 1).
Proof.
  intros [Hsome Hfit] Hi Hoff. unfold in_uw in Hoff. split_and!.
  - by apply (checkSegAndOffset_None segs segs64 i off true).
  - intros Hlt Hc. apply (checkSegAndOffset_None segs segs64 i off true) in Hc
      as (lo & hi & Hb & Ha); [|done..]. destruct (Hfit _ _ _ Hb) as [? ?].
    exists lo, hi. rewrite uw_id in * by (unfold in_uw; lia). split_and!; done || lia.
  - intros lo hi Hb Hlo. destruct (Hfit _ _ _ Hb) as [? ?].
    assert (Hw : u64 (lo + (2 ^ 64 - 1)) = lo - 1).
    { unfold uw. replace (lo + (2 ^ 64 - 1)) with (lo - 1 + 1 * 2 ^ 64) by lia.
      rewrite Z.mod_add, Z.mod_small by lia. done. }
    split; [|done]. apply (checkSegAndOffset_None segs segs64 i _ true); [done..|].
    exists lo, hi. rewrite Hw. split; [done|lia].
Qed.

(** C22: the entries of a stream without errors are valid.  If the events of
    a stream that does not use the threaded format contain no error, and
    fewer than 2^30 entries, and the segments end below 2^63, then every entry
    names a segment of the file and has an address before its end, its ordinal
    is accepted by [validateOrdinal] and its dylib is the one of that ordinal,
    and its type is 0 or one of the three of the format: pointer, text abs32
    and text rel32.  (0 is the type while no opcode has set one; it is no error,
    see [entry_without_type].  With 2^30 entries or more the length of a run
    may wrap in [checkCountAndSkip].) *)
Theorem clean_entries_valid (segs : option (list segment_32)) (segs64 : option (list segment_64))
    (dylibs : list string) (h : host) (swapped : bool) (object : list byte)
    (can_allocate : Z -> bool) (start : list byte) (s : bind_state) (evs : list bind_event) :
  segments_fit segs segs64 ->
  stream_events segs segs64 dylibs h swapped object can_allocate start = Ok (s, evs) ->
  b_chain_format s = CHAIN_FORMAT_NONE -> errors evs = [] ->
  Z.of_nat (length (entries evs)) < 2 ^ 30 ->
  Forall (valid_entry segs segs64 dylibs) (entries evs).
Proof. intros Hfit Hev. eapply events_valid; [exact Hfit|exact Hev|apply valid_initial]. Qed.

Lemma demo_segments_fit : segments_fit None (Some [demo_segment]).
Proof.
  split; [by right|]. intros i lo hi. unfold segment_bounds. simpl.
  unfold seg64. simpl. destruct (Z.to_nat i) as [|n]; simpl; [|by destruct n].
  intros [= <- <-]. split; [split|]; vm_compute; congruence.
Qed.

Lemma checkSegAndOffset_exact_witness :
  checkSegAndOffset None (Some [demo_segment]) 0 (2 ^ 64 - 1) true = None /\
  u64 (0x1000 + (2 ^ 64 - 1)) = 0x1000 - 1.
Proof.
  apply (checkSegAndOffset_exact None (Some [demo_segment]) 0 0 demo_segments_fit) with (hi := 0x1100);
    [lia|split; lia|reflexivity|lia].
Defined.

Lemma clean_entries_valid_witness :
  exists l, length l = 4%nat /\ Forall (valid_entry None (Some [demo_segment]) ["libA.dylib"%string]) l.
Proof.
  eexists. split; cycle 1.
  - eapply (clean_entries_valid None (Some [demo_segment]) ["libA.dylib"%string] LE false []
      (fun _ => true) plain_stream _ _ demo_segments_fit);
      [vm_compute; reflexivity|reflexivity|reflexivity|reflexivity].
  - reflexivity.
Defined.

(** A stream that never sets a type: its entry has type 0, for which the
    program prints a name that is not one, and no error is reported. *)
Definition untyped_stream : list byte :=
  opcode_byte BIND_OPCODE_SET_DYLIB_ORDINAL_IMM 1 ++
  opcode_byte BIND_OPCODE_SET_SYMBOL_TRAILING_FLAGS_IMM 0 ++ [x61; x00] ++
  opcode_byte BIND_OPCODE_SET_SEGMENT_AND_OFFSET_ULEB 0 ++ uleb 0 ++
  opcode_byte BIND_OPCODE_DO_BIND 0 ++ opcode_byte BIND_OPCODE_DONE 0.

Lemma entry_without_type :
  exists s evs e,
    stream_events None (Some [demo_segment]) ["libA.dylib"%string] LE false [] (fun _ => true)
      untyped_stream = Ok (s, evs) /\
    errors evs = [] /\ entries evs = [e] /\ bi_bind_type e = 0 /\
    bindTypeName (bi_bind_type e) = "!!Unknown!!"%string.
Proof. do 3 eexists. split; [vm_compute; reflexivity|]. by split_and!. Qed.
