(* ===== verification/CallGraph.v ===== *)
(** * The call graph of gprof: gprof.h, lookup.c, addarc and tally

    The functions of the profiled program are the entries of the array [nl] of
    namelist structures; calls are arc structures, each on the list of the
    children of its caller and on the list of the parents of its callee.

    A pointer to a namelist structure is an address, a [nat]: [nl[i]] has
    address [i], and memory allocated later has the addresses from [nname] on
    (the sentinel after the last function has address [nname] itself).  A
    pointer to an arc is an address in a second store.  A linked list of arcs
    is the list of its addresses; an arc is shared by its two lists, so its
    count is in the store.  The floating-point fields, which carry the times,
    are not modelled. *)

From Stdlib Require Import ZArith Lia Bool Ascii String.
From stdpp Require Import base option numbers functions strings list.
From S2P Require Import Prelude CInt.

Abbreviation nlptr := nat (only parsing).
Abbreviation arcptr := nat (only parsing).

Definition DFN_BUSY : Z := -1.
Definition DFN_NAN : Z := 0.

Record arctype := mk_arctype {
  arc_parentp : nlptr;
  arc_childp : nlptr;
  arc_count : Z;
  arc_order : Z
}.

Record nltype := mk_nltype {
  name : string;
  value : Z;
  order : Z;
  ncall : Z;
  selfcalls : Z;
  toporder : Z;
  cycleno : Z;
  cyclehead : nlptr;
  cnext : option nlptr;
  parents : list arcptr;
  children : list arcptr
}.

Definition set_order v n := mk_nltype (name n) (value n) v (ncall n) (selfcalls n)
  (toporder n) (cycleno n) (cyclehead n) (cnext n) (parents n) (children n).
Definition set_ncall v n := mk_nltype (name n) (value n) (order n) v (selfcalls n)
  (toporder n) (cycleno n) (cyclehead n) (cnext n) (parents n) (children n).
Definition set_selfcalls v n := mk_nltype (name n) (value n) (order n) (ncall n) v
  (toporder n) (cycleno n) (cyclehead n) (cnext n) (parents n) (children n).
Definition set_toporder v n := mk_nltype (name n) (value n) (order n) (ncall n) (selfcalls n)
  v (cycleno n) (cyclehead n) (cnext n) (parents n) (children n).
Definition set_cycleno v n := mk_nltype (name n) (value n) (order n) (ncall n) (selfcalls n)
  (toporder n) v (cyclehead n) (cnext n) (parents n) (children n).
Definition set_cyclehead v n := mk_nltype (name n) (value n) (order n) (ncall n) (selfcalls n)
  (toporder n) (cycleno n) v (cnext n) (parents n) (children n).
Definition set_cnext v n := mk_nltype (name n) (value n) (order n) (ncall n) (selfcalls n)
  (toporder n) (cycleno n) (cyclehead n) v (parents n) (children n).
Definition set_parents v n := mk_nltype (name n) (value n) (order n) (ncall n) (selfcalls n)
  (toporder n) (cycleno n) (cyclehead n) (cnext n) v (children n).
Definition set_children v n := mk_nltype (name n) (value n) (order n) (ncall n) (selfcalls n)
  (toporder n) (cycleno n) (cyclehead n) (cnext n) (parents n) v.

(** Shared texts of libraries, whose arcs are tossed. *)
Record shlib_text_range := mk_shlib_text_range { lowpc : Z; highpc : Z }.

Record callgraph := mk_callgraph {
  nname : nat;
  nl : nlptr -> nltype;
  narcs : nat;
  arcs : arcptr -> arctype
}.

Definition set_nl f g := mk_callgraph (nname g) f (narcs g) (arcs g).

(** [p->field = v] as [upd p (set_field v)]. *)
Definition upd (p : nlptr) (f : nltype -> nltype) (g : callgraph) : callgraph :=
  set_nl (alter f p (nl g)) g.

(** ** lookup.c *)

(** The loop of [nllookup]; [None] when the fuel runs out. *)
Fixpoint nllookup_loop (fuel : nat) (g : callgraph) (address low high : Z) :
    option (option nlptr) :=
  match fuel with
  | O => None
  | S fuel =>
    if low =? high then Some None
    else
      let middle := Z.shiftr (i32 (high + low)) 1 in
      let v i := value (nl g (Z.to_nat i)) in
      if (v middle <=? address) && (address <? v (middle + 1)) then
        Some (Some (Z.to_nat middle))
      else if address <? v middle then nllookup_loop fuel g address low middle
      else nllookup_loop fuel g address (middle + 1) high
  end.

Definition nllookup (g : callgraph) (address : Z) : option nlptr :=
  default None (nllookup_loop (S (nname g)) g address 0 (i32 (Z.of_nat (nname g)))).

Definition arclookup (g : callgraph) (parentp childp : option nlptr) : option arcptr :=
  match parentp, childp with
  | Some parentp, Some childp =>
      list_find (fun a => arc_childp (arcs g a) = childp) (children (nl g parentp))
        ≫= fun r => Some (snd r)
  | _, _ => None
  end.

(** ** arcs.c: addarc *)

Definition add_count (count : Z) (a : arctype) : arctype :=
  mk_arctype (arc_parentp a) (arc_childp a) (u32 (arc_count a + count)) (arc_order a).

(** Allocates an arc and links it in front of both lists. *)
Definition new_arc (parentp childp : nlptr) (count ord : Z) (g : callgraph) : callgraph :=
  let arcp := narcs g in
  let g := mk_callgraph (nname g) (nl g) (S arcp)
    (<[arcp := mk_arctype parentp childp count ord]> (arcs g)) in
  let g := upd parentp (fun n => set_children (arcp :: children n) n) g in
  upd childp (fun n => set_parents (arcp :: parents n) n) g.

Definition addarc (parentp childp : nlptr) (count ord : Z) (g : callgraph) : callgraph :=
  match arclookup g (Some parentp) (Some childp) with
  | Some arcp =>
      mk_callgraph (nname g) (nl g) (narcs g) (alter (add_count count) arcp (arcs g))
  | None => new_arc parentp childp count ord g
  end.

(** ** gprof.c: tally *)

Definition in_range (pc : Z) (r : shlib_text_range) : bool :=
  (lowpc r <=? pc) && (pc <? highpc r).

(** [name[0]] differs from plus and minus. *)
Definition plain_name (n : string) : bool :=
  match n with
  | String c _ => negb (Ascii.eqb c "+") && negb (Ascii.eqb c "-")
  | EmptyString => true
  end.

Definition tossed (ranges : list shlib_text_range) (parent_name : string) (frompc : Z) : bool :=
  plain_name parent_name && negb (Nat.eqb (length ranges) 0) &&
  match find_index (in_range frompc) ranges with Some _ => true | None => false end.

Definition lowest_order (o : Z) (n : nltype) : nltype :=
  if o =? 0 then n
  else if order n =? 0 then set_order o n
  else if o <? order n then set_order o n
  else n.

(** The arcs that cannot be attributed are reported and ignored. *)
Definition tally (ranges : list shlib_text_range) (frompc selfpc count ord : Z)
    (g : callgraph) : callgraph :=
  match nllookup g selfpc, nllookup g frompc with
  | Some childp, Some parentp =>
      if tossed ranges (name (nl g parentp)) frompc then g
      else
        let g := upd childp (fun n => set_ncall (i32 (ncall n + count)) n) g in
        let g := upd childp (lowest_order ord) g in
        addarc parentp childp count ord g
  | _, _ => g
  end.

(** ** gprof.c: readarcs and its variants

    The arcs of a profile file, after they are read. *)

Record rawarc_order := mk_rawarc_order {
  raw_frompc : Z;
  raw_selfpc : Z;
  raw_count : Z;
  raw_order : Z
}.

Definition readarcs_orders (ranges : list shlib_text_range) (l : list rawarc_order)
    (g : callgraph) : callgraph :=
  fold_left (fun g a => tally ranges (raw_frompc a) (raw_selfpc a) (raw_count a) (raw_order a) g) l g.

(** The older format has no orders. *)
Record rawarc := mk_rawarc { ra_frompc : Z; ra_selfpc : Z; ra_count : Z }.

Definition readarcs (ranges : list shlib_text_range) (l : list rawarc)
    (g : callgraph) : callgraph :=
  fold_left (fun g a => tally ranges (ra_frompc a) (ra_selfpc a) (ra_count a) 0 g) l g.
