(* ===== verification/CallGraphSpec.v ===== *)
(** * The call graph: lookup and arcs

    [nllookup] finds the function an address belongs to.  A graph built by
    [tally] is well formed ([wf], the type of the pointer structure: every arc
    is on the two lists it belongs to, and there is one arc for a pair of
    functions), it is a matrix of call counts ([tally_counts]), and the number
    of calls of a function is the sum of the counts of the arcs to it. *)

From Stdlib Require Import ZArith Lia Bool.
From Stdlib Require String.
From stdpp Require Import base option numbers functions strings list sets.
From S2P Require Import Prelude CInt CallGraph.

(** ** nllookup *)

Definition sorted_table (g : callgraph) : Prop :=
  forall i j, (i <= j)%nat -> (j <= nname g)%nat -> value (nl g i) <= value (nl g j).

(** The address lies in function [m]. *)
Definition in_function (g : callgraph) (address : Z) (m : nat) : Prop :=
  (m < nname g)%nat /\ value (nl g m) <= address < value (nl g (S m)).

Lemma nllookup_loop_spec g address fuel : forall low high,
  Z.of_nat (nname g) < 2 ^ 30 -> sorted_table g ->
  0 <= low <= high -> high <= Z.of_nat (nname g) -> high - low < Z.of_nat fuel ->
  (forall m, in_function g address m -> low <= Z.of_nat m < high) ->
  exists r, nllookup_loop fuel g address low high = Some r /\
    (forall m, r = Some m -> in_function g address m) /\
    (forall m, in_function g address m -> r = Some m).
Proof.
  induction fuel as [|fuel IH]; intros low high Hn Hs Hlh Hh Hfuel Hin; [lia|].
  cbn [nllookup_loop]. destruct (Z.eqb_spec low high) as [->|Hne].
  { exists None. split; [done|]. split; [done|]. intros m Hm%Hin. lia. }
  rewrite sw_id by (unfold in_sw; lia). rewrite Z.shiftr_div_pow2 by lia.
  change (2 ^ 1) with 2. set (mid := (high + low) / 2).
  assert (Hmid : low <= mid < high) by (unfold mid; div_lia).
  replace (Z.to_nat (mid + 1)) with (S (Z.to_nat mid)) by lia.
  destruct (Z.leb_spec (value (nl g (Z.to_nat mid))) address) as [H1|H1];
    destruct (Z.ltb_spec address (value (nl g (S (Z.to_nat mid))))) as [H2|H2]; simpl.
  - assert (Hm : in_function g address (Z.to_nat mid)) by (split; lia).
    exists (Some (Z.to_nat mid)). split; [done|]. split; [by intros m [= <-]|].
    intros m [Hm1 Hm2]. f_equal.
    destruct (Nat.lt_trichotomy m (Z.to_nat mid)) as [Hc|[Hc|Hc]]; [|done|].
    + pose proof (Hs (S m) (Z.to_nat mid) ltac:(lia) ltac:(lia)). lia.
    + pose proof (Hs (S (Z.to_nat mid)) m ltac:(lia) ltac:(lia)). lia.
  - rewrite (proj2 (Z.ltb_ge _ _) H1). apply IH; try done; try lia.
    intros m Hm. pose proof (Hin m Hm). destruct Hm as [Hm1 Hm2].
    destruct (Nat.le_gt_cases m (Z.to_nat mid)) as [Hc|Hc]; [|lia].
    pose proof (Hs (S m) (S (Z.to_nat mid)) ltac:(lia) ltac:(lia)). lia.
  - rewrite (proj2 (Z.ltb_lt _ _) H1). apply IH; try done; try lia.
    intros m Hm. pose proof (Hin m Hm). destruct Hm as [Hm1 Hm2].
    destruct (Nat.le_gt_cases (Z.to_nat mid) m) as [Hc|Hc]; [|lia].
    pose proof (Hs (Z.to_nat mid) m ltac:(lia) ltac:(lia)). lia.
  - pose proof (Hs (Z.to_nat mid) (S (Z.to_nat mid)) ltac:(lia) ltac:(lia)). lia.
Qed.

(** In a table sorted by address [nllookup] ends and finds the one
    function whose code the address lies in, and nothing for an address below
    the first or above the last one. *)
Theorem nllookup_correct g address m :
  Z.of_nat (nname g) < 2 ^ 30 -> sorted_table g ->
  nllookup g address = Some m <-> in_function g address m.
Proof.
  intros Hn Hs. unfold nllookup. rewrite sw_id by (unfold in_sw; lia).
  destruct (nllookup_loop_spec g address (S (nname g)) 0 (Z.of_nat (nname g)) Hn Hs)
    as (r & -> & H1 & H2); [lia..| |].
  - intros k [Hk _]. lia.
  - simpl. split; [apply H1|apply H2].
Qed.

(** ** Well-formed graphs *)

Record wf (g : callgraph) : Prop := {
  wf_blank p : (nname g <= p)%nat ->
    toporder (nl g p) = DFN_NAN /\ cyclehead (nl g p) = p /\ cnext (nl g p) = None;
  wf_children x a : a ∈ children (nl g x) <-> (a < narcs g)%nat /\ arc_parentp (arcs g a) = x;
  wf_parents y a : a ∈ parents (nl g y) <-> (a < narcs g)%nat /\ arc_childp (arcs g a) = y;
  wf_nodup_children x : NoDup (children (nl g x));
  wf_nodup_parents y : NoDup (parents (nl g y));
  wf_arc a : (a < narcs g)%nat ->
    (arc_parentp (arcs g a) < nname g)%nat /\ (arc_childp (arcs g a) < nname g)%nat /\
    in_uw 32 (arc_count (arcs g a));
  wf_unique a b : (a < narcs g)%nat -> (b < narcs g)%nat ->
    arc_parentp (arcs g a) = arc_parentp (arcs g b) ->
    arc_childp (arcs g a) = arc_childp (arcs g b) -> a = b
}.

Lemma nl_upd p f g x : nl (upd p f g) x = if decide (p = x) then f (nl g x) else nl g x.
Proof. unfold upd, set_nl; simpl. unfold alter, fn_alter. by case_decide; subst. Qed.

Lemma arclookup_Some g x y a :
  wf g -> arclookup g (Some x) (Some y) = Some a <->
  (a < narcs g)%nat /\ arc_parentp (arcs g a) = x /\ arc_childp (arcs g a) = y.
Proof.
  intros W. unfold arclookup.
  destruct (list_find _ _) as [[i b]|] eqn:Hf; simpl.
  - apply list_find_Some in Hf as (Hb & Hc & _).
    apply list_elem_of_lookup_2, (wf_children _ W) in Hb as [Hb Hp]. split.
    + by intros [= <-].
    + intros (Ha & Hpa & Hca). f_equal. apply (wf_unique _ W); congruence.
  - apply list_find_None in Hf. rewrite Forall_forall in Hf. split; [done|].
    intros (Ha & Hpa & Hca). destruct (Hf a); [|done]. by apply (wf_children _ W).
Qed.

Lemma arclookup_None g x y a :
  wf g -> arclookup g (Some x) (Some y) = None -> (a < narcs g)%nat ->
  arc_parentp (arcs g a) = x -> arc_childp (arcs g a) = y -> False.
Proof.
  intros W Hn Ha Hp Hc.
  assert (arclookup g (Some x) (Some y) = Some a) by by apply arclookup_Some.
  congruence.
Qed.

(** *** A new arc *)

Section new_arc.
Context (p c : nat) (count ord : Z) (g : callgraph).
Let g' := new_arc p c count ord g.

Lemma new_arc_arcs a :
  arcs g' a = if decide (narcs g = a) then mk_arctype p c count ord else arcs g a.
Proof. unfold g', new_arc. simpl. by unfold insert, fn_insert. Qed.

Lemma new_arc_narcs : narcs g' = S (narcs g).
Proof. done. Qed.

Lemma new_arc_children x :
  children (nl g' x) = if decide (p = x) then narcs g :: children (nl g x) else children (nl g x).
Proof.
  unfold g', new_arc. rewrite !nl_upd. by repeat case_decide.
Qed.

Lemma new_arc_parents x :
  parents (nl g' x) = if decide (c = x) then narcs g :: parents (nl g x) else parents (nl g x).
Proof.
  unfold g', new_arc. rewrite !nl_upd. by repeat case_decide.
Qed.

Lemma new_arc_fields x :
  toporder (nl g' x) = toporder (nl g x) /\ cyclehead (nl g' x) = cyclehead (nl g x) /\
  cnext (nl g' x) = cnext (nl g x) /\ ncall (nl g' x) = ncall (nl g x).
Proof.
  unfold g', new_arc. rewrite !nl_upd. by repeat case_decide.
Qed.

Lemma wf_new_arc :
  wf g -> (p < nname g)%nat -> (c < nname g)%nat -> in_uw 32 count ->
  arclookup g (Some p) (Some c) = None -> wf g'.
Proof.
  intros W Hp Hc Hcount Hnone.
  assert (Hold : forall a, (a < S (narcs g))%nat -> a <> narcs g -> (a < narcs g)%nat) by lia.
  split.
  - intros x Hx. destruct (new_arc_fields x) as (-> & -> & -> & _). by apply (wf_blank _ W).
  - intros x a. rewrite new_arc_children, new_arc_arcs, new_arc_narcs.
    pose proof (wf_children _ W x a).
    repeat case_decide; subst; rewrite ?elem_of_cons; simpl; naive_solver lia.
  - intros x a. rewrite new_arc_parents, new_arc_arcs, new_arc_narcs.
    pose proof (wf_parents _ W x a).
    repeat case_decide; subst; rewrite ?elem_of_cons; simpl; naive_solver lia.
  - intros x. rewrite new_arc_children. case_decide; [|apply (wf_nodup_children _ W)].
    apply NoDup_cons. split; [|apply (wf_nodup_children _ W)].
    intros [Hlt _]%(wf_children _ W). lia.
  - intros x. rewrite new_arc_parents. case_decide; [|apply (wf_nodup_parents _ W)].
    apply NoDup_cons. split; [|apply (wf_nodup_parents _ W)].
    intros [Hlt _]%(wf_parents _ W). lia.
  - intros a. rewrite new_arc_narcs, new_arc_arcs. case_decide; [done|].
    intros Ha. apply (wf_arc _ W). by apply Hold.
  - intros a b. rewrite new_arc_narcs, !new_arc_arcs. intros Ha Hb.
    repeat case_decide; subst; simpl; intros Hpar Hch; try done.
    + destruct (arclookup_None g p c b W Hnone); [by apply Hold|done..].
    + destruct (arclookup_None g p c a W Hnone); [by apply Hold|done..].
    + by apply (wf_unique _ W); [apply Hold|apply Hold|..].
Qed.
End new_arc.

Lemma uw_sub_uw w a b c : 0 < w -> uw w (a + (uw w (b + c) - b)) = uw w (a + c).
Proof.
  intros Hw. unfold uw. assert (2 ^ w <> 0) by (pose proof (Z.pow_pos_nonneg 2 w); lia).
  rewrite (Z.mod_eq (b + c)) by done.
  replace (a + (b + c - 2 ^ w * ((b + c) / 2 ^ w) - b)) with
    (a + c + - ((b + c) / 2 ^ w) * 2 ^ w) by ring.
  by apply Z.mod_add.
Qed.

(** ** The matrix of call counts *)

Definition weight (g : callgraph) (x y : nlptr) : Z :=
  match arclookup g (Some x) (Some y) with
  | Some a => arc_count (arcs g a)
  | None => 0
  end.

Definition sum_counts (g : callgraph) (l : list arcptr) : Z :=
  foldr (fun a n => arc_count (arcs g a) + n) 0 l.

(** All the calls to [y]. *)
Definition incoming (g : callgraph) (y : nlptr) : Z := sum_counts g (parents (nl g y)).

Definition conserved (g : callgraph) : Prop := forall y, ncall (nl g y) = i32 (incoming g y).

Lemma sum_counts_ext g g' l :
  (forall a, a ∈ l -> arc_count (arcs g' a) = arc_count (arcs g a)) ->
  sum_counts g' l = sum_counts g l.
Proof.
  induction l as [|a l IH]; intros H; simpl; [done|].
  rewrite H by left. rewrite IH; [done|]. intros; apply H; by right.
Qed.

Definition hit (arcp : arcptr) (count : Z) (g : callgraph) : callgraph :=
  mk_callgraph (nname g) (nl g) (narcs g) (alter (add_count count) arcp (arcs g)).

Lemma hit_arcs arcp count g a :
  arcs (hit arcp count g) a = if decide (arcp = a) then add_count count (arcs g a) else arcs g a.
Proof. unfold hit; simpl. unfold alter, fn_alter. by case_decide; subst. Qed.

Lemma hit_ends arcp count g a :
  arc_parentp (arcs (hit arcp count g) a) = arc_parentp (arcs g a) /\
  arc_childp (arcs (hit arcp count g) a) = arc_childp (arcs g a).
Proof. rewrite hit_arcs. by case_decide. Qed.

Lemma sum_counts_hit arcp count g l :
  NoDup l -> uw 32 (sum_counts (hit arcp count g) l) =
    uw 32 (sum_counts g l + if decide (arcp ∈ l) then count else 0).
Proof.
  intros Hnd. assert (H : sum_counts (hit arcp count g) l = sum_counts g l +
    if decide (arcp ∈ l) then u32 (arc_count (arcs g arcp) + count) - arc_count (arcs g arcp) else 0).
  { induction Hnd as [|a l Ha Hnd IH]; [done|]. cbn [sum_counts foldr].
    fold (sum_counts (hit arcp count g) l) (sum_counts g l).
    rewrite IH, hit_arcs. destruct (decide (arcp = a)) as [->|Hne].
    - rewrite decide_False by done. rewrite decide_True by left. unfold add_count; simpl. lia.
    - rewrite (decide_ext (arcp ∈ a :: l) (arcp ∈ l)) by (rewrite elem_of_cons; naive_solver).
      lia. }
  rewrite H. case_decide; [by apply uw_sub_uw|done].
Qed.

Lemma wf_hit arcp count g : wf g -> wf (hit arcp count g).
Proof.
  intros W. split; try (by apply W).
  - intros x a. rewrite (proj1 (hit_ends arcp count g a)). apply (wf_children _ W).
  - intros x a. rewrite (proj2 (hit_ends arcp count g a)). apply (wf_parents _ W).
  - intros a Ha. destruct (hit_ends arcp count g a) as [-> ->].
    destruct (wf_arc _ W a Ha) as (? & ? & ?). split; [done|]. split; [done|].
    rewrite hit_arcs. case_decide; [|done]. by apply uw_range.
  - intros a b Ha Hb. destruct (hit_ends arcp count g a) as [-> ->].
    destruct (hit_ends arcp count g b) as [-> ->]. by apply (wf_unique _ W).
Qed.

Lemma weight_arc g a :
  wf g -> (a < narcs g)%nat ->
  weight g (arc_parentp (arcs g a)) (arc_childp (arcs g a)) = arc_count (arcs g a).
Proof.
  intros W Ha. unfold weight.
  by rewrite (proj2 (arclookup_Some g _ _ a W)).
Qed.

Lemma weight_range g x y : wf g -> in_uw 32 (weight g x y).
Proof.
  intros W. unfold weight. destruct (arclookup _ _ _) as [a|] eqn:Ha; [|done].
  apply (arclookup_Some _ _ _ _ W) in Ha as (Ha & _). by apply (wf_arc _ W).
Qed.

(** [count] calls from [p] to [c] are added, to the matrix and to the sum of
    the column of [c], and nothing else is. *)
Definition added (g g' : callgraph) (p c : nlptr) (count : Z) : Prop :=
  nname g' = nname g /\ (forall x, ncall (nl g' x) = ncall (nl g x)) /\
  (forall x y, weight g' x y =
    if decide (x = p /\ y = c) then u32 (weight g x y + count) else weight g x y) /\
  (forall y, u32 (incoming g' y) = u32 (incoming g y + if decide (y = c) then count else 0)).

Section addarc.
Context (p c : nlptr) (count ord : Z) (g : callgraph).
Hypotheses (W : wf g) (Hp : (p < nname g)%nat) (Hc : (c < nname g)%nat).
Hypothesis Hcount : in_uw 32 count.

Lemma added_hit a :
  arclookup g (Some p) (Some c) = Some a -> added g (hit a count g) p c count.
Proof.
  intros Ha. unfold added.
  pose proof (wf_hit a count g W) as W'.
  apply (arclookup_Some _ _ _ _ W) in Ha as (Ha & Hpa & Hca).
  split; [done|]. split; [done|]. split.
  - intros x y. unfold weight at 1.
    destruct (arclookup (hit a count g) (Some x) (Some y)) as [b|] eqn:Hb.
    + apply (arclookup_Some _ _ _ _ W') in Hb as (Hb & Hpb & Hcb).
      destruct (hit_ends a count g b) as [Hpe Hce]. rewrite Hpe in Hpb. rewrite Hce in Hcb.
      rewrite <- Hpb, <- Hcb, weight_arc by done. rewrite hit_arcs.
      destruct (decide (a = b)) as [<-|Hab]; [by rewrite decide_True|].
      rewrite decide_False; [done|]. intros [? ?]. apply Hab.
      apply (wf_unique _ W); try done; congruence.
    + assert (Hn : forall b, (b < narcs g)%nat -> ~ (arc_parentp (arcs g b) = x /\ arc_childp (arcs g b) = y)).
      { intros b Hb' [Hpb Hcb]. destruct (hit_ends a count g b) as [Hpe Hce].
        apply (arclookup_None _ x y b W' Hb); [done|congruence..]. }
      rewrite decide_False by (intros [-> ->]; by apply (Hn a Ha)).
      unfold weight. destruct (arclookup g (Some x) (Some y)) as [b|] eqn:Hb'; [|done].
      apply (arclookup_Some _ _ _ _ W) in Hb' as (Hb' & ?). by destruct (Hn b Hb').
  - intros y. unfold incoming. rewrite sum_counts_hit by apply (wf_nodup_parents _ W).
    rewrite (decide_ext (a ∈ parents (nl g y)) (y = c)); [done|].
    rewrite (wf_parents _ W). naive_solver.
Qed.

Lemma added_new :
  arclookup g (Some p) (Some c) = None -> added g (new_arc p c count ord g) p c count.
Proof.
  intros Ha. unfold added.
  pose proof (wf_new_arc p c count ord g W Hp Hc Hcount Ha) as W'.
  split; [done|]. split; [intros x; by apply (new_arc_fields p c count ord g x)|]. split.
  - intros x y. case_decide as Hxy.
    + destruct Hxy as [-> ->]. unfold weight. rewrite Ha.
      rewrite (proj2 (arclookup_Some _ p c (narcs g) W')).
      { rewrite new_arc_arcs, decide_True by done. simpl. by rewrite uw_id. }
      rewrite new_arc_arcs, decide_True, new_arc_narcs by done. simpl. lia.
    + assert (Hlook : arclookup (new_arc p c count ord g) (Some x) (Some y) =
                      arclookup g (Some x) (Some y)).
      { apply option_eq. intros b. rewrite (arclookup_Some _ _ _ _ W), (arclookup_Some _ _ _ _ W').
        rewrite new_arc_narcs, new_arc_arcs. case_decide; simpl; naive_solver lia. }
      unfold weight. rewrite Hlook. destruct (arclookup g (Some x) (Some y)) as [b|] eqn:Hb; [|done].
      apply (arclookup_Some _ _ _ _ W) in Hb as (Hb & _).
      rewrite new_arc_arcs, decide_False by lia. done.
  - intros y. unfold incoming. rewrite new_arc_parents.
    assert (Hold : sum_counts (new_arc p c count ord g) (parents (nl g y)) =
                   sum_counts g (parents (nl g y))).
    { apply sum_counts_ext. intros a [Hlt _]%(wf_parents _ W).
      rewrite new_arc_arcs, decide_False by lia. done. }
    destruct (decide (c = y)) as [->|Hcy].
    + cbn [sum_counts foldr].
      fold (sum_counts (new_arc p y count ord g) (parents (nl g y))).
      rewrite Hold, new_arc_arcs, !decide_True by done. cbn [arc_count]. f_equal. lia.
    + rewrite Hold, decide_False by done. by rewrite Z.add_0_r.
Qed.

Lemma addarc_spec :
  wf (addarc p c count ord g) /\ added g (addarc p c count ord g) p c count.
Proof.
  unfold addarc. destruct (arclookup g (Some p) (Some c)) as [a|] eqn:Ha.
  - split; [by apply wf_hit|by apply added_hit].
  - split; [by apply wf_new_arc|by apply added_new].
Qed.
End addarc.

(** ** tally *)

Lemma nllookup_lt g address m :
  Z.of_nat (nname g) < 2 ^ 30 -> nllookup g address = Some m -> (m < nname g)%nat.
Proof.
  intros Hn. unfold nllookup. rewrite sw_id by (unfold in_sw; lia).
  assert (H : forall fuel low high, 0 <= low <= high -> high <= Z.of_nat (nname g) ->
    nllookup_loop fuel g address low high = Some (Some m) -> (m < nname g)%nat).
  { induction fuel as [|fuel IH]; intros low high Hl Hh; cbn [nllookup_loop]; [done|].
    destruct (Z.eqb_spec low high) as [->|Hne]; [done|].
    rewrite sw_id by (unfold in_sw; lia). rewrite Z.shiftr_div_pow2 by lia.
    change (2 ^ 1) with 2. assert (low <= (high + low) / 2 < high) by div_lia.
    repeat case_match; [intros [= <-]; lia|apply IH; lia|apply IH; lia]. }
  destruct (nllookup_loop _ _ _ _ _) as [[k|]|] eqn:Hloop; simpl; [|done..].
  intros [= ->]. eapply H; [..|exact Hloop]; lia.
Qed.

(** The calls from [x] to [y] an arc of a profile stands for. *)
Definition attributed (g : callgraph) (ranges : list shlib_text_range) (frompc selfpc : Z) :
    option (nlptr * nlptr) :=
  match nllookup g selfpc, nllookup g frompc with
  | Some y, Some x => if tossed ranges (name (nl g x)) frompc then None else Some (x, y)
  | _, _ => None
  end.

(** What identifies the functions is never changed. *)
Definition same_table (g g' : callgraph) : Prop :=
  nname g' = nname g /\ (forall p, value (nl g' p) = value (nl g p)) /\
  (forall p, name (nl g' p) = name (nl g p)).

Lemma same_table_nllookup g g' address :
  same_table g g' -> nllookup g' address = nllookup g address.
Proof.
  intros (Hn & Hv & _). unfold nllookup. rewrite Hn. generalize (S (nname g)). intros n.
  generalize 0 (i32 (Z.of_nat (nname g))). induction n as [|n IH]; intros low high; simpl; [done|].
  rewrite !Hv. repeat case_match; try done; apply IH.
Qed.

Lemma same_table_attributed g g' ranges frompc selfpc :
  same_table g g' -> attributed g' ranges frompc selfpc = attributed g ranges frompc selfpc.
Proof.
  intros Ht. unfold attributed. rewrite !(same_table_nllookup g g') by done.
  destruct Ht as (_ & _ & Hname).
  destruct (nllookup g selfpc); [|done]. destruct (nllookup g frompc); [|done]. by rewrite Hname.
Qed.

Lemma same_table_upd p f g :
  (forall n, value (f n) = value n) -> (forall n, name (f n) = name n) -> same_table g (upd p f g).
Proof.
  intros Hv Hn. split; [done|]. split; intros x; rewrite nl_upd; case_decide; auto.
Qed.

Lemma same_table_trans g1 g2 g3 : same_table g1 g2 -> same_table g2 g3 -> same_table g1 g3.
Proof.
  intros (H1 & H2 & H3) (K1 & K2 & K3). split; [congruence|].
  split; intros p; congruence.
Qed.

Lemma same_table_addarc p c count ord g : same_table g (addarc p c count ord g).
Proof.
  unfold addarc. case_match; [done|]. unfold new_arc.
  eapply same_table_trans; [|by apply same_table_upd].
  eapply same_table_trans; [|by apply same_table_upd]. done.
Qed.

(** Updates of the node fields that the pointer structure does not use. *)
Lemma upd_plain p f g :
  (forall n, toporder (f n) = toporder n /\ cyclehead (f n) = cyclehead n /\ cnext (f n) = cnext n /\
             children (f n) = children n /\ parents (f n) = parents n) ->
  wf g -> wf (upd p f g) /\ (forall x y, weight (upd p f g) x y = weight g x y) /\
  (forall y, incoming (upd p f g) y = incoming g y).
Proof.
  intros Hf W.
  assert (Hx : forall x, toporder (nl (upd p f g) x) = toporder (nl g x) /\
    cyclehead (nl (upd p f g) x) = cyclehead (nl g x) /\ cnext (nl (upd p f g) x) = cnext (nl g x) /\
    children (nl (upd p f g) x) = children (nl g x) /\ parents (nl (upd p f g) x) = parents (nl g x)).
  { intros x. rewrite nl_upd. case_decide; [apply Hf|done]. }
  split; [|split].
  - split; try (by apply W).
    + intros x Hxn. destruct (Hx x) as (-> & -> & -> & _). by apply (wf_blank _ W).
    + intros x a. destruct (Hx x) as (_ & _ & _ & -> & _). apply (wf_children _ W).
    + intros x a. destruct (Hx x) as (_ & _ & _ & _ & ->). apply (wf_parents _ W).
    + intros x. destruct (Hx x) as (_ & _ & _ & -> & _). apply (wf_nodup_children _ W).
    + intros x. destruct (Hx x) as (_ & _ & _ & _ & ->). apply (wf_nodup_parents _ W).
  - intros x y. unfold weight, arclookup. by destruct (Hx x) as (_ & _ & _ & -> & _).
  - intros y. unfold incoming. by destruct (Hx y) as (_ & _ & _ & _ & ->).
Qed.

Definition tally_in (ranges : list shlib_text_range) (g : callgraph) (a : rawarc_order) :=
  tally ranges (raw_frompc a) (raw_selfpc a) (raw_count a) (raw_order a) g.

Lemma lowest_order_plain o n :
  ncall (lowest_order o n) = ncall n /\ value (lowest_order o n) = value n /\
  name (lowest_order o n) = name n /\ toporder (lowest_order o n) = toporder n /\
  cyclehead (lowest_order o n) = cyclehead n /\ cnext (lowest_order o n) = cnext n /\
  children (lowest_order o n) = children n /\ parents (lowest_order o n) = parents n.
Proof. unfold lowest_order. by repeat case_match. Qed.

(** [tally] as one step on the matrix. *)
Lemma tally_step ranges frompc selfpc count ord g :
  wf g -> conserved g -> Z.of_nat (nname g) < 2 ^ 30 -> in_uw 32 count ->
  let g' := tally ranges frompc selfpc count ord g in
  wf g' /\ conserved g' /\ same_table g g' /\
  forall x y, weight g' x y =
    if decide (attributed g ranges frompc selfpc = Some (x, y)) then u32 (weight g x y + count)
    else weight g x y.
Proof.
  intros W C Hn Hcount. cbv zeta. unfold tally, attributed.
  destruct (nllookup g selfpc) as [c|] eqn:Hc; [|done].
  destruct (nllookup g frompc) as [p|] eqn:Hp; [|done].
  apply nllookup_lt in Hc; [|done]. apply nllookup_lt in Hp; [|done].
  destruct (tossed _ _ _); [done|].
  set (g1 := upd c (fun n => set_ncall (i32 (ncall n + count)) n) g).
  set (g2 := upd c (lowest_order ord) g1).
  destruct (upd_plain c (fun n => set_ncall (i32 (ncall n + count)) n) g) as (W1 & Hw1 & Hi1);
    [done|done|]. fold g1 in W1, Hw1, Hi1.
  destruct (upd_plain c (lowest_order ord) g1) as (W2 & Hw2 & Hi2);
    [intros n; by apply lowest_order_plain|done|]. fold g2 in W2, Hw2, Hi2.
  destruct (addarc_spec p c count ord g2 W2) as (W3 & Hn3 & Hcall & Hw3 & Hi3); [done..|].
  assert (Ht : same_table g (addarc p c count ord g2)).
  { eapply same_table_trans; [by apply (same_table_upd c (fun n => set_ncall (i32 (ncall n + count)) n) g)|].
    eapply same_table_trans; [|apply same_table_addarc].
    apply (same_table_upd c (lowest_order ord)); intros n; apply lowest_order_plain. }
  split; [done|]. split; [|split; [done|]].
  - intros y. rewrite Hcall. rewrite (sw_cong 32 _ _ eq_refl (Hi3 y)), Hi2, Hi1.
    unfold g2, g1. rewrite !nl_upd. case_decide as Hcy.
    + subst y. rewrite !decide_True by done. rewrite (proj1 (lowest_order_plain _ _)).
      cbn [ncall set_ncall]. rewrite (C c). apply sw_cong; [done|].
      unfold uw. rewrite <- Z.add_mod_idemp_l by done. fold (uw 32 (i32 (incoming g c))).
      rewrite uw_sw by done. unfold uw. by rewrite Z.add_mod_idemp_l by done.
    + rewrite decide_False by done. by rewrite Z.add_0_r, (C y).
  - intros x y. rewrite Hw3, Hw2, Hw1. apply decide_ext. naive_solver.
Qed.

(** ** Reading the arcs of a profile *)

(** A table of functions before any arc is read. *)
Definition no_arcs (g : callgraph) : Prop :=
  narcs g = O /\ forall p, children (nl g p) = [] /\ parents (nl g p) = [] /\ ncall (nl g p) = 0 /\
    toporder (nl g p) = DFN_NAN /\ cyclehead (nl g p) = p /\ cnext (nl g p) = None.

Lemma no_arcs_wf g : no_arcs g -> wf g /\ conserved g /\ forall x y, weight g x y = 0.
Proof.
  intros [Hn Hp]. split; [|split].
  - split.
    + intros p _. by destruct (Hp p) as (_ & _ & _ & ?).
    + intros x a. destruct (Hp x) as (-> & _). rewrite Hn. split; [by intros ?%elem_of_nil|lia].
    + intros x a. destruct (Hp x) as (_ & -> & _). rewrite Hn. split; [by intros ?%elem_of_nil|lia].
    + intros x. destruct (Hp x) as (-> & _). constructor.
    + intros x. destruct (Hp x) as (_ & -> & _). constructor.
    + lia.
    + lia.
  - intros y. unfold incoming. by destruct (Hp y) as (_ & -> & -> & _).
  - intros x y. unfold weight, arclookup. by destruct (Hp x) as (-> & _).
Qed.

(** The sum of the counts of the arcs of a profile attributed to a pair. *)
Definition total (g : callgraph) (ranges : list shlib_text_range) (l : list rawarc_order)
    (x y : nlptr) : Z :=
  foldr (fun a n => (if decide (attributed g ranges (raw_frompc a) (raw_selfpc a) = Some (x, y))
    then raw_count a else 0) + n) 0 l.

Lemma tally_all ranges l : forall g g0,
  wf g -> conserved g -> same_table g0 g -> Z.of_nat (nname g0) < 2 ^ 30 ->
  Forall (fun a => in_uw 32 (raw_count a)) l ->
  let g' := readarcs_orders ranges l g in
  wf g' /\ conserved g' /\ same_table g0 g' /\
  forall x y, weight g' x y = u32 (weight g x y + total g0 ranges l x y).
Proof.
  induction l as [|a l IH]; intros g g0 W C Ht Hn Hl; cbv zeta; simpl.
  { do 3 (split; [done|]). intros x y. rewrite Z.add_0_r, uw_id; [done|]. by apply weight_range. }
  apply Forall_cons in Hl as [Ha Hl]. pose proof Ht as (Hnn & _).
  destruct (tally_step ranges (raw_frompc a) (raw_selfpc a) (raw_count a) (raw_order a) g W C)
    as (W1 & C1 & Ht1 & Hw1); [by rewrite Hnn|done|].
  destruct (IH _ g0 W1 C1 (same_table_trans _ _ _ Ht Ht1) Hn Hl) as (W2 & C2 & Ht2 & Hw2).
  do 3 (split; [done|]). intros x y. rewrite Hw2, Hw1.
  rewrite (same_table_attributed g0 g) by done. case_decide; [|done].
  unfold uw. rewrite Z.add_mod_idemp_l by done. f_equal. lia.
Qed.

(** C30: the graph of a profile is well formed: from a table of functions
    without arcs, whatever arcs the profile has, every arc is on the lists of
    both its ends, a pair of functions has one arc at most, the lists are
    disjoint, and a function's number of calls is the sum of the counts of the
    arcs to it, in 32 bits. *)
Theorem profile_graph_wf ranges l g :
  no_arcs g -> Z.of_nat (nname g) < 2 ^ 30 -> Forall (fun a => in_uw 32 (raw_count a)) l ->
  wf (readarcs_orders ranges l g) /\ conserved (readarcs_orders ranges l g) /\
  same_table g (readarcs_orders ranges l g).
Proof.
  intros Hg Hn Hl. destruct (no_arcs_wf g Hg) as (W & C & _).
  destruct (tally_all ranges l g g W C) as (? & ? & ? & _); done.
Qed.

(** C26: reading a profile computes the matrix of calls: the count of the arc
    between two functions is the sum, in 32 bits, of the counts of the arcs of
    the profile whose addresses lie in them and that are not tossed, and there
    is no arc where the profile has none. *)
Theorem readarcs_counts ranges l g x y :
  no_arcs g -> Z.of_nat (nname g) < 2 ^ 30 -> Forall (fun a => in_uw 32 (raw_count a)) l ->
  match arclookup (readarcs_orders ranges l g) (Some x) (Some y) with
  | Some a => arc_count (arcs (readarcs_orders ranges l g) a) = u32 (total g ranges l x y)
  | None => u32 (total g ranges l x y) = 0
  end.
Proof.
  intros Hg Hn Hl. destruct (no_arcs_wf g Hg) as (W & C & Hw).
  destruct (tally_all ranges l g g W C) as (_ & _ & _ & H); [done..|].
  specialize (H x y). rewrite Hw, Z.add_0_l in H. unfold weight in H.
  by destruct (arclookup _ _ _).
Qed.

(** *** A small profile *)

(** Seven functions of 16 bytes. *)
Definition small_table : callgraph :=
  mk_callgraph 7 (fun p => mk_nltype EmptyString (Z.of_nat p * 16) 0 0 0 0 0 p None [] [])
    0 (fun _ => mk_arctype 0 0 0 0).

(** A call from one function to another, three times each. *)
Definition small_arc (xy : nat * nat) : rawarc_order :=
  mk_rawarc_order (Z.of_nat (fst xy) * 16 + 3) (Z.of_nat (snd xy) * 16) 3 1.

Definition small_arcs : list rawarc_order :=
  map small_arc [(0, 1); (1, 2); (2, 3); (3, 2); (3, 1); (3, 4); (4, 5); (5, 5); (0, 5); (6, 0); (1, 2)]%nat.

Definition small_profile : callgraph := readarcs_orders [] small_arcs small_table.

Lemma small_table_no_arcs : no_arcs small_table.
Proof. by split. Qed.

Lemma small_arcs_range : Forall (fun a => in_uw 32 (raw_count a)) small_arcs.
Proof. apply Forall_fmap, Forall_true. intros xy. unfold in_uw; simpl. lia. Qed.

Lemma small_profile_wf : wf small_profile /\ conserved small_profile.
Proof.
  destruct (no_arcs_wf _ small_table_no_arcs) as (W & C & _).
  destruct (tally_all [] small_arcs small_table small_table W C) as (? & ? & _);
    [done..|apply small_arcs_range|done].
Qed.

Lemma nllookup_correct_witness :
  nllookup small_table 37 = Some 2%nat /\ in_function small_table 37 2.
Proof.
  assert (H : nllookup small_table 37 = Some 2%nat) by (vm_compute; reflexivity).
  split; [exact H|]. apply (nllookup_correct small_table 37 2); [done| |exact H].
  intros i j Hij _. simpl. lia.
Defined.

Lemma profile_graph_wf_witness :
  wf (readarcs_orders [] small_arcs small_table) /\
  map (fun p => ncall (nl (readarcs_orders [] small_arcs small_table) p)) (seq 0 7) =
    [3; 6; 9; 3; 3; 9; 0].
Proof.
  split; [|vm_compute; reflexivity].
  apply (profile_graph_wf [] small_arcs small_table);
    [exact small_table_no_arcs|done|exact small_arcs_range].
Defined.

Lemma readarcs_counts_witness :
  total small_table [] small_arcs 1 2 = 6 /\
  match arclookup small_profile (Some 1%nat) (Some 2%nat) with
  | Some a => arc_count (arcs small_profile a) = u32 (total small_table [] small_arcs 1 2)
  | None => u32 (total small_table [] small_arcs 1 2) = 0
  end.
Proof.
  split; [vm_compute; reflexivity|].
  apply (readarcs_counts [] small_arcs small_table 1 2);
    [exact small_table_no_arcs|done|exact small_arcs_range].
Defined.
