(* ===== verification/Dfn.v ===== *)
(** * gprof/dfn.c: numbering the call graph depth first

    [dfn] numbers the functions so that a callee has a smaller number than its
    callers, and collects the functions of a cycle on the chain of [cnext]
    pointers of the cycle's head.  One definition per function of the source.

    [dfn_stack] holds the [nlentryp] of the entries 1 to [dfn_depth] of the
    source's array, the entry at [dfn_depth] first, so that [dfn_depth] is the
    length of the list; the field [cycletop] of the entries is never read.
    Calls of [exit] and [fatal] are values of [outcome], and a message on
    stderr that does not end the program is counted. *)

From Stdlib Require Import ZArith Lia Bool.
From stdpp Require Import base option numbers functions list.
From S2P Require Import Prelude CInt CallGraph.

Inductive outcome (A : Type) : Type :=
| Done (a : A)
| Out_of_my_depth
| No_cycle_head
| Out_of_fuel.
Arguments Done {A} a.
Arguments Out_of_my_depth {A}.
Arguments No_cycle_head {A}.
Arguments Out_of_fuel {A}.

#[export] Instance outcome_ret : MRet outcome := fun A a => Done a.
#[export] Instance outcome_bind : MBind outcome := fun A B f o =>
  match o with
  | Done a => f a
  | Out_of_my_depth => Out_of_my_depth
  | No_cycle_head => No_cycle_head
  | Out_of_fuel => Out_of_fuel
  end.

(** [for(...) f(x)] over the elements of a list. *)
Fixpoint foreach {A S} (f : A -> S -> outcome S) (l : list A) (s : S) : outcome S :=
  match l with
  | [] => Done s
  | x :: l => s ← f x s; foreach f l s
  end.

Definition DFN_DEPTH : nat := 1000.

Record dfnstate := mk_dfnstate {
  graph : callgraph;
  dfn_stack : list nlptr;
  dfn_counter : Z;
  dfn_messages : nat
}.

Definition dfn_depth (s : dfnstate) : nat := length (dfn_stack s).

(** The entry of a pointer. *)
Definition at_ (s : dfnstate) (p : nlptr) : nltype := nl (graph s) p.

Definition update (p : nlptr) (f : nltype -> nltype) (s : dfnstate) : dfnstate :=
  mk_dfnstate (upd p f (graph s)) (dfn_stack s) (dfn_counter s) (dfn_messages s).

Definition message (s : dfnstate) : dfnstate :=
  mk_dfnstate (graph s) (dfn_stack s) (dfn_counter s) (S (dfn_messages s)).

Definition dfn_pre_visit (parentp : nlptr) (s : dfnstate) : outcome dfnstate :=
  if (DFN_DEPTH <=? S (dfn_depth s))%nat then Out_of_my_depth
  else
    let s := mk_dfnstate (graph s) (parentp :: dfn_stack s) (dfn_counter s) (dfn_messages s) in
    Done (update parentp (set_toporder DFN_BUSY) s).

Definition dfn_numbered (childp : nlptr) (s : dfnstate) : bool :=
  negb (toporder (at_ s childp) =? DFN_NAN) && negb (toporder (at_ s childp) =? DFN_BUSY).

Definition dfn_busy (childp : nlptr) (s : dfnstate) : bool :=
  negb (toporder (at_ s childp) =? DFN_NAN).

(** The test of the search for the top of the cycle. *)
Definition is_cycletop (childp : nlptr) (s : dfnstate) (cycleheadp : nlptr) : bool :=
  Nat.eqb childp cycleheadp ||
  (negb (Nat.eqb (cyclehead (at_ s childp)) childp) &&
   Nat.eqb (cyclehead (at_ s childp)) cycleheadp).

(** Searches the entries from the top of the stack: the entries above
    [cycletop], from the top, and the entry at [cycletop]. *)
Fixpoint find_cycletop (childp : nlptr) (s : dfnstate) (stack above : list nlptr) :
    option (list nlptr * nlptr) :=
  match stack with
  | [] => None
  | cycleheadp :: stack =>
    if is_cycletop childp s cycleheadp then Some (above, cycleheadp)
    else find_cycletop childp s stack (cycleheadp :: above)
  end.

(** [for(tailp = p; tailp->cnext; tailp = tailp->cnext) body(tailp)]: the tail
    and the state after the loop. *)
Fixpoint chase (fuel : nat) (body : nlptr -> dfnstate -> dfnstate) (tailp : nlptr)
    (s : dfnstate) : outcome (nlptr * dfnstate) :=
  match cnext (at_ s tailp) with
  | None => Done (tailp, s)
  | Some next =>
    match fuel with
    | O => Out_of_fuel
    | S fuel => chase fuel body next (body next s)
    end
  end.

Definition chain_fuel (s : dfnstate) : nat := nname (graph s).

(** One round of the loop that gloms the entries above the top of the cycle. *)
Definition glom (cycleheadp childp : nlptr) (ts : nlptr * dfnstate) :
    outcome (nlptr * dfnstate) :=
  let (tailp, s) := ts in
  if Nat.eqb (cyclehead (at_ s childp)) childp then
    let s := update tailp (set_cnext (Some childp)) s in
    let s := update childp (set_cyclehead cycleheadp) s in
    chase (chain_fuel s) (fun next => update next (set_cyclehead cycleheadp)) childp s
  else if Nat.eqb (cyclehead (at_ s childp)) cycleheadp then Done (tailp, s)
  else Done (tailp, message s).

Definition dfn_self_cycle (parentp : nlptr) (s : dfnstate) : dfnstate := s.

Definition dfn_findcycle (childp : nlptr) (s : dfnstate) : outcome dfnstate :=
  match find_cycletop childp s (dfn_stack s) [] with
  | None => No_cycle_head
  | Some ([], _) => Done (dfn_self_cycle childp s)
  | Some (above, cycleheadp) =>
      r ← chase (chain_fuel s) (fun _ s => s) cycleheadp s;
      let cycleheadp :=
        if Nat.eqb (cyclehead (at_ s cycleheadp)) cycleheadp then cycleheadp
        else cyclehead (at_ s cycleheadp) in
      r ← foreach (glom cycleheadp) above r;
      Done (snd r)
  end.

(** [for(memberp = p; memberp; memberp = memberp->cnext) body(memberp)] *)
Definition for_chain (body : nlptr -> dfnstate -> dfnstate) (p : nlptr) (s : dfnstate) :
    outcome dfnstate :=
  r ← chase (chain_fuel s) body p (body p s);
  Done (snd r).

Definition number_chain (parentp : nlptr) (s : dfnstate) : outcome dfnstate :=
  for_chain (fun p s => update p (set_toporder (dfn_counter s)) s) parentp s.

Definition pop (s : dfnstate) : dfnstate :=
  mk_dfnstate (graph s) (tail (dfn_stack s)) (dfn_counter s) (dfn_messages s).

Definition dfn_post_visit (parentp : nlptr) (s : dfnstate) : outcome dfnstate :=
  if Nat.eqb (cyclehead (at_ s parentp)) parentp then
    let s := mk_dfnstate (graph s) (dfn_stack s) (dfn_counter s + 1) (dfn_messages s) in
    s ← number_chain parentp s;
    Done (pop s)
  else Done (pop s).

Fixpoint dfn (fuel : nat) (parentp : nlptr) (s : dfnstate) : outcome dfnstate :=
  match fuel with
  | O => Out_of_fuel
  | S fuel =>
    if dfn_numbered parentp s then Done s
    else if dfn_busy parentp s then dfn_findcycle parentp s
    else
      s ← dfn_pre_visit parentp s;
      s ← foreach (fun arcp s => dfn fuel (arc_childp (arcs (graph s) arcp)) s)
            (children (at_ s parentp)) s;
      dfn_post_visit parentp s
  end.

(** Each nested call that goes on has pushed an entry. *)
Definition dfn_fuel : nat := DFN_DEPTH.
