(* ===== verification/DfnClasses.v ===== *)
(** * The cycles of gprof/dfn.c as a partition of the functions

    At every moment the [cyclehead] pointers divide the functions into
    classes, and the chain of [cnext] pointers of a head visits its class once
    ([classes]).  The rounds of [dfn_findcycle] join two classes ([glom_joins])
    and leave everything else alone. *)

From Stdlib Require Import ZArith Lia Bool.
From stdpp Require Import base option numbers functions list sets.
From S2P Require Import Prelude CInt CallGraph Dfn.

(** ** Views of the state *)

Definition top (s : dfnstate) (p : nlptr) : Z := toporder (at_ s p).
Definition head (s : dfnstate) (p : nlptr) : nlptr := cyclehead (at_ s p).
Definition next (s : dfnstate) (p : nlptr) : option nlptr := cnext (at_ s p).

Lemma at_update p f s x :
  at_ (update p f s) x = if decide (p = x) then f (at_ s x) else at_ s x.
Proof.
  unfold at_, update, upd, set_nl; simpl. unfold alter, fn_alter.
  by case_decide; subst.
Qed.

(** The fields that dfn.c does not write. *)
Definition rest (n : nltype) :=
  (name n, value n, order n, ncall n, selfcalls n, cycleno n, parents n, children n).

(** Everything [dfn_findcycle] must leave alone: what is not a cycle. *)
Record same_frame (s s' : dfnstate) : Prop := {
  sf_stack : dfn_stack s' = dfn_stack s;
  sf_counter : dfn_counter s' = dfn_counter s;
  sf_messages : dfn_messages s' = dfn_messages s;
  sf_nname : nname (graph s') = nname (graph s);
  sf_arcs : arcs (graph s') = arcs (graph s);
  sf_rest : forall p, rest (at_ s' p) = rest (at_ s p)
}.

#[export] Instance same_frame_refl : Reflexive same_frame.
Proof. done. Qed.

#[export] Instance same_frame_trans : Transitive same_frame.
Proof. intros s1 s2 s3 [] []; split; intros; etransitivity; eauto. Qed.

Lemma same_frame_update p f s :
  (forall n, rest (f n) = rest n) -> same_frame s (update p f s).
Proof.
  intros Hf. split; try done. intros x. rewrite at_update. by case_decide; rewrite ?Hf.
Qed.

(** ** Chains of [cnext] pointers *)

Inductive chain (nx : nlptr -> option nlptr) : nlptr -> list nlptr -> Prop :=
| chain_last p : nx p = None -> chain nx p [p]
| chain_step p q l : nx p = Some q -> chain nx q l -> chain nx p (p :: l).

Section chains.
Context (nx : nlptr -> option nlptr).

Lemma chain_head p l : chain nx p l -> exists l', l = p :: l'.
Proof. destruct 1; eauto. Qed.

Lemma chain_suffix p l x :
  chain nx p l -> x ∈ l -> exists l1 l2, l = l1 ++ l2 /\ chain nx x l2.
Proof.
  induction 1 as [p Hp|p q l Hp Hc IH]; intros Hx.
  - apply list_elem_of_singleton in Hx as ->. exists [], [p]. by split; [|constructor].
  - apply elem_of_cons in Hx as [->|Hx].
    + exists [], (p :: l). by split; [|econstructor].
    + destruct (IH Hx) as (l1 & l2 & -> & Hl2). by exists (p :: l1), l2.
Qed.

Lemma chain_tail p l : chain nx p l -> exists t, last l = Some t /\ nx t = None.
Proof.
  induction 1 as [p Hp|p q l Hp Hc (t & Ht & Hn)]; [by exists p|].
  exists t. split; [|done]. by rewrite last_cons, Ht.
Qed.

Lemma chain_ext nx' p l :
  (forall x, x ∈ l -> nx' x = nx x) -> chain nx p l -> chain nx' p l.
Proof.
  intros Hx H. revert Hx. induction H as [p Hp|p q l Hp Hc IH]; intros Hx.
  - constructor. rewrite Hx; [done|left].
  - econstructor; [rewrite Hx; [done|left]|]. apply IH. intros; apply Hx; by right.
Qed.

(** Setting the last pointer of a chain links another one behind it. *)
Lemma chain_link nx' p l t q l' :
  chain nx p l -> NoDup l -> last l = Some t -> chain nx' q l' -> nx' t = Some q ->
  (forall x, x ∈ l -> x <> t -> nx' x = nx x) -> chain nx' p (l ++ l').
Proof.
  intros H Hnd Ht Hq Hlink. revert Hnd Ht.
  induction H as [p Hp|p r l Hp Hc IH]; intros Hnd Ht Hsame; simpl in *.
  - injection Ht as ->. by econstructor.
  - destruct (chain_head _ _ Hc) as [l0 ->].
    apply NoDup_cons in Hnd as [Hpl Hnd]. rewrite last_cons_cons in Ht.
    econstructor; [|apply IH; [done..|]].
    + rewrite Hsame; [done|by left|]. intros ->. apply Hpl. by apply last_Some_elem_of.
    + intros x Hx Hne. apply Hsame; [by right|done].
Qed.
End chains.

(** The loop along a chain. *)
Lemma chase_chain body fuel s p l t :
  (forall q s x, next (body q s) x = next s x) ->
  chain (next s) p l -> last l = Some t -> (length l <= S fuel)%nat ->
  chase fuel body p s = Done (t, foldl (fun s q => body q s) s (List.tl l)).
Proof.
  intros Hbody Hc Ht Hlen. remember (next s) as nx eqn:Hnx.
  assert (Hext : forall x, x ∈ l -> next s x = nx x) by (by intros; subst). clear Hnx.
  revert fuel s Ht Hlen Hext.
  induction Hc as [p Hp|p q l Hp Hc IH]; intros fuel s Ht Hlen Hext.
  - injection Ht as ->. rewrite <- Hext in Hp by left. unfold next in Hp.
    destruct fuel; simpl; by rewrite Hp.
  - destruct (chain_head _ _ _ Hc) as [l' ->]. simpl in Hlen.
    destruct fuel as [|fuel]; [lia|].
    rewrite <- Hext in Hp by left. unfold next in Hp. simpl chase. rewrite Hp.
    rewrite last_cons_cons in Ht. rewrite (IH fuel (body q s)); [done|done|simpl; lia|].
    intros x Hx. rewrite Hbody. apply Hext. by right.
Qed.

Lemma for_chain_run body s p l :
  (forall q s x, next (body q s) x = next s x) ->
  chain (next s) p l -> (length l <= S (nname (graph s)))%nat ->
  for_chain body p s = Done (foldl (fun a q => body q a) s l).
Proof.
  intros Hb Hc Hlen. destruct (chain_head _ _ _ Hc) as [l' ->].
  destruct (chain_tail _ _ _ Hc) as (t & Ht & _). unfold for_chain, chain_fuel.
  rewrite (chase_chain body _ (body p s) p (p :: l') t); [done|done| |done|done].
  eapply chain_ext; [|exact Hc]. intros x _. apply Hb.
Qed.

(** A run of updates of one field along a list. *)
Lemma foldl_update_at f (l : list nlptr) s x :
  (forall n, f (f n) = f n) ->
  at_ (foldl (fun s q => update q f s) s l) x = if decide (x ∈ l) then f (at_ s x) else at_ s x.
Proof.
  intros Hf. revert s. induction l as [|q l IH]; intros s; simpl; [done|].
  rewrite IH, at_update. destruct (decide (q = x)) as [->|Hq].
  - rewrite (decide_True (P := x ∈ x :: l)) by left. by case_decide; rewrite ?Hf.
  - rewrite (decide_ext (x ∈ q :: l) (x ∈ l)); [done|]. rewrite elem_of_cons. naive_solver.
Qed.

Lemma foldl_update_frame f (l : list nlptr) s :
  (forall n, rest (f n) = rest n) ->
  same_frame s (foldl (fun s q => update q f s) s l).
Proof.
  intros Hf. revert s. induction l as [|q l IH]; intros s; simpl; [done|].
  etransitivity; [|apply IH]. by apply same_frame_update.
Qed.

Lemma chain_det nx p l1 l2 : chain nx p l1 -> chain nx p l2 -> l1 = l2.
Proof.
  intros H. revert l2. induction H as [p Hp|p q l Hp Hc IH]; intros l2 H2.
  - inversion H2; congruence.
  - inversion H2 as [|? q' l' Hq']; [congruence|].
    replace q' with q in * by congruence. f_equal. by apply IH.
Qed.

(** ** The partition *)

Definition class_of (s : dfnstate) (h : nlptr) (l : list nlptr) : Prop :=
  chain (next s) h l /\ NoDup l /\ forall y, y ∈ l <-> head s y = h.

Record classes (s : dfnstate) : Prop := {
  head_idem : forall x, head s (head s x) = head s x;
  head_class : forall h, head s h = h -> exists l, class_of s h l
}.

(** The loops along chains have fuel enough when no class is larger than the
    table of functions. *)
Definition small_classes (s : dfnstate) : Prop :=
  forall h l, class_of s h l -> (length l <= S (nname (graph s)))%nat.

Section joins.
Context (s : dfnstate) (H x t : nlptr) (l : list nlptr).
Hypotheses (Hcl : classes s) (Hsmall : small_classes s).
Hypotheses (HH : head s H = H) (HxH : x <> H).
Hypotheses (Hc : chain (next s) H l) (Ht : last l = Some t).

(** What is linked behind the tail: the class of [x]. *)
Lemma glom_effect lx :
  class_of s x lx -> head s x = x ->
  exists t' s', last lx = Some t' /\ glom H x (t, s) = Done (t', s') /\ same_frame s s' /\
  (forall y, top s' y = top s y) /\
  (forall y, head s' y = if decide (head s y = x) then H else head s y) /\
  (forall y, next s' y = if decide (t = y) then Some x else next s y).
Proof.
  intros (Hcx & Hndx & Hlx) Hhx.
  destruct (chain_tail _ _ _ Hcx) as (t' & Ht' & _).
  destruct (chain_head _ _ _ Hcx) as [lx' ->].
  set (s1 := update x (set_cyclehead H) (update t (set_cnext (Some x)) s)).
  set (s2 := foldl (fun s q => update q (set_cyclehead H) s) s1 lx').
  assert (Htl : t ∈ l) by by apply last_Some_elem_of.
  destruct (head_class s Hcl H HH) as (lH & HcH & HndH & HlH).
  rewrite (chain_det _ _ _ _ Hc HcH) in Htl. clear HndH.
  assert (Htx : t ∉ x :: lx').
  { rewrite Hlx. intros Hin. apply HxH. apply HlH in Htl. congruence. }
  assert (Hc1 : chain (next s1) x (x :: lx')).
  { eapply chain_ext; [|exact Hcx]. intros y Hy. unfold next, s1. rewrite !at_update.
    repeat case_decide; subst; done. }
  exists t', s2. split; [done|]. split; [|split; [|split; [|split]]].
  - unfold glom. fold (head s x). rewrite Hhx, Nat.eqb_refl.
    assert (Hbody : forall q s' y, next (update q (set_cyclehead H) s') y = next s' y).
    { intros q s' y. unfold next. rewrite at_update. by case_decide. }
    rewrite (chase_chain _ _ _ _ _ _ Hbody Hc1 Ht'); [done|]. apply (Hsmall x); by split.
  - unfold s2. etransitivity; [|by apply foldl_update_frame].
    unfold s1. etransitivity; by apply same_frame_update.
  - intros y. unfold top, s2. rewrite foldl_update_at by done. unfold s1.
    rewrite !at_update. by repeat case_decide.
  - intros y. unfold head at 1, s2. rewrite foldl_update_at by done. unfold s1.
    rewrite !at_update. specialize (Hlx y). rewrite elem_of_cons in Hlx. fold (head s y).
    repeat case_decide; subst; simpl; try done; try tauto; naive_solver.
  - intros y. unfold next at 1, s2. rewrite foldl_update_at by done. unfold s1.
    rewrite !at_update. by repeat case_decide.
Qed.

Lemma glom_joins :
  head s x = x ->
  exists t' s' l', glom H x (t, s) = Done (t', s') /\ same_frame s s' /\
  (forall y, top s' y = top s y) /\
  (forall y, head s' y = if decide (head s y = x) then H else head s y) /\
  classes s' /\ chain (next s') H l' /\ last l' = Some t'.
Proof.
  intros Hx. destruct (head_class s Hcl x Hx) as [lx Hlx].
  destruct (glom_effect lx Hlx Hx) as (t' & s' & Ht' & Hg & Hf & Htop & Hhead & Hnext).
  destruct (head_class s Hcl H HH) as (lH & HcH & HndH & HlH).
  rewrite (chain_det _ _ _ _ HcH Hc) in *. clear HcH lH.
  destruct Hlx as (Hcx & Hndx & Hlx).
  assert (Htl : t ∈ l) by by apply last_Some_elem_of.
  assert (Hdisj : forall y, y ∈ l -> y ∉ lx) by (intros y; rewrite HlH, Hlx; congruence).
  assert (Hcx' : chain (next s') x lx).
  { eapply chain_ext; [|exact Hcx]. intros y Hy. rewrite Hnext. case_decide; [|done].
    subst. by destruct (Hdisj y). }
  assert (HcH' : chain (next s') H (l ++ lx)).
  { eapply chain_link; [exact Hc|done|exact Ht|exact Hcx'| |].
    - rewrite Hnext. by rewrite decide_True.
    - intros y Hy Hne. rewrite Hnext. by rewrite decide_False. }
  exists t', s', (l ++ lx). split; [done|]. split; [done|]. split; [done|]. split; [done|].
  split; [|split; [done|by rewrite last_app, Ht']].
  split.
  - intros y. rewrite !Hhead. repeat case_decide; rewrite ?HH, ?(head_idem s Hcl) in *; congruence.
  - intros h Hh. rewrite Hhead in Hh. case_decide as Hd.
    + subst h. exists (l ++ lx). split; [done|]. split.
      { apply NoDup_app. split; [done|]. split; [intros y Hy; by apply Hdisj|done]. }
      intros y. rewrite elem_of_app, HlH, Hlx, Hhead. case_decide; naive_solver.
    + destruct (decide (h = H)) as [->|HhH].
      { exists (l ++ lx). split; [done|]. split.
        { apply NoDup_app. split; [done|]. split; [intros y Hy; by apply Hdisj|done]. }
        intros y. rewrite elem_of_app, HlH, Hlx, Hhead. case_decide; naive_solver. }
      destruct (head_class s Hcl h Hh) as (lh & Hch & Hndh & Hlh).
      exists lh. split; [|split; [done|]].
      * eapply chain_ext; [|exact Hch]. intros y Hy. rewrite Hnext. case_decide; [|done].
        subst y. apply HlH in Htl. apply Hlh in Hy. congruence.
      * intros y. rewrite Hlh, Hhead. case_decide; naive_solver.
Qed.
End joins.
