(* ===== verification/DfnInv.v ===== *)
(** * The invariant of gprof/dfn.c

    [inv gs s]: what holds of the state [s] between two steps of [dfn], where
    [gs] lists the functions on the stack, the innermost first, each with the
    callees it has already visited.  Then one lemma per step: the invariant is
    kept when a function is pushed, when a callee is done, when two cycles are
    joined and when a function is popped. *)

From Stdlib Require Import ZArith Lia Bool.
From stdpp Require Import base option numbers functions relations list sets.
From S2P Require Import Prelude CInt CallGraph Dfn DfnClasses.

(** [x] calls [y] by an arc of the graph. *)
Definition calls (g : callgraph) (x y : nlptr) : Prop :=
  exists a, a ∈ children (nl g x) /\ arc_childp (arcs g a) = y.

Definition reaches (g : callgraph) : relation nlptr := rtc (calls g).

(** On a common cycle, or equal. *)
Definition mutual (g : callgraph) (x y : nlptr) : Prop := reaches g x y /\ reaches g y x.

#[export] Instance mutual_equivalence g : Equivalence (mutual g).
Proof.
  split.
  - intros x. split; reflexivity.
  - intros x y []. by split.
  - intros x y z [] []. split; etransitivity; eauto.
Qed.

(** ** The stack *)

(** Each element is called by the one below. *)
Fixpoint linked (R : relation nlptr) (l : list nlptr) : Prop :=
  match l with
  | x :: l' => match l' with y :: _ => R y x | [] => True end /\ linked R l'
  | [] => True
  end.

(** The functions of one cycle are next to each other, its head lowest. *)
Definition segments (hd : nlptr -> nlptr) (l : list nlptr) : Prop :=
  forall l1 x l2, l = l1 ++ x :: l2 -> hd x = x \/ exists y l3, l2 = y :: l3 /\ hd x = hd y.

Lemma linked_reaches R l1 x y l2 :
  linked R (l1 ++ y :: l2) -> x ∈ l1 ++ [y] -> rtc R y x.
Proof.
  revert x. induction l1 as [|z l1 IH]; intros x; simpl.
  - intros _ ->%list_elem_of_singleton. reflexivity.
  - intros [Hz Hl] [->|Hx]%elem_of_cons; [|by apply IH].
    destruct l1 as [|w l1]; simpl in *; [by apply rtc_once|].
    apply rtc_r with w; [|done]. apply IH; [done|left].
Qed.

Lemma linked_to_top R u l1 y l2 x :
  linked R (u :: l1 ++ y :: l2) -> x ∈ u :: l1 -> rtc R x u.
Proof.
  intros Hl Hx. apply elem_of_cons in Hx as [->|Hx]; [reflexivity|].
  apply list_elem_of_split in Hx as (la & lb & ->).
  rewrite <- app_assoc in Hl. simpl in Hl.
  apply (linked_reaches R (u :: la) u x (lb ++ y :: l2)); [done|left].
Qed.

Lemma segments_tail hd l1 l2 : segments hd (l1 ++ l2) -> segments hd l2.
Proof. intros H l1' x l2' ->. apply (H (l1 ++ l1')). by rewrite <- app_assoc. Qed.

Lemma segments_head_in hd x l : segments hd (x :: l) -> hd x ∈ x :: l.
Proof.
  revert x. induction l as [|y l IH]; intros x H.
  - destruct (H [] x [] eq_refl) as [->|(y & l3 & [=] & _)]. left.
  - destruct (H [] x (y :: l) eq_refl) as [->|(z & l3 & [= <- <-] & ->)]; [left|].
    right. apply IH. by apply (segments_tail hd [x]).
Qed.

Lemma NoDup_split_unique {A} (l1 l1' l2 l2' : list A) x :
  NoDup (l1 ++ x :: l2) -> l1 ++ x :: l2 = l1' ++ x :: l2' -> l2 = l2'.
Proof.
  revert l1'. induction l1 as [|y l1 IH]; intros [|y' l1'] Hnd Heq; simplify_eq/=.
  - done.
  - apply NoDup_cons in Hnd as [Hx _]. set_solver.
  - apply NoDup_cons in Hnd as [Hx _]. set_solver.
  - apply NoDup_cons in Hnd as [_ Hnd]. by eapply IH.
Qed.

(** Joining the cycle of [x] to the one of the function below it. *)
Lemma segments_join (hd hd' : nlptr -> nlptr) l1 x y l2 H :
  NoDup (l1 ++ x :: y :: l2) -> segments hd (l1 ++ x :: y :: l2) -> hd y = H -> x <> H ->
  (forall z, hd' z = if decide (hd z = x) then H else hd z) -> hd x = x ->
  segments hd' (l1 ++ x :: y :: l2).
Proof.
  intros Hnd Hs Hy HxH Hhd Hx l1' z l2' Heq.
  destruct (decide (z = x)) as [->|Hzx].
  - right. rewrite Heq in Hnd. pose proof (NoDup_split_unique _ _ _ _ _ Hnd (eq_sym Heq)) as ->.
    exists y, l2. split; [done|]. rewrite !Hhd, Hy, Hx. rewrite decide_True by done.
    by rewrite decide_False by done.
  - destruct (Hs l1' z l2' Heq) as [Hz|(w & l3 & -> & Hw)].
    + left. rewrite Hhd, Hz. by rewrite decide_False.
    + right. exists w, l3. split; [done|]. by rewrite !Hhd, Hw.
Qed.

(** ** The invariant *)

Section invariant.
Context (g0 : callgraph).

Abbreviation gstack := (list (nlptr * list nlptr)) (only parsing).

(** The calls that have been looked at: all those of a function that was
    popped, and those of a function on the stack to the listed callees. *)
Definition explored (gs : gstack) (s : dfnstate) (x y : nlptr) : Prop :=
  (x ∉ (gs.*1) /\ top s x <> DFN_NAN /\ calls g0 x y) \/ (exists d, (x, d) ∈ gs /\ y ∈ d).

(** What has been found out about such a call: the callee is numbered, not
    above the caller, or is on the same cycle. *)
Definition settled (s : dfnstate) (x y : nlptr) : Prop :=
  (0 < top s y /\ (0 < top s x -> top s y <= top s x)) \/
  (top s y = DFN_BUSY /\ head s y = head s x).

Record inv (gs : gstack) (s : dfnstate) : Prop := {
  iv_nname : nname (graph s) = nname g0;
  iv_arcs : arcs (graph s) = arcs g0;
  iv_rest : forall p, rest (at_ s p) = rest (nl g0 p);
  iv_stack : dfn_stack s = gs.*1;
  iv_nodup : NoDup (gs.*1);
  iv_classes : classes s;
  iv_top : forall x, top s (head s x) = top s x;
  iv_range : forall x, top s x = DFN_BUSY \/ 0 <= top s x <= dfn_counter s;
  iv_white : forall x, top s x = DFN_NAN -> head s x = x;
  iv_bound : forall x, top s x <> DFN_NAN -> (x < nname g0)%nat;
  iv_busy : forall x, x ∈ (gs.*1) -> top s x = DFN_BUSY;
  iv_head : forall x, top s x = DFN_BUSY -> head s x ∈ (gs.*1);
  iv_segments : segments (head s) (gs.*1);
  iv_linked : linked (calls g0) (gs.*1);
  iv_explored : forall x y, explored gs s x y -> settled s x y;
  iv_mutual : forall x, mutual g0 x (head s x);
  iv_number : forall x y, 0 < top s x -> top s y = top s x -> head s y = head s x;
  iv_onto : forall k, 0 < k <= dfn_counter s -> exists x, top s x = k;
  iv_counter : 0 <= dfn_counter s;
  iv_messages : dfn_messages s = O
}.

Lemma iv_children gs s p : inv gs s -> children (at_ s p) = children (nl g0 p).
Proof. intros I. pose proof (iv_rest _ _ I p) as H. unfold rest in H. by simplify_eq. Qed.

(** A chain visits functions of the table only, each once. *)
Lemma inv_small gs s : inv gs s -> small_classes s.
Proof.
  intros I h l (Hc & Hnd & Hl). rewrite (iv_nname _ _ I).
  destruct (decide (top s h = DFN_NAN)) as [Hw|Hw].
  - destruct l as [|x [|y l]]; simpl; [lia..|exfalso].
    assert (Hx : head s x = h) by (apply Hl; by left).
    assert (Hy : head s y = h) by (apply Hl; right; by left).
    apply NoDup_cons in Hnd as [Hxy _]. apply Hxy. apply elem_of_cons; left.
    pose proof (iv_top _ _ I x) as Ht. pose proof (iv_top _ _ I y) as Ht'.
    rewrite Hx, Hw in Ht. rewrite Hy, Hw in Ht'.
    rewrite (iv_white _ _ I x) in Hx by done. rewrite (iv_white _ _ I y) in Hy by done.
    by subst.
  - apply le_S. rewrite <- (List.length_seq (nname g0) 0).
    apply List.NoDup_incl_length; [by apply NoDup_ListNoDup|].
    intros x Hx. apply List.in_seq. apply list_elem_of_In, Hl in Hx.
    pose proof (iv_bound _ _ I x). pose proof (iv_top _ _ I x) as Ht. rewrite Hx in Ht.
    split; [lia|]. apply H. congruence.
Qed.

Lemma classes_ext s s' :
  (forall x, head s' x = head s x) -> (forall x, next s' x = next s x) -> classes s -> classes s'.
Proof.
  intros Hh Hn [Hi Hc]. split.
  - intros x. by rewrite !Hh.
  - intros h Hhh. rewrite Hh in Hhh. destruct (Hc h Hhh) as (l & Hl & Hnd & Hy).
    exists l. split; [|split; [done|]].
    + eapply chain_ext; [|exact Hl]. intros; apply Hn.
    + intros y. by rewrite Hh.
Qed.

(** *** A function is pushed *)

Definition pushed (p : nlptr) (s : dfnstate) : dfnstate :=
  update p (set_toporder DFN_BUSY)
    (mk_dfnstate (graph s) (p :: dfn_stack s) (dfn_counter s) (dfn_messages s)).

Lemma pushed_top p s x : top (pushed p s) x = if decide (p = x) then DFN_BUSY else top s x.
Proof. unfold top, pushed. rewrite at_update. by case_decide. Qed.

Lemma pushed_head p s x : head (pushed p s) x = head s x.
Proof. unfold head, pushed. rewrite at_update. by case_decide. Qed.

Lemma pushed_next p s x : next (pushed p s) x = next s x.
Proof. unfold next, pushed. rewrite at_update. by case_decide. Qed.

Lemma inv_push gs s p :
  inv gs s -> top s p = DFN_NAN -> (p < nname g0)%nat ->
  (forall u d gs', gs = (u, d) :: gs' -> calls g0 u p) ->
  inv ((p, []) :: gs) (pushed p s).
Proof.
  intros I Hp Hb Hcall.
  assert (Hnp : forall x, top s x <> DFN_NAN -> p <> x) by congruence.
  assert (Hps : p ∉ (gs.*1)).
  { intros Hin%(iv_busy _ _ I). rewrite Hp in Hin. done. }
  assert (Hhp : forall x, head s x = p -> x = p).
  { intros x Hx. pose proof (iv_top _ _ I x) as Ht. rewrite Hx, Hp in Ht.
    by rewrite <- (iv_white _ _ I x). }
  split; simpl; try (by apply I).
  - intros x. unfold pushed. rewrite at_update. case_decide; apply (iv_rest _ _ I).
  - by rewrite (iv_stack _ _ I).
  - apply NoDup_cons. split; [done|apply I].
  - eapply classes_ext; [..|apply I]; [apply pushed_head|apply pushed_next].
  - intros x. rewrite !pushed_top, pushed_head. destruct (decide (p = head s x)) as [Hx|Hx].
    + symmetry in Hx. apply Hhp in Hx as ->. by rewrite decide_True.
    + rewrite (iv_top _ _ I). case_decide as Hd; [|done]. subst x.
      by rewrite (iv_white _ _ I) in Hx.
  - intros x. rewrite pushed_top. case_decide; [by left|]. apply (iv_range _ _ I).
  - intros x. rewrite pushed_top, pushed_head. case_decide; [done|]. apply (iv_white _ _ I).
  - intros x. rewrite pushed_top. case_decide; [congruence|]. apply (iv_bound _ _ I).
  - intros x Hx. rewrite pushed_top. case_decide; [done|]. apply (iv_busy _ _ I).
    apply elem_of_cons in Hx as [->|]; done.
  - intros x. rewrite pushed_top, pushed_head. case_decide as Hd.
    + subst x. intros _. rewrite (iv_white _ _ I) by done. left.
    + intros Hx. right. by apply (iv_head _ _ I).
  - intros [|q l1] x l2; intros [= -> Heq].
    + left. rewrite pushed_head. by apply (iv_white _ _ I).
    + rewrite !pushed_head. destruct (iv_segments _ _ I l1 x l2 Heq) as [?|(y & l3 & ? & ?)];
        [by left|right]. exists y, l3. by rewrite pushed_head.
  - split; [|apply I]. destruct gs as [|[u d] gs']; simpl; [done|]. by eapply Hcall.
  - intros x y Hxy. assert (Hold : explored gs s x y /\ x <> p).
    { destruct Hxy as [(Hx & Ht & Hc)|(d & Hd & Hy)].
      - apply not_elem_of_cons in Hx as [Hxp Hx]. split; [left|done].
        rewrite pushed_top, decide_False in Ht by done. done.
      - apply elem_of_cons in Hd as [[= -> ->]|Hd]; [by apply not_elem_of_nil in Hy|].
        split; [right; eauto|]. intros ->. apply Hps. apply list_elem_of_fmap. by exists (p, d). }
    destruct Hold as [Hold Hxp]. unfold settled.
    rewrite !pushed_top, !pushed_head, (decide_False (P := p = x)) by done.
    destruct (iv_explored _ _ I x y Hold) as [Hs|[Hs1 Hs2]].
    + rewrite decide_False by (apply Hnp; unfold DFN_NAN; lia). by left.
    + rewrite decide_False by (apply Hnp; rewrite Hs1; done). by right.
  - intros x. rewrite pushed_head. apply I.
  - intros x y. rewrite !pushed_top, !pushed_head. unfold DFN_BUSY.
    repeat case_decide; try lia. apply (iv_number _ _ I).
  - intros k Hk. destruct (iv_onto _ _ I k Hk) as [x Hx]. exists x.
    rewrite pushed_top, decide_False; [done|]. apply Hnp. unfold DFN_NAN. lia.
Qed.

(** *** A callee is done *)

(** [p] needs no further visit: it is numbered, or on the cycle of the
    function on top of the stack. *)
Definition visited (gs : gstack) (s : dfnstate) (p : nlptr) : Prop :=
  0 < top s p \/ (top s p = DFN_BUSY /\ exists u d gs', gs = (u, d) :: gs' /\ head s p = head s u).

Lemma inv_visit p d gs s c :
  inv ((p, d) :: gs) s -> visited ((p, d) :: gs) s c -> inv ((p, c :: d) :: gs) s.
Proof.
  intros I Hv. split; try (by apply I).
  intros x y [Hxy|(d' & Hd & Hy)].
  - apply (iv_explored _ _ I). by left.
  - assert (Hold : explored ((p, d) :: gs) s x y \/ (x = p /\ y = c)).
    { apply elem_of_cons in Hd as [[= -> ->]|Hd].
      - apply elem_of_cons in Hy as [->|Hy]; [by right|left; right]. exists d. split; [left|done].
      - left; right. exists d'. split; [by right|done]. }
    destruct Hold as [Hold|[-> ->]]; [by apply (iv_explored _ _ I)|].
    assert (Hp : top s p = DFN_BUSY) by (apply (iv_busy _ _ I); left).
    destruct Hv as [Hn|(Hb & u & d0 & gs0 & [= <- <- <-] & Hu)].
    + left. split; [done|]. rewrite Hp. unfold DFN_BUSY. lia.
    + by right.
Qed.

(** *** Two cycles are joined *)

Lemma inv_join gs s s' l1 x y l2 H :
  inv gs s -> gs.*1 = l1 ++ x :: y :: l2 -> head s y = H -> head s x = x -> x <> H ->
  mutual g0 x H -> same_frame s s' -> (forall z, top s' z = top s z) ->
  (forall z, head s' z = if decide (head s z = x) then H else head s z) -> classes s' ->
  inv gs s'.
Proof.
  intros I Hgs Hy Hx HxH Hm [Fst Fc Fm Fn Fa Fch] Ht Hh Hcl.
  assert (HH : head s H = H) by (rewrite <- Hy; apply I).
  assert (Hbusy : top s x = DFN_BUSY /\ top s H = DFN_BUSY).
  { rewrite <- Hy, (iv_top _ _ I). split; apply (iv_busy _ _ I); rewrite Hgs; set_solver. }
  destruct Hbusy as [Hbx HbH].
  assert (Heq : forall a b, head s a = head s b -> head s' a = head s' b).
  { intros a b Hab. by rewrite !Hh, Hab. }
  split; try (by apply I).
  - by rewrite Fn, (iv_nname _ _ I).
  - by rewrite Fa, (iv_arcs _ _ I).
  - intros p. by rewrite Fch, (iv_rest _ _ I).
  - by rewrite Fst, (iv_stack _ _ I).
  - done.
  - intros z. rewrite !Ht, Hh. case_decide as Hd; [|apply I].
    rewrite HbH, <- Hbx, <- Hd. apply (iv_top _ _ I).
  - intros z. rewrite Ht, Fc. apply I.
  - intros z Hz. rewrite Ht in Hz. rewrite Hh, (iv_white _ _ I) by done.
    case_decide; [|done]. subst z. by rewrite Hbx in Hz.
  - intros z. rewrite Ht. apply I.
  - intros z. rewrite Ht. apply I.
  - intros z. rewrite Ht, Hh. intros Hz. case_decide; [|by apply (iv_head _ _ I)].
    rewrite <- HH. by apply (iv_head _ _ I).
  - rewrite Hgs. eapply (segments_join (head s)); try done; rewrite <- Hgs; apply I.
  - intros a b Hab. unfold settled. rewrite !Ht.
    assert (Hold : explored gs s a b).
    { destruct Hab as [(?&Hta&?)|?]; [left|by right]. by rewrite Ht in Hta. }
    destruct (iv_explored _ _ I a b Hold) as [?|[? ?]]; [by left|right]. auto.
  - intros z. rewrite Hh. case_decide as Hd; [|apply I].
    transitivity x; [|done]. rewrite <- Hd. apply I.
  - intros a b. rewrite !Ht. intros Ha Hb. apply Heq. by apply (iv_number _ _ I).
  - intros k. rewrite Fc. intros Hk. destruct (iv_onto _ _ I k Hk) as [z Hz]. exists z.
    by rewrite Ht.
  - rewrite Fc. apply I.
  - rewrite Fm. apply I.
Qed.

(** *** A function is popped *)

Lemma number_chain_spec s p :
  classes s -> small_classes s -> head s p = p ->
  exists s', number_chain p s = Done s' /\ same_frame s s' /\
  (forall x, head s' x = head s x) /\ (forall x, next s' x = next s x) /\
  (forall x, top s' x = if decide (head s x = p) then dfn_counter s else top s x).
Proof.
  intros Hcl Hsm Hp. destruct (head_class s Hcl p Hp) as [l Hl].
  pose proof (Hsm p l Hl) as Hlen. destruct Hl as (Hc & _ & Hl).
  assert (Hfold : forall l s0,
    foldl (fun a q => update q (set_toporder (dfn_counter a)) a) s0 l =
    foldl (fun a q => update q (set_toporder (dfn_counter s0)) a) s0 l).
  { induction l0 as [|q l0 IH]; intros s0; simpl; [done|]. by rewrite IH. }
  exists (foldl (fun a q => update q (set_toporder (dfn_counter s)) a) s l).
  split.
  { unfold number_chain. rewrite (for_chain_run _ s p l); [by rewrite Hfold| |done|done].
    intros q s0 x. unfold next. rewrite at_update. by case_decide. }
  split; [by apply foldl_update_frame|].
  split; [|split]; intros x; unfold head, next, top; rewrite foldl_update_at by done.
  - by case_decide.
  - by case_decide.
  - specialize (Hl x). unfold head in Hl. repeat case_decide; tauto.
Qed.

(** All the calls of the popped function have been looked at. *)
Lemma explored_pop p d gs s s' x y :
  (forall y, calls g0 p y -> y ∈ d) -> (forall x, top s' x <> DFN_NAN -> top s x <> DFN_NAN) ->
  explored gs s' x y -> explored ((p, d) :: gs) s x y.
Proof.
  intros Hd Ht [(Hx & Htx & Hc)|(d' & Hd' & Hy)].
  - destruct (decide (x = p)) as [->|Hxp].
    + right. exists d. split; [left|auto].
    + left. split; [simpl; by apply not_elem_of_cons|]. auto.
  - right. exists d'. split; [by right|done].
Qed.

Lemma inv_pop p d gs s :
  inv ((p, d) :: gs) s -> (forall y, calls g0 p y -> y ∈ d) -> head s p <> p ->
  inv gs (pop s) /\ visited gs (pop s) p.
Proof.
  intros I Hd Hp.
  destruct (iv_segments _ _ I [] p gs.*1 eq_refl) as [?|(y & l3 & Hy & Hhy)]; [done|].
  split.
  - split; try (by apply I).
    + simpl. by rewrite (iv_stack _ _ I).
    + pose proof (iv_nodup _ _ I) as Hnd. by apply NoDup_cons in Hnd as [_ Hnd].
    + by eapply classes_ext; [..|apply (iv_classes _ _ I)].
    + intros x Hx. apply (iv_busy _ _ I). by right.
    + intros x Hx. pose proof (iv_head _ _ I x Hx) as Hin.
      apply elem_of_cons in Hin as [Heq|Hin]; [|done].
      exfalso. apply Hp. simpl in Heq. rewrite <- Heq. apply (iv_classes _ _ I).
    + apply (segments_tail _ [p]), I.
    + intros x z Hxz. apply (iv_explored _ _ I). by eapply explored_pop.
  - right. split; [apply (iv_busy _ _ I); left|].
    destruct gs as [|[u d0] gs']; [done|]. injection Hy as Hu _. exists u, d0, gs'. by rewrite Hu.
Qed.

(** Numbering the functions of one cycle settles nothing anew. *)
Lemma settled_number gs s s2 p x y :
  inv gs s -> (forall x, head s x = p -> top s x = DFN_BUSY) ->
  (forall x, head s2 x = head s x) ->
  (forall x, top s2 x = if decide (head s x = p) then dfn_counter s + 1 else top s x) ->
  explored gs s x y -> settled s2 x y.
Proof.
  intros I Hcls Hh Ht Hxy. pose proof (iv_counter _ _ I).
  unfold settled. rewrite !Ht, !Hh.
  pose proof (iv_range _ _ I x) as Hrx. pose proof (iv_range _ _ I y) as Hry.
  destruct (iv_explored _ _ I x y Hxy) as [[Hs1 Hs2]|[Hs1 Hs2]]; unfold DFN_BUSY in *.
  - rewrite (decide_False (P := head s y = p)) by (intros Hy; rewrite Hcls in Hs1; done).
    left. case_decide; lia.
  - rewrite Hs2. case_decide; [left; lia|by right].
Qed.

Lemma inv_number p d gs s :
  inv ((p, d) :: gs) s -> (forall y, calls g0 p y -> y ∈ d) -> head s p = p ->
  exists s', dfn_post_visit p s = Done s' /\ inv gs s' /\ 0 < top s' p /\
    (forall x, top s x <> DFN_NAN -> top s' x <> DFN_NAN).
Proof.
  intros I Hd Hp.
  set (s1 := mk_dfnstate (graph s) (dfn_stack s) (dfn_counter s + 1) (dfn_messages s)).
  destruct (number_chain_spec s1 p) as (s2 & Hrun & [Fst Fc Fm Fn Fa Fch] & Hh & Hn & Ht);
    [by eapply classes_ext; [..|apply (iv_classes _ _ I)]|exact (inv_small _ _ I)|done|].
  change (head s1) with (head s) in *. change (top s1) with (top s) in *.
  simpl in Fc. change (dfn_counter s1) with (dfn_counter s + 1) in Ht.
  pose proof (iv_counter _ _ I) as Hc0.
  assert (Hnp : p ∉ gs.*1).
  { pose proof (iv_nodup _ _ I) as Hnd. by apply NoDup_cons in Hnd as [Hnd _]. }
  assert (Hcls : forall x, head s x = p -> top s x = DFN_BUSY).
  { intros x Hx. rewrite <- (iv_top _ _ I), Hx. apply (iv_busy _ _ I). left. }
  assert (Hrest : forall x, x ∈ gs.*1 -> head s x <> p).
  { intros x Hx Heq. apply Hnp. apply list_elem_of_split in Hx as (la & lb & Hgs).
    assert (Hs : segments (head s) (p :: la ++ x :: lb))
      by (rewrite <- Hgs; apply (iv_segments _ _ I)).
    apply (segments_tail _ (p :: la)), segments_head_in in Hs.
    rewrite Hgs. rewrite Heq in Hs. set_solver. }
  exists (pop s2). split; [|split; [|split]].
  - unfold dfn_post_visit. fold (head s p). rewrite Hp, Nat.eqb_refl. fold s1. by rewrite Hrun.
  - split; simpl; change (head (pop s2)) with (head s2); change (top (pop s2)) with (top s2).
    + rewrite Fn. apply (iv_nname _ _ I).
    + rewrite Fa. apply (iv_arcs _ _ I).
    + intros x. change (at_ (pop s2) x) with (at_ s2 x). rewrite Fch. apply (iv_rest _ _ I).
    + rewrite Fst. simpl. by rewrite (iv_stack _ _ I).
    + pose proof (iv_nodup _ _ I) as Hnd. by apply NoDup_cons in Hnd as [_ Hnd].
    + eapply classes_ext; [..|apply (iv_classes _ _ I)]; [apply Hh|apply Hn].
    + intros x. rewrite !Ht, !Hh, (head_idem _ (iv_classes _ _ I)).
      by rewrite (iv_top _ _ I).
    + intros x. rewrite Ht, Fc. destruct (iv_range _ _ I x); case_decide; lia.
    + intros x. rewrite Ht, Hh. unfold DFN_NAN. case_decide; [lia|]. apply (iv_white _ _ I).
    + intros x. rewrite Ht. case_decide as Hx; [intros _|]; apply (iv_bound _ _ I).
      rewrite Hcls by done. done.
    + intros x Hx. rewrite Ht, decide_False by auto. apply (iv_busy _ _ I). by right.
    + intros x. rewrite Ht, Hh. unfold DFN_BUSY. case_decide; [lia|]. intros Hx.
      pose proof (iv_head _ _ I x Hx) as Hin. apply elem_of_cons in Hin as [|Hin]; done.
    + intros l1 x l2 Heq. pose proof (iv_segments _ _ I) as Hs.
      destruct (segments_tail _ [p] _ Hs l1 x l2 Heq) as [?|(y & l3 & ? & ?)];
        [left; by rewrite Hh|right]. exists y, l3. by rewrite !Hh.
    + exact (proj2 (iv_linked _ _ I)).
    + intros x y Hxy. apply (settled_number ((p, d) :: gs) s s2 p); try done.
      eapply explored_pop; [done| |exact Hxy]. intros z.
      change (top (pop s2)) with (top s2). rewrite Ht.
      case_decide as Hz; [by rewrite Hcls|done].
    + intros x. rewrite Hh. apply (iv_mutual _ _ I).
    + intros x y. rewrite !Ht, !Hh. pose proof (iv_range _ _ I x) as Hrx.
      pose proof (iv_range _ _ I y) as Hry. unfold DFN_BUSY in *.
      repeat case_decide; try lia; try congruence. by apply (iv_number _ _ I).
    + intros k. rewrite Fc. intros Hk. destruct (decide (k = dfn_counter s + 1)) as [->|Hk'].
      * exists p. by rewrite Ht, decide_True.
      * destruct (iv_onto _ _ I k) as [x Hx]; [lia|]. exists x.
        rewrite Ht, decide_False; [done|]. intros Hx'%Hcls. unfold DFN_BUSY in *. lia.
    + rewrite Fc. lia.
    + rewrite Fm. apply (iv_messages _ _ I).
  - change (top (pop s2)) with (top s2). rewrite Ht, decide_True by done. lia.
  - intros x Hx. change (top (pop s2)) with (top s2). rewrite Ht. unfold DFN_NAN in *.
    case_decide; lia.
Qed.

End invariant.
