(* ===== verification/DfnSpec.v ===== *)
(** * What gprof/dfn.c computes

    [dfn] keeps the invariant of DfnInv, ends within its fuel, never misses the
    head of a cycle, and stops only at a path of calls of 1000 different
    functions. *)

From Stdlib Require Import ZArith Lia Bool.
From stdpp Require Import base option numbers functions relations list sets.
From S2P Require Import Prelude CInt CallGraph Dfn DfnClasses DfnInv.

Section spec.
Context (g0 : callgraph).

(** *** The search for the top of the cycle *)

Lemma find_cycletop_spec p s stack above :
  (exists c, c ∈ stack /\ is_cycletop p s c = true) ->
  exists l1 c l2, stack = l1 ++ c :: l2 /\ is_cycletop p s c = true /\
    find_cycletop p s stack above = Some (rev l1 ++ above, c).
Proof.
  revert above. induction stack as [|x stack IH]; intros above (c & Hc & Ht); simpl.
  - by apply elem_of_nil in Hc.
  - destruct (is_cycletop p s x) eqn:Hx.
    + by exists [], x, stack.
    + destruct (IH (x :: above)) as (l1 & c' & l2 & -> & Hc' & ->).
      { exists c. split; [|done]. apply elem_of_cons in Hc as [->|]; [congruence|done]. }
      exists (x :: l1), c', l2. split; [done|]. split; [done|].
      simpl. by rewrite <- app_assoc.
Qed.

Lemma is_cycletop_head p s c :
  classes s -> is_cycletop p s c = true -> head s c = head s p.
Proof.
  intros Hcl. unfold is_cycletop. fold (head s p). intros [H|H]%orb_true_iff.
  - apply Nat.eqb_eq in H. by subst.
  - apply andb_true_iff in H as [_ H]. apply Nat.eqb_eq in H. subst. apply Hcl.
Qed.

Lemma is_cycletop_of_head p s : is_cycletop p s (head s p) = true.
Proof.
  unfold is_cycletop. fold (head s p). rewrite Nat.eqb_refl, andb_true_r.
  destruct (Nat.eqb_spec p (head s p)) as [->|Hne]; [done|].
  simpl. apply negb_true_iff. apply Nat.eqb_neq. congruence.
Qed.

(** *** Glomming *)

Lemma glom_all gs H xs : forall y l2 s t l,
  inv g0 gs s -> gs.*1 = rev xs ++ y :: l2 -> head s y = H ->
  (forall x, x ∈ xs -> mutual g0 x H) -> chain (next s) H l -> last l = Some t ->
  exists t' s', foreach (glom H) xs (t, s) = Done (t', s') /\ inv g0 gs s' /\
    (forall x, x ∈ xs -> head s' x = H) /\ (forall z, head s z = H -> head s' z = H) /\
    (forall z, top s' z = top s z).
Proof.
  induction xs as [|x xs IH]; intros y l2 s t l I Hgs Hy Hm Hc Ht; cbn [foreach].
  { exists t, s. split; [done|]. split; [done|]. split; [|done].
    intros x Hx. by apply elem_of_nil in Hx. }
  simpl in Hgs. rewrite <- app_assoc in Hgs. simpl in Hgs.
  assert (HH : head s H = H) by (rewrite <- Hy; apply (iv_classes _ _ _ I)).
  assert (Hstep : exists t1 s1 l1, glom H x (t, s) = Done (t1, s1) /\ inv g0 gs s1 /\
    head s1 x = H /\ (forall z, head s z = H -> head s1 z = H) /\
    (forall z, top s1 z = top s z) /\ chain (next s1) H l1 /\ last l1 = Some t1).
  { destruct (decide (head s x = x)) as [Hx|Hx].
    - assert (HxH : x <> H).
      { intros ->. pose proof (iv_nodup _ _ _ I) as Hnd. rewrite Hgs in Hnd.
        pose proof (iv_segments _ _ _ I) as Hs. rewrite Hgs in Hs.
        assert (Hin : H ∈ y :: l2).
        { rewrite <- Hy. apply segments_head_in.
          apply (segments_tail _ (rev xs ++ [H])). by rewrite <- app_assoc. }
        apply NoDup_app in Hnd as (_ & _ & Hnd). by apply NoDup_cons in Hnd as [Hnd _]. }
      destruct (glom_joins s H x t l (iv_classes _ _ _ I) (inv_small _ _ _ I) HH HxH Hc Ht Hx)
        as (t1 & s1 & l1 & Hg & Hf & Htop & Hhead & Hcl & Hc1 & Ht1).
      exists t1, s1, l1. split; [done|]. split.
      { eapply (inv_join g0 gs s s1); try done. apply Hm. left. }
      split; [by rewrite Hhead, decide_True|].
      split; [intros z Hz; rewrite Hhead; by case_decide|]. done.
    - exists t, s, l. pose proof (iv_segments _ _ _ I (rev xs) x (y :: l2) Hgs) as Hs.
      destruct Hs as [?|(w & l3 & [= <- <-] & Hw)]; [done|].
      assert (HxH : head s x = H) by congruence.
      split; [|done]. unfold glom. fold (head s x).
      rewrite (proj2 (Nat.eqb_neq _ _) Hx). by rewrite HxH, Nat.eqb_refl. }
  destruct Hstep as (t1 & s1 & l1 & -> & I1 & Hx1 & Hz1 & Htop1 & Hc1 & Ht1). cbn [mbind outcome_bind].
  destruct (IH x (y :: l2) s1 t1 l1 I1 Hgs Hx1) as (t' & s' & Hrun & I' & Hxs & Hz & Htop); [|done..|].
  { intros z Hz. apply Hm. by right. }
  exists t', s'. split; [done|]. split; [done|]. split; [|split].
  - intros z [->|Hin]%elem_of_cons; auto.
  - auto.
  - intros z. by rewrite Htop.
Qed.

(** *** A call to a function that is busy *)

Lemma dfn_findcycle_spec gs s u d gs' p :
  inv g0 gs s -> gs = (u, d) :: gs' -> top s p = DFN_BUSY -> calls g0 u p ->
  exists s', dfn_findcycle p s = Done s' /\ inv g0 gs s' /\ visited gs s' p /\
    (forall x, top s' x = top s x).
Proof.
  intros I Hgs Hp Hcall. set (H := head s p).
  assert (Hvis : forall s', inv g0 gs s' -> (forall x, top s' x = top s x) ->
    head s' u = H -> head s' p = H -> visited gs s' p).
  { intros s' I' Ht Hu Hp'. right. rewrite Ht. split; [done|]. exists u, d, gs'. split; congruence. }
  destruct (find_cycletop_spec p s (gs.*1) []) as (l1 & c & l2 & Hstk & Hc & Hfind).
  { exists H. split; [by apply (iv_head _ _ _ I)|apply is_cycletop_of_head]. }
  apply is_cycletop_head in Hc; [|apply (iv_classes _ _ _ I)]. fold H in Hc.
  assert (HH : head s H = H) by apply (iv_classes _ _ _ I).
  unfold dfn_findcycle. rewrite (iv_stack _ _ _ I), Hfind, app_nil_r.
  destruct (rev l1) as [|x xs] eqn:Hrev.
  { assert (l1 = []) as -> by (by rewrite <- (rev_involutive l1), Hrev).
    rewrite Hgs in Hstk. injection Hstk as <- _.
    exists s. split; [done|]. split; [done|]. by split; [apply Hvis|]. }
  rewrite <- Hrev.
  (* the chain of the cycle from [c] on *)
  destruct (head_class s (iv_classes _ _ _ I) H HH) as (l & Hcl). pose proof Hcl as (Hch & Hnd & Hl).
  destruct (chain_suffix _ _ _ c Hch) as (la & lb & -> & Hcb); [by apply Hl|].
  destruct (chain_tail _ _ _ Hcb) as (t & Ht & _).
  pose proof (inv_small _ _ _ I H _ Hcl) as Hlen. rewrite length_app in Hlen.
  assert (Hchase : chase (chain_fuel s) (fun _ s => s) c s = Done (t, s)).
  { rewrite (chase_chain _ _ _ _ lb t); [|done..|unfold chain_fuel; lia].
    do 2 f_equal. generalize (List.tl lb). intros k. by induction k. }
  rewrite Hchase. simpl. fold (head s c). rewrite Hc.
  assert (HcH : (if Nat.eqb H c then c else H) = H).
  { by destruct (Nat.eqb_spec H c). }
  rewrite HcH.
  (* every function above is on the cycle *)
  assert (Hl1 : exists l1', l1 = u :: l1').
  { rewrite Hgs in Hstk. destruct l1 as [|u' l1']; [done|]. injection Hstk as <- _. eauto. }
  destruct Hl1 as [l1' ->].
  assert (Hmut : forall z, z ∈ rev (u :: l1') -> mutual g0 z H).
  { intros z Hz. rewrite list_elem_of_In, <- in_rev, <- list_elem_of_In in Hz.
    pose proof (iv_linked _ _ _ I) as Hlk. rewrite Hstk in Hlk.
    pose proof (iv_mutual _ _ _ I c) as [_ HcH']. rewrite Hc in HcH'.
    pose proof (iv_mutual _ _ _ I p) as [HpH _]. fold H in HpH. split.
    - transitivity u; [by eapply (linked_to_top _ u l1' c l2)|].
      transitivity p; [by apply rtc_once|done].
    - transitivity c; [done|]. apply (linked_reaches _ _ _ _ l2 Hlk). set_solver. }
  destruct (glom_all gs H (rev (u :: l1')) c l2 s t (la ++ lb) I)
    as (t' & s' & -> & I' & Hxs & Hz & Htop); [by rewrite rev_involutive|done..| |].
  { by rewrite last_app, Ht. }
  exists s'. split; [done|]. split; [done|]. split; [|done].
  apply Hvis; [done..| |by apply Hz]. apply Hxs. rewrite list_elem_of_In, <- in_rev. by left.
Qed.

(** *** The recursion *)

(** A path of calls through as many functions as the stack has entries. *)
Definition deep_path : Prop :=
  exists l, length l = DFN_DEPTH /\ NoDup l /\ linked (calls g0) l /\
    (forall x, x ∈ l -> (x < nname g0)%nat).

Definition ends_well (P : dfnstate -> Prop) (o : outcome dfnstate) : Prop :=
  match o with
  | Done s => P s
  | Out_of_my_depth => deep_path
  | No_cycle_head | Out_of_fuel => False
  end.

Lemma ends_well_bind (P Q : dfnstate -> Prop) o f :
  ends_well P o -> (forall s, P s -> ends_well Q (f s)) -> ends_well Q (o ≫= f).
Proof. destruct o; simpl; auto; done. Qed.

Lemma ends_mono (P Q : dfnstate -> Prop) o :
  ends_well P o -> (forall s, P s -> Q s) -> ends_well Q o.
Proof. destruct o; simpl; auto. Qed.

Definition grows (s s' : dfnstate) : Prop :=
  forall x, top s x <> DFN_NAN -> top s' x <> DFN_NAN.

#[local] Instance grows_preorder : PreOrder grows.
Proof. split; unfold grows; [by intros s x|]. intros s1 s2 s3 H1 H2 x Hx. auto. Qed.

(** Whoever calls [p] is on top of the stack. *)
Definition called_by_top (gs : list (nlptr * list nlptr)) (p : nlptr) : Prop :=
  forall u d gs', gs = (u, d) :: gs' -> calls g0 u p.

Lemma pre_visit_spec gs s p :
  inv g0 gs s -> top s p = DFN_NAN -> (p < nname g0)%nat -> called_by_top gs p ->
  ends_well (fun s' => s' = pushed p s /\ inv g0 ((p, []) :: gs) s' /\
    (S (length gs) < DFN_DEPTH)%nat) (dfn_pre_visit p s).
Proof.
  intros I Hp Hb Hcall. unfold dfn_pre_visit, dfn_depth.
  pose proof (inv_push g0 gs s p I Hp Hb Hcall) as I'.
  replace (length (dfn_stack s)) with (length gs) by (by rewrite (iv_stack _ _ _ I), length_fmap).
  destruct (Nat.leb_spec DFN_DEPTH (S (length gs))) as [Hd|Hd]; cbn [ends_well].
  - exists (take DFN_DEPTH (p :: gs.*1)). split; [|split; [|split]].
    + rewrite length_take, length_cons, length_fmap. lia.
    + eapply sublist_NoDup; [apply (iv_nodup _ _ _ I')|]. apply sublist_take.
    + pose proof (iv_linked _ _ _ I') as Hl. revert Hl. change (((p, []) :: gs).*1) with (p :: gs.*1).
      generalize (p :: gs.*1). generalize DFN_DEPTH. clear. intros n.
      induction n as [|n IH]; intros [|x l]; simpl; try done. intros [Hx Hl].
      split; [|by apply IH]. destruct n, l; done.
    + intros x Hx%elem_of_take. destruct Hx as (i & Hx & _).
      apply (iv_bound _ _ _ I'). rewrite (iv_busy _ _ _ I'); [done|].
      by apply list_elem_of_lookup_2 in Hx.
  - done.
Qed.

Lemma post_visit_spec p d gs s :
  inv g0 ((p, d) :: gs) s -> (forall y, calls g0 p y -> y ∈ d) ->
  exists s', dfn_post_visit p s = Done s' /\ inv g0 gs s' /\ visited gs s' p /\ grows s s'.
Proof.
  intros I Hd. destruct (decide (head s p = p)) as [Hp|Hp].
  - destruct (inv_number g0 p d gs s I Hd Hp) as (s' & -> & I' & Ht & Hg).
    exists s'. split; [done|]. split; [done|]. split; [by left|exact Hg].
  - destruct (inv_pop g0 p d gs s I Hd Hp) as [I' Hv]. exists (pop s).
    split; [|split; [done|split; [done|by intros x]]]. unfold dfn_post_visit. fold (head s p).
    by rewrite (proj2 (Nat.eqb_neq _ _) Hp).
Qed.

Hypothesis closed : forall x y, calls g0 x y -> (y < nname g0)%nat.

Lemma dfn_spec fuel : forall gs s p,
  inv g0 gs s -> (p < nname g0)%nat -> called_by_top gs p ->
  (length gs < DFN_DEPTH)%nat -> (DFN_DEPTH <= fuel + length gs)%nat ->
  ends_well (fun s' => inv g0 gs s' /\ visited gs s' p /\ grows s s') (dfn fuel p s).
Proof.
  induction fuel as [|fuel IH]; intros gs s p I Hb Hcall Hlen Hfuel; [simpl in *; lia|].
  cbn [dfn]. unfold dfn_numbered, dfn_busy. fold (top s p).
  destruct (Z.eqb_spec (top s p) DFN_NAN) as [Hp|Hp]; simpl.
  2: destruct (Z.eqb_spec (top s p) DFN_BUSY) as [Hp'|Hp']; simpl.
  - (* not seen yet *)
    eapply ends_well_bind; [by apply (pre_visit_spec gs)|].
    intros s1 (-> & I1 & Hlen1).
    assert (Hg1 : grows s (pushed p s)).
    { intros x. rewrite pushed_top. by case_decide. }
    rewrite (iv_children _ _ _ _ I1).
    assert (Hloop : forall cs d s2, inv g0 ((p, d) :: gs) s2 -> cs ⊆ children (nl g0 p) ->
      ends_well (fun s3 => exists d', inv g0 ((p, d') :: gs) s3 /\ d ⊆ d' /\
          (forall a, a ∈ cs -> arc_childp (arcs g0 a) ∈ d') /\ grows s2 s3)
        (foreach (fun arcp s => dfn fuel (arc_childp (arcs (graph s) arcp)) s) cs s2)).
    { induction cs as [|a cs IHcs]; intros d s2 I2 Hcs; cbn [foreach].
      { exists d. split; [done|]. split; [done|]. split; [set_solver|reflexivity]. }
      assert (Ha : calls g0 p (arc_childp (arcs g0 a))) by (exists a; set_solver).
      rewrite (iv_arcs _ _ _ I2). eapply ends_well_bind; [apply (IH ((p, d) :: gs))|].
      - done.
      - by eapply closed.
      - by intros u d0 gs' [= <- <- <-].
      - done.
      - simpl. lia.
      - intros s3 (I3 & Hv3 & Hg3). cbn beta.
        eapply ends_mono; [apply (IHcs (_ :: d) s3 (inv_visit _ _ _ _ _ _ I3 Hv3)); set_solver|].
        intros s4 (d' & I4 & Hd & Hcs' & Hg4).
        exists d'. split; [done|]. split; [set_solver|].
        split; [|by transitivity s3].
        intros b [->|Hb']%elem_of_cons; [set_solver|auto]. }
    eapply ends_well_bind; [by apply (Hloop _ [])|].
    intros s3 (d' & I3 & _ & Hd & Hg3).
    destruct (post_visit_spec p d' gs s3 I3) as (s4 & -> & I4 & Hv4 & Hg4).
    { intros y (a & Ha & <-). auto. }
    split; [done|]. split; [done|]. transitivity (pushed p s); [done|]. by transitivity s3.
  - (* busy *)
    destruct gs as [|[u d] gs'].
    { pose proof (iv_head _ _ _ I p Hp') as Hin. by apply elem_of_nil in Hin. }
    destruct (dfn_findcycle_spec _ s u d gs' p I eq_refl Hp') as (s' & -> & I' & Hv & Ht).
    { by eapply Hcall. }
    split; [done|]. split; [done|]. intros x. by rewrite Ht.
  - (* numbered *)
    split; [done|]. split; [left|reflexivity].
    destruct (iv_range _ _ _ I p); unfold DFN_NAN in *; [done|lia].
Qed.
End spec.
