(* ===== verification/DoArcs.v ===== *)
(** * gprof/arcs.c: numbering the functions and linking the cycles

    The parts of [doarcs] that work on integers and pointers: the
    initialisation, the numbering of every function, and [cyclelink].  The
    times and the print flags, which are propagated afterwards, are not
    modelled, but the checks of [timepropagate] that report wrong numbers are.

    [cyclenl] is allocated behind the table: its entry [c] has the address
    [nname + 1 + c], after the sentinel of the table. *)

From Stdlib Require Import ZArith Lia Bool String.
From stdpp Require Import base option numbers functions list.
From S2P Require Import Prelude CInt CallGraph Dfn.

(** ** The initialisation *)

Definition init_node (parentp : nlptr) (g : callgraph) : callgraph :=
  let arcp := arclookup g (Some parentp) (Some parentp) in
  let calls n :=
    match arcp with
    | Some a =>
        set_selfcalls (i32 (arc_count (arcs g a)))
          (set_ncall (i32 (ncall n - arc_count (arcs g a))) n)
    | None => set_selfcalls 0 n
    end in
  upd parentp (fun n =>
    set_cnext None (set_cyclehead parentp (set_cycleno 0 (set_toporder DFN_NAN (calls n))))) g.

Definition init_nodes (g : callgraph) : callgraph :=
  fold_left (fun g p => init_node p g) (seq 0 (nname g)) g.

(** ** Numbering *)

(** The statics of dfn.c before the first call. *)
Definition start (g : callgraph) : dfnstate := mk_dfnstate g [] DFN_NAN O.

Definition number_node (parentp : nlptr) (s : dfnstate) : outcome dfnstate :=
  if toporder (at_ s parentp) =? DFN_NAN then dfn dfn_fuel parentp s else Done s.

Definition number_nodes (s : dfnstate) : outcome dfnstate :=
  foreach number_node (seq 0 (nname (graph s))) s.

(** ** cyclelink *)

Definition cyclenl (s : dfnstate) (cycle : nat) : nlptr := (nname (graph s) + 1 + cycle)%nat.

(** The head of a cycle that is not yet linked to its header. *)
Definition unattached (s : dfnstate) (nlp : nlptr) : bool :=
  Nat.eqb (cyclehead (at_ s nlp)) nlp &&
  match cnext (at_ s nlp) with Some _ => true | None => false end.

Definition count_cycles (s : dfnstate) : nat :=
  fold_left (fun n nlp => if unattached s nlp then S n else n) (seq 0 (nname (graph s))) O.

Definition cycle_header (cycle : nat) (cyclenlp nlp : nlptr) : nltype :=
  mk_nltype EmptyString 0 0 0 0 DFN_NAN (Z.of_nat cycle) cyclenlp (Some nlp) [] [].

Definition link_member (cycle : nat) (cyclenlp memberp : nlptr) (s : dfnstate) : dfnstate :=
  update memberp (fun n => set_cyclehead cyclenlp (set_cycleno (Z.of_nat cycle) n)) s.

(** Adds the calls of one arc to the header of the cycle. *)
Definition count_arc (cycle : nat) (cyclenlp memberp : nlptr) (s : dfnstate) (arcp : arcptr) :
    dfnstate :=
  let a := arcs (graph s) arcp in
  if Nat.eqb (arc_parentp a) memberp then s
  else if cycleno (at_ s (arc_parentp a)) =? Z.of_nat cycle then
    update cyclenlp (fun n => set_selfcalls (i32 (selfcalls n + arc_count a)) n) s
  else update cyclenlp (fun n => set_ncall (i32 (ncall n + arc_count a)) n) s.

Definition count_member (cycle : nat) (cyclenlp memberp : nlptr) (s : dfnstate) : dfnstate :=
  fold_left (count_arc cycle cyclenlp memberp) (parents (at_ s memberp)) s.

(** One round of the second loop, for the functions that start a cycle. *)
Definition link_cycle (nlp : nlptr) (cs : nat * dfnstate) : outcome (nat * dfnstate) :=
  let (cycle, s) := cs in
  if unattached s nlp then
    let cycle := S cycle in
    let cyclenlp := cyclenl s cycle in
    let s := update cyclenlp (fun _ => cycle_header cycle cyclenlp nlp) s in
    s ← for_chain (link_member cycle cyclenlp) nlp s;
    s ← for_chain (count_member cycle cyclenlp) nlp s;
    Done (cycle, s)
  else Done (cycle, s).

(** The number of cycles [ncycle] and the state. *)
Definition cyclelink (s : dfnstate) : outcome (nat * dfnstate) :=
  r ← foreach link_cycle (seq 0 (nname (graph s))) (O, s);
  Done (count_cycles s, snd r).

(** The integer part of [doarcs]. *)
Definition doarcs (g : callgraph) : outcome (nat * dfnstate) :=
  s ← number_nodes (start (init_nodes g));
  cyclelink s.

(** ** The checks of timepropagate *)

Definition topcmp (n1 n2 : nltype) : Z := toporder n1 - toporder n2.

(** The message [toporder botches] is printed for this arc of [parentp], when
    no propagation fraction is zero. *)
Definition botches (s : dfnstate) (parentp : nlptr) (arcp : arcptr) : bool :=
  let a := arcs (graph s) arcp in
  let childp := arc_childp a in
  if arc_count a =? 0 then false
  else if Nat.eqb childp parentp then false
  else if negb (Nat.eqb (cyclehead (at_ s childp)) childp) then
    if cycleno (at_ s parentp) =? cycleno (at_ s childp) then false
    else toporder (at_ s parentp) <=? toporder (at_ s childp)
  else toporder (at_ s parentp) <=? toporder (at_ s childp).
