(* ===== verification/DoArcsSpec.v ===== *)
(** * The call graph after doarcs

    Numbering ends for every graph; the cycles found are the strongly connected
    components, and the numbers sort the graph from the callees up. *)

From Stdlib Require Import ZArith Lia Bool String.
From stdpp Require Import base option numbers functions relations list sets.
From S2P Require Import Prelude CInt CallGraph CallGraphSpec Dfn DfnClasses DfnInv DfnSpec DoArcs.

(** ** The initialisation *)

Definition self_count (g : callgraph) (p : nlptr) : Z := weight g p p.

Definition initialised (g : callgraph) (p : nlptr) (n : nltype) : nltype :=
  set_cnext None (set_cyclehead p (set_cycleno 0 (set_toporder DFN_NAN
    (set_selfcalls (i32 (self_count g p)) (set_ncall (i32 (ncall n - self_count g p)) n))))).

(** What the initialisation does not read keeps its value. *)
Definition same_arcs (g g' : callgraph) : Prop :=
  nname g' = nname g /\ narcs g' = narcs g /\ arcs g' = arcs g /\
  forall p, children (nl g' p) = children (nl g p) /\ parents (nl g' p) = parents (nl g p).

Lemma same_arcs_weight g g' x y : same_arcs g g' -> weight g' x y = weight g x y.
Proof.
  intros (_ & _ & Ha & Hp). unfold weight, arclookup. by rewrite (proj1 (Hp x)), Ha.
Qed.

Lemma same_arcs_calls g g' x y : same_arcs g g' -> calls g' x y <-> calls g x y.
Proof. intros (_ & _ & Ha & Hp). unfold calls. by rewrite (proj1 (Hp x)), Ha. Qed.

Lemma init_node_nl p g x :
  i32 (ncall (nl g p)) = ncall (nl g p) ->
  nl (init_node p g) x = if decide (p = x) then initialised g p (nl g p) else nl g x.
Proof.
  intros Hnc. unfold init_node. rewrite nl_upd. case_decide as Hp; [subst x|done].
  unfold initialised, self_count, weight. destruct (arclookup _ _ _); [done|].
  rewrite Z.sub_0_r. unfold set_selfcalls, set_ncall; simpl. by rewrite Hnc.
Qed.

Lemma init_node_arcs p g : same_arcs g (init_node p g).
Proof.
  unfold same_arcs. split; [done|]. split; [done|]. split; [done|]. intros x.
  unfold init_node. rewrite nl_upd. case_decide; [|done]. by destruct (arclookup _ _ _).
Qed.

Lemma same_arcs_trans g1 g2 g3 : same_arcs g1 g2 -> same_arcs g2 g3 -> same_arcs g1 g3.
Proof.
  intros (H1 & H2 & H3 & H4) (K1 & K2 & K3 & K4).
  do 3 (split; [congruence|]). intros p. destruct (H4 p), (K4 p). split; congruence.
Qed.

Lemma init_fold l : forall g,
  NoDup l -> (forall p, i32 (ncall (nl g p)) = ncall (nl g p)) ->
  let g' := fold_left (fun g p => init_node p g) l g in
  same_arcs g g' /\
  forall x, nl g' x = if decide (x ∈ l) then initialised g x (nl g x) else nl g x.
Proof.
  induction l as [|p l IH]; intros g Hnd Hnc; cbv zeta; simpl.
  { split; [done|]. intros x. by destruct (decide (x ∈ [])) as [?%elem_of_nil|]. }
  apply NoDup_cons in Hnd as [Hp Hnd].
  pose proof (init_node_arcs p g) as Ha. destruct (IH (init_node p g) Hnd) as [Ha' Hx].
  { intros x. rewrite init_node_nl by done. case_decide; [|done]. simpl.
    apply sw_id; [done|]. by apply sw_range. }
  split; [by eapply same_arcs_trans|]. intros x. rewrite Hx, init_node_nl by done.
  destruct (decide (p = x)) as [->|Hpx].
  - rewrite decide_False by done. by rewrite decide_True by left.
  - rewrite (decide_ext (x ∈ p :: l) (x ∈ l)) by (rewrite elem_of_cons; naive_solver).
    case_decide; [|done]. unfold initialised, self_count. by rewrite (same_arcs_weight g).
Qed.

Lemma conserved_range g p : conserved g -> i32 (ncall (nl g p)) = ncall (nl g p).
Proof. intros C. rewrite (C p). apply sw_id; [done|]. by apply sw_range. Qed.

Lemma init_nodes_spec g :
  conserved g ->
  same_arcs g (init_nodes g) /\
  forall x, nl (init_nodes g) x =
    if decide (x < nname g)%nat then initialised g x (nl g x) else nl g x.
Proof.
  intros C. destruct (init_fold (seq 0 (nname g)) g) as [Ha Hx].
  { apply NoDup_seq. }
  { intros p. by apply conserved_range. }
  split; [done|]. intros x. rewrite Hx. apply decide_ext. rewrite elem_of_seq. lia.
Qed.

(** ** The start of the numbering *)

Lemma init_blank g x :
  wf g -> conserved g ->
  toporder (nl (init_nodes g) x) = DFN_NAN /\ cyclehead (nl (init_nodes g) x) = x /\
  cnext (nl (init_nodes g) x) = None.
Proof.
  intros W C. destruct (init_nodes_spec g C) as [_ ->]. case_decide; [done|].
  apply (wf_blank _ W). lia.
Qed.

Lemma calls_bound g x y : wf g -> calls g x y -> (x < nname g)%nat /\ (y < nname g)%nat.
Proof.
  intros W (a & Ha & <-). apply (wf_children _ W) in Ha as [Ha <-].
  by destruct (wf_arc _ W a Ha) as (? & ? & _).
Qed.

Lemma inv_start g : wf g -> conserved g -> inv (init_nodes g) [] (start (init_nodes g)).
Proof.
  intros W C. set (g1 := init_nodes g).
  assert (Hb : forall x, top (start g1) x = DFN_NAN /\ head (start g1) x = x /\
    next (start g1) x = None) by (intros x; by apply init_blank).
  assert (Ht : forall x, top (start g1) x = DFN_NAN) by apply Hb.
  assert (Hh : forall x, head (start g1) x = x) by apply Hb.
  split; try done; simpl.
  - constructor.
  - split; [intros x; by rewrite !Hh|]. intros h _. exists [h]. split; [|split].
    + constructor. apply Hb.
    + apply NoDup_singleton.
    + intros y. rewrite list_elem_of_singleton, Hh. done.
  - intros x. by rewrite !Ht.
  - intros x. right. rewrite Ht. unfold DFN_NAN. lia.
  - intros x. by rewrite Ht.
  - intros x Hx. by apply elem_of_nil in Hx.
  - intros x. by rewrite Ht.
  - intros [|? ?] x l2; discriminate.
  - intros x y [(_ & Htx & _)|(d & Hd & _)]; [by rewrite Ht in Htx|by apply elem_of_nil in Hd].
  - intros x. rewrite Hh. reflexivity.
  - intros x y. rewrite Ht. unfold DFN_NAN. lia.
  - unfold DFN_NAN. lia.
Qed.

(** ** Every function is numbered *)

Record numbered (g : callgraph) (s : dfnstate) : Prop := {
  nb_inv : inv (init_nodes g) [] s;
  nb_top : forall p, (p < nname g)%nat -> 0 < top s p <= dfn_counter s
}.

Lemma number_nodes_spec g :
  wf g -> conserved g ->
  ends_well (init_nodes g) (numbered g) (number_nodes (start (init_nodes g))).
Proof.
  intros W C. pose proof (init_nodes_spec g C) as [Hsame _].
  assert (Hn : nname (init_nodes g) = nname g) by apply Hsame.
  assert (Hclosed : forall x y, calls (init_nodes g) x y -> (y < nname (init_nodes g))%nat).
  { intros x y Hxy%(same_arcs_calls g); [|done]. rewrite Hn. by apply (calls_bound g x y). }
  assert (Hloop : forall l s, inv (init_nodes g) [] s -> (forall p, p ∈ l -> (p < nname g)%nat) ->
    ends_well (init_nodes g) (fun s' => inv (init_nodes g) [] s' /\ grows s s' /\
      (forall p, p ∈ l -> top s' p <> DFN_NAN)) (foreach number_node l s)).
  { induction l as [|p l IH]; intros s I Hl; cbn [foreach].
    { split; [done|]. split; [by intros x|]. intros p Hp. by apply elem_of_nil in Hp. }
    eapply (ends_well_bind _ (fun s1 => inv (init_nodes g) [] s1 /\ grows s s1 /\ top s1 p <> DFN_NAN)).
    - unfold number_node. fold (top s p). destruct (Z.eqb_spec (top s p) DFN_NAN) as [Hp|Hp].
      + eapply ends_mono; [apply (dfn_spec (init_nodes g) Hclosed dfn_fuel [] s p I)|].
        * rewrite Hn. apply Hl. left.
        * by intros u d gs.
        * unfold DFN_DEPTH; simpl; lia.
        * by rewrite Nat.add_0_r.
        * intros s1 (I1 & Hv & Hg). split; [done|]. split; [done|].
          destruct Hv as [Hv|(_ & u & d & gs & [=] & _)]. unfold DFN_NAN. lia.
      + split; [done|]. by split; [intros x|].
    - intros s1 (I1 & Hg1 & Hp1).
      eapply ends_mono; [apply (IH s1 I1); intros; apply Hl; by right|].
      intros s2 (I2 & Hg2 & Hl2). split; [done|]. split; [intros x Hx; auto|].
      intros q [->|Hq]%elem_of_cons; [by apply Hg2|by apply Hl2]. }
  unfold number_nodes. simpl. rewrite Hn.
  eapply ends_mono; [apply (Hloop (seq 0 (nname g)));
    [by apply inv_start|intros p; rewrite elem_of_seq; lia]|].
  intros s (I & _ & Htop). split; [done|]. intros p Hp.
  specialize (Htop p ltac:(apply elem_of_seq; lia)).
  destruct (iv_range _ _ _ I p) as [Hb|Hb]; [|unfold DFN_NAN in *; lia].
  pose proof (iv_head _ _ _ I p Hb) as Hin. by apply elem_of_nil in Hin.
Qed.

(** ** What the numbers mean *)

Lemma rtc_iff {A} (R1 R2 : relation A) x y :
  (forall x y, R1 x y <-> R2 x y) -> rtc R1 x y <-> rtc R2 x y.
Proof.
  intros H. split; induction 1 as [|a b c Hab Hbc IH]; try reflexivity;
    (eapply rtc_l; [by apply H|done]).
Qed.

Lemma init_mutual g x y : conserved g -> mutual (init_nodes g) x y <-> mutual g x y.
Proof.
  intros C. pose proof (init_nodes_spec g C) as [Hsame _].
  assert (Hc : forall x y, calls (init_nodes g) x y <-> calls g x y)
    by (intros; by apply same_arcs_calls).
  unfold mutual, reaches. by rewrite !(rtc_iff _ _ _ _ Hc).
Qed.

Section numbered.
Context (g : callgraph) (s : dfnstate).
Hypotheses (W : wf g) (C : conserved g) (N : numbered g s).

Lemma nb_calls x y : calls g x y -> top s y <= top s x.
Proof.
  intros Hc. pose proof (calls_bound g x y W Hc) as [Hx Hy].
  pose proof (init_nodes_spec g C) as [Hsame _].
  pose proof (nb_top _ _ N x Hx). pose proof (nb_top _ _ N y Hy).
  destruct (iv_explored _ _ _ (nb_inv _ _ N) x y) as [[_ Hs]|[Hs _]].
  - left. split; [apply not_elem_of_nil|]. split; [unfold DFN_NAN; lia|].
    by apply (same_arcs_calls g).
  - lia.
  - rewrite Hs in *. unfold DFN_BUSY in *. lia.
Qed.

Lemma nb_reaches x y : reaches g x y -> top s y <= top s x.
Proof. induction 1 as [|a b c Hab _ IH]; [lia|]. pose proof (nb_calls a b Hab). lia. Qed.

Lemma nb_same_number x y :
  (x < nname g)%nat -> (top s x = top s y <-> head s x = head s y).
Proof.
  intros Hx. split; intros H.
  - apply (iv_number _ _ _ (nb_inv _ _ N)); [|done]. pose proof (nb_top _ _ N x Hx). lia.
  - rewrite <- (iv_top _ _ _ (nb_inv _ _ N)), H. apply (iv_top _ _ _ (nb_inv _ _ N)).
Qed.

Lemma nb_component x y :
  (x < nname g)%nat -> (head s x = head s y <-> mutual g x y).
Proof.
  intros Hx. split.
  - intros Heq. apply init_mutual; [done|]. etransitivity; [apply (iv_mutual _ _ _ (nb_inv _ _ N))|].
    rewrite Heq. symmetry. apply (iv_mutual _ _ _ (nb_inv _ _ N)).
  - intros [H1 H2]. apply nb_same_number; [done|].
    apply nb_reaches in H1. apply nb_reaches in H2. lia.
Qed.

(** Each number up to the counter is used, so there are not more numbers than
    functions. *)
Lemma nb_counter : dfn_counter s <= Z.of_nat (nname g).
Proof.
  assert (H : (length (seqZ 1 (dfn_counter s)) <= length (map (top s) (seq 0 (nname g))))%nat).
  { apply List.NoDup_incl_length; [apply NoDup_ListNoDup, NoDup_seqZ|].
    intros k Hk. apply list_elem_of_In, elem_of_seqZ in Hk.
    destruct (iv_onto _ _ _ (nb_inv _ _ N) k) as [x Hx]; [lia|].
    apply List.in_map_iff. exists x. split; [done|]. apply List.in_seq.
    split; [lia|]. pose proof (iv_bound _ _ _ (nb_inv _ _ N) x) as Hb.
    pose proof (init_nodes_spec g C) as [(<- & _) _]. apply Hb. unfold DFN_NAN. lia. }
  rewrite length_seqZ, List.length_map, List.length_seq in H. lia.
Qed.
End numbered.

Lemma number_nodes_numbered g s :
  wf g -> conserved g -> number_nodes (start (init_nodes g)) = Done s -> numbered g s.
Proof. intros W C H. pose proof (number_nodes_spec g W C) as Hs. by rewrite H in Hs. Qed.

Lemma linked_iff (R1 R2 : relation nlptr) l :
  (forall x y, R1 x y <-> R2 x y) -> linked R1 l -> linked R2 l.
Proof.
  intros H. induction l as [|x [|y l] IH]; simpl; [done..|]. intros [H1 H2].
  split; [by apply H|by apply IH].
Qed.

(** C5: every function gets a number: the numbering ends, without looking in
    vain for the head of a cycle, and stops early only when there is a path of
    calls through 1000 different functions, as many as its stack holds; a
    program with fewer functions is always numbered. *)
Theorem number_nodes_live g :
  wf g -> conserved g ->
  match number_nodes (start (init_nodes g)) with
  | Done s => forall p, (p < nname g)%nat -> 0 < toporder (at_ s p)
  | Out_of_my_depth =>
      (DFN_DEPTH <= nname g)%nat /\
      exists path, length path = DFN_DEPTH /\ NoDup path /\ linked (calls g) path
  | No_cycle_head | Out_of_fuel => False
  end.
Proof.
  intros W C. pose proof (number_nodes_spec g W C) as H.
  pose proof (init_nodes_spec g C) as [Hsame _].
  destruct (number_nodes _) as [s| | |]; simpl in H; [| |done|done].
  - intros p Hp. by apply (nb_top _ _ H).
  - destruct H as (l & Hl & Hnd & Hlk & Hb). split.
    + rewrite <- Hl, <- (List.length_seq (nname g) 0).
      apply List.NoDup_incl_length; [by apply NoDup_ListNoDup|].
      intros x Hx. apply List.in_seq. split; [lia|]. rewrite <- (proj1 Hsame).
      by apply Hb, list_elem_of_In.
    + exists l. split; [done|]. split; [done|].
      eapply linked_iff; [|exact Hlk]. intros x y. by apply same_arcs_calls.
Qed.

(** C1: the cycles are the strongly connected components of the call graph:
    two functions have the same head just when each reaches the other, and the
    chain of a head visits its component once. *)
Theorem cycles_are_components g s :
  wf g -> conserved g -> number_nodes (start (init_nodes g)) = Done s ->
  (forall x y, (x < nname g)%nat ->
    cyclehead (at_ s x) = cyclehead (at_ s y) <-> reaches g x y /\ reaches g y x) /\
  (forall x, exists l, chain (fun p => cnext (at_ s p)) (cyclehead (at_ s x)) l /\ NoDup l /\
    forall y, y ∈ l <-> cyclehead (at_ s y) = cyclehead (at_ s x)).
Proof.
  intros W C H. pose proof (number_nodes_numbered g s W C H) as N. split.
  - intros x y Hx. by apply nb_component.
  - intros x. pose proof (iv_classes _ _ _ (nb_inv _ _ N)) as Hcl.
    destruct (head_class s Hcl (head s x) (head_idem s Hcl x)) as [l Hl]. by exists l.
Qed.

Lemma numbers_topological g s :
  wf g -> conserved g -> number_nodes (start (init_nodes g)) = Done s ->
  (forall x y, calls g x y ->
    toporder (at_ s y) < toporder (at_ s x) \/
    (toporder (at_ s y) = toporder (at_ s x) /\ reaches g y x)) /\
  (forall x y, (x < nname g)%nat ->
    toporder (at_ s x) = toporder (at_ s y) <-> reaches g x y /\ reaches g y x) /\
  (forall p, (p < nname g)%nat -> 0 < toporder (at_ s p) <= dfn_counter s) /\
  (forall k, 0 < k <= dfn_counter s -> exists p, toporder (at_ s p) = k) /\
  dfn_counter s <= Z.of_nat (nname g) /\ dfn_messages s = O.
Proof.
  intros W C H. pose proof (number_nodes_numbered g s W C H) as N.
  assert (Hnum : forall x y, (x < nname g)%nat -> top s x = top s y <-> mutual g x y).
  { intros x y Hx. rewrite nb_same_number by done. by apply nb_component. }
  split; [|split; [done|split; [apply (nb_top _ _ N)|split; [apply (iv_onto _ _ _ (nb_inv _ _ N))|]]]].
  - intros x y Hc. pose proof (nb_calls g s W C N x y Hc) as Hle.
    destruct (decide (top s y = top s x)) as [Heq|Hne]; [right|left; unfold top in *; lia].
    split; [done|]. destruct (calls_bound g x y W Hc) as [Hx Hy].
    by apply (Hnum y x Hy) in Heq as [? ?].
  - split; [by apply (nb_counter g s C N)|apply (iv_messages _ _ _ (nb_inv _ _ N))].
Qed.

(** C23: the numbers sort the graph from the callees up: a callee's number is
    smaller than its caller's unless the two are on one cycle, where the
    numbers are equal; exactly the numbers from 1 to the counter are used, and
    the two messages about cycles are never printed. *)
Theorem topological_numbers g s :
  wf g -> conserved g -> number_nodes (start (init_nodes g)) = Done s ->
  (forall x y, calls g x y ->
    toporder (at_ s y) < toporder (at_ s x) \/
    (toporder (at_ s y) = toporder (at_ s x) /\ reaches g y x)) /\
  (forall x y, (x < nname g)%nat ->
    toporder (at_ s x) = toporder (at_ s y) <-> reaches g x y /\ reaches g y x) /\
  (forall p, (p < nname g)%nat -> 0 < toporder (at_ s p) <= dfn_counter s) /\
  (forall k, 0 < k <= dfn_counter s -> exists p, toporder (at_ s p) = k) /\
  dfn_counter s <= Z.of_nat (nname g) /\ dfn_messages s = O.
Proof. apply numbers_topological. Qed.

(** *** The small profile *)

Definition is_done {A} (o : outcome A) : bool :=
  match o with Done _ => true | _ => false end.

Lemma small_numbers_done : is_done (number_nodes (start (init_nodes small_profile))) = true.
Proof. vm_compute. reflexivity. Qed.

Lemma number_nodes_live_witness :
  match number_nodes (start (init_nodes small_profile)) with
  | Done s => map (fun p => toporder (at_ s p)) (seq 0 7) = [4; 3; 3; 3; 2; 1; 5] /\
              forall p, (p < 7)%nat -> 0 < toporder (at_ s p)
  | _ => False
  end.
Proof.
  assert (H : match number_nodes (start (init_nodes small_profile)) with
    | Done s => map (fun p => toporder (at_ s p)) (seq 0 7) = [4; 3; 3; 3; 2; 1; 5]
    | _ => False end) by (vm_compute; reflexivity).
  pose proof (number_nodes_live small_profile (proj1 small_profile_wf) (proj2 small_profile_wf)) as L.
  destruct (number_nodes (start (init_nodes small_profile))) as [s| | |]; [|destruct H..].
  split; [exact H|exact L].
Defined.

Lemma cycles_are_components_witness :
  match number_nodes (start (init_nodes small_profile)) with
  | Done s => cyclehead (at_ s 3) = 1%nat /\
              (cyclehead (at_ s 3) = cyclehead (at_ s 2) <->
               reaches small_profile 3%nat 2%nat /\ reaches small_profile 2%nat 3%nat)
  | _ => False
  end.
Proof.
  assert (H : match number_nodes (start (init_nodes small_profile)) with
    | Done s => cyclehead (at_ s 3) = 1%nat | _ => False end) by (vm_compute; reflexivity).
  destruct (number_nodes (start (init_nodes small_profile))) as [s| | |] eqn:E; [|destruct H..].
  split; [exact H|].
  apply (cycles_are_components small_profile s (proj1 small_profile_wf) (proj2 small_profile_wf) E).
  vm_compute. lia.
Defined.

Lemma topological_numbers_witness :
  match number_nodes (start (init_nodes small_profile)) with
  | Done s => dfn_counter s = 5 /\ dfn_counter s <= 7 /\ dfn_messages s = O
  | _ => False
  end.
Proof.
  assert (H : match number_nodes (start (init_nodes small_profile)) with
    | Done s => dfn_counter s = 5 | _ => False end) by (vm_compute; reflexivity).
  destruct (number_nodes (start (init_nodes small_profile))) as [s| | |] eqn:E; [|destruct H..].
  split; [exact H|].
  apply (topological_numbers small_profile s (proj1 small_profile_wf) (proj2 small_profile_wf) E).
Defined.
