(* ===== verification/CycleLinkSpec.v ===== *)
(** * cyclelink of gprof/arcs.c

    After [cyclelink] the functions of each cycle share a number and a header,
    whose counts are the calls from outside and the calls among the members;
    no calls are lost, and the checks of [timepropagate] never fail. *)

From Stdlib Require Import ZArith Lia Bool String.
From stdpp Require Import base option numbers functions relations list sets.
From S2P Require Import Prelude CInt CallGraph CallGraphSpec Dfn DfnClasses DfnInv DfnSpec.
From S2P Require Import DoArcs DoArcsSpec.

Definition zsum {A} (f : A -> Z) (l : list A) : Z := foldr (fun a z => f a + z) 0 l.

Lemma zsum_ext {A} (f f' : A -> Z) l : (forall a, a ∈ l -> f a = f' a) -> zsum f l = zsum f' l.
Proof.
  induction l as [|a l IH]; intros H; simpl; [done|]. rewrite H by left.
  rewrite IH; [done|]. intros; apply H; by right.
Qed.

Lemma zsum_add {A} (f f' : A -> Z) l : zsum (fun a => f a + f' a) l = zsum f l + zsum f' l.
Proof. induction l as [|a l IH]; simpl; lia. Qed.

Lemma foldl_keeps {A B V} (v : A -> V) (f : A -> B -> A) l a :
  (forall a b, v (f a b) = v a) -> v (foldl f a l) = v a.
Proof. intros H. revert a. induction l as [|b l IH]; intros a; simpl; [done|]. by rewrite IH. Qed.

(** Calls over one arc to the member [m] of the cycle [l]. *)
Definition from_inside (g : callgraph) (l : list nlptr) (m : nlptr) (a : arcptr) : Z :=
  if decide (arc_parentp (arcs g a) = m) then 0
  else if decide (arc_parentp (arcs g a) ∈ l) then arc_count (arcs g a) else 0.

Definition from_outside (g : callgraph) (l : list nlptr) (m : nlptr) (a : arcptr) : Z :=
  if decide (arc_parentp (arcs g a) = m) then 0
  else if decide (arc_parentp (arcs g a) ∈ l) then 0 else arc_count (arcs g a).

Definition inside_calls (g : callgraph) (l : list nlptr) : Z :=
  zsum (fun m => zsum (from_inside g l m) (parents (nl g m))) l.

Definition outside_calls (g : callgraph) (l : list nlptr) : Z :=
  zsum (fun m => zsum (from_outside g l m) (parents (nl g m))) l.

(** ** Counting the calls of one cycle *)

Section count.
Context (g : callgraph) (l : list nlptr) (cycle : nat) (hdr : nlptr) (base : nltype).
Hypothesis hdr_new : (nname g <= hdr)%nat.

(** The header of the cycle with sums so far, the members marked. *)
Record counting (sout sin : Z) (s0 s : dfnstate) : Prop := {
  ct_nname : nname (graph s) = nname (graph s0);
  ct_arcs : arcs (graph s) = arcs g;
  ct_other x : x <> hdr -> at_ s x = at_ s0 x;
  ct_header : at_ s hdr = set_selfcalls (i32 sin) (set_ncall (i32 sout) base);
  ct_member x : (x < nname g)%nat -> (cycleno (at_ s x) =? Z.of_nat cycle) = bool_decide (x ∈ l);
  ct_parents x : (x < nname g)%nat -> parents (at_ s x) = parents (nl g x)
}.

Lemma counting_arc sout sin s0 s m a :
  counting sout sin s0 s -> (arc_parentp (arcs g a) < nname g)%nat ->
  counting (sout + from_outside g l m a) (sin + from_inside g l m a) s0
    (count_arc cycle hdr m s a).
Proof.
  intros Hc Ha. unfold count_arc. rewrite (ct_arcs _ _ _ _ Hc).
  unfold from_outside, from_inside.
  destruct (Nat.eqb_spec (arc_parentp (arcs g a)) m) as [Hm|Hm].
  { rewrite !decide_True by done. by rewrite !Z.add_0_r. }
  rewrite !(decide_False (P := arc_parentp (arcs g a) = m)) by done.
  rewrite (ct_member _ _ _ _ Hc) by done.
  case_bool_decide as Hin.
  - rewrite !decide_True by done. rewrite Z.add_0_r. split; try apply Hc.
    + intros x Hx. rewrite at_update, decide_False by done. by apply Hc.
    + rewrite at_update, decide_True by done. rewrite (ct_header _ _ _ _ Hc).
      unfold set_selfcalls, set_ncall; simpl. by rewrite i32_add_l.
    + intros x Hx. rewrite at_update, decide_False by lia. by apply Hc.
    + intros x Hx. rewrite at_update, decide_False by lia. by apply Hc.
  - rewrite !decide_False by done. rewrite Z.add_0_r. split; try apply Hc.
    + intros x Hx. rewrite at_update, decide_False by done. by apply Hc.
    + rewrite at_update, decide_True by done. rewrite (ct_header _ _ _ _ Hc).
      unfold set_selfcalls, set_ncall; simpl. by rewrite i32_add_l.
    + intros x Hx. rewrite at_update, decide_False by lia. by apply Hc.
    + intros x Hx. rewrite at_update, decide_False by lia. by apply Hc.
Qed.

Lemma counting_arcs m (arcl : list arcptr) : forall sout sin s0 s,
  counting sout sin s0 s -> (forall a, a ∈ arcl -> (arc_parentp (arcs g a) < nname g)%nat) ->
  counting (sout + zsum (from_outside g l m) arcl) (sin + zsum (from_inside g l m) arcl) s0
    (fold_left (count_arc cycle hdr m) arcl s).
Proof.
  induction arcl as [|a arcl IH]; intros sout sin s0 s Hc Ha; simpl.
  { by rewrite !Z.add_0_r. }
  rewrite !Z.add_assoc. apply IH; [|intros; apply Ha; by right].
  apply counting_arc; [done|]. apply Ha. left.
Qed.

Lemma counting_members (ms : list nlptr) : forall sout sin s0 s,
  counting sout sin s0 s ->
  (forall m, m ∈ ms -> (m < nname g)%nat /\ forall a, a ∈ parents (nl g m) -> (arc_parentp (arcs g a) < nname g)%nat) ->
  counting (sout + zsum (fun m => zsum (from_outside g l m) (parents (nl g m))) ms)
    (sin + zsum (fun m => zsum (from_inside g l m) (parents (nl g m))) ms) s0
    (foldl (fun s m => count_member cycle hdr m s) s ms).
Proof.
  induction ms as [|m ms IH]; intros sout sin s0 s Hc Hm; simpl.
  { by rewrite !Z.add_0_r. }
  destruct (Hm m) as [Hmh Ha]; [left|]. rewrite !Z.add_assoc.
  apply IH; [|intros; apply Hm; by right].
  unfold count_member. rewrite (ct_parents _ _ _ _ Hc) by done. by apply counting_arcs.
Qed.
End count.

(** ** Linking one cycle *)

Section link.
Context (g : callgraph) (s : dfnstate).
Hypotheses (W : wf g) (C : conserved g) (N : numbered g s).

Abbreviation header c := (nname g + 1 + c)%nat.

Definition marked (c : nat) (n : nltype) : nltype :=
  set_cyclehead (header c) (set_cycleno (Z.of_nat c) n).

(** The cycles whose heads are [hs] are linked, and nothing else is. *)
Record linked_to (hs : list nlptr) (s1 : dfnstate) : Prop := {
  lk_nname : nname (graph s1) = nname g;
  lk_arcs : arcs (graph s1) = arcs g;
  lk_in x i : (x < nname g)%nat -> hs !! i = Some (head s x) -> at_ s1 x = marked (S i) (at_ s x);
  lk_out x : (x < nname g)%nat -> head s x ∉ hs -> at_ s1 x = at_ s x;
  lk_header i h l : hs !! i = Some h -> class_of s h l ->
    at_ s1 (header (S i)) = set_selfcalls (i32 (inside_calls g l))
      (set_ncall (i32 (outside_calls g l)) (cycle_header (S i) (header (S i)) h))
}.

Lemma numbered_parents x : parents (at_ s x) = parents (nl g x).
Proof.
  pose proof (iv_rest _ _ _ (nb_inv _ _ N) x) as H. unfold rest in H. simplify_eq.
  pose proof (init_nodes_spec g C) as [(_ & _ & _ & Hp) _].
  rewrite <- (proj2 (Hp x)). done.
Qed.

Lemma numbered_cycleno x : (x < nname g)%nat -> cycleno (at_ s x) = 0.
Proof.
  intros Hx. pose proof (iv_rest _ _ _ (nb_inv _ _ N) x) as H. unfold rest in H. simplify_eq.
  pose proof (init_nodes_spec g C) as [_ Hp]. rewrite Hp in *. rewrite decide_True in * by done.
  done.
Qed.

Lemma class_bound p l y : (p < nname g)%nat -> class_of s p l -> y ∈ l -> (y < nname g)%nat.
Proof.
  intros Hp (Hc & _ & Hl) Hy. pose proof (init_nodes_spec g C) as [(<- & _) _].
  apply (iv_bound _ _ _ (nb_inv _ _ N)). apply Hl in Hy.
  rewrite <- (iv_top _ _ _ (nb_inv _ _ N)), Hy. pose proof (nb_top _ _ N p Hp).
  unfold DFN_NAN. lia.
Qed.

Lemma parent_bound x a : a ∈ parents (nl g x) -> (arc_parentp (arcs g a) < nname g)%nat.
Proof. intros Ha. apply (wf_parents _ W) in Ha as [Ha _]. by apply (wf_arc _ W). Qed.

Lemma count_member_next c hdr m s1 x : next (count_member c hdr m s1) x = next s1 x.
Proof.
  unfold count_member. generalize (parents (at_ s1 m)). intros arcl. revert s1.
  induction arcl as [|a arcl IH]; intros s1; simpl; [done|]. rewrite IH.
  unfold count_arc, next. repeat case_match; [done|..]; rewrite at_update; by case_decide.
Qed.

Section step.
Context (hs : list nlptr) (s1 : dfnstate) (p : nlptr) (l : list nlptr).
Hypotheses (L : linked_to hs s1) (Hp : (p < nname g)%nat) (Hhs : p ∉ hs).
Hypotheses (Hhead : head s p = p) (Hl : class_of s p l).

Let c := S (length hs).
Let hdr := header c.
Let s1a := update hdr (fun _ => cycle_header c hdr p) s1.

Lemma step_low x : x ∈ l -> at_ s1 x = at_ s x.
Proof.
  intros Hx. apply (lk_out _ _ L); [by eapply class_bound|].
  destruct Hl as (_ & _ & Hin). apply Hin in Hx. by rewrite Hx.
Qed.

Lemma step_alloc x : x <> hdr -> at_ s1a x = at_ s1 x.
Proof. intros Hx. unfold s1a. by rewrite at_update, decide_False. Qed.

Lemma step_new x : (x < nname g)%nat -> x <> hdr.
Proof. unfold hdr. lia. Qed.

Lemma step_length : (length l <= S (nname g))%nat.
Proof.
  pose proof (inv_small _ _ _ (nb_inv _ _ N) p l Hl) as H.
  rewrite (iv_nname _ _ _ (nb_inv _ _ N)) in H.
  by pose proof (init_nodes_spec g C) as [(<- & _) _].
Qed.

(** The first loop over the members marks them. *)
Lemma link_marks :
  exists s1b, for_chain (link_member c hdr) p s1a = Done s1b /\
    nname (graph s1b) = nname g /\ arcs (graph s1b) = arcs g /\
    at_ s1b hdr = cycle_header c hdr p /\
    forall x, x <> hdr -> at_ s1b x = if decide (x ∈ l) then marked c (at_ s x) else at_ s1 x.
Proof.
  pose proof Hl as (Hc & Hnd & Hin).
  exists (foldl (fun a q => link_member c hdr q a) s1a l).
  assert (Hat : forall x, at_ (foldl (fun a q => link_member c hdr q a) s1a l) x =
    if decide (x ∈ l) then marked c (at_ s1a x) else at_ s1a x).
  { intros x. unfold link_member. by rewrite foldl_update_at. }
  split; [|split; [|split; [|split]]].
  - apply for_chain_run.
    + intros q s2 x. unfold link_member, next. rewrite at_update. by case_decide.
    + eapply chain_ext; [|exact Hc]. intros x Hx. unfold next.
      rewrite step_alloc, step_low by (try apply step_new; by eapply class_bound || done). done.
    + unfold s1a. simpl. rewrite (lk_nname _ _ L). apply step_length.
  - transitivity (nname (graph s1a)); [|apply (lk_nname _ _ L)].
    by apply (foldl_keeps (fun a => nname (graph a))).
  - transitivity (arcs (graph s1a)); [|apply (lk_arcs _ _ L)].
    by apply (foldl_keeps (fun a => arcs (graph a))).
  - rewrite Hat, decide_False.
    + unfold s1a. by rewrite at_update, decide_True.
    + intros H. apply (step_new hdr); [|done]. by eapply class_bound.
  - intros x Hx. rewrite Hat, step_alloc by done. case_decide; [|done]. by rewrite step_low.
Qed.

(** The second loop counts the calls. *)
Lemma link_counts s1b :
  nname (graph s1b) = nname g -> arcs (graph s1b) = arcs g ->
  at_ s1b hdr = cycle_header c hdr p ->
  (forall x, x <> hdr -> at_ s1b x = if decide (x ∈ l) then marked c (at_ s x) else at_ s1 x) ->
  exists s2, for_chain (count_member c hdr) p s1b = Done s2 /\
    counting g l c hdr (cycle_header c hdr p) (outside_calls g l) (inside_calls g l) s1b s2.
Proof.
  intros Hn Ha Hhdr Hat. pose proof Hl as (Hc & Hnd & Hin).
  assert (Hct : counting g l c hdr (cycle_header c hdr p) 0 0 s1b s1b).
  { split; [done|done|done|by rewrite Hhdr|..].
    - intros x Hx. rewrite Hat by by apply step_new. case_decide as Hxl.
      + rewrite bool_decide_eq_true_2 by done. unfold marked. apply Z.eqb_refl.
      + rewrite bool_decide_eq_false_2 by done. apply Z.eqb_neq.
        destruct (decide (head s x ∈ hs)) as [Hi|Hi].
        * apply list_elem_of_lookup in Hi as [i Hi]. rewrite (lk_in _ _ L x i Hx Hi). apply lookup_lt_Some in Hi.
          unfold marked, c. cbn [cycleno set_cyclehead set_cycleno]. lia.
        * rewrite (lk_out _ _ L x Hx Hi), numbered_cycleno by done. unfold c. lia.
    - intros x Hx. rewrite Hat by by apply step_new. rewrite <- numbered_parents.
      case_decide; [done|].
      destruct (decide (head s x ∈ hs)) as [Hi|Hi].
      + apply list_elem_of_lookup in Hi as [i Hi]. by rewrite (lk_in _ _ L x i Hx Hi).
      + by rewrite (lk_out _ _ L x Hx Hi). }
  exists (foldl (fun a q => count_member c hdr q a) s1b l). split.
  - apply for_chain_run.
    + intros. apply count_member_next.
    + eapply chain_ext; [|exact Hc]. intros x Hx. unfold next.
      rewrite Hat, decide_True by (try apply step_new; by eapply class_bound || done). done.
    + rewrite Hn. apply step_length.
  - apply (counting_members g l c hdr _ ltac:(unfold hdr; lia) l 0 0); [done|].
    intros m Hm. split; [by eapply class_bound|]. apply parent_bound.
Qed.
Lemma link_step :
  unattached s p = true ->
  exists s2, link_cycle p (length hs, s1) = Done (c, s2) /\ linked_to (hs ++ [p]) s2.
Proof.
  intros Hun. pose proof Hl as (Hc & Hnd & Hin).
  destruct link_marks as (s1b & Hrun1 & Hn1 & Ha1 & Hhdr & Hat).
  destruct (link_counts s1b Hn1 Ha1 Hhdr Hat) as (s2 & Hrun2 & Hct).
  exists s2. split.
  - unfold link_cycle, unattached. rewrite step_low by (by apply Hin).
    unfold unattached in Hun. rewrite Hun. unfold cyclenl. rewrite (lk_nname _ _ L).
    fold c hdr. fold s1a. rewrite Hrun1. cbn [mbind outcome_bind]. by rewrite Hrun2.
  - assert (Hlow : forall x, (x < nname g)%nat ->
      at_ s2 x = if decide (x ∈ l) then marked c (at_ s x) else at_ s1 x).
    { intros x Hx. pose proof (step_new x Hx). rewrite (ct_other _ _ _ _ _ _ _ _ _ Hct) by done.
      by apply Hat. }
    split.
    + by rewrite (ct_nname _ _ _ _ _ _ _ _ _ Hct).
    + apply (ct_arcs _ _ _ _ _ _ _ _ _ Hct).
    + intros x i Hx Hi. rewrite Hlow by done. case_decide as Hxl.
      * apply Hin in Hxl. rewrite Hxl in Hi.
        destruct (decide (i < length hs)%nat) as [Hlt|Hge].
        { rewrite lookup_app_l in Hi by done. destruct Hhs. by eapply list_elem_of_lookup_2. }
        apply lookup_lt_Some in Hi. rewrite length_app in Hi. simpl in Hi.
        unfold c. do 2 f_equal. lia.
      * apply (lk_in _ _ L); [done|]. apply lookup_app_Some in Hi as [Hi|[_ Hi]]; [done|].
        apply list_lookup_singleton_Some in Hi as [_ Hi]. destruct Hxl. by apply Hin.
    + intros x Hx Hi. apply not_elem_of_app in Hi as [Hi1 Hi2].
      rewrite Hlow, decide_False by (try done; rewrite Hin; set_solver).
      by apply (lk_out _ _ L).
    + intros i h lh Hi Hlh. apply lookup_app_Some in Hi as [Hi|[Hge Hi]].
      * assert (Hne : header (S i) <> hdr).
        { apply lookup_lt_Some in Hi. unfold hdr, c. lia. }
        rewrite (ct_other _ _ _ _ _ _ _ _ _ Hct), Hat, decide_False by
          (try done; intros Hx; apply (class_bound p) in Hx; try done; lia).
        by eapply (lk_header _ _ L).
      * apply list_lookup_singleton_Some in Hi as [Hi <-].
        replace i with (length hs) by lia. fold c. fold hdr.
        destruct Hlh as (Hch & _). rewrite (chain_det _ _ _ _ Hch Hc).
        apply (ct_header _ _ _ _ _ _ _ _ _ Hct).
Qed.
End step.

(** ** All the cycles *)

Definition heads (todo : list nlptr) : list nlptr :=
  filter (fun p => unattached s p = true) todo.

Lemma link_all todo : forall hs s1,
  linked_to hs s1 -> NoDup (hs ++ todo) -> (forall p, p ∈ todo -> (p < nname g)%nat) ->
  exists s2, foreach link_cycle todo (length hs, s1) = Done (length (hs ++ heads todo), s2) /\
    linked_to (hs ++ heads todo) s2.
Proof.
  induction todo as [|p todo IH]; intros hs s1 L Hnd Hb; cbn [foreach].
  { exists s1. rewrite app_nil_r. done. }
  assert (Hp : (p < nname g)%nat) by (apply Hb; left).
  assert (Hph : p ∉ hs).
  { apply NoDup_app in Hnd as (_ & Hnd & _). intros Hin. apply (Hnd p Hin). left. }
  assert (Hb' : forall q, q ∈ todo -> (q < nname g)%nat) by (intros; apply Hb; by right).
  unfold heads. rewrite filter_cons. fold (heads todo). case_decide as Hun.
  - pose proof Hun as Hhead. unfold unattached in Hhead.
    apply andb_true_iff in Hhead as [Hhead%Nat.eqb_eq _].
    destruct (head_class s (iv_classes _ _ _ (nb_inv _ _ N)) p Hhead) as [l Hl].
    destruct (link_step hs s1 p l L Hp Hph Hhead Hl Hun) as (s2 & -> & L2).
    cbn [mbind outcome_bind].
    destruct (IH (hs ++ [p]) s2 L2) as (s3 & Hrun & L3); [by rewrite <- app_assoc|done|].
    rewrite length_app in Hrun. simpl in Hrun. rewrite Nat.add_1_r in Hrun.
    rewrite <- app_assoc in Hrun, L3. by exists s3.
  - assert (Hskip : link_cycle p (length hs, s1) = Done (length hs, s1)).
    { unfold link_cycle. destruct (unattached s1 p) eqn:Hu; [|done]. exfalso.
      destruct (decide (head s p ∈ hs)) as [Hi|Hi].
      - apply list_elem_of_lookup in Hi as [i Hi]. unfold unattached in Hu.
        rewrite (lk_in _ _ L p i Hp Hi) in Hu. apply andb_true_iff in Hu as [Hu%Nat.eqb_eq _].
        unfold marked in Hu. simpl in Hu. lia.
      - apply Hun. unfold unattached in Hu. by rewrite (lk_out _ _ L p Hp Hi) in Hu. }
    rewrite Hskip. cbn [mbind outcome_bind]. apply IH; [done| |done].
    apply NoDup_app in Hnd as (H1 & H2 & H3). apply NoDup_cons in H3 as [_ H3].
    apply NoDup_app. split; [done|]. split; [|done]. intros x Hx Hx'. apply (H2 x Hx). by right.
Qed.

Lemma count_cycles_heads l k :
  fold_left (fun n p => if unattached s p then S n else n) l k = (k + length (heads l))%nat.
Proof.
  revert k. induction l as [|p l IH]; intros k; simpl; [lia|]. rewrite IH.
  unfold heads. rewrite filter_cons. destruct (unattached s p); simpl; lia.
Qed.

Lemma graph_nname : nname (graph s) = nname g.
Proof.
  rewrite (iv_nname _ _ _ (nb_inv _ _ N)). apply (init_nodes_spec g C).
Qed.

Lemma cyclelink_spec :
  exists s', cyclelink s = Done (length (heads (seq 0 (nname g))), s') /\
    linked_to (heads (seq 0 (nname g))) s'.
Proof.
  destruct (link_all (seq 0 (nname g)) [] s) as (s' & Hrun & L).
  - split.
    + apply graph_nname.
    + rewrite (iv_arcs _ _ _ (nb_inv _ _ N)). apply (init_nodes_spec g C).
    + intros x i _ Hi. by rewrite lookup_nil in Hi.
    + done.
    + intros i h l Hi. by rewrite lookup_nil in Hi.
  - apply NoDup_seq.
  - intros p. rewrite elem_of_seq. lia.
  - exists s'. split; [|done]. unfold cyclelink, count_cycles. rewrite graph_nname.
    change (O, s) with (length (@nil nlptr), s). rewrite Hrun. cbn [mbind outcome_bind].
    by rewrite count_cycles_heads.
Qed.
End link.

(** ** The result *)

(** On a cycle of more than one function. *)
Definition in_cycle (g : callgraph) (x : nlptr) : Prop := exists y, y <> x /\ mutual g x y.

Section result.
Context (g : callgraph) (s : dfnstate).
Hypotheses (W : wf g) (C : conserved g) (N : numbered g s).

Abbreviation hs := (heads s (seq 0 (nname g))).

Lemma elem_of_heads h :
  h ∈ hs <-> (h < nname g)%nat /\ head s h = h /\ exists y, y <> h /\ head s y = h.
Proof.
  unfold heads. rewrite list_elem_of_filter, elem_of_seq. unfold unattached. fold (head s h).
  assert (Hnext : head s h = h -> (exists y, y <> h /\ head s y = h) <-> cnext (at_ s h) <> None).
  { intros Hh. destruct (head_class s (iv_classes _ _ _ (nb_inv _ _ N)) h Hh) as (l & Hc & Hnd & Hl).
    inversion Hc as [? Hnx|? q l' Hnx Hc']; subst; unfold next in Hnx; rewrite Hnx.
    - split; [|done]. intros (y & Hy & Hhy). apply Hl, list_elem_of_singleton in Hhy. done.
    - split; [done|]. intros _. destruct (chain_head _ _ _ Hc') as [l'' ->].
      apply NoDup_cons in Hnd as [Hq _]. exists q. split; [set_solver|]. apply Hl. set_solver. }
  rewrite andb_true_iff, Nat.eqb_eq. destruct (cnext (at_ s h)); naive_solver lia.
Qed.

Lemma head_in_heads x : (x < nname g)%nat -> head s x ∈ hs <-> in_cycle g x.
Proof.
  intros Hx. rewrite elem_of_heads. split.
  - intros (_ & _ & y & Hy & Hhy). destruct (decide (x = head s x)) as [Heq|Hne].
    + exists y. split; [congruence|]. apply (nb_component g s W C N); [done|congruence].
    + exists (head s x). split; [done|]. apply (nb_component g s W C N); [done|].
      symmetry. apply (head_idem s (iv_classes _ _ _ (nb_inv _ _ N))).
  - intros (y & Hy & Hm). apply (nb_component g s W C N) in Hm; [|done].
    destruct (head_class s (iv_classes _ _ _ (nb_inv _ _ N)) (head s x)) as (l & Hl).
    { apply (head_idem s (iv_classes _ _ _ (nb_inv _ _ N))). }
    split; [|split; [apply (head_idem s (iv_classes _ _ _ (nb_inv _ _ N)))|]].
    + pose proof (init_nodes_spec g C) as [(<- & _) _].
      apply (iv_bound _ _ _ (nb_inv _ _ N)). rewrite (iv_top _ _ _ (nb_inv _ _ N)).
      pose proof (nb_top _ _ N x Hx). unfold DFN_NAN. lia.
    + destruct (decide (x = head s x)) as [Heq|Hne]; [exists y; split; congruence|].
      by exists x.
Qed.

Section linked.
Context (s' : dfnstate).
Hypothesis L : linked_to g s hs s'.

(** A function of the table after linking. *)
Lemma linked_node x :
  (x < nname g)%nat ->
  (exists i, hs !! i = Some (head s x) /\ in_cycle g x /\ at_ s' x = marked g (S i) (at_ s x)) \/
  (~ in_cycle g x /\ head s x = x /\ at_ s' x = at_ s x).
Proof.
  intros Hx. destruct (decide (head s x ∈ hs)) as [Hi|Hi].
  - left. pose proof Hi as Hc. apply head_in_heads in Hc; [|done].
    apply list_elem_of_lookup in Hi as [i Hi]. exists i. split; [done|]. split; [done|].
    by apply (lk_in _ _ _ _ L).
  - right. pose proof Hi as Hc. rewrite head_in_heads in Hc by done. split; [done|].
    split; [|by apply (lk_out _ _ _ _ L)].
    destruct (decide (head s x = x)) as [|Hne]; [done|]. destruct Hc. exists (head s x).
    split; [done|]. apply (nb_component g s W C N); [done|].
    symmetry. apply (head_idem s (iv_classes _ _ _ (nb_inv _ _ N))).
Qed.

Lemma heads_inj i j h : hs !! i = Some h -> hs !! j = Some h -> i = j.
Proof. apply NoDup_lookup. apply NoDup_filter, NoDup_seq. Qed.

Lemma linked_cycleno x y :
  (x < nname g)%nat -> (y < nname g)%nat -> in_cycle g x ->
  cycleno (at_ s' x) = cycleno (at_ s' y) <-> mutual g x y.
Proof.
  intros Hx Hy Hc. rewrite <- (nb_component g s W C N) by done.
  destruct (linked_node x Hx) as [(i & Hi & _ & ->)|(? & _)]; [|done].
  destruct (linked_node y Hy) as [(j & Hj & _ & ->)|(Hn & Hhy & ->)].
  - unfold marked. cbn [cycleno set_cyclehead set_cycleno]. split.
    + intros Heq. assert (i = j) as -> by lia. congruence.
    + intros Heq. rewrite Heq in Hi. by rewrite (heads_inj i j (head s y)).
  - rewrite (numbered_cycleno g s C N y Hy). unfold marked.
    cbn [cycleno set_cyclehead set_cycleno]. split; [lia|]. intros Heq. destruct Hn.
    apply head_in_heads; [done|]. rewrite <- Heq. by eapply list_elem_of_lookup_2.
Qed.
End linked.

(** *** Conservation of the calls *)

Lemma zsum_zero {A} (f : A -> Z) l : (forall a, a ∈ l -> f a = 0) -> zsum f l = 0.
Proof.
  induction l as [|a l IH]; intros H; simpl; [done|].
  rewrite H by left. rewrite IH; [done|]. intros; apply H; by right.
Qed.

Lemma zsum_single (P : arcptr -> Prop) `{forall a, Decision (P a)} (f : arcptr -> Z) l a0 :
  NoDup l -> a0 ∈ l -> (forall a, a ∈ l -> P a <-> a = a0) ->
  zsum (fun a => if decide (P a) then f a else 0) l = f a0.
Proof.
  intros Hnd. induction Hnd as [|a l Ha Hnd IH]; intros Hin HP; [by apply elem_of_nil in Hin|].
  simpl. apply elem_of_cons in Hin as [<-|Hin].
  - rewrite decide_True by (apply HP; [left|done]). rewrite zsum_zero; [lia|].
    intros b Hb. rewrite decide_False; [done|]. intros HPb%HP; [congruence|by right].
  - rewrite decide_False by (intros HPa%HP; [congruence|left]). rewrite IH; [lia|done|].
    intros b Hb. apply HP. by right.
Qed.

(** The calls of a function to itself. *)
Lemma self_sum m :
  zsum (fun a => if decide (arc_parentp (arcs g a) = m) then arc_count (arcs g a) else 0)
    (parents (nl g m)) = weight g m m.
Proof.
  unfold weight. destruct (arclookup g (Some m) (Some m)) as [a0|] eqn:Ha.
  - apply (arclookup_Some _ _ _ _ W) in Ha as (Ha & Hpa & Hca).
    apply (zsum_single (fun a => arc_parentp (arcs g a) = m) (fun a => arc_count (arcs g a))).
    + apply (wf_nodup_parents _ W).
    + by apply (wf_parents _ W).
    + intros a [Hlt Hc]%(wf_parents _ W). split; [|by intros ->].
      intros Hp. apply (wf_unique _ W); congruence.
  - apply zsum_zero. intros a [Hlt Hc]%(wf_parents _ W). case_decide as Hp; [|done].
    by destruct (arclookup_None g m m a W Ha).
Qed.

Lemma incoming_split l m :
  incoming g m = weight g m m + zsum (from_outside g l m) (parents (nl g m)) +
    zsum (from_inside g l m) (parents (nl g m)).
Proof.
  rewrite <- self_sum, <- !zsum_add. apply zsum_ext. intros a _.
  unfold from_outside, from_inside. repeat case_decide; lia.
Qed.

Lemma i32_zsum {A} (f f' : A -> Z) l :
  (forall a, a ∈ l -> f a = i32 (f' a)) -> i32 (zsum f l) = i32 (zsum f' l).
Proof.
  induction l as [|a l IH]; intros H; simpl; [done|].
  rewrite (H a) by left. rewrite i32_add_l, (Z.add_comm (f' a)), <- i32_add_l.
  rewrite IH by (intros; apply H; by right). rewrite i32_add_l. f_equal. lia.
Qed.

Lemma numbered_ncall m :
  (m < nname g)%nat -> ncall (at_ s m) = i32 (incoming g m - weight g m m).
Proof.
  intros Hm. pose proof (iv_rest _ _ _ (nb_inv _ _ N) m) as H. unfold rest in H.
  assert (Hr : ncall (at_ s m) = ncall (nl (init_nodes g) m)) by by simplify_eq.
  rewrite Hr. pose proof (init_nodes_spec g C) as [_ ->]. rewrite decide_True by done.
  simpl. rewrite (C m). unfold self_count, Z.sub. by rewrite i32_add_l.
Qed.

Lemma members_ncall l :
  (forall m, m ∈ l -> (m < nname g)%nat) ->
  i32 (zsum (fun m => ncall (at_ s m)) l) = i32 (i32 (outside_calls g l) + i32 (inside_calls g l)).
Proof.
  intros Hl. rewrite i32_add_l, Z.add_comm, i32_add_l.
  rewrite (i32_zsum _ (fun m => zsum (from_outside g l m) (parents (nl g m)) +
    zsum (from_inside g l m) (parents (nl g m)))).
  - rewrite zsum_add. f_equal. unfold outside_calls, inside_calls. lia.
  - intros m Hm. rewrite numbered_ncall by auto. rewrite (incoming_split l m). f_equal. lia.
Qed.
End result.

(** A graph whose functions could be numbered. *)
Definition doarcs_numbers (g : callgraph) (s : dfnstate) : Prop :=
  number_nodes (start (init_nodes g)) = Done s.

(** [doarcs] numbers the cycles of more than one function from 1 to
    [ncycle]: two functions of such cycles have the same number just when each
    reaches the other, the number 0 is for the functions on no such cycle, and
    [cyclehead] points to the header with that number, or to the function
    itself. *)
Theorem cyclelink_numbers_components g s :
  wf g -> conserved g -> doarcs_numbers g s ->
  exists ncycle s', doarcs g = Done (ncycle, s') /\
  (forall x, (x < nname g)%nat ->
    0 <= cycleno (at_ s' x) <= Z.of_nat ncycle /\
    (cycleno (at_ s' x) <> 0 <-> in_cycle g x) /\
    cyclehead (at_ s' x) = (if cycleno (at_ s' x) =? 0 then x
      else (nname g + 1 + Z.to_nat (cycleno (at_ s' x)))%nat) /\
    toporder (at_ s' x) = toporder (at_ s x)) /\
  (forall x y, (x < nname g)%nat -> (y < nname g)%nat -> in_cycle g x ->
    cycleno (at_ s' x) = cycleno (at_ s' y) <-> reaches g x y /\ reaches g y x) /\
  (forall c, (0 < c <= ncycle)%nat -> exists x, (x < nname g)%nat /\ cycleno (at_ s' x) = Z.of_nat c).
Proof.
  intros W C Hs. pose proof (number_nodes_numbered g s W C Hs) as N.
  destruct (cyclelink_spec g s W C N) as (s' & Hrun & L).
  exists (length (heads s (seq 0 (nname g)))), s'.
  split; [unfold doarcs; rewrite Hs; cbn [mbind outcome_bind]; apply Hrun|]. split; [|split].
  - intros x Hx. destruct (linked_node g s W C N s' L x Hx) as [(i & Hi & Hc & ->)|(Hc & Hh & ->)].
    + apply lookup_lt_Some in Hi. unfold marked. cbn [cycleno cyclehead toporder set_cyclehead set_cycleno].
      rewrite (proj2 (Z.eqb_neq _ _)) by lia. rewrite Nat2Z.id.
      split; [lia|]. split; [split; [done|lia]|]. done.
    + rewrite (numbered_cycleno g s C N x Hx). split; [lia|]. done.
  - intros x y Hx Hy Hc. by apply (linked_cycleno g s W C N s' L).
  - intros c Hc. destruct (lookup_lt_is_Some_2 (heads s (seq 0 (nname g))) (c - 1)) as [h Hh]; [lia|].
    pose proof (list_elem_of_lookup_2 _ _ _ Hh) as Hin. apply (elem_of_heads g s W C N) in Hin as (Hb & Hhh & _).
    exists h. split; [done|]. rewrite (lk_in _ _ _ _ L h (c - 1)) by (try done; by rewrite Hhh).
    unfold marked. cbn [cycleno set_cyclehead set_cycleno]. lia.
Qed.

(** C27: no calls are lost in the cycles: the header of a cycle counts the calls
    to its members from outside in [ncall] and those among different members in
    [selfcalls], and the two together are the calls of all members, modulo
    2^32. *)
Theorem cyclelink_conserves_calls g s :
  wf g -> conserved g -> doarcs_numbers g s ->
  exists ncycle s', doarcs g = Done (ncycle, s') /\
  forall c, (0 < c <= ncycle)%nat ->
    exists members, NoDup members /\
      (forall x, x ∈ members <-> (x < nname g)%nat /\ cycleno (at_ s' x) = Z.of_nat c) /\
      let header := at_ s' (nname g + 1 + c)%nat in
      ncall header = i32 (outside_calls g members) /\
      selfcalls header = i32 (inside_calls g members) /\
      i32 (ncall header + selfcalls header) = i32 (zsum (fun m => ncall (at_ s' m)) members).
Proof.
  intros W C Hs. pose proof (number_nodes_numbered g s W C Hs) as N.
  destruct (cyclelink_spec g s W C N) as (s' & Hrun & L).
  exists (length (heads s (seq 0 (nname g)))), s'.
  split; [unfold doarcs; rewrite Hs; cbn [mbind outcome_bind]; apply Hrun|].
  intros [|c] Hc; [lia|].
  destruct (lookup_lt_is_Some_2 (heads s (seq 0 (nname g))) c) as [h Hh]; [lia|].
  pose proof (list_elem_of_lookup_2 _ _ _ Hh) as Hin. apply (elem_of_heads g s W C N) in Hin as (Hb & Hhh & _).
  destruct (head_class s (iv_classes _ _ _ (nb_inv _ _ N)) h Hhh) as [l Hl].
  pose proof Hl as (_ & Hnd & Hin). exists l. split; [done|].
  assert (Hlow : forall x, x ∈ l -> (x < nname g)%nat) by (intros; by eapply class_bound).
  assert (Hat : forall x, x ∈ l -> at_ s' x = marked g (S c) (at_ s x)).
  { intros x Hx. apply (lk_in _ _ _ _ L); [by apply Hlow|]. apply Hin in Hx. by rewrite Hx. }
  split; [|cbv zeta; rewrite (lk_header _ _ _ _ L c h l Hh Hl)].
  - intros x. split; [intros Hx; split; [by apply Hlow|by rewrite Hat]|].
    intros [Hx Hcy]. apply Hin.
    destruct (linked_node g s W C N s' L x Hx) as [(i & Hi & _ & Hx')|(_ & _ & Hx')]; rewrite Hx' in Hcy.
    + unfold marked in Hcy. cbn [cycleno set_cyclehead set_cycleno] in Hcy.
      replace i with c in Hi by lia. congruence.
    + rewrite (numbered_cycleno g s C N x Hx) in Hcy. lia.
  - split; [done|]. split; [done|]. unfold set_selfcalls, set_ncall.
    cbn [ncall selfcalls]. rewrite <- (members_ncall g s W C N l Hlow). f_equal.
    apply zsum_ext. intros m Hm. by rewrite Hat.
Qed.

(** C28: the times can be propagated: for every arc the checks of
    [timepropagate] hold, the message [toporder botches] is never printed. *)
Theorem timepropagate_never_botches g s :
  wf g -> conserved g -> doarcs_numbers g s ->
  exists ncycle s', doarcs g = Done (ncycle, s') /\
  forall x a, (x < nname g)%nat -> a ∈ children (nl g x) -> botches s' x a = false.
Proof.
  intros W C Hs. pose proof (number_nodes_numbered g s W C Hs) as N.
  destruct (cyclelink_spec g s W C N) as (s' & Hrun & L).
  exists (length (heads s (seq 0 (nname g)))), s'.
  split; [unfold doarcs; rewrite Hs; cbn [mbind outcome_bind]; apply Hrun|].
  intros x a Hx Ha. unfold botches. rewrite (lk_arcs _ _ _ _ L). set (y := arc_childp (arcs g a)).
  assert (Hcall : calls g x y) by (by exists a).
  destruct (calls_bound g x y W Hcall) as [_ Hy].
  destruct (numbers_topological g s W C Hs) as (Htop & Hnum & _).
  destruct (_ =? 0); [done|]. destruct (Nat.eqb_spec y x) as [|Hne]; [done|].
  assert (Hcy := fun H => linked_cycleno g s W C N s' L y x Hy Hx H).
  assert (Ht : toporder (at_ s' x) = toporder (at_ s x) /\ toporder (at_ s' y) = toporder (at_ s y)).
  { destruct (linked_node g s W C N s' L x Hx) as [(i & _ & _ & ->)|(_ & _ & ->)];
      destruct (linked_node g s W C N s' L y Hy) as [(j & _ & _ & ->)|(_ & _ & ->)]; done. }
  destruct Ht as [-> ->].
  assert (Hlt : ~ mutual g y x -> (toporder (at_ s x) <=? toporder (at_ s y)) = false).
  { intros Hm. apply Z.leb_gt. destruct (Htop x y Hcall) as [|[Heq Hr]]; [done|].
    destruct Hm. split; [done|]. by apply rtc_once. }
  destruct (linked_node g s W C N s' L y Hy) as [(j & _ & Hc & Hyj)|(Hc & Hh & Hyj)].
  - assert (Hhdr : cyclehead (at_ s' y) <> y).
    { rewrite Hyj. unfold marked. cbn [cyclehead set_cyclehead]. lia. }
    rewrite (proj2 (Nat.eqb_neq _ _) Hhdr). simpl.
    destruct (Z.eqb_spec (cycleno (at_ s' x)) (cycleno (at_ s' y))) as [|Hcne]; [done|].
    apply Hlt. intros Hm. apply Hcne. symmetry. by apply Hcy.
  - rewrite Hyj. unfold head in Hh. rewrite Hh, Nat.eqb_refl. simpl. apply Hlt.
    intros Hm. apply Hc. exists x. by split.
Qed.

(** *** The small profile *)

Lemma small_doarcs_numbers :
  exists s, doarcs_numbers small_profile s.
Proof.
  unfold doarcs_numbers. pose proof small_numbers_done as H.
  destruct (number_nodes _) as [s| | |]; [by exists s|done..].
Qed.

Lemma cyclelink_numbers_components_witness :
  match doarcs small_profile with
  | Done (ncycle, s') => ncycle = 1%nat /\
      map (fun p => cycleno (at_ s' p)) (seq 0 7) = [0; 1; 1; 1; 0; 0; 0] /\
      (cycleno (at_ s' 1) = cycleno (at_ s' 3) <->
       reaches small_profile 1%nat 3%nat /\ reaches small_profile 3%nat 1%nat)
  | _ => False
  end.
Proof.
  destruct small_doarcs_numbers as [s Hs].
  assert (H : match doarcs small_profile with
    | Done (n, s') => n = 1%nat /\ map (fun p => cycleno (at_ s' p)) (seq 0 7) = [0; 1; 1; 1; 0; 0; 0]
    | _ => False end) by (vm_compute; split; reflexivity).
  destruct (cyclelink_numbers_components small_profile s (proj1 small_profile_wf)
    (proj2 small_profile_wf) Hs) as (n & s' & E & H1 & H2 & _).
  rewrite E in H |- *. destruct H as [Hn Hc]. split; [exact Hn|]. split; [exact Hc|].
  apply H2; [vm_compute; lia..|]. apply H1; [vm_compute; lia|]. simpl in Hc. congruence.
Defined.

Lemma cyclelink_conserves_calls_witness :
  match doarcs small_profile with
  | Done (ncycle, s') =>
      ncall (at_ s' 9) = 3 /\ selfcalls (at_ s' 9) = 15 /\
      exists members : list nat, forall x, x ∈ members <-> (x < 7)%nat /\ cycleno (at_ s' x) = 1
  | _ => False
  end.
Proof.
  destruct small_doarcs_numbers as [s Hs].
  assert (H : match doarcs small_profile with
    | Done (n, s') => n = 1%nat /\ ncall (at_ s' 9) = 3 /\ selfcalls (at_ s' 9) = 15
    | _ => False end) by (vm_compute; repeat split; reflexivity).
  destruct (cyclelink_conserves_calls small_profile s (proj1 small_profile_wf)
    (proj2 small_profile_wf) Hs) as (n & s' & E & H1).
  rewrite E in H |- *. destruct H as (Hn & Hc & Hi). split; [exact Hc|]. split; [exact Hi|].
  destruct (H1 1%nat) as (m & _ & Hm & _); [lia|]. exists m. exact Hm.
Defined.

Lemma timepropagate_never_botches_witness :
  match doarcs small_profile with
  | Done (_, s') => arc_childp (arcs (graph s') 5) = 4%nat /\ botches s' 3 5 = false
  | _ => False
  end.
Proof.
  destruct small_doarcs_numbers as [s Hs].
  assert (H : match doarcs small_profile with
    | Done (_, s') => arc_childp (arcs (graph s') 5) = 4%nat
    | _ => False end) by (vm_compute; reflexivity).
  destruct (timepropagate_never_botches small_profile s (proj1 small_profile_wf)
    (proj2 small_profile_wf) Hs) as (n & s' & E & H1).
  rewrite E in H |- *. split; [exact H|]. apply H1; [vm_compute; lia|].
  refine (bool_decide_unpack (5%nat ∈ children (nl small_profile 3)) _). vm_compute. exact I.
Defined.
