(* ===== verification/HashTable.v ===== *)
(** * as/hash.c: the assembler's hash tables

    A table of linked lists whose entries are moved to the front when they are
    looked up.  A pointer to an entry is an address in the heap of the table,
    as [obstack_alloc] hands them out; the heads of the lists are in [table].
    A string is the list of its characters, without the terminating zero; the
    stored data are pointers the code only copies, with [NULL] among them. *)

From Stdlib Require Import ZArith Lia Bool Ascii.
From stdpp Require Import base option numbers functions strings list.
From S2P Require Import Prelude CInt.

Abbreviation entryptr := nat (only parsing).
Abbreviation cstring := (list ascii) (only parsing).

(** The data pointers. *)
Definition PTR : Type := Z.
Definition NULL : PTR := 0.

Definition DEFAULT_SIZE : Z := 4051.

Record hash_entry := mk_hash_entry {
  next : option entryptr;
  str : cstring;
  hash : Z;
  data : PTR
}.

Definition set_next v e := mk_hash_entry v (str e) (hash e) (data e).
Definition set_data v e := mk_hash_entry (next e) (str e) (hash e) v.

(** The control block with its memory: the entries below [brk] are allocated. *)
Record hash_control := mk_hash_control {
  table : list (option entryptr);
  size : Z;
  memory : entryptr -> hash_entry;
  brk : entryptr
}.

Definition hash_new : hash_control :=
  mk_hash_control (replicate (Z.to_nat DEFAULT_SIZE) None) DEFAULT_SIZE
    (fun _ => mk_hash_entry None [] 0 NULL) O.

(** ** Characters and strings of C *)

(** [s[n]], the terminating zero included. *)
Definition char_at (s : cstring) (n : nat) : ascii := default Ascii.zero (s !! n).

(** A [char] as an [unsigned int]: it is signed. *)
Definition char_uint (a : ascii) : Z := u32 (sw 8 (Z.of_N (N_of_ascii a))).

(** [strncmp(s, key, n) == 0] *)
Fixpoint strncmp_eq (s key : cstring) (n : nat) : bool :=
  match n with
  | O => true
  | S n =>
    if Ascii.eqb (char_at s 0) (char_at key 0) then
      if Ascii.eqb (char_at s 0) Ascii.zero then true else strncmp_eq (List.tl s) (List.tl key) n
    else false
  end.

(** ** hash_lookup *)

Definition hash_char (hash c : Z) : Z :=
  let hash := u32 (hash + u32 (c + u32 (Z.shiftl c 17))) in
  Z.lxor hash (Z.shiftr hash 2).

Definition hash_length (hash len : Z) : Z :=
  let hash := u32 (hash + u64 (len + u64 (Z.shiftl len 17))) in
  Z.lxor hash (Z.shiftr hash 2).

(** The hash code of the first [len] characters of [key]. *)
Definition hash_code (key : cstring) (len : nat) : Z :=
  hash_length
    (fold_left (fun h n => hash_char h (char_uint (char_at key n))) (seq 0 len) 0) (Z.of_nat len).

Definition entry_matches (e : hash_entry) (code : Z) (key : cstring) (len : nat) : bool :=
  (hash e =? code) && strncmp_eq (str e) key len && Ascii.eqb (char_at (str e) len) Ascii.zero.

(** The loop along a list: the entry found with the one before it.  [None]
    when the fuel runs out. *)
Fixpoint search (fuel : nat) (h : hash_control) (code : Z) (key : cstring) (len : nat)
    (prev p : option entryptr) : option (option (option entryptr * entryptr)) :=
  match p with
  | None => Some None
  | Some p =>
    if entry_matches (memory h p) code key len then Some (Some (prev, p))
    else
      match fuel with
      | O => None
      | S fuel => search fuel h code key len (Some p) (next (memory h p))
      end
  end.

Definition set_memory (p : entryptr) (f : hash_entry -> hash_entry) (h : hash_control) :=
  mk_hash_control (table h) (size h) (alter f p (memory h)) (brk h).

Definition set_list (index : nat) (p : option entryptr) (h : hash_control) :=
  mk_hash_control (<[index := p]> (table h)) (size h) (memory h) (brk h).

Definition list_at (h : hash_control) (index : nat) : option entryptr :=
  default None (table h !! index).

(** Moves [p], found behind [prev], to the front of its list. *)
Definition move_to_front (index : nat) (prev p : entryptr) (h : hash_control) : hash_control :=
  let h := set_memory prev (set_next (next (memory h p))) h in
  let h := set_memory p (set_next (list_at h index)) h in
  set_list index (Some p) h.

Record lookup_result := mk_lookup_result {
  lr_table : hash_control;
  lr_list : nat;
  lr_hash : Z;
  lr_entry : option entryptr
}.

Definition hash_lookup (h : hash_control) (key : cstring) (len : nat) : option lookup_result :=
  let code := hash_code key len in
  let index := Z.to_nat (code mod size h) in
  r ← search (brk h) h code key len None (list_at h index);
  match r with
  | None => Some (mk_lookup_result h index code None)
  | Some (None, p) => Some (mk_lookup_result h index code (Some p))
  | Some (Some prev, p) =>
      Some (mk_lookup_result (move_to_front index prev p h) index code (Some p))
  end.

(** ** The operations

    Each gives the table and its result; [None] is a search without end, or a
    call of [abort]. *)

(** Allocates an entry in front of a list. *)
Definition new_entry (index : nat) (key : cstring) (code : Z) (value : PTR) (h : hash_control) :
    hash_control :=
  let p := brk h in
  let h := mk_hash_control (table h) (size h)
    (<[p := mk_hash_entry (list_at h index) key code value]> (memory h)) (S p) in
  set_list index (Some p) h.

(** [true]: the error "exists". *)
Definition hash_insert (h : hash_control) (key : cstring) (value : PTR) :
    option (hash_control * bool) :=
  r ← hash_lookup h key (length key);
  match lr_entry r with
  | Some _ => Some (lr_table r, true)
  | None => Some (new_entry (lr_list r) key (lr_hash r) value (lr_table r), false)
  end.

Definition hash_jam (h : hash_control) (key : cstring) (value : PTR) : option hash_control :=
  r ← hash_lookup h key (length key);
  match lr_entry r with
  | Some p => Some (set_memory p (set_data value) (lr_table r))
  | None => Some (new_entry (lr_list r) key (lr_hash r) value (lr_table r))
  end.

Definition hash_replace (h : hash_control) (key : cstring) (value : PTR) :
    option (hash_control * PTR) :=
  r ← hash_lookup h key (length key);
  match lr_entry r with
  | None => Some (lr_table r, NULL)
  | Some p => Some (set_memory p (set_data value) (lr_table r), data (memory (lr_table r) p))
  end.

Definition hash_find_n (h : hash_control) (key : cstring) (len : nat) :
    option (hash_control * PTR) :=
  r ← hash_lookup h key len;
  match lr_entry r with
  | None => Some (lr_table r, NULL)
  | Some p => Some (lr_table r, data (memory (lr_table r) p))
  end.

Definition hash_find (h : hash_control) (key : cstring) : option (hash_control * PTR) :=
  r ← hash_lookup h key (length key);
  match lr_entry r with
  | None => Some (lr_table r, NULL)
  | Some p => Some (lr_table r, data (memory (lr_table r) p))
  end.

Definition hash_delete (h : hash_control) (key : cstring) : option (hash_control * PTR) :=
  r ← hash_lookup h key (length key);
  match lr_entry r with
  | None => Some (lr_table r, NULL)
  | Some p =>
    let h := lr_table r in
    if bool_decide (list_at h (lr_list r) = Some p) then
      Some (set_list (lr_list r) (next (memory h p)) h, data (memory h p))
    else None
  end.

(** The calls of [pfn] of a traversal, in their order. *)
Fixpoint traverse_list (fuel : nat) (h : hash_control) (p : option entryptr) :
    option (list (cstring * PTR)) :=
  match p with
  | None => Some []
  | Some p =>
    match fuel with
    | O => None
    | S fuel =>
      l ← traverse_list fuel h (next (memory h p));
      Some ((str (memory h p), data (memory h p)) :: l)
    end
  end.

Definition hash_traverse (h : hash_control) : option (list (cstring * PTR)) :=
  ls ← mapM (fun i => traverse_list (brk h) h (list_at h i)) (seq 0 (Z.to_nat (size h)));
  Some (concat ls).
