(* ===== verification/HashTableSpec.v ===== *)
(** * The hash tables implement finite maps

    [rep h m]: the table [h] is in order and holds the finite map [m].  Every
    operation keeps it and gives the result the map gives, so any sequence of
    operations on a new table is a sequence of operations on a map; moving
    entries to the front is invisible. *)

From Stdlib Require Import ZArith Lia Bool Ascii.
From stdpp Require Import base option numbers functions strings gmap list sets.
From S2P Require Import Prelude CInt HashTable.

(** ** Strings *)

#[local] Arguments Ascii.eqb : simpl never.

(** A C string has no zero inside. *)
Definition nul_free (s : cstring) : Prop := Ascii.zero ∉ s.

#[export] Instance nul_free_dec s : Decision (nul_free s).
Proof. unfold nul_free. apply _. Defined.

Lemma strncmp_eq_spec k : forall s key,
  nul_free k -> nul_free s -> take (length k) key = k ->
  strncmp_eq s key (length k) = true <-> exists s', s = k ++ s'.
Proof.
  induction k as [|c k IH]; intros s key Hk Hs Ht; simpl.
  - split; [by exists s|done].
  - destruct key as [|c' key]; [done|]. simpl in Ht. injection Ht as -> Ht.
    apply not_elem_of_cons in Hk as [Hc Hk]. destruct s as [|c' s]; simpl.
    + unfold char_at; simpl. destruct (Ascii.eqb_spec Ascii.zero c); [done|].
      split; [done|]. by intros [s' [=]].
    + apply not_elem_of_cons in Hs as [Hc' Hs]. unfold char_at; simpl.
      destruct (Ascii.eqb_spec c' c) as [->|Hne].
      * destruct (Ascii.eqb_spec c Ascii.zero); [congruence|]. rewrite IH by done.
        split; [intros [s' ->]; by exists s'|]. intros [s' [= ->]]. by exists s'.
      * split; [done|]. intros [s' [=]]. congruence.
Qed.

(** The test of the source is equality with the first [len] characters. *)
Lemma key_test s key k :
  nul_free k -> nul_free s -> take (length k) key = k ->
  strncmp_eq s key (length k) && Ascii.eqb (char_at s (length k)) Ascii.zero = true <-> s = k.
Proof.
  intros Hk Hs Ht. rewrite andb_true_iff, Ascii.eqb_eq, strncmp_eq_spec by done. split.
  - intros [[s' ->] Hz]. destruct s' as [|c s']; [by rewrite app_nil_r|].
    unfold char_at in Hz. rewrite list_lookup_middle in Hz by done. simpl in Hz. subst.
    destruct Hs. set_solver.
  - intros ->. split; [exists []; by rewrite app_nil_r|].
    unfold char_at. by rewrite lookup_ge_None_2.
Qed.

Lemma hash_code_take key k :
  take (length k) key = k -> hash_code key (length k) = hash_code k (length k).
Proof.
  intros Ht. unfold hash_code. f_equal.
  assert (H : forall n, n ∈ seq 0 (length k) -> char_at key n = char_at k n).
  { intros n [_ Hn]%elem_of_seq. unfold char_at. rewrite <- Ht at 1.
    by rewrite lookup_take_lt. }
  revert H. generalize (seq 0 (length k)). generalize 0. intros z l. revert z.
  induction l as [|n l IH]; intros z H; simpl; [done|]. rewrite H by left.
  apply IH. intros; apply H; by right.
Qed.

(** The list a key belongs to. *)
Definition code_of (k : cstring) : Z := hash_code k (length k).
Definition index_of (k : cstring) : nat := Z.to_nat (code_of k mod DEFAULT_SIZE).

Lemma index_of_lt k : (index_of k < Z.to_nat DEFAULT_SIZE)%nat.
Proof. unfold index_of, DEFAULT_SIZE. pose proof (Z.mod_pos_bound (code_of k) 4051). lia. Qed.

(** ** Linked lists *)

Fixpoint lseg (nx : entryptr -> option entryptr) (o : option entryptr) (l : list entryptr) : Prop :=
  match l with
  | [] => o = None
  | p :: l => o = Some p /\ lseg nx (nx p) l
  end.

Lemma lseg_ext nx nx' o l :
  (forall p, p ∈ l -> nx' p = nx p) -> lseg nx o l -> lseg nx' o l.
Proof.
  revert o. induction l as [|p l IH]; intros o H; simpl; [done|]. intros [-> Hl].
  split; [done|]. rewrite H by left. apply IH; [|done]. intros; apply H; by right.
Qed.

(** The surgery of moving [p] from behind [q] to the front. *)
Lemma lseg_move nx nx' o l1 q p l2 :
  NoDup (l1 ++ q :: p :: l2) -> lseg nx o (l1 ++ q :: p :: l2) ->
  nx' p = o -> nx' q = nx p -> (forall x, x <> p -> x <> q -> nx' x = nx x) ->
  lseg nx' (Some p) (p :: l1 ++ q :: l2).
Proof.
  intros Hnd Hl Hp Hq Hx. split; [done|]. rewrite Hp. clear Hp. revert o Hl.
  induction l1 as [|y l1 IH]; intros o Hl; simpl in *.
  - destruct Hl as (-> & Hnq & Hl). split; [done|]. rewrite Hq.
    apply NoDup_cons in Hnd as [Hq' Hnd]. apply NoDup_cons in Hnd as [Hp' _].
    eapply lseg_ext; [|exact Hl]. intros x Hx'. apply Hx; set_solver.
  - destruct Hl as [-> Hl]. split; [done|]. apply NoDup_cons in Hnd as [Hy Hnd].
    rewrite Hx by set_solver. by apply IH.
Qed.

(** ** The invariant *)

Definition nx (h : hash_control) (p : entryptr) : option entryptr := next (memory h p).

(** The table is in order, [bs i] being the entries of list [i]. *)
Record good (h : hash_control) (bs : nat -> list entryptr) : Prop := {
  gd_size : size h = DEFAULT_SIZE;
  gd_table : length (table h) = Z.to_nat DEFAULT_SIZE;
  gd_list i : (i < Z.to_nat DEFAULT_SIZE)%nat -> lseg (nx h) (list_at h i) (bs i);
  gd_nodup i : (i < Z.to_nat DEFAULT_SIZE)%nat -> NoDup (bs i);
  gd_entry i p : (i < Z.to_nat DEFAULT_SIZE)%nat -> p ∈ bs i ->
    (p < brk h)%nat /\ hash (memory h p) = code_of (str (memory h p)) /\
    index_of (str (memory h p)) = i /\ nul_free (str (memory h p));
  gd_keys i p q : (i < Z.to_nat DEFAULT_SIZE)%nat -> p ∈ bs i -> q ∈ bs i ->
    str (memory h p) = str (memory h q) -> p = q
}.

Definition holds (h : hash_control) (bs : nat -> list entryptr) (m : gmap cstring PTR) : Prop :=
  forall k v, m !! k = Some v <->
    exists p, p ∈ bs (index_of k) /\ str (memory h p) = k /\ data (memory h p) = v.

Definition rep (h : hash_control) (m : gmap cstring PTR) : Prop :=
  exists bs, good h bs /\ holds h bs m.

Lemma gd_length h bs i :
  good h bs -> (i < Z.to_nat DEFAULT_SIZE)%nat -> (length (bs i) <= brk h)%nat.
Proof.
  intros G Hi. rewrite <- (List.length_seq (brk h) 0).
  apply List.NoDup_incl_length; [by apply NoDup_ListNoDup, (gd_nodup h)|].
  intros p Hp. apply List.in_seq. apply list_elem_of_In, (gd_entry h _ G) in Hp; [lia|done].
Qed.

(** ** The search *)

Lemma search_spec h code key len l : forall fuel prev o,
  lseg (nx h) o l -> (length l <= fuel)%nat ->
  (search fuel h code key len prev o = Some None /\
    forall p, p ∈ l -> entry_matches (memory h p) code key len = false) \/
  (exists l1 p l2, l = l1 ++ p :: l2 /\ entry_matches (memory h p) code key len = true /\
    search fuel h code key len prev o =
      Some (Some (match last l1 with Some q => Some q | None => prev end, p))).
Proof.
  induction l as [|x l IH]; intros fuel prev o Hl Hlen; simpl in Hl.
  - subst. left. split; [by destruct fuel|]. by intros p Hp%elem_of_nil.
  - destruct Hl as [-> Hl]. destruct (entry_matches (memory h x) code key len) eqn:Hx.
    + right. exists [], x, l. split; [done|]. split; [done|]. destruct fuel; simpl; by rewrite Hx.
    + destruct fuel as [|fuel]; [simpl in Hlen; lia|]. cbn [search]. rewrite Hx.
      destruct (IH fuel (Some x) _ Hl ltac:(simpl in *; lia)) as [[Hr Hn]|(l1 & p & l2 & Heq & Hp & Hr)].
      * left. split; [done|]. intros p [->|Hp]%elem_of_cons; auto.
      * right. exists (x :: l1), p, l2. rewrite Heq. split; [done|]. split; [done|].
        unfold nx in Hr. rewrite Hr. rewrite last_cons. by destruct (last l1).
Qed.

(** ** hash_lookup keeps the map *)

Lemma memory_set p f h x :
  memory (set_memory p f h) x = if decide (p = x) then f (memory h x) else memory h x.
Proof. unfold set_memory; simpl. unfold alter, fn_alter. by case_decide; subst. Qed.

Lemma list_at_set i p h j :
  (i < length (table h))%nat ->
  list_at (set_list i p h) j = if decide (i = j) then p else list_at h j.
Proof.
  intros Hi. unfold list_at, set_list; simpl. case_decide as Hj.
  - subst. by rewrite list_lookup_insert_eq.
  - by rewrite list_lookup_insert_ne.
Qed.

(** The same entries in the same lists, perhaps in another order. *)
Record same_entries (h h' : hash_control) (bs bs' : nat -> list entryptr) : Prop := {
  se_brk : brk h' = brk h;
  se_str p : str (memory h' p) = str (memory h p);
  se_data p : data (memory h' p) = data (memory h p);
  se_elem i p : p ∈ bs' i <-> p ∈ bs i
}.

Lemma same_entries_holds h h' bs bs' m : same_entries h h' bs bs' -> holds h bs m -> holds h' bs' m.
Proof.
  intros S H k v. rewrite (H k v). split; intros (p & Hp & Hs & Hd); exists p.
  - by rewrite (se_elem _ _ _ _ S), (se_str _ _ _ _ S), (se_data _ _ _ _ S).
  - by rewrite (se_elem _ _ _ _ S), (se_str _ _ _ _ S), (se_data _ _ _ _ S) in *.
Qed.

Lemma move_to_front_good h bs i q p l1 l2 :
  good h bs -> (i < Z.to_nat DEFAULT_SIZE)%nat -> bs i = l1 ++ q :: p :: l2 ->
  exists bs', good (move_to_front i q p h) bs' /\
    same_entries h (move_to_front i q p h) bs bs' /\ bs' i = p :: l1 ++ q :: l2 /\
    forall j, j <> i -> bs' j = bs j.
Proof.
  intros G Hi Hbs. set (h' := move_to_front i q p h).
  exists (fun j => if decide (j = i) then p :: l1 ++ q :: l2 else bs j).
  pose proof (gd_nodup _ _ G i Hi) as Hnd. rewrite Hbs in Hnd.
  assert (Hqp : q <> p).
  { apply NoDup_app in Hnd as (_ & _ & Hnd). apply NoDup_cons in Hnd as [Hq _]. set_solver. }
  assert (Hmem : forall x, memory h' x =
    if decide (p = x) then set_next (list_at h i) (memory h x)
    else if decide (q = x) then set_next (nx h p) (memory h x) else memory h x).
  { intros x. unfold h', move_to_front. cbn [memory set_list].
    change (list_at (set_memory q (set_next (next (memory h p))) h) i) with (list_at h i).
    rewrite !memory_set. repeat case_decide; subst; done. }
  assert (Hperm : p :: l1 ++ q :: l2 ≡ₚ bs i).
  { rewrite Hbs. rewrite (Permutation_middle l1 (q :: l2) p). by rewrite (Permutation_swap q p). }
  assert (Hs : same_entries h h' bs (fun j => if decide (j = i) then p :: l1 ++ q :: l2 else bs j)).
  { split; [done|..].
    - intros x. rewrite Hmem. by repeat case_decide.
    - intros x. rewrite Hmem. by repeat case_decide.
    - intros j x. case_decide; [subst; by rewrite Hperm|done]. }
  split; [|split; [done|split; [by rewrite decide_True|intros j Hj; by rewrite decide_False]]].
  assert (Hhash : forall x, hash (memory h' x) = hash (memory h x)).
  { intros x. rewrite Hmem. by repeat case_decide. }
  split.
  - apply (gd_size _ _ G).
  - unfold h', move_to_front. simpl. rewrite length_insert. apply (gd_table _ _ G).
  - intros j Hj. unfold h', move_to_front. rewrite list_at_set by (simpl; rewrite (gd_table _ _ G); done).
    fold (move_to_front i q p h). fold h'. destruct (decide (j = i)) as [->|Hji].
    + rewrite decide_True by done. pose proof (gd_list _ _ G i Hi) as Hl. rewrite Hbs in Hl.
      eapply lseg_move; [exact Hnd|exact Hl|..]; unfold nx; intros; rewrite Hmem.
      * by rewrite decide_True.
      * rewrite decide_False by done. by rewrite decide_True.
      * by rewrite !decide_False.
    + rewrite decide_False by done. eapply lseg_ext; [|apply (gd_list _ _ G j Hj)].
      intros x Hx. unfold nx. rewrite Hmem.
      assert (Hxi : x ∉ bs i).
      { intros Hx'. apply (gd_entry _ _ G) in Hx as (_ & _ & Hxj & _); [|done].
        apply (gd_entry _ _ G) in Hx' as (_ & _ & Hxi & _); [congruence|done]. }
      rewrite Hbs in Hxi. rewrite !decide_False by set_solver. done.
  - intros j Hj. case_decide; [subst; rewrite Hperm|]; by apply (gd_nodup _ _ G).
  - intros j x Hj Hx. apply (se_elem _ _ _ _ Hs) in Hx.
    rewrite Hhash, (se_str _ _ _ _ Hs). by apply (gd_entry _ _ G).
  - intros j x y Hj Hx Hy. apply (se_elem _ _ _ _ Hs) in Hx, Hy.
    rewrite !(se_str _ _ _ _ Hs). by apply (gd_keys _ _ G j).
Qed.

(** What a lookup promises: the entry of the key, now in front of its list, or
    no entry has the key. *)
Lemma hash_lookup_spec h bs key k :
  good h bs -> nul_free k -> take (length k) key = k ->
  exists r bs', hash_lookup h key (length k) = Some r /\ good (lr_table r) bs' /\
    same_entries h (lr_table r) bs bs' /\ lr_list r = index_of k /\ lr_hash r = code_of k /\
    match lr_entry r with
    | Some p => str (memory h p) = k /\ exists l1 l2, bs (index_of k) = l1 ++ p :: l2 /\
        bs' (index_of k) = p :: l1 ++ l2 /\ forall j, j <> index_of k -> bs' j = bs j
    | None => lr_table r = h /\ forall p, p ∈ bs (index_of k) -> str (memory h p) <> k
    end.
Proof.
  intros G Hk Ht. pose proof (index_of_lt k) as Hi. unfold hash_lookup.
  rewrite (hash_code_take _ _ Ht), (gd_size _ _ G). fold (code_of k) (index_of k).
  assert (Htest : forall p, p ∈ bs (index_of k) ->
    entry_matches (memory h p) (code_of k) key (length k) = true <-> str (memory h p) = k).
  { intros p Hp. apply (gd_entry _ _ G) in Hp as (_ & Hh & _ & Hn); [|done].
    unfold entry_matches. rewrite <- andb_assoc, andb_true_iff, key_test by done.
    rewrite Hh, Z.eqb_eq. split; [by intros [_ ?]|by intros ->]. }
  destruct (search_spec h (code_of k) key (length k) (bs (index_of k)) (brk h) None
    (list_at h (index_of k)) (gd_list _ _ G _ Hi) (gd_length _ _ _ G Hi))
    as [[-> Hn]|(l1 & p & l2 & Heq & Hp & ->)]; simpl.
  - eexists _, bs. split; [done|]. simpl. do 2 (split; [done|]). do 3 (split; [done|]).
    intros p Hp Hs. apply Htest in Hs; [|done]. rewrite Hn in Hs; done.
  - apply Htest in Hp; [|rewrite Heq; set_solver].
    destruct (last l1) as [q|] eqn:Hlast.
    + apply last_Some in Hlast as [l1' ->]. rewrite <- app_assoc in Heq. simpl in Heq.
      destruct (move_to_front_good h bs (index_of k) q p l1' l2 G Hi Heq)
        as (bs' & G' & S' & Hbs' & Hoth).
      eexists _, bs'. split; [done|]. simpl. do 2 (split; [done|]).
      do 2 (split; [done|]). split; [done|]. exists (l1' ++ [q]), l2.
      by rewrite <- !app_assoc.
    + apply last_None in Hlast as ->. eexists _, bs. split; [done|]. simpl.
      do 2 (split; [done|]). do 2 (split; [done|]). split; [done|]. by exists [], l2.
Qed.

(** ** The three changes of the map *)

Lemma holds_lookup h bs m k p :
  good h bs -> holds h bs m -> p ∈ bs (index_of k) -> str (memory h p) = k ->
  m !! k = Some (data (memory h p)).
Proof. intros G H Hp Hs. apply H. by exists p. Qed.

Lemma holds_lookup_None h bs m k :
  holds h bs m -> (forall p, p ∈ bs (index_of k) -> str (memory h p) <> k) -> m !! k = None.
Proof.
  intros H Hn. destruct (m !! k) as [v|] eqn:Hm; [|done].
  apply H in Hm as (p & Hp & Hs & _). by destruct (Hn p Hp).
Qed.

Lemma new_entry_rep h bs m k v :
  good h bs -> holds h bs m -> nul_free k -> m !! k = None ->
  rep (new_entry (index_of k) k (code_of k) v h) (<[k := v]> m).
Proof.
  intros G H Hk Hm. pose proof (index_of_lt k) as Hi.
  set (i := index_of k) in *. set (h' := new_entry i k (code_of k) v h).
  assert (Hmem : forall x, memory h' x = if decide (brk h = x)
    then mk_hash_entry (list_at h i) k (code_of k) v else memory h x) by done.
  assert (Hold : forall j x, (j < Z.to_nat DEFAULT_SIZE)%nat -> x ∈ bs j -> memory h' x = memory h x).
  { intros j x Hj Hx. apply (gd_entry _ _ G) in Hx as (Hx & _); [|done].
    rewrite Hmem, decide_False by lia. done. }
  assert (Hnew : memory h' (brk h) = mk_hash_entry (list_at h i) k (code_of k) v).
  { by rewrite Hmem, decide_True. }
  assert (Hne : forall x, x ∈ bs i -> str (memory h x) <> k).
  { intros x Hx Hs. by rewrite (holds_lookup h bs m k x G H Hx Hs) in Hm. }
  exists (fun j => if decide (j = i) then brk h :: bs i else bs j). split.
  - split.
    + apply (gd_size _ _ G).
    + unfold h', new_entry. simpl. rewrite length_insert. apply (gd_table _ _ G).
    + intros j Hj. unfold h', new_entry. rewrite list_at_set by (simpl; rewrite (gd_table _ _ G); done).
      fold (new_entry i k (code_of k) v h). fold h'. destruct (decide (j = i)) as [->|Hji].
      * rewrite decide_True by done. split; [done|]. unfold nx. rewrite Hnew. simpl.
        eapply lseg_ext; [|apply (gd_list _ _ G i Hi)]. intros x Hx. change (next (memory h' x) = nx h x). by rewrite (Hold i).
      * rewrite decide_False by done. eapply lseg_ext; [|apply (gd_list _ _ G j Hj)].
        intros x Hx. change (next (memory h' x) = nx h x). by rewrite (Hold j).
    + intros j Hj. case_decide; [|by apply (gd_nodup _ _ G)]. subst. apply NoDup_cons.
      split; [|by apply (gd_nodup _ _ G)]. intros Hx. apply (gd_entry _ _ G) in Hx as (Hx & _); [lia|done].
    + intros j x Hj Hx. assert (Hx' : x = brk h /\ j = i \/ x ∈ bs j).
      { case_decide; [subst; apply elem_of_cons in Hx as [->|]; auto|by right]. }
      destruct Hx' as [[-> ->]|Hx']; [rewrite Hnew; simpl; split; [lia|done]|].
      rewrite (Hold j) by done. destruct (gd_entry _ _ G j x Hj Hx') as (? & ? & ? & ?).
      simpl. split; [lia|done].
    + intros j x y Hj. case_decide as Hji; [subst j|].
      * rewrite !elem_of_cons. intros [->|Hx] [->|Hy]; rewrite ?Hnew, ?(Hold i) by done; simpl.
        -- done.
        -- intros Hs. by destruct (Hne y Hy).
        -- intros Hs. by destruct (Hne x Hx).
        -- by apply (gd_keys _ _ G i).
      * intros Hx Hy. rewrite !(Hold j) by done. by apply (gd_keys _ _ G j).
  - intros k' v'. destruct (decide (k' = k)) as [->|Hkk].
    + rewrite lookup_insert_eq. fold i. rewrite decide_True by done. split.
      * intros [= <-]. exists (brk h). rewrite Hnew. split; [left|done].
      * intros (x & [->|Hx]%elem_of_cons & Hs & Hd); [rewrite Hnew in Hd; simpl in Hd; congruence|].
        rewrite (Hold i) in Hs by done. by destruct (Hne x Hx).
    + rewrite lookup_insert_ne by done. rewrite (H k' v'). pose proof (index_of_lt k') as Hi'.
      split; intros (x & Hx & Hs & Hd); exists x.
      * rewrite (Hold (index_of k')) by done. split; [|done]. case_decide as Heq; [|done].
        rewrite Heq in Hx. by right.
      * assert (Hx' : x ∈ bs (index_of k')).
        { case_decide as Heq; [|done]. rewrite Heq. apply elem_of_cons in Hx as [->|]; [|done].
          rewrite Hnew in Hs. by simpl in Hs. }
        rewrite (Hold (index_of k')) in Hs, Hd by done. done.
Qed.

Lemma set_data_rep h bs m k p v :
  good h bs -> holds h bs m -> p ∈ bs (index_of k) -> str (memory h p) = k ->
  rep (set_memory p (set_data v) h) (<[k := v]> m).
Proof.
  intros G H Hp Hs. pose proof (index_of_lt k) as Hi.
  set (h' := set_memory p (set_data v) h).
  assert (Hmem : forall x, str (memory h' x) = str (memory h x) /\
    hash (memory h' x) = hash (memory h x) /\ nx h' x = nx h x /\
    data (memory h' x) = if decide (p = x) then v else data (memory h x)).
  { intros x. unfold nx, h'. rewrite memory_set. by case_decide. }
  exists bs. split.
  - split; try (by apply G).
    + intros i Hi'. eapply lseg_ext; [|apply (gd_list _ _ G i Hi')]. intros x _. apply Hmem.
    + intros i x Hi' Hx. destruct (Hmem x) as (-> & -> & _). by apply (gd_entry _ _ G).
    + intros i x y Hi' Hx Hy. destruct (Hmem x) as (-> & _), (Hmem y) as (-> & _).
      by apply (gd_keys _ _ G i).
  - intros k' v'. destruct (decide (k' = k)) as [->|Hkk].
    + rewrite lookup_insert_eq. split.
      * intros [= <-]. exists p. destruct (Hmem p) as (-> & _ & _ & ->). by rewrite decide_True.
      * intros (x & Hx & Hsx & Hd). destruct (Hmem x) as (Hsx' & _ & _ & Hdx).
        rewrite Hsx' in Hsx. rewrite Hdx in Hd.
        rewrite (gd_keys _ _ G _ p x Hi Hp Hx) in Hd by congruence.
        rewrite decide_True in Hd by done. by subst.
    + rewrite lookup_insert_ne by done. rewrite (H k' v').
      split; intros (x & Hx & Hsx & Hd); exists x; destruct (Hmem x) as (Hsx' & _ & _ & Hdx).
      * rewrite Hsx', Hdx, decide_False by congruence. done.
      * rewrite Hsx' in Hsx. rewrite Hdx, decide_False in Hd by congruence. done.
Qed.

Lemma delete_rep h bs m k p l :
  good h bs -> holds h bs m -> bs (index_of k) = p :: l -> str (memory h p) = k ->
  rep (set_list (index_of k) (next (memory h p)) h) (delete k m).
Proof.
  intros G H Hl Hs. pose proof (index_of_lt k) as Hi. set (i := index_of k) in *.
  set (h' := set_list i (next (memory h p)) h).
  assert (Hnd : p ∉ l).
  { pose proof (gd_nodup _ _ G i Hi) as Hnd. rewrite Hl in Hnd. by apply NoDup_cons in Hnd as [? _]. }
  exists (fun j => if decide (j = i) then l else bs j).
  assert (Hsub : forall j x, x ∈ (if decide (j = i) then l else bs j) -> x ∈ bs j).
  { intros j x. case_decide as Hji; [|done]. rewrite Hji, Hl. by right. }
  split.
  - split; try (by apply G).
    + unfold h'. simpl. rewrite length_insert. apply (gd_table _ _ G).
    + intros j Hj. unfold h'. rewrite list_at_set by (rewrite (gd_table _ _ G); done). fold h'.
      destruct (decide (j = i)) as [->|Hji].
      * rewrite decide_True by done. pose proof (gd_list _ _ G i Hi) as Hseg.
        rewrite Hl in Hseg. by destruct Hseg as [_ Hseg].
      * rewrite decide_False by done. apply (gd_list _ _ G j Hj).
    + intros j Hj. case_decide as Hji; [|by apply (gd_nodup _ _ G)].
      pose proof (gd_nodup _ _ G i Hi) as Hn. rewrite Hl in Hn. by apply NoDup_cons in Hn as [_ ?].
    + intros j x Hj Hx%Hsub. by apply (gd_entry _ _ G).
    + intros j x y Hj Hx%Hsub Hy%Hsub. by apply (gd_keys _ _ G j).
  - intros k' v'. destruct (decide (k' = k)) as [->|Hkk].
    + rewrite lookup_delete_eq. split; [done|]. intros (x & Hx & Hsx & _). exfalso.
      fold i in Hx. rewrite decide_True in Hx by done.
      apply Hnd. rewrite (gd_keys _ _ G i p x Hi); [done|rewrite Hl; left|rewrite Hl; by right|].
      change (str (memory h x) = k) in Hsx. congruence.
    + rewrite lookup_delete_ne by done. rewrite (H k' v').
      split; intros (x & Hx & Hsx & Hd); exists x; (split; [|done]).
      * case_decide as Heq; [|done]. rewrite Heq, Hl in Hx.
        apply elem_of_cons in Hx as [->|]; [congruence|done].
      * by apply Hsub in Hx.
Qed.

(** ** Operations of the table and of the map *)

Inductive op :=
| Insert (key : cstring) (value : PTR)
| Jam (key : cstring) (value : PTR)
| Replace (key : cstring) (value : PTR)
| Find (key : cstring)
| Find_n (key : cstring) (len : nat)
| Delete (key : cstring).

(** What the caller gets: nothing, an error or not, or a data pointer. *)
Inductive answer := Nothing | Error (exists_ : bool) | Data (d : PTR).

Definition run (o : op) (h : hash_control) : option (hash_control * answer) :=
  match o with
  | Insert k v => r ← hash_insert h k v; Some (fst r, Error (snd r))
  | Jam k v => h ← hash_jam h k v; Some (h, Nothing)
  | Replace k v => r ← hash_replace h k v; Some (fst r, Data (snd r))
  | Find k => r ← hash_find h k; Some (fst r, Data (snd r))
  | Find_n key len => r ← hash_find_n h key len; Some (fst r, Data (snd r))
  | Delete k => r ← hash_delete h k; Some (fst r, Data (snd r))
  end.

Definition get (m : gmap cstring PTR) (k : cstring) : PTR := default NULL (m !! k).

Definition run_map (o : op) (m : gmap cstring PTR) : gmap cstring PTR * answer :=
  match o with
  | Insert k v =>
      if m !! k is Some _ then (m, Error true) else (<[k := v]> m, Error false)
  | Jam k v => (<[k := v]> m, Nothing)
  | Replace k v => (if m !! k is Some _ then <[k := v]> m else m, Data (get m k))
  | Find k => (m, Data (get m k))
  | Find_n key len => (m, Data (get m (take len key)))
  | Delete k => (delete k m, Data (get m k))
  end.

(** Keys are C strings; a key with a length has that many characters. *)
Definition op_ok (o : op) : Prop :=
  match o with
  | Insert k _ | Jam k _ | Replace k _ | Find k | Delete k => nul_free k
  | Find_n key len => (len <= length key)%nat /\ nul_free (take len key)
  end.

(** A lookup from the point of view of the map. *)
Lemma lookup_rep h m key k :
  rep h m -> nul_free k -> take (length k) key = k ->
  exists r, hash_lookup h key (length k) = Some r /\ rep (lr_table r) m /\
    lr_list r = index_of k /\ lr_hash r = code_of k /\
    match lr_entry r with
    | Some p => m !! k = Some (data (memory (lr_table r) p)) /\
        list_at (lr_table r) (lr_list r) = Some p /\
        (forall v, rep (set_memory p (set_data v) (lr_table r)) (<[k := v]> m)) /\
        rep (set_list (lr_list r) (next (memory (lr_table r) p)) (lr_table r)) (delete k m)
    | None => m !! k = None /\
        forall v, rep (new_entry (lr_list r) k (lr_hash r) v (lr_table r)) (<[k := v]> m)
    end.
Proof.
  intros (bs & G & H) Hk Ht.
  destruct (hash_lookup_spec h bs key k G Hk Ht) as (r & bs' & Hr & G' & S & Hl & Hh & He).
  pose proof (same_entries_holds _ _ _ _ _ S H) as H'.
  exists r. split; [done|]. split; [by exists bs'|]. split; [done|]. split; [done|].
  rewrite Hl, Hh. destruct (lr_entry r) as [p|].
  - destruct He as (Hs & l1 & l2 & _ & Hbs & _). rewrite <- (se_str _ _ _ _ S) in Hs.
    assert (Hp : p ∈ bs' (index_of k)) by (rewrite Hbs; left).
    split; [by apply (holds_lookup _ bs')|]. split; [|split].
    + pose proof (gd_list _ _ G' _ (index_of_lt k)) as Hseg. rewrite Hbs in Hseg. by destruct Hseg.
    + intros v. by apply (set_data_rep _ bs').
    + by apply (delete_rep _ bs' _ _ _ (l1 ++ l2)).
  - assert (Hm : m !! k = None) by (apply (holds_lookup_None h bs); [done|apply He]).
    split; [done|]. intros v. by apply (new_entry_rep _ bs').
Qed.

Lemma op_refines o h m :
  rep h m -> op_ok o ->
  exists h', run o h = Some (h', snd (run_map o m)) /\ rep h' (fst (run_map o m)).
Proof.
  intros R Hok. destruct o as [k v|k v|k v|k|key len|k]; simpl in Hok.
  5: { destruct Hok as [Hlen Hnf].
    assert (Hl : length (take len key) = len) by (rewrite length_take; lia).
    destruct (lookup_rep h m key (take len key) R Hnf) as (r & Hr & R1 & _ & _ & He);
      [by rewrite Hl|]. rewrite Hl in Hr.
    cbn [run run_map]. unfold hash_find_n, get. rewrite Hr. cbn [mbind option_bind].
    destruct (lr_entry r) as [p|]; [destruct He as (-> & _)|destruct He as [-> _]]; cbn; eauto. }
  all: destruct (lookup_rep h m k k R Hok (firstn_all k)) as (r & Hr & R1 & _ & _ & He);
    cbn [run run_map]; unfold hash_insert, hash_jam, hash_replace, hash_find, hash_delete, get;
    rewrite Hr; cbn [mbind option_bind];
    destruct (lr_entry r) as [p|]; [destruct He as (Hm & Hlist & Hset & Hdel)|destruct He as [Hm Hnew]].
  9: rewrite bool_decide_eq_true_2 by done.
  10: rewrite delete_id by done.
  all: rewrite ?Hm; cbn; eauto.
Qed.

(** ** Sequences of operations *)

Fixpoint run_all (os : list op) (h : hash_control) : option (list answer * hash_control) :=
  match os with
  | [] => Some ([], h)
  | o :: os =>
      '(h, a) ← run o h;
      '(l, h) ← run_all os h;
      Some (a :: l, h)
  end.

Fixpoint run_map_all (os : list op) (m : gmap cstring PTR) : list answer * gmap cstring PTR :=
  match os with
  | [] => ([], m)
  | o :: os =>
      let (m, a) := run_map o m in
      let (l, m) := run_map_all os m in
      (a :: l, m)
  end.

Lemma run_all_refines os : forall h m,
  rep h m -> Forall op_ok os ->
  exists h', run_all os h = Some (fst (run_map_all os m), h') /\ rep h' (snd (run_map_all os m)).
Proof.
  induction os as [|o os IH]; intros h m R Hok; simpl; [by exists h|].
  apply Forall_cons in Hok as [Ho Hok].
  destruct (op_refines o h m R Ho) as (h1 & -> & R1). cbn [mbind option_bind].
  destruct (run_map o m) as [m1 a]. destruct (IH h1 m1 R1 Hok) as (h2 & Hrun & R2).
  simpl in *. rewrite Hrun. destruct (run_map_all os m1) as [l m2]. by exists h2.
Qed.

Lemma hash_new_rep : rep hash_new ∅.
Proof.
  exists (fun _ => []). split.
  - split; try done.
    + intros i Hi. cbn [lseg]. unfold list_at, hash_new. cbn [table].
      by rewrite lookup_replicate_2.
    + constructor.
    + intros i p _ Hp. by apply elem_of_nil in Hp.
    + intros i p q _ Hp. by apply elem_of_nil in Hp.
  - intros k v. rewrite lookup_empty. split; [done|]. intros (p & Hp & _). by apply elem_of_nil in Hp.
Qed.

(** ** hash_traverse *)

Lemma traverse_list_spec h l : forall fuel o,
  lseg (nx h) o l -> (length l <= fuel)%nat ->
  traverse_list fuel h o = Some (map (fun p => (str (memory h p), data (memory h p))) l).
Proof.
  induction l as [|p l IH]; intros fuel o; simpl; [intros ->; by destruct fuel|].
  intros [-> Hl] Hlen. destruct fuel as [|fuel]; [lia|]. simpl.
  unfold nx in Hl. by rewrite (IH fuel) by (done || lia).
Qed.

Lemma mapM_all {A B} (f : A -> option B) (g : A -> B) l :
  (forall x, x ∈ l -> f x = Some (g x)) -> mapM f l = Some (map g l).
Proof.
  induction l as [|x l IH]; intros H; simpl; [done|].
  rewrite H by left. simpl. rewrite IH by (intros; apply H; by right). done.
Qed.

Definition entries (h : hash_control) (bs : nat -> list entryptr) : list (cstring * PTR) :=
  seq 0 (Z.to_nat DEFAULT_SIZE) ≫= fun i =>
    map (fun p => (str (memory h p), data (memory h p))) (bs i).

Lemma hash_traverse_entries h bs : good h bs -> hash_traverse h = Some (entries h bs).
Proof.
  intros G. unfold hash_traverse, entries. rewrite (gd_size _ _ G).
  assert (Hin : forall i, i ∈ seq 0 (Z.to_nat DEFAULT_SIZE) -> (i < Z.to_nat DEFAULT_SIZE)%nat).
  { intros i Hi%elem_of_seq. lia. }
  revert Hin. generalize (seq 0 (Z.to_nat DEFAULT_SIZE)). intros l Hin.
  rewrite (mapM_all _ (fun i => map (fun p => (str (memory h p), data (memory h p))) (bs i))).
  - cbn [mbind option_bind]. f_equal. clear Hin.
    induction l as [|i l IH]; simpl; [done|]. by rewrite IH.
  - intros i Hi. apply Hin in Hi. apply traverse_list_spec; [by apply (gd_list _ _ G)|].
    by apply gd_length.
Qed.

Lemma elem_of_entries h bs k v :
  good h bs -> (k, v) ∈ entries h bs <->
  exists p, p ∈ bs (index_of k) /\ str (memory h p) = k /\ data (memory h p) = v.
Proof.
  intros G. unfold entries. rewrite list_elem_of_bind. split.
  - intros (i & Hin & Hi). apply list_elem_of_fmap in Hin as (p & [= -> ->] & Hp).
    apply elem_of_seq in Hi as [_ Hi]. exists p.
    destruct (gd_entry _ _ G i p) as (_ & _ & -> & _); done.
  - intros (p & Hp & <- & <-). exists (index_of (str (memory h p))). split.
    + apply list_elem_of_fmap. by exists p.
    + apply elem_of_seq. pose proof (index_of_lt (str (memory h p))). lia.
Qed.

Lemma NoDup_entries h bs : good h bs -> NoDup (entries h bs).
Proof.
  intros G. apply NoDup_bind.
  - intros i j [k v] Hi Hj Hki Hkj. apply elem_of_seq in Hi as [_ Hi], Hj as [_ Hj].
    apply list_elem_of_fmap in Hki as (p & [= -> ->] & Hp), Hkj as (q & [= Hs _] & Hq).
    destruct (gd_entry _ _ G i p) as (_ & _ & <- & _); [lia|done|].
    destruct (gd_entry _ _ G j q) as (_ & _ & <- & _); [lia|done|]. by rewrite Hs.
  - intros i [_ Hi]%elem_of_seq. apply NoDup_fmap_2_strong; [|apply (gd_nodup _ _ G); lia].
    intros p q Hp Hq [= Hs _]. apply (gd_keys _ _ G i); [lia|done..].
  - apply NoDup_seq.
Qed.

Lemma traverse_rep h m :
  rep h m -> exists l, hash_traverse h = Some l /\ l ≡ₚ map_to_list m.
Proof.
  intros (bs & G & H). exists (entries h bs). split; [by apply hash_traverse_entries|].
  apply NoDup_Permutation; [by apply NoDup_entries|apply NoDup_map_to_list|].
  intros [k v]. rewrite elem_of_entries, elem_of_map_to_list by done. symmetry. apply (H k v).
Qed.

(** C2: a hash table is a finite map: any sequence of insertions, jams,
    replacements, lookups and deletions on a new table ends, never reaches
    [abort], and gives the answers a finite map gives; a traversal afterwards
    visits every key of that map once, with its value. *)
Theorem hash_table_refines_map os :
  Forall op_ok os ->
  exists h l, run_all os hash_new = Some (fst (run_map_all os ∅), h) /\
    hash_traverse h = Some l /\ l ≡ₚ map_to_list (snd (run_map_all os ∅)).
Proof.
  intros Hok. destruct (run_all_refines os hash_new ∅ hash_new_rep Hok) as (h & Hrun & R).
  destruct (traverse_rep h _ R) as (l & Hl & Hperm). by exists h, l.
Qed.

(** a lookup that finds its key moves the entry to the front of its list
    and keeps the order of all the others; a lookup that fails changes
    nothing. *)
Theorem hash_lookup_moves_to_front h bs k :
  good h bs -> nul_free k ->
  exists r, hash_lookup h k (length k) = Some r /\
  match lr_entry r with
  | None => lr_table r = h /\ forall p, p ∈ bs (index_of k) -> str (memory h p) <> k
  | Some p => exists l1 l2 bs', good (lr_table r) bs' /\ str (memory h p) = k /\
      bs (index_of k) = l1 ++ p :: l2 /\ bs' (index_of k) = p :: l1 ++ l2 /\
      forall i, i <> index_of k -> bs' i = bs i
  end.
Proof.
  intros G Hk. destruct (hash_lookup_spec h bs k k G Hk (firstn_all k))
    as (r & bs' & Hr & G' & _ & _ & _ & He).
  exists r. split; [done|]. destruct (lr_entry r) as [p|]; [|done].
  destruct He as (Hs & l1 & l2 & Hbs & Hbs' & Hoth). by exists l1, l2, bs'.
Qed.

#[export] Instance op_ok_dec o : Decision (op_ok o).
Proof. destruct o; simpl; apply _. Defined.

Definition key (s : string) : cstring := String.list_ascii_of_string s.

(** A few symbols, with a replacement, a deletion and prefixes. *)
Definition some_ops : list op :=
  [Insert (key "start") 100; Insert (key "star") 200; Insert (key "start") 300;
   Jam (key "start") 400; Replace (key "none") 1; Find_n (key "starting") 5; Find (key "sta");
   Delete (key "star"); Find (key "star"); Find (key "start")].

Lemma hash_table_refines_map_witness :
  fst (run_map_all some_ops ∅) =
    [Error false; Error false; Error true; Nothing; Data 0; Data 400; Data 0; Data 200; Data 0; Data 400] /\
  exists h l, run_all some_ops hash_new = Some (fst (run_map_all some_ops ∅), h) /\
    hash_traverse h = Some l /\ l ≡ₚ map_to_list (snd (run_map_all some_ops ∅)).
Proof.
  split; [vm_compute; reflexivity|]. apply (hash_table_refines_map some_ops).
  apply (bool_decide_unpack (Forall op_ok some_ops)). vm_compute. exact I.
Defined.

(** A table with two symbols on one list; the older one is looked up. *)
Definition two_symbols : list op := [Insert (key "aa") 1; Insert (key "ig") 2].

Lemma hash_lookup_moves_to_front_witness :
  match run_all two_symbols hash_new with
  | Some (_, h) =>
      index_of (key "aa") = index_of (key "ig") /\ list_at h (index_of (key "aa")) = Some 1%nat /\
      exists r, hash_lookup h (key "aa") 2 = Some r /\ lr_entry r = Some 0%nat /\
        exists bs', good (lr_table r) bs' /\ exists l, bs' (index_of (key "aa")) = 0%nat :: l
  | None => False
  end.
Proof.
  assert (Hok : Forall op_ok two_symbols)
    by (apply (bool_decide_unpack (Forall op_ok two_symbols)); vm_compute; exact I).
  assert (H : match run_all two_symbols hash_new with
    | Some (_, h) => index_of (key "aa") = index_of (key "ig") /\
        list_at h (index_of (key "aa")) = Some 1%nat /\
        option_map lr_entry (hash_lookup h (key "aa") 2) = Some (Some 0%nat)
    | None => False end) by (vm_compute; repeat split; reflexivity).
  destruct (run_all_refines two_symbols hash_new ∅ hash_new_rep Hok) as (h & Hrun & bs & G & _).
  rewrite Hrun in H |- *. destruct H as (Hi & Hl & He). split; [exact Hi|]. split; [exact Hl|].
  destruct (hash_lookup_moves_to_front h bs (key "aa") G) as (r & Hr & Hcase).
  - apply (bool_decide_unpack (nul_free (key "aa"))). vm_compute. exact I.
  - exists r. change (length (key "aa")) with 2%nat in Hr. rewrite Hr in He. injection He as He.
    rewrite He in Hcase. destruct Hcase as (l1 & l2 & bs' & G' & _ & _ & Hbs' & _).
    split; [exact Hr|]. split; [exact He|]. exists bs'. split; [exact G'|]. by exists (l1 ++ l2).
Defined.
