(* ===== verification/Flonum.v ===== *)
(** * as/flonum-mult.c, flonum-copy.c and flonum-const.c

    The assembler's floating-point numbers, before they are put in a format of
    the machine: a mantissa of littlenums (16 bits, the least significant one
    first) and an exponent of the radix 2^16.

    The pointers [low], [high] and [leader] into an array of littlenums are the
    array from [low] to [high] and the index of [leader] in it, [-1] for the
    number 0.0.  The littlenums are multiplied as [int]s in the source, where a
    product over 2^31 overflows; it is taken to wrap around, as it does where
    it is then added to an unsigned number. *)

From Stdlib Require Import ZArith Lia Bool Ascii.
From stdpp Require Import base option numbers list.
From S2P Require Import Prelude CInt.

(** ** bignum.h and flonum.h *)

Definition LITTLENUM_NUMBER_OF_BITS : Z := 16.
Definition LITTLENUM_RADIX : Z := Z.shiftl 1 LITTLENUM_NUMBER_OF_BITS.
Definition LITTLENUM_MASK : Z := 65535.

Record flonum := mk_flonum {
  low : list Z;
  leader : Z;
  exponent : Z;
  sign : ascii
}.

Definition plus : ascii := "+"%char.
Definition minus : ascii := "-"%char.

(** [high - low] *)
Definition high (f : flonum) : Z := Z.of_nat (length (low f)) - 1.

Definition littlenum (f : flonum) (i : Z) : Z := nth (Z.to_nat i) (low f) 0.

(** ** flonum_multip *)

(** The sum of one column of the product: [work] and [carry]. *)
Definition column_step (a b : flonum) (N : Z) (wc : Z * Z) (A : Z) : Z * Z :=
  let B := N - A in
  if (A <=? leader a) && (B <=? leader b) && (0 <=? B) then
    let work := u32 (fst wc + littlenum a A * littlenum b B) in
    let carry := u32 (snd wc + Z.shiftr work LITTLENUM_NUMBER_OF_BITS) in
    (Z.land work LITTLENUM_MASK, carry)
  else wc.

Definition column (a b : flonum) (N carry : Z) : Z * Z :=
  fold_left (column_step a b N) (seqZ 0 (N + 1)) (carry, 0).

(** The variables of the loop over the columns. *)
Record multip_state := mk_multip_state {
  product_low : list Z;
  ms_carry : Z;
  significant : Z;
  P : Z;
  extra_product_positions : Z;
  ms_exponent : Z
}.

(** [product->low[P] = v]; [None] outside of the array. *)
Definition store (l : list Z) (P v : Z) : option (list Z) :=
  if (0 <=? P) && (P <? Z.of_nat (length l)) then Some (<[Z.to_nat P := u16 v]> l) else None.

Definition multip_step (a b : flonum) (N : Z) (s : multip_state) : option multip_state :=
  let (work, carry) := column a b N (ms_carry s) in
  let sig := Z.lor (significant s) work in
  if negb (sig =? 0) || (P s <? 0) then
    l ← (if 0 <=? P s then store (product_low s) (P s) work else Some (product_low s));
    Some (mk_multip_state l carry sig (P s + 1) (extra_product_positions s) (ms_exponent s))
  else
    Some (mk_multip_state (product_low s) carry sig (P s)
      (extra_product_positions s + 1) (i32 (ms_exponent s + 1))).

Fixpoint multip_loop (a b : flonum) (Ns : list Z) (s : multip_state) : option multip_state :=
  match Ns with
  | [] => Some s
  | N :: Ns => s ← multip_step a b N s; multip_loop a b Ns s
  end.

(** [for(q = low + P; q >= low; q--)]: each littlenum moves down one place, the
    highest becomes [carry]. *)
Fixpoint shift_down (l : list Z) (n : nat) (carry : Z) : list Z :=
  match n with
  | O => l
  | S n =>
    let work := nth n l 0 in
    shift_down (<[n := u16 carry]> l) n work
  end.

Definition multip_end (s : multip_state) (sgn : ascii) : option flonum :=
  if negb (ms_carry s =? 0) then
    if 0 <? extra_product_positions s then
      l ← store (product_low s) (P s) (ms_carry s);
      Some (mk_flonum l (P s) (ms_exponent s) sgn)
    else
      let P' := P s - 1 in
      Some (mk_flonum (shift_down (product_low s) (Z.to_nat (P' + 1)) (ms_carry s)) P'
        (i32 (ms_exponent s + 1)) sgn)
  else Some (mk_flonum (product_low s) (P s - 1) (ms_exponent s) sgn).

Definition is_sign (c : ascii) : bool := Ascii.eqb c minus || Ascii.eqb c plus.

(** [None] when a littlenum is stored outside of the product. *)
Definition flonum_multip (a b product : flonum) : option flonum :=
  if negb (is_sign (sign a)) || negb (is_sign (sign b)) then
    Some (mk_flonum (low product) (leader product) (exponent product) Ascii.zero)
  else
    let sgn := if Ascii.eqb (sign a) (sign b) then plus else minus in
    let exp := i32 (exponent a + exponent b) in
    let size_of_sum := leader a + leader b in
    let extra := high product - size_of_sum in
    let exp := if extra <? 0 then i32 (exp - extra) else exp in
    let p := if extra <? 0 then extra else 0 in
    s ← multip_loop a b (seqZ 0 (size_of_sum + 1))
      (mk_multip_state (low product) 0 0 p extra exp);
    multip_end s sgn.

(** ** flonum_copy *)

(** [memset] of [n] bytes to zero, from the littlenum [i] on. *)
Fixpoint clear_bytes (h : host) (l : list Z) (i : nat) (n : nat) : list Z :=
  match n with
  | O => l
  | 1%nat =>
      let v := nth i l 0 in
      <[i := match h with LE => Z.land v 65280 | BE => Z.land v 255 end]> l
  | S (S n) => clear_bytes h (<[i := 0]> l) (S i) n
  end.

(** [memcpy] of the littlenums of [src] over the start of [dst]. *)
Definition copy_over (dst src : list Z) : list Z := src ++ drop (length src) dst.

Definition flonum_copy (h : host) (in_ out : flonum) : flonum :=
  let in_length := leader in_ in
  if in_length <? 0 then mk_flonum (low out) (-1) (exponent out) (sign in_)
  else
    let out_length := high out in
    if in_length <=? out_length then
      let l :=
        if in_length <? out_length then
          clear_bytes h (low out) (Z.to_nat (in_length + 1)) (Z.to_nat (out_length - in_length))
        else low out in
      mk_flonum (copy_over l (take (Z.to_nat (in_length + 1)) (low in_))) in_length
        (exponent in_) (sign in_)
    else
      let shorten := in_length - out_length in
      mk_flonum (copy_over (low out)
          (take (Z.to_nat (out_length + 1)) (drop (Z.to_nat shorten) (low in_))))
        out_length (i32 (exponent in_ + shorten)) (sign in_).

(** ** flonum-const.c *)

Definition table_size_of_flonum_powers_of_ten : Z := 11.

Definition zero_ : list Z :=
  [1].

Definition minus_1 : list Z :=
  [39321; 39321; 39321; 39321; 39321; 39321; 39321; 39321; 39321; 39321; 39321; 39321;
   39321; 39321; 39321; 39321; 39321; 39321; 39321; 6553].

Definition plus_1 : list Z :=
  [10].

Definition minus_2 : list Z :=
  [10485; 36700; 62914; 23592; 49807; 10485; 36700; 62914; 23592; 49807; 10485; 36700;
   62914; 23592; 49807; 10485; 36700; 62914; 23592; 655].

Definition plus_2 : list Z :=
  [100].

Definition minus_3 : list Z :=
  [52533; 20027; 37329; 65116; 64067; 60397; 14784; 18979; 33659; 19503; 2726; 9542; 629;
   2202; 40475; 10590; 4299; 47815; 36280; 6].

Definition plus_3 : list Z :=
  [10000].

Definition minus_4 : list Z :=
  [22516; 49501; 54293; 19424; 60699; 6716; 24348; 22618; 23904; 21327; 3919; 44703; 19149;
   28803; 48959; 6259; 50273; 62237; 42].

Definition plus_4 : list Z :=
  [57600; 1525].

Definition minus_5 : list Z :=
  [22199; 45957; 17005; 26266; 10526; 16260; 55017; 35680; 40443; 19789; 17356; 30195;
   55905; 28426; 63010; 44197; 1844].

Definition plus_5 : list Z :=
  [28609; 34546; 35].

Definition minus_6 : list Z :=
  [30926; 26518; 13110; 43018; 54982; 48258; 24658; 15209; 63366; 11929; 20069; 43857;
   60487; 51].

Definition plus_6 : list Z :=
  [61313; 34220; 16731; 11629; 1262].

Definition minus_7 : list Z :=
  [29819; 14733; 21490; 40602; 31315; 65186; 2695].

Definition plus_7 : list Z :=
  [7937; 49002; 60772; 28216; 38893; 55975; 63988; 59711; 20227; 24].

Definition minus_8 : list Z :=
  [45849; 19069; 18068; 36324; 37948; 48745; 10873; 64360; 15961; 20566; 24178; 15922;
   59427; 110].

Definition plus_8 : list Z :=
  [15873; 11925; 39177; 991; 14589; 19735; 25347; 65086; 53853; 938; 37209; 47086; 33626;
   23253; 32586; 42547; 9731; 59679; 590].

Definition minus_9 : list Z :=
  [63601; 55221; 43562; 33661; 29067; 28203; 65417; 64352; 22462; 41110; 12570; 28635;
   23199; 50572; 28471; 27074; 46375; 64028; 13106; 63700; 32698; 17493; 32420; 34382;
   22750; 20681; 12300].

Definition plus_9 : list Z :=
  [63564; 61556; 29377; 54467; 18621; 28141; 36415; 61241; 47119; 30026; 19740; 46002;
   13541; 61413; 30480; 38664; 32205; 50593; 51112; 48904; 48263; 43814; 286; 30826; 52813;
   62575; 61390; 24540; 21495; 5].

Definition minus_10 : list Z :=
  [50313; 34681; 1464; 25889; 19575; 41125; 17635; 4598; 49708; 13427; 17287; 56115; 53783;
   38255; 32415; 17778; 31596; 7557; 20951; 18477; 40353; 1178; 44405; 11837; 11571; 50963;
   15649; 11698; 40675; 2308].

Definition plus_10 : list Z :=
  [18520; 53764; 54535; 61910; 61962; 59843; 46270; 58053; 12473; 63785; 2449; 43230;
   50044; 47595; 10403; 35766; 32607; 1124; 24966; 35044; 25524; 23631; 18826; 14518;
   58448; 14562; 49618; 5588; 25396; 28].

Definition minus_11 : list Z :=
  [6223; 59909; 62437; 59960; 14652; 45336; 48800; 7647; 51962; 37982; 60436; 58176; 26767;
   8440; 9831; 48556; 20994; 14148; 6757; 17221; 60624; 46129; 53210; 44085; 54016; 24259;
   11232; 21229; 21313; 81].

Definition plus_11 : list Z :=
  [36159; 2055; 33615; 61362; 23581; 62454; 9748; 15275; 39284; 58636; 16269; 42793; 47240;
   45774; 50861; 48400; 9413; 40281; 4030; 9572; 7984; 33038; 59522; 19450; 40593; 24486;
   54320; 6661; 55766; 805].

Definition flonum_negative_powers_of_ten : list flonum :=
  [mk_flonum zero_ 0 (0) plus;
   mk_flonum minus_1 19 (-20) plus;
   mk_flonum minus_2 19 (-20) plus;
   mk_flonum minus_3 19 (-20) plus;
   mk_flonum minus_4 18 (-20) plus;
   mk_flonum minus_5 16 (-20) plus;
   mk_flonum minus_6 13 (-20) plus;
   mk_flonum minus_7 6 (-20) plus;
   mk_flonum minus_8 13 (-40) plus;
   mk_flonum minus_9 26 (-80) plus;
   mk_flonum minus_10 29 (-136) plus;
   mk_flonum minus_11 29 (-242) plus].

Definition flonum_positive_powers_of_ten : list flonum :=
  [mk_flonum zero_ 0 (0) plus;
   mk_flonum plus_1 0 (0) plus;
   mk_flonum plus_2 0 (0) plus;
   mk_flonum plus_3 0 (0) plus;
   mk_flonum plus_4 1 (0) plus;
   mk_flonum plus_5 2 (1) plus;
   mk_flonum plus_6 4 (2) plus;
   mk_flonum plus_7 9 (4) plus;
   mk_flonum plus_8 18 (8) plus;
   mk_flonum plus_9 29 (24) plus;
   mk_flonum plus_10 29 (77) plus;
   mk_flonum plus_11 29 (183) plus].
