(* ===== verification/Littlenums.v ===== *)
(** * Numbers in the radix 2^16

    The value of a list of littlenums, the least significant one first, and
    the product of two such numbers as sums over its columns, which
    flonum_multip of as/flonum-mult.c computes one after the other. *)

From Stdlib Require Import ZArith Lia Bool.
From stdpp Require Import base option numbers list.
From S2P Require Import Prelude CInt.

Abbreviation R := 65536 (only parsing).

(** ** Values *)

Fixpoint digits_value (l : list Z) : Z :=
  match l with
  | [] => 0
  | d :: l => d + R * digits_value l
  end.

Definition digits (l : list Z) : Prop := Forall (in_uw 16) l.

Lemma digits_value_app l1 l2 :
  digits_value (l1 ++ l2) = digits_value l1 + R ^ Z.of_nat (length l1) * digits_value l2.
Proof.
  induction l1 as [|d l1 IH]; simpl; [lia|].
  rewrite IH, Nat2Z.inj_succ, Z.pow_succ_r by lia. ring.
Qed.

Lemma digits_value_snoc l d :
  digits_value (l ++ [d]) = digits_value l + R ^ Z.of_nat (length l) * d.
Proof. rewrite digits_value_app. simpl. ring. Qed.

Lemma digits_value_range l : digits l -> 0 <= digits_value l < R ^ Z.of_nat (length l).
Proof.
  induction 1 as [|d l Hd _ IH]; simpl; [lia|]. unfold in_uw in Hd.
  rewrite Nat2Z.inj_succ, Z.pow_succ_r by lia. lia.
Qed.

Lemma digits_take l n : digits l -> digits (take n l).
Proof. apply Forall_take. Qed.

Lemma digits_drop l n : digits l -> digits (drop n l).
Proof. apply Forall_drop. Qed.

Lemma digits_snoc l d : digits l -> in_uw 16 d -> digits (l ++ [d]).
Proof. intros. apply Forall_app. split; [done|by constructor]. Qed.

#[export] Hint Resolve digits_take digits_drop digits_snoc : cint.

(** The littlenums from one position on are a quotient. *)
Lemma digits_value_drop l n :
  digits l -> digits_value (drop n l) = digits_value l / R ^ Z.of_nat n.
Proof.
  intros Hl. destruct (decide (length l <= n)%nat) as [Hn|Hn].
  - rewrite drop_ge by done. simpl. pose proof (digits_value_range l Hl).
    symmetry. apply Z.div_small. split; [lia|]. eapply Z.lt_le_trans; [apply H|].
    apply Z.pow_le_mono_r; lia.
  - rewrite <- (take_drop n l) at 2. rewrite digits_value_app, length_take_le by lia.
    pose proof (digits_value_range (take n l) ltac:(auto with cint)) as H.
    rewrite length_take_le in H by lia.
    rewrite (Z.mul_comm (R ^ _)), Z.div_add by lia. rewrite Z.div_small by lia. lia.
Qed.

Lemma digits_value_zeros l : digits l -> digits_value l = 0 <-> Forall (eq 0) l.
Proof.
  induction 1 as [|d l Hd Hl IH]; simpl; [by split|].
  pose proof (digits_value_range l Hl). unfold in_uw in Hd. split.
  - intros. constructor; [lia|]. apply IH. lia.
  - intros [<- ?]%Forall_cons. rewrite (proj2 IH) by done. lia.
Qed.

(** The lowest littlenums are zero when the number is a multiple. *)
Lemma digits_value_mod l n :
  digits l -> digits_value l mod R ^ Z.of_nat n = digits_value (take n l).
Proof.
  intros Hl. destruct (decide (length l <= n)%nat) as [Hn|Hn].
  - rewrite take_ge by done. pose proof (digits_value_range l Hl).
    apply Z.mod_small. split; [lia|]. eapply Z.lt_le_trans; [apply H|].
    apply Z.pow_le_mono_r; lia.
  - rewrite <- (take_drop n l) at 1. rewrite digits_value_app, length_take_le by lia.
    pose proof (digits_value_range (take n l) ltac:(auto with cint)) as H.
    rewrite length_take_le in H by lia.
    rewrite (Z.mul_comm (R ^ _)), Z.mod_add by lia. by apply Z.mod_small.
Qed.

(** ** Sums *)

Fixpoint sum (n : nat) (f : nat -> Z) : Z :=
  match n with
  | O => 0
  | S n => sum n f + f n
  end.

Lemma sum_ext n f g : (forall i, (i < n)%nat -> f i = g i) -> sum n f = sum n g.
Proof.
  induction n as [|n IH]; simpl; [done|]. intros H. rewrite (H n) by lia. f_equal.
  apply IH. intros; apply H; lia.
Qed.

Lemma sum_shift n f : sum (S n) f = f O + sum n (fun i => f (S i)).
Proof. induction n as [|n IH]; [simpl; lia|]. simpl in *. lia. Qed.

Lemma sum_add n f g : sum n (fun i => f i + g i) = sum n f + sum n g.
Proof. induction n; simpl; lia. Qed.

Lemma sum_scale n c f : sum n (fun i => c * f i) = c * sum n f.
Proof. induction n; simpl; lia. Qed.

Lemma sum_zero n f : (forall i, (i < n)%nat -> f i = 0) -> sum n f = 0.
Proof.
  induction n as [|n IH]; simpl; [done|]. intros H. rewrite (H n) by lia.
  rewrite IH; [done|]. intros; apply H; lia.
Qed.

Definition digit (l : list Z) (i : nat) : Z := nth i l 0.

Lemma digit_range l i : digits l -> in_uw 16 (digit l i).
Proof.
  intros H. unfold digit. revert i. induction H as [|d l Hd _ IH]; intros [|i]; simpl; done.
Qed.

Lemma digit_out l i : (length l <= i)%nat -> digit l i = 0.
Proof. apply nth_overflow. Qed.

Lemma digits_value_sum l n :
  (length l <= n)%nat -> digits_value l = sum n (fun i => R ^ Z.of_nat i * digit l i).
Proof.
  revert n. induction l as [|d l IH]; intros n Hn; cbn [digits_value].
  - symmetry. apply sum_zero. intros i _. rewrite digit_out by (simpl; lia). lia.
  - simpl in Hn. destruct n as [|n]; [lia|]. rewrite sum_shift, (IH n) by lia.
    unfold digit at 2. simpl nth. rewrite Z.pow_0_r, <- sum_scale. f_equal; [lia|].
    apply sum_ext. intros i _. rewrite Nat2Z.inj_succ, Z.pow_succ_r by lia.
    change (digit (d :: l) (S i)) with (digit l i). ring.
Qed.

(** ** Columns of the product *)

(** The first [n] summands of column [N]. *)
Definition part (a b : list Z) (N n : nat) : Z :=
  sum n (fun A => digit a A * digit b (N - A)).

Definition column_sum (a b : list Z) (N : nat) : Z := part a b N (S N).

Lemma column_sum_cons d a b N :
  column_sum (d :: a) b N =
  d * digit b N + match N with O => 0 | S N => column_sum a b N end.
Proof.
  unfold column_sum, part. rewrite sum_shift, Nat.sub_0_r. unfold digit at 1. simpl nth.
  f_equal. destruct N as [|N]; [done|]. apply sum_ext. intros i _. done.
Qed.

(** The columns, each at its place, add up to the product. *)
Lemma columns_product a b n :
  (length a + length b <= S n)%nat ->
  sum n (fun N => R ^ Z.of_nat N * column_sum a b N) = digits_value a * digits_value b.
Proof.
  revert n. induction a as [|d a IH]; intros n Hn; cbn [digits_value].
  - apply sum_zero. intros i _. unfold column_sum, part. rewrite sum_zero; [lia|].
    intros j _. rewrite digit_out by (simpl; lia). lia.
  - simpl in Hn.
    rewrite (sum_ext _ _ (fun N => d * (R ^ Z.of_nat N * digit b N) +
      R ^ Z.of_nat N * match N with O => 0 | S N => column_sum a b N end)).
    2:{ intros i _. rewrite column_sum_cons. ring. }
    rewrite sum_add, sum_scale, <- digits_value_sum by lia.
    destruct n as [|n].
    + destruct a, b; simpl in *; lia.
    + rewrite sum_shift, Z.mul_0_r, Z.add_0_l.
      rewrite (sum_ext _ _ (fun N => R * (R ^ Z.of_nat N * column_sum a b N))).
      2:{ intros i _. rewrite Nat2Z.inj_succ, Z.pow_succ_r by lia. ring. }
      rewrite sum_scale, IH by lia. ring.
Qed.

Section part_bounds.
Context (a b : list Z) (Ha : digits a) (Hb : digits b).

Lemma part_nonneg N n : 0 <= part a b N n.
Proof.
  induction n as [|n IH]; [done|]. unfold part in *. simpl.
  pose proof (digit_range a n Ha) as [? _]. pose proof (digit_range b (N - n) Hb) as [? _]. nia.
Qed.

Lemma term_range i j : 0 <= digit a i * digit b j <= 65535 * 65535.
Proof.
  pose proof (digit_range a i Ha) as Hi. pose proof (digit_range b j Hb) as Hj.
  unfold in_uw in *. change (2 ^ 16) with 65536 in *. nia.
Qed.

Lemma part_le_a N n : part a b N n <= 65535 * 65535 * Z.of_nat (Nat.min n (length a)).
Proof.
  induction n as [|n IH]; [done|]. unfold part in *. simpl sum.
  destruct (decide (n < length a)%nat).
  - pose proof (term_range n (N - n)). rewrite !Nat.min_l in * by lia. lia.
  - rewrite (digit_out a) by lia. rewrite !Nat.min_r in * by lia. lia.
Qed.

Lemma part_le_b N n :
  (n <= S N)%nat -> part a b N n <= 65535 * 65535 * Z.of_nat (n - (S N - length b)).
Proof.
  induction n as [|n IH]; intros Hn; [done|]. unfold part in *. simpl sum.
  specialize (IH ltac:(lia)). destruct (decide (N - n < length b)%nat).
  - pose proof (term_range n (N - n)). lia.
  - rewrite (digit_out b) by lia. lia.
Qed.

Lemma part_le N n :
  (n <= S N)%nat ->
  part a b N n <= 65535 * 65535 * Z.of_nat (Nat.min (length a) (length b)).
Proof.
  intros Hn. pose proof (part_le_a N n). pose proof (part_le_b N n Hn). lia.
Qed.
End part_bounds.
