(* ===== verification/FlonumSpec.v ===== *)
(** * What flonum_multip computes

    The product of two flonums is the integer product of their mantissas,
    without some of its lowest littlenums; which and how many are dropped, and
    the exponent that accounts for them. *)

From Stdlib Require Import ZArith Lia Bool Ascii.
From stdpp Require Import base option numbers list.
From S2P Require Import Prelude CInt Littlenums Flonum.

(** ** Numbers and their products *)

(** The littlenums from [low] to [leader]. *)
Definition significand (f : flonum) : list Z := take (Z.to_nat (leader f + 1)) (low f).

Definition mantissa (f : flonum) : Z := digits_value (significand f).

Record valid (f : flonum) : Prop := {
  valid_sign : is_sign (sign f) = true;
  valid_low : digits (low f);
  valid_leader : -1 <= leader f <= high f
}.

(** The leading littlenum is not zero, as flonum.h demands. *)
Definition normal (f : flonum) : Prop := 0 <= leader f /\ littlenum f (leader f) <> 0.

(** No sum of a column reaches 2^32. *)
Definition no_overflow (a b : flonum) : Prop :=
  forall i j, 0 <= i <= leader a -> 0 <= j <= leader b ->
    littlenum a i * littlenum b j + 65535 * (Z.min (leader a) (leader b) + 1) < 2 ^ 32.

(** With a factor of at most two littlenums no sum can. *)
Lemma no_overflow_short a b :
  valid a -> valid b -> Z.min (leader a) (leader b) <= 1 -> no_overflow a b.
Proof.
  intros Va Vb Hm i j Hi Hj. unfold littlenum.
  pose proof (digit_range (low a) (Z.to_nat i) (valid_low _ Va)) as Da.
  pose proof (digit_range (low b) (Z.to_nat j) (valid_low _ Vb)) as Db.
  unfold digit, in_uw in *. change (2 ^ 16) with 65536 in *. change (2 ^ 32) with 4294967296.
  nia.
Qed.

Lemma significand_digits f : valid f -> digits (significand f).
Proof. intros V. apply digits_take, V. Qed.

Lemma significand_length f : valid f -> Z.of_nat (length (significand f)) = leader f + 1.
Proof.
  intros V. pose proof (valid_leader _ V). unfold significand, high in *.
  rewrite length_take. lia.
Qed.

Lemma significand_digit f i :
  digit (significand f) i = if Z.of_nat i <=? leader f then littlenum f (Z.of_nat i) else 0.
Proof.
  unfold significand, digit, littlenum. destruct (Z.leb_spec (Z.of_nat i) (leader f)).
  - rewrite !nth_lookup, lookup_take_lt by lia. by rewrite Nat2Z.id.
  - rewrite nth_lookup, lookup_take_ge by lia. done.
Qed.

#[export] Hint Resolve significand_digits : cint.

Lemma land_mask w : Z.land w LITTLENUM_MASK = w mod R.
Proof. unfold LITTLENUM_MASK. change 65535 with (Z.ones 16). by apply Z.land_ones. Qed.

Lemma shiftr_littlenum w : Z.shiftr w LITTLENUM_NUMBER_OF_BITS = w / R.
Proof. by apply Z.shiftr_div_pow2. Qed.

Lemma seqZ_0 n : seqZ 0 n = Z.of_nat <$> seq 0 (Z.to_nat n).
Proof. unfold seqZ. apply list_fmap_ext. intros; lia. Qed.

(** ** One column *)

Section product.
Context (a b : flonum) (Va : valid a) (Vb : valid b) (Hno : no_overflow a b).

Abbreviation da := (significand a).
Abbreviation db := (significand b).

Definition width : Z := Z.min (leader a) (leader b) + 1.

(** Work and carry hold the sum of the carry-in and of the summands so far. *)
Record column_sound (N n : nat) (c0 : Z) (wc : Z * Z) : Prop := {
  cs_sum : fst wc + R * snd wc = c0 + part da db N n;
  cs_work : 0 <= fst wc;
  cs_carry : 0 <= snd wc;
  cs_range : fst wc < R \/ (wc = (c0, 0) /\
    forall i, (i < n)%nat -> ~ (Z.of_nat i <= leader a /\ Z.of_nat (N - i) <= leader b))
}.

Lemma part_width N n :
  (n <= S N)%nat -> 0 <= part da db N n <= 65535 * 65535 * width.
Proof.
  intros Hn. pose proof (part_nonneg da db ltac:(auto with cint) ltac:(auto with cint) N n).
  pose proof (part_le da db ltac:(auto with cint) ltac:(auto with cint) N n Hn).
  rewrite Nat2Z.inj_min, !significand_length in * by done. unfold width. lia.
Qed.

Lemma column_step_sound N n c0 wc :
  (n <= N)%nat -> 0 <= c0 <= 65535 * width -> column_sound N n c0 wc ->
  column_sound N (S n) c0 (column_step a b (Z.of_nat N) wc (Z.of_nat n)).
Proof.
  intros Hn Hc0 [Hs Hw Hc Hr]. pose proof (part_width N (S n) ltac:(lia)) as Hp.
  unfold part in Hp, Hs. simpl sum in Hp.
  unfold column_step. rewrite !significand_digit in Hp. rewrite <- Nat2Z.inj_sub by lia.
  destruct ((Z.of_nat n <=? leader a) && (Z.of_nat (N - n) <=? leader b) &&
    (0 <=? Z.of_nat (N - n))) eqn:E; bool_to_prop.
  - rewrite !(proj2 (Z.leb_le _ _)) in Hp by lia.
    pose proof (Hno (Z.of_nat n) (Z.of_nat (N - n)) ltac:(lia) ltac:(lia)) as Ho.
    fold width in Ho. set (t := littlenum a (Z.of_nat n) * littlenum b (Z.of_nat (N - n))) in *.
    assert (0 <= t) as Ht.
    { pose proof (term_range da db ltac:(auto with cint) ltac:(auto with cint) n (N - n)) as Ht.
      rewrite !significand_digit, !(proj2 (Z.leb_le _ _)) in Ht by lia. apply Ht. }
    assert (fst wc + t < 2 ^ 32) as Hlt.
    { destruct Hr as [Hr|[-> _]]; simpl; [|lia]. nia. }
    rewrite land_mask, shiftr_littlenum. rewrite (uw_id 32 (fst wc + t)) by (split; lia).
    pose proof (Z.div_mod (fst wc + t) R ltac:(lia)) as Hdm.
    pose proof (Z.mod_pos_bound (fst wc + t) R ltac:(lia)).
    pose proof (Z.div_pos (fst wc + t) R ltac:(lia) ltac:(lia)).
    rewrite (uw_id 32) by (unfold in_uw; nia).
    split; simpl; [|lia|lia|left; lia].
    unfold part. simpl sum. rewrite !significand_digit, !(proj2 (Z.leb_le _ _)) by lia.
    fold t. lia.
  - assert (digit da n * digit db (N - n) = 0) as Hz.
    { rewrite !significand_digit. apply andb_false_iff in E as [E|E]; bool_to_prop; [|lia].
      apply andb_false_iff in E as [E|E]; rewrite E; lia. }
    split; [|done|done|].
    + unfold part. simpl sum. rewrite Hz. lia.
    + destruct Hr as [Hr|[-> Hr]]; [by left|right]. split; [done|].
      intros i Hi Hin. destruct (decide (i = n)) as [->|]; [|apply (Hr i); [lia|done]].
      rewrite !(proj2 (Z.leb_le _ _)) in E by lia. done.
Qed.

Lemma column_sound_fold N c0 n :
  (n <= S N)%nat -> 0 <= c0 <= 65535 * width ->
  column_sound N n c0
    (fold_left (column_step a b (Z.of_nat N)) (Z.of_nat <$> seq 0 n) (c0, 0)).
Proof.
  intros Hn Hc0. induction n as [|n IH].
  - simpl. split; simpl; [unfold part; simpl; lia|lia|lia|]. right. split; [done|]. intros; lia.
  - rewrite seq_S, fmap_app, fold_left_app. simpl.
    apply column_step_sound; [lia|done|]. apply IH. lia.
Qed.

(** A column hands on its sum as one littlenum and a carry. *)
Lemma column_correct N c0 :
  0 <= c0 <= 65535 * width -> c0 = 0 \/ Z.of_nat N <= leader a + leader b ->
  exists d c, column a b (Z.of_nat N) c0 = (d, c) /\ in_uw 16 d /\
    0 <= c <= 65535 * width /\ d + R * c = c0 + column_sum da db N.
Proof.
  intros Hc0 Hex. pose proof (column_sound_fold N c0 (S N) ltac:(lia) Hc0) as [Hs Hw Hc Hr].
  pose proof (part_width N (S N) ltac:(lia)) as Hp.
  unfold column. rewrite seqZ_0, Z2Nat.inj_add, Nat2Z.id, Nat.add_1_r by lia.
  destruct (fold_left _ _ _) as [d c] eqn:E. simpl in *.
  exists d, c. split; [done|].
  assert (d < R).
  { destruct Hr as [Hr|[[= -> ->] Hr]]; [done|]. destruct Hex as [->|Hex]; [lia|].
    pose proof (valid_leader _ Va). pose proof (valid_leader _ Vb).
    unfold width in Hc0. destruct (decide (c0 = 0)) as [->|]; [lia|]. exfalso.
    apply (Hr (Z.to_nat (Z.min (Z.of_nat N) (leader a)))); lia. }
  split; [by split|]. split; [|done]. split; [done|]. nia.
Qed.
(** ** The loop over the columns *)

Context (low0 : list Z) (e0 : Z).

(** The littlenums of the product that are missing in the array. *)
Definition extra0 : Z := Z.of_nat (length low0) - 1 - (leader a + leader b).
Definition cut : nat := Z.to_nat (- extra0).

(** After [n] columns, whose littlenums are [ds]: the lowest [cut + k] of them
    are not stored, [k] because they are zeros. *)
Record loop_inv (n : nat) (ds : list Z) (k : nat) (s : multip_state) : Prop := {
  li_length : length ds = n;
  li_digits : digits ds;
  li_carry : 0 <= ms_carry s <= 65535 * width;
  li_sum : digits_value ds + R ^ Z.of_nat n * ms_carry s =
    sum n (fun N => R ^ Z.of_nat N * column_sum da db N);
  li_P : P s = Z.of_nat n - Z.of_nat (cut + k);
  li_extra : extra_product_positions s = extra0 + Z.of_nat k;
  li_exponent : ms_exponent s = i32 (e0 + Z.of_nat k);
  li_low : digits (product_low s);
  li_room : length (product_low s) = length low0;
  li_take : take (Z.to_nat (P s)) (product_low s) = drop (cut + k) ds;
  li_significant : significant s = 0 <-> Forall (eq 0) ds;
  li_start : significant s = 0 -> P s <= 0;
  li_skipped : (0 < k)%nat -> (cut + k <= n)%nat /\ Forall (eq 0) (take (cut + k) ds)
}.

Lemma zeros_snoc ds d : Forall (eq 0) (ds ++ [d]) <-> Forall (eq 0) ds /\ d = 0.
Proof. rewrite Forall_app, Forall_singleton. naive_solver. Qed.

Lemma loop_sum n ds c0 d c :
  length ds = n ->
  digits_value ds + R ^ Z.of_nat n * c0 = sum n (fun N => R ^ Z.of_nat N * column_sum da db N) ->
  d + R * c = c0 + column_sum da db n ->
  digits_value (ds ++ [d]) + R ^ Z.of_nat (S n) * c =
  sum (S n) (fun N => R ^ Z.of_nat N * column_sum da db N).
Proof.
  intros Hl Hs Hd. rewrite digits_value_snoc, Hl, Nat2Z.inj_succ, Z.pow_succ_r by lia.
  cbn [sum]. rewrite <- Hs.
  replace (column_sum da db n) with (d + R * c - c0) by lia. ring.
Qed.

Lemma store_take l v :
  in_uw 16 v -> digits l -> forall i, (i < length l)%nat ->
  store l (Z.of_nat i) v = Some (<[i := v]> l) /\
  digits (<[i := v]> l) /\ take (S i) (<[i := v]> l) = take i l ++ [v].
Proof.
  intros Hv Hl i Hi. unfold store.
  rewrite (proj2 (Z.leb_le 0 _)), (proj2 (Z.ltb_lt _ _)) by lia. simpl.
  rewrite Nat2Z.id, uw_id by done. split; [done|]. split; [by apply Forall_insert|].
  erewrite take_S_r by (by apply list_lookup_insert_eq). by rewrite take_insert_ge by lia.
Qed.

Lemma multip_step_inv n ds k s :
  Z.of_nat n <= leader a + leader b -> loop_inv n ds k s ->
  exists d k' s', multip_step a b (Z.of_nat n) s = Some s' /\ loop_inv (S n) (ds ++ [d]) k' s'.
Proof.
  intros Hn [Hlen Hds Hc Hsum HP Hex Hexp Hlow Hroom Htake Hsig Hstart Hskip].
  destruct (column_correct n (ms_carry s) Hc ltac:(lia)) as (d & c & Hcol & Hd & Hc' & Hdc).
  pose proof (loop_sum n ds _ d c Hlen Hsum Hdc) as Hsum'.
  unfold multip_step. rewrite Hcol.
  assert (Z.lor (significant s) d = 0 <-> Forall (eq 0) (ds ++ [d])) as Hsig'.
  { rewrite zeros_snoc, Z.lor_eq_0_iff, Hsig. done. }
  exists d. destruct (Z.ltb_spec (P s) 0) as [Hneg|Hpos].
  { rewrite orb_true_r, (proj2 (Z.leb_gt _ _)) by lia. simpl.
    exists k. eexists. split; [done|]. assert (k = 0)%nat as -> by lia.
    split; cbn [ms_carry P extra_product_positions ms_exponent product_low significant];
      rewrite ?length_app; simpl; auto with cint; try lia.
    rewrite (Z2Nat.nonpos (P s + 1)) by lia. rewrite drop_ge; [done|].
    rewrite length_app. simpl. lia. }
  rewrite orb_false_r, (proj2 (Z.leb_le _ _)) by lia.
  destruct (Z.eqb_spec (Z.lor (significant s) d) 0) as [Hz|Hz]; simpl.
  - exists (S k). eexists. split; [done|]. rewrite Hz in Hsig'.
    assert (P s = 0) as HP0 by (apply Z.lor_eq_0_iff in Hz as [Hz _]; specialize (Hstart Hz); lia).
    split; cbn [ms_carry P extra_product_positions ms_exponent product_low significant];
      rewrite ?length_app; simpl; auto with cint; try lia.
    + rewrite Hexp, i32_add_l. f_equal. lia.
    + rewrite HP0, drop_ge; [done|]. rewrite length_app. simpl. lia.
    + by rewrite Hz.
    + split; [lia|]. apply Forall_take. by apply Hsig'.
  - destruct (store_take (product_low s) d Hd Hlow (Z.to_nat (P s))) as (Hst & Hdig & Htk).
    { unfold cut, extra0 in *. lia. }
    rewrite Z2Nat.id in Hst by lia. rewrite Hst. simpl.
    exists k. eexists. split; [done|].
    split; cbn [ms_carry P extra_product_positions ms_exponent product_low significant];
      rewrite ?length_app, ?length_insert; simpl; auto with cint; try lia.
    + rewrite Z2Nat.inj_add, Nat.add_1_r by lia. rewrite Htk, Htake, drop_app_le by lia. done.
    + intros Hk. destruct (Hskip Hk). split; [lia|]. by rewrite take_app_le by lia.
Qed.

Lemma multip_loop_inv m n ds k s :
  Z.of_nat (n + m) <= Z.max 0 (leader a + leader b + 1) -> loop_inv n ds k s ->
  exists ds' k' s', multip_loop a b (Z.of_nat <$> seq n m) s = Some s' /\
    loop_inv (n + m) ds' k' s'.
Proof.
  revert n ds k s. induction m as [|m IH]; intros n ds k s Hn Hs.
  - rewrite Nat.add_0_r. exists ds, k, s. done.
  - destruct (multip_step_inv n ds k s ltac:(lia) Hs) as (d & k1 & s1 & H1 & Hs1).
    simpl. rewrite H1. simpl. rewrite <- Nat.add_succ_comm. apply (IH (S n) (ds ++ [d]) k1 s1); [lia|done].
Qed.

(** ** The carry of the last column *)

Lemma shift_down_spec l n c :
  digits l -> (n <= length l)%nat -> in_uw 16 c ->
  shift_down l n c = drop 1 (take n l ++ [c]) ++ drop n l.
Proof.
  revert l c. induction n as [|n IH]; intros l c Hl Hn Hc; [done|].
  destruct (lookup_lt_is_Some_2 l n ltac:(lia)) as [x Hx].
  assert (nth n l 0 = x) as Hnth by (by apply nth_lookup_Some).
  assert (in_uw 16 x) as Hx' by (eapply Forall_lookup_1 in Hl; done).
  simpl shift_down. rewrite Hnth, uw_id by done.
  rewrite IH by (rewrite ?length_insert; first [by apply Forall_insert|done|lia]).
  rewrite take_insert_ge by lia. rewrite (take_S_r l n x Hx).
  assert (drop n (<[n:=c]> l) = c :: drop (S n) l) as ->.
  { rewrite (drop_S _ c) by (apply list_lookup_insert_eq; lia). f_equal.
    by rewrite drop_insert_lt by lia. }
  destruct (take n l) as [|y t]; [done|]. cbn [app drop]. by rewrite !drop_0, <- !app_assoc.
Qed.

Definition T : Z := mantissa a * mantissa b.

Lemma product_sum n :
  leader a + leader b + 1 <= Z.of_nat n ->
  sum n (fun N => R ^ Z.of_nat N * column_sum da db N) = T.
Proof.
  intros Hn. apply columns_product.
  pose proof (significand_length a Va). pose proof (significand_length b Vb). lia.
Qed.

Lemma T_range : 0 <= T < R ^ (leader a + leader b + 2).
Proof.
  unfold T. pose proof (digits_value_range da ltac:(auto with cint)) as Ha.
  pose proof (digits_value_range db ltac:(auto with cint)) as Hb.
  rewrite !significand_length in * by done. fold (mantissa a) (mantissa b) in *.
  pose proof (valid_leader _ Va). pose proof (valid_leader _ Vb).
  replace (leader a + leader b + 2) with ((leader a + 1) + (leader b + 1)) by lia.
  rewrite Z.pow_add_r by lia. nia.
Qed.

(** The product keeps what the array has room for. *)
Definition room : Prop :=
  T < R ^ (leader a + leader b + 1) \/ 0 <= extra0 \/ T mod R ^ (1 - extra0) <> 0.

(** [r] is the product without its lowest [D] littlenums. *)
Record truncates (sgn : ascii) (r : flonum) (D : nat) : Prop := {
  tr_sign : sign r = sgn;
  tr_digits : digits (low r);
  tr_length : length (low r) = length low0;
  tr_leader : -1 <= leader r <= high r;
  tr_mantissa : mantissa r = T / R ^ Z.of_nat D;
  tr_exponent : exponent r = i32 (e0 - Z.of_nat cut + Z.of_nat D);
  tr_exact : T mod R ^ Z.of_nat D = 0 \/ (leader r = high r /\ extra0 <= 0);
  tr_normal : low0 <> [] -> 0 <= leader a + leader b -> R ^ (leader a + leader b) <= T ->
    0 <= leader r /\ R ^ (leader r) * R ^ Z.of_nat D <= T
}.

Lemma significand_make l p e sgn : significand (mk_flonum l p e sgn) = take (Z.to_nat (p + 1)) l.
Proof. done. Qed.

(** The littlenums that were stored are a quotient of the product. *)
Lemma kept n ds k s :
  leader a + leader b + 1 <= Z.of_nat n -> loop_inv n ds k s ->
  digits (ds ++ [ms_carry s]) /\ ms_carry s < R /\
  digits_value (ds ++ [ms_carry s]) = T /\
  (ms_carry s = 0 -> digits_value ds = T) /\
  (0 < ms_carry s -> 0 <= leader a + leader b).
Proof.
  intros Hn I. pose proof (li_sum _ _ _ _ I) as Hsum. rewrite (product_sum n Hn) in Hsum.
  pose proof (li_carry _ _ _ _ I) as Hc. pose proof T_range as HT.
  pose proof (digits_value_range ds (li_digits _ _ _ _ I)) as Hds.
  rewrite (li_length _ _ _ _ I) in Hds.
  assert (0 < R ^ Z.of_nat n) by lia.
  assert (ms_carry s < R) as Hlt.
  { assert (R ^ (leader a + leader b + 2) <= R ^ Z.of_nat (S n)) by (apply Z.pow_le_mono_r; lia).
    rewrite Nat2Z.inj_succ, Z.pow_succ_r in * by lia. nia. }
  assert (digits_value (ds ++ [ms_carry s]) = T) as Hv.
  { by rewrite digits_value_snoc, (li_length _ _ _ _ I). }
  split; [apply digits_snoc; [apply I|split; lia]|]. repeat split; [done|done| |].
  - intros H0. rewrite H0 in Hsum. lia.
  - intros H0. destruct (Z.lt_ge_cases (leader a + leader b) 0); [exfalso|done].
    pose proof (valid_leader _ Va). pose proof (valid_leader _ Vb).
    assert (width <= 0) by (unfold width; lia). lia.
Qed.

Lemma normal_bound D q :
  0 <= q -> R ^ (Z.of_nat D + q) <= T -> R ^ q * R ^ Z.of_nat D <= T.
Proof. intros. rewrite <- Z.pow_add_r, Z.add_comm by lia. done. Qed.

(** Without a carry. *)
Lemma end_plain n ds k s sgn :
  n = Z.to_nat (leader a + leader b + 1) -> loop_inv n ds k s -> ms_carry s = 0 ->
  -2 <= leader a + leader b ->
  truncates sgn (mk_flonum (product_low s) (P s - 1) (ms_exponent s) sgn) (cut + k).
Proof.
  intros Hn I H0 H2. destruct (kept n ds k s ltac:(lia) I) as (_ & _ & _ & HV & _).
  specialize (HV H0). pose proof (li_P _ _ _ _ I) as HP.
  pose proof (li_digits _ _ _ _ I) as Hds. pose proof (li_skipped _ _ _ _ I) as Hk.
  assert (leader a + leader b = -2 -> extra0 = Z.of_nat (length low0) + 1) as Hm2
    by (unfold extra0; lia).
  assert (cut + k <= n)%nat as Hcut.
  { destruct k as [|k]; [|apply Hk; lia]. unfold cut, extra0 in *. lia. }
  split; cbn [sign low leader exponent]; try apply I.
  - done.
  - unfold high. simpl. rewrite (li_room _ _ _ _ I). unfold cut, extra0 in *. lia.
  - unfold mantissa. rewrite significand_make, Z.sub_add, (li_take _ _ _ _ I).
    by rewrite digits_value_drop, HV.
  - rewrite (li_exponent _ _ _ _ I). f_equal. lia.
  - destruct k as [|k].
    + destruct (decide (cut = 0%nat)) as [->|Hc]; [left; apply Z.mod_1_r|right].
      split; [|unfold cut in *; lia]. unfold high. simpl. rewrite (li_room _ _ _ _ I). unfold cut, extra0 in *. lia.
    + left. rewrite <- HV, digits_value_mod by done.
      apply digits_value_zeros; [auto with cint|]. apply Hk. lia.
  - intros Hne Hs HT.
    assert (cut + k < n)%nat as Hlt.
    { destruct (decide (cut + k = n)%nat) as [He|]; [exfalso|lia].
      assert (digits_value ds = 0) as Hz.
      { apply digits_value_zeros; [done|]. destruct k as [|k].
        - exfalso. assert (length low0 <> O) by (by intros ?%nil_length_inv).
          unfold cut, extra0 in *. lia.
        - destruct (Hk ltac:(lia)) as [_ Hz]. rewrite take_ge in Hz; [done|].
          rewrite (li_length _ _ _ _ I). lia. }
      pose proof (Z.pow_pos_nonneg R (leader a + leader b) ltac:(lia) Hs). lia. }
    split; [lia|]. apply normal_bound; [lia|].
    replace (Z.of_nat (cut + k) + (P s - 1)) with (leader a + leader b) by lia. done.
Qed.

Lemma carry_bound n ds k s :
  leader a + leader b + 1 <= Z.of_nat n -> loop_inv n ds k s -> 0 < ms_carry s ->
  R ^ Z.of_nat n <= T.
Proof.
  intros Hn I Hc. pose proof (li_sum _ _ _ _ I) as Hsum. rewrite (product_sum n Hn) in Hsum.
  pose proof (digits_value_range ds (li_digits _ _ _ _ I)).
  pose proof (Z.pow_pos_nonneg R (Z.of_nat n) ltac:(lia) ltac:(lia)). nia.
Qed.

(** With a carry and a place for it. *)
Lemma end_store n ds k s sgn :
  n = Z.to_nat (leader a + leader b + 1) -> loop_inv n ds k s -> 0 < ms_carry s ->
  0 < extra_product_positions s ->
  exists l, store (product_low s) (P s) (ms_carry s) = Some l /\
    truncates sgn (mk_flonum l (P s) (ms_exponent s) sgn) (cut + k).
Proof.
  intros Hn I H0 Hex. destruct (kept n ds k s ltac:(lia) I) as (Hd & Hc & HV & _ & HS).
  specialize (HS H0). pose proof (carry_bound n ds k s ltac:(lia) I H0) as HT.
  pose proof (li_P _ _ _ _ I) as HP. pose proof (li_skipped _ _ _ _ I) as Hk.
  pose proof (li_room _ _ _ _ I) as Hroom. pose proof (li_length _ _ _ _ I) as Hlen.
  rewrite (li_extra _ _ _ _ I) in Hex.
  assert (cut + k <= n)%nat as Hcut.
  { destruct k as [|k]; [|apply Hk; lia]. unfold cut, extra0 in *. lia. }
  assert (Z.to_nat (P s) < length (product_low s))%nat as Hin.
  { unfold cut, extra0 in *. lia. }
  destruct (store_take (product_low s) (ms_carry s) ltac:(split; lia) (li_low _ _ _ _ I) _ Hin)
    as (Hst & Hdig & Htk).
  rewrite Z2Nat.id in Hst by lia. eexists. split; [exact Hst|].
  split; cbn [sign low leader exponent]; try done.
  - by rewrite length_insert.
  - unfold high. simpl. rewrite length_insert. lia.
  - unfold mantissa. rewrite significand_make, Z2Nat.inj_add, Nat.add_1_r by lia.
    rewrite Htk, (li_take _ _ _ _ I), <- drop_app_le by lia.
    by rewrite digits_value_drop, HV.
  - rewrite (li_exponent _ _ _ _ I). f_equal. lia.
  - left. destruct k as [|k].
    + assert (cut = 0%nat) as -> by (unfold cut in *; lia). apply Z.mod_1_r.
    + destruct (Hk ltac:(lia)) as [_ Hz].
      rewrite <- HV, digits_value_mod, take_app_le by (done || lia).
      apply digits_value_zeros; [apply digits_take, I|done].
  - intros _ _ _. split; [lia|]. apply normal_bound; [lia|].
    replace (Z.of_nat (cut + k) + P s) with (Z.of_nat n) by lia. done.
Qed.

(** Nothing was skipped when the carry has no place, if there is room. *)
Lemma no_room n ds k s :
  n = Z.to_nat (leader a + leader b + 1) -> loop_inv n ds k s -> 0 < ms_carry s ->
  room -> extra_product_positions s <= 0 -> k = 0%nat /\ extra0 <= 0.
Proof.
  intros Hn I H0 Hr Hex. destruct (kept n ds k s ltac:(lia) I) as (Hd & _ & HV & _ & HS).
  specialize (HS H0). pose proof (carry_bound n ds k s ltac:(lia) I H0) as HT.
  rewrite (li_extra _ _ _ _ I) in Hex. split; [|lia].
  destruct Hr as [Hr|[Hr|Hr]]; [|lia|].
  { rewrite Hn, Z2Nat.id in HT by lia. lia. }
  destruct k as [|k]; [done|]. destruct (li_skipped _ _ _ _ I ltac:(lia)) as [Hle Hz].
  destruct Hr. replace (1 - extra0) with (Z.of_nat (S cut)) by (unfold cut; lia).
  rewrite <- HV, digits_value_mod by done.
  rewrite take_app_le by (rewrite (li_length _ _ _ _ I); lia).
  apply digits_value_zeros; [apply digits_take, I|].
  replace (S cut) with (S cut `min` (cut + S k))%nat by lia.
  rewrite <- take_take. by apply Forall_take.
Qed.

Lemma end_shift n ds k s sgn :
  n = Z.to_nat (leader a + leader b + 1) -> loop_inv n ds k s -> 0 < ms_carry s ->
  room -> extra_product_positions s <= 0 ->
  truncates sgn (mk_flonum (shift_down (product_low s) (Z.to_nat (P s - 1 + 1)) (ms_carry s))
    (P s - 1) (i32 (ms_exponent s + 1)) sgn) (S cut).
Proof.
  intros Hn I H0 Hr Hex. destruct (kept n ds k s ltac:(lia) I) as (Hd & Hc & HV & _ & HS).
  specialize (HS H0). pose proof (carry_bound n ds k s ltac:(lia) I H0) as HT.
  destruct (no_room n ds k s Hn I H0 Hr Hex) as [-> Hx].
  pose proof (li_P _ _ _ _ I) as HP. pose proof (li_take _ _ _ _ I) as Htk.
  pose proof (li_room _ _ _ _ I) as Hroom. rewrite Nat.add_0_r in *.
  assert (P s = Z.of_nat (length low0)) as HPl by (unfold cut, extra0 in *; lia).
  rewrite Z.sub_add, HPl, Nat2Z.id in *.
  assert (take (length low0) (product_low s) = product_low s) as Hall by (rewrite take_ge; [done|lia]).
  rewrite Hall in Htk.
  rewrite shift_down_spec by (try apply I; try lia; split; lia).
  rewrite Hall, (drop_ge (product_low s) (length low0)), app_nil_r by lia.
  set (l := drop 1 (product_low s ++ [ms_carry s])).
  assert (length l = length low0) as Hl by (subst l; rewrite length_drop, length_app; simpl; lia).
  split; cbn [sign low leader exponent]; try done.
  - apply digits_drop. apply digits_snoc; [apply I|split; lia].
  - unfold high. simpl. lia.
  - unfold mantissa. rewrite significand_make, Z.sub_add, Nat2Z.id, take_ge by lia.
    subst l. rewrite Htk, <- drop_app_le by (rewrite (li_length _ _ _ _ I); unfold cut, extra0 in *; lia).
    rewrite drop_drop, Nat.add_1_r. by rewrite digits_value_drop, HV.
  - rewrite (li_exponent _ _ _ _ I), i32_add_l. f_equal. lia.
  - right. split; [unfold high; simpl; lia|done].
  - intros Hne _ _. assert (length low0 <> O) by (by intros ?%nil_length_inv).
    split; [lia|]. apply normal_bound; [lia|].
    replace (Z.of_nat (S cut) + (Z.of_nat (length low0) - 1)) with (Z.of_nat n)
      by (unfold cut, extra0 in *; lia). done.
Qed.

Lemma multip_end_truncates n ds k s sgn :
  n = Z.to_nat (leader a + leader b + 1) -> -2 <= leader a + leader b -> room ->
  loop_inv n ds k s -> exists r D, multip_end s sgn = Some r /\ truncates sgn r D.
Proof.
  intros Hn H2 Hr I. pose proof (li_carry _ _ _ _ I) as Hc. unfold multip_end.
  destruct (Z.eqb_spec (ms_carry s) 0) as [H0|H0]; simpl.
  - eexists _, _. split; [done|]. by apply (end_plain n ds).
  - destruct (Z.ltb_spec 0 (extra_product_positions s)).
    + destruct (end_store n ds k s sgn Hn I ltac:(lia) ltac:(done)) as (l & Hst & Ht).
      rewrite Hst. by eexists _, _.
    + eexists _, _. split; [done|]. apply (end_shift n ds k); (done || lia).
Qed.

Lemma multip_start_inv p x e :
  p = (if extra0 <? 0 then extra0 else 0) -> x = extra0 -> e = i32 e0 -> digits low0 ->
  loop_inv 0 [] 0 (mk_multip_state low0 0 0 p x e).
Proof.
  intros -> -> -> Hl. pose proof (valid_leader _ Va). pose proof (valid_leader _ Vb).
  assert ((if extra0 <? 0 then extra0 else 0) = - Z.of_nat cut) as ->.
  { unfold cut. destruct (Z.ltb_spec extra0 0); lia. }
  split; simpl; try done; try lia.
  - by apply Forall_nil.
  - unfold width. lia.
  - f_equal. lia.
  - by rewrite Z2Nat.nonpos, drop_nil by lia.
Qed.
End product.

Lemma normal_mantissa f :
  valid f -> normal f -> 0 <= leader f /\ R ^ leader f <= mantissa f.
Proof.
  intros V [Hl Hn]. split; [done|]. unfold mantissa.
  pose proof (significand_length f V) as Hlen. pose proof (significand_digits f V) as Hd.
  pose proof (significand_digit f (Z.to_nat (leader f))) as Hg.
  rewrite Z2Nat.id, Z.leb_refl in Hg by done.
  rewrite <- (take_drop (Z.to_nat (leader f)) (significand f)), digits_value_app.
  rewrite length_take_le, Z2Nat.id by lia.
  destruct (drop (Z.to_nat (leader f)) (significand f)) as [|d l] eqn:E.
  { apply (f_equal length) in E. rewrite length_drop in E. simpl in E. lia. }
  assert (d = littlenum f (leader f)) as Hdg.
  { rewrite <- Hg. unfold digit. rewrite nth_lookup.
    rewrite <- (Nat.add_0_r (Z.to_nat (leader f))), <- lookup_drop, E. done. }
  pose proof (digits_drop _ (Z.to_nat (leader f)) Hd) as Hdd. rewrite E in Hdd.
  apply Forall_cons in Hdd as [Hd0 Hdl]. pose proof (digits_value_range _ Hdl).
  pose proof (digits_value_range _ (digits_take _ (Z.to_nat (leader f)) Hd)).
  simpl. unfold in_uw in Hd0. assert (1 <= d + R * digits_value l) by lia.
  pose proof (Z.pow_pos_nonneg R (leader f) ltac:(lia) Hl). nia.
Qed.

Lemma mantissa_normal f :
  valid f -> 0 <= leader f -> R ^ leader f <= mantissa f -> normal f.
Proof.
  intros V Hl Hm. split; [done|]. intros H0.
  pose proof (significand_length f V) as Hlen. pose proof (significand_digits f V) as Hd.
  pose proof (significand_digit f (Z.to_nat (leader f))) as Hg.
  rewrite Z2Nat.id, Z.leb_refl, H0 in Hg by done. unfold mantissa in Hm.
  rewrite <- (take_drop (Z.to_nat (leader f)) (significand f)), digits_value_app in Hm.
  assert (drop (Z.to_nat (leader f)) (significand f) = [0]) as E.
  { destruct (lookup_lt_is_Some_2 (significand f) (Z.to_nat (leader f)) ltac:(lia)) as [x Hx].
    unfold digit in Hg. rewrite nth_lookup, Hx in Hg. simpl in Hg. subst x.
    rewrite (drop_S _ 0 _ Hx), drop_ge; [done|lia]. }
  rewrite E in Hm. simpl in Hm.
  pose proof (digits_value_range _ (digits_take _ (Z.to_nat (leader f)) Hd)) as Hr.
  rewrite length_take_le, Z2Nat.id in Hr by lia. lia.
Qed.

(** ** flonum_multip *)

(** The product without its [D] lowest littlenums. *)
Lemma multip_product a b product :
  valid a -> valid b -> digits (low product) -> no_overflow a b -> room a b (low product) ->
  let T := mantissa a * mantissa b in
  exists r D, flonum_multip a b product = Some r /\ valid r /\
    sign r = (if Ascii.eqb (sign a) (sign b) then plus else minus) /\
    length (low r) = length (low product) /\
    mantissa r = T / R ^ Z.of_nat D /\
    exponent r = i32 (exponent a + exponent b + Z.of_nat D) /\
    (T mod R ^ Z.of_nat D = 0 \/
      (leader r = high r /\ high product <= leader a + leader b)) /\
    (normal a -> normal b -> low product <> [] -> normal r).
Proof.
  intros Va Vb Hlow Hno Hroom.
  pose proof (valid_leader _ Va). pose proof (valid_leader _ Vb).
  set (e0 := exponent a + exponent b + Z.of_nat (cut a b (low product))).
  pose proof (multip_start_inv a b Va Vb (low product) e0 _ _ _ eq_refl eq_refl eq_refl Hlow) as I0.
  destruct (multip_loop_inv a b Va Vb Hno (low product) e0
    (Z.to_nat (leader a + leader b + 1)) 0 [] 0 _ ltac:(lia) I0) as (ds & k & s & Hs & I).
  destruct (multip_end_truncates a b Va Vb (low product) e0 _ ds k s
    (if Ascii.eqb (sign a) (sign b) then plus else minus) eq_refl ltac:(lia) Hroom I)
    as (r & D & Hr & [Hsg Hdg Hlen Hld Hm He Hx Hn]).
  assert (valid r) as Vr.
  { split; [|done|done]. rewrite Hsg. by destruct (Ascii.eqb _ _). }
  exists r, D. split; [|do 4 (split; [done|]); split; [|split]].
  - unfold flonum_multip. rewrite (valid_sign _ Va), (valid_sign _ Vb). simpl.
    replace (high product - (leader a + leader b)) with (extra0 a b (low product)) by done.
    rewrite seqZ_0. simpl in Hs.
    assert ((if extra0 a b (low product) <? 0
      then i32 (i32 (exponent a + exponent b) - extra0 a b (low product))
      else i32 (exponent a + exponent b)) = i32 e0) as He0.
    { unfold e0, cut. destruct (Z.ltb_spec (extra0 a b (low product)) 0).
      - unfold Z.sub. rewrite i32_add_l. f_equal. lia.
      - f_equal. lia. }
    rewrite He0, Hs. done.
  - rewrite He. unfold e0. f_equal. lia.
  - destruct Hx as [Hx|[Hx Hx']]; [by left|right]. split; [done|].
    unfold extra0, high in *. lia.
  - intros Na Nb Hne. destruct (normal_mantissa a Va Na) as [Hla Hma].
    destruct (normal_mantissa b Vb Nb) as [Hlb Hmb].
    destruct Hn as [Hl Hb]; [done|lia|unfold T; rewrite Z.pow_add_r by lia; nia|].
    apply mantissa_normal; [done|done|]. rewrite Hm. apply Z.div_le_lower_bound; [lia|].
    lia.
Qed.

(** C37: flonum_multip multiplies: when no column overflows ([no_overflow]) and the array of the
    product has room ([room]: the product has no more than [leader a + leader b + 1] littlenums; or
    the array has as many as that; or of the lowest littlenums of the product, one more than the
    array is short of, not all are zero), the mantissa of the
    result is the product of the mantissas without its [D] lowest littlenums,
    and the exponent accounts for them; a littlenum that is not zero is only
    dropped when the result fills its array; nothing is stored outside of the
    array, and the product of numbers with leading littlenums has one. *)
Theorem flonum_multip_correct a b product :
  valid a -> valid b -> digits (low product) -> no_overflow a b -> room a b (low product) ->
  let T := mantissa a * mantissa b in
  exists r D, flonum_multip a b product = Some r /\ valid r /\
    sign r = (if Ascii.eqb (sign a) (sign b) then plus else minus) /\
    length (low r) = length (low product) /\
    mantissa r = T / R ^ Z.of_nat D /\
    exponent r = i32 (exponent a + exponent b + Z.of_nat D) /\
    (T mod R ^ Z.of_nat D = 0 \/
      (leader r = high r /\ high product <= leader a + leader b)) /\
    (normal a -> normal b -> low product <> [] -> normal r).
Proof. exact (multip_product a b product). Qed.

Ltac concrete_digits := repeat (apply Forall_cons; split; [split; lia|]); by apply Forall_nil.
Ltac concrete_valid :=
  split; [reflexivity|unfold low; simpl; concrete_digits|vm_compute; split; congruence].

(** 1/3 in 32 bits times 30000, into an array of two littlenums. *)
Definition third : flonum := mk_flonum [21845; 21845] 1 (-2) plus.
Definition thirty_thousand : flonum := mk_flonum [30000] 0 0 minus.
Definition two_littlenums : flonum := mk_flonum [7; 7] (-1) 0 plus.

Lemma flonum_multip_correct_witness :
  let T := mantissa third * mantissa thirty_thousand in
  exists r D, flonum_multip third thirty_thousand two_littlenums = Some r /\ valid r /\
    sign r = minus /\ length (low r) = 2%nat /\
    mantissa r = T / R ^ Z.of_nat D /\
    exponent r = i32 (-2 + 0 + Z.of_nat D) /\
    (T mod R ^ Z.of_nat D = 0 \/ (leader r = high r /\ 1 <= 1 + 0)) /\
    (normal third -> normal thirty_thousand -> low two_littlenums <> [] -> normal r).
Proof.
  assert (valid third) as V1 by concrete_valid.
  assert (valid thirty_thousand) as V2 by concrete_valid.
  apply (flonum_multip_correct third thirty_thousand two_littlenums V1 V2).
  - simpl. concrete_digits.
  - apply no_overflow_short; [exact V1|exact V2|vm_compute; congruence].
  - right. left. vm_compute. congruence.
Defined.

(** what the conditions of the product exclude does happen.  The carry of a
    column is lost in the square of 2^48 - 1, which is 2^80 too small.  A
    product whose lowest littlenums are zeros becomes 0.0 when they fill its
    array, and loses its lowest littlenum, though there is a place for it, when
    they almost do. *)
Theorem flonum_multip_limits :
  let multiply x y z := flonum_multip (mk_flonum x (Z.of_nat (length x) - 1) 0 plus)
    (mk_flonum y (Z.of_nat (length y) - 1) 0 plus) (mk_flonum z (-1) 0 plus) in
  (exists r, multiply [65535; 65535; 65535] [65535; 65535; 65535] (replicate 6 0) = Some r /\
    exponent r = 0 /\ mantissa r = (2 ^ 48 - 1) * (2 ^ 48 - 1) - 2 ^ 80) /\
  (exists r, multiply [0; 32768] [0; 2] [0] = Some r /\
    leader r = -1 /\ (R * 32768) * (R * 2) = R ^ 3) /\
  (exists r, multiply [0; 0; 32768] [0; 5; 4] [0; 0; 0] = Some r /\
    mantissa r * R ^ (exponent r) <> (R ^ 2 * 32768) * (R * 5 + R ^ 2 * 4) /\ leader r < high r).
Proof.
  split; [|split]; eexists; (split; [vm_compute; reflexivity|]); (split; [vm_compute|]).
  all: vm_compute; congruence.
Qed.

(** ** flonum_copy, and the tables of the powers of ten *)

(** ** flonum_copy *)

Lemma clear_bytes_length h l i n : length (clear_bytes h l i n) = length l.
Proof.
  revert l i n. fix IH 3. intros l i [|[|n]]; simpl; [done|by rewrite length_insert|].
  rewrite IH. by rewrite length_insert.
Qed.

Lemma land_in_uw w v m : 0 <= w -> in_uw w v -> 0 <= m -> in_uw w (Z.land v m).
Proof.
  intros Hw Hv Hm. rewrite <- (uw_id w v Hv). unfold uw.
  rewrite <- Z.land_ones, <- Z.land_assoc, (Z.land_comm (Z.ones w)), Z.land_assoc, Z.land_ones by done.
  apply Z.mod_pos_bound. by apply Z.pow_pos_nonneg.
Qed.

Lemma clear_bytes_digits h l i n : digits l -> digits (clear_bytes h l i n).
Proof.
  revert l i n. fix IH 3. intros l i [|[|n]] Hl; simpl; [done| |].
  - apply Forall_insert; [done|].
    clear IH. pose proof (digit_range l i Hl). destruct h; by apply land_in_uw.
  - apply IH. apply Forall_insert; [done|]. split; lia.
Qed.

Lemma copy_over_digits l1 l2 : digits l1 -> digits l2 -> digits (copy_over l1 l2).
Proof. intros H1 H2. apply Forall_app. split; [done|by apply digits_drop]. Qed.

Lemma copy_over_length l1 l2 :
  (length l2 <= length l1)%nat -> length (copy_over l1 l2) = length l1.
Proof. intros. unfold copy_over. rewrite length_app, length_drop. lia. Qed.

(** [flonum_copy] copies the value: the sign is copied and 0.0 stays 0.0; a
    number that fits the array keeps its mantissa and its exponent, and one
    that does not keeps its highest littlenums, as many as there is room for,
    with the exponent raised by the number of the others. *)
Theorem flonum_copy_value h in_ out :
  valid in_ -> digits (low out) ->
  let r := flonum_copy h in_ out in
  let shorten := leader in_ - high out in
  valid r /\ sign r = sign in_ /\ length (low r) = length (low out) /\
  (leader in_ < 0 -> leader r = -1) /\
  (0 <= leader in_ -> shorten <= 0 ->
    leader r = leader in_ /\ mantissa r = mantissa in_ /\ exponent r = exponent in_) /\
  (0 <= leader in_ -> 0 < shorten ->
    leader r = high r /\ mantissa r = mantissa in_ / R ^ shorten /\
    exponent r = i32 (exponent in_ + shorten)).
Proof.
  intros V Ho. pose proof (valid_leader _ V) as Hl. pose proof (valid_low _ V) as Hd.
  assert (-1 <= high out) by (unfold high; lia).
  unfold flonum_copy. destruct (Z.ltb_spec (leader in_) 0) as [H0|H0]; simpl.
  { split; [split; simpl; [apply V|done|unfold high in *; simpl; lia]|].
    do 3 (split; [done|]). split; intros; lia. }
  destruct (Z.leb_spec (leader in_) (high out)) as [Hle|Hlt]; simpl.
  - set (l1 := if leader in_ <? high out then _ else _).
    assert (digits l1 /\ length l1 = length (low out)) as [Hl1 Hn1].
    { subst l1. destruct (leader in_ <? high out); [|done].
      split; [by apply clear_bytes_digits|apply clear_bytes_length]. }
    assert (length (copy_over l1 (significand in_)) = length (low out)) as Hlen.
    { rewrite copy_over_length; [done|]. pose proof (significand_length in_ V).
      unfold high in Hle. lia. }
    fold (significand in_). split.
    { split; simpl; [apply V|apply copy_over_digits; auto with cint|].
      unfold high. simpl. rewrite Hlen. fold (high out). lia. }
    split; [done|]. split; [done|]. split; [intros; lia|]. split; [|intros; lia].
    intros _ _. split; [done|]. split; [|done].
    unfold mantissa. rewrite significand_make. unfold copy_over.
    pose proof (significand_length in_ V).
    by rewrite take_app_length' by lia.
  - set (dropped := leader in_ - high out).
    set (l := take (Z.to_nat (high out + 1)) (drop (Z.to_nat dropped) (low in_))).
    assert (l = drop (Z.to_nat dropped) (significand in_)) as El.
    { subst l. unfold significand. rewrite take_drop_commute. do 2 f_equal. lia. }
    assert (length l = length (low out)) as Hl2.
    { rewrite El, length_drop. pose proof (significand_length in_ V). unfold high in *. lia. }
    assert (copy_over (low out) l = l) as Hc.
    { unfold copy_over. rewrite drop_ge, app_nil_r by lia. done. }
    rewrite Hc. split.
    { split; simpl; [apply V|rewrite El; auto with cint|]. unfold high. simpl.
      rewrite Hl2. fold (high out). lia. }
    split; [done|]. split; [done|]. split; [intros; lia|]. split; [intros; lia|].
    intros _ _. split; [unfold high; simpl; by rewrite Hl2|]. split; [|done].
    unfold mantissa. rewrite significand_make, take_ge.
    + rewrite El, digits_value_drop by auto with cint. by rewrite Z2Nat.id by lia.
    + rewrite Hl2. unfold high. lia.
Qed.

Lemma flonum_copy_value_witness :
  let in_ := mk_flonum [1; 2; 3] 2 (-1) plus in
  let r := flonum_copy LE in_ (mk_flonum [9; 9] 1 0 minus) in
  leader r = high r /\ mantissa r = mantissa in_ / R ^ 1 /\ exponent r = i32 (-1 + 1).
Proof.
  assert (valid (mk_flonum [1; 2; 3] 2 (-1) plus)) as V by concrete_valid.
  destruct (flonum_copy_value LE _ (mk_flonum [9; 9] 1 0 minus) V) as (_ & _ & _ & _ & _ & H).
  - simpl. concrete_digits.
  - apply H; vm_compute; congruence.
Defined.

(** The high littlenums the copy does not need are meant to be cleared, but
    only half of their bytes are. *)
Example flonum_copy_leaves_evidence :
  low (flonum_copy LE (mk_flonum [1; 2] 1 0 plus) (mk_flonum [9; 9; 9; 9; 9; 9] 5 0 plus)) =
  [1; 2; 0; 0; 9; 9].
Proof. reflexivity. Qed.

(** ** The powers of ten *)

(** The tables of the powers of ten: the entries 1 to 11 are numbers in
    normal form for 10^(2^(n-1)) and 10^-(2^(n-1)).  The positive ones up to
    10^64 are exact and the negative ones up to 10^-64 are rounded down to
    their last littlenum; the four beyond are off by less than one part in
    2^64, the negative ones in 2^104. *)
Theorem powers_of_ten_accuracy n p m :
  (1 <= n)%nat -> flonum_positive_powers_of_ten !! n = Some p ->
  flonum_negative_powers_of_ten !! n = Some m ->
  let ten := 10 ^ (2 ^ (Z.of_nat n - 1)) in
  let one := R ^ (- exponent m) in
  valid p /\ valid m /\ normal p /\ normal m /\
  sign p = plus /\ sign m = plus /\ 0 <= exponent p /\ exponent m < 0 /\
  ((n <= 7)%nat ->
    mantissa p * R ^ exponent p = ten /\ mantissa m = one / ten) /\
  ((8 <= n)%nat ->
    2 ^ 64 * Z.abs (mantissa p * R ^ exponent p - ten) < ten /\
    2 ^ 104 * Z.abs (mantissa m * ten - one) < one).
Proof.
  intros Hn Hp Hm.
  assert (n = 1 \/ n = 2 \/ n = 3 \/ n = 4 \/ n = 5 \/ n = 6 \/ n = 7 \/ n = 8 \/ n = 9 \/
    n = 10 \/ n = 11)%nat as Hcases.
  { apply lookup_lt_Some in Hp. simpl in Hp. lia. }
  destruct_or! Hcases; subst n; injection Hp as <-; injection Hm as <-.
  all: split; [concrete_valid|]; split; [concrete_valid|].
  all: do 2 (split; [split; vm_compute; congruence|]); do 2 (split; [reflexivity|]).
  all: split; [vm_compute; congruence|]; split; [reflexivity|].
  all: split; intros Hle; [try (exfalso; lia)|try (exfalso; lia)]; vm_compute; by split.
Qed.

Lemma powers_of_ten_accuracy_witness :
  let p := mk_flonum plus_8 18 8 plus in
  let m := mk_flonum minus_8 13 (-40) plus in
  2 ^ 64 * Z.abs (mantissa p * R ^ exponent p - 10 ^ 128) < 10 ^ 128 /\
  2 ^ 104 * Z.abs (mantissa m * 10 ^ 128 - R ^ 40) < R ^ 40.
Proof.
  apply (powers_of_ten_accuracy 8 (mk_flonum plus_8 18 8 plus) (mk_flonum minus_8 13 (-40) plus));
    [lia|reflexivity|reflexivity|lia].
Defined.

(** 10^128 would fit the entry that stands for it, which is another number. *)
Example plus_8_is_not_10_128 :
  let p := mk_flonum plus_8 18 8 plus in
  10 ^ 128 mod R ^ exponent p = 0 /\ 10 ^ 128 < R ^ (leader p + 1 + exponent p) /\
  mantissa p * R ^ exponent p <> 10 ^ 128.
Proof. vm_compute. repeat split; congruence. Qed.
