(* ===== verification/InPlace.v ===== *)
(** * libstuff/bytesex.c: swapping in memory

    A [swap_*] routine is a list of assignments to the fields of a structure,
    each with one of the swapping macros.  HeaderSwap and LoadCmdSwap write a
    routine as a function from the old structure to the new one; here it acts
    on the bytes of a memory image, an assignment after the other, for the
    code that swaps whole files in place.  An access outside of the image is
    [None]. *)

From Stdlib Require Import ZArith Lia Bool.
From Stdlib Require Import Init.Byte Strings.Byte.
From stdpp Require Import base option numbers list.
From S2P Require Import Prelude CInt ByteSex.

Abbreviation mem := (list byte) (only parsing).

(** ** Loads and stores *)

Definition in_bounds (m : mem) (o n : nat) : bool := (o + n <=? length m)%nat.

Definition write (m : mem) (o : nat) (bs : list byte) : mem :=
  take o m ++ bs ++ drop (o + length bs) m.

Definition st_u (n : nat) (h : host) (v : Z) (m : mem) (o : nat) : mem :=
  write m o (byte_of <$> mem_bytes h n v).

Definition load32 (h : host) (m : mem) (o : nat) : option Z :=
  if in_bounds m o 4 then Some (ld_u32 h m o) else None.

(** ** Assignments *)

(** [SWAP_DOUBLE] works on the bytes of a double, which [b] holds. *)
Definition SWAP_DOUBLE (b : list byte) : list byte := rev b.

(** The offsets are those of the fields in their structure. *)
Inductive assign :=
| SHORT (o : nat)
| INT (o : nat)
| LONG_LONG (o : nat)
| DOUBLE (o : nat)
| INT_FROM (o src : nat)
| SHORT_BY_INT (o : nat)
| EXTENDED (o : nat).

Definition swap_double (m : mem) (o : nat) : mem :=
  write m o (SWAP_DOUBLE (take 8 (drop o m))).

(** The three assignments to the parts of a 96-bit number. *)
Definition swap_extended (h : host) (m : mem) (o : nat) : mem :=
  let tmp := SWAP_INT (ld_u32 h m o) in
  let m := st_u 4 h (SWAP_INT (ld_u32 h m (o + 4))) m (o + 4) in
  let m := st_u 4 h (SWAP_INT (ld_u32 h m (o + 8))) m o in
  st_u 4 h tmp m (o + 8).

(** Carries out an assignment to a structure at offset [base]. *)
Definition do_assign (h : host) (base : nat) (a : assign) (m : mem) : option mem :=
  match a with
  | SHORT o =>
      let o := (base + o)%nat in
      if in_bounds m o 2 then Some (st_u 2 h (SWAP_SHORT (ld_u16 h m o)) m o) else None
  | INT o =>
      let o := (base + o)%nat in
      if in_bounds m o 4 then Some (st_u 4 h (SWAP_INT (ld_u32 h m o)) m o) else None
  | LONG_LONG o =>
      let o := (base + o)%nat in
      if in_bounds m o 8 then Some (st_u 8 h (SWAP_LONG_LONG (ld_u64 h m o)) m o) else None
  | DOUBLE o =>
      let o := (base + o)%nat in
      if in_bounds m o 8 then Some (swap_double m o) else None
  | INT_FROM o src =>
      let o := (base + o)%nat in
      let src := (base + src)%nat in
      if in_bounds m o 4 && in_bounds m src 4
      then Some (st_u 4 h (SWAP_INT (ld_u32 h m src)) m o) else None
  | SHORT_BY_INT o =>
      let o := (base + o)%nat in
      if in_bounds m o 2 then Some (st_u 2 h (SWAP_INT (ld_u16 h m o)) m o) else None
  | EXTENDED o =>
      let o := (base + o)%nat in
      if in_bounds m o 12 then Some (swap_extended h m o) else None
  end.

Fixpoint do_assigns (h : host) (base : nat) (l : list assign) (m : mem) : option mem :=
  match l with
  | [] => Some m
  | a :: l => m ← do_assign h base a m; do_assigns h base l m
  end.

(** [for(i = 0; i < n; i++)] over an array of structures of [size] bytes. *)
Fixpoint do_array (h : host) (base size n : nat) (l : list assign) (m : mem) : option mem :=
  match n with
  | O => Some m
  | S n => m ← do_assigns h base l m; do_array h (base + size) size n l m
  end.
