(* ===== verification/Assigns.v ===== *)
(** * libstuff/bytesex.c: the structures swapped in memory

    The assignments of the [swap_*] routine of each structure in the headers
    of an object file, in their order, and the size of the structure: the file
    headers and load commands first, then the thread states, whose layouts are
    in include/mach.  The states with bit-fields are in SwapHeaders. *)

From Stdlib Require Import ZArith Lia Bool.
From stdpp Require Import base option numbers list.
From S2P Require Import Prelude CInt ByteSex InPlace.

(** ** Headers and load commands *)

(** [swap_mach_header] and [sizeof(struct mach_header)] *)
Definition mach_header_assigns : list assign :=
  [INT 0; INT 4; INT 8; INT 12; INT 16; INT 20; INT 24].
Definition sizeof_mach_header : nat := 28.

(** [swap_mach_header_64] and [sizeof(struct mach_header_64)] *)
Definition mach_header_64_assigns : list assign :=
  [INT 0; INT 4; INT 8; INT 12; INT 16; INT 20; INT 24; INT 28].
Definition sizeof_mach_header_64 : nat := 32.

(** [swap_segment_command] and [sizeof(struct segment_command)] *)
Definition segment_command_assigns : list assign :=
  [INT 0; INT 4; INT 24; INT 28; INT 32; INT 36; INT 40; INT 44; INT 48; INT 52].
Definition sizeof_segment_command : nat := 56.

(** [swap_section] and [sizeof(struct section)] *)
Definition section_assigns : list assign :=
  [INT 32; INT 36; INT 40; INT 44; INT 48; INT 52; INT 56; INT 60; INT 64].
Definition sizeof_section : nat := 68.

(** [swap_segment_command_64] and [sizeof(struct segment_command_64)] *)
Definition segment_command_64_assigns : list assign :=
  [INT 0; INT 4; LONG_LONG 24; LONG_LONG 32; LONG_LONG 40; LONG_LONG 48; INT 56; INT 60;
   INT 64; INT 68].
Definition sizeof_segment_command_64 : nat := 72.

(** [swap_section_64] and [sizeof(struct section_64)] *)
Definition section_64_assigns : list assign :=
  [LONG_LONG 32; LONG_LONG 40; INT 48; INT 52; INT 56; INT 60; INT 64; INT 68; INT 72].
Definition sizeof_section_64 : nat := 80.

(** [swap_symtab_command] and [sizeof(struct symtab_command)] *)
Definition symtab_command_assigns : list assign :=
  [INT 0; INT 4; INT 8; INT 12; INT 16; INT 20].
Definition sizeof_symtab_command : nat := 24.

(** [swap_dysymtab_command] and [sizeof(struct dysymtab_command)] *)
Definition dysymtab_command_assigns : list assign :=
  [INT 0; INT 4; INT 8; INT 12; INT 16; INT 20; INT 24; INT 28; INT 32; INT 36; INT 40; INT 44;
   INT 48; INT 52; INT 56; INT 60; INT 64; INT 68; INT 72; INT 76].
Definition sizeof_dysymtab_command : nat := 80.

(** [swap_symseg_command] and [sizeof(struct symseg_command)] *)
Definition symseg_command_assigns : list assign :=
  [INT 0; INT 4; INT 8; INT 12].
Definition sizeof_symseg_command : nat := 16.

(** [swap_fvmlib_command] and [sizeof(struct fvmlib_command)] *)
Definition fvmlib_command_assigns : list assign :=
  [INT 0; INT 4; INT 8; INT 12; INT 16].
Definition sizeof_fvmlib_command : nat := 20.

(** [swap_dylib_command] and [sizeof(struct dylib_command)] *)
Definition dylib_command_assigns : list assign :=
  [INT 0; INT 4; INT 8; INT 12; INT 16; INT 20].
Definition sizeof_dylib_command : nat := 24.

(** [swap_sub_framework_command] and [sizeof(struct sub_framework_command)] *)
Definition sub_framework_command_assigns : list assign :=
  [INT 0; INT 4; INT 8].
Definition sizeof_sub_framework_command : nat := 12.

(** [swap_sub_umbrella_command] and [sizeof(struct sub_umbrella_command)] *)
Definition sub_umbrella_command_assigns : list assign :=
  [INT 0; INT 4; INT 8].
Definition sizeof_sub_umbrella_command : nat := 12.

(** [swap_sub_library_command] and [sizeof(struct sub_library_command)] *)
Definition sub_library_command_assigns : list assign :=
  [INT 0; INT 4; INT 8].
Definition sizeof_sub_library_command : nat := 12.

(** [swap_sub_client_command] and [sizeof(struct sub_client_command)] *)
Definition sub_client_command_assigns : list assign :=
  [INT 0; INT 4; INT 8].
Definition sizeof_sub_client_command : nat := 12.

(** [swap_prebound_dylib_command] and [sizeof(struct prebound_dylib_command)] *)
Definition prebound_dylib_command_assigns : list assign :=
  [INT 0; INT 4; INT 8; INT 12; INT 16].
Definition sizeof_prebound_dylib_command : nat := 20.

(** [swap_dylinker_command] and [sizeof(struct dylinker_command)] *)
Definition dylinker_command_assigns : list assign :=
  [INT 0; INT 4; INT 8].
Definition sizeof_dylinker_command : nat := 12.

(** [swap_thread_command] and [sizeof(struct thread_command)] *)
Definition thread_command_assigns : list assign :=
  [INT 0; INT 4].
Definition sizeof_thread_command : nat := 8.

(** [swap_entry_point_command] and [sizeof(struct entry_point_command)] *)
Definition entry_point_command_assigns : list assign :=
  [INT 0; INT 4; LONG_LONG 8; LONG_LONG 16].
Definition sizeof_entry_point_command : nat := 24.

(** [swap_source_version_command] and [sizeof(struct source_version_command)] *)
Definition source_version_command_assigns : list assign :=
  [INT 0; INT 4; LONG_LONG 8].
Definition sizeof_source_version_command : nat := 16.

(** [swap_note_command] and [sizeof(struct note_command)] *)
Definition note_command_assigns : list assign :=
  [INT 0; INT 4; LONG_LONG 24; LONG_LONG 32].
Definition sizeof_note_command : nat := 40.

(** [swap_ident_command] and [sizeof(struct ident_command)] *)
Definition ident_command_assigns : list assign :=
  [INT 0; INT 4].
Definition sizeof_ident_command : nat := 8.

(** [swap_routines_command] and [sizeof(struct routines_command)] *)
Definition routines_command_assigns : list assign :=
  [INT 0; INT 4; INT 8; INT 12; INT 16; INT 20; INT 24; INT 28; INT 32; INT 36].
Definition sizeof_routines_command : nat := 40.

(** [swap_routines_command_64] and [sizeof(struct routines_command_64)] *)
Definition routines_command_64_assigns : list assign :=
  [INT 0; INT 4; LONG_LONG 8; LONG_LONG 16; LONG_LONG 24; LONG_LONG 32; LONG_LONG 40;
   LONG_LONG 48; LONG_LONG 56; LONG_LONG 64].
Definition sizeof_routines_command_64 : nat := 72.

(** [swap_twolevel_hints_command] and [sizeof(struct twolevel_hints_command)] *)
Definition twolevel_hints_command_assigns : list assign :=
  [INT 0; INT 4; INT 8; INT 12].
Definition sizeof_twolevel_hints_command : nat := 16.

(** [swap_prebind_cksum_command] and [sizeof(struct prebind_cksum_command)] *)
Definition prebind_cksum_command_assigns : list assign :=
  [INT 0; INT 4; INT 8].
Definition sizeof_prebind_cksum_command : nat := 12.

(** [swap_uuid_command] and [sizeof(struct uuid_command)] *)
Definition uuid_command_assigns : list assign :=
  [INT 0; INT 4].
Definition sizeof_uuid_command : nat := 24.

(** [swap_linkedit_data_command] and [sizeof(struct linkedit_data_command)] *)
Definition linkedit_data_command_assigns : list assign :=
  [INT 0; INT 4; INT 8; INT 12].
Definition sizeof_linkedit_data_command : nat := 16.

(** [swap_rpath_command] and [sizeof(struct rpath_command)] *)
Definition rpath_command_assigns : list assign :=
  [INT 0; INT 4; INT 8].
Definition sizeof_rpath_command : nat := 12.

(** [swap_encryption_command] and [sizeof(struct encryption_info_command)] *)
Definition encryption_info_command_assigns : list assign :=
  [INT 0; INT 4; INT 8; INT 12; INT 16].
Definition sizeof_encryption_info_command : nat := 20.

(** [swap_encryption_command_64] and [sizeof(struct encryption_info_command_64)] *)
Definition encryption_info_command_64_assigns : list assign :=
  [INT 0; INT 4; INT 8; INT 12; INT 16; INT_FROM 16 20].
Definition sizeof_encryption_info_command_64 : nat := 24.

(** [swap_linker_option_command] and [sizeof(struct linker_option_command)] *)
Definition linker_option_command_assigns : list assign :=
  [INT 0; INT 4; INT 8].
Definition sizeof_linker_option_command : nat := 12.

(** [swap_dyld_info_command] and [sizeof(struct dyld_info_command)] *)
Definition dyld_info_command_assigns : list assign :=
  [INT 0; INT 4; INT 8; INT 12; INT 16; INT 20; INT 24; INT 28; INT 32; INT 36; INT 40; INT 44].
Definition sizeof_dyld_info_command : nat := 48.

(** [swap_version_min_command] and [sizeof(struct version_min_command)] *)
Definition version_min_command_assigns : list assign :=
  [INT 0; INT 4; INT 8].
Definition sizeof_version_min_command : nat := 16.

(** [swap_build_version_command] and [sizeof(struct build_version_command)] *)
Definition build_version_command_assigns : list assign :=
  [INT 0; INT 4; INT 8; INT 12; INT 16; INT 20].
Definition sizeof_build_version_command : nat := 24.

(** [swap_build_tool_version] and [sizeof(struct build_tool_version)] *)
Definition build_tool_version_assigns : list assign :=
  [INT 0; INT 4].
Definition sizeof_build_tool_version : nat := 8.

(** ** Thread states *)

(** [n] fields of the same kind, one after the other. *)
Definition row (a : nat -> assign) (o size n : nat) : list assign :=
  (fun i => a (o + size * i)%nat) <$> seq 0 n.

Definition m68k_thread_state_regs_assigns : list assign :=
  row INT 0 4 8 ++ row INT 32 4 8 ++ [SHORT 64; SHORT 66; INT 68].
Definition sizeof_m68k_thread_state_regs : nat := 72.

Definition m68k_thread_state_68882_assigns : list assign :=
  row EXTENDED 0 12 8 ++ [INT 96; INT 100; INT 104; INT 108].
Definition sizeof_m68k_thread_state_68882 : nat := 112.

Definition m68k_thread_state_user_reg_assigns : list assign := [INT 0].
Definition sizeof_m68k_thread_state_user_reg : nat := 4.

(** [srr0] and [srr1], [r0] to [r31], and six more. *)
Definition ppc_thread_state_t_assigns : list assign := row INT 0 4 40.
Definition sizeof_ppc_thread_state_t : nat := 160.

(** The same registers with 64 bits, but for [cr] and [vrsave]; no [mq]. *)
Definition ppc_thread_state64_t_assigns : list assign :=
  row LONG_LONG 0 8 34 ++ [INT 272] ++ row LONG_LONG 276 8 3 ++ [INT 300].
Definition sizeof_ppc_thread_state64_t : nat := 304.

Definition ppc_float_state_t_assigns : list assign := row DOUBLE 0 8 32 ++ [INT 256; INT 260].
Definition sizeof_ppc_float_state_t : nat := 264.

Definition ppc_exception_state_t_assigns : list assign :=
  [INT 0; INT 4; INT 8; INT 12] ++ row INT 16 4 4.
Definition sizeof_ppc_exception_state_t : nat := 32.

Definition m88k_thread_state_grf_t_assigns : list assign := row INT 0 4 34.
Definition sizeof_m88k_thread_state_grf_t : nat := 136.

Definition m88k_thread_state_user_t_assigns : list assign := [INT 0].
Definition sizeof_m88k_thread_state_user_t : nat := 4.

(** 66 integers, 13 doubles and 5 integers, and the padding. *)
Definition i860_thread_state_regs_assigns : list assign :=
  row INT 0 4 31 ++ row INT 124 4 30 ++ row INT 244 4 5 ++ row DOUBLE 264 8 13 ++
  row INT 368 4 5.
Definition sizeof_i860_thread_state_regs : nat := 392.

Definition i386_thread_state_assigns : list assign := row INT 0 4 16.
Definition sizeof_i386_thread_state : nat := 64.

(** [rflags] and [rip] come before [r8]. *)
Definition x86_thread_state64_assigns : list assign :=
  row LONG_LONG 0 8 8 ++ [LONG_LONG 136; LONG_LONG 128] ++ row LONG_LONG 64 8 8 ++
  row LONG_LONG 144 8 3.
Definition sizeof_x86_thread_state64 : nat := 168.

(** [trapno] has 16 bits, and so has [cpu] behind it, which is not swapped. *)
Definition i386_exception_state_assigns : list assign := [SHORT_BY_INT 0; INT 4; INT 8].
Definition sizeof_i386_exception_state : nat := 12.

Definition hppa_integer_thread_state_assigns : list assign := row INT 0 4 36.
Definition sizeof_hp_pa_integer_thread_state : nat := 144.

(** The last two members are not swapped. *)
Definition hppa_frame_thread_state_assigns : list assign := row INT 0 4 9.
Definition sizeof_hp_pa_frame_thread_state : nat := 44.

Definition hppa_fp_thread_state_assigns : list assign := row DOUBLE 0 8 32.
Definition sizeof_hp_pa_fp_thread_state : nat := 256.

Definition arm_thread_state_t_assigns : list assign := row INT 0 4 13 ++ row INT 52 4 4.
Definition sizeof_arm_thread_state_t : nat := 68.

Definition arm_thread_state64_t_assigns : list assign :=
  row LONG_LONG 0 8 29 ++ row LONG_LONG 232 8 4 ++ [INT 264].
Definition sizeof_arm_thread_state64_t : nat := 272.

Definition sizeof_m88k_thread_state_xrf_t : nat := 512.
Definition sizeof_m88110_thread_state_impl_t : nat := 64.
Definition sizeof_i386_float_state : nat := 524.
Definition sizeof_sparc_thread_state_regs : nat := 76.
Definition sizeof_sparc_thread_state_fpu : nat := 400.
