(* ===== verification/InPlaceSpec.v ===== *)
(** * What swapping in memory does to the bytes

    An assignment with the macro of its width reverses the bytes of its field,
    whatever the host; a list of assignments to separate fields reverses the
    bytes of each, and doing it again restores them. *)

From Stdlib Require Import ZArith Lia Bool.
From Stdlib Require Import Init.Byte Strings.Byte.
From stdpp Require Import base option numbers list.
From S2P Require Import Prelude CInt ByteSex InPlace.

(** The bytes from [o] on, [n] of them, in the opposite order. *)
Definition rev_at (m : mem) (o n : nat) : mem :=
  take o m ++ rev (take n (drop o m)) ++ drop (o + n) m.

Lemma rev_at_length m o n : (o + n <= length m)%nat -> length (rev_at m o n) = length m.
Proof.
  intros H. unfold rev_at. rewrite !length_app, length_rev, !length_take, !length_drop. lia.
Qed.

Lemma rev_at_slice pre c post o n :
  (o + n <= length c)%nat ->
  rev_at (pre ++ c ++ post) (length pre + o) n = pre ++ rev_at c o n ++ post.
Proof.
  intros H. unfold rev_at.
  rewrite take_app_add, <- Nat.add_assoc, !drop_app_add.
  rewrite take_app_le, !drop_app_le, take_app_le by (rewrite ?length_drop; lia).
  by rewrite <- !app_assoc.
Qed.

Lemma rev_reverse {A} (l : list A) : rev l = reverse l.
Proof. apply rev_alt. Qed.

Lemma rev_at_lookup m o n i :
  (o + n <= length m)%nat ->
  rev_at m o n !! i = m !! (if (o <=? i)%nat && (i <? o + n)%nat then 2 * o + n - 1 - i else i)%nat.
Proof.
  intros H. unfold rev_at.
  destruct (Nat.leb_spec o i); simpl; [|by rewrite lookup_app_l, lookup_take_lt by
    (rewrite ?length_take; lia)].
  rewrite lookup_app_r, length_take, Nat.min_l by (rewrite ?length_take; lia).
  destruct (Nat.ltb_spec i (o + n)).
  - rewrite lookup_app_l by (rewrite length_rev, length_take, length_drop; lia).
    rewrite rev_reverse, reverse_lookup by (rewrite length_take, length_drop; lia).
    rewrite length_take, length_drop, lookup_take_lt by lia.
    rewrite lookup_drop. f_equal. lia.
  - rewrite lookup_app_r by (rewrite length_rev, length_take, length_drop; lia).
    rewrite length_rev, length_take, length_drop, lookup_drop. f_equal. lia.
Qed.

(** ** The macros reverse *)

Lemma bytes_at_take m o n :
  (o + n <= length m)%nat -> bytes_at m o n = byte_Z <$> take n (drop o m).
Proof.
  intros H. unfold bytes_at. apply list_eq. intros i. rewrite !list_lookup_fmap.
  destruct (decide (i < n)%nat).
  - rewrite lookup_seq_lt, lookup_take_lt, lookup_drop by done. simpl. unfold byte_at.
    destruct (lookup_lt_is_Some_2 m (o + i) ltac:(lia)) as [b Hb]. rewrite Hb. simpl.
    do 2 f_equal. rewrite nth_lookup, Hb. done.
  - rewrite lookup_seq_ge, lookup_take_ge by lia. done.
Qed.

Lemma byte_of_byte_Z b : byte_of (byte_Z b) = b.
Proof. apply byte_Z_inj, byte_Z_of, byte_Z_range. Qed.

Lemma byte_of_bytes (l : list byte) : byte_of <$> (byte_Z <$> l) = l.
Proof.
  rewrite <- list_fmap_compose. rewrite <- (list_fmap_id l) at 2. apply list_fmap_ext.
  intros. apply byte_of_byte_Z.
Qed.

Lemma le_bytes_reverse n z : le_bytes n (byte_reverse n z) = rev (le_bytes n z).
Proof.
  unfold byte_reverse. pose proof (le_bytes_value (rev (le_bytes n z))) as H.
  rewrite length_rev, length_le_bytes in H. apply H. apply Forall_rev, le_bytes_range.
Qed.

Lemma mem_bytes_ld n h m o : mem_bytes h n (ld_u n h m o) = bytes_at m o n.
Proof.
  pose proof (le_bytes_value _ (bytes_at_range m o n)) as H1.
  pose proof (le_bytes_value _ (Forall_rev (bytes_at_range m o n))) as H2.
  rewrite length_rev in H2. rewrite length_bytes_at in *.
  unfold mem_bytes, ld_u, value_of. destruct h; [done|]. by rewrite H2, rev_involutive.
Qed.

Lemma mem_bytes_reverse n h z : mem_bytes h n (byte_reverse n z) = rev (mem_bytes h n z).
Proof. unfold mem_bytes. destruct h; by rewrite le_bytes_reverse. Qed.

Lemma st_u_reverse n h m o :
  (o + n <= length m)%nat -> st_u n h (byte_reverse n (ld_u n h m o)) m o = rev_at m o n.
Proof.
  intros H. unfold st_u, write, rev_at. rewrite mem_bytes_reverse, mem_bytes_ld, bytes_at_take by done.
  rewrite length_fmap, length_rev, length_fmap, length_take, length_drop.
  rewrite Nat.min_l by lia. by rewrite <- map_rev, byte_of_bytes.
Qed.

(** ** What is stored is read *)

Lemma length_mem_bytes h n z : length (mem_bytes h n z) = n.
Proof. unfold mem_bytes. destruct h; rewrite ?length_rev; apply length_le_bytes. Qed.

Lemma mem_bytes_range h n z : Forall (fun b => 0 <= b < 256) (mem_bytes h n z).
Proof. unfold mem_bytes. destruct h; [|apply Forall_rev]; apply le_bytes_range. Qed.

Lemma value_of_mem_bytes h n v : value_of h (mem_bytes h n v) = v mod 2 ^ (8 * Z.of_nat n).
Proof.
  unfold value_of, mem_bytes. destruct h; rewrite ?rev_involutive; apply le_value_bytes_mod.
Qed.

Lemma write_outside m o bs i :
  (o + length bs <= length m)%nat -> (i < o \/ o + length bs <= i)%nat -> write m o bs !! i = m !! i.
Proof.
  intros H Hi. unfold write. destruct (decide (i < o)%nat).
  - rewrite lookup_app_l by (rewrite length_take; lia). by rewrite lookup_take_lt.
  - rewrite lookup_app_r by (rewrite length_take; lia).
    rewrite lookup_app_r by (rewrite length_take; lia).
    rewrite lookup_drop. f_equal. rewrite length_take. lia.
Qed.

Lemma length_st_u n h v m o : (o + n <= length m)%nat -> length (st_u n h v m o) = length m.
Proof.
  intros H. unfold st_u, write. rewrite !length_app, length_fmap, length_mem_bytes.
  rewrite length_take, length_drop. lia.
Qed.

Lemma ld_st_u n h v m o :
  (o + n <= length m)%nat -> ld_u n h (st_u n h v m o) o = v mod 2 ^ (8 * Z.of_nat n).
Proof.
  intros H. assert (Hb : bytes_at (st_u n h v m o) o n = mem_bytes h n v).
  { rewrite bytes_at_take by by rewrite length_st_u. unfold st_u, write.
    replace o with (length (take o m)) at 1 by (rewrite length_take; lia).
    rewrite drop_app_length. rewrite take_app_le, take_ge
      by (rewrite length_fmap, length_mem_bytes; lia).
    rewrite <- list_fmap_compose. rewrite <- (list_fmap_id (mem_bytes h n v)) at 2.
    apply list_fmap_ext. intros i x Hx. apply byte_Z_of.
    by apply (proj1 (Forall_lookup _ _) (mem_bytes_range h n v) i). }
  unfold ld_u. rewrite Hb. apply value_of_mem_bytes.
Qed.

Lemma st_u_mod n h z1 z2 m o :
  z1 mod 2 ^ (8 * Z.of_nat n) = z2 mod 2 ^ (8 * Z.of_nat n) ->
  st_u n h z1 m o = st_u n h z2 m o.
Proof.
  intros H. unfold st_u, mem_bytes. rewrite <- (le_bytes_mod n z1), H, le_bytes_mod. done.
Qed.

(** ** Assignments as reversals *)

(** A span of bytes: its offset and its length. *)
Abbreviation span := (nat * nat)%type (only parsing).

(** The bytes an assignment reverses; [None] when it does something else. *)
Definition assign_span (a : assign) : option span :=
  match a with
  | SHORT o => Some (o, 2)%nat
  | INT o => Some (o, 4)%nat
  | LONG_LONG o | DOUBLE o => Some (o, 8)%nat
  | EXTENDED o => Some (o, 12)%nat
  | INT_FROM _ _ | SHORT_BY_INT _ => None
  end.

Definition reverse_spans (l : list span) (m : mem) : mem :=
  fold_left (fun m s => rev_at m (fst s) (snd s)) l m.
Arguments reverse_spans : simpl never.

Definition fits (size : nat) (s : span) : bool := (fst s + snd s <=? size)%nat.

Definition shift (o : nat) (s : span) : span := (o + fst s, snd s)%nat.

Lemma write_slice p c q bs :
  length bs = length c -> write (p ++ c ++ q) (length p) bs = p ++ bs ++ q.
Proof.
  intros H. unfold write. rewrite take_app_length, H, drop_app_add.
  by rewrite drop_app_length.
Qed.

(** Storing at [c] the value found at [d], its bytes reversed. *)
Lemma st_u_slice n h p c q p' d q' :
  length c = n -> length d = n ->
  st_u n h (byte_reverse n (ld_u n h (p' ++ d ++ q') (length p'))) (p ++ c ++ q) (length p) =
  p ++ rev d ++ q.
Proof.
  intros Hc Hd. unfold st_u.
  rewrite mem_bytes_reverse, mem_bytes_ld, bytes_at_take by (rewrite !length_app; lia).
  rewrite drop_app_length, take_app_le, take_ge by lia.
  rewrite <- map_rev. change (map byte_Z (rev d)) with (byte_Z <$> rev d).
  rewrite byte_of_bytes. apply write_slice. rewrite length_rev. congruence.
Qed.

Lemma split_twelve (m : mem) o :
  (o + 12 <= length m)%nat ->
  exists p x y z q, m = p ++ x ++ y ++ z ++ q /\ length p = o /\ length x = 4%nat /\
    length y = 4%nat /\ length z = 4%nat.
Proof.
  intros H. exists (take o m), (take 4 (drop o m)), (take 4 (drop 4 (drop o m))),
    (take 4 (drop 4 (drop 4 (drop o m)))), (drop 4 (drop 4 (drop 4 (drop o m)))).
  rewrite !length_take, !length_drop. split; [|lia]. by rewrite !take_drop.
Qed.

Lemma rev_at_middle p c q : rev_at (p ++ c ++ q) (length p) (length c) = p ++ rev c ++ q.
Proof.
  unfold rev_at. rewrite take_app_length, drop_app_length, take_app_length, drop_app_add.
  by rewrite drop_app_length.
Qed.

Lemma extended_rev h m o :
  (o + 12 <= length m)%nat -> swap_extended h m o = rev_at m o 12.
Proof.
  intros H. destruct (split_twelve m o H) as (p & x & y & z & q & -> & <- & Hx & Hy & Hz).
  pose proof (st_u_slice 4 h (p ++ x) y (z ++ q) (p ++ x) y (z ++ q) Hy Hy) as E1.
  pose proof (st_u_slice 4 h p x (rev y ++ z ++ q) (p ++ x ++ rev y) z q Hx Hz) as E2.
  pose proof (st_u_slice 4 h (p ++ rev z ++ rev y) z q p x (y ++ z ++ q) Hz Hx) as E3.
  pose proof (rev_at_middle p (x ++ y ++ z) q) as E4.
  rewrite !length_app, ?length_rev in *. rewrite <- !app_assoc in *. rewrite Hx, Hy, Hz in *.
  unfold swap_extended. rewrite !SWAP_INT_reverse. rewrite E1.
  change (4 + 4)%nat with 8%nat in E2, E3. rewrite E2, E3.
  change (4 + (4 + 4))%nat with 12%nat in E4. rewrite E4.
  rewrite !rev_app_distr, <- !app_assoc. done.
Qed.

Lemma do_assign_rev h base a o n m :
  assign_span a = Some (o, n) ->
  do_assign h base a m = if in_bounds m (base + o) n then Some (rev_at m (base + o) n) else None.
Proof.
  destruct a as [k|k|k|k|k src|k|k]; intros [= <- <-]; simpl;
    destruct (in_bounds m (base + k) _) eqn:Hb; try done; apply Nat.leb_le in Hb; f_equal.
  - rewrite SWAP_SHORT_reverse. by apply st_u_reverse.
  - rewrite SWAP_INT_reverse. by apply st_u_reverse.
  - rewrite SWAP_LONG_LONG_reverse, <- (st_u_reverse 8 h) by done. apply st_u_mod.
    change (8 * Z.of_nat 8) with 64. fold (uw 64 (i64 (byte_reverse 8 (ld_u64 h m (base + k))))).
    by rewrite uw_sw.
  - unfold swap_double, write, rev_at, SWAP_DOUBLE.
    by rewrite length_rev, length_take, length_drop, Nat.min_l by lia.
  - by apply extended_rev.
Qed.

(** ** Spans of an image *)

Definition disj (s t : span) : bool :=
  ((fst s + snd s <=? fst t) || (fst t + snd t <=? fst s))%nat.

Fixpoint separate (l : list span) : bool :=
  match l with
  | [] => true
  | s :: l => forallb (disj s) l && separate l
  end.

Lemma disj_spec s t :
  disj s t = true <-> (fst s + snd s <= fst t \/ fst t + snd t <= fst s)%nat.
Proof. unfold disj. rewrite orb_true_iff, !Nat.leb_le. done. Qed.

Lemma fits_spec size s : fits size s = true <-> (fst s + snd s <= size)%nat.
Proof. apply Nat.leb_le. Qed.

Lemma reverse_spans_length l m :
  forallb (fits (length m)) l = true -> length (reverse_spans l m) = length m.
Proof.
  unfold reverse_spans. revert m. induction l as [|s l IH]; intros m; simpl; [done|].
  rewrite andb_true_iff, fits_spec. intros [Hs Hl].
  pose proof (rev_at_length m _ _ Hs) as Hlen. rewrite IH; [done|]. by rewrite Hlen.
Qed.

Lemma reverse_spans_cons s l m :
  reverse_spans (s :: l) m = reverse_spans l (rev_at m (fst s) (snd s)).
Proof. done. Qed.

Lemma reverse_spans_app l1 l2 m :
  reverse_spans (l1 ++ l2) m = reverse_spans l2 (reverse_spans l1 m).
Proof. apply fold_left_app. Qed.

(** Bytes outside of the spans are not changed. *)
Lemma rev_at_outside m o n i :
  (o + n <= length m)%nat -> (i < o \/ o + n <= i)%nat -> rev_at m o n !! i = m !! i.
Proof.
  intros H Hi. rewrite rev_at_lookup by done.
  destruct (Nat.leb_spec o i), (Nat.ltb_spec i (o + n)); simpl; try done; lia.
Qed.

Lemma reverse_spans_outside l m i :
  forallb (fits (length m)) l = true -> forallb (disj (i, 1)%nat) l = true ->
  reverse_spans l m !! i = m !! i.
Proof.
  revert m. induction l as [|s l IH]; intros m; simpl; [done|].
  rewrite !andb_true_iff, fits_spec, disj_spec. intros [Hs Hl] [Hd Hds]. simpl in Hd.
  rewrite reverse_spans_cons, IH, rev_at_outside; try done; [lia|].
  by rewrite rev_at_length.
Qed.

Lemma ld_u_ext n h m1 m2 o :
  (forall i, (o <= i < o + n)%nat -> m1 !! i = m2 !! i) -> ld_u n h m1 o = ld_u n h m2 o.
Proof.
  intros H. unfold ld_u. f_equal. unfold bytes_at. apply list_fmap_ext.
  intros k i Hk. apply lookup_seq in Hk as [-> Hk]. unfold byte_at.
  rewrite !nth_lookup, H by lia. done.
Qed.

Lemma disj_sub o n i k t :
  disj (o, n) t = true -> (o <= i)%nat -> (i + k <= o + n)%nat -> disj (i, k) t = true.
Proof. rewrite !disj_spec. simpl. lia. Qed.

Lemma ld_st_u_outside n k h h' v m o p :
  (o + n <= length m)%nat -> (p + k <= o \/ o + n <= p)%nat ->
  ld_u k h (st_u n h' v m o) p = ld_u k h m p.
Proof.
  intros H Hp. apply ld_u_ext. intros i Hi.
  apply write_outside; rewrite length_fmap, length_mem_bytes; lia.
Qed.

(** Values outside of the spans are not changed. *)
Lemma ld_u_outside n h l m o :
  forallb (fits (length m)) l = true -> forallb (disj (o, n)) l = true ->
  ld_u n h (reverse_spans l m) o = ld_u n h m o.
Proof.
  intros Hf Hd. apply ld_u_ext. intros i Hi. apply reverse_spans_outside; [done|].
  rewrite forallb_forall in *. intros t Ht. eapply disj_sub; [by apply Hd|lia|lia].
Qed.

Lemma ld_u_rev_at n h m o :
  (o + n <= length m)%nat -> ld_u n (other h) (rev_at m o n) o = ld_u n h m o.
Proof.
  intros H. unfold ld_u. rewrite !bytes_at_take by (rewrite ?rev_at_length; done).
  rewrite <- (take_drop o m) at 1.
  assert (exists p c q, m = p ++ c ++ q /\ length p = o /\ length c = n) as (p & c & q & -> & <- & <-).
  { exists (take o m), (take n (drop o m)), (drop n (drop o m)).
    rewrite !length_take, !length_drop. split; [|lia]. by rewrite !take_drop. }
  rewrite take_drop, rev_at_middle, !drop_app_length, take_app_length.
  rewrite take_app_le, take_ge by (rewrite length_rev; lia).
  rewrite <- value_of_rev. rewrite <- map_rev, rev_involutive. done.
Qed.

(** A value in one of the spans is read back by the other host. *)
Lemma ld_u_swapped n h l m o :
  forallb (fits (length m)) l = true -> separate l = true -> In (o, n) l ->
  ld_u n (other h) (reverse_spans l m) o = ld_u n h m o.
Proof.
  revert m. induction l as [|s l IH]; intros m; simpl; [done|].
  rewrite !andb_true_iff, fits_spec. intros [Hs Hl] [Hd Hsep] Hin. rewrite reverse_spans_cons.
  pose proof (rev_at_length m _ _ Hs) as Hlen. rewrite <- Hlen in Hl.
  destruct Hin as [->|Hin]; simpl in *.
  - rewrite ld_u_outside by done. by apply ld_u_rev_at.
  - rewrite IH by done. rewrite forallb_forall in Hd. specialize (Hd _ Hin).
    rewrite disj_spec in Hd. apply ld_u_ext. intros i Hi. apply rev_at_outside; simpl in *; lia.
Qed.

(** Each comparison of the goal with an offset, with what it decides. *)
Ltac decide_range x :=
  match x with
  | context [if _ then _ else _] => fail 1
  | _ => idtac
  end.
Ltac decide_ranges :=
  repeat (match goal with
  | |- context [(?a <=? ?b)%nat] => decide_range b; destruct (Nat.leb_spec a b)
  | |- context [(?a <? ?b)%nat] => decide_range a; destruct (Nat.ltb_spec a b)
  end; simpl); try lia.

Lemma rev_at_commute m s t :
  (fst s + snd s <= length m)%nat -> (fst t + snd t <= length m)%nat -> disj s t = true ->
  rev_at (rev_at m (fst s) (snd s)) (fst t) (snd t) =
  rev_at (rev_at m (fst t) (snd t)) (fst s) (snd s).
Proof.
  intros Hs Ht Hd. apply disj_spec in Hd. apply list_eq. intros i.
  rewrite !rev_at_lookup by (rewrite ?rev_at_length; done).
  f_equal. destruct s as [a b], t as [c d]; simpl in *. decide_ranges.
Qed.

Lemma rev_at_involutive m o n :
  (o + n <= length m)%nat -> rev_at (rev_at m o n) o n = m.
Proof.
  intros H. apply list_eq. intros i.
  rewrite !rev_at_lookup by (rewrite ?rev_at_length; done). f_equal. decide_ranges.
Qed.

Lemma reverse_spans_rev_at l m s :
  (fst s + snd s <= length m)%nat -> forallb (fits (length m)) l = true ->
  forallb (disj s) l = true ->
  reverse_spans l (rev_at m (fst s) (snd s)) = rev_at (reverse_spans l m) (fst s) (snd s).
Proof.
  revert m. induction l as [|t l IH]; intros m; simpl; [done|].
  rewrite !andb_true_iff, fits_spec. intros Hs [Ht Hl] [Hd Hds].
  rewrite !reverse_spans_cons, rev_at_commute by done.
  apply IH; rewrite ?rev_at_length; done.
Qed.

(** Reversing separate spans again restores the image. *)
Lemma reverse_spans_involutive l m :
  forallb (fits (length m)) l = true -> separate l = true ->
  reverse_spans l (reverse_spans l m) = m.
Proof.
  revert m. induction l as [|s l IH]; intros m; simpl; [done|].
  rewrite !andb_true_iff, fits_spec. intros [Hs Hl] [Hd Hsep].
  rewrite !reverse_spans_cons, (reverse_spans_rev_at l m), rev_at_involutive
    by (rewrite ?reverse_spans_length; done).
  by apply IH.
Qed.

(** ** Spans in a range *)

(** The spans lie between [a] and [b]. *)
Definition within (a b : nat) (l : list span) : bool :=
  forallb (fun s => (a <=? fst s) && (fst s + snd s <=? b))%nat l.

Lemma within_spec a b l :
  within a b l = true <-> forall s, In s l -> (a <= fst s /\ fst s + snd s <= b)%nat.
Proof.
  unfold within. rewrite forallb_forall.
  split; intros H s Hs; specialize (H s Hs); rewrite andb_true_iff, !Nat.leb_le in *; lia.
Qed.

Lemma within_weaken a b a' b' l :
  within a b l = true -> (a' <= a)%nat -> (b <= b')%nat -> within a' b' l = true.
Proof. rewrite !within_spec. intros H ?? s Hs. specialize (H s Hs). lia. Qed.

Lemma within_app a b l1 l2 :
  within a b (l1 ++ l2) = within a b l1 && within a b l2.
Proof. apply forallb_app. Qed.

Lemma within_fits a b l size :
  within a b l = true -> (b <= size)%nat -> forallb (fits size) l = true.
Proof.
  rewrite within_spec, forallb_forall. intros H Hb s Hs. apply fits_spec.
  specialize (H s Hs). lia.
Qed.

Lemma within_disj a b l s :
  within a b l = true -> (fst s + snd s <= a \/ b <= fst s)%nat -> forallb (disj s) l = true.
Proof.
  rewrite within_spec, forallb_forall. intros H Hs t Ht. apply disj_spec.
  specialize (H t Ht). lia.
Qed.

Lemma disj_within a b l s :
  within a b l = true -> (fst s + snd s <= a \/ b <= fst s)%nat ->
  forall t, In t l -> disj t s = true.
Proof. rewrite within_spec. intros H Hs t Ht. apply disj_spec. specialize (H t Ht). lia. Qed.

Lemma separate_app l1 l2 :
  separate l1 = true -> separate l2 = true ->
  (forall s, In s l1 -> forallb (disj s) l2 = true) -> separate (l1 ++ l2) = true.
Proof.
  intros H1 H2 Hd. induction l1 as [|s l1 IH]; simpl in *; [done|].
  rewrite andb_true_iff in *. destruct H1 as [Hs H1].
  rewrite forallb_app, Hs, Hd by auto. split; [done|]. apply IH; auto.
Qed.

(** Two groups of spans on the sides of an offset, in any order. *)
Lemma separate_sides a b c d l1 l2 :
  separate l1 = true -> separate l2 = true -> within a b l1 = true -> within c d l2 = true ->
  (b <= c \/ d <= a)%nat -> separate (l1 ++ l2) = true.
Proof.
  intros H1 H2 Hw1 Hw2 Hside. apply separate_app; [done..|]. intros s Hs.
  rewrite within_spec in Hw1. specialize (Hw1 s Hs).
  apply (within_disj c d); [done|]. lia.
Qed.

Lemma within_shift base size l :
  forallb (fits size) l = true -> within base (base + size) (shift base <$> l) = true.
Proof.
  rewrite within_spec, forallb_forall. intros H s Hs.
  apply in_map_iff in Hs as (t & <- & Ht). specialize (H t Ht). rewrite fits_spec in H.
  unfold shift. simpl. lia.
Qed.

Lemma separate_shift base l : separate (shift base <$> l) = separate l.
Proof.
  induction l as [|s l IH]; simpl; [done|]. change (list_fmap _ _ ?f ?l) with (f <$> l).
  rewrite IH. f_equal. clear IH. induction l as [|t l IH]; simpl; [done|]. rewrite <- IH. f_equal.
  apply eq_true_iff_eq. rewrite !disj_spec. unfold shift. simpl. lia.
Qed.

(** ** Lists of assignments *)

Definition assigns_spans (l : list assign) : option (list span) := mapM assign_span l.

Lemma do_assigns_spans h base l spans size m :
  assigns_spans l = Some spans -> forallb (fits size) spans = true ->
  (base + size <= length m)%nat ->
  do_assigns h base l m = Some (reverse_spans (shift base <$> spans) m).
Proof.
  revert spans m. induction l as [|a l IH]; intros spans m.
  { by intros [= <-]. }
  unfold assigns_spans. simpl.
  intros ([o n] & Hs & (rest & Hrest & [= <-])%bind_Some)%bind_Some.
  simpl. rewrite andb_true_iff, fits_spec. simpl. intros [Hf Hfits] Hlen.
  rewrite (do_assign_rev h base a o n) by done. unfold in_bounds.
  rewrite (proj2 (Nat.leb_le _ _)) by lia. simpl.
  rewrite (IH rest); [done|done|done|]. rewrite rev_at_length; lia.
Qed.

(** The spans of [n] structures of [size] bytes from [base] on. *)
Fixpoint array_spans (base size n : nat) (spans : list span) : list span :=
  match n with
  | O => []
  | S n => (shift base <$> spans) ++ array_spans (base + size) size n spans
  end.

Lemma array_spans_within base size n spans :
  forallb (fits size) spans = true ->
  within base (base + n * size) (array_spans base size n spans) = true.
Proof.
  intros Hf. revert base. induction n as [|n IH]; intros base; simpl; [done|].
  rewrite within_app, andb_true_iff. split.
  - eapply within_weaken; [by apply within_shift|lia|lia].
  - eapply within_weaken; [apply IH|lia|lia].
Qed.

Lemma array_spans_separate base size n spans :
  forallb (fits size) spans = true -> separate spans = true ->
  separate (array_spans base size n spans) = true.
Proof.
  intros Hf Hs. revert base. induction n as [|n IH]; intros base; simpl; [done|].
  eapply (separate_sides base (base + size) (base + size)); [by rewrite separate_shift|done
    |by apply within_shift|by apply array_spans_within|lia].
Qed.

Lemma do_array_spans h l spans size n base m :
  assigns_spans l = Some spans -> forallb (fits size) spans = true ->
  (base + n * size <= length m)%nat ->
  do_array h base size n l m = Some (reverse_spans (array_spans base size n spans) m).
Proof.
  intros Hl Hf. revert base m. induction n as [|n IH]; intros base m Hlen; simpl in *; [done|].
  rewrite (do_assigns_spans h base l spans size) by (done || lia). simpl.
  rewrite reverse_spans_app. apply IH. rewrite reverse_spans_length; [lia|].
  eapply within_fits; [by apply within_shift|lia].
Qed.
