(* ===== verification/SwapHeaders.v ===== *)
(** * libstuff/swap_headers.c: swap_object_headers

    Swaps the header and the load commands of an object file in memory into
    the other byte sex.  A first pass checks that the load commands can be
    parsed, a second one swaps them.

    The header and the load commands are two memory images; an access outside
    of the image is [Out_of_bounds].  Offsets stand for pointers to the load
    commands, and sizes are computed with the 64 bits of [size_t].  The
    routines for the thread states with bit-fields are an argument. *)

From Stdlib Require Import ZArith Lia Bool.
From Stdlib Require Import Init.Byte.
From stdpp Require Import base option numbers list.
From S2P Require Import Prelude CInt CpuTypes LoaderH ByteSex HeaderSwap InPlace Assigns.

(** The messages of the error returns, without their texts. *)
Inductive reason :=
| Not_multiple | Past_the_end | Zero_cmdsize | Wrong_cmdsize | Small_cmdsize | Bad_offset
| Bad_count | Unknown_flavor | Unknown_cputype | Unknown_command | Next_past_the_end
| Inconsistent_sizeofcmds.

Inductive checked (A : Type) :=
| Fine (a : A)
| Refused (why : reason)
| Out_of_bounds
| Stuck.
Arguments Fine {A} a.
Arguments Refused {A} why.
Arguments Out_of_bounds {A}.
Arguments Stuck {A}.

#[export] Instance checked_ret : MRet checked := fun A a => Fine a.
#[export] Instance checked_bind : MBind checked := fun A B f c =>
  match c with
  | Fine a => f a
  | Refused why => Refused why
  | Out_of_bounds => Out_of_bounds
  | Stuck => Stuck
  end.

Definition access {A} (o : option A) : checked A :=
  match o with Some a => Fine a | None => Out_of_bounds end.

(** [if(!b){ error(...); return(FALSE); }] *)
Definition require (b : bool) (why : reason) : checked unit := if b then Fine tt else Refused why.

Definition read (h : host) (m : mem) (o : nat) : checked Z := access (load32 h m o).

(** ** The thread states *)

Inductive bitfield_state :=
| m88k_thread_state_xrf | m88110_thread_state_impl | i386_float_state
| sparc_thread_state_regs | sparc_thread_state_fpu.

Inductive state_swap :=
| Assigns (l : list assign) (size : nat)
| Bitfields (s : bitfield_state) (size : nat).

Definition state_size (s : state_swap) : nat :=
  match s with Assigns _ size => size | Bitfields _ size => size end.

(** A case of the first pass: the flavor, the count and the size skipped. *)
Record state_case := mk_state_case { sc_flavor : Z; sc_count : Z; sc_size : nat }.

Definition count_of (size : nat) : Z := Z.of_nat size / 4.

(** The flavor, with the count of its own structure. *)
Definition own_count (flavor : Z) (size : nat) : state_case :=
  mk_state_case flavor (count_of size) size.

Definition is_ppc (cputype : Z) : bool :=
  (cputype =? CPU_TYPE_POWERPC) || (cputype =? CPU_TYPE_VEO) || (cputype =? CPU_TYPE_POWERPC64).

Definition is_i386 (cputype : Z) : bool :=
  (cputype =? CPU_TYPE_I386) || (cputype =? CPU_TYPE_X86_64).

(** [case -1:] of [switch((int)flavor)] *)
Definition minus_one : Z := 0xffffffff.

(** The cases of the first pass for each family of cputypes. *)
Definition check_cases_m68k : list state_case :=
  [own_count 1 sizeof_m68k_thread_state_regs;
   own_count 2 sizeof_m68k_thread_state_68882;
   own_count 3 sizeof_m68k_thread_state_user_reg].

Definition check_cases_ppc : list state_case :=
  [own_count 1 sizeof_ppc_thread_state_t;
   own_count 2 sizeof_ppc_float_state_t;
   own_count 3 sizeof_ppc_exception_state_t;
   own_count 5 sizeof_ppc_thread_state64_t].

Definition check_cases_m88k : list state_case :=
  [own_count 1 sizeof_m88k_thread_state_grf_t;
   own_count 2 sizeof_m88k_thread_state_xrf_t;
   own_count 3 sizeof_m88k_thread_state_user_t;
   own_count 4 sizeof_m88110_thread_state_impl_t].

Definition check_cases_i860 : list state_case :=
  [own_count 4 sizeof_i860_thread_state_regs].

Definition check_cases_i386 : list state_case :=
  [own_count 1 sizeof_i386_thread_state;
   own_count minus_one sizeof_i386_thread_state;
   own_count 2 sizeof_i386_float_state;
   own_count 3 sizeof_i386_exception_state;
   own_count 4 sizeof_x86_thread_state64].

Definition check_cases_hppa : list state_case :=
  [own_count 1 sizeof_hp_pa_integer_thread_state;
   own_count 2 sizeof_hp_pa_frame_thread_state;
   own_count 3 sizeof_hp_pa_fp_thread_state].

Definition check_cases_sparc : list state_case :=
  [own_count 1 sizeof_sparc_thread_state_regs;
   own_count 2 sizeof_sparc_thread_state_fpu].

Definition check_cases_arm : list state_case :=
  [own_count 1 sizeof_arm_thread_state_t].

Definition check_cases_arm64 : list state_case :=
  [mk_state_case 1 (count_of sizeof_arm_thread_state_t)
   sizeof_arm_thread_state64_t].

(** The cases for a cputype, and whether there is a default that refuses other
    flavors; [None] when there is no branch for the cputype. *)
Definition check_cases (cputype : Z) : option (list state_case * bool) :=
  if cputype =? CPU_TYPE_MC680x0 then Some (check_cases_m68k, true)
  else if is_ppc cputype then Some (check_cases_ppc, true)
  else if cputype =? CPU_TYPE_MC88000 then Some (check_cases_m88k, true)
  else if cputype =? CPU_TYPE_I860 then Some (check_cases_i860, true)
  else if is_i386 cputype then Some (check_cases_i386, true)
  else if cputype =? CPU_TYPE_HPPA then Some (check_cases_hppa, true)
  else if cputype =? CPU_TYPE_SPARC then Some (check_cases_sparc, false)
  else if cputype =? CPU_TYPE_ARM then Some (check_cases_arm, true)
  else if cputype =? CPU_TYPE_ARM64 then Some (check_cases_arm64, true)
  else None.

(** The cases of the second pass; the one for [PPC_FLOAT_STATE] falls through
    to the next. *)
Definition swap_cases_m68k : list (Z * list state_swap) :=
  [(1, [Assigns m68k_thread_state_regs_assigns sizeof_m68k_thread_state_regs]);
   (2, [Assigns m68k_thread_state_68882_assigns sizeof_m68k_thread_state_68882]);
   (3, [Assigns m68k_thread_state_user_reg_assigns sizeof_m68k_thread_state_user_reg])].

Definition swap_cases_ppc : list (Z * list state_swap) :=
  let exception := Assigns ppc_exception_state_t_assigns sizeof_ppc_exception_state_t in
  [(1, [Assigns ppc_thread_state_t_assigns sizeof_ppc_thread_state_t]);
   (5, [Assigns ppc_thread_state64_t_assigns sizeof_ppc_thread_state64_t]);
   (2, [Assigns ppc_float_state_t_assigns sizeof_ppc_float_state_t; exception]);
   (3, [exception])].

Definition swap_cases_m88k : list (Z * list state_swap) :=
  [(1, [Assigns m88k_thread_state_grf_t_assigns sizeof_m88k_thread_state_grf_t]);
   (2, [Bitfields m88k_thread_state_xrf sizeof_m88k_thread_state_xrf_t]);
   (3, [Assigns m88k_thread_state_user_t_assigns sizeof_m88k_thread_state_user_t]);
   (4, [Bitfields m88110_thread_state_impl sizeof_m88110_thread_state_impl_t])].

Definition swap_cases_i860 : list (Z * list state_swap) :=
  [(4, [Assigns i860_thread_state_regs_assigns sizeof_i860_thread_state_regs])].

Definition swap_cases_i386 : list (Z * list state_swap) :=
  let cpu := Assigns i386_thread_state_assigns sizeof_i386_thread_state in
  [(1, [cpu]);
   (minus_one, [cpu]);
   (2, [Bitfields i386_float_state sizeof_i386_float_state]);
   (3, [Assigns i386_exception_state_assigns sizeof_i386_exception_state]);
   (4, [Assigns x86_thread_state64_assigns sizeof_x86_thread_state64])].

Definition swap_cases_hppa : list (Z * list state_swap) :=
  [(1, [Assigns hppa_integer_thread_state_assigns sizeof_hp_pa_integer_thread_state]);
   (2, [Assigns hppa_frame_thread_state_assigns sizeof_hp_pa_frame_thread_state]);
   (3, [Assigns hppa_fp_thread_state_assigns sizeof_hp_pa_fp_thread_state])].

Definition swap_cases_sparc : list (Z * list state_swap) :=
  [(1, [Bitfields sparc_thread_state_regs sizeof_sparc_thread_state_regs]);
   (2, [Bitfields sparc_thread_state_fpu sizeof_sparc_thread_state_fpu])].

Definition swap_cases_arm : list (Z * list state_swap) :=
  [(1, [Assigns arm_thread_state_t_assigns sizeof_arm_thread_state_t])].

Definition swap_cases_arm64 : list (Z * list state_swap) :=
  [(6, [Assigns arm_thread_state64_t_assigns sizeof_arm_thread_state64_t])].

Definition swap_cases (cputype : Z) : list (Z * list state_swap) :=
  if cputype =? CPU_TYPE_MC680x0 then swap_cases_m68k
  else if is_ppc cputype then swap_cases_ppc
  else if cputype =? CPU_TYPE_MC88000 then swap_cases_m88k
  else if cputype =? CPU_TYPE_I860 then swap_cases_i860
  else if is_i386 cputype then swap_cases_i386
  else if cputype =? CPU_TYPE_HPPA then swap_cases_hppa
  else if cputype =? CPU_TYPE_SPARC then swap_cases_sparc
  else if cputype =? CPU_TYPE_ARM then swap_cases_arm
  else if cputype =? CPU_TYPE_ARM64 then swap_cases_arm64
  else [].

(** ** The first pass *)

(** [while(state < p)] *)
Fixpoint check_states (fuel : nat) (h : host) (cases : list state_case) (strict : bool)
    (state p : nat) (m : mem) : checked unit :=
  if (p <=? state)%nat then Fine tt
  else match fuel with
  | O => Stuck
  | S fuel =>
    flavor ← read h m state;
    count ← read h m (state + 4);
    match List.find (fun c => sc_flavor c =? flavor) cases with
    | Some c =>
        _ ← require (count =? sc_count c) Bad_count;
        check_states fuel h cases strict (state + 8 + sc_size c) p m
    | None =>
        _ ← require (negb strict) Unknown_flavor;
        check_states fuel h cases strict (state + 8) p m
    end
  end.

Definition check_thread (h : host) (cputype : Z) (lc : nat) (cmdsize : Z) (m : mem) :
    checked unit :=
  match check_cases cputype with
  | None => Refused Unknown_cputype
  | Some (cases, strict) =>
      let p := (lc + Z.to_nat cmdsize)%nat in
      check_states (Z.to_nat cmdsize) h cases strict (lc + sizeof_thread_command) p m
  end.

(** [cmdsize != sizeof(...)] *)
Definition exact_size (cmdsize : Z) (size : nat) : checked unit :=
  require (cmdsize =? Z.of_nat size) Wrong_cmdsize.

(** [cmdsize < sizeof(...)] *)
Definition least_size (cmdsize : Z) (size : nat) : checked unit :=
  require (Z.of_nat size <=? cmdsize) Small_cmdsize.

(** The [lc_str] at offset [o] of the command. *)
Definition offset_inside (h : host) (lc : nat) (cmdsize : Z) (o : nat) (m : mem) :
    checked unit :=
  offset ← read h m (lc + o);
  require (offset <? cmdsize) Bad_offset.

Definition string_command (h : host) (lc : nat) (cmdsize : Z) (size : nat) (m : mem) :
    checked unit :=
  _ ← least_size cmdsize size;
  offset_inside h lc cmdsize 8 m.

(** A structure of [size] bytes before an array of structures of [each] bytes,
    whose number is at offset [o]. *)
Definition array_command (h : host) (lc : nat) (cmdsize : Z) (size each o : nat) (m : mem) :
    checked unit :=
  n ← read h m (lc + o);
  require (cmdsize =? Z.of_nat size + n * Z.of_nat each) Wrong_cmdsize.

Definition cmd_in (cmd : Z) (l : list Z) : bool := existsb (Z.eqb cmd) l.

Definition is_dylib (cmd : Z) : bool :=
  cmd_in cmd [LC_ID_DYLIB; LC_LOAD_DYLIB; LC_LOAD_WEAK_DYLIB; LC_REEXPORT_DYLIB;
    LC_LOAD_UPWARD_DYLIB; LC_LAZY_LOAD_DYLIB].

Definition is_dylinker (cmd : Z) : bool :=
  cmd_in cmd [LC_ID_DYLINKER; LC_LOAD_DYLINKER; LC_DYLD_ENVIRONMENT].

Definition is_version_min (cmd : Z) : bool :=
  cmd_in cmd [LC_VERSION_MIN_MACOSX; LC_VERSION_MIN_IPHONEOS; LC_VERSION_MIN_TVOS;
    LC_VERSION_MIN_WATCHOS].

(** The switch of the first pass on a command at [lc]. *)
Definition check_command (h : host) (cputype sizeofcmds : Z) (lc : nat) (cmd cmdsize : Z)
    (m : mem) : checked unit :=
  let inside := require (Z.of_nat lc + cmdsize <=? sizeofcmds) Past_the_end in
  if cmd =? LC_SEGMENT then
    array_command h lc cmdsize sizeof_segment_command sizeof_section 48 m
  else if cmd =? LC_SEGMENT_64 then
    array_command h lc cmdsize sizeof_segment_command_64 sizeof_section_64 64 m
  else if cmd =? LC_SYMTAB then exact_size cmdsize sizeof_symtab_command
  else if cmd =? LC_DYSYMTAB then exact_size cmdsize sizeof_dysymtab_command
  else if cmd =? LC_SYMSEG then exact_size cmdsize sizeof_symseg_command
  else if cmd_in cmd [LC_IDFVMLIB; LC_LOADFVMLIB] then
    string_command h lc cmdsize sizeof_fvmlib_command m
  else if is_dylib cmd then string_command h lc cmdsize sizeof_dylib_command m
  else if cmd =? LC_SUB_FRAMEWORK then
    string_command h lc cmdsize sizeof_sub_framework_command m
  else if cmd =? LC_SUB_UMBRELLA then
    string_command h lc cmdsize sizeof_sub_umbrella_command m
  else if cmd =? LC_SUB_LIBRARY then string_command h lc cmdsize sizeof_sub_library_command m
  else if cmd =? LC_SUB_CLIENT then string_command h lc cmdsize sizeof_sub_client_command m
  else if cmd =? LC_PREBOUND_DYLIB then
    _ ← string_command h lc cmdsize sizeof_prebound_dylib_command m;
    offset_inside h lc cmdsize 16 m
  else if is_dylinker cmd then string_command h lc cmdsize sizeof_dylinker_command m
  else if cmd_in cmd [LC_UNIXTHREAD; LC_THREAD] then check_thread h cputype lc cmdsize m
  else if cmd_in cmd [LC_MAIN; LC_SOURCE_VERSION; LC_NOTE; LC_IDENT] then inside
  else if cmd =? LC_ROUTINES then exact_size cmdsize sizeof_routines_command
  else if cmd =? LC_ROUTINES_64 then exact_size cmdsize sizeof_routines_command_64
  else if cmd =? LC_TWOLEVEL_HINTS then exact_size cmdsize sizeof_twolevel_hints_command
  else if cmd =? LC_PREBIND_CKSUM then exact_size cmdsize sizeof_prebind_cksum_command
  else if cmd =? LC_UUID then exact_size cmdsize sizeof_uuid_command
  else if cmd_in cmd [LC_CODE_SIGNATURE; LC_SEGMENT_SPLIT_INFO; LC_FUNCTION_STARTS;
    LC_DATA_IN_CODE; LC_ATOM_INFO; LC_DYLIB_CODE_SIGN_DRS; LC_LINKER_OPTIMIZATION_HINT] then
    exact_size cmdsize sizeof_linkedit_data_command
  else if is_version_min cmd then exact_size cmdsize sizeof_version_min_command
  else if cmd =? LC_BUILD_VERSION then
    array_command h lc cmdsize sizeof_build_version_command sizeof_build_tool_version 20 m
  else if cmd =? LC_RPATH then string_command h lc cmdsize sizeof_rpath_command m
  else if cmd =? LC_ENCRYPTION_INFO then exact_size cmdsize sizeof_encryption_info_command
  else if cmd =? LC_ENCRYPTION_INFO_64 then
    exact_size cmdsize sizeof_encryption_info_command_64
  else if cmd =? LC_LINKER_OPTION then least_size cmdsize sizeof_linker_option_command
  else if cmd_in cmd [LC_DYLD_INFO; LC_DYLD_INFO_ONLY] then
    exact_size cmdsize sizeof_dyld_info_command
  else Refused Unknown_command.

(** One round of the loop: the offset of the next command. *)
Definition check_round (h : host) (cputype sizeofcmds multiple : Z) (lc : nat) (m : mem) :
    checked nat :=
  cmd ← read h m lc;
  cmdsize ← read h m (lc + 4);
  _ ← require (cmdsize mod multiple =? 0) Not_multiple;
  _ ← require (Z.of_nat lc + cmdsize <=? sizeofcmds) Past_the_end;
  _ ← require (negb (cmdsize =? 0)) Zero_cmdsize;
  _ ← check_command h cputype sizeofcmds lc cmd cmdsize m;
  let lc := (lc + Z.to_nat cmdsize)%nat in
  _ ← require (Z.of_nat lc <=? sizeofcmds) Next_past_the_end;
  Fine lc.

Fixpoint check_loop (h : host) (cputype sizeofcmds multiple : Z) (n : nat) (lc : nat) (m : mem) :
    checked nat :=
  match n with
  | O => Fine lc
  | S n =>
    lc ← check_round h cputype sizeofcmds multiple lc m;
    check_loop h cputype sizeofcmds multiple n lc m
  end.

Definition check_commands (h : host) (cputype ncmds sizeofcmds multiple : Z) (m : mem) :
    checked unit :=
  lc ← check_loop h cputype sizeofcmds multiple (Z.to_nat ncmds) 0 m;
  require (sizeofcmds =? Z.of_nat lc) Inconsistent_sizeofcmds.

(** ** The second pass *)

Section swap.
Context (swap_bitfields : bitfield_state -> host -> list byte -> list byte).

Definition swap_state (h : host) (s : state_swap) (state : nat) (m : mem) : option mem :=
  match s with
  | Assigns l _ => do_assigns h state l m
  | Bitfields s size =>
      if in_bounds m state size
      then Some (write m state (swap_bitfields s h (take size (drop state m)))) else None
  end.

(** The routines of a case, each followed by [state += sizeof(...)]. *)
Fixpoint swap_case (h : host) (l : list state_swap) (state : nat) (m : mem) :
    option (nat * mem) :=
  match l with
  | [] => Some (state, m)
  | s :: l =>
    m ← swap_state h s state m;
    swap_case h l (state + state_size s) m
  end.

Definition swap_cases_of (cases : list (Z * list state_swap)) (flavor : Z) : list state_swap :=
  match List.find (fun c => fst c =? flavor) cases with Some c => snd c | None => [] end.

Fixpoint swap_states (fuel : nat) (h : host) (cases : list (Z * list state_swap))
    (state p : nat) (m : mem) : checked mem :=
  if (p <=? state)%nat then Fine m
  else match fuel with
  | O => Stuck
  | S fuel =>
    flavor ← read h m state;
    m ← access (do_assign h state (INT 0) m);
    m ← access (do_assign h (state + 4) (INT 0) m);
    r ← access (swap_case h (swap_cases_of cases flavor) (state + 8) m);
    swap_states fuel h cases (fst r) p (snd r)
  end.

Definition swap_thread (h : host) (cputype : Z) (lc : nat) (m : mem) : checked mem :=
  cmdsize ← read h m (lc + 4);
  let p := (lc + Z.to_nat cmdsize)%nat in
  m ← access (do_assigns h lc thread_command_assigns m);
  swap_states (Z.to_nat cmdsize) h (swap_cases cputype) (lc + sizeof_thread_command) p m.

(** An array of structures behind a command, and the command. *)
Definition swap_array_command (h : host) (lc : nat) (l : list assign) (size : nat)
    (each : list assign) (each_size o : nat) (m : mem) : checked mem :=
  n ← read h m (lc + o);
  m ← access (do_array h (lc + size) each_size (Z.to_nat n) each m);
  access (do_assigns h lc l m).

(** The routine for the commands that are a structure. *)
Definition command_assigns (cmd : Z) : list assign :=
  if cmd =? LC_SYMTAB then symtab_command_assigns
  else if cmd =? LC_DYSYMTAB then dysymtab_command_assigns
  else if cmd =? LC_SYMSEG then symseg_command_assigns
  else if cmd_in cmd [LC_IDFVMLIB; LC_LOADFVMLIB] then fvmlib_command_assigns
  else if is_dylib cmd then dylib_command_assigns
  else if cmd =? LC_SUB_FRAMEWORK then sub_framework_command_assigns
  else if cmd =? LC_SUB_UMBRELLA then sub_umbrella_command_assigns
  else if cmd =? LC_SUB_LIBRARY then sub_library_command_assigns
  else if cmd =? LC_SUB_CLIENT then sub_client_command_assigns
  else if cmd =? LC_PREBOUND_DYLIB then prebound_dylib_command_assigns
  else if is_dylinker cmd then dylinker_command_assigns
  else if cmd =? LC_MAIN then entry_point_command_assigns
  else if cmd =? LC_SOURCE_VERSION then source_version_command_assigns
  else if cmd =? LC_NOTE then note_command_assigns
  else if cmd =? LC_IDENT then ident_command_assigns
  else if cmd =? LC_ROUTINES then routines_command_assigns
  else if cmd =? LC_ROUTINES_64 then routines_command_64_assigns
  else if cmd =? LC_TWOLEVEL_HINTS then twolevel_hints_command_assigns
  else if cmd =? LC_PREBIND_CKSUM then prebind_cksum_command_assigns
  else if cmd =? LC_UUID then uuid_command_assigns
  else if cmd_in cmd [LC_CODE_SIGNATURE; LC_SEGMENT_SPLIT_INFO; LC_FUNCTION_STARTS;
    LC_DATA_IN_CODE; LC_ATOM_INFO; LC_DYLIB_CODE_SIGN_DRS; LC_LINKER_OPTIMIZATION_HINT;
    LC_DYLD_EXPORTS_TRIE; LC_DYLD_CHAINED_FIXUPS] then linkedit_data_command_assigns
  else if cmd =? LC_RPATH then rpath_command_assigns
  else if cmd =? LC_ENCRYPTION_INFO then encryption_info_command_assigns
  else if cmd =? LC_ENCRYPTION_INFO_64 then encryption_info_command_64_assigns
  else if cmd =? LC_LINKER_OPTION then linker_option_command_assigns
  else if cmd_in cmd [LC_DYLD_INFO; LC_DYLD_INFO_ONLY] then dyld_info_command_assigns
  else if is_version_min cmd then version_min_command_assigns
  else [].

(** The switch of the second pass. *)
Definition swap_command (h : host) (cputype : Z) (lc : nat) (cmd : Z) (m : mem) : checked mem :=
  if cmd =? LC_SEGMENT then
    swap_array_command h lc segment_command_assigns sizeof_segment_command
      section_assigns sizeof_section 48 m
  else if cmd =? LC_SEGMENT_64 then
    swap_array_command h lc segment_command_64_assigns sizeof_segment_command_64
      section_64_assigns sizeof_section_64 64 m
  else if cmd_in cmd [LC_UNIXTHREAD; LC_THREAD] then swap_thread h cputype lc m
  else if cmd =? LC_BUILD_VERSION then
    swap_array_command h lc build_version_command_assigns sizeof_build_version_command
      build_tool_version_assigns sizeof_build_tool_version 20 m
  else access (do_assigns h lc (command_assigns cmd) m).

Fixpoint swap_loop (h : host) (cputype : Z) (n : nat) (lc : nat) (m : mem) : checked mem :=
  match n with
  | O => Fine m
  | S n =>
    cmd ← read h m lc;
    cmdsize ← read h m (lc + 4);
    m ← swap_command h cputype lc cmd m;
    swap_loop h cputype n (lc + Z.to_nat cmdsize) m
  end.

(** ** swap_object_headers *)

(** What both kinds of header have at the same offsets. *)
Record header_fields := mk_header_fields {
  hf_64 : bool;
  hf_cputype : Z;
  hf_ncmds : Z;
  hf_sizeofcmds : Z
}.

Definition header_size (is_64 : bool) : nat :=
  if is_64 then sizeof_mach_header_64 else sizeof_mach_header.

Definition read_header (h : host) (hdr : mem) : checked header_fields :=
  magic ← read h hdr 0;
  let is_64 := negb (magic =? MH_MAGIC) in
  if in_bounds hdr 0 (header_size is_64) then
    if is_64 then
      let mh64 := ld_mach_header_64 h hdr 0 in
      Fine (mk_header_fields true (mach_header_64_cputype mh64) (mach_header_64_ncmds mh64)
        (mach_header_64_sizeofcmds mh64))
    else
      let mh := ld_mach_header h hdr 0 in
      Fine (mk_header_fields false (mach_header_cputype mh) (mach_header_ncmds mh)
        (mach_header_sizeofcmds mh))
  else Out_of_bounds.

Definition cmd_multiple (is_64 : bool) : Z := if is_64 then 8 else 4.

(** [Fine] is [TRUE], with the header and the load commands swapped; [Refused]
    is [FALSE], where nothing has been stored. *)
Definition swap_object_headers (h : host) (hdr load_commands : mem) : checked (mem * mem) :=
  f ← read_header h hdr;
  _ ← check_commands h (hf_cputype f) (hf_ncmds f) (hf_sizeofcmds f)
        (cmd_multiple (hf_64 f)) load_commands;
  load_commands ← swap_loop h (hf_cputype f) (Z.to_nat (hf_ncmds f)) 0 load_commands;
  hdr ← access (do_assigns h 0
        (if hf_64 f then mach_header_64_assigns else mach_header_assigns) hdr);
  Fine (hdr, load_commands).

End swap.
