(* ===== verification/SwapHeadersSpec.v ===== *)
(** * What swap_object_headers does to a file

    The second pass is a plan of spans of bytes it reverses, computed from the
    load commands before they are changed.  Where the plan exists, the file is
    swapped as planned, the other host finds the same plan, and swapping it
    there restores it. *)

From Stdlib Require Import ZArith Lia Bool.
From Stdlib Require Import Init.Byte.
From stdpp Require Import base option numbers list.
From S2P Require Import Prelude CInt CpuTypes LoaderH ByteSex HeaderSwap InPlace InPlaceSpec.
From S2P Require Import Assigns SwapHeaders.

(** ** The checked monad *)

Lemma bind_Fine {A B} (c : checked A) (f : A -> checked B) b :
  c ≫= f = Fine b -> exists a, c = Fine a /\ f a = Fine b.
Proof. destruct c; try done. by exists a. Qed.

Lemma require_Fine b why u : require b why = Fine u -> b = true.
Proof. by destruct b. Qed.

Lemma read_Fine h m o v : read h m o = Fine v -> (o + 4 <= length m)%nat /\ v = ld_u32 h m o.
Proof.
  unfold read, load32. destruct (in_bounds m o 4) eqn:Hb; [|done].
  intros [= <-]. by apply Nat.leb_le in Hb.
Qed.

Lemma read_in h m o : (o + 4 <= length m)%nat -> read h m o = Fine (ld_u32 h m o).
Proof. intros H. unfold read, load32, in_bounds. by rewrite (proj2 (Nat.leb_le _ _)) by lia. Qed.

(** Takes apart a run that ends well. *)
Ltac run H :=
  repeat match type of H with
  | mbind _ _ = Fine _ =>
      let a := fresh "a" in let Ha := fresh "Ha" in
      apply bind_Fine in H as (a & Ha & H); simpl in H
  end.

(** ** Plans *)

(** The spans of a list of assignments that only reverse, and their end. *)
Definition spans_of (l : list assign) : list span := default [] (assigns_spans l).

Definition extent (l : list assign) : nat :=
  fold_right (fun s => Nat.max (fst s + snd s)) O (spans_of l).

(** The assignments are of separate fields, each with the macro of its width. *)
Definition plain (l : list assign) : bool :=
  match assigns_spans l with Some spans => separate spans | None => false end.

Lemma plain_Some l : plain l = true -> assigns_spans l = Some (spans_of l).
Proof. unfold plain, spans_of. by destruct (assigns_spans l). Qed.

Lemma plain_separate l : plain l = true -> separate (spans_of l) = true.
Proof. unfold plain, spans_of. by destruct (assigns_spans l). Qed.

Lemma fits_extent l size :
  (extent l <= size)%nat -> forallb (fits size) (spans_of l) = true.
Proof.
  unfold extent. induction (spans_of l) as [|s spans IH]; simpl; [done|].
  intros H. rewrite IH by lia. rewrite (proj2 (fits_spec _ _)) by lia. done.
Qed.

(** The spans of a structure at [base]. *)
Definition spans_at (base : nat) (l : list assign) : list span := shift base <$> spans_of l.

Lemma do_assigns_plain h base l m :
  plain l = true -> (base + extent l <= length m)%nat ->
  do_assigns h base l m = Some (reverse_spans (spans_at base l) m).
Proof.
  intros Hp Hl. eapply do_assigns_spans; [by apply plain_Some|by apply fits_extent|done].
Qed.

Lemma spans_at_within base l e :
  (base + extent l <= e)%nat -> within base e (spans_at base l) = true.
Proof.
  intros H. eapply within_weaken; [apply within_shift; by apply fits_extent|lia|done].
Qed.

Lemma spans_at_separate base l : plain l = true -> separate (spans_at base l) = true.
Proof. intros H. unfold spans_at. rewrite separate_shift. by apply plain_separate. Qed.

Lemma In_spans_at base l o n : In (o, n) (spans_of l) -> In (base + o, n)%nat (spans_at base l).
Proof. intros H. apply in_map_iff. by exists (o, n). Qed.

(** The size of the state of a flavor and its spans, where both passes agree
    on them. *)
Definition flavor_plan (cputype flavor : Z) : option (nat * list assign) :=
  match check_cases cputype with
  | None => None
  | Some (cases, _) =>
      match List.find (fun c => sc_flavor c =? flavor) cases,
            swap_cases_of (swap_cases cputype) flavor with
      | Some c, [Assigns l size] =>
          if plain l && (extent l <=? size)%nat && (size =? sc_size c)%nat
          then Some (size, l) else None
      | _, _ => None
      end
  end.

Fixpoint states_plan (fuel : nat) (h : host) (cputype : Z) (state p : nat) (m : mem) :
    option (list span) :=
  if (p <=? state)%nat then Some []
  else match fuel with
  | O => None
  | S fuel =>
    if (state + 8 <=? p)%nat then
      match flavor_plan cputype (ld_u32 h m state) with
      | Some (size, l) =>
          if (state + 8 + size <=? p)%nat then
            rest ← states_plan fuel h cputype (state + 8 + size) p m;
            Some ((state, 4) :: (state + 4, 4) :: spans_at (state + 8) l ++ rest)%nat
          else None
      | None => None
      end
    else None
  end.

(** The spans of an array of structures and of the structure before it. *)
Definition array_plan (h : host) (lc : nat) (l : list assign) (size : nat)
    (each : list assign) (each_size o : nat) (m : mem) : list span :=
  array_spans (lc + size) each_size (Z.to_nat (ld_u32 h m (lc + o))) (spans_of each) ++
  spans_at lc l.

Definition command_plan (h : host) (cputype : Z) (lc : nat) (cmd cmdsize : Z) (m : mem) :
    option (list span) :=
  if cmd =? LC_SEGMENT then
    Some (array_plan h lc segment_command_assigns sizeof_segment_command
      section_assigns sizeof_section 48 m)
  else if cmd =? LC_SEGMENT_64 then
    Some (array_plan h lc segment_command_64_assigns sizeof_segment_command_64
      section_64_assigns sizeof_section_64 64 m)
  else if cmd_in cmd [LC_UNIXTHREAD; LC_THREAD] then
    if 8 <=? cmdsize then
      states ← states_plan (Z.to_nat cmdsize) h cputype (lc + sizeof_thread_command)
        (lc + Z.to_nat cmdsize) m;
      Some (spans_at lc thread_command_assigns ++ states)
    else None
  else if cmd =? LC_BUILD_VERSION then
    Some (array_plan h lc build_version_command_assigns sizeof_build_version_command
      build_tool_version_assigns sizeof_build_tool_version 20 m)
  else if plain (command_assigns cmd) && (Z.of_nat (extent (command_assigns cmd)) <=? cmdsize)
  then Some (spans_at lc (command_assigns cmd))
  else None.

Fixpoint file_plan (h : host) (cputype : Z) (n : nat) (lc : nat) (m : mem) :
    option (list span) :=
  match n with
  | O => Some []
  | S n =>
    let cmdsize := ld_u32 h m (lc + 4) in
    spans ← command_plan h cputype lc (ld_u32 h m lc) cmdsize m;
    rest ← file_plan h cputype n (lc + Z.to_nat cmdsize) m;
    Some (spans ++ rest)
  end.

(** ** The plan of the thread states *)

(** Two hosts read the same values at the words of a plan. *)
Definition same_words (spans : list span) (h1 : host) (m1 : mem) (h2 : host) (m2 : mem) : Prop :=
  forall o, In (o, 4%nat) spans -> ld_u32 h2 m2 o = ld_u32 h1 m1 o.

Lemma same_words_app l1 l2 h1 m1 h2 m2 :
  same_words (l1 ++ l2) h1 m1 h2 m2 <->
  same_words l1 h1 m1 h2 m2 /\ same_words l2 h1 m1 h2 m2.
Proof.
  unfold same_words. split.
  - intros H. split; intros o Ho; apply H, in_app_iff; auto.
  - intros [H1 H2] o [Ho|Ho]%in_app_iff; auto.
Qed.

Lemma same_words_outside h m l spans a b :
  within a b l = true -> (b <= length m)%nat ->
  (forall s, In s spans -> fst s + snd s <= a \/ b <= fst s)%nat ->
  same_words spans h m h (reverse_spans l m).
Proof.
  intros Hw Hb Hs o Ho. specialize (Hs _ Ho). simpl in Hs.
  apply (ld_u_outside 4); [by eapply within_fits|]. by eapply within_disj.
Qed.

Lemma flavor_plan_case cputype flavor size l :
  flavor_plan cputype flavor = Some (size, l) ->
  plain l = true /\ (extent l <= size)%nat /\
  swap_cases_of (swap_cases cputype) flavor = [Assigns l size] /\
  exists cases strict c, check_cases cputype = Some (cases, strict) /\
    List.find (fun c => sc_flavor c =? flavor) cases = Some c /\ sc_size c = size.
Proof.
  unfold flavor_plan. destruct (check_cases cputype) as [[cases strict]|]; [|done].
  destruct (List.find _ cases) as [c|] eqn:Hc; [|done].
  destruct (swap_cases_of _ _) as [|[l' size'|] [|]]; try done.
  destruct (plain l') eqn:Hp, (Nat.leb_spec (extent l') size'), (Nat.eqb_spec size' (sc_size c));
    simpl; try done.
  intros [= <- <-]. repeat split; try done. by exists cases, strict, c.
Qed.

(** One round of [states_plan]. *)
Lemma states_plan_round fuel h cputype state p m spans :
  states_plan (S fuel) h cputype state p m = Some spans -> (state < p)%nat ->
  exists size l rest, flavor_plan cputype (ld_u32 h m state) = Some (size, l) /\
    (state + 8 + size <= p)%nat /\
    states_plan fuel h cputype (state + 8 + size) p m = Some rest /\
    spans = ((state, 4) :: (state + 4, 4) :: spans_at (state + 8) l ++ rest)%nat.
Proof.
  intros H Hlt. simpl in H. rewrite (proj2 (Nat.leb_gt _ _)) in H by done.
  destruct (Nat.leb_spec (state + 8) p); [|done].
  destruct (flavor_plan _ _) as [[size l]|]; [|done].
  destruct (Nat.leb_spec (state + 8 + size) p); [|done].
  apply bind_Some in H as (rest & Hrest & [= <-]). by exists size, l, rest.
Qed.

Lemma states_plan_end fuel h cputype state p m :
  (p <= state)%nat -> states_plan fuel h cputype state p m = Some [].
Proof. intros H. destruct fuel; simpl; by rewrite (proj2 (Nat.leb_le _ _)) by done. Qed.

(** The fields of a thread state and of what comes before it. *)
Lemma state_spans_apart state size l p rest :
  plain l = true -> (extent l <= size)%nat -> (state + 8 + size <= p)%nat ->
  within (state + 8 + size) p rest = true -> separate rest = true ->
  let spans := ((state, 4) :: (state + 4, 4) :: spans_at (state + 8) l ++ rest)%nat in
  within state p spans = true /\ separate spans = true.
Proof.
  intros Hp He Hle Hw Hs spans.
  pose proof (spans_at_within (state + 8) l (state + 8 + size) ltac:(lia)) as Hl.
  change spans with ([(state, 4); (state + 4, 4)] ++ (spans_at (state + 8) l ++ rest))%nat.
  assert (within state (state + 8) [(state, 4); (state + 4, 4)]%nat = true) as Hpair.
  { unfold within. simpl. decide_ranges. }
  assert (within (state + 8) p (spans_at (state + 8) l ++ rest) = true) as Hrest.
  { rewrite within_app. apply andb_true_iff.
    split; (eapply within_weaken; [eassumption|lia|lia]). }
  split.
  - rewrite within_app. apply andb_true_iff.
    split; (eapply within_weaken; [eassumption|lia|lia]).
  - eapply separate_sides; [| |apply Hpair|apply Hrest|lia].
    + unfold separate, disj. simpl. decide_ranges.
    + eapply separate_sides; [by apply spans_at_separate|done|apply Hl|apply Hw|lia].
Qed.

Lemma states_plan_apart fuel h cputype state p m spans :
  states_plan fuel h cputype state p m = Some spans ->
  within state p spans = true /\ separate spans = true.
Proof.
  revert state spans. induction fuel as [|fuel IH]; intros state spans H;
    (destruct (Nat.lt_ge_cases state p) as [Hlt|Hge];
      [|rewrite states_plan_end in H by done; by injection H as <-]).
  { simpl in H. by rewrite (proj2 (Nat.leb_gt _ _)) in H by done. }
  apply states_plan_round in H as (size & l & rest & Hf & Hle & Hrest & ->); [|done].
  apply flavor_plan_case in Hf as (Hp & He & _).
  apply IH in Hrest as [Hw Hs]. by apply (state_spans_apart state size).
Qed.

(** The plan is the same where its words are. *)
Lemma states_plan_same fuel h1 h2 cputype state p m1 m2 spans :
  states_plan fuel h1 cputype state p m1 = Some spans ->
  same_words spans h1 m1 h2 m2 ->
  states_plan fuel h2 cputype state p m2 = Some spans.
Proof.
  revert state spans. induction fuel as [|fuel IH]; intros state spans H Hsame;
    (destruct (Nat.lt_ge_cases state p) as [Hlt|Hge];
      [|rewrite states_plan_end in H |- * by done; done]).
  { simpl in H. by rewrite (proj2 (Nat.leb_gt _ _)) in H by done. }
  apply states_plan_round in H as (size & l & rest & Hf & Hle & Hrest & ->); [|done].
  simpl. rewrite (proj2 (Nat.leb_gt _ _)), (proj2 (Nat.leb_le (state + 8) p)) by lia.
  rewrite Hsame by (by left). rewrite Hf, (proj2 (Nat.leb_le _ _)) by lia.
  rewrite (IH (state + 8 + size)%nat rest); [done|done|].
  intros o Ho. apply Hsame. do 2 right. apply in_app_iff. by right.
Qed.

(** The first pass finds the same states. *)
Lemma check_states_same fuel h1 h2 cputype cases strict state p m1 m2 spans :
  check_cases cputype = Some (cases, strict) ->
  states_plan fuel h1 cputype state p m1 = Some spans ->
  same_words spans h1 m1 h2 m2 -> (p <= length m1)%nat -> (p <= length m2)%nat ->
  check_states fuel h2 cases strict state p m2 = check_states fuel h1 cases strict state p m1.
Proof.
  intros Hcases. revert state spans. induction fuel as [|fuel IH]; intros state spans H Hsame H1 H2;
    (destruct (Nat.lt_ge_cases state p) as [Hlt|Hge];
      [|simpl; by rewrite (proj2 (Nat.leb_le _ _)) by done]).
  { simpl. by rewrite (proj2 (Nat.leb_gt _ _)) by done. }
  apply states_plan_round in H as (size & l & rest & Hf & Hle & Hrest & ->); [|done].
  apply flavor_plan_case in Hf as (_ & _ & _ & ? & ? & c & Hc & Hfind & <-).
  rewrite Hcases in Hc. injection Hc as <- <-.
  simpl. rewrite !(proj2 (Nat.leb_gt _ _)), !read_in by lia. simpl.
  rewrite (Hsame state), (Hsame (state + 4)%nat) by (simpl; auto). rewrite Hfind.
  destruct (_ =? sc_count c); [|done]. simpl. eapply IH; [done| |done|done].
  intros o Ho. apply Hsame. do 2 right. apply in_app_iff. by right.
Qed.

Lemma do_INT h base m :
  (base + 4 <= length m)%nat ->
  do_assign h base (INT 0) m = Some (reverse_spans [(base, 4)%nat] m).
Proof.
  intros H. rewrite (do_assign_rev h base (INT 0) 0 4) by done. unfold in_bounds.
  rewrite Nat.add_0_r. by rewrite (proj2 (Nat.leb_le _ _)) by lia.
Qed.

Lemma reverse_within_length a b l m :
  within a b l = true -> (b <= length m)%nat -> length (reverse_spans l m) = length m.
Proof. intros H Hb. apply reverse_spans_length. by eapply within_fits. Qed.

(** Flavor, count and state of a thread, in the order they are swapped. *)
Lemma swap_state_plan swap_bitfields h state size l m :
  plain l = true -> (extent l <= size)%nat -> (state + 8 + size <= length m)%nat ->
  (m ← access (do_assign h state (INT 0) m);
   m ← access (do_assign h (state + 4) (INT 0) m);
   access (swap_case swap_bitfields h [Assigns l size] (state + 8) m)) =
  Fine (state + 8 + size, reverse_spans ((state, 4) :: (state + 4, 4) :: spans_at (state + 8) l) m)%nat.
Proof.
  intros Hp He Hlen. rewrite do_INT by lia. cbn [access mbind checked_bind].
  assert (length (reverse_spans [(state, 4)%nat] m) = length m) as H1.
  { apply rev_at_length. simpl. lia. }
  rewrite do_INT by lia. cbn [access mbind checked_bind].
  assert (length (reverse_spans [(state + 4, 4)%nat] (reverse_spans [(state, 4)%nat] m)) =
    length m) as H2.
  { rewrite <- H1. apply rev_at_length. simpl. lia. }
  cbn [swap_case swap_state state_size]. rewrite do_assigns_plain by (done || lia).
  done.
Qed.

(** The second pass on the thread states carries out the plan. *)
Lemma swap_states_plan swap_bitfields fuel h cputype state p m spans :
  states_plan fuel h cputype state p m = Some spans -> (p <= length m)%nat ->
  swap_states swap_bitfields fuel h (swap_cases cputype) state p m =
  Fine (reverse_spans spans m).
Proof.
  revert state m spans. induction fuel as [|fuel IH]; intros state m spans H Hlen;
    (destruct (Nat.lt_ge_cases state p) as [Hlt|Hge];
      [|rewrite states_plan_end in H by done; injection H as <-;
        simpl; by rewrite (proj2 (Nat.leb_le _ _)) by done]).
  { simpl in H. by rewrite (proj2 (Nat.leb_gt _ _)) in H by done. }
  apply states_plan_round in H as (size & l & rest & Hf & Hle & Hrest & ->); [|done].
  apply flavor_plan_case in Hf as (Hp & He & Hcase & _).
  pose proof (states_plan_apart _ _ _ _ _ _ _ Hrest) as [Hwr _].
  set (first := ((state, 4) :: (state + 4, 4) :: spans_at (state + 8) l)%nat).
  change ((state, 4) :: (state + 4, 4) :: spans_at (state + 8) l ++ rest)%nat
    with (first ++ rest).
  assert (within state (state + 8 + size) first = true) as Hfirst.
  { apply (state_spans_apart state size l (state + 8 + size) []) in He as [Hw _]; try done.
    by rewrite app_nil_r in Hw. }
  pose proof (swap_state_plan swap_bitfields h state size l m Hp He ltac:(lia)) as Hstep.
  fold first in Hstep.
  cbn [swap_states]. rewrite (proj2 (Nat.leb_gt _ _)), read_in by lia.
  cbn [mbind checked_bind] in *. rewrite Hcase.
  destruct (access (do_assign h state (INT 0) m)) as [m1| | |]; try discriminate Hstep.
  cbn [mbind checked_bind] in *.
  destruct (access (do_assign h (state + 4) (INT 0) m1)) as [m2| | |]; try discriminate Hstep.
  cbn [mbind checked_bind] in *. rewrite Hstep. cbn [fst snd].
  rewrite reverse_spans_app. apply IH.
  - eapply states_plan_same; [exact Hrest|]. eapply same_words_outside; [exact Hfirst|lia|].
    intros s Hs. rewrite within_spec in Hwr. specialize (Hwr s Hs). lia.
  - rewrite (reverse_within_length state (state + 8 + size)); [lia|done|lia].
Qed.

(** ** The plan of a command *)

(** A word at offset [o] is one of the fields. *)
Definition has_word (l : list assign) (o : nat) : bool :=
  existsb (fun s => (fst s =? o) && (snd s =? 4))%nat (spans_of l).

Lemma has_word_In l o : has_word l o = true -> In (o, 4)%nat (spans_of l).
Proof.
  unfold has_word. rewrite existsb_exists. intros ([o' n] & Hin & Ho). simpl in Ho.
  rewrite andb_true_iff, !Nat.eqb_eq in Ho. by destruct Ho as [-> ->].
Qed.

(** An array of structures that follows a structure with their number at [o]. *)
Definition array_plain (l : list assign) (size : nat) (each : list assign)
    (each_size o : nat) : bool :=
  plain l && plain each && (extent l <=? size)%nat && (extent each <=? each_size)%nat &&
  has_word l o.

Lemma array_plain_spec l size each each_size o :
  array_plain l size each each_size o = true ->
  plain l = true /\ plain each = true /\ (extent l <= size)%nat /\
  (extent each <= each_size)%nat /\ In (o, 4)%nat (spans_of l).
Proof.
  unfold array_plain. rewrite !andb_true_iff, !Nat.leb_le.
  intros [[[[? ?] ?] ?] Ho%has_word_In]. done.
Qed.

Lemma array_command_Fine h lc cmdsize size each o m u :
  array_command h lc cmdsize size each o m = Fine u ->
  Z.to_nat cmdsize = (size + Z.to_nat (ld_u32 h m (lc + o)) * each)%nat.
Proof.
  unfold array_command. intros H. run H. apply read_Fine in Ha as [_ ->].
  apply require_Fine, Z.eqb_eq in H as ->. pose proof (ld_u32_range h m (lc + o)) as Hr.
  rewrite <- (Z2Nat.id (ld_u32 h m (lc + o))) at 1 by apply Hr.
  by rewrite <- Nat2Z.inj_mul, <- Nat2Z.inj_add, Nat2Z.id.
Qed.

(** What a plan of the command at [lc] is for the second pass. *)
Definition carried_out (lc e : nat) (spans : list span) (run : checked mem) (m : mem) : Prop :=
  within lc e spans = true /\ separate spans = true /\ run = Fine (reverse_spans spans m).

Lemma swap_array_plan h lc cmdsize l size each each_size o m u :
  array_plain l size each each_size o = true ->
  array_command h lc cmdsize size each_size o m = Fine u ->
  (lc + Z.to_nat cmdsize <= length m)%nat ->
  carried_out lc (lc + Z.to_nat cmdsize) (array_plan h lc l size each each_size o m)
    (swap_array_command h lc l size each each_size o m) m.
Proof.
  intros (Hl & Heach & Hsize & Heach_size & Ho)%array_plain_spec Hcheck Hlen.
  apply array_command_Fine in Hcheck. rewrite Hcheck in Hlen |- *.
  unfold array_plan, swap_array_command.
  set (n := Z.to_nat (ld_u32 h m (lc + o))) in *.
  assert (o + 4 <= size)%nat as Hin.
  { pose proof (fits_extent l size Hsize) as Hf. rewrite forallb_forall in Hf.
    by apply (fits_spec size (o, 4%nat)), Hf. }
  pose proof (array_spans_within (lc + size) each_size n _ (fits_extent each _ Heach_size)) as Hw1.
  pose proof (spans_at_within lc l (lc + size) ltac:(lia)) as Hw2.
  repeat split.
  - rewrite within_app. apply andb_true_iff. split; (eapply within_weaken; [eassumption|lia|lia]).
  - eapply separate_sides; [|by apply spans_at_separate|apply Hw1|apply Hw2|lia].
    apply array_spans_separate; [by apply fits_extent|by apply plain_separate].
  - rewrite read_in by lia. cbn [mbind checked_bind]. fold n.
    erewrite do_array_spans; [|by apply plain_Some|by apply fits_extent|lia].
    cbn [access mbind checked_bind]. rewrite do_assigns_plain; [|done|].
    + by rewrite reverse_spans_app.
    + rewrite (reverse_within_length _ _ _ _ Hw1) by lia. lia.
Qed.

Lemma swap_thread_plan swap_bitfields h cputype lc cmdsize m states :
  cmdsize = ld_u32 h m (lc + 4) -> 8 <= cmdsize -> (lc + Z.to_nat cmdsize <= length m)%nat ->
  states_plan (Z.to_nat cmdsize) h cputype (lc + sizeof_thread_command)
    (lc + Z.to_nat cmdsize) m = Some states ->
  carried_out lc (lc + Z.to_nat cmdsize) (spans_at lc thread_command_assigns ++ states)
    (swap_thread swap_bitfields h cputype lc m) m.
Proof.
  intros Hcmdsize H8 Hlen Hplan. pose proof (states_plan_apart _ _ _ _ _ _ _ Hplan) as [Hw Hs].
  assert (extent thread_command_assigns = 8%nat) as He by done.
  pose proof (spans_at_within lc thread_command_assigns (lc + 8) ltac:(lia)) as Hw1.
  change sizeof_thread_command with 8%nat in *. repeat split.
  - rewrite within_app. apply andb_true_iff. split; (eapply within_weaken; [eassumption|lia|lia]).
  - eapply separate_sides; [by apply spans_at_separate|done|apply Hw1|apply Hw|lia].
  - unfold swap_thread. rewrite read_in, <- Hcmdsize by lia. cbn [mbind checked_bind].
    rewrite do_assigns_plain by (done || lia). cbn [access mbind checked_bind].
    rewrite reverse_spans_app. apply swap_states_plan.
    + eapply states_plan_same; [exact Hplan|]. eapply same_words_outside; [apply Hw1|lia|].
      intros s Hin. rewrite within_spec in Hw. specialize (Hw s Hin). lia.
    + rewrite (reverse_within_length _ _ _ _ Hw1) by lia. lia.
Qed.

Lemma cmd_in_In cmd l : cmd_in cmd l = true <-> In cmd l.
Proof.
  unfold cmd_in. rewrite existsb_exists. split.
  - by intros (x & Hx & ->%Z.eqb_eq).
  - intros H. exists cmd. by rewrite Z.eqb_refl.
Qed.

Lemma swap_command_plan swap_bitfields h cputype sizeofcmds lc cmd cmdsize m u spans :
  check_command h cputype sizeofcmds lc cmd cmdsize m = Fine u ->
  command_plan h cputype lc cmd cmdsize m = Some spans ->
  cmdsize = ld_u32 h m (lc + 4) -> (lc + Z.to_nat cmdsize <= length m)%nat ->
  carried_out lc (lc + Z.to_nat cmdsize) spans (swap_command swap_bitfields h cputype lc cmd m) m.
Proof.
  intros Hcheck Hplan Hcmdsize Hlen. unfold command_plan, swap_command in *.
  destruct (Z.eqb_spec cmd LC_SEGMENT) as [->|_].
  { injection Hplan as <-. by eapply swap_array_plan. }
  destruct (Z.eqb_spec cmd LC_SEGMENT_64) as [->|_].
  { injection Hplan as <-. by eapply swap_array_plan. }
  destruct (cmd_in cmd _).
  { destruct (Z.leb_spec 8 cmdsize); [|done].
    apply bind_Some in Hplan as (states & Hstates & [= <-]). by apply swap_thread_plan. }
  destruct (Z.eqb_spec cmd LC_BUILD_VERSION) as [->|_].
  { injection Hplan as <-. by eapply swap_array_plan. }
  destruct (plain (command_assigns cmd)) eqn:Hp; [|done].
  destruct (Z.leb_spec (Z.of_nat (extent (command_assigns cmd))) cmdsize); [|done].
  injection Hplan as <-. repeat split.
  - apply spans_at_within. lia.
  - by apply spans_at_separate.
  - rewrite do_assigns_plain; [done|done|lia].
Qed.

(** ** The same plan on the other host *)

Lemma read_same h1 h2 m1 m2 o v :
  read h1 m1 o = Fine v -> ld_u32 h2 m2 o = ld_u32 h1 m1 o -> (o + 4 <= length m2)%nat ->
  read h2 m2 o = Fine v.
Proof. intros [_ ->]%read_Fine Hsame Hlen. by rewrite read_in, Hsame. Qed.

Lemma array_command_same h1 h2 lc cmdsize size each o m1 m2 u :
  array_command h1 lc cmdsize size each o m1 = Fine u ->
  ld_u32 h2 m2 (lc + o) = ld_u32 h1 m1 (lc + o) -> (o + 4 <= size)%nat ->
  (lc + Z.to_nat cmdsize <= length m2)%nat ->
  array_command h2 lc cmdsize size each o m2 = Fine u.
Proof.
  intros H Hsame Ho Hlen. pose proof (array_command_Fine _ _ _ _ _ _ _ _ H) as Hsize.
  unfold array_command in *. run H.
  rewrite (read_same h1 h2 m1 m2 _ a) by (done || lia). done.
Qed.

Lemma offset_inside_same h1 h2 lc cmdsize o m1 m2 u :
  offset_inside h1 lc cmdsize o m1 = Fine u ->
  ld_u32 h2 m2 (lc + o) = ld_u32 h1 m1 (lc + o) ->
  (lc + o + 4 <= length m2)%nat -> offset_inside h2 lc cmdsize o m2 = Fine u.
Proof.
  unfold offset_inside. intros H Hsame Hlen. run H.
  rewrite (read_same h1 h2 m1 m2 _ a) by (done || lia). done.
Qed.

Lemma string_command_size h lc cmdsize size m u :
  string_command h lc cmdsize size m = Fine u -> Z.of_nat size <= cmdsize.
Proof. intros H. unfold string_command in H. run H. by apply require_Fine, Z.leb_le in Ha. Qed.

Lemma string_command_same h1 h2 lc cmdsize size m1 m2 u :
  string_command h1 lc cmdsize size m1 = Fine u ->
  ld_u32 h2 m2 (lc + 8) = ld_u32 h1 m1 (lc + 8) -> (12 <= size)%nat ->
  (lc + Z.to_nat cmdsize <= length m2)%nat ->
  string_command h2 lc cmdsize size m2 = Fine u.
Proof.
  intros H Hsame Hsize Hlen. apply string_command_size in H as Hle. unfold string_command in *.
  run H. rewrite Ha. cbn [mbind checked_bind].
  eapply offset_inside_same; [done|done|lia].
Qed.

Lemma array_plan_word l size each each_size o h lc m :
  array_plain l size each each_size o = true ->
  In (lc + o, 4)%nat (array_plan h lc l size each each_size o m).
Proof.
  intros (_ & _ & _ & _ & Ho)%array_plain_spec. apply in_app_iff. right. by apply In_spans_at.
Qed.

Lemma array_plan_same l size each each_size o h1 h2 lc m1 m2 :
  array_plain l size each each_size o = true ->
  same_words (array_plan h1 lc l size each each_size o m1) h1 m1 h2 m2 ->
  array_plan h2 lc l size each each_size o m2 = array_plan h1 lc l size each each_size o m1.
Proof.
  intros Hp Hsame. unfold array_plan. rewrite Hsame; [done|]. by apply array_plan_word.
Qed.

Lemma command_plan_same h1 h2 cputype lc cmd cmdsize m1 m2 spans :
  command_plan h1 cputype lc cmd cmdsize m1 = Some spans -> same_words spans h1 m1 h2 m2 ->
  command_plan h2 cputype lc cmd cmdsize m2 = Some spans.
Proof.
  intros Hplan Hsame. unfold command_plan in *.
  destruct (cmd =? LC_SEGMENT).
  { injection Hplan as <-. f_equal. by apply array_plan_same. }
  destruct (cmd =? LC_SEGMENT_64).
  { injection Hplan as <-. f_equal. by apply array_plan_same. }
  destruct (cmd_in cmd _).
  { destruct (8 <=? cmdsize); [|done].
    apply bind_Some in Hplan as (states & Hstates & [= <-]).
    apply (same_words_app (spans_at lc thread_command_assigns)) in Hsame as [_ Hsame].
    by rewrite (states_plan_same _ h1 h2 _ _ _ m1 m2 states). }
  destruct (cmd =? LC_BUILD_VERSION).
  { injection Hplan as <-. f_equal. by apply array_plan_same. }
  done.
Qed.

(** The constants a command may be. *)
Ltac each_command H :=
  first [apply Z.eqb_eq in H; subst
    | unfold is_dylib, is_dylinker, is_version_min in H; apply cmd_in_In in H; simpl in H;
      repeat (destruct H as [<-|H]); try destruct H].

(** The structure a command starts with. *)
Definition command_struct (cmd : Z) : list assign :=
  if cmd =? LC_SEGMENT then segment_command_assigns
  else if cmd =? LC_SEGMENT_64 then segment_command_64_assigns
  else if cmd_in cmd [LC_UNIXTHREAD; LC_THREAD] then thread_command_assigns
  else if cmd =? LC_BUILD_VERSION then build_version_command_assigns
  else command_assigns cmd.

Lemma command_plan_word h cputype lc cmd cmdsize m spans o :
  command_plan h cputype lc cmd cmdsize m = Some spans -> has_word (command_struct cmd) o = true ->
  In (lc + o, 4)%nat spans.
Proof.
  intros Hplan Hin%has_word_In. apply (In_spans_at lc) in Hin.
  unfold command_plan, command_struct, array_plan in *.
  destruct (cmd =? LC_SEGMENT); [injection Hplan as <-; apply in_app_iff; auto|].
  destruct (cmd =? LC_SEGMENT_64); [injection Hplan as <-; apply in_app_iff; auto|].
  destruct (cmd_in cmd _).
  { destruct (8 <=? cmdsize); [|done].
    apply bind_Some in Hplan as (states & _ & Hspans). injection Hspans as <-.
    apply (in_app_iff (spans_at lc thread_command_assigns)). auto. }
  destruct (cmd =? LC_BUILD_VERSION); [injection Hplan as <-; apply in_app_iff; auto|].
  destruct (plain _ && _); [by injection Hplan as <-|done].
Qed.

Lemma check_thread_same h1 h2 cputype lc cmd cmdsize m1 m2 u spans :
  cmd_in cmd [LC_UNIXTHREAD; LC_THREAD] = true ->
  check_thread h1 cputype lc cmdsize m1 = Fine u ->
  command_plan h1 cputype lc cmd cmdsize m1 = Some spans -> same_words spans h1 m1 h2 m2 ->
  (lc + Z.to_nat cmdsize <= length m1)%nat -> (lc + Z.to_nat cmdsize <= length m2)%nat ->
  check_thread h2 cputype lc cmdsize m2 = Fine u.
Proof.
  intros Hcmd Hcheck Hplan Hsame H1 H2. unfold command_plan in Hplan.
  destruct (Z.eqb_spec cmd LC_SEGMENT) as [->|_]; [done|].
  destruct (Z.eqb_spec cmd LC_SEGMENT_64) as [->|_]; [done|].
  rewrite Hcmd in Hplan. destruct (8 <=? cmdsize); [|done].
  apply bind_Some in Hplan as (states & Hstates & Hspans). injection Hspans as <-.
  apply (same_words_app (spans_at lc thread_command_assigns)) in Hsame as [_ Hsame].
  unfold check_thread in *. destruct (check_cases cputype) as [[cases strict]|] eqn:Hcases; [|done].
  by rewrite (check_states_same _ h1 h2 cputype cases strict _ _ m1 m2 states).
Qed.

Lemma check_command_same h1 h2 cputype sizeofcmds lc cmd cmdsize m1 m2 u spans :
  check_command h1 cputype sizeofcmds lc cmd cmdsize m1 = Fine u ->
  command_plan h1 cputype lc cmd cmdsize m1 = Some spans -> same_words spans h1 m1 h2 m2 ->
  (lc + Z.to_nat cmdsize <= length m1)%nat -> (lc + Z.to_nat cmdsize <= length m2)%nat ->
  check_command h2 cputype sizeofcmds lc cmd cmdsize m2 = Fine u.
Proof.
  intros Hcheck Hplan Hsame H1 H2.
  assert (forall o, has_word (command_struct cmd) o = true ->
    ld_u32 h2 m2 (lc + o) = ld_u32 h1 m1 (lc + o)) as Hword.
  { intros o Ho. eapply Hsame, command_plan_word; done. }
  unfold check_command in *.
  repeat match type of Hcheck with
  | (if ?b then _ else _) = _ =>
      let Hb := fresh "Hb" in destruct b eqn:Hb; [each_command Hb|];
      try (match goal with |- ?G => match type of Hcheck with G => exact Hcheck end end);
      try (eapply array_command_same; [exact Hcheck|by apply Hword|vm_compute; lia|done]);
      try (eapply string_command_same; [exact Hcheck|by apply Hword|vm_compute; lia|done])
  end.
  2, 3: by eapply (check_thread_same h1 h2); [|exact Hcheck|exact Hplan|..].
  run Hcheck. rewrite (string_command_same h1 h2 _ _ _ m1 m2 a)
    by first [done | by apply Hword | vm_compute; lia].
  apply string_command_size in Ha. change (Z.of_nat sizeof_prebound_dylib_command) with 20 in Ha.
  cbn [mbind checked_bind]. eapply offset_inside_same; [exact Hcheck|by apply Hword|lia].
Qed.

(** A command with a plan starts with [cmd] and [cmdsize]. *)
Lemma checked_struct h cputype sizeofcmds lc cmd cmdsize m u spans :
  check_command h cputype sizeofcmds lc cmd cmdsize m = Fine u ->
  command_plan h cputype lc cmd cmdsize m = Some spans ->
  has_word (command_struct cmd) 0 = true /\ has_word (command_struct cmd) 4 = true.
Proof.
  intros Hcheck Hplan. unfold check_command in Hcheck.
  repeat match type of Hcheck with
  | (if ?b then _ else _) = _ =>
      let Hb := fresh "Hb" in destruct b eqn:Hb; [each_command Hb;
        first [discriminate Hplan | vm_compute; by split]|]
  end.
  discriminate Hcheck.
Qed.

Lemma check_round_Fine h cputype sizeofcmds multiple lc m e :
  check_round h cputype sizeofcmds multiple lc m = Fine e ->
  (lc + 8 <= length m)%nat /\ e = (lc + Z.to_nat (ld_u32 h m (lc + 4)))%nat /\
  check_command h cputype sizeofcmds lc (ld_u32 h m lc) (ld_u32 h m (lc + 4)) m = Fine tt.
Proof.
  unfold check_round. intros H. run H.
  apply read_Fine in Ha as [_ ->]. apply read_Fine in Ha0 as [? ->].
  destruct a4. injection H as <-. split; [lia|]. by split.
Qed.

Lemma check_round_same h1 h2 cputype sizeofcmds multiple lc m1 m2 e spans :
  check_round h1 cputype sizeofcmds multiple lc m1 = Fine e ->
  command_plan h1 cputype lc (ld_u32 h1 m1 lc) (ld_u32 h1 m1 (lc + 4)) m1 = Some spans ->
  same_words spans h1 m1 h2 m2 -> (e <= length m1)%nat -> length m2 = length m1 ->
  ld_u32 h2 m2 lc = ld_u32 h1 m1 lc /\ ld_u32 h2 m2 (lc + 4) = ld_u32 h1 m1 (lc + 4) /\
  check_round h2 cputype sizeofcmds multiple lc m2 = Fine e.
Proof.
  intros H Hplan Hsame He Hlen.
  apply check_round_Fine in H as HF. destruct HF as (H8 & He' & Hcheck).
  destruct (checked_struct _ _ _ _ _ _ _ _ _ Hcheck Hplan) as [H0 H4].
  pose proof (Hsame _ (command_plan_word _ _ _ _ _ _ _ _ Hplan H0)) as E0.
  pose proof (Hsame _ (command_plan_word _ _ _ _ _ _ _ _ Hplan H4)) as E4.
  rewrite Nat.add_0_r in E0. split; [done|]. split; [done|].
  unfold check_round in *. rewrite !read_in in H |- * by lia. cbn [mbind checked_bind] in *.
  rewrite E0, E4. run H. destruct a2.
  rewrite Ha, Ha0, Ha1. cbn [mbind checked_bind].
  rewrite (check_command_same h1 h2 cputype sizeofcmds lc _ _ m1 m2 tt spans)
    by (done || rewrite ?Hlen; lia).
  cbn [mbind checked_bind]. by rewrite Ha3.
Qed.

(** ** The plan of the file *)

Lemma file_plan_round n h cputype lc m spans :
  file_plan h cputype (S n) lc m = Some spans ->
  exists first rest,
    command_plan h cputype lc (ld_u32 h m lc) (ld_u32 h m (lc + 4)) m = Some first /\
    file_plan h cputype n (lc + Z.to_nat (ld_u32 h m (lc + 4))) m = Some rest /\
    spans = first ++ rest.
Proof.
  intros H. apply bind_Some in H as (first & Hfirst & (rest & Hrest & Hspans)%bind_Some).
  injection Hspans as <-. by exists first, rest.
Qed.

Lemma check_loop_end n h cputype sizeofcmds multiple lc m e :
  check_loop h cputype sizeofcmds multiple n lc m = Fine e -> (lc <= e)%nat.
Proof.
  revert lc. induction n as [|n IH]; intros lc H; cbn [check_loop] in H.
  { injection H as <-. lia. }
  run H. apply IH in H. apply check_round_Fine in Ha as (_ & -> & _). lia.
Qed.

(** Where the words of the plan are read with the same values, the first pass
    and the plan are the same. *)
Lemma check_loop_same n h1 h2 cputype sizeofcmds multiple lc m1 m2 e spans :
  check_loop h1 cputype sizeofcmds multiple n lc m1 = Fine e ->
  file_plan h1 cputype n lc m1 = Some spans -> same_words spans h1 m1 h2 m2 ->
  (e <= length m1)%nat -> length m2 = length m1 ->
  check_loop h2 cputype sizeofcmds multiple n lc m2 = Fine e /\
  file_plan h2 cputype n lc m2 = Some spans.
Proof.
  revert lc spans. induction n as [|n IH]; intros lc spans H Hplan Hsame He Hlen; [done|].
  apply file_plan_round in Hplan as (first & rest & Hfirst & Hrest & ->).
  apply same_words_app in Hsame as [Hsame1 Hsame2].
  cbn [check_loop] in *. run H. apply check_loop_end in H as Hle.
  destruct (check_round_same h1 h2 cputype sizeofcmds multiple lc m1 m2 a first)
    as (E0 & E4 & Hround); [done|done|done|lia|done|].
  apply check_round_Fine in Ha as (_ & -> & _).
  rewrite Hround. cbn [mbind checked_bind].
  destruct (IH _ rest H Hrest Hsame2 He Hlen) as [Hloop Hplan]. split; [done|].
  cbn [file_plan]. rewrite E0, E4.
  rewrite (command_plan_same h1 h2 _ _ _ _ m1 m2 first) by done. simpl. by rewrite Hplan.
Qed.

(** The second pass carries out the plan. *)
Lemma swap_loop_plan swap_bitfields n h cputype sizeofcmds multiple lc m e spans :
  check_loop h cputype sizeofcmds multiple n lc m = Fine e ->
  file_plan h cputype n lc m = Some spans -> (e <= length m)%nat ->
  carried_out lc e spans (swap_loop swap_bitfields h cputype n lc m) m.
Proof.
  revert lc m spans. induction n as [|n IH]; intros lc m spans H Hplan He.
  { injection Hplan as <-. done. }
  apply file_plan_round in Hplan as (first & rest & Hfirst & Hrest & ->).
  cbn [check_loop] in H. run H. apply check_loop_end in H as Hle.
  apply check_round_Fine in Ha as (H8 & -> & Hcheck).
  set (cmdsize := ld_u32 h m (lc + 4)) in *. set (next := (lc + Z.to_nat cmdsize)%nat) in *.
  destruct (swap_command_plan swap_bitfields h cputype sizeofcmds lc _ cmdsize m tt first
    Hcheck Hfirst eq_refl ltac:(lia)) as (Hw1 & Hs1 & Hrun).
  destruct (IH next m rest H Hrest He) as (Hw2 & Hs2 & _).
  assert (same_words rest h m h (reverse_spans first m)) as Hsame.
  { eapply same_words_outside; [exact Hw1|lia|].
    intros s Hs. rewrite within_spec in Hw2. specialize (Hw2 s Hs). unfold next in *. lia. }
  assert (length (reverse_spans first m) = length m) as Hlen.
  { eapply reverse_within_length; [exact Hw1|lia]. }
  destruct (check_loop_same n h h cputype sizeofcmds multiple next m _ e rest H Hrest Hsame He Hlen)
    as [H' Hrest'].
  destruct (IH next (reverse_spans first m) rest H' Hrest' ltac:(lia)) as (_ & _ & Hloop).
  repeat split.
  - rewrite within_app. apply andb_true_iff.
    split; (eapply within_weaken; [eassumption|unfold next; lia|lia]).
  - eapply separate_sides; [done|done|exact Hw1|exact Hw2|lia].
  - cbn [swap_loop]. rewrite !read_in by lia. cbn [mbind checked_bind]. rewrite Hrun.
    cbn [mbind checked_bind]. by rewrite reverse_spans_app.
Qed.

(** ** The header *)

Definition header_assigns (is_64 : bool) : list assign :=
  if is_64 then mach_header_64_assigns else mach_header_assigns.

Definition header_plan (is_64 : bool) : list span := spans_at 0 (header_assigns is_64).

Lemma header_plain is_64 :
  plain (header_assigns is_64) = true /\ extent (header_assigns is_64) = header_size is_64.
Proof. by destruct is_64. Qed.

Lemma read_header_Fine h hdr f :
  read_header h hdr = Fine f -> (header_size (hf_64 f) <= length hdr)%nat.
Proof.
  unfold read_header. intros H. run H.
  destruct (in_bounds hdr 0 _) eqn:Hb; [|done]. apply Nat.leb_le in Hb.
  destruct (negb _); injection H as <-; done.
Qed.

Lemma header_word h hdr is_64 o :
  (header_size is_64 <= length hdr)%nat -> has_word (header_assigns is_64) o = true ->
  ld_u32 (other h) (reverse_spans (header_plan is_64) hdr) o = ld_u32 h hdr o.
Proof.
  intros Hlen Ho. destruct (header_plain is_64) as [Hp He].
  apply (ld_u_swapped 4).
  - eapply within_fits; [apply (spans_at_within _ _ (header_size is_64)); lia|done].
  - by apply spans_at_separate.
  - by apply (In_spans_at 0), has_word_In.
Qed.

Lemma read_header_other h hdr f :
  read_header h hdr = Fine f ->
  read_header (other h) (reverse_spans (header_plan (hf_64 f)) hdr) = Fine f.
Proof.
  intros H. pose proof (read_header_Fine h hdr f H) as Hlen.
  assert (length (reverse_spans (header_plan (hf_64 f)) hdr) = length hdr) as Hlen'.
  { apply reverse_spans_length. eapply within_fits; [|exact Hlen].
    apply spans_at_within. destruct (header_plain (hf_64 f)) as [_ ->]. done. }
  unfold read_header in *. run H.
  assert (4 <= header_size (hf_64 f))%nat as H4 by (destruct (hf_64 f); vm_compute; lia).
  rewrite (read_same h (other h) hdr _ 0 a); [|done|apply header_word; [done|]|lia].
  2: { by destruct (hf_64 f). }
  cbn [mbind checked_bind]. unfold in_bounds in *. rewrite Hlen'.
  destruct (Nat.leb_spec (0 + header_size (negb (a =? MH_MAGIC))) (length hdr)); [|done].
  destruct (negb (a =? MH_MAGIC)); injection H as <-; cbn [hf_64] in *;
    cbn [ld_mach_header ld_mach_header_64 mach_header_cputype mach_header_ncmds
      mach_header_sizeofcmds mach_header_64_cputype mach_header_64_ncmds
      mach_header_64_sizeofcmds];
    unfold ld_i32; simpl (0 + _)%nat; by rewrite !header_word.
Qed.

(** ** swap_object_headers *)

(** The fields of the header, and the plan for the load commands, when the
    first pass accepts them. *)
Definition swap_plan (h : host) (hdr lc : mem) : option (header_fields * list span) :=
  match read_header h hdr with
  | Fine f =>
      if hf_sizeofcmds f <=? Z.of_nat (length lc) then
        match check_commands h (hf_cputype f) (hf_ncmds f) (hf_sizeofcmds f)
                (cmd_multiple (hf_64 f)) lc with
        | Fine _ =>
            spans ← file_plan h (hf_cputype f) (Z.to_nat (hf_ncmds f)) 0 lc;
            Some (f, spans)
        | _ => None
        end
      else None
  | _ => None
  end.

Lemma swap_plan_Some h hdr lc f spans :
  swap_plan h hdr lc = Some (f, spans) ->
  exists e, read_header h hdr = Fine f /\ (e <= length lc)%nat /\ hf_sizeofcmds f = Z.of_nat e /\
    check_loop h (hf_cputype f) (hf_sizeofcmds f) (cmd_multiple (hf_64 f))
      (Z.to_nat (hf_ncmds f)) 0 lc = Fine e /\
    file_plan h (hf_cputype f) (Z.to_nat (hf_ncmds f)) 0 lc = Some spans.
Proof.
  unfold swap_plan. destruct (read_header h hdr) as [f'| | |]; try done.
  destruct (Z.leb_spec (hf_sizeofcmds f') (Z.of_nat (length lc))); [|done].
  destruct (check_commands _ _ _ _ _ _) as [u| | |] eqn:Hcheck; try done.
  intros (spans' & Hplan & Heq)%bind_Some. injection Heq as -> ->.
  unfold check_commands in Hcheck. run Hcheck. apply require_Fine, Z.eqb_eq in Hcheck.
  exists a. repeat split; try done. lia.
Qed.

Section swap.
Context (swap_bitfields : bitfield_state -> host -> list byte -> list byte).

(** What a plan promises of [swap_object_headers]. *)
Lemma swap_object_headers_planned h hdr lc f spans :
  swap_plan h hdr lc = Some (f, spans) ->
  swap_object_headers swap_bitfields h hdr lc =
    Fine (reverse_spans (header_plan (hf_64 f)) hdr, reverse_spans spans lc) /\
  separate spans = true /\ forallb (fits (length lc)) spans = true.
Proof.
  intros (e & Hf & He & Hsize & Hloop & Hplan)%swap_plan_Some.
  pose proof (read_header_Fine h hdr f Hf) as Hlen.
  destruct (swap_loop_plan swap_bitfields _ _ _ _ _ _ _ _ _ Hloop Hplan He) as (Hw & Hs & Hrun).
  split; [|split; [done|by eapply within_fits]].
  unfold swap_object_headers, check_commands. rewrite Hf. cbn [mbind checked_bind].
  rewrite Hloop. cbn [mbind checked_bind]. rewrite Hsize, Z.eqb_refl. cbn [require mbind checked_bind].
  rewrite Hrun. cbn [mbind checked_bind]. destruct (header_plain (hf_64 f)) as [Hp Hext].
  change (if hf_64 f then mach_header_64_assigns else mach_header_assigns)
    with (header_assigns (hf_64 f)).
  rewrite do_assigns_plain by (done || lia). done.
Qed.

Lemma swap_plan_other h hdr lc f spans :
  swap_plan h hdr lc = Some (f, spans) ->
  swap_plan (other h) (reverse_spans (header_plan (hf_64 f)) hdr) (reverse_spans spans lc) =
  Some (f, spans).
Proof.
  intros H. destruct (swap_object_headers_planned _ _ _ _ _ H) as (_ & Hs & Hfits).
  apply swap_plan_Some in H as (e & Hf & He & Hsize & Hloop & Hplan).
  assert (length (reverse_spans spans lc) = length lc) as Hlen by by apply reverse_spans_length.
  assert (same_words spans h lc (other h) (reverse_spans spans lc)) as Hsame.
  { intros o Ho. by apply (ld_u_swapped 4). }
  destruct (check_loop_same _ _ _ _ _ _ _ _ _ _ _ Hloop Hplan Hsame He Hlen) as [Hloop' Hplan'].
  unfold swap_plan, check_commands. rewrite (read_header_other h hdr f Hf), Hlen.
  rewrite (proj2 (Z.leb_le _ _)) by lia. rewrite Hloop'. cbn [mbind checked_bind].
  rewrite Hsize, Z.eqb_refl. cbn [require]. rewrite Hplan'. done.
Qed.

(** C6: Swapping on one host and then on the other restores header and commands. *)
Theorem swap_object_headers_roundtrip h hdr lc hdr' lc' :
  is_Some (swap_plan h hdr lc) ->
  swap_object_headers swap_bitfields h hdr lc = Fine (hdr', lc') ->
  swap_object_headers swap_bitfields (other h) hdr' lc' = Fine (hdr, lc).
Proof.
  intros [[f spans] H] Hrun.
  destruct (swap_object_headers_planned _ _ _ _ _ H) as (Hrun' & Hs & Hfits).
  rewrite Hrun' in Hrun. injection Hrun as <- <-.
  destruct (swap_object_headers_planned _ _ _ _ _ (swap_plan_other _ _ _ _ _ H)) as (-> & _ & _).
  apply swap_plan_Some in H as (e & Hf & _).
  apply read_header_Fine in Hf. destruct (header_plain (hf_64 f)) as [Hp Hext].
  rewrite !reverse_spans_involutive; try done.
  - eapply within_fits; [apply (spans_at_within _ _ (header_size (hf_64 f))); lia|done].
  - by apply spans_at_separate.
Qed.

End swap.

(** ** The loops end *)

(** The walks over thread states have the bytes of the command as fuel and take
    eight or more of them a round. *)

Lemma bind_ends {A B} (c : checked A) (f : A -> checked B) :
  c <> Stuck -> (forall a, c = Fine a -> f a <> Stuck) -> c ≫= f <> Stuck.
Proof. destruct c; simpl; auto; congruence. Qed.

Lemma require_ends b why : require b why <> Stuck.
Proof. by destruct b. Qed.

Lemma access_ends {A} (o : option A) : access o <> Stuck.
Proof. by destruct o. Qed.

Lemma read_ends h m o : read h m o <> Stuck.
Proof. apply access_ends. Qed.

Create HintDb ends.
#[export] Hint Resolve require_ends access_ends read_ends : ends.

Ltac ends := repeat (apply bind_ends; [solve [auto with ends]|intros ? ?]); auto with ends.

Lemma check_states_end fuel h cases strict state p m :
  (p <= state + fuel)%nat -> check_states fuel h cases strict state p m <> Stuck.
Proof.
  revert state. induction fuel as [|fuel IH]; intros state Hf; simpl;
    destruct (Nat.leb_spec p state); try done; [lia|].
  ends. destruct (List.find _ cases); ends; apply IH; lia.
Qed.

Lemma swap_case_advances swap_bitfields h l state m r :
  swap_case swap_bitfields h l state m = Some r -> (state <= fst r)%nat.
Proof.
  revert state m. induction l as [|s l IH]; intros state m H; simpl in H; [by injection H as <-|].
  apply bind_Some in H as (m' & _ & H). apply IH in H. lia.
Qed.

Lemma swap_states_end swap_bitfields fuel h cases state p m :
  (p <= state + fuel)%nat -> swap_states swap_bitfields fuel h cases state p m <> Stuck.
Proof.
  revert state m. induction fuel as [|fuel IH]; intros state m Hf; simpl;
    destruct (Nat.leb_spec p state); try done; [lia|].
  ends. apply IH. destruct (swap_case _ _ _ _ _) as [r|] eqn:Hr; [|done].
  match goal with H : access _ = Fine _ |- _ => injection H as <- end.
  apply swap_case_advances in Hr. lia.
Qed.

Lemma check_thread_ends h cputype lc cmdsize m : check_thread h cputype lc cmdsize m <> Stuck.
Proof.
  unfold check_thread. destruct (check_cases cputype) as [[cases strict]|]; [|done].
  apply check_states_end. lia.
Qed.

Lemma offset_inside_ends h lc cmdsize o m : offset_inside h lc cmdsize o m <> Stuck.
Proof. unfold offset_inside. ends. Qed.
#[export] Hint Resolve check_thread_ends offset_inside_ends : ends.

Lemma string_command_ends h lc cmdsize size m : string_command h lc cmdsize size m <> Stuck.
Proof. unfold string_command, least_size. ends. Qed.
#[export] Hint Resolve string_command_ends : ends.

Lemma array_command_ends h lc cmdsize size each o m :
  array_command h lc cmdsize size each o m <> Stuck.
Proof. unfold array_command. ends. Qed.
#[export] Hint Resolve array_command_ends : ends.

Lemma check_command_ends h cputype sizeofcmds lc cmd cmdsize m :
  check_command h cputype sizeofcmds lc cmd cmdsize m <> Stuck.
Proof.
  unfold check_command, exact_size, least_size. repeat case_match; ends; try done.
Qed.

Lemma swap_thread_ends swap_bitfields h cputype lc m :
  swap_thread swap_bitfields h cputype lc m <> Stuck.
Proof. unfold swap_thread. ends. apply swap_states_end. lia. Qed.

Lemma swap_command_ends swap_bitfields h cputype lc cmd m :
  swap_command swap_bitfields h cputype lc cmd m <> Stuck.
Proof.
  unfold swap_command, swap_array_command.
  repeat case_match; first [apply swap_thread_ends | ends].
Qed.

Lemma check_loop_ends n h cputype sizeofcmds multiple lc m :
  check_loop h cputype sizeofcmds multiple n lc m <> Stuck.
Proof.
  revert lc. induction n as [|n IH]; intros lc; simpl; [done|].
  apply bind_ends; [|intros; apply IH]. unfold check_round. ends.
  apply bind_ends; [apply check_command_ends|]. intros. ends.
Qed.

Lemma swap_loop_ends swap_bitfields n h cputype lc m :
  swap_loop swap_bitfields h cputype n lc m <> Stuck.
Proof.
  revert lc m. induction n as [|n IH]; intros lc m; simpl; [done|].
  ends. apply bind_ends; [apply swap_command_ends|]. intros. apply IH.
Qed.

(** C31: On any header and any load commands, well formed or not, the routine comes
    to an end. *)
Theorem swap_object_headers_ends swap_bitfields h hdr lc :
  swap_object_headers swap_bitfields h hdr lc <> Stuck.
Proof.
  unfold swap_object_headers. apply bind_ends.
  { unfold read_header. ends. by repeat case_match. }
  intros f _. apply bind_ends.
  { unfold check_commands. apply bind_ends; [apply check_loop_ends|ends]. }
  intros _ _. apply bind_ends; [apply swap_loop_ends|]. intros. by ends.
Qed.

(** ** Files *)

(** The words of an image, as a host of byte sex [h] stores them. *)
Definition words (h : host) (l : list Z) : mem :=
  flat_map (fun w => byte_of <$> mem_bytes h 4 w) l.

(** No bit-fields are swapped in the files below. *)
Definition no_bitfields : bitfield_state -> host -> list byte -> list byte := fun _ _ b => b.

(** A 64-bit value at its place between words. *)
Definition long_long (h : host) (z : Z) : mem := byte_of <$> mem_bytes h 8 z.

(** An executable for x86_64: a segment with one section, its entry point and
    an initial thread state. *)
Definition example_header (h : host) : mem :=
  words h [MH_MAGIC_64; CPU_TYPE_X86_64; 3; 2; 3; 360; 0; 0].

Definition example_segment (h : host) : mem :=
  words h [LC_SEGMENT_64; 152] ++ words BE [0x5f5f5445; 0x58540000; 0; 0] ++
  long_long h 0x100000000 ++ long_long h 0x1000 ++ long_long h 0 ++ long_long h 0x1000 ++
  words h [7; 5; 1; 0].

(** [reserved3] is the same for both hosts: the routine does not swap it. *)
Definition example_section (h : host) : mem :=
  words BE [0x5f5f7465; 0x78740000; 0; 0; 0x5f5f5445; 0x58540000; 0; 0] ++
  long_long h 0x100000f80 ++ long_long h 0x2c ++ words h [0xf80; 4; 0; 0; 0x80000400; 0; 0; 0].

Definition example_commands (h : host) : mem :=
  example_segment h ++ example_section h ++
  words h [LC_MAIN; 24] ++ long_long h 0xf80 ++ long_long h 0 ++
  words h [LC_UNIXTHREAD; 184; 4; 42] ++ flat_map (long_long h) (Z.of_nat <$> seq 1 21).

Lemma swap_object_headers_roundtrip_witness :
  swap_object_headers no_bitfields BE (example_header BE) (example_commands BE) =
  Fine (example_header LE, example_commands LE).
Proof.
  apply (swap_object_headers_roundtrip no_bitfields LE).
  - vm_compute. by eexists.
  - vm_compute. reflexivity.
Defined.
