(* ===== verification/SwapInPlaceSpec.v ===== *)
(** * One structure, and one command, in memory

    What a host reads of a structure after the assignments of its routine
    (Assigns).  A [swap_*] routine as a function on a record (HeaderSwap,
    LoadCmdSwap) and as assignments are the same: the host reads from the
    image after the assignments what the function makes of what it read
    before.  Then the commands of a file: each one the first pass of
    [swap_object_headers] accepts is swapped inside its own bytes, but for
    those listed, with runs of the exceptions. *)

From Stdlib Require Import ZArith Lia Bool.
From Stdlib Require Import Init.Byte.
From stdpp Require Import base option numbers list.
From S2P Require Import Prelude CInt CpuTypes LoaderH ByteSex HeaderSwap LoadCmdSwap.
From S2P Require Import InPlace InPlaceSpec Assigns SwapHeaders SwapHeadersSpec.

(** ** One structure in memory *)

(** The assignments [l] to a structure of [size] bytes do what the routine
    [swap] on records does. *)
Definition describes {A} (ld : host -> list byte -> nat -> A) (swap : A -> A)
    (l : list assign) (size : nat) : Prop :=
  forall h m base, (base + size <= length m)%nat ->
  exists m', do_assigns h base l m = Some m' /\ ld h m' base = swap (ld h m base).

Definition covers (l : list assign) (o n : nat) : bool :=
  existsb (fun s => (fst s =? o) && (snd s =? n))%nat (spans_of l).

Lemma covers_In l o n : covers l o n = true -> In (o, n) (spans_of l).
Proof.
  unfold covers. rewrite existsb_exists. intros ([o' n'] & Hin & Ho). simpl in Ho.
  rewrite andb_true_iff, !Nat.eqb_eq in Ho. by destruct Ho as [-> ->].
Qed.

Lemma field_reread l n h m base o :
  plain l && covers l o n = true -> (base + extent l <= length m)%nat ->
  ld_u n h (reverse_spans (spans_at base l) m) (base + o) = ld_u n (other h) m (base + o).
Proof.
  intros [Hp Ho]%andb_true_iff Hlen. rewrite <- (other_other h) at 1. apply ld_u_swapped.
  - eapply within_fits; [by apply spans_at_within|done].
  - by apply spans_at_separate.
  - by apply In_spans_at, covers_In.
Qed.

Lemma spans_at_disj l base o n :
  forallb (disj (o, n)) (spans_of l) = true ->
  forallb (disj (base + o, n)%nat) (spans_at base l) = true.
Proof.
  rewrite !forallb_forall. intros Hd s (t & <- & Ht)%in_map_iff. specialize (Hd t Ht).
  rewrite disj_spec in Hd |- *. unfold shift. simpl in *. lia.
Qed.

Lemma field_kept l n h m base o :
  forallb (disj (o, n)) (spans_of l) = true -> (base + extent l <= length m)%nat ->
  ld_u n h (reverse_spans (spans_at base l) m) (base + o) = ld_u n h m (base + o).
Proof.
  intros Hd Hlen. apply ld_u_outside; [|by apply spans_at_disj].
  eapply within_fits; [by apply spans_at_within|done].
Qed.

Lemma byte_between l m base o :
  forallb (disj (o, 1)%nat) (spans_of l) = true -> (base + extent l <= length m)%nat ->
  byte_at (reverse_spans (spans_at base l) m) (base + o) = byte_at m (base + o).
Proof.
  intros Hd Hlen. unfold byte_at. rewrite !nth_lookup, reverse_spans_outside; [done| |].
  - eapply within_fits; [by apply spans_at_within|done].
  - by apply spans_at_disj.
Qed.

Lemma bytes_between l n m base o :
  forallb (disj (o, n)) (spans_of l) = true -> (base + extent l <= length m)%nat ->
  bytes_at (reverse_spans (spans_at base l) m) (base + o) n = bytes_at m (base + o) n.
Proof.
  intros Hd Hlen. unfold bytes_at. apply list_fmap_ext.
  intros k i Hk. apply lookup_seq in Hk as [-> Hk]. rewrite <- Nat.add_assoc.
  apply byte_between; [|done]. rewrite forallb_forall in *.
  intros s Hs. eapply disj_sub; [by apply Hd|lia|lia].
Qed.

Lemma describes_plain {A} (ld : host -> list byte -> nat -> A) swap l size :
  plain l && (extent l <=? size)%nat = true ->
  (forall h m base, (base + extent l <= length m)%nat ->
    ld h (reverse_spans (spans_at base l) m) base = swap (ld h m base)) ->
  describes ld swap l size.
Proof.
  intros [Hp He%Nat.leb_le]%andb_true_iff Hreread h m base Hlen.
  exists (reverse_spans (spans_at base l) m).
  split; [apply do_assigns_plain; [done|lia]|]. apply Hreread. lia.
Qed.

#[local] Arguments spans_at : simpl never.
#[local] Arguments bytes_at : simpl never.

Lemma do_assigns_app h base l1 l2 m :
  do_assigns h base (l1 ++ l2) m = m ← do_assigns h base l1 m; do_assigns h base l2 m.
Proof.
  revert m. induction l1 as [|a l1 IH]; intros m; [done|]. simpl.
  destruct (do_assign h base a m); [apply IH|done].
Qed.

(** After the assignments [l] to a structure of [size] bytes this host reads
    what a host of the other byte sex read before. *)
Definition rereads {A} (ld : host -> list byte -> nat -> A) (l : list assign) (size : nat) : Prop :=
  forall h m base, (base + size <= length m)%nat ->
  exists m', do_assigns h base l m = Some m' /\ ld h m' base = ld (other h) m base.

Lemma rereads_plain {A} (ld : host -> list byte -> nat -> A) l size :
  plain l && (extent l <=? size)%nat = true ->
  (forall h m base, (base + extent l <= length m)%nat ->
    ld h (reverse_spans (spans_at base l) m) base = ld (other h) m base) ->
  rereads ld l size.
Proof.
  intros [Hp He%Nat.leb_le]%andb_true_iff Hreread h m base Hlen.
  exists (reverse_spans (spans_at base l) m).
  split; [apply do_assigns_plain; [done|lia]|]. apply Hreread. lia.
Qed.

(** Each number of the structure is a field of an assignment, or a single
    byte or an array of bytes between them. *)
Ltac field_by_field :=
  match goal with |- ?ld _ _ _ = _ => unfold ld end;
  unfold ld_i32, ld_i16;
  rewrite ?bytes_between, ?byte_between by (reflexivity || assumption);
  rewrite ?field_reread by (reflexivity || assumption);
  reflexivity.

Ltac reread := apply rereads_plain; [reflexivity|]; intros h m base Hlen; field_by_field.

Ltac describe :=
  apply describes_plain; [reflexivity|]; intros h m base Hlen;
  match goal with |- ?ld _ _ _ = ?sw _ => unfold ld, sw end;
  cbn; autorewrite with swap; unfold ld_i32, ld_i16;
  rewrite ?bytes_between, ?byte_between by (reflexivity || assumption);
  rewrite ?field_reread by (reflexivity || assumption);
  rewrite ?field_kept by (reflexivity || assumption);
  reflexivity.

(** In memory and on records, the routines of the headers and load commands are
    the same. *)
Lemma in_place_agrees :
  describes ld_mach_header swap_mach_header mach_header_assigns sizeof_mach_header /\
  describes ld_mach_header_64 swap_mach_header_64 mach_header_64_assigns sizeof_mach_header_64 /\
  describes ld_segment_command swap_segment_command segment_command_assigns sizeof_segment_command /\
  describes ld_section swap_section_elem section_assigns sizeof_section /\
  describes ld_segment_command_64 swap_segment_command_64 segment_command_64_assigns sizeof_segment_command_64 /\
  describes ld_section_64 swap_section_64_elem section_64_assigns sizeof_section_64 /\
  describes ld_symtab_command swap_symtab_command symtab_command_assigns sizeof_symtab_command /\
  describes ld_dysymtab_command swap_dysymtab_command dysymtab_command_assigns sizeof_dysymtab_command /\
  describes ld_symseg_command swap_symseg_command symseg_command_assigns sizeof_symseg_command /\
  describes ld_fvmlib_command swap_fvmlib_command fvmlib_command_assigns sizeof_fvmlib_command /\
  describes ld_dylib_command swap_dylib_command dylib_command_assigns sizeof_dylib_command /\
  describes ld_sub_framework_command swap_sub_framework_command sub_framework_command_assigns sizeof_sub_framework_command /\
  describes ld_sub_umbrella_command swap_sub_umbrella_command sub_umbrella_command_assigns sizeof_sub_umbrella_command /\
  describes ld_sub_library_command swap_sub_library_command sub_library_command_assigns sizeof_sub_library_command /\
  describes ld_sub_client_command swap_sub_client_command sub_client_command_assigns sizeof_sub_client_command /\
  describes ld_prebound_dylib_command swap_prebound_dylib_command prebound_dylib_command_assigns sizeof_prebound_dylib_command /\
  describes ld_dylinker_command swap_dylinker_command dylinker_command_assigns sizeof_dylinker_command /\
  describes ld_thread_command swap_thread_command thread_command_assigns sizeof_thread_command /\
  describes ld_entry_point_command swap_entry_point_command entry_point_command_assigns sizeof_entry_point_command /\
  describes ld_source_version_command swap_source_version_command source_version_command_assigns sizeof_source_version_command /\
  describes ld_note_command swap_note_command note_command_assigns sizeof_note_command /\
  describes ld_ident_command swap_ident_command ident_command_assigns sizeof_ident_command /\
  describes ld_routines_command swap_routines_command routines_command_assigns sizeof_routines_command /\
  describes ld_routines_command_64 swap_routines_command_64 routines_command_64_assigns sizeof_routines_command_64 /\
  describes ld_twolevel_hints_command swap_twolevel_hints_command twolevel_hints_command_assigns sizeof_twolevel_hints_command /\
  describes ld_prebind_cksum_command swap_prebind_cksum_command prebind_cksum_command_assigns sizeof_prebind_cksum_command /\
  describes ld_uuid_command swap_uuid_command uuid_command_assigns sizeof_uuid_command /\
  describes ld_linkedit_data_command swap_linkedit_data_command linkedit_data_command_assigns sizeof_linkedit_data_command /\
  describes ld_version_min_command swap_version_min_command version_min_command_assigns sizeof_version_min_command /\
  describes ld_build_version_command swap_build_version_command build_version_command_assigns sizeof_build_version_command /\
  describes ld_build_tool_version swap_build_tool_version_elem build_tool_version_assigns sizeof_build_tool_version /\
  describes ld_rpath_command swap_rpath_command rpath_command_assigns sizeof_rpath_command /\
  describes ld_encryption_info_command swap_encryption_command encryption_info_command_assigns sizeof_encryption_info_command /\
  describes ld_linker_option_command swap_linker_option_command linker_option_command_assigns sizeof_linker_option_command /\
  describes ld_dyld_info_command swap_dyld_info_command dyld_info_command_assigns sizeof_dyld_info_command.
Proof. repeat apply conj; describe. Qed.

(** What is read depends on the bytes of the structure only. *)
Definition local_read {A B} (ld : host -> mem -> nat -> A) (pr : A -> B) (size : nat) : Prop :=
  forall h m m' base,
    (forall i, (base <= i < base + size)%nat -> m' !! i = m !! i) ->
    pr (ld h m' base) = pr (ld h m base).

Lemma bytes_at_ext m m' o n :
  (forall i, (o <= i < o + n)%nat -> m' !! i = m !! i) -> bytes_at m' o n = bytes_at m o n.
Proof.
  intros H. unfold bytes_at. apply list_fmap_ext. intros j i Hi.
  apply lookup_seq in Hi as [-> Hi]. unfold byte_at. rewrite !nth_lookup, H by lia. done.
Qed.

Ltac local_read :=
  let h := fresh "h" in let m := fresh "m" in let m' := fresh "m'" in
  let base := fresh "base" in let He := fresh "He" in
  intros h m m' base He;
  match goal with |- ?pr (?ld _ _ _) = _ => unfold ld end; cbn; unfold ld_i32;
  repeat match goal with
  | |- context [ld_u ?n h m' ?o] =>
      rewrite (ld_u_ext n h m' m o) by (intros; apply He; lia)
  | |- context [bytes_at m' ?o ?n] =>
      rewrite (bytes_at_ext m m' o n) by (intros; apply He; lia)
  end; reflexivity.

(** ** Each command inside its own bytes *)

(** The commands whose sizes the first pass does not compare with those of
    their structures, the one with a wrong routine, and those with thread
    states. *)
Definition without_promise : list Z :=
  [LC_MAIN; LC_SOURCE_VERSION; LC_NOTE; LC_IDENT; LC_ENCRYPTION_INFO_64;
   LC_UNIXTHREAD; LC_THREAD].

Lemma structure_has_plan h cputype lc cmd cmdsize m size :
  cmd_in cmd [LC_SEGMENT; LC_SEGMENT_64; LC_UNIXTHREAD; LC_THREAD; LC_BUILD_VERSION] = false ->
  plain (command_assigns cmd) && (extent (command_assigns cmd) <=? size)%nat = true ->
  Z.of_nat size <= cmdsize -> is_Some (command_plan h cputype lc cmd cmdsize m).
Proof.
  intros Hno [Hp He%Nat.leb_le]%andb_true_iff Hsize. unfold command_plan. simpl in Hno.
  rewrite !orb_false_iff in Hno. destruct Hno as (-> & -> & H1 & H2 & -> & _).
  simpl. rewrite H1, H2. simpl. rewrite Hp, (proj2 (Z.leb_le _ _)) by lia. by eexists.
Qed.

Lemma exact_size_Fine cmdsize size u :
  exact_size cmdsize size = Fine u -> Z.of_nat size <= cmdsize.
Proof. intros H%require_Fine. apply Z.eqb_eq in H. lia. Qed.

Lemma least_size_Fine cmdsize size u :
  least_size cmdsize size = Fine u -> Z.of_nat size <= cmdsize.
Proof. intros H%require_Fine. by apply Z.leb_le in H. Qed.

Lemma accepted_has_plan h cputype sizeofcmds lc cmd cmdsize m u :
  check_command h cputype sizeofcmds lc cmd cmdsize m = Fine u ->
  cmd_in cmd without_promise = false ->
  is_Some (command_plan h cputype lc cmd cmdsize m).
Proof.
  intros Hcheck Hno. unfold check_command in Hcheck.
  repeat match type of Hcheck with
  | (if ?b then _ else _) = _ =>
      let Hb := fresh "Hb" in destruct b eqn:Hb;
      [each_command Hb; try discriminate Hno|]
  end; [..|discriminate Hcheck].
  all: try (by eexists).
  all: run Hcheck; repeat match goal with
    | H : string_command _ _ _ _ _ = Fine _ |- _ => apply string_command_size in H
    | H : exact_size _ _ = Fine _ |- _ => apply exact_size_Fine in H
    | H : least_size _ _ = Fine _ |- _ => apply least_size_Fine in H
    end.
  all: eapply structure_has_plan; [reflexivity| |eassumption]; reflexivity.
Qed.

(** C21: A command the first pass accepts, other than [without_promise], is swapped
    by the second pass inside of its own bytes: some separate fields of it
    are reversed, and no other byte of the image is read or written. *)
Theorem accepted_command_stays_inside swap_bitfields h cputype sizeofcmds lc cmd cmdsize m u :
  check_command h cputype sizeofcmds lc cmd cmdsize m = Fine u ->
  cmd_in cmd without_promise = false ->
  ld_u32 h m (lc + 4) = cmdsize -> (lc + Z.to_nat cmdsize <= length m)%nat ->
  exists spans, within lc (lc + Z.to_nat cmdsize) spans = true /\ separate spans = true /\
    swap_command swap_bitfields h cputype lc cmd m = Fine (reverse_spans spans m).
Proof.
  intros Hcheck Hno Hcmdsize Hlen.
  destruct (accepted_has_plan _ _ _ _ _ _ _ _ Hcheck Hno) as [spans Hplan].
  exists spans. by eapply swap_command_plan.
Qed.

(** The first command of the example of SwapHeadersSpec. *)
Lemma accepted_command_stays_inside_witness :
  exists spans, within 0 152 spans = true /\ separate spans = true /\
    swap_command no_bitfields LE CPU_TYPE_X86_64 0 LC_SEGMENT_64 (example_commands LE) =
    Fine (reverse_spans spans (example_commands LE)).
Proof.
  apply (accepted_command_stays_inside no_bitfields LE CPU_TYPE_X86_64 360 0 LC_SEGMENT_64 152
    (example_commands LE) tt).
  - vm_compute. reflexivity.
  - vm_compute. reflexivity.
  - vm_compute. reflexivity.
  - vm_compute. lia.
Defined.

(** ** Where the two passes differ *)

Definition one_command (magic cputype size : Z) : mem :=
  words LE ([magic; cputype; 0; 2; 1; size; 0] ++ (if magic =? MH_MAGIC_64 then [0] else [])).

Definition zeros (n : nat) : list Z := repeat 0 n.

(** The second pass leaves the load commands: a PowerPC float state is followed
    by an exception state that is not there, and an [LC_MAIN] needs not be as
    large as its structure.  The first pass reads a command before it knows
    that there is one. *)
Theorem second_pass_out_of_bounds :
  swap_object_headers no_bitfields LE (one_command MH_MAGIC CPU_TYPE_POWERPC 280)
    (words LE ([LC_THREAD; 280; 2; 66] ++ zeros 66)) = Out_of_bounds /\
  swap_object_headers no_bitfields LE (one_command MH_MAGIC_64 CPU_TYPE_X86_64 8)
    (words LE [LC_MAIN; 8]) = Out_of_bounds /\
  swap_object_headers no_bitfields LE (one_command MH_MAGIC CPU_TYPE_I386 0) [] = Out_of_bounds.
Proof. repeat split; vm_compute; reflexivity. Qed.

(** The first pass refuses what the second one can swap: the states of an arm64
    thread and the commands of the newer linkers. *)
Theorem first_pass_too_strict :
  swap_object_headers no_bitfields LE (one_command MH_MAGIC_64 CPU_TYPE_ARM64 288)
    (words LE ([LC_UNIXTHREAD; 288; 6; 68] ++ zeros 68)) = Refused Unknown_flavor /\
  swap_object_headers no_bitfields LE (one_command MH_MAGIC_64 CPU_TYPE_ARM64 16)
    (words LE [LC_DYLD_CHAINED_FIXUPS; 16; 0; 0]) = Refused Unknown_command /\
  swap_object_headers no_bitfields LE (one_command MH_MAGIC_64 CPU_TYPE_ARM64 16)
    (words LE [LC_DYLD_EXPORTS_TRIE; 16; 0; 0]) = Refused Unknown_command.
Proof. repeat split; vm_compute; reflexivity. Qed.

(** The value the other host reads at [o] in the load commands after a swap. *)
Definition reread (n : nat) (r : checked (mem * mem)) (o : nat) : option Z :=
  match r with Fine (_, lc) => Some (ld_u n BE lc o) | _ => None end.

(** What it accepts for arm64 instead has its 64-bit registers swapped as pairs
    of words, and the 16-bit trap number of an i386 exception state is lost. *)
Theorem thread_states_changed :
  reread 8 (swap_object_headers no_bitfields LE (one_command MH_MAGIC_64 CPU_TYPE_ARM64 288)
    (words LE ([LC_UNIXTHREAD; 288; 1; 17; 0x11223344; 0x55667788] ++ zeros 66))) 16 =
    Some 0x1122334455667788 /\
  reread 2 (swap_object_headers no_bitfields LE (one_command MH_MAGIC CPU_TYPE_I386 28)
    (words LE [LC_UNIXTHREAD; 28; 3; 3; 14; 5; 6])) 16 = Some 0.
Proof. split; vm_compute; reflexivity. Qed.
