(* ===== verification/SwapFileSpec.v ===== *)
(** * What the other host reads of a file that was swapped

    The whole of swap_object_headers, seen from the structures of include/mach-o:
    the header and every load command of the swapped file, with its sections
    and tools, read by the host of the other byte sex, are the structures this
    host read before.  The structures are the [ld_*] of HeaderSwap and
    LoadCmdSwap, not the lists of assignments of the routines. *)

From Stdlib Require Import ZArith Lia Bool.
From Stdlib Require Import Init.Byte.
From stdpp Require Import base option numbers list.
From S2P Require Import Prelude CInt CpuTypes LoaderH ByteSex HeaderSwap LoadCmdSwap.
From S2P Require Import InPlace InPlaceSpec Assigns SwapHeaders SwapHeadersSpec SwapInPlaceSpec.

(** ** The structures of a file *)

(** The offsets of [n] load commands from [lc] on, with their numbers. *)
Fixpoint load_commands_from (h : host) (n : nat) (lc : nat) (m : mem) : list (nat * Z) :=
  match n with
  | O => []
  | S n =>
      let l := ld_load_command h m lc in
      (lc, load_command_cmd l) ::
        load_commands_from h n (lc + Z.to_nat (load_command_cmdsize l)) m
  end.

Section same.
Context (h : host) (m m' : mem).

(** The other host reads in [m'] what this one reads in [m]. *)
Definition same {A} (ld : host -> mem -> nat -> A) (o : nat) : Prop :=
  ld (other h) m' o = ld h m o.

(** [n] structures of [size] bytes from [o] on. *)
Definition same_array (same : nat -> Prop) (size n o : nat) : Prop :=
  forall i, (i < n)%nat -> same (o + i * size)%nat.

(** [reserved3] is not swapped: the other host reads what it read before. *)
Definition same_section_64 (o : nat) : Prop :=
  ld_section_64 (other h) m' o =
  (let s := ld_section_64 h m o in
   {| section_64_sectname := section_64_sectname s; section_64_segname := section_64_segname s;
      section_64_addr := section_64_addr s; section_64_size := section_64_size s;
      section_64_offset := section_64_offset s; section_64_align := section_64_align s;
      section_64_reloff := section_64_reloff s; section_64_nreloc := section_64_nreloc s;
      section_64_flags := section_64_flags s; section_64_reserved1 := section_64_reserved1 s;
      section_64_reserved2 := section_64_reserved2 s;
      section_64_reserved3 := section_64_reserved3 (ld_section_64 (other h) m o) |}).

(** Neither is [sdk]. *)
Definition same_version_min (o : nat) : Prop :=
  ld_version_min_command (other h) m' o =
  (let v := ld_version_min_command h m o in
   {| version_min_command_cmd := version_min_command_cmd v;
      version_min_command_cmdsize := version_min_command_cmdsize v;
      version_min_command_version := version_min_command_version v;
      version_min_command_sdk := version_min_command_sdk (ld_version_min_command (other h) m o) |}).

(** The load command at [lc], with what is behind it; of a thread command the
    structure in front of its states. *)
Definition same_command (lc : nat) (cmd : Z) : Prop :=
  if cmd =? LC_SEGMENT then
    same ld_segment_command lc /\
    same_array (same ld_section) sizeof_section
      (Z.to_nat (segment_command_nsects (ld_segment_command h m lc))) (lc + sizeof_segment_command)
  else if cmd =? LC_SEGMENT_64 then
    same ld_segment_command_64 lc /\
    same_array same_section_64 sizeof_section_64
      (Z.to_nat (segment_command_64_nsects (ld_segment_command_64 h m lc)))
      (lc + sizeof_segment_command_64)
  else if cmd_in cmd [LC_UNIXTHREAD; LC_THREAD] then same ld_thread_command lc
  else if cmd =? LC_BUILD_VERSION then
    same ld_build_version_command lc /\
    same_array (same ld_build_tool_version) sizeof_build_tool_version
      (Z.to_nat (build_version_command_ntools (ld_build_version_command h m lc)))
      (lc + sizeof_build_version_command)
  else if cmd =? LC_SYMTAB then same ld_symtab_command lc
  else if cmd =? LC_DYSYMTAB then same ld_dysymtab_command lc
  else if cmd =? LC_SYMSEG then same ld_symseg_command lc
  else if cmd_in cmd [LC_IDFVMLIB; LC_LOADFVMLIB] then same ld_fvmlib_command lc
  else if is_dylib cmd then same ld_dylib_command lc
  else if cmd =? LC_SUB_FRAMEWORK then same ld_sub_framework_command lc
  else if cmd =? LC_SUB_UMBRELLA then same ld_sub_umbrella_command lc
  else if cmd =? LC_SUB_LIBRARY then same ld_sub_library_command lc
  else if cmd =? LC_SUB_CLIENT then same ld_sub_client_command lc
  else if cmd =? LC_PREBOUND_DYLIB then same ld_prebound_dylib_command lc
  else if is_dylinker cmd then same ld_dylinker_command lc
  else if cmd =? LC_MAIN then same ld_entry_point_command lc
  else if cmd =? LC_SOURCE_VERSION then same ld_source_version_command lc
  else if cmd =? LC_NOTE then same ld_note_command lc
  else if cmd =? LC_IDENT then same ld_ident_command lc
  else if cmd =? LC_ROUTINES then same ld_routines_command lc
  else if cmd =? LC_ROUTINES_64 then same ld_routines_command_64 lc
  else if cmd =? LC_TWOLEVEL_HINTS then same ld_twolevel_hints_command lc
  else if cmd =? LC_PREBIND_CKSUM then same ld_prebind_cksum_command lc
  else if cmd =? LC_UUID then same ld_uuid_command lc
  else if cmd_in cmd [LC_CODE_SIGNATURE; LC_SEGMENT_SPLIT_INFO; LC_FUNCTION_STARTS;
    LC_DATA_IN_CODE; LC_ATOM_INFO; LC_DYLIB_CODE_SIGN_DRS; LC_LINKER_OPTIMIZATION_HINT] then same ld_linkedit_data_command lc
  else if cmd =? LC_RPATH then same ld_rpath_command lc
  else if cmd =? LC_ENCRYPTION_INFO then same ld_encryption_info_command lc
  else if cmd =? LC_LINKER_OPTION then same ld_linker_option_command lc
  else if cmd_in cmd [LC_DYLD_INFO; LC_DYLD_INFO_ONLY] then same ld_dyld_info_command lc
  else if is_version_min cmd then same_version_min lc
  else False.

Definition same_header (is_64 : bool) : Prop :=
  if is_64 then same ld_mach_header_64 0 else same ld_mach_header 0.
End same.

(** ** Parts of a plan *)

(** The two images agree from [a] to [b]. *)
Definition agree (a b : nat) (m1 m2 : mem) : Prop :=
  forall i, (a <= i < b)%nat -> m1 !! i = m2 !! i.

Lemma agree_weaken a b a' b' m1 m2 :
  agree a b m1 m2 -> (a <= a')%nat -> (b' <= b)%nat -> agree a' b' m1 m2.
Proof. intros H Ha Hb i Hi. apply H. lia. Qed.

Lemma rev_at_agree a b o n m1 m2 :
  (a <= o)%nat -> (o + n <= b)%nat -> (b <= length m1)%nat -> (b <= length m2)%nat ->
  agree a b m1 m2 -> agree a b (rev_at m1 o n) (rev_at m2 o n).
Proof.
  intros Ha Hb H1 H2 H i Hi. rewrite !rev_at_lookup by lia. apply H.
  destruct (Nat.leb_spec o i), (Nat.ltb_spec i (o + n)); simpl; lia.
Qed.

Lemma reverse_spans_agree a b l m1 m2 :
  within a b l = true -> (b <= length m1)%nat -> (b <= length m2)%nat ->
  agree a b m1 m2 -> agree a b (reverse_spans l m1) (reverse_spans l m2).
Proof.
  revert m1 m2. induction l as [|s l IH]; intros m1 m2; [done|].
  unfold within. cbn [forallb]. rewrite !andb_true_iff, !Nat.leb_le. intros [[Ha Hb] Hl] H1 H2 H.
  rewrite !reverse_spans_cons. apply IH; [done|rewrite rev_at_length; lia..|].
  by apply rev_at_agree.
Qed.

(** Of spans before and behind the bytes from [a] to [b] nothing is seen there. *)
Lemma reverse_spans_behind a b c d l m :
  within c d l = true -> (d <= length m)%nat -> (b <= c \/ d <= a)%nat ->
  agree a b (reverse_spans l m) m.
Proof.
  intros Hw Hd Hc i Hi. apply reverse_spans_outside; [by eapply within_fits|].
  eapply within_disj; [exact Hw|simpl; lia].
Qed.

Lemma reverse_spans_part a b c1 d1 c3 d3 l1 l2 l3 m :
  within a b l2 = true -> within c1 d1 l1 = true -> within c3 d3 l3 = true ->
  (b <= length m)%nat -> (d1 <= length m)%nat -> (d3 <= length m)%nat ->
  (b <= c1 \/ d1 <= a)%nat -> (b <= c3 \/ d3 <= a)%nat ->
  agree a b (reverse_spans (l1 ++ l2 ++ l3) m) (reverse_spans l2 m).
Proof.
  intros H2 H1 H3 Hb Hd1 Hd3 Hs1 Hs3. rewrite !reverse_spans_app.
  pose proof (reverse_within_length _ _ _ m H1 Hd1) as L1.
  assert (L2 : length (reverse_spans l2 (reverse_spans l1 m)) = length m).
  { rewrite <- L1. eapply reverse_within_length; [exact H2|lia]. }
  intros i Hi. rewrite (reverse_spans_behind a b c3 d3) by (done || lia).
  apply (reverse_spans_agree a b); [done|lia|lia| |done].
  by eapply reverse_spans_behind.
Qed.

(** The plan of each command of a file, alone between the others. *)
Lemma file_part n h cputype sizeofcmds multiple lc m e spans :
  check_loop h cputype sizeofcmds multiple n lc m = Fine e ->
  file_plan h cputype n lc m = Some spans -> (e <= length m)%nat ->
  forall off cmd, (off, cmd) ∈ load_commands_from h n lc m ->
  let next := (off + Z.to_nat (ld_u32 h m (off + 4)))%nat in
  exists l1 first l3, spans = l1 ++ first ++ l3 /\
    command_plan h cputype off cmd (ld_u32 h m (off + 4)) m = Some first /\
    check_command h cputype sizeofcmds off cmd (ld_u32 h m (off + 4)) m = Fine tt /\
    within off next first = true /\ within lc off l1 = true /\ within next e l3 = true /\
    (lc <= off)%nat /\ (next <= e)%nat.
Proof.
  revert lc spans. induction n as [|n IH]; intros lc spans H Hplan He off cmd Hin.
  { by apply not_elem_of_nil in Hin. }
  apply file_plan_round in Hplan as (first & rest & Hfirst & Hrest & ->).
  cbn [check_loop] in H. run H. apply check_loop_end in H as Hle.
  apply check_round_Fine in Ha as (H8 & -> & Hcheck).
  destruct (swap_command_plan no_bitfields h cputype sizeofcmds lc _ _ m tt first
    Hcheck Hfirst eq_refl ltac:(lia)) as (Hw1 & _ & _).
  cbn [load_commands_from] in Hin. cbn in Hin. rewrite !Nat.add_0_r in Hin.
  apply elem_of_cons in Hin as [[= -> ->]|Hin].
  - destruct (swap_loop_plan no_bitfields _ _ _ _ _ _ _ _ _ H Hrest He) as (Hw2 & _ & _).
    exists [], first, rest. by split_and!.
  - destruct (IH _ rest H Hrest He off cmd Hin)
      as (l1 & first' & l3 & -> & Hplan & Hcheck' & Hw & Hwl1 & Hwl3 & Hlc & Hnext).
    exists (first ++ l1), first', l3. rewrite <- app_assoc. split_and!; try done; [|lia].
    rewrite within_app. apply andb_true_iff.
    split; (eapply within_weaken; [eassumption|lia|lia]).
Qed.

(** ** One structure *)

(** The assignments swap every field, and nothing else of the structure
    matters. *)
Record swapped_by {A} (ld : host -> mem -> nat -> A) (l : list assign) (size : nat) : Prop := {
  sb_plain : plain l = true;
  sb_extent : (extent l <= size)%nat;
  sb_reread : forall h m base, (base + extent l <= length m)%nat ->
    ld h (reverse_spans (spans_at base l) m) base = ld (other h) m base;
  sb_local : local_read ld id size
}.

#[local] Arguments spans_at : simpl never.
#[local] Arguments bytes_at : simpl never.

Ltac unfold_size := match goal with |- local_read _ _ ?n => let v := eval vm_compute in n in change n with v end.

Ltac swapped_by :=
  split; [reflexivity|apply Nat.leb_le; reflexivity|
    let h := fresh "h" in let m := fresh "m" in let base := fresh "base" in
    let Hlen := fresh "Hlen" in intros h m base Hlen; field_by_field
    |unfold_size; local_read].

Lemma local_version_min : local_read ld_version_min_command id 16.
Proof. local_read. Qed.

Lemma local_section_64_all : local_read ld_section_64 id 80.
Proof. local_read. Qed.

Section structure.
Context (h : host) (m m' : mem) (lc : nat).

Lemma structure_same {A} (ld : host -> mem -> nat -> A) l size :
  swapped_by ld l size -> (lc + size <= length m)%nat ->
  agree lc (lc + size) m' (reverse_spans (spans_at lc l) m) -> same h m m' ld lc.
Proof.
  intros [_ He Hreread Hlocal] Hlen Hag. unfold same.
  rewrite <- (other_other h) at 2. rewrite <- (Hreread (other h) m lc) by lia.
  by apply (Hlocal (other h) (reverse_spans (spans_at lc l) m) m' lc).
Qed.

Lemma version_min_same :
  (lc + 16 <= length m)%nat ->
  agree lc (lc + 16) m' (reverse_spans (spans_at lc version_min_command_assigns) m) ->
  same_version_min h m m' lc.
Proof.
  intros Hlen Hag.
  unfold same_version_min.
  etransitivity; [exact (local_version_min (other h) _ m' lc Hag)|].
  assert (lc + extent version_min_command_assigns <= length m)%nat by (cbn; lia).
  unfold id, ld_version_min_command. cbn.
  rewrite !field_reread by (reflexivity || assumption). rewrite other_other.
  by rewrite field_kept by (reflexivity || assumption).
Qed.

Lemma section_64_same o :
  (o + 80 <= length m)%nat ->
  agree o (o + 80) m' (reverse_spans (spans_at o section_64_assigns) m) ->
  same_section_64 h m m' o.
Proof.
  intros Hlen Hag.
  unfold same_section_64.
  etransitivity; [exact (local_section_64_all (other h) _ m' o Hag)|].
  assert (o + extent section_64_assigns <= length m)%nat by (cbn; lia).
  unfold id, ld_section_64. cbn. rewrite !bytes_between by (reflexivity || assumption).
  rewrite !field_reread by (reflexivity || assumption). rewrite other_other.
  by rewrite field_kept by (reflexivity || assumption).
Qed.
End structure.

(** ** An array behind a structure *)

Lemma array_spans_part base size n spans i :
  (i < n)%nat -> forallb (fits size) spans = true ->
  exists l1 l3, array_spans base size n spans = l1 ++ (shift (base + i * size) <$> spans) ++ l3 /\
    within base (base + i * size) l1 = true /\
    within (base + i * size + size) (base + n * size) l3 = true.
Proof.
  intros Hi Hf. revert base i Hi. induction n as [|n IH]; intros base i Hi; [lia|].
  cbn [array_spans]. destruct i as [|i].
  - exists [], (array_spans (base + size) size n spans). rewrite Nat.mul_0_l, Nat.add_0_r.
    split_and!; [done|done|].
    eapply within_weaken; [by apply array_spans_within|lia|lia].
  - destruct (IH (base + size)%nat i ltac:(lia)) as (l1 & l3 & -> & H1 & H3).
    exists ((shift base <$> spans) ++ l1), l3. rewrite <- app_assoc.
    replace (base + S i * size)%nat with (base + size + i * size)%nat by lia.
    replace (base + S n * size)%nat with (base + size + n * size)%nat by lia.
    split_and!; [done| |done]. rewrite within_app. apply andb_true_iff. split.
    + eapply within_weaken; [by apply within_shift|lia|lia].
    + eapply within_weaken; [exact H1|lia|lia].
Qed.

Lemma array_parts h lc l size each each_size o m m' cmdsize :
  array_plain l size each each_size o = true ->
  let n := Z.to_nat (ld_u32 h m (lc + o)) in
  Z.to_nat cmdsize = (size + n * each_size)%nat -> (lc + Z.to_nat cmdsize <= length m)%nat ->
  agree lc (lc + Z.to_nat cmdsize) m' (reverse_spans (array_plan h lc l size each each_size o m) m) ->
  (lc + size <= length m)%nat /\
  agree lc (lc + size) m' (reverse_spans (spans_at lc l) m) /\
  forall i, (i < n)%nat ->
    let e := (lc + size + i * each_size)%nat in
    (e + each_size <= length m)%nat /\
    agree e (e + each_size) m' (reverse_spans (spans_at e each) m).
Proof.
  intros (Hl & Heach & Hsize & Heach_size & Ho)%array_plain_spec n Hn Hlen Hag.
  rewrite Hn in *. unfold array_plan in Hag. fold n in Hag.
  pose proof (array_spans_within (lc + size) each_size n _ (fits_extent each _ Heach_size)) as Hw1.
  pose proof (spans_at_within lc l (lc + size) ltac:(lia)) as Hw2.
  set (whole := array_spans (lc + size) each_size n (spans_of each)) in *.
  pose proof (reverse_within_length _ _ _ m Hw1 ltac:(lia)) as L1.
  split; [lia|]. split.
  - intros i Hi. rewrite Hag by lia. rewrite reverse_spans_app.
    apply (reverse_spans_agree lc (lc + size)); [done|lia|lia| |done].
    by apply (reverse_spans_behind lc (lc + size) _ _ whole m Hw1); [lia|left].
  - intros i Hi e. destruct (array_spans_part (lc + size) each_size n (spans_of each) i Hi
      (fits_extent each _ Heach_size)) as (l1 & l3 & Heq & H1 & H3).
    fold e in Heq, H1, H3. fold whole in Heq.
    assert (Hle : (lc + size <= e /\ e + each_size <= lc + size + n * each_size)%nat)
      by (unfold e; nia).
    split; [lia|]. intros j Hj. rewrite Hag by lia. rewrite reverse_spans_app.
    rewrite (reverse_spans_behind e (e + each_size) _ _ _ _ Hw2) by lia. rewrite Heq.
    pose proof (spans_at_within e each (e + each_size) ltac:(lia)) as H2.
    apply (reverse_spans_part e (e + each_size) _ _ _ _ _ _ _ m H2 H1 H3); lia.
Qed.

(** ** One load command *)

(** A command that is a structure. *)
Lemma simple_same {A} (ld : host -> mem -> nat -> A) l size h m m' lc cmdsize :
  swapped_by ld l size -> Z.of_nat size <= cmdsize -> (lc + Z.to_nat cmdsize <= length m)%nat ->
  agree lc (lc + Z.to_nat cmdsize) m' (reverse_spans (spans_at lc l) m) -> same h m m' ld lc.
Proof.
  intros Hs Hsize Hlen Hag. eapply structure_same; [done|lia|].
  eapply agree_weaken; [exact Hag|lia|lia].
Qed.

Lemma planned_spans h cputype lc cmd cmdsize m spans :
  cmd_in cmd [LC_SEGMENT; LC_SEGMENT_64; LC_UNIXTHREAD; LC_THREAD; LC_BUILD_VERSION] = false ->
  command_plan h cputype lc cmd cmdsize m = Some spans ->
  spans = spans_at lc (command_assigns cmd) /\ Z.of_nat (extent (command_assigns cmd)) <= cmdsize.
Proof.
  intros Hno. unfold command_plan. simpl in Hno.
  rewrite !orb_false_iff in Hno. destruct Hno as (-> & -> & H1 & H2 & -> & _).
  simpl. rewrite H1, H2. simpl. destruct (plain _); [|done].
  destruct (Z.leb_spec (Z.of_nat (extent (command_assigns cmd))) cmdsize); [|done].
  by intros [= <-].
Qed.

(** The structures several commands share. *)
Lemma swapped_by_dylib : swapped_by ld_dylib_command dylib_command_assigns sizeof_dylib_command.
Proof. swapped_by. Qed.

Lemma swapped_by_dylinker :
  swapped_by ld_dylinker_command dylinker_command_assigns sizeof_dylinker_command.
Proof. swapped_by. Qed.

Lemma swapped_by_linkedit_data :
  swapped_by ld_linkedit_data_command linkedit_data_command_assigns sizeof_linkedit_data_command.
Proof. swapped_by. Qed.

Lemma swapped_by_dyld_info :
  swapped_by ld_dyld_info_command dyld_info_command_assigns sizeof_dyld_info_command.
Proof. swapped_by. Qed.

Section command.
Context (h : host) (m m' : mem) (cputype sizeofcmds : Z) (lc : nat) (cmdsize : Z).
Context (Hlen : (lc + Z.to_nat cmdsize <= length m)%nat).

Definition seen_as (first : list span) : Prop :=
  agree lc (lc + Z.to_nat cmdsize) m' (reverse_spans first m).

Lemma segment_same u :
  array_command h lc cmdsize sizeof_segment_command sizeof_section 48 m = Fine u ->
  seen_as (array_plan h lc segment_command_assigns sizeof_segment_command
    section_assigns sizeof_section 48 m) ->
  same_command h m m' lc LC_SEGMENT.
Proof.
  intros Hcheck Hag. apply array_command_Fine in Hcheck.
  destruct (array_parts h lc segment_command_assigns sizeof_segment_command
    section_assigns sizeof_section 48 m m' cmdsize ltac:(reflexivity) Hcheck Hlen Hag)
    as (Hl & Hstruct & Heach).
  split; [eapply structure_same; [|exact Hl|exact Hstruct]; swapped_by|].
  intros i Hi. destruct (Heach i Hi) as [Hle Hel].
  eapply structure_same; [|exact Hle|exact Hel]. swapped_by.
Qed.

Lemma segment_64_same u :
  array_command h lc cmdsize sizeof_segment_command_64 sizeof_section_64 64 m = Fine u ->
  seen_as (array_plan h lc segment_command_64_assigns sizeof_segment_command_64
    section_64_assigns sizeof_section_64 64 m) ->
  same_command h m m' lc LC_SEGMENT_64.
Proof.
  intros Hcheck Hag. apply array_command_Fine in Hcheck.
  destruct (array_parts h lc segment_command_64_assigns sizeof_segment_command_64
    section_64_assigns sizeof_section_64 64 m m' cmdsize ltac:(reflexivity) Hcheck Hlen Hag)
    as (Hl & Hstruct & Heach).
  split; [eapply structure_same; [|exact Hl|exact Hstruct]; swapped_by|].
  intros i Hi. destruct (Heach i Hi) as [Hle Hel]. by apply section_64_same.
Qed.

Lemma build_version_same u :
  array_command h lc cmdsize sizeof_build_version_command sizeof_build_tool_version 20 m = Fine u ->
  seen_as (array_plan h lc build_version_command_assigns sizeof_build_version_command
    build_tool_version_assigns sizeof_build_tool_version 20 m) ->
  same_command h m m' lc LC_BUILD_VERSION.
Proof.
  intros Hcheck Hag. apply array_command_Fine in Hcheck.
  destruct (array_parts h lc build_version_command_assigns sizeof_build_version_command
    build_tool_version_assigns sizeof_build_tool_version 20 m m' cmdsize ltac:(reflexivity) Hcheck Hlen Hag)
    as (Hl & Hstruct & Heach).
  split; [eapply structure_same; [|exact Hl|exact Hstruct]; swapped_by|].
  intros i Hi. destruct (Heach i Hi) as [Hle Hel].
  eapply structure_same; [|exact Hle|exact Hel]. swapped_by.
Qed.

Lemma thread_same first cmd :
  cmd_in cmd [LC_UNIXTHREAD; LC_THREAD] = true ->
  command_plan h cputype lc cmd cmdsize m = Some first -> seen_as first ->
  same h m m' ld_thread_command lc.
Proof.
  intros Hcmd Hplan Hag. unfold command_plan in Hplan.
  destruct (Z.eqb_spec cmd LC_SEGMENT) as [->|_]; [done|].
  destruct (Z.eqb_spec cmd LC_SEGMENT_64) as [->|_]; [done|].
  rewrite Hcmd in Hplan. destruct (Z.leb_spec 8 cmdsize); [|done].
  apply bind_Some in Hplan as (states & Hstates & [= <-]).
  apply states_plan_apart in Hstates as [Hw _].
  eapply (structure_same h m m' lc ld_thread_command thread_command_assigns 8);
    [swapped_by|lia|].
  intros i Hi. rewrite Hag by lia.
  rewrite (reverse_spans_app (spans_at lc thread_command_assigns) states).
  pose proof (spans_at_within lc thread_command_assigns (lc + 8) ltac:(cbn; lia)) as Hw0.
  pose proof (reverse_within_length _ _ _ m Hw0 ltac:(lia)) as L.
  apply (reverse_spans_behind lc (lc + 8) _ _ _ _ Hw); [lia|left; done|done].
Qed.

Lemma command_same cmd first :
  check_command h cputype sizeofcmds lc cmd cmdsize m = Fine tt ->
  command_plan h cputype lc cmd cmdsize m = Some first -> seen_as first ->
  same_command h m m' lc cmd.
Proof.
  intros Hcheck Hplan Hag. unfold check_command in Hcheck.
  repeat match type of Hcheck with
  | (if ?b then _ else _) = _ =>
      let Hb := fresh "Hb" in destruct b eqn:Hb; [each_command Hb; try discriminate Hplan|clear Hb]
  end; [..|discriminate Hcheck].
  1: injection Hplan as <-; by eapply segment_same.
  1: injection Hplan as <-; by eapply segment_64_same.
  all: try (by eapply thread_same; [|exact Hplan|]).
  all: try (injection Hplan as <-; by eapply build_version_same).
  all: apply planned_spans in Hplan as [-> Hext]; [|reflexivity].
  all: run Hcheck; repeat match goal with
    | H : string_command _ _ _ _ _ = Fine _ |- _ => apply string_command_size in H
    | H : exact_size _ _ = Fine _ |- _ => apply exact_size_Fine in H
    | H : least_size _ _ = Fine _ |- _ => apply least_size_Fine in H
    end.
  all: lazymatch goal with
    | |- same_command ?h ?m ?m' ?lc ?c =>
        let g := eval cbv in (is_version_min c) in
        lazymatch g with
        | true => change (Z.of_nat sizeof_version_min_command) with 16 in Hcheck;
            apply version_min_same; [lia|eapply agree_weaken; [exact Hag|lia|lia]]
        | false => eapply (simple_same _ _ _ h m m' lc cmdsize);
            [|first [exact Hcheck|exact Ha|exact Hext]|exact Hlen|exact Hag];
            lazymatch goal with
            | |- swapped_by ld_dylib_command _ _ => exact swapped_by_dylib
            | |- swapped_by ld_dylinker_command _ _ => exact swapped_by_dylinker
            | |- swapped_by ld_linkedit_data_command _ _ => exact swapped_by_linkedit_data
            | |- swapped_by ld_dyld_info_command _ _ => exact swapped_by_dyld_info
            | _ => swapped_by
            end
        end
    end.
Qed.
End command.

(** ** The whole file *)

Lemma load_commands_same h n lc m m' :
  (forall off cmd, (off, cmd) ∈ load_commands_from h n lc m ->
   ld_u32 (other h) m' off = ld_u32 h m off /\
   ld_u32 (other h) m' (off + 4) = ld_u32 h m (off + 4)) ->
  load_commands_from (other h) n lc m' = load_commands_from h n lc m.
Proof.
  revert lc. induction n as [|n IH]; intros lc H; [done|].
  destruct (H lc (ld_u32 h m (lc + 0))) as [E0 E4]; [by left|].
  cbn [load_commands_from]. cbn. rewrite Nat.add_0_r, E0, E4. f_equal.
  apply IH. intros off cmd Hin. apply (H off cmd). by right.
Qed.

Lemma header_same h hdr is_64 :
  (header_size is_64 <= length hdr)%nat ->
  same_header h hdr (reverse_spans (header_plan is_64) hdr) is_64.
Proof.
  intros Hlen. unfold same_header. destruct is_64.
  - eapply (structure_same h hdr _ 0 ld_mach_header_64 mach_header_64_assigns 32);
      [swapped_by|exact Hlen|done].
  - eapply (structure_same h hdr _ 0 ld_mach_header mach_header_assigns 28);
      [swapped_by|exact Hlen|done].
Qed.


