(* ===== verification/NXSwap.v ===== *)
(** * libmacho/swap.c: the second copy of the swapping routines

    The assignments of each routine of libmacho/swap.c to the fields of its
    structure, with the swapping functions of libkern/OSByteOrder.h, and what the
    host then reads of it.  The routines for the tables with bit-fields
    (swap_twolevel_hint, swap_relocation_info, swap_dylib_reference) are not here. *)

From Stdlib Require Import ZArith Lia Bool.
From Stdlib Require Import Init.Byte.
From stdpp Require Import base option numbers list.
From S2P Require Import Prelude CInt ByteSex HeaderSwap LoadCmdSwap TableSwap.
From S2P Require Import InPlace InPlaceSpec Assigns SwapHeaders SwapHeadersSpec SwapInPlaceSpec.

(** ** include/foreign/libkern/_OSByteOrder.h *)

Definition OSSwapInt16 (x : Z) : Z :=
  u16 (Z.lor (Z.shiftr (Z.land (u16 x) 0xff00) 8) (Z.shiftl (Z.land (u16 x) 0x00ff) 8)).

Definition OSSwapInt32 (x : Z) : Z :=
  u32 (Z.lor (Z.lor (Z.lor (Z.shiftr (Z.land (u32 x) 0xff000000) 24)
      (Z.shiftr (Z.land (u32 x) 0x00ff0000) 8))
      (u32 (Z.shiftl (Z.land (u32 x) 0x0000ff00) 8)))
      (u32 (Z.shiftl (Z.land (u32 x) 0x000000ff) 24))).

Definition OSSwapInt64 (x : Z) : Z :=
  u64 (Z.lor (Z.lor (Z.lor (Z.lor (Z.lor (Z.lor (Z.lor
      (Z.shiftr (Z.land (u64 x) 0xff00000000000000) 56)
      (Z.shiftr (Z.land (u64 x) 0x00ff000000000000) 40))
      (Z.shiftr (Z.land (u64 x) 0x0000ff0000000000) 24))
      (Z.shiftr (Z.land (u64 x) 0x000000ff00000000) 8))
      (u64 (Z.shiftl (Z.land (u64 x) 0x00000000ff000000) 8)))
      (u64 (Z.shiftl (Z.land (u64 x) 0x0000000000ff0000) 24)))
      (u64 (Z.shiftl (Z.land (u64 x) 0x000000000000ff00) 40)))
      (u64 (Z.shiftl (Z.land (u64 x) 0x00000000000000ff) 56))).

(** ** The routines

    [INT], [SHORT] and [LONG_LONG] stand for an assignment with [OSSwapInt32],
    [OSSwapInt16] and [OSSwapInt64], which are the macros of bytesex.c by the
    lemmas below. *)

Definition nx_fat_header_assigns : list assign :=
  [INT 0; INT 4].

Definition nx_fat_arch_assigns : list assign :=
  [INT 0; INT 4; INT 8; INT 12; INT 16].

Definition nx_fat_arch_64_assigns : list assign :=
  [INT 0; INT 4; LONG_LONG 8; LONG_LONG 16; INT 24; INT 28].

Definition nx_mach_header_assigns : list assign :=
  [INT 0; INT 4; INT 8; INT 12; INT 16; INT 20; INT 24].

Definition nx_mach_header_64_assigns : list assign :=
  [INT 0; INT 4; INT 8; INT 12; INT 16; INT 20; INT 24; INT 28].

Definition nx_load_command_assigns : list assign :=
  [INT 0; INT 4].

Definition nx_segment_command_assigns : list assign :=
  [INT 0; INT 4; INT 24; INT 28; INT 32; INT 36; INT 40; INT 44; INT 48; INT 52].

Definition nx_segment_command_64_assigns : list assign :=
  [INT 0; INT 4; LONG_LONG 24; LONG_LONG 32; LONG_LONG 40; LONG_LONG 48; INT 56; INT 60;
   INT 64; INT 68].

Definition nx_section_assigns : list assign :=
  [INT 32; INT 36; INT 40; INT 44; INT 48; INT 52; INT 56; INT 60; INT 64].

Definition nx_section_64_assigns : list assign :=
  [LONG_LONG 32; LONG_LONG 40; INT 48; INT 52; INT 56; INT 60; INT 64; INT 68; INT 72; INT 76].

Definition nx_symtab_command_assigns : list assign :=
  [INT 0; INT 4; INT 8; INT 12; INT 16; INT 20].

Definition nx_dysymtab_command_assigns : list assign :=
  [INT 0; INT 4; INT 8; INT 12; INT 16; INT 20; INT 24; INT 28; INT 32; INT 36; INT 40; INT 44;
   INT 48; INT 52; INT 56; INT 60; INT 64; INT 68; INT 72; INT 76].

Definition nx_symseg_command_assigns : list assign :=
  [INT 0; INT 4; INT 8; INT 12].

Definition nx_fvmlib_command_assigns : list assign :=
  [INT 0; INT 4; INT 8; INT 12; INT 16].

Definition nx_dylib_command_assigns : list assign :=
  [INT 0; INT 4; INT 8; INT 12; INT 16; INT 20].

Definition nx_sub_framework_command_assigns : list assign :=
  [INT 0; INT 4; INT 8].

Definition nx_sub_umbrella_command_assigns : list assign :=
  [INT 0; INT 4; INT 8].

Definition nx_sub_library_command_assigns : list assign :=
  [INT 0; INT 4; INT 8].

Definition nx_sub_client_command_assigns : list assign :=
  [INT 0; INT 4; INT 8].

Definition nx_prebound_dylib_command_assigns : list assign :=
  [INT 0; INT 4; INT 8; INT 12; INT 16].

Definition nx_dylinker_command_assigns : list assign :=
  [INT 0; INT 4; INT 8].

Definition nx_fvmfile_command_assigns : list assign :=
  [INT 0; INT 4; INT 8; INT 12].

Definition nx_thread_command_assigns : list assign :=
  [INT 0; INT 4].

Definition nx_ident_command_assigns : list assign :=
  [INT 0; INT 4].

Definition nx_routines_command_assigns : list assign :=
  [INT 0; INT 4; INT 8; INT 12; INT 16; INT 20; INT 24; INT 28; INT 32; INT 36].

Definition nx_routines_command_64_assigns : list assign :=
  [INT 0; INT 4; LONG_LONG 8; LONG_LONG 16; LONG_LONG 24; LONG_LONG 32; LONG_LONG 40;
   LONG_LONG 48; LONG_LONG 56; LONG_LONG 64].

Definition nx_twolevel_hints_command_assigns : list assign :=
  [INT 0; INT 4; INT 8; INT 12].

Definition nx_prebind_cksum_command_assigns : list assign :=
  [INT 0; INT 4; INT 8].

Definition nx_uuid_command_assigns : list assign :=
  [INT 0; INT 4].

Definition nx_linkedit_data_command_assigns : list assign :=
  [INT 0; INT 4; INT 8; INT 12].

Definition nx_version_min_command_assigns : list assign :=
  [INT 0; INT 4; INT 8].

Definition nx_build_version_command_assigns : list assign :=
  [INT 0; INT 4; INT 8; INT 12; INT 16; INT 20].

Definition nx_build_tool_version_assigns : list assign :=
  [INT 0; INT 4].

Definition nx_rpath_command_assigns : list assign :=
  [INT 0; INT 4; INT 8].

Definition nx_encryption_info_command_assigns : list assign :=
  [INT 0; INT 4; INT 8; INT 12; INT 16].

Definition nx_encryption_info_command_64_assigns : list assign :=
  [INT 0; INT 4; INT 8; INT 12; INT 16; INT_FROM 16 20].

Definition nx_linker_option_command_assigns : list assign :=
  [INT 0; INT 4; INT 8].

Definition nx_dyld_info_command_assigns : list assign :=
  [INT 0; INT 4; INT 8; INT 12; INT 16; INT 20; INT 24; INT 28; INT 32; INT 36; INT 40; INT 44].

Definition nx_entry_point_command_assigns : list assign :=
  [INT 0; INT 4; LONG_LONG 8; LONG_LONG 16].

Definition nx_source_version_command_assigns : list assign :=
  [INT 0; INT 4; LONG_LONG 8].

Definition nx_note_command_assigns : list assign :=
  [INT 0; INT 4; LONG_LONG 24; LONG_LONG 32].

Definition nx_fileset_entry_command_assigns : list assign :=
  [INT 0; INT 4; LONG_LONG 8; LONG_LONG 16; INT 24; INT 28].

Definition nx_nlist_assigns : list assign :=
  [INT 0; SHORT 6; INT 8].

Definition nx_nlist_64_assigns : list assign :=
  [INT 0; SHORT 6; LONG_LONG 8].

Definition nx_ranlib_assigns : list assign :=
  [INT 0; INT 4].

Definition nx_ranlib_64_assigns : list assign :=
  [LONG_LONG 0; LONG_LONG 8].

Definition nx_dylib_module_assigns : list assign :=
  [INT 0; INT 4; INT 8; INT 12; INT 16; INT 20; INT 24; INT 28; INT 32; INT 36; INT 40; INT 48;
   INT 44].

Definition nx_dylib_module_64_assigns : list assign :=
  [INT 0; INT 4; INT 8; INT 12; INT 16; INT 20; INT 24; INT 28; INT 32; INT 36; INT 40; INT 44;
   LONG_LONG 48].

Definition nx_dylib_table_of_contents_assigns : list assign :=
  [INT 0; INT 4].

(** An element of the array. *)
Definition nx_indirect_symbol_assigns : list assign :=
  [INT 0].

(** ** The swapping functions *)

(** Byte [i] of a value, moved to place [j]. *)
Definition move_byte (x i j : Z) : Z := 2 ^ (8 * j) * ((x / 2 ^ (8 * i)) mod 2 ^ 8).

Lemma byte_down x i j d m s :
  0 <= d -> d <= i -> j = i - d -> m = Z.shiftl (Z.ones 8) (8 * i) -> s = 8 * d ->
  Z.shiftr (Z.land x m) s = move_byte x i j.
Proof.
  intros ?? -> -> ->. rewrite land_shifted_ones, Z.shiftr_div_pow2 by lia. unfold move_byte.
  replace (8 * i) with (8 * d + 8 * (i - d)) at 1 by lia. rewrite Z.pow_add_r by lia.
  rewrite <- Z.mul_assoc, (Z.mul_comm (2 ^ (8 * d))), Z.div_mul by lia. done.
Qed.

Lemma byte_up x i j d m s :
  0 <= i -> 0 <= d -> j = i + d -> m = Z.shiftl (Z.ones 8) (8 * i) -> s = 8 * d ->
  Z.shiftl (Z.land x m) s = move_byte x i j.
Proof.
  intros ?? -> -> ->. rewrite land_shifted_ones, Z.shiftl_mul_pow2 by lia. unfold move_byte.
  replace (8 * (i + d)) with (8 * i + 8 * d) by lia. rewrite Z.pow_add_r by lia. lia.
Qed.

Lemma move_byte_range x i j : 0 <= j -> 0 <= move_byte x i j <= 2 ^ (8 * j) * 255.
Proof.
  intros Hj. unfold move_byte. pose proof (Z.mod_pos_bound (x / 2 ^ (8 * i)) (2 ^ 8) ltac:(lia)).
  pose proof (Z.pow_pos_nonneg 2 (8 * j) ltac:(lia) ltac:(lia)).
  change (2 ^ 8) with 256 in *. nia.
Qed.

(** A byte in front of the bytes below it. *)
Lemma lor_move acc x i j :
  0 <= j -> 0 <= acc < 2 ^ (8 * j) ->
  Z.lor acc (move_byte x i j) = acc + move_byte x i j /\
  0 <= acc + move_byte x i j < 2 ^ (8 * (j + 1)).
Proof.
  intros Hj H. pose proof (move_byte_range x i j Hj) as Hr.
  split; [unfold move_byte; rewrite Z.lor_comm, lor_disjoint_add by lia; lia|].
  replace (8 * (j + 1)) with (8 * j + 8) by lia. rewrite Z.pow_add_r by lia.
  change (2 ^ 8) with 256. lia.
Qed.

Lemma uw_move w x i j : 0 <= j -> 8 * (j + 1) <= w -> uw w (move_byte x i j) = move_byte x i j.
Proof.
  intros Hj Hw. pose proof (move_byte_range x i j Hj) as Hr. apply uw_id. unfold in_uw.
  pose proof (Z.pow_le_mono_r 2 (8 * (j + 1)) w ltac:(lia) Hw) as Hp.
  replace (8 * (j + 1)) with (8 * j + 8) in Hp by lia. rewrite Z.pow_add_r in Hp by lia.
  change (2 ^ 8) with 256 in Hp. lia.
Qed.

(** Writes a swap as its bytes, joined from the lowest one on. *)
Ltac moved :=
  repeat match goal with
  | |- context [Z.shiftr (Z.land ?x ?m) ?s] =>
      let i := eval vm_compute in (Z.log2 m / 8) in
      let d := eval vm_compute in (s / 8) in
      let j := eval vm_compute in (i - d) in
      rewrite (byte_down x i j d m s) by (reflexivity || (vm_compute; discriminate))
  | |- context [Z.shiftl (Z.land ?x ?m) ?s] =>
      let i := eval vm_compute in (Z.log2 m / 8) in
      let d := eval vm_compute in (s / 8) in
      let j := eval vm_compute in (i + d) in
      rewrite (byte_up x i j d m s) by (reflexivity || (vm_compute; discriminate))
  end;
  rewrite ?uw_move by (vm_compute; discriminate).

(** The next byte of a value that [H] bounds. *)
Tactic Notation "join" hyp(H) constr(i) constr(j) :=
  match type of H with
  | 0 <= ?acc < _ =>
      match goal with
      | |- context [Z.lor acc (move_byte ?y i j)] =>
          let E := fresh in let B := fresh in
          destruct (lor_move acc y i j ltac:(lia) H) as [E B];
          rewrite E; clear E H; rename B into H
      end
  end.

Ltac same_bytes y :=
  unfold move_byte, byte_reverse; cbn [le_bytes rev app le_value];
  rewrite ?Z.div_div by lia;
  repeat match goal with
  | |- context [y / ?k] =>
      let v := eval vm_compute in k in progress change (y / k) with (y / v)
  | |- context [2 ^ ?k] =>
      let v := eval vm_compute in (2 ^ k) in change (2 ^ k) with v
  end;
  rewrite Z.div_1_r;
  repeat match goal with |- context [?a mod 256] => generalize (a mod 256); intros ? end;
  lia.

Lemma low_byte y i : 0 <= move_byte y i 0 < 2 ^ (8 * 1).
Proof. pose proof (move_byte_range y i 0 ltac:(lia)). lia. Qed.

(** The swapping functions reverse the bytes, as the macros of bytesex.c do. *)
Lemma OSSwapInt16_reverse x : OSSwapInt16 x = byte_reverse 2 x.
Proof.
  unfold OSSwapInt16. rewrite <- (byte_reverse_mod 2 x). change (8 * Z.of_nat 2) with 16.
  fold (uw 16 x). generalize (u16 x) as y. intros y. moved.
  pose proof (low_byte y 1) as H. join H 0 1. rewrite uw_id by assumption. same_bytes y.
Qed.

Lemma OSSwapInt32_reverse x : OSSwapInt32 x = byte_reverse 4 x.
Proof.
  unfold OSSwapInt32. rewrite <- (byte_reverse_mod 4 x). change (8 * Z.of_nat 4) with 32.
  fold (uw 32 x). generalize (u32 x) as y. intros y. moved.
  pose proof (low_byte y 3) as H. join H 2 1. join H 1 2. join H 0 3.
  rewrite uw_id by assumption. same_bytes y.
Qed.

Lemma OSSwapInt64_reverse x : OSSwapInt64 x = byte_reverse 8 x.
Proof.
  unfold OSSwapInt64. rewrite <- (byte_reverse_mod 8 x). change (8 * Z.of_nat 8) with 64.
  fold (uw 64 x). generalize (u64 x) as y. intros y. moved.
  pose proof (low_byte y 7) as H. join H 6 1. join H 5 2. join H 4 3. join H 3 4.
  join H 2 5. join H 1 6. join H 0 7.
  rewrite uw_id by assumption. same_bytes y.
Qed.

(** ** What the routines do *)

#[local] Arguments spans_at : simpl never.
#[local] Arguments bytes_at : simpl never.

(** An entry of the table of indirect symbols. *)
Definition ld_indirect_symbol (h : host) (bs : list byte) (o : nat) : Z := ld_u32 h bs (o + 0).

(** [sdk] is not swapped. *)
Lemma nx_version_min_command_reread h m base :
  (base + 16 <= length m)%nat ->
  exists m', do_assigns h base nx_version_min_command_assigns m = Some m' /\
    ld_version_min_command h m' base =
    (let n := ld_version_min_command (other h) m base in
     {| version_min_command_cmd := version_min_command_cmd n;
        version_min_command_cmdsize := version_min_command_cmdsize n;
        version_min_command_version := version_min_command_version n;
        version_min_command_sdk := version_min_command_sdk (ld_version_min_command h m base) |}).
Proof.
  intros Hlen. exists (reverse_spans (spans_at base nx_version_min_command_assigns) m).
  split; [apply do_assigns_plain; [done|cbn; lia]|].
  assert (base + extent nx_version_min_command_assigns <= length m)%nat by (cbn; lia).
  unfold ld_version_min_command. cbn.
  rewrite !field_reread by (reflexivity || assumption).
  by rewrite field_kept by (reflexivity || assumption).
Qed.

(** The last assignment stores [pad], swapped, in [cryptid]. *)
Lemma nx_encryption_info_command_64_reread h m base :
  (base + 24 <= length m)%nat ->
  exists m', do_assigns h base nx_encryption_info_command_64_assigns m = Some m' /\
    ld_encryption_info_command_64 h m' base =
    (let n := ld_encryption_info_command_64 (other h) m base in
     {| encryption_info_command_64_cmd := encryption_info_command_64_cmd n;
        encryption_info_command_64_cmdsize := encryption_info_command_64_cmdsize n;
        encryption_info_command_64_cryptoff := encryption_info_command_64_cryptoff n;
        encryption_info_command_64_cryptsize := encryption_info_command_64_cryptsize n;
        encryption_info_command_64_cryptid := encryption_info_command_64_pad n;
        encryption_info_command_64_pad :=
          encryption_info_command_64_pad (ld_encryption_info_command_64 h m base) |}).
Proof.
  intros Hlen. set (l := [INT 0; INT 4; INT 8; INT 12; INT 16]).
  change nx_encryption_info_command_64_assigns with (l ++ [INT_FROM 16 20]).
  assert (He : (base + extent l <= length m)%nat) by (cbn; lia).
  set (m1 := reverse_spans (spans_at base l) m).
  assert (H1 : length m1 = length m).
  { apply reverse_spans_length. eapply within_fits; [by apply spans_at_within|done]. }
  exists (st_u 4 h (SWAP_INT (ld_u32 h m1 (base + 20))) m1 (base + 16)).
  rewrite do_assigns_app, do_assigns_plain by done. fold m1.
  split; [cbn; unfold in_bounds; by rewrite !(proj2 (Nat.leb_le _ _)) by lia|].
  assert (Hpad : ld_u32 h m1 (base + 20) = ld_u32 h m (base + 20)).
  { by apply field_kept. }
  unfold ld_encryption_info_command_64. cbn.
  rewrite ld_st_u by lia. rewrite !ld_st_u_outside by lia.
  unfold m1 at 1 2 3 4. rewrite !field_reread by (reflexivity || assumption).
  rewrite Hpad, SWAP_INT_ld_u32. f_equal. apply Z.mod_small, (ld_u_range 4).
Qed.

(** C32: After a routine of libmacho has swapped a structure, the host reads
    it as a host of the other byte sex read it before, [reserved3] of
    [section_64] included, which libstuff forgets.  Two routines have defects,
    the same as in libstuff: of [version_min_command] [sdk] is left as it was, and
    of [encryption_info_command_64] [cryptid] is overwritten with [pad], and
    [pad] left as it was; all their other fields are right.  The routines for
    the tables with bit-fields are not among them. *)
Theorem nx_swap_correct :
  rereads ld_fat_header nx_fat_header_assigns 8 /\
  rereads ld_fat_arch nx_fat_arch_assigns 20 /\
  rereads ld_fat_arch_64 nx_fat_arch_64_assigns 32 /\
  rereads ld_mach_header nx_mach_header_assigns 28 /\
  rereads ld_mach_header_64 nx_mach_header_64_assigns 32 /\
  rereads ld_load_command nx_load_command_assigns 8 /\
  rereads ld_segment_command nx_segment_command_assigns 56 /\
  rereads ld_segment_command_64 nx_segment_command_64_assigns 72 /\
  rereads ld_section nx_section_assigns 68 /\
  rereads ld_section_64 nx_section_64_assigns 80 /\
  rereads ld_symtab_command nx_symtab_command_assigns 24 /\
  rereads ld_dysymtab_command nx_dysymtab_command_assigns 80 /\
  rereads ld_symseg_command nx_symseg_command_assigns 16 /\
  rereads ld_fvmlib_command nx_fvmlib_command_assigns 20 /\
  rereads ld_dylib_command nx_dylib_command_assigns 24 /\
  rereads ld_sub_framework_command nx_sub_framework_command_assigns 12 /\
  rereads ld_sub_umbrella_command nx_sub_umbrella_command_assigns 12 /\
  rereads ld_sub_library_command nx_sub_library_command_assigns 12 /\
  rereads ld_sub_client_command nx_sub_client_command_assigns 12 /\
  rereads ld_prebound_dylib_command nx_prebound_dylib_command_assigns 20 /\
  rereads ld_dylinker_command nx_dylinker_command_assigns 12 /\
  rereads ld_fvmfile_command nx_fvmfile_command_assigns 16 /\
  rereads ld_thread_command nx_thread_command_assigns 8 /\
  rereads ld_ident_command nx_ident_command_assigns 8 /\
  rereads ld_routines_command nx_routines_command_assigns 40 /\
  rereads ld_routines_command_64 nx_routines_command_64_assigns 72 /\
  rereads ld_twolevel_hints_command nx_twolevel_hints_command_assigns 16 /\
  rereads ld_prebind_cksum_command nx_prebind_cksum_command_assigns 12 /\
  rereads ld_uuid_command nx_uuid_command_assigns 24 /\
  rereads ld_linkedit_data_command nx_linkedit_data_command_assigns 16 /\
  rereads ld_build_version_command nx_build_version_command_assigns 24 /\
  rereads ld_build_tool_version nx_build_tool_version_assigns 8 /\
  rereads ld_rpath_command nx_rpath_command_assigns 12 /\
  rereads ld_encryption_info_command nx_encryption_info_command_assigns 20 /\
  rereads ld_linker_option_command nx_linker_option_command_assigns 12 /\
  rereads ld_dyld_info_command nx_dyld_info_command_assigns 48 /\
  rereads ld_entry_point_command nx_entry_point_command_assigns 24 /\
  rereads ld_source_version_command nx_source_version_command_assigns 16 /\
  rereads ld_note_command nx_note_command_assigns 40 /\
  rereads ld_fileset_entry_command nx_fileset_entry_command_assigns 32 /\
  rereads ld_nlist nx_nlist_assigns 12 /\
  rereads ld_nlist_64 nx_nlist_64_assigns 16 /\
  rereads ld_ranlib nx_ranlib_assigns 8 /\
  rereads ld_ranlib_64 nx_ranlib_64_assigns 16 /\
  rereads ld_dylib_module nx_dylib_module_assigns 52 /\
  rereads ld_dylib_module_64 nx_dylib_module_64_assigns 56 /\
  rereads ld_dylib_table_of_contents nx_dylib_table_of_contents_assigns 8 /\
  rereads ld_indirect_symbol nx_indirect_symbol_assigns 4 /\
  (forall h m base, (base + 16 <= length m)%nat ->
   exists m', do_assigns h base nx_version_min_command_assigns m = Some m' /\
     ld_version_min_command h m' base =
     (let n := ld_version_min_command (other h) m base in
      {| version_min_command_cmd := version_min_command_cmd n;
         version_min_command_cmdsize := version_min_command_cmdsize n;
         version_min_command_version := version_min_command_version n;
         version_min_command_sdk := version_min_command_sdk (ld_version_min_command h m base) |})) /\
  (forall h m base, (base + 24 <= length m)%nat ->
   exists m', do_assigns h base nx_encryption_info_command_64_assigns m = Some m' /\
     ld_encryption_info_command_64 h m' base =
     (let n := ld_encryption_info_command_64 (other h) m base in
      {| encryption_info_command_64_cmd := encryption_info_command_64_cmd n;
         encryption_info_command_64_cmdsize := encryption_info_command_64_cmdsize n;
         encryption_info_command_64_cryptoff := encryption_info_command_64_cryptoff n;
         encryption_info_command_64_cryptsize := encryption_info_command_64_cryptsize n;
         encryption_info_command_64_cryptid := encryption_info_command_64_pad n;
         encryption_info_command_64_pad :=
           encryption_info_command_64_pad (ld_encryption_info_command_64 h m base) |})).
Proof.
  repeat apply conj;
    try (exact nx_version_min_command_reread || exact nx_encryption_info_command_64_reread); reread.
Qed.
