(* ===== verification/Overlap.v ===== *)
(** * libstuff/ofile.c: elements that overlap

    The parts of an object file that load commands point to are recorded, one
    after the other, by [check_overlaping_element], which refuses a part that
    overlaps one on the list.  The list hangs off a head that is never
    shared, and is a list here.  What the code misses is at the end. *)

From Stdlib Require Import ZArith Lia Bool.
From stdpp Require Import base option numbers list strings.
From S2P Require Import Prelude CInt.

Inductive check_type := CHECK_BAD | CHECK_GOOD.

Record element := mk_element { offset : Z; size : Z; name : string }.

(** [offset + size], in 32 bits. *)
Definition end_of (e : element) : Z := u32 (offset e + size e).

(** The condition on a new element [n] and one of the list. *)
Definition overlaps (n e : element) : bool :=
  ((offset e <=? offset n) && (offset n <? end_of e)) ||
  ((offset e <? end_of n) && (end_of n <? end_of e)) ||
  ((offset n <=? offset e) && (end_of e <=? end_of n)).

(** [while(e->next != NULL)]: [None] is [CHECK_BAD]. *)
Fixpoint insert_element (n : element) (head : list element) : option (list element) :=
  match head with
  | [] => Some [n]
  | e :: next =>
      if overlaps n e then None
      else if match next with e' :: _ => end_of n <=? offset e' | [] => false end
      then Some (n :: e :: next)
      else l ← insert_element n next; Some (e :: l)
  end.

Definition check_overlaping_element (head : list element) (n : element) :
    check_type * list element :=
  if size n =? 0 then (CHECK_GOOD, head)
  else match head with
  | [] => (CHECK_GOOD, [n])
  | _ =>
      match insert_element n head with
      | Some l => (CHECK_GOOD, l)
      | None => (CHECK_BAD, head)
      end
  end.

(** The elements of a file in the order they are checked, until one is bad. *)
Fixpoint check_elements (head : list element) (l : list element) : check_type * list element :=
  match l with
  | [] => (CHECK_GOOD, head)
  | n :: l =>
      match check_overlaping_element head n with
      | (CHECK_GOOD, head) => check_elements head l
      | (CHECK_BAD, head) => (CHECK_BAD, head)
      end
  end.

(** ** Elements as ranges *)

(** An element with at least one byte whose end is a 32-bit number. *)
Definition in_file (e : element) : Prop := 0 <= offset e /\ 0 < size e /\ offset e + size e < 2 ^ 32.

(** The elements share a byte. *)
Definition share (n e : element) : Prop :=
  exists i, offset n <= i < offset n + size n /\ offset e <= i < offset e + size e.

Lemma end_of_in_file e : in_file e -> end_of e = offset e + size e.
Proof. intros (? & ? & ?). apply uw_id. unfold in_uw. lia. Qed.

(** The three tests together are exact. *)
Lemma overlaps_share n e : in_file n -> in_file e -> overlaps n e = true <-> share n e.
Proof.
  intros Hn He. unfold overlaps. rewrite !end_of_in_file by done.
  destruct Hn as (? & ? & ?), He as (? & ? & ?).
  rewrite !orb_true_iff, !andb_true_iff, !Z.leb_le, !Z.ltb_lt. split.
  - intros Hov. exists (Z.max (offset n) (offset e)). lia.
  - intros (i & Hi). lia.
Qed.

Lemma insert_refused n l :
  insert_element n l = None -> exists e, e ∈ l /\ overlaps n e = true.
Proof.
  induction l as [|e l IH]; simpl; [done|].
  destruct (overlaps n e) eqn:Ho; [intros _; exists e; split; [left|done]|].
  destruct (match l with [] => _ | _ => _ end); [done|].
  intros H. apply bind_None in H as [H|(l' & _ & H)]; [|done].
  destruct (IH H) as (e' & Hin & He'). exists e'. split; [by right|done].
Qed.

Lemma insert_Permutation n l l' : insert_element n l = Some l' -> l' ≡ₚ n :: l.
Proof.
  revert l'. induction l as [|e l IH]; intros l'; simpl; [by intros [= <-]|].
  destruct (overlaps n e); [done|].
  destruct (match l with [] => _ | _ => _ end); [by intros [= <-]|].
  intros (l2 & H & [= <-])%bind_Some. rewrite (IH l2 H). apply Permutation_swap.
Qed.

Lemma check_non_empty head n :
  in_file n ->
  check_overlaping_element head n =
  match insert_element n head with
  | Some l => (CHECK_GOOD, l) | None => (CHECK_BAD, head)
  end.
Proof.
  intros (_ & Hs & _). unfold check_overlaping_element.
  destruct (Z.eqb_spec (size n) 0); [lia|]. by destruct head.
Qed.

(** An element that is refused shares a byte with one on the list, which is
    not changed; one that is accepted is on the list afterwards. *)
Theorem overlap_answers head n :
  Forall in_file head -> in_file n ->
  match check_overlaping_element head n with
  | (CHECK_BAD, l) => l = head /\ exists e, e ∈ head /\ share n e
  | (CHECK_GOOD, l) => l ≡ₚ n :: head
  end.
Proof.
  intros Hhead Hn. rewrite check_non_empty by done.
  destruct (insert_element n head) as [l|] eqn:Hi; [by apply insert_Permutation|].
  split; [done|]. apply insert_refused in Hi as (e & He & Ho). exists e. split; [done|].
  rewrite Forall_forall in Hhead. apply overlaps_share; auto.
Qed.

(** ** Elements in ascending order *)

(** Behind all others, an element is compared with each of them. *)
Lemma insert_last n l :
  in_file n -> Forall in_file l -> Forall (fun e => offset e <= offset n) l ->
  insert_element n l = if existsb (overlaps n) l then None else Some (l ++ [n]).
Proof.
  intros Hn Hl Hle. induction l as [|e l IH]; simpl; [done|].
  inversion_clear Hl. inversion Hle as [|?? _ Hle']; subst.
  destruct (overlaps n e); simpl; [done|]. rewrite IH by done.
  replace (match l with [] => false | e' :: _ => end_of n <=? offset e' end) with false.
  { by destruct (existsb (overlaps n) l). }
  symmetry. destruct l as [|e' l]; [done|]. apply Z.leb_gt. rewrite end_of_in_file by done.
  inversion_clear Hle'. destruct Hn as (? & ? & ?). lia.
Qed.

Lemma existsb_share n l :
  in_file n -> Forall in_file l ->
  existsb (overlaps n) l = false <-> Forall (fun e => ~ share n e) l.
Proof.
  intros Hn Hl. induction Hl as [|e l He Hl IH]; simpl.
  { split; [by constructor|done]. }
  rewrite orb_false_iff, Forall_cons, IH, <- (overlaps_share n e) by done.
  by rewrite not_true_iff_false.
Qed.

(** [P] holds of each element and every later one. *)
Definition pairwise (P : element -> element -> Prop) (l : list element) : Prop :=
  forall i j a b, (i < j)%nat -> l !! i = Some a -> l !! j = Some b -> P a b.

Lemma pairwise_before P head n l :
  pairwise P (head ++ n :: l) -> Forall (fun e => P e n) head.
Proof.
  intros H. apply Forall_lookup. intros i e Hi.
  apply (H i (length head)); [by eapply lookup_lt_Some| |].
  - rewrite lookup_app_l; [done|by eapply lookup_lt_Some].
  - by rewrite list_lookup_middle.
Qed.

Lemma pairwise_snoc P head n :
  pairwise P head -> Forall (fun e => P e n) head -> pairwise P (head ++ [n]).
Proof.
  intros H Hn i j a b Hij Hi Hj. rewrite Forall_lookup in Hn.
  apply lookup_lt_Some in Hj as Hlt. rewrite length_app in Hlt. simpl in Hlt.
  rewrite lookup_app_l in Hi by lia.
  destruct (decide (j < length head)%nat).
  - rewrite lookup_app_l in Hj by done. by apply (H i j).
  - replace j with (length head) in Hj by lia. rewrite list_lookup_middle in Hj by done.
    injection Hj as <-. by eapply Hn.
Qed.

Definition ascending : list element -> Prop := pairwise (fun a b => offset a <= offset b).
Definition apart : list element -> Prop := pairwise (fun a b => ~ share b a).

Lemma check_ascending head l :
  Forall in_file (head ++ l) -> ascending (head ++ l) -> apart head ->
  fst (check_elements head l) = CHECK_GOOD <-> apart (head ++ l).
Proof.
  revert head. induction l as [|n l IH]; intros head Hf Ha Hap; simpl; [by rewrite app_nil_r|].
  pose proof (pairwise_before _ _ _ _ Ha) as Hbefore.
  apply Forall_app in Hf as Hf'. destruct Hf' as [Hhead [Hn Hl]%Forall_cons].
  rewrite check_non_empty, insert_last by done.
  destruct (existsb (overlaps n) head) eqn:He.
  - split; [done|]. intros H%pairwise_before. apply existsb_share in H; [congruence|done..].
  - apply existsb_share in He; [|done..]. cbn [fst].
    specialize (IH (head ++ [n])). rewrite <- app_assoc in IH. simpl in IH.
    apply IH; [done|done|]. by apply pairwise_snoc.
Qed.

(** C29: When the elements come in ascending order of their offsets, the file is
    accepted exactly when no two of them share a byte. *)
Theorem ascending_elements_exact l :
  Forall in_file l -> ascending l ->
  fst (check_elements [] l) = CHECK_GOOD <-> apart l.
Proof. intros Hf Ha. apply (check_ascending []); [done|done|]. intros i j a b _ [=]. Qed.

(** ** Elements in the order of a file *)

(** The headers, a section and its relocation entries, and two more sections,
    the last of them inside of the first. *)
Definition example_elements : list element :=
  [mk_element 0 100 "headers"; mk_element 100 100 "section contents";
   mk_element 1000 16 "relocation entries"; mk_element 200 50 "section contents";
   mk_element 150 30 "section contents"].

(** The element between two others goes in front of the wrong one, the list
    loses its order, and the overlap is not seen. *)
Theorem overlap_missed :
  fst (check_elements [] example_elements) = CHECK_GOOD /\
  offset <$> snd (check_elements [] (take 4 example_elements)) = [0; 200; 100; 1000] /\
  share (mk_element 150 30 "section contents") (mk_element 100 100 "section contents").
Proof.
  split; [reflexivity|]. split; [reflexivity|]. exists 150. simpl. lia.
Qed.

Lemma ascending_elements_exact_witness :
  fst (check_elements [] [mk_element 0 100 "headers"; mk_element 100 100 "section contents";
    mk_element 150 30 "section contents"]) = CHECK_GOOD <->
  apart [mk_element 0 100 "headers"; mk_element 100 100 "section contents";
    mk_element 150 30 "section contents"].
Proof.
  apply ascending_elements_exact.
  - repeat constructor; simpl; lia.
  - intros i j a b Hij Hi Hj.
    destruct i as [|[|[|?]]], j as [|[|[|?]]]; simplify_eq/=; lia.
Defined.

Lemma overlap_answers_witness :
  match check_overlaping_element [mk_element 0 100 "headers"] (mk_element 50 10 "symbol table") with
  | (CHECK_BAD, l) => l = [mk_element 0 100 "headers"] /\
      exists e, e ∈ [mk_element 0 100 "headers"] /\ share (mk_element 50 10 "symbol table") e
  | (CHECK_GOOD, l) => l ≡ₚ [mk_element 50 10 "symbol table"; mk_element 0 100 "headers"]
  end.
Proof. apply overlap_answers; repeat constructor; simpl; lia. Defined.
