(* ===== verification/TrieBuild.v ===== *)
(** * mach_o/ExportsTrie.cpp: building an export trie

    [GenericTrie] and [ExportsTrie] of the linker.  The nodes are those of the
    vector [allNodes] and a pointer to a node is its index in it.  A
    [std::string_view] is the list of its bytes; all of them are views of
    strings that a NUL ends, which is what [*data()] of an empty view reads. *)

From Stdlib Require Import ZArith Lia Bool.
From Stdlib Require Import Init.Byte.
From stdpp Require Import base option numbers list.
From S2P Require Import Prelude CInt.

#[export] Instance byte_eq_dec : EqDecision byte := Byte.byte_eq_dec.

(** ** The data *)

(** [terminalStride] is the place of the payload in the terminal buffer. *)
Record WriterEntry := {
  we_name : list byte;
  we_offset : Z;
  we_size : Z;
}.

Record Edge := {
  partialString : list byte;
  child : nat;
}.

Record Node := {
  cummulativeString : list byte;
  children : list Edge;
  terminalEntry : WriterEntry;
  trieOffset : Z;
}.

Definition no_entry : WriterEntry := {| we_name := []; we_offset := 0; we_size := 0 |}.

Definition new_node (s : list byte) : Node :=
  {| cummulativeString := s; children := []; terminalEntry := no_entry; trieOffset := 0 |}.

Definition set_node_children (es : list Edge) (nd : Node) : Node :=
  {| cummulativeString := cummulativeString nd; children := es;
     terminalEntry := terminalEntry nd; trieOffset := trieOffset nd |}.

Definition set_trieOffset (o : Z) (nd : Node) : Node :=
  {| cummulativeString := cummulativeString nd; children := children nd;
     terminalEntry := terminalEntry nd; trieOffset := o |}.

(** How building ends without a trie: the error of [addEntry], an exception of
    [substr], a pointer to no node, the assertion of [buildTrieBytes]; the
    last one is for loops that take more rounds than the fuel. *)
Inductive build_failure :=
  | Duplicate_symbol (name : list byte)
  | Out_of_range
  | Dangling
  | Offset_mismatch
  | Build_fuel.

(** ** Numbers and strings *)

Fixpoint uleb128_size_loop (fuel : nat) (value result : Z) : Z :=
  match fuel with
  | O => result
  | S f =>
      let value := Z.shiftr value 7 in
      let result := u32 (result + 1) in
      if negb (value =? 0) then uleb128_size_loop f value result else result
  end.

(** Ten rounds shift any 64-bit value out. *)
Definition uleb128_size (value : Z) : Z := uleb128_size_loop 10 value 0.

Fixpoint append_uleb128_loop (fuel : nat) (value : Z) (out : list byte) : list byte :=
  match fuel with
  | O => out
  | S f =>
      let byte := Z.land value 0x7f in
      let value := Z.land value (u64 (Z.lnot 0x7f)) in
      let byte := if negb (value =? 0) then Z.lor byte 0x80 else byte in
      let out := out ++ [byte_of byte] in
      let value := Z.shiftr value 7 in
      if 0x80 <=? byte then append_uleb128_loop f value out else out
  end.

Definition append_uleb128 (value : Z) (out : list byte) : list byte :=
  append_uleb128_loop 10 value out.

Definition append_string (str out : list byte) : list byte := (out ++ str) ++ [x00].

(** ** Entries *)

Record Export := {
  ex_name : list byte;
  ex_offset : Z;
  ex_flags : Z;
  ex_other : Z;
  ex_importName : list byte;
}.

Definition EXPORT_SYMBOL_FLAGS_REEXPORT : Z := 0x08.
Definition EXPORT_SYMBOL_FLAGS_STUB_AND_RESOLVER : Z := 0x10.

Definition has_flag (flags f : Z) : bool := negb (Z.land flags f =? 0).

(** The entry and the terminal buffer behind it. *)
Definition exportToEntry (exportInfo : Export) (temp : list byte) : WriterEntry * list byte :=
  let tempStartLen := Z.of_nat (length temp) in
  let temp' :=
    if negb (bool_decide (ex_name exportInfo = [])) then
      if has_flag (ex_flags exportInfo) EXPORT_SYMBOL_FLAGS_REEXPORT then
        let importName :=
          if bool_decide (ex_importName exportInfo = ex_name exportInfo) then []
          else ex_importName exportInfo in
        append_string importName
          (append_uleb128 (ex_other exportInfo) (append_uleb128 (ex_flags exportInfo) temp))
      else if has_flag (ex_flags exportInfo) EXPORT_SYMBOL_FLAGS_STUB_AND_RESOLVER then
        append_uleb128 (ex_other exportInfo)
          (append_uleb128 (ex_offset exportInfo) (append_uleb128 (ex_flags exportInfo) temp))
      else
        append_uleb128 (ex_offset exportInfo) (append_uleb128 (ex_flags exportInfo) temp)
    else temp in
  ({| we_name := ex_name exportInfo;
      we_offset := u32 tempStartLen;
      we_size := u32 (Z.of_nat (length temp') - tempStartLen) |}, temp').

(** [payload]: the span may not leave the buffer. *)
Definition payload (e : WriterEntry) (terminalBuffer : list byte) : list byte :=
  take (Z.to_nat (we_size e)) (drop (Z.to_nat (we_offset e)) terminalBuffer).

(** ** addEntry *)

(** [*s.data()] *)
Definition first_char (s : list byte) : byte := match s with [] => x00 | b :: _ => b end.

Definition starts_with (s p : list byte) : bool := bool_decide (p `prefix_of` s).

(** The loop over [len], from [len] down to 1: the longest common prefix. *)
Fixpoint splice_length (len : nat) (partial tail : list byte) : option nat :=
  match len with
  | O => None
  | S l => if bool_decide (take len partial = take len tail) then Some len
           else splice_length l partial tail
  end.

Inductive edge_choice :=
  | Descend (k : nat) (e : Edge)
  | Splice (k : nat) (e : Edge) (len : nat)
  | No_edge.

(** The loop over [children], which returns at the first edge that shares a
    prefix with [tail]; [k] is the index of the edge. *)
Fixpoint scan_edges (tail : list byte) (es : list Edge) (k : nat) : edge_choice :=
  match es with
  | [] => No_edge
  | edge :: es' =>
      if negb (Byte.eqb (first_char (partialString edge)) (first_char tail))
      then scan_edges tail es' (S k)
      else if starts_with tail (partialString edge) then Descend k edge
      else
        match splice_length (length (partialString edge) - 1) (partialString edge) tail with
        | Some len => Splice k edge len
        | None => scan_edges tail es' (S k)
        end
  end.

(** [fuel] bounds the depth of the recursion. *)
Fixpoint addEntry (fuel : nat) (allNodes : list Node) (this : nat) (newEntry : WriterEntry)
    : outcome build_failure (list Node) :=
  match fuel with
  | O => Stop Build_fuel
  | S f =>
      nd ← or_stop Dangling (allNodes !! this);
      let pos := length (cummulativeString nd) in
      if (length (we_name newEntry) <? pos)%nat then Stop Out_of_range
      else
        let tail := drop pos (we_name newEntry) in
        match scan_edges tail (children nd) 0 with
        | Descend _ edge => addEntry f allNodes (child edge) newEntry
        | Splice k edge len =>
            let bNode := child edge in
            let cNode := length allNodes in
            let acEdge := {| partialString := take len (partialString edge); child := cNode |} in
            let cbEdge := {| partialString := drop len (partialString edge); child := bNode |} in
            let allNodes := allNodes ++ [new_node (take (pos + len) (we_name newEntry))] in
            let allNodes := <[this := set_node_children (<[k := acEdge]> (children nd)) nd]> allNodes in
            let allNodes := alter (fun c => set_node_children (children c ++ [cbEdge]) c) cNode allNodes in
            addEntry f allNodes cNode newEntry
        | No_edge =>
            if bool_decide (tail = []) && negb (we_size (terminalEntry nd) =? 0)
            then Stop (Duplicate_symbol (we_name newEntry))
            else
              let newNode :=
                {| cummulativeString := we_name newEntry; children := [];
                   terminalEntry := newEntry; trieOffset := 0 |} in
              let newEdge := {| partialString := tail; child := length allNodes |} in
              Ret (<[this := set_node_children (children nd ++ [newEdge]) nd]> (allNodes ++ [newNode]))
        end
  end.

(** Two rounds more than the name has characters are enough. *)
Definition start_addEntry (allNodes : list Node) (newEntry : WriterEntry) :=
  addEntry (length (we_name newEntry) + 2) allNodes 0 newEntry.

(** The first loop of [buildTrieBytes], with the getter of the constructor of
    [ExportsTrie]: an entry and what it appends to the terminal buffer. *)
Fixpoint add_exports (exports : list Export) (temp : list byte) (allNodes : list Node)
    : outcome build_failure (list byte * list Node) :=
  match exports with
  | [] => Ret (temp, allNodes)
  | x :: exports' =>
      let '(newEntry, temp) := exportToEntry x temp in
      allNodes ← start_addEntry allNodes newEntry;
      add_exports exports' temp allNodes
  end.

Definition start_nodes : list Node := [new_node []].

(** ** Offsets *)

(** The size of the node: its terminal payload and its edges. *)
Fixpoint edges_size (allNodes : list Node) (es : list Edge) (nodeSize : Z)
    : outcome build_failure Z :=
  match es with
  | [] => Ret nodeSize
  | edge :: es' =>
      c ← or_stop Dangling (allNodes !! child edge);
      edges_size allNodes es'
        (u32 (nodeSize +
              u64 (Z.of_nat (length (partialString edge)) + 1 + uleb128_size (trieOffset c))))
  end.

Definition terminal_size (nd : Node) : Z :=
  if negb (bool_decide (we_name (terminalEntry nd) = [])) then
    let nodeSize := we_size (terminalEntry nd) in
    u32 (nodeSize + uleb128_size nodeSize)
  else 1.

(** The nodes, [curOffset] behind the node, and whether its offset changed. *)
Definition updateOffset (allNodes : list Node) (this : nat) (curOffset : Z)
    : outcome build_failure (list Node * Z * bool) :=
  nd ← or_stop Dangling (allNodes !! this);
  nodeSize ← edges_size allNodes (children nd) (u32 (terminal_size nd + 1));
  let result := negb (trieOffset nd =? curOffset) in
  Ret (<[this := set_trieOffset curOffset nd]> allNodes, u32 (curOffset + nodeSize), result).

(** One round of the loop that gives the nodes offsets: over the nodes from
    [this] on, [n] of them. *)
Fixpoint update_offsets (n : nat) (allNodes : list Node) (this : nat) (curOffset : Z) (more : bool)
    : outcome build_failure (list Node * bool) :=
  match n with
  | O => Ret (allNodes, more)
  | S n' =>
      '(allNodes, curOffset, changed) ← updateOffset allNodes this curOffset;
      update_offsets n' allNodes (S this) curOffset (if changed : bool then true else more)
  end.

Fixpoint assign_offsets (fuel : nat) (allNodes : list Node) : outcome build_failure (list Node) :=
  match fuel with
  | O => Stop Build_fuel
  | S f =>
      '(allNodes, more) ← update_offsets (length allNodes) allNodes 0 0 false;
      if more : bool then assign_offsets f allNodes else Ret allNodes
  end.

Definition count_edges (allNodes : list Node) : nat :=
  sum_list_with (fun nd => length (children nd)) allNodes.

(** ** The stream *)

Fixpoint append_edges (allNodes : list Node) (es : list Edge) (out : list byte)
    : outcome build_failure (list byte) :=
  match es with
  | [] => Ret out
  | e :: es' =>
      c ← or_stop Dangling (allNodes !! child e);
      append_edges allNodes es' (append_uleb128 (trieOffset c) (append_string (partialString e) out))
  end.

(** The number of children is converted to a byte. *)
Definition appendToStream (allNodes : list Node) (terminalBuffer : list byte) (nd : Node)
    (out : list byte) : outcome build_failure (list byte) :=
  let out :=
    if negb (bool_decide (we_name (terminalEntry nd) = [])) then
      append_uleb128 (we_size (terminalEntry nd)) out ++ payload (terminalEntry nd) terminalBuffer
    else out ++ [x00] in
  let out := out ++ [byte_of (u8 (Z.of_nat (length (children nd))))] in
  append_edges allNodes (children nd) out.

(** The loop over the nodes with its assertion. *)
Fixpoint append_nodes (allNodes : list Node) (terminalBuffer : list byte) (nds : list Node)
    (out : list byte) : outcome build_failure (list byte) :=
  match nds with
  | [] => Ret out
  | nd :: nds' =>
      if trieOffset nd =? Z.of_nat (length out) then
        out ← appendToStream allNodes terminalBuffer nd out;
        append_nodes allNodes terminalBuffer nds' out
      else Stop Offset_mismatch
  end.

(** Zeros up to a multiple of 8. *)
Definition pad8 (out : list byte) : list byte :=
  out ++ repeat x00 ((8 - length out mod 8) mod 8)%nat.

(** Every round that changes an offset makes an edge longer, and an edge takes
    one to five bytes for its offset, so that four rounds for an edge and two
    more are enough. *)
Definition buildTrieBytes (exports : list Export) : outcome build_failure (list byte) :=
  '(temp, allNodes) ← add_exports exports [] start_nodes;
  allNodes ← assign_offsets (4 * count_edges allNodes + 2) allNodes;
  out ← append_nodes allNodes temp allNodes [];
  Ret (pad8 out).
