(* ===== verification/TrieTree.v ===== *)
(** * The tree behind the nodes of an export trie

    The vector [allNodes] with its pointers represents a tree: [rep] says so,
    and the theorems show that [addEntry] keeps it one, adds one terminal
    node, and reports a duplicate exactly when the name is there already. *)

From Stdlib Require Import ZArith Lia Bool.
From Stdlib Require Import Init.Byte.
From stdpp Require Import base option numbers list.
From S2P Require Import Prelude CInt TrieBuild.

(** ** Trees *)

(** A node of the tree: the index of its node, and the edges. *)
Inductive tree := T (i : nat) (ks : list (list byte * tree)).

Lemma tree_ind' (P : tree -> Prop) :
  (forall i ks, (forall s t, (s, t) ∈ ks -> P t) -> P (T i ks)) -> forall t, P t.
Proof.
  intros HT. fix IH 1. intros [i ks]. apply HT.
  assert (Hall : Forall (fun st => P st.2) ks).
  { induction ks as [|[s t] ks IHks]; constructor; [apply IH|exact IHks]. }
  intros s t Hin. by apply (proj1 (Forall_forall _ _) Hall (s, t)).
Qed.

Definition root (t : tree) : nat := match t with T i _ => i end.
Definition kids (t : tree) : list (list byte * tree) := match t with T _ ks => ks end.

Fixpoint ids (t : tree) : list nat :=
  match t with T i ks => i :: flat_map (fun st => ids (snd st)) ks end.

Definition kids_ids (ks : list (list byte * tree)) : list nat :=
  flat_map (fun st => ids (snd st)) ks.

Lemma ids_T i ks : ids (T i ks) = i :: kids_ids ks.
Proof. done. Qed.

Lemma kids_ids_app ks1 ks2 : kids_ids (ks1 ++ ks2) = kids_ids ks1 ++ kids_ids ks2.
Proof. apply flat_map_app. Qed.

Lemma kids_ids_cons st ks : kids_ids (st :: ks) = ids st.2 ++ kids_ids ks.
Proof. done. Qed.

Lemma elem_of_kids_ids j ks : j ∈ kids_ids ks <-> exists s t, (s, t) ∈ ks /\ j ∈ ids t.
Proof.
  unfold kids_ids. rewrite list_elem_of_In, in_flat_map. split.
  - intros ([s t] & Hin%list_elem_of_In & Hj%list_elem_of_In). eauto.
  - intros (s & t & Hin%list_elem_of_In & Hj%list_elem_of_In). exists (s, t). eauto.
Qed.

Lemma root_in_ids t : root t ∈ ids t.
Proof. destruct t; simpl; left. Qed.

Lemma kid_in_ids i ks s t j : (s, t) ∈ ks -> j ∈ ids t -> j ∈ ids (T i ks).
Proof. intros. rewrite ids_T. right. apply elem_of_kids_ids. eauto. Qed.

(** ** The vector represents the tree *)

Definition edge_of (st : list byte * tree) : Edge :=
  {| partialString := st.1; child := root st.2 |}.

(** A node is terminal when it has an entry, which has the node's own name. *)
Definition entry_ok (nd : Node) : Prop :=
  terminalEntry nd = no_entry \/
  (we_name (terminalEntry nd) = cummulativeString nd /\ cummulativeString nd <> [] /\
   we_size (terminalEntry nd) <> 0).

Definition terminal (nd : Node) : Prop := we_name (terminalEntry nd) <> [].

#[export] Instance terminal_dec nd : Decision (terminal nd) := not_dec _.

(** A NUL ends a name, and a count of children is below 256 as long as one more
    character does not occur; UTF-8 has no 0xff. *)
Definition name_chars (s : list byte) : Prop := Forall (fun b => b <> x00 /\ b <> xff) s.

Lemma name_chars_nul s : name_chars s -> x00 ∉ s.
Proof. intros Hs Hx. by destruct (proj1 (Forall_forall _ _) Hs _ Hx). Qed.

Lemma name_chars_app s1 s2 : name_chars (s1 ++ s2) <-> name_chars s1 /\ name_chars s2.
Proof. apply Forall_app. Qed.

(** Edges have different first characters; an edge without characters is the
    one to the entry of the node's name. *)
Record node_ok (H : list Node) (c : list byte) (ks : list (list byte * tree)) (nd : Node) : Prop := {
  ok_string : cummulativeString nd = c;
  ok_children : children nd = edge_of <$> ks;
  ok_heads : NoDup (first_char ∘ fst <$> ks);
  ok_entry : entry_ok nd;
  ok_chars : forall s t, (s, t) ∈ ks -> name_chars s;
  ok_leaf : forall t, ([], t) ∈ ks ->
    kids t = [] /\ exists nd', H !! root t = Some nd' /\ terminal nd';
}.

Fixpoint rep (H : list Node) (c : list byte) (t : tree) : Prop :=
  match t with
  | T i ks =>
      (exists nd, H !! i = Some nd /\ node_ok H c ks nd) /\
      (fix all ks := match ks with
                     | [] => True
                     | (s, t') :: ks' => rep H (c ++ s) t' /\ all ks'
                     end) ks
  end.

Lemma rep_T H c i ks :
  rep H c (T i ks) <->
  (exists nd, H !! i = Some nd /\ node_ok H c ks nd) /\
  (forall s t, (s, t) ∈ ks -> rep H (c ++ s) t).
Proof.
  simpl. apply and_iff_compat_l. generalize ks. clear.
  induction ks as [|[s t] ks IH]; split.
  - intros _ s t Hin. by apply elem_of_nil in Hin.
  - done.
  - intros [Ht Hks] s' t' [[= -> ->]|Hin]%elem_of_cons; [done|].
    by apply IH.
  - intros Hall. split; [apply Hall; left|]. apply IH. intros. apply Hall. by right.
Qed.

Lemma rep_kid H c i ks s t : rep H c (T i ks) -> (s, t) ∈ ks -> rep H (c ++ s) t.
Proof. intros [_ Hr]%rep_T Hin. by apply Hr. Qed.

(** Only the nodes of the tree matter. *)
Lemma rep_frame H H' c t :
  (forall j, j ∈ ids t -> H' !! j = H !! j) -> rep H c t -> rep H' c t.
Proof.
  revert c. induction t as [i ks IH] using tree_ind'. intros c Hf [(nd & Hi & Hok) Hks]%rep_T.
  apply rep_T. split.
  - exists nd. rewrite Hf by (simpl; left). split; [done|]. destruct Hok. split; try done.
    intros t Hin. destruct (ok_leaf0 t Hin) as (Hk & nd' & Hnd' & Ht). split; [done|].
    exists nd'. rewrite Hf; [done|]. eapply kid_in_ids; [done|apply root_in_ids].
  - intros s t Hin. eapply IH; [done| |by apply Hks].
    intros j Hj. apply Hf. by eapply kid_in_ids.
Qed.

Lemma rep_lookup H c t j : rep H c t -> j ∈ ids t -> (j < length H)%nat.
Proof.
  revert c. induction t as [i ks IH] using tree_ind'. intros c [(nd & Hi & _) Hks]%rep_T.
  rewrite ids_T. intros [->|(s & t & Hin & Hj)%elem_of_kids_ids]%elem_of_cons.
  - by eapply lookup_lt_Some.
  - by eapply IH; [|apply Hks|].
Qed.

(** The entries below a node have names that begin with the node's. *)
Lemma rep_prefix H c t j nd :
  rep H c t -> j ∈ ids t -> H !! j = Some nd -> terminal nd ->
  c `prefix_of` we_name (terminalEntry nd).
Proof.
  revert c. induction t as [i ks IH] using tree_ind'.
  intros c [(nd' & Hi & Hok) Hks]%rep_T Hj Hnd Ht. rewrite ids_T in Hj.
  apply elem_of_cons in Hj as [->|(s & t & Hin & Hj)%elem_of_kids_ids].
  - assert (nd' = nd) as -> by congruence. destruct Hok as [Hc _ _ [He|(He & _)] _ _].
    + unfold terminal in Ht. by rewrite He in Ht.
    + by rewrite He, Hc.
  - etrans; [|eapply IH; [done|by apply Hks|done..]]. by exists s.
Qed.

Lemma first_char_prefix s tail : s <> [] -> s `prefix_of` tail -> first_char s = first_char tail.
Proof. intros Hs [k ->]. by destruct s. Qed.

Lemma first_char_nul s : x00 ∉ s -> first_char s = x00 -> s = [].
Proof. destruct s as [|b s]; [done|]. simpl. intros Hn ->. destruct Hn. left. Qed.

(** An entry is not below an edge that begins with another character. *)
Lemma other_edge H c i ks s t tail j nd :
  rep H c (T i ks) -> (s, t) ∈ ks -> x00 ∉ tail -> c ++ tail <> [] ->
  first_char s <> first_char tail -> j ∈ ids t -> H !! j = Some nd ->
  we_name (terminalEntry nd) <> c ++ tail.
Proof.
  intros Hr Hin Ht Hne Hfc Hj Hnd Heq. pose proof (rep_kid _ _ _ _ _ _ Hr Hin) as Hrk.
  assert (Hterm : terminal nd) by (unfold terminal; by rewrite Heq).
  pose proof (rep_prefix _ _ _ _ _ Hrk Hj Hnd Hterm) as Hp. rewrite Heq in Hp.
  apply prefix_app_inv in Hp. destruct (decide (s = [])) as [->|Hs].
  - apply rep_T in Hr as [(nd0 & _ & Hok) _].
    destruct (ok_leaf _ _ _ _ Hok t Hin) as (Hk & _).
    destruct t as [it kt]. simpl in Hk. subst kt. simpl in Hj.
    apply list_elem_of_singleton in Hj as ->.
    apply rep_T in Hrk as [(nd' & Hnd' & Hok') _]. assert (nd' = nd) as -> by congruence.
    destruct Hok' as [Hc _ _ [He|(He & _)] _ _].
    + unfold terminal in Hterm. by rewrite He in Hterm.
    + rewrite He, Hc, app_nil_r in Heq. assert (tail = []) as ->; [|done].
      apply (app_inv_head c). by rewrite <- Heq, app_nil_r.
  - by apply Hfc, first_char_prefix.
Qed.

(** ** The choice of an edge *)

Lemma byte_eqb_true a b : Byte.eqb a b = true <-> a = b.
Proof.
  split; [apply Byte.byte_dec_bl|apply Byte.byte_dec_lb].
Qed.

Lemma byte_eqb_false a b : Byte.eqb a b = false <-> a <> b.
Proof. rewrite <- byte_eqb_true. by destruct (Byte.eqb a b). Qed.

Lemma splice_length_Some len p tail n :
  splice_length len p tail = Some n -> (0 < n <= len)%nat /\ take n p = take n tail.
Proof.
  induction len as [|len IH]; simpl; [done|]. case_bool_decide.
  - intros [= <-]. split; [lia|done].
  - intros [? ?]%IH. split; [lia|done].
Qed.

Lemma splice_length_None len p tail n :
  splice_length len p tail = None -> (0 < n <= len)%nat -> take n p <> take n tail.
Proof.
  induction len as [|len IH]; simpl; [lia|]. case_bool_decide; [done|]. intros HN Hn.
  destruct (decide (n = S len)) as [->|]; [done|]. apply IH; [done|lia].
Qed.

(** An edge that begins like [tail] has a prefix in common with it. *)
Lemma splice_length_found p tail :
  x00 ∉ p -> first_char p = first_char tail -> ~ p `prefix_of` tail ->
  is_Some (splice_length (length p - 1) p tail).
Proof.
  intros Hp Hfc Hpre. destruct (splice_length _ _ _) as [n|] eqn:E; [done|].
  destruct p as [|b p]; [destruct Hpre; apply prefix_nil|].
  destruct tail as [|b' tail]; simpl in Hfc; subst.
  { destruct Hp. left. }
  destruct p as [|b p].
  { destruct Hpre. by exists tail. }
  by apply splice_length_None with (n := 1%nat) in E; [|simpl; lia].
Qed.

Inductive scan_spec (tail : list byte) (es : list Edge) (k0 : nat) : edge_choice -> Prop :=
  | scan_descend l1 e l2 :
      es = l1 ++ e :: l2 -> partialString e `prefix_of` tail ->
      first_char (partialString e) = first_char tail ->
      scan_spec tail es k0 (Descend (k0 + length l1) e)
  | scan_splice l1 e l2 len :
      es = l1 ++ e :: l2 -> (0 < len < length (partialString e))%nat ->
      take len (partialString e) = take len tail ->
      first_char (partialString e) = first_char tail ->
      scan_spec tail es k0 (Splice (k0 + length l1) e len)
  | scan_none :
      (forall e, e ∈ es -> first_char (partialString e) <> first_char tail) ->
      scan_spec tail es k0 No_edge.

Lemma scan_edges_spec tail es k0 :
  (forall e, e ∈ es -> x00 ∉ partialString e) -> scan_spec tail es k0 (scan_edges tail es k0).
Proof.
  revert k0. induction es as [|e es IH]; intros k0 Hes; simpl.
  { apply scan_none. intros e He. by apply elem_of_nil in He. }
  destruct (Byte.eqb _ _) eqn:Hfc; simpl.
  - apply byte_eqb_true in Hfc. unfold starts_with. case_bool_decide as Hpre.
    + pose proof (scan_descend tail (e :: es) k0 [] e es) as Hd. rewrite Nat.add_0_r in Hd.
      by apply Hd.
    + destruct (splice_length_found (partialString e) tail) as [len Hlen]; [apply Hes; left|done..|].
      rewrite Hlen. apply splice_length_Some in Hlen as [Hlen Htake].
      pose proof (scan_splice tail (e :: es) k0 [] e es) as Hs. rewrite Nat.add_0_r in Hs.
      apply Hs; [done|lia|done..].
  - apply byte_eqb_false in Hfc.
    destruct (IH (S k0)) as [l1 e' l2 -> Hp Hf|l1 e' l2 len -> Hl Ht Hf|Hno].
    + intros. apply Hes. by right.
    + rewrite Nat.add_succ_comm. by apply (scan_descend _ _ _ (e :: l1) e' l2).
    + rewrite Nat.add_succ_comm. by apply (scan_splice _ _ _ (e :: l1) e' l2 len).
    + apply scan_none. intros e' [->|He]%elem_of_cons; [done|by apply Hno].
Qed.

(** Of the list of the edges of a tree, the one of the choice. *)
Lemma fmap_split {A B} (f : A -> B) (ks : list A) l1 e l2 :
  f <$> ks = l1 ++ e :: l2 ->
  exists k1 x k2, ks = k1 ++ x :: k2 /\ e = f x /\ length k1 = length l1.
Proof.
  intros (k1 & k2' & -> & (x & k2 & -> & -> & ->)%eq_sym%fmap_cons_inv & ->)%fmap_app_inv.
  exists k1, x, k2. by rewrite length_fmap.
Qed.

(** ** addEntry keeps the tree *)

(** What an added entry does to the tree [t] of the nodes [H]. *)
Record grown (H H' : list Node) (c : list byte) (t t' : tree) : Prop := {
  grown_rep : rep H' c t';
  grown_root : root t' = root t;
  grown_length : (length H <= length H')%nat;
  grown_ids : ids t' ≡ₚ ids t ++ seq (length H) (length H' - length H);
  grown_frame : forall j, (j < length H)%nat -> j ∉ ids t -> H' !! j = H !! j;
}.

(** An entry of the name below the node. *)
Definition has_name (H : list Node) (t : tree) (name : list byte) : Prop :=
  exists j nd, j ∈ ids t /\ H !! j = Some nd /\ we_name (terminalEntry nd) = name.

Definition add_post (H : list Node) (c : list byte) (t : tree) (e : WriterEntry)
    (r : outcome build_failure (list Node)) : Prop :=
  match r with
  | Ret H' => ~ has_name H t (we_name e) /\ exists t', grown H H' c t t'
  | Stop (Duplicate_symbol n) => n = we_name e /\ has_name H t (we_name e)
  | Stop _ => False
  end.

Lemma elem_of_middle {A} (x y : A) l1 l2 :
  x ∈ l1 ++ y :: l2 <-> x = y \/ x ∈ l1 ++ l2.
Proof. rewrite !elem_of_app, elem_of_cons. tauto. Qed.

(** An edge to a tree that replaces the one of another. *)
Lemma graft H H' c i ks1 s B ks2 p K nd :
  rep H c (T i (ks1 ++ (s, B) :: ks2)) -> H !! i = Some nd ->
  p <> [] -> p `prefix_of` s -> rep H' (c ++ p) K ->
  H' !! i = Some (set_node_children (edge_of <$> ks1 ++ (p, K) :: ks2) nd) ->
  (forall j, j ∈ kids_ids (ks1 ++ ks2) -> H' !! j = H !! j) ->
  rep H' c (T i (ks1 ++ (p, K) :: ks2)).
Proof.
  intros Hr Hi Hp Hps HK Hi' Hf. apply rep_T in Hr as [(nd' & Hn & Hok) Hks].
  assert (nd' = nd) as -> by congruence.
  assert (Hfr : forall s t j, (s, t) ∈ ks1 ++ ks2 -> j ∈ ids t -> H' !! j = H !! j).
  { intros s' t j Hin Hj. apply Hf, elem_of_kids_ids. eauto. }
  apply rep_T. split.
  - eexists. split; [done|]. destruct Hok as [Hc Hch Hh He Hchars Hleaf]. split; try done.
    + rewrite !fmap_app, !fmap_cons in *. simpl in *.
      replace (first_char p) with (first_char s); [done|].
      symmetry. by apply first_char_prefix.
    + intros s' t [[= -> ->]|Hin]%elem_of_middle.
      * destruct Hps as [q ->]. apply (name_chars_app p q), (Hchars _ B).
        apply elem_of_middle. by left.
      * apply (Hchars s' t). apply elem_of_middle. by right.
    + intros t [[= <- ->]|Hin]%elem_of_middle; [done|].
      destruct (Hleaf t) as (Hk & nd' & Hnd' & Ht); [apply elem_of_middle; by right|].
      split; [done|]. exists nd'. split; [|done].
      rewrite (Hfr _ _ _ Hin (root_in_ids t)). done.
  - intros s' t [[= -> ->]|Hin]%elem_of_middle; [done|].
    apply (rep_frame H); [intros j Hj; by eapply Hfr|].
    apply Hks, elem_of_middle. by right.
Qed.

Lemma ids_graft i ks1 s (B K : tree) ks2 p l :
  ids K ≡ₚ ids B ++ l ->
  ids (T i (ks1 ++ (p, K) :: ks2)) ≡ₚ ids (T i (ks1 ++ (s, B) :: ks2)) ++ l.
Proof.
  intros Hp. rewrite !ids_T, !kids_ids_app, !kids_ids_cons. simpl. rewrite Hp.
  apply perm_skip. rewrite <- !app_assoc. do 2 apply Permutation_app_head.
  apply Permutation_app_comm.
Qed.

(** The names of the entries below a node: its own and those below its edges. *)
Lemma has_name_T H i ks name :
  has_name H (T i ks) name <->
  (exists nd, H !! i = Some nd /\ we_name (terminalEntry nd) = name) \/
  (exists s t, (s, t) ∈ ks /\ has_name H t name).
Proof.
  unfold has_name. split.
  - intros (j & nd & Hj & Hnd & Hname). rewrite ids_T in Hj.
    apply elem_of_cons in Hj as [->|(s & t & Hin & Hj)%elem_of_kids_ids]; [by eauto|].
    right. exists s, t. split; [done|]. by exists j, nd.
  - intros [(nd & Hnd & Hname)|(s & t & Hin & j & nd & Hj & Hnd & Hname)].
    + exists i, nd. split; [left|done].
    + exists j, nd. split; [by eapply kid_in_ids|done].
Qed.

Lemma has_name_frame H H' t name :
  (forall j, j ∈ ids t -> H' !! j = H !! j) -> has_name H' t name <-> has_name H t name.
Proof.
  intros Hf. unfold has_name.
  split; intros (j & nd & Hj & Hnd & Hn); exists j, nd; (split; [done|]).
  - by rewrite <- Hf.
  - by rewrite Hf.
Qed.

(** The node's own entry has the name [c ++ tail] only if [tail] is empty. *)
Lemma own_name H c i ks nd tail :
  rep H c (T i ks) -> H !! i = Some nd -> c ++ tail <> [] ->
  we_name (terminalEntry nd) = c ++ tail -> tail = [] /\ we_size (terminalEntry nd) <> 0.
Proof.
  intros [(nd' & Hn & Hok) _]%rep_T Hi Hne Heq. assert (nd' = nd) as -> by congruence.
  destruct Hok as [Hc _ _ [He|(He & _ & Hs)] _ _].
  - rewrite He in Heq. by destruct Hne.
  - split; [|done]. rewrite He, Hc in Heq. apply (app_inv_head c). by rewrite <- Heq, app_nil_r.
Qed.

(** The cases of [addEntry] share what is known of the node. *)
Section add_cases.
Context (H : list Node) (c : list byte) (i : nat) (ks : list (list byte * tree)) (nd : Node).
Context (e : WriterEntry) (tail : list byte).
Context (Hrep : rep H c (T i ks)) (Hnodup : NoDup (ids (T i ks))) (Hi : H !! i = Some nd).
Context (Hname : we_name e = c ++ tail) (Htail : name_chars tail) (Hne : c ++ tail <> []).
Context (Hsize : we_size e <> 0).

Lemma node_of : node_ok H c ks nd.
Proof.
  destruct (proj1 (rep_T _ _ _ _) Hrep) as [(nd' & Hn & Hok) _].
  by assert (nd' = nd) as -> by congruence.
Qed.

Lemma kids_below j : j ∈ kids_ids ks -> (j < length H)%nat /\ j <> i.
Proof.
  intros Hj. split.
  - eapply rep_lookup; [exact Hrep|]. rewrite ids_T. by right.
  - intros ->. rewrite ids_T in Hnodup. by apply NoDup_cons in Hnodup as [? _].
Qed.

Lemma no_edge_no_name :
  (forall e, e ∈ children nd -> first_char (partialString e) <> first_char tail) ->
  (tail = [] -> we_size (terminalEntry nd) = 0) -> ~ has_name H (T i ks) (we_name e).
Proof.
  intros Hno Hterm. rewrite Hname, has_name_T. intros [(nd' & Hn & Heq)|(s & t & Hin & Hn)].
  - assert (nd' = nd) as -> by congruence.
    destruct (own_name _ _ _ _ _ _ Hrep Hi Hne Heq) as [Ht Hs]. by apply Hs, Hterm.
  - destruct Hn as (j & nd' & Hj & Hnd' & Heq).
    eapply (other_edge H c i ks s t tail j nd'); try done; [by apply name_chars_nul|].
    apply (Hno (edge_of (s, t))). rewrite (ok_children _ _ _ _ node_of).
    by apply list_elem_of_fmap_2.
Qed.

Lemma grown_leaf :
  (forall e, e ∈ children nd -> first_char (partialString e) <> first_char tail) ->
  let newNode := {| cummulativeString := we_name e; children := []; terminalEntry := e;
                    trieOffset := 0 |} in
  let newEdge := {| partialString := tail; child := length H |} in
  grown H (<[i := set_node_children (children nd ++ [newEdge]) nd]> (H ++ [newNode]))
    c (T i ks) (T i (ks ++ [(tail, T (length H) [])])).
Proof.
  intros Hno newNode newEdge. pose proof node_of as Hok.
  assert (Hlt : (i < length H)%nat) by (by eapply lookup_lt_Some).
  set (H' := <[i := _]> (H ++ [newNode])).
  assert (Hf : forall j, (j < length H)%nat -> j <> i -> H' !! j = H !! j).
  { intros j Hj Hji. unfold H'. rewrite list_lookup_insert_ne by done. by apply lookup_app_l. }
  assert (Hnew : H' !! length H = Some newNode).
  { unfold H'. rewrite list_lookup_insert_ne by lia. by apply list_lookup_middle. }
  assert (Hi' : H' !! i = Some (set_node_children (children nd ++ [newEdge]) nd)).
  { unfold H'. apply list_lookup_insert_eq. rewrite length_app. lia. }
  assert (Hleaf : rep H' (c ++ tail) (T (length H) [])).
  { apply rep_T. split.
    - exists newNode. split; [done|]. split; try done.
      + apply NoDup_nil_2.
      + right. simpl. by rewrite Hname.
      + intros s t Hin. by apply elem_of_nil in Hin.
      + intros t Hin. by apply elem_of_nil in Hin.
    - intros s t Hin. by apply elem_of_nil in Hin. }
  split; [|done|..].
  - apply rep_T. split.
    + eexists. split; [exact Hi'|]. destruct Hok as [Hc Hch Hh He Hchars Hl]. split; try done.
      * simpl. by rewrite Hch, fmap_app.
      * rewrite fmap_app. simpl. apply NoDup_app. split; [done|]. split; [|apply NoDup_singleton].
        intros x ([s t] & -> & Hin)%list_elem_of_fmap Hx. apply list_elem_of_singleton in Hx.
        apply (Hno (edge_of (s, t))); [rewrite Hch; by apply list_elem_of_fmap_2|done].
      * intros s t [Hin|[= -> ->]%list_elem_of_singleton]%elem_of_app; [by eapply Hchars|done].
      * intros t [Hin|[= <- ->]%list_elem_of_singleton]%elem_of_app.
        -- destruct (Hl t Hin) as (Hk & nd' & Hnd' & Ht). split; [done|]. exists nd'.
           destruct (kids_below (root t)); [|by rewrite Hf].
           apply elem_of_kids_ids. exists [], t. split; [done|apply root_in_ids].
        -- split; [done|]. exists newNode. split; [done|]. unfold terminal. simpl. by rewrite Hname.
    + intros s t [Hin|[= -> ->]%list_elem_of_singleton]%elem_of_app; [|done].
      apply (rep_frame H); [|by eapply rep_kid].
      intros j Hj. destruct (kids_below j); [|by apply Hf]. apply elem_of_kids_ids. eauto.
  - unfold H'. rewrite length_insert, length_app. lia.
  - unfold H'. rewrite length_insert, length_app, !ids_T, kids_ids_app. simpl.
    by replace (length H + 1 - length H)%nat with 1%nat by lia.
  - intros j Hj Hn. apply Hf; [done|]. intros ->. apply Hn. rewrite ids_T. left.
Qed.
End add_cases.

(** The nodes with a new one spliced into the edge [edge], the [k]-th one of the
    node [i], behind its first [len] characters. *)
Definition splice_nodes (H : list Node) (i : nat) (nd : Node) (k : nat) (edge : Edge)
    (len : nat) (cumm : list byte) : list Node :=
  alter (fun x => set_node_children (children x ++
           [{| partialString := drop len (partialString edge); child := child edge |}]) x) (length H)
    (<[i := set_node_children (<[k := {| partialString := take len (partialString edge);
                                    child := length H |}]> (children nd)) nd]>
      (H ++ [new_node cumm])).

Section splice.
Context (H : list Node) (c : list byte) (i : nat) (ks1 ks2 : list (list byte * tree)).
Context (s : list byte) (B : tree) (nd : Node) (len : nat).
Context (Hrep : rep H c (T i (ks1 ++ (s, B) :: ks2))).
Context (Hnodup : NoDup (ids (T i (ks1 ++ (s, B) :: ks2)))) (Hi : H !! i = Some nd).
Context (Hlen : (0 < len < length s)%nat).

Let tC := T (length H) [(drop len s, B)].
Let H3 := splice_nodes H i nd (length ks1) (edge_of (s, B)) len (c ++ take len s).

Lemma spliced_frame j : (j < length H)%nat -> j <> i -> H3 !! j = H !! j.
Proof.
  intros Hj Hji. unfold H3, splice_nodes. rewrite list_lookup_alter_ne by lia.
  rewrite list_lookup_insert_ne by done. by apply lookup_app_l.
Qed.

Lemma spliced_length : length H3 = S (length H).
Proof. unfold H3, splice_nodes. rewrite length_alter, length_insert, length_app. simpl. lia. Qed.

Lemma spliced_parent :
  H3 !! i = Some (set_node_children (edge_of <$> ks1 ++ (take len s, tC) :: ks2) nd).
Proof.
  assert (i < length H)%nat by (by eapply lookup_lt_Some).
  unfold H3, splice_nodes. rewrite list_lookup_alter_ne by lia.
  rewrite list_lookup_insert_eq by (rewrite length_app; lia).
  do 2 f_equal. rewrite (ok_children _ _ _ _ (node_of _ _ _ _ _ Hrep Hi)).
  rewrite !fmap_app, !fmap_cons, insert_app_r_alt by (rewrite length_fmap; lia).
  by rewrite length_fmap, Nat.sub_diag.
Qed.

Lemma spliced_lookup :
  H3 !! length H = Some (set_node_children [edge_of (drop len s, B)] (new_node (c ++ take len s))).
Proof.
  assert (i < length H)%nat by (by eapply lookup_lt_Some).
  unfold H3, splice_nodes. rewrite list_lookup_alter_eq, list_lookup_insert_ne by lia.
  by rewrite list_lookup_middle.
Qed.

Lemma spliced_below j : j ∈ ids B -> H3 !! j = H !! j.
Proof.
  intros Hj. destruct (kids_below _ _ _ _ Hrep Hnodup j); [|by apply spliced_frame].
  apply elem_of_kids_ids. exists s, B. split; [|done]. apply elem_of_middle. by left.
Qed.

Lemma spliced_rep : rep H3 (c ++ take len s) tC.
Proof.
  unfold tC. apply rep_T. split.
  - eexists. split; [apply spliced_lookup|]. split.
    + done.
    + done.
    + apply NoDup_singleton.
    + by left.
    + intros s' t [= -> ->]%list_elem_of_singleton.
      pose proof (ok_chars _ _ _ _ (node_of _ _ _ _ _ Hrep Hi) s B) as Hs.
      specialize (Hs ltac:(apply elem_of_middle; by left)).
      rewrite <- (take_drop len s) in Hs. by apply name_chars_app in Hs as [_ ?].
    + intros t [= Hnil ->]%list_elem_of_singleton. apply (f_equal length) in Hnil.
      rewrite length_drop in Hnil. simpl in Hnil. lia.
  - intros s' t [= -> ->]%list_elem_of_singleton.
    rewrite <- app_assoc, take_drop. apply (rep_frame H); [apply spliced_below|].
    eapply rep_kid; [done|]. apply elem_of_middle. by left.
Qed.
End splice.

(** What is known when an entry is added at the node of [T i ks]. *)
Definition add_pre (H : list Node) (c : list byte) (t : tree) (e : WriterEntry)
    (tail : list byte) : Prop :=
  rep H c t /\ NoDup (ids t) /\ we_name e = c ++ tail /\ name_chars tail /\ c ++ tail <> [] /\
  we_size e <> 0.

(** How deep the recursion goes: an edge without characters ends it. *)
Definition add_fuel (t : tree) (tail : list byte) : nat :=
  (length tail + match kids t with [] => 1 | _ => 2 end)%nat.

Lemma NoDup_kid i ks s t : NoDup (ids (T i ks)) -> (s, t) ∈ ks -> NoDup (ids t).
Proof.
  rewrite ids_T. intros [_ Hnd]%NoDup_cons (ks1 & ks2 & ->)%list_elem_of_split.
  rewrite kids_ids_app, kids_ids_cons in Hnd. simpl in Hnd.
  by apply NoDup_app in Hnd as (_ & _ & (Ht & _)%NoDup_app).
Qed.

Lemma NoDup_siblings i ks1 s t ks2 j :
  NoDup (ids (T i (ks1 ++ (s, t) :: ks2))) -> j ∈ kids_ids (ks1 ++ ks2) -> j ∉ ids t.
Proof.
  rewrite ids_T. intros [_ Hnd]%NoDup_cons Hj Ht.
  rewrite kids_ids_app, kids_ids_cons in Hnd. simpl in Hnd.
  apply NoDup_app in Hnd as (_ & H1 & (_ & H2 & _)%NoDup_app).
  rewrite kids_ids_app in Hj. apply elem_of_app in Hj as [Hj|Hj].
  - apply (H1 j Hj), elem_of_app. by left.
  - by apply (H2 j).
Qed.

Lemma leaf_has_name H c i ks B : rep H c (T i ks) -> ([], B) ∈ ks -> has_name H B c.
Proof.
  intros Hrep Hin. pose proof (rep_kid _ _ _ _ _ _ Hrep Hin) as HrB.
  apply rep_T in Hrep as [(nd & _ & Hok) _].
  destruct (ok_leaf _ _ _ _ Hok B Hin) as (_ & nd' & Hnd' & Hterm).
  exists (root B), nd'. split; [apply root_in_ids|]. split; [done|].
  destruct B as [j kB]. apply rep_T in HrB as [(nd2 & H2 & Hok2) _].
  assert (nd2 = nd') as -> by (simpl in *; congruence).
  destruct Hok2 as [Hc2 _ _ [He|(He & _)] _ _].
  - unfold terminal in Hterm. by rewrite He in Hterm.
  - by rewrite He, Hc2, app_nil_r.
Qed.

(** The entry is below the chosen edge, or nowhere. *)
Lemma only_below H c i ks1 s B ks2 e tail nd :
  add_pre H c (T i (ks1 ++ (s, B) :: ks2)) e tail -> H !! i = Some nd ->
  first_char s = first_char tail -> (s = [] \/ tail <> []) ->
  ~ has_name H B (we_name e) -> ~ has_name H (T i (ks1 ++ (s, B) :: ks2)) (we_name e).
Proof.
  intros (Hrep & Hnd & Hname & Htail & Hne & Hsize) Hi Hfc Hs HB.
  rewrite has_name_T. intros [(nd' & Hn & Heq)|(s' & t & [[= -> ->]|Hin]%elem_of_middle & Hn)];
    [|done|].
  - assert (nd' = nd) as -> by congruence. rewrite Hname in Heq.
    destruct (own_name _ _ _ _ _ _ Hrep Hi Hne Heq) as [Ht _].
    destruct Hs as [->|Hs]; [|done]. apply HB. rewrite Hname, Ht, app_nil_r.
    eapply leaf_has_name; [done|]. apply elem_of_middle. by left.
  - destruct Hn as (j & nd' & Hj & Hnd' & Heq). rewrite Hname in Heq.
    eapply (other_edge H c i _ s' t tail j nd'); [done|..]; try done.
    { apply elem_of_middle. by right. }
    { by apply name_chars_nul. }
    pose proof (ok_heads _ _ _ _ (node_of _ _ _ _ _ Hrep Hi)) as Hh.
    rewrite fmap_app, fmap_cons in Hh. simpl in Hh.
    apply NoDup_app in Hh as (_ & H1 & (H2 & _)%NoDup_cons). intros Heq'. rewrite <- Hfc in Heq'.
    apply elem_of_app in Hin as [Hin|Hin].
    + apply (H1 (first_char s')); [|rewrite Heq'; left].
      by apply (list_elem_of_fmap_2 (first_char ∘ fst) ks1 (s', t)).
    + apply H2. rewrite <- Heq'. by apply (list_elem_of_fmap_2 (first_char ∘ fst) ks2 (s', t)).
Qed.

(** A result for the chosen kid is one for the node. *)
Lemma post_graft H H1 c i ks1 s B ks2 p K e r tail nd :
  add_pre H c (T i (ks1 ++ (s, B) :: ks2)) e tail -> H !! i = Some nd ->
  first_char s = first_char tail -> (s = [] \/ tail <> []) -> p `prefix_of` s ->
  H1 !! i = Some (set_node_children (edge_of <$> ks1 ++ (p, K) :: ks2) nd) -> i ∉ ids K ->
  (length H <= length H1)%nat ->
  (forall j, (j < length H)%nat -> j <> i -> H1 !! j = H !! j) ->
  ids K ≡ₚ ids B ++ seq (length H) (length H1 - length H) ->
  (forall name, has_name H1 K name <-> has_name H B name \/ (name = [] /\ has_name H1 K [])) ->
  (p = [] -> has_name H B (we_name e)) ->
  add_post H1 (c ++ p) K e r -> add_post H c (T i (ks1 ++ (s, B) :: ks2)) e r.
Proof.
  intros Hpre Hi Hfc Hs Hps Hi1 HiK Hlen Hf HK Hnames Hpnil Hpost.
  pose proof Hpre as (Hrep & Hnd & Hname & Htail & Hne & Hsize).
  assert (Hin : (s, B) ∈ ks1 ++ (s, B) :: ks2) by (apply elem_of_middle; by left).
  assert (Hnn : we_name e <> []) by (by rewrite Hname).
  unfold add_post in *. destruct r as [H'|[n| | | |]]; try done.
  - destruct Hpost as [HnK (K' & [Hrep' Hroot Hlen' Hids Hfr])].
    assert (HnB : ~ has_name H B (we_name e)) by (intros HB; apply HnK, Hnames; by left).
    split; [by eapply only_below|]. exists (T i (ks1 ++ (p, K') :: ks2)).
    assert (Hlt : (i < length H)%nat) by (by eapply lookup_lt_Some).
    assert (Hids' : ids K' ≡ₚ ids B ++ seq (length H) (length H' - length H)).
    { rewrite Hids, HK, <- app_assoc. apply Permutation_app_head.
      replace (length H' - length H)%nat with
        ((length H1 - length H) + (length H' - length H1))%nat by lia.
      rewrite seq_app. replace (length H + (length H1 - length H))%nat with (length H1) by lia.
      done. }
    split; [|done|lia|by apply ids_graft|].
    + eapply (graft H H' c i ks1 s B ks2 p K' nd); try done; [by intros ->; apply HnB, Hpnil|..].
      * rewrite Hfr by (lia || done). rewrite Hi1. do 2 f_equal.
        rewrite !fmap_app, !fmap_cons. unfold edge_of at 2 5. simpl. by rewrite Hroot.
      * intros j Hj. assert (Hj' : j ∈ kids_ids (ks1 ++ (s, B) :: ks2)).
        { rewrite kids_ids_app, kids_ids_cons in *. simpl. rewrite !elem_of_app in *. tauto. }
        destruct (kids_below _ _ _ _ Hrep Hnd j Hj') as [Hjl Hji].
        rewrite Hfr, Hf; try done; [lia|]. rewrite HK. intros [HjB|Hjs]%elem_of_app.
        -- by eapply NoDup_siblings.
        -- apply elem_of_seq in Hjs. lia.
    + intros j Hj Hn. rewrite ids_T in Hn. apply not_elem_of_cons in Hn as [Hji Hn].
      rewrite Hfr, Hf; try done; [lia|]. rewrite HK. intros [HjB|Hjs]%elem_of_app.
      * apply Hn, elem_of_kids_ids. eauto.
      * apply elem_of_seq in Hjs. lia.
  - destruct Hpost as [-> Hn]. split; [done|]. apply has_name_T. right. exists s, B.
    split; [done|]. by apply Hnames in Hn as [Hn|[Hn _]].
Qed.

Lemma descend_post H c i ks1 s B ks2 e tail nd r :
  add_pre H c (T i (ks1 ++ (s, B) :: ks2)) e tail -> H !! i = Some nd ->
  s `prefix_of` tail -> first_char s = first_char tail ->
  (forall tail', tail = s ++ tail' -> add_pre H (c ++ s) B e tail' -> (s = [] -> kids B = []) ->
    add_post H (c ++ s) B e r) ->
  add_post H c (T i (ks1 ++ (s, B) :: ks2)) e r.
Proof.
  intros Hpre Hi [tail' ->] Hfc Hr. pose proof Hpre as (Hrep & Hnd & Hname & Htail & Hne & Hsize).
  assert (Hin : (s, B) ∈ ks1 ++ (s, B) :: ks2) by (apply elem_of_middle; by left).
  pose proof (node_of _ _ _ _ _ Hrep Hi) as Hok.
  eapply (post_graft H H c i ks1 s B ks2 s B); try done.
  - destruct s as [|b s]; [by left|by right].
  - rewrite Hi. f_equal. rewrite <- (ok_children _ _ _ _ Hok). by destruct nd.
  - intros HiB. rewrite ids_T in Hnd. apply NoDup_cons in Hnd as [Hn _].
    apply Hn, elem_of_kids_ids. eauto.
  - by rewrite Nat.sub_diag, app_nil_r.
  - intros name. split; [by left|]. by intros [Hn|[-> Hn]].
  - intros ->. simpl in Hfc, Htail, Hname. symmetry in Hfc. apply first_char_nul in Hfc; [|by apply name_chars_nul].
    subst tail'. rewrite Hname, app_nil_r. by eapply leaf_has_name.
  - apply (Hr tail' eq_refl).
    + split_and!; [by eapply rep_kid|by eapply NoDup_kid|by rewrite <- app_assoc| |
        by rewrite <- app_assoc|done].
      by apply name_chars_app in Htail as [_ ?].
    + intros ->. by destruct (ok_leaf _ _ _ _ Hok B Hin).
Qed.

Lemma splice_post H c i ks1 s B ks2 e tail nd len r :
  add_pre H c (T i (ks1 ++ (s, B) :: ks2)) e tail -> H !! i = Some nd ->
  (0 < len < length s)%nat -> take len s = take len tail -> first_char s = first_char tail ->
  let H3 := splice_nodes H i nd (length ks1) (edge_of (s, B)) len (c ++ take len s) in
  let tC := T (length H) [(drop len s, B)] in
  (add_pre H3 (c ++ take len s) tC e (drop len tail) -> add_post H3 (c ++ take len s) tC e r) ->
  add_post H c (T i (ks1 ++ (s, B) :: ks2)) e r.
Proof.
  intros Hpre Hi Hlen Ht Hfc H3 tC Hr. pose proof Hpre as (Hrep & Hnd & Hname & Htail & Hne & Hsize).
  assert (Hin : (s, B) ∈ ks1 ++ (s, B) :: ks2) by (apply elem_of_middle; by left).
  assert (Hnonnil : take len s <> []).
  { intros Hnil. apply (f_equal length) in Hnil. rewrite length_take in Hnil. simpl in Hnil. lia. }
  assert (Hbel : forall j, j ∈ ids B -> H3 !! j = H !! j) by (intros; by eapply spliced_below).
  assert (Hlk : H3 !! length H = Some (set_node_children [edge_of (drop len s, B)]
                                         (new_node (c ++ take len s)))) by by apply spliced_lookup.
  assert (HidB : forall j, j ∈ ids B -> (j < length H)%nat /\ j <> i).
  { intros j Hj. eapply kids_below; [done..|]. apply elem_of_kids_ids. eauto. }
  eapply (post_graft H H3 c i ks1 s B ks2 (take len s) tC); try done.
  - right. intros ->. by rewrite take_nil in Ht.
  - apply prefix_take.
  - by eapply spliced_parent.
  - unfold tC. simpl. rewrite app_nil_r. intros [->|Hj]%elem_of_cons.
    + apply lookup_lt_Some in Hi. lia.
    + by destruct (HidB i Hj).
  - unfold H3. rewrite spliced_length by done. lia.
  - intros j ? ?. by apply spliced_frame.
  - unfold H3, tC. rewrite spliced_length by done. replace (S (length H) - length H)%nat with 1%nat by lia.
    simpl. rewrite app_nil_r. apply Permutation_cons_append.
  - intros name. unfold tC. rewrite has_name_T. rewrite Hlk.
    assert (Heq : has_name H3 B name <-> has_name H B name) by by apply has_name_frame.
    split.
    + intros [(nd' & [= <-] & <-)|(s' & t' & [= -> ->]%list_elem_of_singleton & Hn)].
      * right. split; [done|]. apply has_name_T. left. by eexists.
      * left. by apply Heq.
    + intros [Hn|[-> Hn]].
      * right. exists (drop len s), B. split; [left|by apply Heq].
      * apply has_name_T in Hn. by rewrite Hlk in Hn.
  - apply Hr. split_and!; try done.
    + by eapply spliced_rep.
    + unfold tC. simpl. rewrite app_nil_r. apply NoDup_cons. split.
      * intros Hj. apply HidB in Hj. lia.
      * by eapply NoDup_kid.
    + by rewrite Ht, <- app_assoc, take_drop.
    + rewrite <- (take_drop len tail) in Htail. by apply name_chars_app in Htail as [_ ?].
    + by rewrite Ht, <- app_assoc, take_drop.
Qed.

(** The recursion ends and the result is that of inserting into a set of names. *)
Lemma addEntry_spec fuel H c t e tail :
  add_pre H c t e tail -> (add_fuel t tail <= fuel)%nat ->
  add_post H c t e (addEntry fuel H (root t) e).
Proof.
  revert H c t tail. induction fuel as [|fuel IH]; intros H c [i ks] tail Hpre Hfuel.
  { unfold add_fuel in Hfuel. destruct (kids _); lia. }
  pose proof Hpre as (Hrep & Hnd & Hname & Htail & Hne & Hsize).
  destruct (proj1 (rep_T _ _ _ _) Hrep) as [(nd & Hi & Hok) _].
  pose proof (ok_children _ _ _ _ Hok) as Hch. pose proof (ok_string _ _ _ _ Hok) as Hc.
  cbn [root addEntry]. rewrite Hi. cbn [or_stop mbind outcome_bind].
  assert (Hlen : length (we_name e) = (length c + length tail)%nat)
    by (by rewrite Hname, length_app).
  assert (Hdrop : drop (length c) (we_name e) = tail) by (by rewrite Hname, drop_app_length).
  rewrite Hc, Hdrop, (proj2 (Nat.ltb_ge _ _)) by lia.
  destruct (scan_edges_spec tail (children nd) 0) as [l1 ed l2 Hes Hp Hfc|l1 ed l2 len Hes Hl Ht Hfc|Hno].
  { rewrite Hch. intros ed ([s t] & -> & Hin)%list_elem_of_fmap.
    eapply name_chars_nul, ok_chars; [exact Hok|exact Hin]. }
  - rewrite Hch in Hes. apply fmap_split in Hes as (ks1 & [s B] & ks2 & -> & -> & _).
    eapply descend_post; [done..|].
    intros tail' -> Hpre' Hleaf. eapply IH; [done|]. unfold add_fuel in *. simpl in *.
    destruct s as [|b s].
    + rewrite Hleaf by done. destruct (ks1 ++ _) eqn:E; simpl in *; [by destruct ks1|lia].
    + destruct (ks1 ++ _) eqn:E; [by destruct ks1|]. rewrite length_app in Hfuel. simpl in Hfuel.
      destruct (kids B); lia.
  - rewrite Hch in Hes. apply fmap_split in Hes as (ks1 & [s B] & ks2 & -> & -> & Hk).
    simpl in Hl, Ht, Hfc. eapply (splice_post _ _ _ _ _ _ _ _ _ _ len); [done..|].
    intros Hpre'. rewrite Hname at 1. rewrite take_app_add, <- Ht. cbn [Nat.add]. rewrite <- Hk.
    change (alter _ _ _) with
      (splice_nodes H i nd (length ks1) (edge_of (s, B)) len (c ++ take len s)).
    eapply (IH _ _ (T (length H) [(drop len s, B)])); [done|].
    assert (length (drop len tail) < length tail)%nat.
    { rewrite length_drop. destruct tail; [|simpl; lia].
      rewrite take_nil in Ht. apply (f_equal length) in Ht. rewrite length_take in Ht. simpl in Ht. lia. }
    unfold add_fuel in *. simpl in *. destruct (ks1 ++ _) eqn:E; [by destruct ks1|lia].
  - case_bool_decide as Ht; cbn [andb];
      [destruct (Z.eqb_spec (we_size (terminalEntry nd)) 0) as [Hz|Hz]; cbn [negb]|].
    + split; [by eapply no_edge_no_name|]. eexists. by eapply grown_leaf.
    + split; [done|]. apply has_name_T. left. exists nd. split; [done|].
      destruct (ok_entry _ _ _ _ Hok) as [He|(He & _)]; [by rewrite He in Hz|].
      by rewrite He, Hc, Hname, Ht, app_nil_r.
    + split; [by eapply no_edge_no_name|]. eexists. by eapply grown_leaf.
Qed.
