(* ===== verification/TrieEntries.v ===== *)
(** * The entries of an export trie under construction

    What [exportToEntry] appends to the terminal buffer, and the loop that
    adds the exports: it ends with a vector of nodes that represents a tree
    and has the entries in the order of the exports, or reports the first
    name that occurs twice. *)

From Stdlib Require Import ZArith Lia Bool.
From Stdlib Require Import Init.Byte.
From stdpp Require Import base option numbers list.
From S2P Require Import Prelude CInt Leb128 TrieBuild TrieTree.

(** ** LEB128 *)

Lemma shiftr7 v : Z.shiftr v 7 = v / 128.
Proof. by rewrite Z.shiftr_div_pow2. Qed.

Lemma append_uleb128_loop_encode f v out :
  0 <= v < 2 ^ 64 -> (1 <= f)%nat -> v < 128 ^ Z.of_nat f ->
  append_uleb128_loop f v out = out ++ uleb_encode f v.
Proof.
  revert v out. induction f as [|f IH]; intros v out Hv Hf Hb; [lia|].
  cbn [append_uleb128_loop uleb_encode].
  assert (Hl : Z.land v 0x7f = v mod 128).
  { change 0x7f with (Z.ones 7). by rewrite Z.land_ones. }
  assert (Hh : Z.land v (u64 (Z.lnot 0x7f)) = v - v mod 128).
  { change (u64 (Z.lnot 0x7f)) with (Z.lxor (Z.ones 64) (Z.ones 7)).
    replace v with (Z.land v (Z.ones 64)) at 1
      by (rewrite Z.land_ones by lia; apply Z.mod_small; lia).
    rewrite <- Hl. change 0x7f with (Z.ones 7).
    apply Z.bits_inj'. intros n Hn. rewrite Z.sub_nocarry_ldiff.
    2: { apply Z.bits_inj'. intros m Hm. rewrite Z.ldiff_spec, !Z.land_spec, Z.bits_0.
         destruct (Z.testbit v m); [|done]. simpl. by destruct (Z.testbit (Z.ones 7) m). }
    rewrite Z.ldiff_spec, !Z.land_spec, Z.lxor_spec.
    destruct (Z.testbit v n) eqn:E; [|done]. simpl.
    assert (n < 64).
    { destruct (Z.lt_ge_cases n 64); [done|]. rewrite (testbit_above v 64) in E by lia. done. }
    rewrite (Z.ones_spec_low 64) by lia. by destruct (Z.testbit (Z.ones 7) n). }
  rewrite Hl, Hh, shiftr7. destruct (Z.ltb_spec v 128) as [Hlt|Hge].
  - rewrite (Z.mod_small v 128) by lia. rewrite Z.sub_diag. simpl.
    by rewrite (proj2 (Z.leb_gt _ _)) by lia.
  - assert (Hne : v - v mod 128 <> 0) by div_lia. rewrite (proj2 (Z.eqb_neq _ _)) by done.
    cbn [negb]. assert (Hor : Z.lor (v mod 128) 0x80 = v mod 128 + 128).
    { change 0x80 with (2 ^ 7 * 1). rewrite Z.lor_comm, lor_disjoint_add; [lia|lia|].
      change (2 ^ 7) with 128. div_lia. }
    rewrite Hor, (proj2 (Z.leb_le _ _)) by div_lia.
    rewrite Nat2Z.inj_succ, Z.pow_succ_r in Hb by lia.
    replace ((v - v mod 128) / 128) with (v / 128) by div_lia.
    destruct f as [|f]; [simpl in Hb; lia|].
    rewrite IH by (lia || div_lia). by rewrite <- app_assoc.
Qed.

(** [append_uleb128] appends the shortest encoding. *)
Lemma append_uleb128_eq v out : 0 <= v < 2 ^ 64 -> append_uleb128 v out = out ++ uleb v.
Proof. intros. apply append_uleb128_loop_encode; [done|lia|lia]. Qed.

Lemma uleb128_size_loop_encode f v r :
  0 <= v -> (1 <= f)%nat -> v < 128 ^ Z.of_nat f -> 0 <= r -> r + Z.of_nat f < 2 ^ 32 ->
  uleb128_size_loop f v r = r + Z.of_nat (length (uleb_encode f v)).
Proof.
  revert v r. induction f as [|f IH]; intros v r Hv Hf Hb Hr Hrf; [lia|].
  cbn [uleb128_size_loop uleb_encode]. rewrite shiftr7, (uw_id 32 (r + 1)) by (unfold in_uw; lia).
  destruct (Z.ltb_spec v 128) as [Hlt|Hge].
  - rewrite Z.div_small by lia. simpl. lia.
  - rewrite (proj2 (Z.eqb_neq _ _)) by div_lia. cbn [negb].
    rewrite Nat2Z.inj_succ, Z.pow_succ_r in Hb by lia.
    destruct f as [|f]; [simpl in Hb; lia|].
    rewrite IH by (lia || div_lia). cbn [length]. lia.
Qed.

Lemma uleb128_size_eq v : 0 <= v < 2 ^ 64 -> uleb128_size v = Z.of_nat (length (uleb v)).
Proof. intros. unfold uleb128_size. rewrite uleb128_size_loop_encode by lia. done. Qed.

Lemma length_uleb_encode f v k :
  0 <= v < 128 ^ Z.of_nat k -> (1 <= k)%nat -> (1 <= f)%nat ->
  (1 <= length (uleb_encode f v) <= k)%nat.
Proof.
  revert v k. induction f as [|f IH]; intros v k Hv Hk Hf; [lia|]. cbn [uleb_encode].
  destruct (Z.ltb_spec v 128); [simpl; lia|]. destruct k as [|[|k]]; [lia|simpl in Hv; lia|].
  rewrite (Nat2Z.inj_succ (S k)), Z.pow_succ_r in Hv by lia. cbn [length].
  destruct f as [|f]; [simpl; lia|]. specialize (IH (v / 128) (S k) ltac:(div_lia)). lia.
Qed.

Lemma length_uleb v : 0 <= v < 2 ^ 64 -> (1 <= length (uleb v) <= 10)%nat.
Proof. intros. apply length_uleb_encode; lia. Qed.

Lemma length_uleb_32 v : 0 <= v < 2 ^ 32 -> (1 <= length (uleb v) <= 5)%nat.
Proof. intros. apply length_uleb_encode; lia. Qed.

(** A larger number has no shorter encoding. *)
Lemma length_uleb_encode_mono f v w :
  v <= w -> (length (uleb_encode f v) <= length (uleb_encode f w))%nat.
Proof.
  revert v w. induction f as [|f IH]; intros v w Hvw; [done|]. cbn [uleb_encode].
  destruct (Z.ltb_spec v 128), (Z.ltb_spec w 128); simpl; try lia.
  specialize (IH (v / 128) (w / 128) ltac:(div_lia)). lia.
Qed.

(** ** The terminal payloads *)

Definition import_bytes (x : Export) : list byte :=
  if bool_decide (ex_importName x = ex_name x) then [] else ex_importName x.

(** What [exportToEntry] appends. *)
Definition export_payload (x : Export) : list byte :=
  if has_flag (ex_flags x) EXPORT_SYMBOL_FLAGS_REEXPORT then
    uleb (ex_flags x) ++ uleb (ex_other x) ++ import_bytes x ++ [x00]
  else if has_flag (ex_flags x) EXPORT_SYMBOL_FLAGS_STUB_AND_RESOLVER then
    uleb (ex_flags x) ++ uleb (ex_offset x) ++ uleb (ex_other x)
  else uleb (ex_flags x) ++ uleb (ex_offset x).

(** The exports a trie can hold: a name without NUL, 64-bit numbers. *)
Record export_ok (x : Export) : Prop := {
  xok_name : ex_name x <> [];
  xok_chars : name_chars (ex_name x);
  xok_import : x00 ∉ ex_importName x;
  xok_offset : 0 <= ex_offset x < 2 ^ 64;
  xok_flags : 0 <= ex_flags x < 2 ^ 64;
  xok_other : 0 <= ex_other x < 2 ^ 64;
}.

Lemma export_payload_nonempty x : export_ok x -> (1 <= length (export_payload x))%nat.
Proof.
  intros [_ _ _ _ Hf _]. pose proof (length_uleb _ Hf). unfold export_payload.
  destruct (has_flag _ _); [|destruct (has_flag _ _)]; rewrite length_app; lia.
Qed.

Definition entry_at (x : Export) (temp : list byte) : WriterEntry :=
  {| we_name := ex_name x; we_offset := Z.of_nat (length temp);
     we_size := Z.of_nat (length (export_payload x)) |}.

Lemma exportToEntry_eq x temp :
  export_ok x -> Z.of_nat (length temp + length (export_payload x)) < 2 ^ 32 ->
  exportToEntry x temp = (entry_at x temp, temp ++ export_payload x).
Proof.
  intros Hok Hlen. pose proof Hok as [Hn _ _ Ho Hf Ht]. unfold exportToEntry.
  rewrite bool_decide_false by done. cbn [negb].
  rewrite !append_uleb128_eq by done. unfold append_string.
  assert (Heq : (if has_flag (ex_flags x) EXPORT_SYMBOL_FLAGS_REEXPORT
     then (((temp ++ uleb (ex_flags x)) ++ uleb (ex_other x)) ++ import_bytes x) ++ [x00]
     else if has_flag (ex_flags x) EXPORT_SYMBOL_FLAGS_STUB_AND_RESOLVER
     then ((temp ++ uleb (ex_flags x)) ++ uleb (ex_offset x)) ++ uleb (ex_other x)
     else (temp ++ uleb (ex_flags x)) ++ uleb (ex_offset x)) = temp ++ export_payload x).
  { unfold export_payload. destruct (has_flag _ _); [|destruct (has_flag _ _)];
      by rewrite <- !app_assoc. }
  unfold import_bytes in Heq. rewrite Heq, length_app. unfold entry_at.
  rewrite !uw_id by (unfold in_uw; lia).
  by replace (Z.of_nat (length temp + length (export_payload x)) - Z.of_nat (length temp))
    with (Z.of_nat (length (export_payload x))) by lia.
Qed.

(** ** What [addEntry] does to the vector *)

Definition entries (H : list Node) : list WriterEntry :=
  filter (fun e => we_name e <> []) (terminalEntry <$> H).

(** The most bytes a node can take. *)
Definition edges_bound (es : list Edge) : nat :=
  sum_list_with (fun e => length (partialString e) + 6)%nat es.
Definition node_bound (nd : Node) : nat :=
  (Z.to_nat (we_size (terminalEntry nd)) + 6 + edges_bound (children nd))%nat.
Definition nodes_bound (H : list Node) : nat := sum_list_with node_bound H.

(** Node [nd] of the vector replaced by one with other edges. *)
Lemma fmap_set_node_children {A} (f : Node -> A) (H : list Node) (i : nat) nd es :
  (forall x, f (set_node_children es x) = f x) -> H !! i = Some nd ->
  f <$> <[i := set_node_children es nd]> H = f <$> H.
Proof.
  intros Hf Hi. rewrite list_fmap_insert, Hf. apply list_insert_id.
  by rewrite list_lookup_fmap, Hi.
Qed.

Lemma sum_list_with_insert {A} (f : A -> nat) (l : list A) (i : nat) x y :
  l !! i = Some x -> (sum_list_with f (<[i := y]> l) + f x = sum_list_with f l + f y)%nat.
Proof.
  revert i. induction l as [|z l IH]; intros [|i] Hi; simpl in *; try done.
  - injection Hi as ->. lia.
  - specialize (IH i Hi). lia.
Qed.

Lemma nodes_bound_insert (H : list Node) (i : nat) nd es :
  H !! i = Some nd ->
  (nodes_bound (<[i := set_node_children es nd]> H) + edges_bound (children nd) =
   nodes_bound H + edges_bound es)%nat.
Proof.
  intros Hi. unfold nodes_bound.
  pose proof (sum_list_with_insert node_bound H i nd (set_node_children es nd) Hi) as Hs.
  unfold node_bound at 2 4 in Hs. simpl in Hs. lia.
Qed.

Lemma nodes_bound_app H1 H2 : nodes_bound (H1 ++ H2) = (nodes_bound H1 + nodes_bound H2)%nat.
Proof. apply sum_list_with_app. Qed.

Lemma edges_bound_app es1 es2 : edges_bound (es1 ++ es2) = (edges_bound es1 + edges_bound es2)%nat.
Proof. apply sum_list_with_app. Qed.

(** Entries and offsets are added behind those of the vector. *)
Record added (H H' : list Node) (e : WriterEntry) (bound : nat) : Prop := {
  added_entries : entries H' = entries H ++ (if bool_decide (we_name e = []) then [] else [e]);
  added_offsets : Forall (fun nd => trieOffset nd = 0) H -> Forall (fun nd => trieOffset nd = 0) H';
  added_bound : (nodes_bound H' <= nodes_bound H + bound)%nat;
}.

Lemma entries_fmap H H' : terminalEntry <$> H' = terminalEntry <$> H -> entries H' = entries H.
Proof. unfold entries. by intros ->. Qed.

Lemma zero_offsets_insert (H : list Node) (i : nat) nd es :
  H !! i = Some nd -> Forall (fun nd => trieOffset nd = 0) H ->
  Forall (fun nd => trieOffset nd = 0) (<[i := set_node_children es nd]> H).
Proof.
  intros Hi HF. apply Forall_insert; [done|]. simpl.
  by apply (Forall_lookup_1 _ _ _ _ HF Hi).
Qed.

Lemma alter_as_insert {A} (f : A -> A) (l : list A) (i : nat) x :
  l !! i = Some x -> alter f i l = <[i := f x]> l.
Proof. intros Hi. rewrite list_insert_alter. apply list_alter_ext; [|done]. congruence. Qed.

Lemma splice_added (H : list Node) (i : nat) nd k ed len cumm :
  H !! i = Some nd -> children nd !! k = Some ed -> (len <= length (partialString ed))%nat ->
  let H3 := splice_nodes H i nd k ed len cumm in
  entries H3 = entries H /\
  (Forall (fun nd => trieOffset nd = 0) H -> Forall (fun nd => trieOffset nd = 0) H3) /\
  nodes_bound H3 = (nodes_bound H + 12)%nat.
Proof.
  intros Hi Hk Hlen H3. subst H3. unfold splice_nodes. set (H1 := H ++ [new_node cumm]).
  assert (Hlt : (i < length H)%nat) by (by eapply lookup_lt_Some).
  assert (Hi1 : H1 !! i = Some nd) by (unfold H1; by rewrite lookup_app_l).
  set (es := <[k := _]> (children nd)). set (H2 := <[i := _]> H1).
  assert (Hn2 : H2 !! length H = Some (new_node cumm)).
  { unfold H2, H1. rewrite list_lookup_insert_ne by lia. by apply list_lookup_middle. }
  rewrite (alter_as_insert _ H2 (length H) (new_node cumm)) by done. cbn [children new_node app].
  split_and!.
  - rewrite (entries_fmap H2) by (by apply fmap_set_node_children).
    rewrite (entries_fmap H1) by (by apply fmap_set_node_children).
    unfold entries, H1. rewrite fmap_app, filter_app. by rewrite app_nil_r.
  - intros HF. apply zero_offsets_insert; [done|]. apply zero_offsets_insert; [done|].
    apply Forall_app. split; [done|]. by repeat constructor.
  - pose proof (nodes_bound_insert H2 _ _ [{| partialString := drop len (partialString ed); child := child ed |}] Hn2) as B2.
    pose proof (nodes_bound_insert H1 _ _ es Hi1) as B1. fold H2 in B1.
    unfold H1 in B1. rewrite nodes_bound_app in B1. cbn in B1, B2.
    pose proof (sum_list_with_insert (fun e => length (partialString e) + 6)%nat _ _ _
      {| partialString := take len (partialString ed); child := length H |} Hk) as Be.
    fold es in Be. fold (edges_bound es) (edges_bound (children nd)) in Be. cbn in Be.
    rewrite length_take in Be. rewrite length_drop in B2.
    change (node_bound (new_node cumm)) with 6%nat in B1. lia.
Qed.

Lemma scan_edges_lookup tail es k0 :
  match scan_edges tail es k0 with
  | Descend k ed => exists j, k = (k0 + j)%nat /\ es !! j = Some ed
  | Splice k ed len => exists j, k = (k0 + j)%nat /\ es !! j = Some ed /\
      (len <= length (partialString ed))%nat
  | No_edge => True
  end.
Proof.
  revert k0. induction es as [|ed es IH]; intros k0; simpl; [done|].
  assert (Hrec : match scan_edges tail es (S k0) with
    | Descend k e => exists j, k = (k0 + j)%nat /\ (ed :: es) !! j = Some e
    | Splice k e len => exists j, k = (k0 + j)%nat /\ (ed :: es) !! j = Some e /\
        (len <= length (partialString e))%nat
    | No_edge => True
    end).
  { specialize (IH (S k0)). destruct (scan_edges _ _ _).
    - destruct IH as (j & -> & Hj). exists (S j). split; [lia|done].
    - destruct IH as (j & -> & Hj & Hl). exists (S j). split; [lia|done].
    - done. }
  destruct (Byte.eqb _ _); simpl; [|done]. destruct (starts_with _ _).
  { exists 0%nat. split; [lia|done]. }
  destruct (splice_length _ _ _) as [len|] eqn:E; [|done].
  apply splice_length_Some in E as [E _]. exists 0%nat. split_and!; [lia|done|lia].
Qed.

Lemma addEntry_added fuel H i e H' :
  addEntry fuel H i e = Ret H' ->
  added H H' e (12 * fuel + length (we_name e) + Z.to_nat (we_size e)).
Proof.
  revert H i. induction fuel as [|fuel IH]; intros H i Hadd; [done|]. cbn [addEntry] in Hadd.
  invert_ret. rename x into nd. rename select (H !! i = _) into Hi.
  destruct (_ <? _)%nat eqn:Hpos in Hadd; [done|].
  set (tail := drop _ (we_name e)) in *.
  pose proof (scan_edges_lookup tail (children nd) 0) as Hscan.
  destruct (scan_edges _ _ _) as [k ed|k ed len|] in Hscan, Hadd.
  - apply IH in Hadd as [He Ho Hb]. split; [done..|lia].
  - destruct Hscan as (j & -> & Hj & Hlen). cbn [Nat.add] in Hadd.
    change (alter _ _ _) with (splice_nodes H i nd j ed len
      (take (length (cummulativeString nd) + len) (we_name e))) in Hadd.
    apply IH in Hadd as [He Ho Hb].
    edestruct splice_added as (He' & Ho' & Hb'); [exact Hi|exact Hj|exact Hlen|].
    rewrite He' in He. rewrite Hb' in Hb. split; [done|by auto|lia].
  - destruct (_ && _) in Hadd; [done|]. invert_ret. subst H'.
    set (nn := {| cummulativeString := _; children := _; terminalEntry := _; trieOffset := 0 |}).
    set (ne := {| partialString := _; child := _ |}).
    assert (Hi1 : (H ++ [nn]) !! i = Some nd).
    { rewrite lookup_app_l; [done|]. by eapply lookup_lt_Some. }
    split.
    + rewrite (entries_fmap (H ++ [nn])) by (by apply fmap_set_node_children).
      unfold entries. rewrite fmap_app, filter_app. f_equal. simpl.
      rewrite filter_cons. case_bool_decide; case_decide; done.
    + intros HF. apply zero_offsets_insert; [done|]. apply Forall_app. split; [done|].
      by repeat constructor.
    + pose proof (nodes_bound_insert _ _ _ (children nd ++ [ne]) Hi1) as B.
      rewrite nodes_bound_app, edges_bound_app in B. cbn in B.
      change (node_bound nn) with (Z.to_nat (we_size e) + 6 + 0)%nat in B.
      assert (length tail <= length (we_name e))%nat by (unfold tail; rewrite length_drop; lia).
      lia.
Qed.

(** ** The loop over the exports *)

(** The vector represents a tree that [allNodes[0]] is the root of. *)
Definition trie_nodes (H : list Node) : Prop :=
  exists t, root t = 0%nat /\ rep H [] t /\ ids t ≡ₚ seq 0 (length H).

Definition names (H : list Node) : list (list byte) := we_name <$> entries H.

Lemma has_name_names H t n :
  ids t ≡ₚ seq 0 (length H) -> n <> [] -> has_name H t n <-> n ∈ names H.
Proof.
  intros Hids Hn. unfold has_name, names. rewrite list_elem_of_fmap. split.
  - intros (j & nd & _ & Hj & <-). exists (terminalEntry nd). split; [done|].
    apply list_elem_of_filter. split; [done|]. apply list_elem_of_fmap_2.
    by eapply list_elem_of_lookup_2.
  - intros (e & -> & [_ Hin]%list_elem_of_filter). apply list_elem_of_fmap in Hin as (nd & -> & Hin).
    apply list_elem_of_lookup_1 in Hin as [j Hj]. exists j, nd. split_and!; try done.
    rewrite Hids. apply elem_of_seq. apply lookup_lt_Some in Hj. lia.
Qed.

Lemma trie_nodes_start : trie_nodes start_nodes.
Proof.
  exists (T 0 []). split_and!; try done. apply rep_T. split.
  - exists (new_node []). split; [done|]. split; try done.
    + apply NoDup_nil_2.
    + by left.
    + intros s t Hin. by apply elem_of_nil in Hin.
    + intros t Hin. by apply elem_of_nil in Hin.
  - intros s t Hin. by apply elem_of_nil in Hin.
Qed.

(** What one export may add to the size of the nodes. *)
Definition export_bound (x : Export) : nat :=
  (13 * length (ex_name x) + length (export_payload x) + 24)%nat.

Lemma start_addEntry_spec H e :
  trie_nodes H -> we_name e <> [] -> name_chars (we_name e) -> we_size e <> 0 ->
  match start_addEntry H e with
  | Ret H' => we_name e ∉ names H /\ trie_nodes H' /\
      added H H' e (13 * length (we_name e) + Z.to_nat (we_size e) + 24)
  | Stop (Duplicate_symbol n) => n = we_name e /\ we_name e ∈ names H
  | Stop _ => False
  end.
Proof.
  intros (t & Hroot & Hrep & Hids) Hn Hnul Hs. unfold start_addEntry.
  assert (Hpre : add_pre H [] t e (we_name e)).
  { split_and!; try done. rewrite Hids. apply NoDup_seq. }
  pose proof (addEntry_spec (length (we_name e) + 2) H [] t e _ Hpre) as Hpost.
  assert (Hfuel : (add_fuel t (we_name e) <= length (we_name e) + 2)%nat).
  { unfold add_fuel. destruct (kids t); lia. }
  specialize (Hpost Hfuel). unfold add_post in Hpost. rewrite Hroot in Hpost.
  pose proof (has_name_names H t (we_name e) Hids Hn) as Hnames.
  destruct (addEntry _ _ _ _) as [H'|f] eqn:Hadd.
  2:{ destruct f; simpl in Hpost; try done. destruct Hpost as [-> Hp]. split; [done|by apply Hnames]. }
  destruct Hpost as [Hnew%(not_iff_compat Hnames) (t' & [Hrep' Hroot' Hlen Hids' _])]. split; [done|]. split.
  - exists t'. split_and!; [congruence|done|]. rewrite Hids', Hids.
    replace (length H') with (length H + (length H' - length H))%nat at 2 by lia.
    by rewrite seq_app.
  - apply addEntry_added in Hadd as [He Ho Hb]. split; [done..|lia].
Qed.

(** The entries of the exports, and the terminal buffer behind them. *)
Fixpoint entries_from (temp : list byte) (xs : list Export) : list WriterEntry :=
  match xs with
  | [] => []
  | x :: xs' => entry_at x temp :: entries_from (temp ++ export_payload x) xs'
  end.

Definition payloads (xs : list Export) : list byte := concat (export_payload <$> xs).

Lemma entries_from_names temp xs : we_name <$> entries_from temp xs = ex_name <$> xs.
Proof. revert temp. induction xs as [|x xs IH]; intros temp; simpl; [done|]. by rewrite IH. Qed.

Lemma payloads_cons x xs : payloads (x :: xs) = export_payload x ++ payloads xs.
Proof. done. Qed.

Definition exports_bound (xs : list Export) : nat := sum_list_with export_bound xs.

Lemma payloads_bound xs : (length (payloads xs) <= exports_bound xs)%nat.
Proof.
  unfold exports_bound. induction xs as [|x xs IH]; [done|].
  rewrite payloads_cons, length_app. cbn [sum_list_with]. unfold export_bound at 1. lia.
Qed.

Record exports_added (xs : list Export) (temp temp' : list byte) (H H' : list Node) : Prop := {
  xs_nodes : trie_nodes H';
  xs_temp : temp' = temp ++ payloads xs;
  xs_entries : entries H' = entries H ++ entries_from temp xs;
  xs_fresh : NoDup (ex_name <$> xs) /\ forall n, n ∈ ex_name <$> xs -> n ∉ names H;
  xs_offsets : Forall (fun nd => trieOffset nd = 0) H -> Forall (fun nd => trieOffset nd = 0) H';
  xs_bound : (nodes_bound H' <= nodes_bound H + exports_bound xs)%nat;
}.

(** The exports are added up to the first name that is there already. *)
Lemma add_exports_spec xs temp H :
  Forall export_ok xs -> Z.of_nat (length temp + length (payloads xs)) < 2 ^ 32 -> trie_nodes H ->
  match add_exports xs temp H with
  | Ret (temp', H') => exports_added xs temp temp' H H'
  | Stop (Duplicate_symbol n) => exists xs1 x xs2,
      xs = xs1 ++ x :: xs2 /\ n = ex_name x /\ (n ∈ names H \/ n ∈ ex_name <$> xs1)
  | Stop _ => False
  end.
Proof.
  intros Hok. revert temp H. induction Hok as [|x xs Hx Hok IH]; intros temp H Hlen HH.
  { split; try done; cbn; rewrite ?app_nil_r; try done; [|lia].
    split; [apply NoDup_nil_2|]. intros n Hn. by apply elem_of_nil in Hn. }
  rewrite payloads_cons, length_app in Hlen. cbn [add_exports].
  rewrite exportToEntry_eq by (done || lia).
  pose proof (start_addEntry_spec H (entry_at x temp) HH (xok_name _ Hx) (xok_chars _ Hx)) as Hadd.
  specialize (Hadd ltac:(pose proof (export_payload_nonempty _ Hx); simpl; lia)). simpl in Hadd.
  destruct (start_addEntry _ _) as [H1|f]; cbn [mbind outcome_bind].
  2:{ destruct f; try done. destruct Hadd as [-> Hin]. exists [], x, xs. by eauto. }
  destruct Hadd as (Hnew & HH1 & [He Ho Hb]). simpl in He, Hb.
  rewrite bool_decide_false in He by apply Hx.
  assert (Hnames : names H1 = names H ++ [ex_name x]) by (unfold names; by rewrite He, fmap_app).
  specialize (IH (temp ++ export_payload x) H1 ltac:(rewrite length_app; lia) HH1).
  destruct (add_exports _ _ _) as [[temp' H']|f].
  - destruct IH as [Hn Ht Hes [Hnd Hf] Hoff Hbound]. split; [done|..].
    + by rewrite Ht, <- app_assoc.
    + rewrite Hes, He, <- app_assoc. done.
    + rewrite fmap_cons. split.
      * apply NoDup_cons. split; [|done]. intros Hin. apply (Hf _ Hin). rewrite Hnames.
        apply elem_of_app. right. left.
      * intros n [->|Hin]%elem_of_cons; [done|]. intros Hn'. apply (Hf n Hin). rewrite Hnames.
        apply elem_of_app. by left.
    + by auto.
    + unfold exports_bound in *. cbn [sum_list_with]. unfold export_bound at 1. lia.
  - destruct f; try done. destruct IH as (xs1 & y & xs2 & -> & -> & Hin).
    exists (x :: xs1), y, xs2. split_and!; [done..|]. rewrite Hnames in Hin.
    rewrite fmap_cons, elem_of_cons. rewrite elem_of_app, list_elem_of_singleton in Hin. tauto.
Qed.
