(* ===== verification/TrieLayout.v ===== *)
(** * The layout of an export trie

    The rounds that give the nodes their offsets: they end after at most four
    rounds for an edge and two more, and then every node begins where the one
    before it ends, so that the assertion of [buildTrieBytes] holds. *)

From Stdlib Require Import ZArith Lia Bool.
From Stdlib Require Import Init.Byte.
From stdpp Require Import base option numbers list.
From S2P Require Import Prelude CInt Leb128 TrieBuild TrieTree TrieEntries.

(** ** Rounds that push offsets up

    A round goes from offsets [o] to offsets [n]: an element begins where the
    one before it ends, and its size is that for the offsets at that moment,
    new before it and old behind it. *)
Section rounds.
Context (len : nat) (size : (nat -> Z) -> nat -> Z).

Definition mix (n o : nat -> Z) (k : nat) : nat -> Z := fun j => if (j <? k)%nat then n j else o j.

Definition round_of (o n : nat -> Z) : Prop :=
  n 0%nat = 0 /\ forall k, (k < len)%nat -> n (S k) = n k + size (mix n o k) k.

Definition below (o o' : nat -> Z) : Prop := forall j, (j < len)%nat -> o j <= o' j.

Context (size_mono : forall o o' k, below o o' -> (k < len)%nat -> size o k <= size o' k).

Lemma mix_below o o' n n' k :
  below o o' -> (forall j, (j < k)%nat -> n j <= n' j) -> below (mix n o k) (mix n' o' k).
Proof. intros Ho Hn j Hj. unfold mix. destruct (Nat.ltb_spec j k); auto. Qed.

(** A round keeps the order, and what it adds at each place is no less. *)
Lemma round_mono o o' n n' :
  round_of o n -> round_of o' n' -> below o o' ->
  forall k, (k <= len)%nat -> forall j, (j <= k)%nat -> n j <= n' j.
Proof.
  intros [H0 Hs] [H0' Hs'] Ho k. induction k as [|k IH]; intros Hk j Hj.
  - assert (j = 0%nat) as -> by lia. lia.
  - destruct (decide (j = S k)) as [->|]; [|apply IH; lia].
    rewrite Hs, Hs' by lia.
    assert (size (mix n o k) k <= size (mix n' o' k) k).
    { apply size_mono; [|lia]. apply mix_below; [done|]. intros. apply IH; lia. }
    specialize (IH ltac:(lia) k ltac:(lia)). lia.
Qed.

Lemma round_gap o o' n n' :
  round_of o n -> round_of o' n' -> below o o' ->
  forall k j, (j <= k <= len)%nat -> n' j - n j <= n' k - n k.
Proof.
  intros Hr Hr' Ho k. pose proof (round_mono o o' n n' Hr Hr' Ho) as Hm.
  induction k as [|k IH]; intros j Hj.
  - by assert (j = 0%nat) as -> by lia.
  - destruct (decide (j = S k)) as [->|]; [done|]. specialize (IH j ltac:(lia)).
    destruct Hr as [_ Hs], Hr' as [_ Hs']. rewrite Hs, Hs' by lia.
    assert (size (mix n o k) k <= size (mix n' o' k) k); [|lia].
    apply size_mono; [|lia]. apply mix_below; [done|]. intros. apply (Hm k); lia.
Qed.

(** Two rounds with the same end have the same offsets. *)
Lemma round_equal o o' n n' :
  round_of o n -> round_of o' n' -> below o o' -> n' len <= n len ->
  forall k, (k <= len)%nat -> n' k = n k.
Proof.
  intros Hr Hr' Ho Hend k Hk. pose proof (round_gap _ _ _ _ Hr Hr' Ho len k ltac:(lia)).
  pose proof (round_mono _ _ _ _ Hr Hr' Ho len ltac:(lia) k ltac:(lia)). lia.
Qed.
End rounds.

(** ** The size of a node for given offsets *)

Definition edge_size (o : nat -> Z) (e : Edge) : Z :=
  Z.of_nat (length (partialString e)) + 1 + Z.of_nat (length (uleb (o (child e)))).

Definition edges_total (o : nat -> Z) (es : list Edge) : Z :=
  foldr (fun e r => edge_size o e + r) 0 es.

Definition terminal_total (nd : Node) : Z :=
  if bool_decide (we_name (terminalEntry nd) = []) then 1
  else we_size (terminalEntry nd) + Z.of_nat (length (uleb (we_size (terminalEntry nd)))).

Definition node_size (o : nat -> Z) (nd : Node) : Z :=
  terminal_total nd + 1 + edges_total o (children nd).

(** The offset of a node, and the nodes without their offsets. *)
Definition off (H : list Node) (i : nat) : Z := default 0 (trieOffset <$> H !! i).
Definition skeleton (H : list Node) : list Node := set_trieOffset 0 <$> H.

(** Pointers are to nodes, and sizes are those of the payloads. *)
Record linked (H : list Node) : Prop := {
  lk_child : forall i nd e, H !! i = Some nd -> e ∈ children nd -> (child e < length H)%nat;
  lk_entry : forall i nd, H !! i = Some nd -> 0 <= we_size (terminalEntry nd) < 2 ^ 32;
}.

Lemma skeleton_lookup H H' i :
  skeleton H = skeleton H' ->
  set_trieOffset 0 <$> H !! i = set_trieOffset 0 <$> H' !! i.
Proof. intros Hs. rewrite <- !list_lookup_fmap. unfold skeleton in Hs. by rewrite Hs. Qed.

Lemma skeleton_length H H' : skeleton H = skeleton H' -> length H = length H'.
Proof. intros Hs%(f_equal length). unfold skeleton in Hs. by rewrite !length_fmap in Hs. Qed.

Lemma skeleton_some H H' i nd :
  skeleton H = skeleton H' -> H !! i = Some nd ->
  exists nd', H' !! i = Some nd' /\ children nd' = children nd /\
    terminalEntry nd' = terminalEntry nd /\ cummulativeString nd' = cummulativeString nd /\
    terminal_total nd' = terminal_total nd /\ forall o, node_size o nd' = node_size o nd.
Proof.
  intros Hs Hi. pose proof (skeleton_lookup _ _ i Hs) as Hl. rewrite Hi in Hl.
  destruct (H' !! i) as [nd'|]; [|done]. exists nd'. split; [done|].
  destruct nd, nd'. injection Hl as -> -> ->. done.
Qed.

Lemma skeleton_insert (H : list Node) (i : nat) nd o :
  H !! i = Some nd -> skeleton (<[i := set_trieOffset o nd]> H) = skeleton H.
Proof.
  intros Hi. unfold skeleton. rewrite list_fmap_insert. apply list_insert_id.
  by rewrite list_lookup_fmap, Hi.
Qed.

Lemma linked_skeleton H H' : skeleton H = skeleton H' -> linked H -> linked H'.
Proof.
  intros Hs [Hc He]. pose proof (skeleton_length _ _ Hs) as Hl. symmetry in Hs.
  split; [intros i nd e Hi Hin|intros i nd Hi];
    destruct (skeleton_some _ _ _ _ Hs Hi) as (nd' & Hi' & Hch & Hen & _).
  - rewrite <- Hch in Hin. rewrite <- Hl. by eapply Hc.
  - rewrite <- Hen. by eapply He.
Qed.

Lemma edge_size_mono o o' e :
  o (child e) <= o' (child e) -> edge_size o e <= edge_size o' e.
Proof.
  intros Ho. unfold edge_size, uleb. pose proof (length_uleb_encode_mono 10 _ _ Ho). lia.
Qed.

Lemma edges_total_mono o o' es :
  (forall e, e ∈ es -> o (child e) <= o' (child e)) -> edges_total o es <= edges_total o' es.
Proof.
  induction es as [|e es IH]; intros Hall; simpl; [done|].
  pose proof (edge_size_mono o o' e (Hall e ltac:(left))).
  assert (edges_total o es <= edges_total o' es); [|lia]. apply IH. intros. apply Hall. by right.
Qed.

Lemma edges_total_nonneg o es : 0 <= edges_total o es.
Proof. induction es as [|e es IH]; simpl; [done|]. unfold edge_size. lia. Qed.

(** Between one and five bytes for the offset of an edge. *)
Definition edges_chars (es : list Edge) : Z :=
  foldr (fun e r => Z.of_nat (length (partialString e)) + 1 + r) 0 es.

Lemma edges_total_bounds o es :
  (forall e, e ∈ es -> 0 <= o (child e) < 2 ^ 32) ->
  edges_chars es + Z.of_nat (length es) <= edges_total o es <=
    edges_chars es + 5 * Z.of_nat (length es).
Proof.
  induction es as [|e es IH]; intros Hall; cbn [edges_total edges_chars foldr length]; [lia|].
  pose proof (length_uleb_32 _ (Hall e ltac:(left))) as He.
  specialize (IH (fun e' Hin => Hall e' ltac:(by right))).
  fold (edges_total o es) (edges_chars es). unfold edge_size. lia.
Qed.

Lemma edges_chars_bound es :
  edges_chars es + 5 * Z.of_nat (length es) = Z.of_nat (edges_bound es).
Proof.
  induction es as [|e es IH]; [done|]. cbn [edges_chars foldr length].
  fold (edges_chars es). unfold edges_bound in *. cbn [sum_list_with]. lia.
Qed.

Lemma terminal_total_bounds nd :
  0 <= we_size (terminalEntry nd) < 2 ^ 32 ->
  1 <= terminal_total nd <= we_size (terminalEntry nd) + 5.
Proof.
  intros He. unfold terminal_total. pose proof (length_uleb_32 _ He).
  case_bool_decide; lia.
Qed.

Lemma node_size_bounds o nd :
  0 <= we_size (terminalEntry nd) < 2 ^ 32 ->
  (forall e, e ∈ children nd -> 0 <= o (child e) < 2 ^ 32) ->
  2 <= node_size o nd <= Z.of_nat (node_bound nd).
Proof.
  intros He Hc. pose proof (terminal_total_bounds nd He).
  pose proof (edges_total_bounds o (children nd) Hc) as Hb.
  pose proof (edges_chars_bound (children nd)).
  assert (0 <= edges_chars (children nd)).
  { clear. induction (children nd) as [|e es IH]; simpl; [done|]. lia. }
  unfold node_size, node_bound. lia.
Qed.

(** ** One round *)

Definition offsets_ok (H : list Node) : Prop := forall i, 0 <= off H i < 2 ^ 32.

Lemma off_lookup H i nd : H !! i = Some nd -> off H i = trieOffset nd.
Proof. intros Hi. unfold off. by rewrite Hi. Qed.

Lemma edges_size_eq H es acc :
  offsets_ok H -> (forall e, e ∈ es -> (child e < length H)%nat) -> 0 <= acc ->
  acc + edges_total (off H) es < 2 ^ 32 ->
  edges_size H es acc = Ret (acc + edges_total (off H) es).
Proof.
  intros Ho. revert acc. induction es as [|e es IH]; intros acc Hc Ha Hb.
  - cbn. by rewrite Z.add_0_r.
  - cbn [edges_size edges_total foldr] in *. fold (edges_total (off H) es) in *.
    destruct (lookup_lt_is_Some_2 H (child e) (Hc e ltac:(left))) as [c Hc1]. rewrite Hc1.
    cbn [or_stop mbind outcome_bind]. rewrite <- (off_lookup _ _ _ Hc1).
    pose proof (Ho (child e)) as Hco. rewrite uleb128_size_eq by lia.
    fold (edge_size (off H) e).
    assert (0 < edge_size (off H) e) by (unfold edge_size; lia).
    pose proof (edges_total_nonneg (off H) es).
    rewrite (uw_id 64), uw_id by (unfold in_uw; lia).
    rewrite IH; [f_equal; lia| |lia|lia]. intros. apply Hc. by right.
Qed.

Lemma updateOffset_eq H i nd cur :
  linked H -> offsets_ok H -> H !! i = Some nd -> 0 <= cur ->
  cur + node_size (off H) nd < 2 ^ 32 ->
  updateOffset H i cur = Ret (<[i := set_trieOffset cur nd]> H, cur + node_size (off H) nd,
                              negb (off H i =? cur)).
Proof.
  intros [Hc He] Ho Hi Hcur Hb. unfold updateOffset. rewrite Hi. cbn [or_stop mbind outcome_bind].
  pose proof (terminal_total_bounds nd (He _ _ Hi)) as Ht.
  pose proof (edges_total_nonneg (off H) (children nd)) as Hes.
  unfold node_size in *. assert (Htt : terminal_size nd = terminal_total nd).
  { unfold terminal_size, terminal_total in *. pose proof (He _ _ Hi). case_bool_decide; [done|].
    simpl. rewrite uleb128_size_eq by lia. apply uw_id. unfold in_uw. lia. }
  rewrite Htt, uw_id by (unfold in_uw; lia).
  rewrite edges_size_eq by (done || lia || by intros; eapply Hc).
  cbn [mbind outcome_bind]. rewrite uw_id by (unfold in_uw; lia).
  rewrite (off_lookup _ _ _ Hi). done.
Qed.

(** The sizes of the nodes, by index. *)
Definition size_at (H : list Node) (o : nat -> Z) (k : nat) : Z :=
  match H !! k with Some nd => node_size o nd | None => 0 end.

(** The most bytes the nodes from [i] on can take. *)
Definition rest_bound (H : list Node) (i : nat) : Z := Z.of_nat (nodes_bound (drop i H)).

Lemma rest_bound_step H i nd :
  H !! i = Some nd -> rest_bound H i = Z.of_nat (node_bound nd) + rest_bound H (S i).
Proof.
  intros Hi. unfold rest_bound. rewrite (drop_S _ _ _ Hi). unfold nodes_bound at 1.
  cbn [sum_list_with]. fold (nodes_bound (drop (S i) H)). lia.
Qed.

Lemma node_bound_skeleton nd o : node_bound (set_trieOffset o nd) = node_bound nd.
Proof. done. Qed.

Lemma nodes_bound_skeleton H : nodes_bound (skeleton H) = nodes_bound H.
Proof.
  unfold nodes_bound, skeleton. induction H as [|nd H IH]; [done|].
  rewrite fmap_cons. cbn [sum_list_with]. by rewrite IH, node_bound_skeleton.
Qed.

Lemma rest_bound_eq H H' i : skeleton H = skeleton H' -> rest_bound H i = rest_bound H' i.
Proof.
  intros Hs. unfold rest_bound. rewrite <- (nodes_bound_skeleton (drop i H)).
  rewrite <- (nodes_bound_skeleton (drop i H')). unfold skeleton in *.
  by rewrite !fmap_drop, Hs.
Qed.

Lemma off_insert (H : list Node) (i j : nat) nd o :
  H !! i = Some nd -> off (<[i := set_trieOffset o nd]> H) j = if decide (i = j) then o else off H j.
Proof.
  intros Hi. unfold off. destruct (decide (i = j)) as [<-|Hij].
  - by rewrite list_lookup_insert_eq by (by eapply lookup_lt_Some).
  - by rewrite list_lookup_insert_ne.
Qed.

(** The offset of node [k], and behind the last node what the round ends with. *)
Definition off_end (H : list Node) (last : Z) (k : nat) : Z :=
  if (k <? length H)%nat then off H k else last.

Record updated (H H' : list Node) (i : nat) (cur last : Z) : Prop := {
  up_skeleton : skeleton H' = skeleton H;
  up_before : forall j, (j < i)%nat -> off H' j = off H j;
  up_first : off_end H' last i = cur;
  up_step : forall k, (i <= k < length H)%nat ->
    off_end H' last (S k) = off H' k + size_at H (mix (off H') (off H) k) k;
  up_range : offsets_ok H' /\ 0 <= last <= cur + rest_bound H i;
}.

Lemma node_size_ext o o' nd :
  (forall e, e ∈ children nd -> o (child e) = o' (child e)) -> node_size o nd = node_size o' nd.
Proof.
  unfold node_size. intros Hall. f_equal. induction (children nd) as [|e es IH]; [done|]. simpl.
  rewrite IH by (intros; apply Hall; by right). unfold edge_size. by rewrite (Hall e) by left.
Qed.

Lemma update_offsets_spec n H i cur more :
  linked H -> offsets_ok H -> (i + n = length H)%nat -> 0 <= cur ->
  cur + rest_bound H i < 2 ^ 32 ->
  exists H' last more', update_offsets n H i cur more = Ret (H', more') /\
    updated H H' i cur last /\
    (more' = false <-> more = false /\ forall k, (i <= k < length H)%nat -> off H' k = off H k).
Proof.
  revert H i cur more. induction n as [|n IH]; intros H i cur more Hl Ho Hin Hcur Hb.
  { exists H, cur, more. split; [done|]. split.
    - split; [done..| |intros; lia|split; [done|]].
      + unfold off_end. by rewrite (proj2 (Nat.ltb_ge _ _)) by lia.
      + unfold rest_bound. lia.
    - split; [|tauto]. intros ->. split; [done|]. intros; lia. }
  destruct (lookup_lt_is_Some_2 H i ltac:(lia)) as [nd Hi].
  pose proof (rest_bound_step _ _ _ Hi) as Hr.
  destruct Hl as [Hch Hen]. pose proof (Build_linked _ Hch Hen) as Hl.
  pose proof (node_size_bounds (off H) nd (Hen _ _ Hi) (fun e _ => Ho (child e))) as Hsz.
  assert (0 <= rest_bound H (S i)) by (unfold rest_bound; lia).
  cbn [update_offsets]. rewrite (updateOffset_eq H i nd) by (done || lia).
  cbn [mbind outcome_bind]. set (H1 := <[i := _]> H).
  assert (Hs1 : skeleton H1 = skeleton H) by by apply skeleton_insert.
  assert (Hoff1 : forall j, off H1 j = if decide (i = j) then cur else off H j)
    by (intros; by apply off_insert).
  assert (Hlen1 : length H1 = length H) by (by apply skeleton_length).
  destruct (IH H1 (S i) (cur + node_size (off H) nd)
    (if negb (off H i =? cur) then true else more)) as (H' & last & more' & Hup & [Us Ub Uf Ust Ur] & Hmore).
  - by apply (linked_skeleton H).
  - intros j. rewrite Hoff1. case_decide; [lia|apply Ho].
  - rewrite Hlen1. lia.
  - lia.
  - rewrite (rest_bound_eq H1 H) by done. lia.
  - exists H', last, more'. split; [done|].
    assert (Hlen' : length H' = length H) by (apply skeleton_length; congruence).
    assert (Hcur' : off H' i = cur) by (rewrite Ub, Hoff1 by lia; by rewrite decide_True).
    assert (Hbef : forall j, (j < i)%nat -> off H' j = off H j).
    { intros j Hj. rewrite Ub, Hoff1 by lia. by rewrite decide_False by lia. }
    split; [split|].
    + congruence.
    + done.
    + unfold off_end. by rewrite (proj2 (Nat.ltb_lt _ _)) by lia.
    + intros k Hk. destruct (decide (k = i)) as [->|].
      * rewrite Uf, Hcur'. f_equal. unfold size_at. rewrite Hi. apply node_size_ext.
        intros e _. unfold mix. destruct (Nat.ltb_spec (child e) i); [by rewrite Hbef|done].
      * rewrite Ust by lia. f_equal. unfold size_at.
        unfold H1 at 1. rewrite list_lookup_insert_ne by lia.
        destruct (H !! k); [|done]. apply node_size_ext. intros e _. unfold mix.
        destruct (Nat.ltb_spec (child e) k); [done|]. rewrite Hoff1. by rewrite decide_False by lia.
    + rewrite (rest_bound_eq H1 H) in Ur by done. destruct Ur as [Ur1 Ur2]. split; [done|lia].
    + rewrite Hmore. rewrite Hlen1. destruct (Z.eqb_spec (off H i) cur) as [Heq|Hne]; cbn [negb].
      * split; intros [Hm Hall]; (split; [done|]); intros k Hk.
        -- destruct (decide (k = i)) as [->|]; [congruence|].
           rewrite Hall, Hoff1 by lia. by rewrite decide_False by lia.
        -- rewrite Hall, Hoff1 by lia. by rewrite decide_False by lia.
      * split; [by intros [? _]|]. intros [_ Hall]. destruct Hne. rewrite <- Hall by lia. done.
Qed.

(** ** All rounds *)

Lemma size_at_skeleton H H' o k : skeleton H = skeleton H' -> size_at H o k = size_at H' o k.
Proof.
  intros Hs. unfold size_at. pose proof (skeleton_lookup _ _ k Hs) as Hl.
  destruct (H !! k) as [nd|] eqn:Hk, (H' !! k) as [nd'|] eqn:Hk'; try done.
  destruct (skeleton_some _ _ _ _ Hs Hk) as (nd2 & H2 & _ & _ & _ & _ & Hn).
  assert (nd2 = nd') as -> by congruence. by rewrite Hn.
Qed.

Lemma size_at_mono H o o' k :
  linked H -> below (length H) o o' -> size_at H o k <= size_at H o' k.
Proof.
  intros [Hc _] Ho. unfold size_at. destruct (H !! k) as [nd|] eqn:Hk; [|done].
  unfold node_size. assert (edges_total o (children nd) <= edges_total o' (children nd)); [|lia].
  apply edges_total_mono. intros e Hin. by eapply Ho, Hc.
Qed.

Lemma updated_round H H' last :
  linked H -> updated H H' 0 0 last -> round_of (length H) (size_at H) (off H) (off_end H' last).
Proof.
  intros [Hc _] [Hs _ Hf Hst _]. pose proof (skeleton_length _ _ Hs) as Hl. split; [done|].
  intros k Hk. rewrite Hst by lia.
  assert (He : forall j, (j < length H)%nat -> off_end H' last j = off H' j).
  { intros j Hj. unfold off_end. by rewrite (proj2 (Nat.ltb_lt _ _)) by lia. }
  rewrite He by done. apply (f_equal (Z.add _)). unfold size_at. destruct (H !! k) as [nd|] eqn:Hnd; [|done].
  apply node_size_ext. intros e Hin. unfold mix.
  destruct (Nat.ltb_spec (child e) k); [|done]. by rewrite He by lia.
Qed.

(** The ends of two rounds differ by the bytes of the offsets of the edges. *)
Definition offsets_range (len : nat) (o : nat -> Z) : Prop :=
  forall j, (j < len)%nat -> 0 <= o j < 2 ^ 32.

Lemma mix_range len n o k : offsets_range len n -> offsets_range len o -> offsets_range len (mix n o k).
Proof. intros Hn Ho j Hj. unfold mix. destruct (j <? k)%nat; auto. Qed.

Lemma round_end_diff H o n o' n' m :
  linked H -> offsets_range (length H) o -> offsets_range (length H) n ->
  offsets_range (length H) o' -> offsets_range (length H) n' ->
  round_of (length H) (size_at H) o n -> round_of (length H) (size_at H) o' n' ->
  (m <= length H)%nat -> n' m <= n m + 4 * Z.of_nat (count_edges (take m H)).
Proof.
  intros [Hc _] Ho Hn Ho' Hn' [R0 Rs] [R0' Rs'] Hm. induction m as [|m IH].
  - cbn. lia.
  - destruct (lookup_lt_is_Some_2 H m ltac:(lia)) as [nd Hnd].
    rewrite Rs, Rs', (take_S_r _ _ _ Hnd) by lia. unfold count_edges. rewrite sum_list_with_app.
    fold (count_edges (take m H)). cbn [sum_list_with]. specialize (IH ltac:(lia)).
    unfold size_at. rewrite Hnd. unfold node_size.
    pose proof (edges_total_bounds (mix n o m) (children nd)
      (fun e Hin => mix_range _ _ _ _ Hn Ho _ (Hc _ _ _ Hnd Hin))).
    pose proof (edges_total_bounds (mix n' o' m) (children nd)
      (fun e Hin => mix_range _ _ _ _ Hn' Ho' _ (Hc _ _ _ Hnd Hin))). lia.
Qed.

(** The offsets do not change any more: each node begins where the one before
    it ends. *)
Record laid_out (H : list Node) (last : Z) : Prop := {
  lo_first : off_end H last 0 = 0;
  lo_step : forall k, (k < length H)%nat ->
    off_end H last (S k) = off H k + size_at H (off H) k;
  lo_range : offsets_ok H /\ 0 <= last < 2 ^ 32;
}.

Lemma updated_range H H' last :
  updated H H' 0 0 last -> rest_bound H 0 < 2 ^ 32 -> offsets_range (length H) (off_end H' last).
Proof.
  intros [Hs _ _ _ [Ho Hl]] Hb j Hj. unfold off_end.
  destruct (j <? length H')%nat; [apply Ho|lia].
Qed.

Lemma offsets_ok_range H : offsets_ok H -> offsets_range (length H) (off H).
Proof. intros Ho j _. apply Ho. Qed.

(** A round that changes nothing. *)
Lemma unchanged_laid_out H H' last :
  linked H -> updated H H' 0 0 last ->
  (forall k, (0 <= k < length H)%nat -> off H' k = off H k) -> 0 <= last < 2 ^ 32 ->
  laid_out H' last.
Proof.
  intros Hl Hu Hsame Hlast. pose proof (up_skeleton _ _ _ _ _ Hu) as Hs.
  pose proof (skeleton_length _ _ Hs) as Hlen. destruct (up_range _ _ _ _ _ Hu) as [Ho _].
  split; [apply (up_first _ _ _ _ _ Hu)| |done].
  intros k Hk. rewrite (up_step _ _ _ _ _ Hu) by lia. f_equal.
  rewrite (size_at_skeleton H H') by done. unfold size_at.
  destruct (H' !! k) as [nd|] eqn:Hnd; [|done]. apply node_size_ext. intros e Hin.
  unfold mix. destruct (Nat.ltb_spec (child e) k); [done|]. symmetry. apply Hsame.
  assert (linked H') as [Hc _] by (by apply (linked_skeleton H)).
  specialize (Hc _ _ _ Hnd Hin). lia.
Qed.

Lemma assign_loop f H H1 last top :
  linked H -> offsets_ok H -> rest_bound H 0 < 2 ^ 32 -> updated H H1 0 0 last ->
  below (length H) (off H) (off H1) ->
  (forall H2 H3 l, skeleton H2 = skeleton H -> offsets_ok H2 -> updated H2 H3 0 0 l -> l <= top) ->
  top - last < Z.of_nat f ->
  exists H' last', assign_offsets f H1 = Ret H' /\ skeleton H' = skeleton H /\ laid_out H' last'.
Proof.
  revert H H1 last. induction f as [|f IH]; intros H H1 last Hl Ho Hb Hu Hbel Htop Hf.
  { specialize (Htop H H1 last eq_refl Ho Hu). lia. }
  pose proof (up_skeleton _ _ _ _ _ Hu) as Hs1. destruct (up_range _ _ _ _ _ Hu) as [Ho1 Hlast].
  pose proof (skeleton_length _ _ Hs1) as Hlen1.
  assert (Hl1 : linked H1) by (by apply (linked_skeleton H)).
  assert (Hb1 : rest_bound H1 0 < 2 ^ 32) by (by rewrite (rest_bound_eq H1 H)).
  destruct (update_offsets_spec (length H1) H1 0 0 false Hl1 Ho1 ltac:(lia) ltac:(lia) ltac:(lia))
    as (H2 & last2 & more & Hup & Hu2 & Hmore).
  pose proof (up_skeleton _ _ _ _ _ Hu2) as Hs2. destruct (up_range _ _ _ _ _ Hu2) as [Ho2 Hlast2].
  pose proof (skeleton_length _ _ Hs2) as Hlen2.
  cbn [assign_offsets]. rewrite Hup. cbn [mbind outcome_bind].
  pose proof (updated_round _ _ _ Hl Hu) as R1. pose proof (updated_round _ _ _ Hl1 Hu2) as R2.
  rewrite Hlen1 in R2.
  assert (R2' : round_of (length H) (size_at H) (off H1) (off_end H2 last2)).
  { destruct R2 as [R20 R2s]. split; [done|]. intros k Hk.
    rewrite R2s by done. by rewrite (size_at_skeleton H1 H). }
  pose proof (round_mono (length H) (size_at H) (fun o o' k Ho _ => size_at_mono H o o' k Hl Ho)
    _ _ _ _ R1 R2' Hbel) as Hmono.
  assert (Hend1 : forall j, (j < length H)%nat -> off_end H1 last j = off H1 j).
  { intros j Hj. unfold off_end. by rewrite (proj2 (Nat.ltb_lt _ _)) by lia. }
  assert (Hend2 : forall j, (j < length H)%nat -> off_end H2 last2 j = off H2 j).
  { intros j Hj. unfold off_end. by rewrite (proj2 (Nat.ltb_lt _ _)) by lia. }
  assert (Hlasts : off_end H1 last (length H) = last /\ off_end H2 last2 (length H) = last2).
  { unfold off_end. by rewrite !(proj2 (Nat.ltb_ge _ _)) by lia. }
  destruct Hlasts as [HL1 HL2].
  destruct more.
  - assert (Hlt : last < last2).
    { destruct (Z.lt_ge_cases last last2) as [|Hge]; [done|].
      assert (true = false); [|done]. apply Hmore. split; [done|]. intros k Hk.
      rewrite <- Hend1, <- Hend2 by lia.
      apply (round_equal (length H) (size_at H) (fun o o' k Ho _ => size_at_mono H o o' k Hl Ho)
        _ _ _ _ R1 R2' Hbel); [lia|lia]. }
    destruct (IH H1 H2 last2) as (H' & last' & Ha & Hs' & Hlo); try done.
    + intros j Hj. rewrite <- Hend1, <- Hend2 by lia. apply (Hmono (length H)); lia.
    + intros H3 H4 l Hs3 Ho3 Hu3. eapply Htop; [|done..]. congruence.
    + lia.
    + exists H', last'. split; [done|]. split; [congruence|done].
  - destruct (proj1 Hmore eq_refl) as [_ Hsame].
    exists H2, last2. split; [done|]. split; [congruence|].
    apply (unchanged_laid_out H1); [done..|lia].
Qed.

(** The rounds end and the layout is consistent. *)
Lemma assign_offsets_spec H :
  linked H -> Forall (fun nd => trieOffset nd = 0) H -> Z.of_nat (nodes_bound H) < 2 ^ 32 ->
  exists H' last, assign_offsets (4 * count_edges H + 2) H = Ret H' /\
    skeleton H' = skeleton H /\ laid_out H' last.
Proof.
  intros Hl Hz Hb.
  assert (Hoff : forall i, off H i = 0).
  { intros i. unfold off. destruct (H !! i) as [nd|] eqn:Hi; [|done]. simpl.
    by apply (Forall_lookup_1 _ _ _ _ Hz Hi). }
  assert (Ho : offsets_ok H) by (intros i; rewrite Hoff; lia).
  assert (Hr : rest_bound H 0 < 2 ^ 32) by done.
  destruct (update_offsets_spec (length H) H 0 0 false Hl Ho ltac:(lia) ltac:(lia) ltac:(lia))
    as (H1 & last & more & Hup & Hu & Hmore).
  pose proof (up_skeleton _ _ _ _ _ Hu) as Hs. destruct (up_range _ _ _ _ _ Hu) as [Ho1 Hlast].
  pose proof (skeleton_length _ _ Hs) as Hlen.
  assert (Hbel : below (length H) (off H) (off H1)) by (intros j _; rewrite Hoff; apply Ho1).
  assert (Htop : forall H2 H3 l, skeleton H2 = skeleton H -> offsets_ok H2 -> updated H2 H3 0 0 l ->
            l <= last + 4 * Z.of_nat (count_edges H)).
  { intros H2 H3 l Hs2 Ho2 Hu2. pose proof (skeleton_length _ _ Hs2) as Hl2.
    pose proof (skeleton_length _ _ (up_skeleton _ _ _ _ _ Hu2)) as Hl3.
    assert (Hlk2 : linked H2) by (by apply (linked_skeleton H)).
    pose proof (updated_round _ _ _ Hlk2 Hu2) as R2. rewrite Hl2 in R2.
    assert (R2' : round_of (length H) (size_at H) (off H2) (off_end H3 l)).
    { destruct R2 as [R20 R2s]. split; [done|]. intros k Hk.
      rewrite R2s by done. by rewrite (size_at_skeleton H2 H). }
    pose proof (round_end_diff H _ _ _ _ (length H) Hl (offsets_ok_range _ Ho)
      (updated_range _ _ _ Hu Hr) (fun j Hj => Ho2 j)
      ltac:(rewrite <- Hl2; apply (updated_range _ _ _ Hu2); by rewrite (rest_bound_eq H2 H))
      (updated_round _ _ _ Hl Hu) R2' ltac:(lia)) as Hd.
    unfold off_end in Hd. rewrite !(proj2 (Nat.ltb_ge _ _)), firstn_all in Hd by lia. done. }
  replace (4 * count_edges H + 2)%nat with (S (4 * count_edges H + 1)) by lia.
  cbn [assign_offsets]. rewrite Hup. cbn [mbind outcome_bind]. destruct more.
  - eapply (assign_loop _ H); try done. lia.
  - destruct (proj1 Hmore eq_refl) as [_ Hsame].
    exists H1, last. split; [done|]. split; [done|].
    apply (unchanged_laid_out H); [done..|lia].
Qed.

(** The end is within the bound of the nodes. *)
Lemma laid_out_bound H last : linked H -> laid_out H last -> last <= Z.of_nat (nodes_bound H).
Proof.
  intros [_ Hen] [H0 Hs [Ho _]].
  assert (Hk : forall k, (k <= length H)%nat ->
            off_end H last k <= Z.of_nat (nodes_bound (take k H))).
  { induction k as [|k IH]; intros Hk; [rewrite H0; cbn; lia|].
    destruct (lookup_lt_is_Some_2 H k ltac:(lia)) as [nd Hnd].
    rewrite Hs, (take_S_r _ _ _ Hnd), nodes_bound_app by lia.
    unfold size_at. rewrite Hnd. specialize (IH ltac:(lia)). unfold off_end in IH.
    rewrite (proj2 (Nat.ltb_lt _ _)) in IH by lia.
    pose proof (node_size_bounds (off H) nd (Hen _ _ Hnd) (fun e _ => Ho (child e))).
    unfold nodes_bound at 2. cbn [sum_list_with]. lia. }
  specialize (Hk (length H) ltac:(lia)). rewrite firstn_all in Hk. unfold off_end in Hk.
  by rewrite (proj2 (Nat.ltb_ge _ _)) in Hk by lia.
Qed.

(** ** The stream *)

Definition edge_bytes (H : list Node) (e : Edge) : list byte :=
  partialString e ++ [x00] ++ uleb (off H (child e)).

Definition terminal_bytes (temp : list byte) (nd : Node) : list byte :=
  if bool_decide (we_name (terminalEntry nd) = []) then [x00]
  else uleb (we_size (terminalEntry nd)) ++ payload (terminalEntry nd) temp.

Definition node_bytes (H : list Node) (temp : list byte) (nd : Node) : list byte :=
  terminal_bytes temp nd ++ [byte_of (u8 (Z.of_nat (length (children nd))))] ++
  concat (edge_bytes H <$> children nd).

Lemma append_edges_eq H es out :
  offsets_ok H -> (forall e, e ∈ es -> (child e < length H)%nat) ->
  append_edges H es out = Ret (out ++ concat (edge_bytes H <$> es)).
Proof.
  intros Ho. revert out. induction es as [|e es IH]; intros out Hc; cbn [append_edges].
  - cbn. by rewrite app_nil_r.
  - destruct (lookup_lt_is_Some_2 H (child e) (Hc e ltac:(left))) as [c Hc1].
    rewrite Hc1. cbn [or_stop mbind outcome_bind]. rewrite <- (off_lookup _ _ _ Hc1).
    pose proof (Ho (child e)). rewrite append_uleb128_eq by lia. unfold append_string.
    rewrite IH by (intros; apply Hc; by right). rewrite fmap_cons. cbn [concat].
    unfold edge_bytes at 2. by rewrite <- !app_assoc.
Qed.

Lemma appendToStream_eq H temp nd i out :
  linked H -> offsets_ok H -> H !! i = Some nd ->
  appendToStream H temp nd out = Ret (out ++ node_bytes H temp nd).
Proof.
  intros [Hc He] Ho Hi. unfold appendToStream. rewrite append_edges_eq by (done || by intros; eapply Hc).
  unfold node_bytes, terminal_bytes. pose proof (He _ _ Hi). f_equal.
  case_bool_decide; cbn [negb]; [|rewrite append_uleb128_eq by lia]; by rewrite <- !app_assoc.
Qed.

(** The payloads are in the terminal buffer. *)
Definition payloads_in (temp : list byte) (H : list Node) : Prop :=
  forall i nd, H !! i = Some nd ->
    Z.of_nat (length (payload (terminalEntry nd) temp)) = we_size (terminalEntry nd).

Lemma length_node_bytes H temp nd i :
  payloads_in temp H -> H !! i = Some nd ->
  Z.of_nat (length (node_bytes H temp nd)) = node_size (off H) nd.
Proof.
  intros Hp Hi. unfold node_bytes, node_size. rewrite !length_app, !Nat2Z.inj_add.
  assert (Ht : Z.of_nat (length (terminal_bytes temp nd)) = terminal_total nd).
  { unfold terminal_bytes, terminal_total. case_bool_decide; [done|].
    rewrite length_app, Nat2Z.inj_add, (Hp _ _ Hi). lia. }
  assert (He : Z.of_nat (length (concat (edge_bytes H <$> children nd))) =
               edges_total (off H) (children nd)).
  { induction (children nd) as [|e es IH]; [done|]. rewrite fmap_cons. cbn [concat edges_total foldr].
    fold (edges_total (off H) es). rewrite length_app, Nat2Z.inj_add, IH.
    unfold edge_size, edge_bytes. rewrite !length_app. cbn [length]. lia. }
  rewrite Ht, He. simpl. lia.
Qed.

Definition trie_stream (H : list Node) (temp : list byte) : list byte :=
  concat (node_bytes H temp <$> H).

Lemma append_nodes_eq H temp last k out :
  linked H -> payloads_in temp H -> laid_out H last -> (k <= length H)%nat ->
  Z.of_nat (length out) = off_end H last k ->
  append_nodes H temp (drop k H) out = Ret (out ++ concat (node_bytes H temp <$> drop k H)) /\
  Z.of_nat (length out) + Z.of_nat (length (concat (node_bytes H temp <$> drop k H))) = last.
Proof.
  intros Hl Hp [L0 Ls [Lo _]] Hk. remember (length H - k)%nat as m eqn:Hm.
  revert k out Hk Hm. induction m as [|m IH]; intros k out Hk Hm Hout.
  - rewrite drop_ge by lia. cbn. rewrite app_nil_r. split; [done|].
    rewrite Hout. unfold off_end. rewrite (proj2 (Nat.ltb_ge _ _)) by lia. lia.
  - destruct (lookup_lt_is_Some_2 H k ltac:(lia)) as [nd Hnd]. rewrite (drop_S _ _ _ Hnd).
    cbn [append_nodes]. rewrite fmap_cons. cbn [concat].
    specialize (Ls k ltac:(lia)). unfold size_at in Ls. rewrite Hnd in Ls.
    assert (Hoff : off_end H last k = off H k).
    { unfold off_end. by rewrite (proj2 (Nat.ltb_lt _ _)) by lia. }
    rewrite Hoff in Hout. rewrite <- (off_lookup _ _ _ Hnd), Hout, Z.eqb_refl.
    rewrite (appendToStream_eq H temp nd k) by done. cbn [mbind outcome_bind].
    pose proof (length_node_bytes H temp nd k Hp Hnd) as Hlen.
    destruct (IH (S k) (out ++ node_bytes H temp nd)) as [He Hend]; [lia|lia| |].
    { rewrite length_app, Ls. lia. }
    rewrite He, <- app_assoc. split; [done|].
    rewrite !length_app in *. lia.
Qed.

(** The bytes at the offset of a node are its own. *)
Lemma stream_at H temp last i nd :
  linked H -> payloads_in temp H -> laid_out H last -> H !! i = Some nd ->
  exists rest, drop (Z.to_nat (off H i)) (trie_stream H temp) = node_bytes H temp nd ++ rest /\
    off H i + Z.of_nat (length (node_bytes H temp nd) + length rest) = last.
Proof.
  intros Hl Hp Hlo Hi. destruct (append_nodes_eq H temp last 0 [] Hl Hp Hlo) as [_ Hlast];
    [lia|by rewrite (lo_first _ _ Hlo)|]. rewrite drop_0 in Hlast. cbn in Hlast.
  assert (Hpre : forall k, (k <= length H)%nat ->
            Z.of_nat (length (concat (node_bytes H temp <$> take k H))) = off_end H last k).
  { intros k Hk. induction k as [|k IH]; [by rewrite (lo_first _ _ Hlo)|].
    destruct (lookup_lt_is_Some_2 H k ltac:(lia)) as [nd' Hnd'].
    rewrite (take_S_r _ _ _ Hnd'), fmap_app, concat_app, length_app, Nat2Z.inj_add, IH by lia.
    rewrite (lo_step _ _ Hlo) by lia. unfold size_at. rewrite Hnd'. cbn.
    rewrite app_nil_r, (length_node_bytes H temp nd' k) by done.
    unfold off_end. by rewrite (proj2 (Nat.ltb_lt _ _)) by lia. }
  assert (Hlt : (i < length H)%nat) by (by eapply lookup_lt_Some).
  specialize (Hpre i ltac:(lia)). unfold off_end in Hpre. rewrite (proj2 (Nat.ltb_lt _ _)) in Hpre by lia.
  exists (concat (node_bytes H temp <$> drop (S i) H)).
  assert (Hsplit : trie_stream H temp = concat (node_bytes H temp <$> take i H) ++
            node_bytes H temp nd ++ concat (node_bytes H temp <$> drop (S i) H)).
  { unfold trie_stream. rewrite <- (take_drop_middle H i nd Hi) at 2.
    by rewrite fmap_app, fmap_cons, concat_app. }
  rewrite <- Hpre. split.
  - rewrite Hsplit, Nat2Z.id. by rewrite drop_app_length.
  - unfold trie_stream in Hsplit. rewrite Hsplit, !length_app in Hlast. lia.
Qed.
