(* ===== verification/TrieParse.v ===== *)
(** * abstraction/MachOTrie.hpp: parsing an export trie

    [parseTrie] and the routines it calls, which [prune_trie] reads a trie
    with.  The bytes between [start] and [end] are a list and a pointer into
    them is its distance from [start].  Reading or writing outside of the
    trie or of the buffer for names stops with [Out_of_bounds]: there C++
    leaves undefined what happens. *)

From Stdlib Require Import ZArith Lia Bool.
From Stdlib Require Import Init.Byte.
From stdpp Require Import base option numbers sorting list.
From S2P Require Import Prelude CInt Leb128 TrieBuild.

Inductive parse_failure :=
  | Node_past_end
  | Uleb_past_end
  | Uleb_too_big
  | Terminal_past_end
  | Child_offset_zero
  | Out_of_bounds
  | Parse_fuel.

Record Entry := {
  en_name : list byte;
  en_address : Z;
  en_flags : Z;
  en_other : Z;
  en_importName : option nat;    (* a pointer into the trie, or null *)
}.

Record EntryWithOffset := {
  nodeOffset : nat;
  entry : Entry;
}.

(** The order of [operator<], as the relation the sort goes by. *)
Definition offset_le (a b : EntryWithOffset) : Prop := (nodeOffset a <= nodeOffset b)%nat.

#[export] Instance offset_le_dec : RelDecision offset_le :=
  fun a b => decide (nodeOffset a <= nodeOffset b)%nat.

(** ** read_uleb128 *)

(** The rounds; [l] are the bytes from [p] on. *)
Fixpoint trie_uleb_loop (l : list byte) (p : nat) (result bit : Z)
    : outcome parse_failure (Z * nat) :=
  match l with
  | [] => Stop Uleb_past_end
  | b :: l' =>
      let slice := Z.land (byte_Z b) 0x7f in
      if (64 <=? bit) || negb (Z.shiftr (u64 (Z.shiftl slice bit)) bit =? slice)
      then Stop Uleb_too_big
      else
        let result := Z.lor result (u64 (Z.shiftl slice bit)) in
        if negb (Z.land (byte_Z b) 0x80 =? 0) then trie_uleb_loop l' (S p) result (bit + 7)
        else Ret (result, S p)
  end.

(** The value and [p] behind it.  Only [p == end] stops the reading. *)
Definition trie_read_uleb128 (d : list byte) (p : nat) : outcome parse_failure (Z * nat) :=
  if (length d <? p)%nat then Stop Out_of_bounds else trie_uleb_loop (drop p d) p 0 0.

(** ** processExportNode *)

(** [cummulativeString[i] = c] *)
Definition write_char (buf : list byte) (i : nat) (c : byte) : outcome parse_failure (list byte) :=
  if (i <? length buf)%nat then Ret (<[i := c]> buf) else Stop Out_of_bounds.

(** What [strdup] copies: the characters before the first NUL. *)
Fixpoint name_string (l : list byte) : option (list byte) :=
  match l with
  | [] => None
  | c :: l' => if Byte.eqb c x00 then Some [] else (c ::.) <$> name_string l'
  end.

(** The edge at [s], copied behind the first [curStrOffset] characters; [l]
    are the bytes from [s] on. *)
Fixpoint copy_edge (l : list byte) (s : nat) (buf : list byte) (curStrOffset edgeStrLen : nat)
    : outcome parse_failure (nat * list byte * nat) :=
  match l with
  | [] => Stop Out_of_bounds
  | c :: l' =>
      buf ← write_char buf (curStrOffset + edgeStrLen) c;
      if negb (Byte.eqb c x00) then copy_edge l' (S s) buf curStrOffset (S edgeStrLen)
      else Ret (S s, buf, edgeStrLen)
  end.

(** The entry of a terminal node; [p] is behind [terminalSize]. *)
Definition read_entry (d : list byte) (p : nat) (buf : list byte)
    : outcome parse_failure EntryWithOffset :=
  name ← or_stop Out_of_bounds (name_string buf);
  '(flags, q) ← trie_read_uleb128 d p;
  if has_flag flags EXPORT_SYMBOL_FLAGS_REEXPORT then
    '(other, q) ← trie_read_uleb128 d q;
    Ret {| nodeOffset := p;
           entry := {| en_name := name; en_address := 0; en_flags := flags; en_other := other;
                       en_importName := Some q |} |}
  else
    '(address, q) ← trie_read_uleb128 d q;
    '(other, q) ← (if has_flag flags EXPORT_SYMBOL_FLAGS_STUB_AND_RESOLVER
                   then trie_read_uleb128 d q else Ret (0, q));
    Ret {| nodeOffset := p;
           entry := {| en_name := name; en_address := address; en_flags := flags;
                       en_other := other; en_importName := None |} |}.

(** The loop over the children; [rec] is the recursive call. *)
Fixpoint process_children
    (rec : nat -> list byte -> nat -> list EntryWithOffset ->
           outcome parse_failure (list byte * list EntryWithOffset))
    (d : list byte) (n s : nat) (buf : list byte) (curStrOffset : nat)
    (output : list EntryWithOffset)
    : outcome parse_failure (list byte * list EntryWithOffset) :=
  match n with
  | O => Ret (buf, output)
  | S n' =>
      '(s, buf, edgeStrLen) ← copy_edge (drop s d) s buf curStrOffset 0;
      '(v, s) ← trie_read_uleb128 d s;
      let childNodeOffset := u32 v in
      if childNodeOffset =? 0 then Stop Child_offset_zero
      else
        '(buf, output) ← rec (Z.to_nat childNodeOffset) buf (curStrOffset + edgeStrLen)%nat output;
        process_children rec d n' s buf curStrOffset output
  end.

(** [base] is the address of [start], which matters for [p + terminalSize]
    alone: it can wrap around.  [fuel] bounds the depth of the recursion. *)
Fixpoint processExportNode (fuel : nat) (base : Z) (d : list byte) (p : nat) (buf : list byte)
    (curStrOffset : nat) (output : list EntryWithOffset)
    : outcome parse_failure (list byte * list EntryWithOffset) :=
  match fuel with
  | O => Stop Parse_fuel
  | S f =>
      if (length d <=? p)%nat then Stop Node_past_end
      else
        '(terminalSize, p) ← trie_read_uleb128 d p;
        let children := u64 (base + Z.of_nat p + terminalSize) in
        output ← (if negb (terminalSize =? 0)
                  then e ← read_entry d p buf; Ret (output ++ [e])
                  else Ret output);
        if base + Z.of_nat (length d) <? children then Stop Terminal_past_end
        else if children <? base then Stop Out_of_bounds
        else
          let c := Z.to_nat (children - base) in
          childrenCount ← or_stop Out_of_bounds (d !! c);
          process_children (processExportNode f base d) d (Z.to_nat (byte_Z childrenCount)) (S c)
            buf curStrOffset output
  end.

(** ** parseTrie *)

(** [contents] is what the memory of the buffer for names holds when it is
    allocated.  Where nodes have the same offset, which is when a node was
    reached twice, [std::sort] may order them otherwise.  A path through more
    nodes than the trie has bytes visits a node twice, and so does not end. *)
Definition parseTrie (base : Z) (d contents : list byte) : outcome parse_failure (list Entry) :=
  match d with
  | [] => Ret []
  | _ =>
      let cummulativeString := take (length d) (contents ++ repeat x00 (length d)) in
      '(_, entries) ← processExportNode (length d + 1) base d 0 cummulativeString 0 [];
      Ret (entry <$> merge_sort offset_le entries)
  end.
