(* ===== verification/TrieReadSpec.v ===== *)
(** * Reading back the pieces of an export trie

    [read_uleb128], [copy_edge] and [read_entry] on the bytes the builder
    writes. *)

From Stdlib Require Import ZArith Lia Bool.
From Stdlib Require Import Init.Byte.
From stdpp Require Import base option numbers list.
From S2P Require Import Prelude CInt Leb128 TrieBuild TrieTree TrieEntries TrieLayout TrieParse.

(** ** read_uleb128 *)

Definition leb_failure (e : leb_error) : parse_failure :=
  match e with LebPastEnd => Uleb_past_end | LebTooBig => Uleb_too_big end.

(** It is the reader of otool, with exceptions for the errors. *)
Lemma trie_uleb_loop_eq l p r bit :
  trie_uleb_loop l p r bit =
    match uleb_loop l r bit with
    | (v, l', None) => Ret (v, p + (length l - length l'))%nat
    | (_, _, Some e) => Stop (leb_failure e)
    end.
Proof.
  revert p r bit. induction l as [|b l IH]; intros p r bit; [done|].
  cbn [trie_uleb_loop uleb_loop]. unfold slice7, more.
  destruct (_ || _); [done|]. destruct (negb _).
  - rewrite IH. destruct (uleb_loop _ _ _) as [[v l'] e] eqn:E. destruct e; [done|].
    assert (length l' <= length l)%nat.
    { clear IH. revert E. generalize (Z.lor r (u64 (Z.shiftl (Z.land (byte_Z b) 127) bit))), (bit + 7).
      induction l as [|b' l IH]; intros r' bit' E; [by injection E as <- <-|].
      cbn [uleb_loop] in E. destruct (_ || _); [done|]. destruct (more b').
      - apply IH in E. simpl. lia.
      - injection E as _ <-. simpl. lia. }
    do 2 f_equal. simpl length. lia.
  - do 2 f_equal. simpl length. lia.
Qed.

Lemma read_encoded d p v rest :
  0 <= v < 2 ^ 64 -> drop p d = uleb v ++ rest ->
  trie_read_uleb128 d p = Ret (v, p + length (uleb v))%nat.
Proof.
  intros Hv Hd. unfold trie_read_uleb128. pose proof (length_uleb v Hv).
  assert (p < length d)%nat.
  { apply (f_equal length) in Hd. rewrite length_drop, length_app in Hd. lia. }
  rewrite (proj2 (Nat.ltb_ge _ _)) by lia. rewrite trie_uleb_loop_eq, Hd.
  pose proof (read_uleb128_encode v rest Hv) as Hr. unfold read_uleb128 in Hr. rewrite Hr.
  rewrite length_app. do 2 f_equal. lia.
Qed.

Lemma drop_behind {A} (d : list A) p l rest :
  drop p d = l ++ rest -> drop (p + length l) d = rest.
Proof. intros Hd. by rewrite <- drop_drop, Hd, drop_app_length. Qed.

(** ** Strings *)

Lemma name_string_app s r : x00 ∉ s -> name_string (s ++ x00 :: r) = Some s.
Proof.
  induction s as [|c s IH]; intros Hn; [done|]. cbn [app name_string].
  rewrite (proj2 (byte_eqb_false c x00)).
  - rewrite IH; [done|]. intros Hx. apply Hn. by right.
  - intros ->. apply Hn. left.
Qed.

(** The edge is copied behind the string [c], with its NUL. *)
Lemma copy_edge_eq s str rest p c k old :
  x00 ∉ str -> s = str ++ x00 :: rest -> (length str < length old)%nat ->
  copy_edge s p (c ++ old) (length c - k) k =
    Ret (p + length str + 1, c ++ str ++ x00 :: drop (length str + 1) old, k + length str)%nat
  \/ (length c < k)%nat.
Proof.
  revert s p c k old. induction str as [|b str IH]; intros s p c k old Hn -> Hlen;
    destruct (Nat.lt_ge_cases (length c) k) as [|Hk]; try (by right); left.
  - destruct old as [|o old]; [simpl in Hlen; lia|]. cbn [app copy_edge]. unfold write_char.
    replace (length c - k + k)%nat with (length c) by lia.
    rewrite (proj2 (Nat.ltb_lt _ _)) by (rewrite length_app; simpl; lia).
    cbn [mbind outcome_bind]. rewrite (insert_app_r_alt _ _ (length c)), Nat.sub_diag by lia.
    simpl. do 2 f_equal; [f_equal; lia|lia].
  - destruct old as [|o old]; [simpl in Hlen; lia|]. cbn [app copy_edge]. unfold write_char.
    replace (length c - k + k)%nat with (length c) by lia.
    rewrite (proj2 (Nat.ltb_lt _ _)) by (rewrite length_app; simpl; lia).
    cbn [mbind outcome_bind]. rewrite (insert_app_r_alt _ _ (length c)), Nat.sub_diag by lia.
    rewrite (proj2 (byte_eqb_false b x00)) by (intros ->; apply Hn; left). cbn [negb].
    destruct (IH (str ++ x00 :: rest) (S p) (c ++ [b]) (S k) old) as [He|Hbad].
    + intros Hx. apply Hn. by right.
    + done.
    + simpl in Hlen. lia.
    + rewrite length_app in He. simpl length in He.
      replace (length c + 1 - S k)%nat with (length c - k)%nat in He by lia.
      change (<[0%nat := b]> (o :: old)) with (b :: old).
      rewrite <- app_assoc in He. cbn [app] in He. rewrite He.
      rewrite <- app_assoc. cbn [app length drop]. do 2 f_equal; [f_equal; lia|lia].
    + rewrite length_app in Hbad. simpl in Hbad. lia.
Qed.

Lemma copy_edge_at d p str rest c old :
  x00 ∉ str -> drop p d = str ++ x00 :: rest -> (length str < length old)%nat ->
  copy_edge (drop p d) p (c ++ old) (length c) 0 =
    Ret (p + length str + 1, c ++ str ++ x00 :: drop (length str + 1) old, length str)%nat.
Proof.
  intros Hn Hd Hlen. destruct (copy_edge_eq _ _ _ p c 0 old Hn Hd Hlen) as [He|]; [|lia].
  by rewrite Nat.sub_0_r in He.
Qed.

(** ** Entries *)

(** What is read for an export whose payload is at [p]. *)
Definition entry_of (p : nat) (x : Export) : EntryWithOffset :=
  {| nodeOffset := p;
     entry :=
       let reexport := has_flag (ex_flags x) EXPORT_SYMBOL_FLAGS_REEXPORT in
       {| en_name := ex_name x;
          en_address := if reexport then 0 else ex_offset x;
          en_flags := ex_flags x;
          en_other := if reexport then ex_other x
                      else if has_flag (ex_flags x) EXPORT_SYMBOL_FLAGS_STUB_AND_RESOLVER
                      then ex_other x else 0;
          en_importName := if reexport
            then Some (p + length (uleb (ex_flags x)) + length (uleb (ex_other x)))%nat
            else None |} |}.

Lemma read_entry_eq d p x rest buf :
  export_ok x -> drop p d = export_payload x ++ rest -> name_string buf = Some (ex_name x) ->
  read_entry d p buf = Ret (entry_of p x).
Proof.
  intros [_ _ _ Ho Hf Ht] Hd Hbuf. unfold read_entry, entry_of. rewrite Hbuf.
  cbn [or_stop mbind outcome_bind].
  assert (Hflags : exists r, drop p d = uleb (ex_flags x) ++ r /\
    r = (if has_flag (ex_flags x) EXPORT_SYMBOL_FLAGS_REEXPORT
         then uleb (ex_other x) ++ import_bytes x ++ [x00]
         else if has_flag (ex_flags x) EXPORT_SYMBOL_FLAGS_STUB_AND_RESOLVER
         then uleb (ex_offset x) ++ uleb (ex_other x) else uleb (ex_offset x)) ++ rest).
  { eexists. split; [|done]. rewrite Hd. unfold export_payload.
    destruct (has_flag _ _); [|destruct (has_flag _ _)]; by rewrite <- !app_assoc. }
  destruct Hflags as (r & Hd1 & ->). rewrite (read_encoded _ _ _ _ Hf Hd1).
  cbn [mbind outcome_bind]. apply drop_behind in Hd1.
  destruct (has_flag _ _) eqn:Hre.
  - rewrite <- app_assoc in Hd1. rewrite (read_encoded _ _ _ _ Ht Hd1). done.
  - destruct (has_flag _ EXPORT_SYMBOL_FLAGS_STUB_AND_RESOLVER) eqn:Hst.
    + rewrite <- app_assoc in Hd1. rewrite (read_encoded _ _ _ _ Ho Hd1).
      cbn [mbind outcome_bind]. apply drop_behind in Hd1.
      rewrite (read_encoded _ _ _ _ Ht Hd1). done.
    + rewrite (read_encoded _ _ _ _ Ho Hd1). done.
Qed.

(** The import name it points to. *)
Lemma import_name_at d p x rest :
  export_ok x -> drop p d = export_payload x ++ rest ->
  has_flag (ex_flags x) EXPORT_SYMBOL_FLAGS_REEXPORT = true ->
  name_string (drop (p + length (uleb (ex_flags x)) + length (uleb (ex_other x))) d) =
    Some (import_bytes x).
Proof.
  intros Hx Hd Hre. unfold export_payload in Hd. rewrite Hre, <- !app_assoc in Hd.
  do 2 apply drop_behind in Hd. rewrite Hd. cbn [app]. apply name_string_app.
  unfold import_bytes. case_bool_decide; [apply not_elem_of_nil|apply Hx].
Qed.
