(* ===== verification/TrieWalk.v ===== *)
(** * Walking a built export trie

    [processExportNode] on the stream of a tree of nodes: it visits the nodes
    in the order of the tree, the buffer for names holds the path to the node,
    and every read and write is in bounds. *)

From Stdlib Require Import ZArith Lia Bool.
From Stdlib Require Import Init.Byte.
From stdpp Require Import base option numbers list.
From S2P Require Import Prelude CInt Leb128 TrieBuild TrieTree TrieEntries TrieLayout.
From S2P Require Import TrieParse TrieReadSpec.

(** ** Nodes of a represented tree *)

Lemma rep_skeleton H H' c t : skeleton H' = skeleton H -> rep H c t -> rep H' c t.
Proof.
  intros Hs. symmetry in Hs. revert c. induction t as [i ks IH] using tree_ind'.
  intros c [(nd & Hi & Hok) Hks]%rep_T. apply rep_T. split.
  - destruct (skeleton_some _ _ _ _ Hs Hi) as (nd' & Hi' & Hch & He & Hc & _).
    exists nd'. split; [done|]. destruct Hok as [Oc Och Oh Oe Ochars Ol].
    split; try congruence; try done.
    + unfold entry_ok in *. by rewrite He, Hc.
    + intros t Hin. destruct (Ol t Hin) as (Hk & nd2 & H2 & Ht). split; [done|].
      destruct (skeleton_some _ _ _ _ Hs H2) as (nd3 & H3 & _ & He3 & _).
      exists nd3. split; [done|]. unfold terminal in *. by rewrite He3.
  - intros s t Hin. by eapply IH; [|apply Hks].
Qed.

Lemma rep_node H c t j :
  rep H c t -> j ∈ ids t ->
  exists c' ks nd, H !! j = Some nd /\ node_ok H c' ks nd /\
    forall s t', (s, t') ∈ ks -> root t' ∈ ids t.
Proof.
  revert c. induction t as [i ks IH] using tree_ind'. intros c [(nd & Hi & Hok) Hks]%rep_T Hj.
  rewrite ids_T in Hj. apply elem_of_cons in Hj as [->|(s & t & Hin & Hj)%elem_of_kids_ids].
  - exists c, ks, nd. split_and!; [done..|]. intros s t' Hin.
    eapply kid_in_ids; [done|apply root_in_ids].
  - destruct (IH s t Hin _ (Hks _ _ Hin) Hj) as (c' & ks' & nd' & Hn & Hok' & Hr).
    exists c', ks', nd'. split_and!; [done..|]. intros s' t' Hin'.
    eapply kid_in_ids; [exact Hin|by eapply Hr].
Qed.

Lemma trie_nodes_lookup H j nd :
  trie_nodes H -> H !! j = Some nd ->
  exists c ks, node_ok H c ks nd /\ forall s t', (s, t') ∈ ks -> (root t' < length H)%nat.
Proof.
  intros (t & _ & Hrep & Hids) Hj.
  assert (Hin : j ∈ ids t).
  { rewrite Hids. apply elem_of_seq. apply lookup_lt_Some in Hj. lia. }
  destruct (rep_node _ _ _ _ Hrep Hin) as (c & ks & nd' & Hn & Hok & Hr).
  assert (nd' = nd) as -> by congruence. exists c, ks. split; [done|].
  intros s t' Hk. specialize (Hr s t' Hk). rewrite Hids in Hr. apply elem_of_seq in Hr. lia.
Qed.

(** A node has at most 255 children. *)
Lemma heads_bound (l : list byte) : NoDup l -> xff ∉ l -> (length l <= 255)%nat.
Proof.
  intros Hnd Hff.
  assert (Hsub : (fun b => Z.to_nat (byte_Z b)) <$> l ⊆ seq 0 255).
  { intros n (b & -> & Hin)%list_elem_of_fmap. apply elem_of_seq.
    pose proof (byte_Z_range b). destruct (decide (byte_Z b = 255)) as [Heq|]; [|lia].
    change 255 with (byte_Z xff) in Heq. apply byte_Z_inj in Heq as ->. done. }
  assert (Hnd' : NoDup ((fun b => Z.to_nat (byte_Z b)) <$> l)).
  { apply NoDup_fmap_2_strong; [|done]. intros a b _ _ Heq. apply byte_Z_inj.
    pose proof (byte_Z_range a). pose proof (byte_Z_range b). lia. }
  pose proof (NoDup_incl_length (l := (fun b => Z.to_nat (byte_Z b)) <$> l) (l' := seq 0 255)) as Hl.
  rewrite length_fmap, length_seq in Hl. apply Hl.
  - by apply NoDup_ListNoDup.
  - intros n Hn%list_elem_of_In. apply list_elem_of_In. by apply Hsub.
Qed.

Lemma children_bound H c ks nd : node_ok H c ks nd -> (length (children nd) <= 255)%nat.
Proof.
  intros Hok. rewrite (ok_children _ _ _ _ Hok), length_fmap.
  rewrite <- (length_fmap (first_char ∘ fst) ks). apply heads_bound; [by apply (ok_heads _ _ _ _ Hok)|].
  intros ([s t] & Heq & Hin)%list_elem_of_fmap. simpl in Heq.
  pose proof (ok_chars _ _ _ _ Hok _ _ Hin) as Hs. destruct s as [|b s]; [done|].
  simpl in Heq. subst b. by apply Forall_cons_1 in Hs as [[_ ?] _].
Qed.

(** ** The walk *)

Section walk.
(** The nodes laid out in the trie [d]; terminal nodes have the payload of
    their export. *)
Context (H : list Node) (temp : list byte) (last : Z) (d pad : list byte) (base : Z).
Context (export_of : nat -> Export).
Context (Hlinked : linked H) (Hpayloads : payloads_in temp H) (Hlaid : laid_out H last).
Context (Hd : d = trie_stream H temp ++ pad).
Context (Hexport : forall i nd, H !! i = Some nd -> terminal nd ->
  export_ok (export_of i) /\ ex_name (export_of i) = we_name (terminalEntry nd) /\
  payload (terminalEntry nd) temp = export_payload (export_of i)).
Context (Hbase : 0 <= base /\ base + Z.of_nat (length d) < 2 ^ 64).

(** The place of the payload of a node. *)
Definition payload_at (i : nat) (nd : Node) : nat :=
  (Z.to_nat (off H i) + length (uleb (we_size (terminalEntry nd))))%nat.

Definition node_result (i : nat) : list EntryWithOffset :=
  match H !! i with
  | Some nd => if decide (terminal nd) then [entry_of (payload_at i nd) (export_of i)] else []
  | None => []
  end.

Definition weight (i : nat) : nat := Z.to_nat (size_at H (off H) i).

Lemma off_ok i : 0 <= off H i < 2 ^ 32.
Proof. destruct (lo_range _ _ Hlaid) as [Ho _]. apply Ho. Qed.

Lemma node_at i nd :
  H !! i = Some nd ->
  exists rest, drop (Z.to_nat (off H i)) d = node_bytes H temp nd ++ rest.
Proof.
  intros Hi. destruct (stream_at H temp last i nd Hlinked Hpayloads Hlaid Hi) as (rest & Hr & Hl).
  exists (rest ++ pad). rewrite Hd, drop_app_le; [by rewrite Hr, <- app_assoc|].
  destruct (append_nodes_eq H temp last 0 [] Hlinked Hpayloads Hlaid) as [_ Hlast];
    [lia|by rewrite (lo_first _ _ Hlaid)|].
  rewrite drop_0 in Hlast. cbn in Hlast. unfold trie_stream. pose proof (off_ok i). lia.
Qed.

Lemma weight_eq i nd : H !! i = Some nd -> Z.of_nat (weight i) = node_size (off H) nd.
Proof.
  intros Hi. unfold weight, size_at. rewrite Hi. destruct Hlinked as [_ He].
  pose proof (node_size_bounds (off H) nd (He _ _ Hi) (fun e _ => off_ok (child e))) as Hn.
  clear Hbase Hd. lia.
Qed.

(** What the builder writes before the number of children. *)
Lemma terminal_bytes_eq i nd :
  H !! i = Some nd -> entry_ok nd ->
  exists size pl, terminal_bytes temp nd = uleb size ++ pl /\ Z.of_nat (length pl) = size /\
    0 <= size < 2 ^ 32 /\
    (terminal nd -> pl = export_payload (export_of i) /\ size <> 0 /\
       size = we_size (terminalEntry nd)) /\
    (~ terminal nd -> size = 0).
Proof.
  intros Hi Hok. destruct Hlinked as [_ He]. specialize (He _ _ Hi).
  unfold terminal_bytes. case_bool_decide as Hn.
  - exists 0, []. by split_and!.
  - exists (we_size (terminalEntry nd)), (payload (terminalEntry nd) temp).
    split_and!; try done; try lia; [by apply (Hpayloads i)|].
    intros Ht. destruct (Hexport i nd Hi Ht) as (_ & _ & Hp). split_and!; try done.
    destruct Hok as [Hok|(_ & _ & ?)]; [|done]. unfold terminal in Ht. by rewrite Hok in Ht.
Qed.

(** The path of characters to the node is in the buffer. *)
Definition path_in (buf c : list byte) : Prop :=
  take (length c) buf = c /\ (c <> [] -> buf !! length c = Some x00).

Definition walk_post (t : tree) (c buf : list byte) (out : list EntryWithOffset)
    (r : outcome parse_failure (list byte * list EntryWithOffset)) : Prop :=
  exists buf', r = Ret (buf', out ++ flat_map node_result (ids t)) /\
    length buf' = length buf /\ take (length c) buf' = take (length c) buf.

Definition walks (t : tree) : Prop := forall fuel c buf out,
  rep H c t -> name_chars c -> (length (ids t) <= fuel)%nat -> 0%nat ∉ kids_ids (kids t) ->
  path_in buf c -> (length c + sum_list_with weight (ids t) <= length buf)%nat ->
  walk_post t c buf out (processExportNode fuel base d (Z.to_nat (off H (root t))) buf (length c) out).

Lemma off_pos i : (i < length H)%nat -> i <> 0%nat -> 0 < off H i.
Proof.
  intros Hi Hz. destruct i as [|i]; [done|].
  pose proof (lo_step _ _ Hlaid i ltac:(lia)) as Hs. unfold off_end in Hs.
  rewrite (proj2 (Nat.ltb_lt _ _)) in Hs by lia. pose proof (off_ok i).
  destruct (lookup_lt_is_Some_2 H i ltac:(lia)) as [nd Hnd].
  pose proof (weight_eq _ _ Hnd). unfold size_at in Hs. rewrite Hnd in Hs.
  destruct Hlinked as [_ He].
  pose proof (node_size_bounds (off H) nd (He _ _ Hnd) (fun e _ => off_ok (child e))). lia.
Qed.

(** The loop over the children, from the edges [ks] on. *)
Lemma walk_kids fuel c ks s rest buf out :
  (forall str t, (str, t) ∈ ks -> walks t /\ rep H (c ++ str) t /\ name_chars str) ->
  name_chars c -> (length (kids_ids ks) <= fuel)%nat -> 0%nat ∉ kids_ids ks ->
  drop s d = concat (edge_bytes H <$> (edge_of <$> ks)) ++ rest ->
  take (length c) buf = c ->
  (forall str t, (str, t) ∈ ks ->
     length c + length str + 1 + sum_list_with weight (ids t) <= length buf)%nat ->
  exists buf', process_children (processExportNode fuel base d) d (length ks) s buf (length c) out =
      Ret (buf', out ++ flat_map node_result (kids_ids ks)) /\
    length buf' = length buf /\ take (length c) buf' = take (length c) buf.
Proof.
  intros Hall Hc. revert s buf out.
  induction ks as [|[str t] ks IH]; intros s buf out Hfuel Hz Hs Htake Hbuf.
  { exists buf. cbn. by rewrite app_nil_r. }
  destruct (Hall str t ltac:(left)) as (Hw & Hrep & Hstr).
  rewrite kids_ids_cons in *. cbn [snd] in *. rewrite length_app in Hfuel.
  rewrite elem_of_app in Hz. cbn [length process_children].
  rewrite !fmap_cons in Hs. cbn [concat] in Hs. unfold edge_bytes at 1 in Hs.
  cbn [edge_of partialString child fst snd] in Hs. rewrite <- !app_assoc in Hs. cbn [app] in Hs.
  pose proof (Hbuf str t ltac:(left)) as Hlen.
  pose proof (copy_edge_at d s str _ c (drop (length c) buf) (name_chars_nul _ Hstr) Hs
    ltac:(rewrite length_drop; lia)) as Hcopy.
  assert (Hbufc : c ++ drop (length c) buf = buf) by (rewrite <- Htake at 1; apply take_drop).
  rewrite Hbufc in Hcopy. rewrite Hcopy.
  cbn [mbind outcome_bind].
  set (buf1 := c ++ str ++ x00 :: drop (length str + 1) (drop (length c) buf)).
  assert (Hlen1 : length buf1 = length buf).
  { unfold buf1. rewrite !length_app. cbn [length]. rewrite !length_drop. lia. }
  assert (Hs1 : drop (s + length str + 1) d = uleb (off H (root t)) ++
            concat (edge_bytes H <$> (edge_of <$> ks)) ++ rest).
  { replace (s + length str + 1)%nat with (s + length (str ++ [x00]))%nat
      by (rewrite length_app; simpl; lia).
    apply drop_behind. by rewrite Hs, <- app_assoc. }
  pose proof (off_ok (root t)) as Ho.
  rewrite (read_encoded _ _ (off H (root t)) _ ltac:(lia) Hs1). cbn [mbind outcome_bind].
  rewrite uw_id by (unfold in_uw; lia).
  assert (Hroot : root t <> 0%nat).
  { intros Heq. apply Hz. left. rewrite <- Heq. apply root_in_ids. }
  assert (Hrootlt : (root t < length H)%nat) by (eapply rep_lookup; [done|apply root_in_ids]).
  rewrite (proj2 (Z.eqb_neq _ _)) by (pose proof (off_pos _ Hrootlt Hroot); lia).
  assert (Hpath : path_in buf1 (c ++ str)).
  { unfold buf1. rewrite app_assoc. split; [by rewrite take_app_length|]. intros _.
    by apply list_lookup_middle. }
  destruct (Hw fuel (c ++ str) buf1 out) as (buf2 & Heq & Hlen2 & Htake2); try done.
  { by apply name_chars_app. }
  { lia. }
  { intros Hk. apply Hz. left. destruct t as [j ks']. rewrite ids_T. by right. }
  { rewrite Hlen1, length_app. lia. }
  rewrite length_app in Heq. rewrite Heq. cbn [mbind outcome_bind].
  assert (Htc : take (length c) buf2 = c).
  { apply (f_equal (take (length c))) in Htake2. rewrite length_app in Htake2.
    rewrite !take_take in Htake2. replace (length c `min` (length c + length str))%nat
      with (length c) in Htake2 by lia. rewrite Htake2. unfold buf1. by rewrite take_app_length. }
  destruct (IH ltac:(intros; apply Hall; by right)
    (s + length str + 1 + length (uleb (off H (root t))))%nat buf2
    (out ++ flat_map node_result (ids t))) as (buf3 & Heq3 & Hlen3 & Htake3).
  - lia.
  - tauto.
  - by apply drop_behind in Hs1.
  - done.
  - intros str' t' Hin. rewrite Hlen2, Hlen1. apply Hbuf. by right.
  - exists buf3. rewrite Heq3. split_and!.
    + rewrite flat_map_app. by rewrite <- app_assoc.
    + congruence.
    + by rewrite Htake3, Htc, Htake.
Qed.

(** The terminal part of a node. *)
Lemma walk_terminal i nd c ks size pl rest buf out :
  H !! i = Some nd -> node_ok H c ks nd -> name_chars c -> path_in buf c ->
  drop (Z.to_nat (off H i) + length (uleb size)) d = pl ++ rest ->
  (terminal nd -> pl = export_payload (export_of i) /\ size <> 0 /\
     size = we_size (terminalEntry nd)) ->
  (~ terminal nd -> size = 0) ->
  (if negb (size =? 0)
   then e ← read_entry d (Z.to_nat (off H i) + length (uleb size)) buf; Ret (out ++ [e])
   else Ret out) = Ret (out ++ node_result i).
Proof.
  intros Hi Hok Hc [Htake Hnul] Hdrop Hterm Hnot. unfold node_result. rewrite Hi. case_decide as Ht.
  - destruct (Hterm Ht) as (-> & Hs & ->). rewrite (proj2 (Z.eqb_neq _ _)) by done. cbn [negb].
    destruct (Hexport _ _ Hi Ht) as (Hx & Hname & _).
    assert (Hce : ex_name (export_of i) = c /\ c <> []).
    { destruct Hok as [Hcc _ _ [He|(He & Hne & _)] _ _].
      - unfold terminal in Ht. by rewrite He in Ht.
      - split; congruence. }
    destruct Hce as [Hce Hne]. rewrite (read_entry_eq d _ (export_of i) rest); try done.
    rewrite Hce, <- (take_drop_middle buf (length c) x00 (Hnul Hne)), Htake.
    apply name_string_app. by apply name_chars_nul.
  - rewrite (Hnot Ht). cbn. by rewrite app_nil_r.
Qed.

Lemma sum_list_with_flat_map {A B} (f : B -> nat) (g : A -> list B) l x :
  x ∈ l -> (sum_list_with f (g x) <= sum_list_with f (flat_map g l))%nat.
Proof.
  intros (l1 & l2 & ->)%list_elem_of_split.
  rewrite flat_map_app, sum_list_with_app. cbn [flat_map]. rewrite sum_list_with_app. lia.
Qed.

Lemma edge_weight o es e :
  e ∈ es -> Z.of_nat (length (partialString e)) + 1 <= edges_total o es.
Proof.
  induction es as [|e' es IH]; [by intros ?%elem_of_nil|]. cbn [edges_total foldr].
  fold (edges_total o es). pose proof (edges_total_nonneg o es).
  intros [->|Hin]%elem_of_cons; unfold edge_size; [lia|]. specialize (IH Hin). lia.
Qed.

Theorem walk_tree t : walks t.
Proof.
  induction t as [i ks IH] using tree_ind'. intros fuel c buf out Hrep Hc Hfuel Hz Hpath Hbuf.
  destruct (proj1 (rep_T _ _ _ _) Hrep) as [(nd & Hi & Hok) Hks].
  rewrite ids_T in *. cbn [root kids sum_list_with length] in *.
  destruct fuel as [|fuel]; [lia|]. cbn [processExportNode].
  destruct (node_at i nd Hi) as [rest Hrest].
  destruct (terminal_bytes_eq i nd Hi (ok_entry _ _ _ _ Hok))
    as (size & pl & Htb & Hpl & Hsize & Hterm & Hnot).
  unfold node_bytes in Hrest. rewrite Htb, <- !app_assoc in Hrest. cbn [app] in Hrest.
  pose proof (length_uleb size ltac:(lia)) as Hul.
  assert (Hlt : (Z.to_nat (off H i) + length (uleb size) + length pl < length d)%nat).
  { apply (f_equal length) in Hrest. rewrite length_drop, !length_app in Hrest.
    cbn [length] in Hrest. lia. }
  rewrite (proj2 (Nat.leb_gt _ _)) by lia.
  rewrite (read_encoded _ _ size _ ltac:(lia) Hrest). cbn [mbind outcome_bind].
  apply drop_behind in Hrest.
  rewrite (walk_terminal i nd c ks size pl _ buf out) by done. cbn [mbind outcome_bind].
  set (p := (Z.to_nat (off H i) + length (uleb size))%nat) in *.
  rewrite uw_id by (unfold in_uw; lia).
  rewrite (proj2 (Z.ltb_ge _ _)), (proj2 (Z.ltb_ge _ _)) by lia.
  replace (Z.to_nat (base + Z.of_nat p + size - base)) with (p + length pl)%nat by lia.
  apply drop_behind in Hrest.
  assert (Hcount : d !! (p + length pl)%nat = Some (byte_of (u8 (Z.of_nat (length (children nd)))))).
  { rewrite <- (Nat.add_0_r (p + length pl)), <- lookup_drop, Hrest. done. }
  rewrite Hcount. cbn [or_stop mbind outcome_bind].
  pose proof (children_bound _ _ _ _ Hok) as Hcb.
  rewrite (uw_id 8) by (unfold in_uw; lia). rewrite byte_Z_of, Nat2Z.id by lia.
  assert (Hrest' : drop (S (p + length pl)) d = concat (edge_bytes H <$> (edge_of <$> ks)) ++ rest).
  { rewrite <- (ok_children _ _ _ _ Hok). change (?x :: ?l) with ([x] ++ l) in Hrest.
    apply drop_behind in Hrest. by rewrite Nat.add_1_r in Hrest. }
  rewrite (ok_children _ _ _ _ Hok), length_fmap.
  destruct (walk_kids fuel c ks (S (p + length pl)) rest buf (out ++ node_result i))
    as (buf' & Heq & Hlen & Htake); try done.
  - intros str t Hin. split_and!; [by eapply IH|by apply Hks|by eapply ok_chars].
  - lia.
  - by destruct Hpath.
  - intros str t Hin. pose proof (weight_eq i nd Hi) as Hw. unfold node_size in Hw.
    pose proof (sum_list_with_flat_map weight (fun st => ids (snd st)) ks (str, t) Hin) as Hs.
    fold (kids_ids ks) in Hs. cbn [snd] in Hs.
    assert (He : edge_of (str, t) ∈ children nd).
    { rewrite (ok_children _ _ _ _ Hok). by apply list_elem_of_fmap_2. }
    pose proof (edge_weight (off H) _ _ He) as Hew. cbn [edge_of partialString fst] in Hew.
    destruct Hlinked as [_ Hent].
    pose proof (terminal_total_bounds nd (Hent _ _ Hi)). lia.
  - exists buf'. rewrite Heq. cbn [flat_map]. by rewrite <- app_assoc.
Qed.
End walk.
