(* ===== verification/TrieRoundtrip.v ===== *)
(** * Export tries are read back

    [buildTrieBytes] succeeds exactly on exports with different names, and
    [parseTrie] gives back the exports of the trie, in their order. *)

From Stdlib Require Import ZArith Lia Bool.
From Stdlib Require Import Init.Byte.
From stdpp Require Import base option numbers sorting list.
From S2P Require Import Prelude CInt Leb128 TrieBuild TrieTree TrieEntries TrieLayout.
From S2P Require Import TrieParse TrieReadSpec TrieWalk.

(** ** What is built *)

(** The exports fit: their names and payloads, in 32 bits with a margin. *)
Definition exports_fit (xs : list Export) : Prop :=
  Forall export_ok xs /\ Z.of_nat (14 + exports_bound xs) < 2 ^ 32.

#[export] Instance exports_bound_perm : Proper ((≡ₚ) ==> eq) exports_bound.
Proof. intros xs ys Hp. unfold exports_bound. by rewrite Hp. Qed.

Lemma exports_fit_sublist xs ys : ys `sublist_of` xs -> exports_fit xs -> exports_fit ys.
Proof.
  intros Hsub [Hok Hb]. split.
  - rewrite Forall_forall in *. intros x Hx. apply Hok.
    by eapply elem_of_submseteq, sublist_submseteq.
  - assert (exports_bound ys <= exports_bound xs)%nat; [|lia]. clear - Hsub.
    unfold exports_bound. induction Hsub; cbn [sum_list_with]; lia.
Qed.

(** A laid out vector of nodes for the exports. *)
Record built (xs : list Export) (H : list Node) (t : tree) (last : Z) : Prop := {
  bt_names : NoDup (ex_name <$> xs);
  bt_root : root t = 0%nat;
  bt_rep : rep H [] t;
  bt_ids : ids t ≡ₚ seq 0 (length H);
  bt_linked : linked H;
  bt_payloads : payloads_in (payloads xs) H;
  bt_entries : entries H = entries_from [] xs;
  bt_laid : laid_out H last;
  bt_last : last <= Z.of_nat (6 + exports_bound xs);
}.

Lemma elem_of_entries_from xs temp e :
  e ∈ entries_from temp xs ->
  exists xs1 x xs2, xs = xs1 ++ x :: xs2 /\ e = entry_at x (temp ++ payloads xs1).
Proof.
  revert temp. induction xs as [|x xs IH]; intros temp; cbn [entries_from].
  - by intros ?%elem_of_nil.
  - intros [->|Hin]%elem_of_cons.
    + exists [], x, xs. split; [done|]. cbn. by rewrite app_nil_r.
    + destruct (IH _ Hin) as (xs1 & y & xs2 & -> & ->). exists (x :: xs1), y, xs2.
      split; [done|]. by rewrite payloads_cons, app_assoc.
Qed.

Lemma payload_entry_at xs1 x xs2 :
  payload (entry_at x (payloads xs1)) (payloads (xs1 ++ x :: xs2)) = export_payload x.
Proof.
  unfold payload, entry_at. cbn [we_size we_offset]. rewrite !Nat2Z.id. unfold payloads.
  rewrite fmap_app, concat_app, drop_app_length, fmap_cons. cbn [concat].
  by rewrite take_app_length.
Qed.

(** A terminal node has the entry of an export, the others have none. *)
Lemma node_export xs H i nd :
  trie_nodes H -> entries H = entries_from [] xs -> H !! i = Some nd ->
  terminalEntry nd = no_entry \/
  exists x, x ∈ xs /\ we_name (terminalEntry nd) = ex_name x /\
    payload (terminalEntry nd) (payloads xs) = export_payload x /\
    we_size (terminalEntry nd) = Z.of_nat (length (export_payload x)).
Proof.
  intros HH He Hi. destruct (trie_nodes_lookup _ _ _ HH Hi) as (c & ks & Hok & _).
  destruct (ok_entry _ _ _ _ Hok) as [Hno|(Hn & Hne & _)]; [by left|right].
  assert (Hin : terminalEntry nd ∈ entries H).
  { unfold entries. apply list_elem_of_filter. split; [by rewrite Hn|].
    apply list_elem_of_fmap_2. by eapply list_elem_of_lookup_2. }
  rewrite He in Hin. apply elem_of_entries_from in Hin as (xs1 & x & xs2 & -> & ->).
  exists x. split_and!; [apply elem_of_app; right; left|done| |done].
  apply payload_entry_at.
Qed.

Lemma entries_skeleton H H' : skeleton H = skeleton H' -> entries H = entries H'.
Proof.
  intros Hs. apply entries_fmap. apply (f_equal (fmap terminalEntry)) in Hs.
  unfold skeleton in Hs. rewrite <- !list_fmap_compose in Hs. exact Hs.
Qed.

Lemma add_exports_linked xs temp H :
  exports_fit xs -> exports_added xs [] temp start_nodes H -> linked H /\ payloads_in temp H.
Proof.
  intros [Hok Hb] [HH -> He _ _ _]. change (entries start_nodes) with (@nil WriterEntry) in He.
  cbn [app] in *. pose proof (payloads_bound xs). split; [split|].
  - intros i nd e Hi Hin. destruct (trie_nodes_lookup _ _ _ HH Hi) as (c & ks & Hn & Hk).
    rewrite (ok_children _ _ _ _ Hn) in Hin.
    apply list_elem_of_fmap in Hin as ([s t] & -> & Hin). by apply (Hk s).
  - intros i nd Hi. destruct (node_export _ _ _ _ HH He Hi) as [->|(x & Hx & _ & _ & ->)].
    + cbn. lia.
    + assert (length (export_payload x) <= exports_bound xs)%nat; [|lia].
      apply list_elem_of_split in Hx as (xs1 & xs2 & ->). unfold exports_bound.
      rewrite sum_list_with_app. cbn [sum_list_with]. unfold export_bound at 2. lia.
  - intros i nd Hi. destruct (node_export _ _ _ _ HH He Hi) as [->|(x & _ & _ & -> & ->)]; done.
Qed.

(** A trie is built when the names differ, or the first name that occurs
    again is reported. *)
Lemma build_spec xs :
  exports_fit xs ->
  (exists H t last, built xs H t last /\
     buildTrieBytes xs = Ret (pad8 (trie_stream H (payloads xs)))) \/
  (exists xs1 x xs2, xs = xs1 ++ x :: xs2 /\ ex_name x ∈ ex_name <$> xs1 /\
     buildTrieBytes xs = Stop (Duplicate_symbol (ex_name x))).
Proof.
  intros Hfit. pose proof Hfit as [Hok Hb]. pose proof (payloads_bound xs) as Hpb.
  pose proof (add_exports_spec xs [] start_nodes Hok ltac:(cbn [length]; lia) trie_nodes_start) as Hadd.
  unfold buildTrieBytes. destruct (add_exports _ _ _) as [[temp H]|f]; cbn [mbind outcome_bind].
  2:{ right. destruct f; try done. destruct Hadd as (xs1 & x & xs2 & -> & -> & [Hin|Hin]).
      - by apply elem_of_nil in Hin.
      - by exists xs1, x, xs2. }
  left. destruct (add_exports_linked _ _ _ Hfit Hadd) as [Hl Hp].
  destruct Hadd as [HH Htemp He [Hnd _] Hoff Hbound]. cbn [app] in Htemp. subst temp.
  change (entries start_nodes) with (@nil WriterEntry) in He. cbn [app] in He.
  change (nodes_bound start_nodes) with 6%nat in Hbound.
  assert (Hz : Forall (fun nd => trieOffset nd = 0) H) by (apply Hoff; by repeat constructor).
  destruct (assign_offsets_spec H Hl Hz ltac:(lia)) as (H' & last & Ha & Hs & Hlo).
  rewrite Ha. cbn [mbind outcome_bind]. pose proof (skeleton_length _ _ Hs) as Hlen.
  assert (Hl' : linked H') by (by apply (linked_skeleton H)).
  assert (Hp' : payloads_in (payloads xs) H').
  { intros i nd Hi. destruct (skeleton_some _ _ _ _ Hs Hi) as (nd' & Hi' & _ & Hte & _).
    rewrite <- Hte. by apply (Hp i). }
  destruct (append_nodes_eq H' (payloads xs) last 0 [] Hl' Hp' Hlo) as [Happ _];
    [lia|by rewrite (lo_first _ _ Hlo)|].
  rewrite drop_0 in Happ. rewrite Happ. cbn [mbind outcome_bind app].
  destruct HH as (t & Hroot & Hrep & Hids).
  exists H', t, last. split; [|done]. split; try done.
  - by apply (rep_skeleton H).
  - by rewrite Hlen.
  - by rewrite (entries_skeleton H' H).
  - pose proof (laid_out_bound _ _ Hl' Hlo) as Hlast.
    rewrite <- nodes_bound_skeleton, Hs, nodes_bound_skeleton in Hlast. lia.
Qed.

(** ** The exports in the order of the nodes *)

Definition dummy_export : Export :=
  {| ex_name := []; ex_offset := 0; ex_flags := 0; ex_other := 0; ex_importName := [] |}.

Definition export_named (xs : list Export) (n : list byte) : Export :=
  default dummy_export (snd <$> list_find (fun x => ex_name x = n) xs).

Lemma export_named_eq xs x : NoDup (ex_name <$> xs) -> x ∈ xs -> export_named xs (ex_name x) = x.
Proof.
  intros Hnd Hin. unfold export_named.
  destruct (list_find_elem_of (fun y => ex_name y = ex_name x) xs x Hin eq_refl) as [[j y] Hf].
  rewrite Hf. simpl. apply list_find_Some in Hf as (Hj & Heq & _).
  apply list_elem_of_lookup_1 in Hin as [k Hk].
  assert (j = k) as ->; [|congruence].
  apply (NoDup_lookup _ _ _ (ex_name x) Hnd); by rewrite list_lookup_fmap, ?Hj, ?Hk, ?Heq; simpl; rewrite ?Heq.
Qed.

Section built.
Context (xs : list Export) (H : list Node) (t : tree) (last : Z).
Context (Hb : built xs H t last) (Hok : Forall export_ok xs).

Definition node_export_of (i : nat) : Export :=
  export_named xs (default [] ((fun nd => we_name (terminalEntry nd)) <$> H !! i)).

Lemma built_nodes : trie_nodes H.
Proof. exists t. split_and!; apply Hb. Qed.

Lemma node_export_spec i nd :
  H !! i = Some nd -> terminal nd ->
  node_export_of i ∈ xs /\ ex_name (node_export_of i) = we_name (terminalEntry nd) /\
  payload (terminalEntry nd) (payloads xs) = export_payload (node_export_of i).
Proof.
  intros Hi Ht. destruct (node_export xs H i nd built_nodes (bt_entries _ _ _ _ Hb) Hi)
    as [Hno|(x & Hx & Hn & Hp & _)].
  { unfold terminal in Ht. by rewrite Hno in Ht. }
  assert (Heq : node_export_of i = x).
  { unfold node_export_of. rewrite Hi. simpl. rewrite Hn.
    apply export_named_eq; [apply Hb|done]. }
  rewrite Heq. done.
Qed.

Lemma node_export_ok i nd :
  H !! i = Some nd -> terminal nd ->
  export_ok (node_export_of i) /\ ex_name (node_export_of i) = we_name (terminalEntry nd) /\
  payload (terminalEntry nd) (payloads xs) = export_payload (node_export_of i).
Proof.
  intros Hi Ht. destruct (node_export_spec i nd Hi Ht) as (Hin & Hn & Hp). split_and!; try done.
  by apply (proj1 (Forall_forall _ _) Hok).
Qed.

Let results := flat_map (node_result H node_export_of) (seq 0 (length H)).

(** The results by index, for the nodes from [k] on. *)
Lemma results_entries k m :
  (k + m = length H)%nat ->
  Forall2 (fun we r => exists i nd, (k <= i)%nat /\ H !! i = Some nd /\ terminal nd /\
      we = terminalEntry nd /\ r = entry_of (payload_at H i nd) (node_export_of i))
    (filter (fun e => we_name e <> []) (terminalEntry <$> drop k H))
    (flat_map (node_result H node_export_of) (seq k m)).
Proof.
  revert k. induction m as [|m IH]; intros k Hk.
  - rewrite drop_ge by lia. constructor.
  - destruct (lookup_lt_is_Some_2 H k ltac:(lia)) as [nd Hnd]. rewrite (drop_S _ _ _ Hnd).
    cbn [seq flat_map]. rewrite fmap_cons, filter_cons. unfold node_result at 1. rewrite Hnd.
    assert (Hrest : Forall2 (fun we r => exists i nd, (k <= i)%nat /\ H !! i = Some nd /\
        terminal nd /\ we = terminalEntry nd /\ r = entry_of (payload_at H i nd) (node_export_of i))
      (filter (fun e => we_name e <> []) (terminalEntry <$> drop (S k) H))
      (flat_map (node_result H node_export_of) (seq (S k) m))).
    { eapply Forall2_impl; [apply IH; lia|]. intros we r (i & nd' & Hle & Hrst).
      exists i, nd'. split; [lia|done]. }
    destruct (decide (terminal nd)) as [Ht|Ht], (decide (we_name (terminalEntry nd) <> []));
      try done.
    constructor; [|done]. exists k, nd. split_and!; try done.
Qed.

(** The nodes follow each other. *)
Lemma off_lt i j nd :
  H !! i = Some nd -> terminal nd -> (i < j)%nat -> (j < length H)%nat ->
  (payload_at H i nd < Z.to_nat (off H j))%nat.
Proof.
  intros Hi Ht Hij Hj. induction j as [|j IH]; [lia|].
  destruct (lookup_lt_is_Some_2 H j ltac:(lia)) as [nd' Hnd'].
  pose proof (bt_laid _ _ _ _ Hb) as Hlo. pose proof (lo_step _ _ Hlo j ltac:(lia)) as Hs.
  unfold off_end in Hs. rewrite (proj2 (Nat.ltb_lt _ _)) in Hs by lia. unfold size_at in Hs.
  rewrite Hnd' in Hs. pose proof (off_ok H last Hlo) as Ho.
  destruct (bt_linked _ _ _ _ Hb) as [_ Hen].
  pose proof (Ho j). pose proof (Ho (S j)). destruct (decide (i = j)) as [->|].
  - assert (nd' = nd) as -> by congruence. unfold payload_at, node_size, terminal_total in *.
    rewrite bool_decide_false in Hs by done.
    pose proof (edges_total_nonneg (off H) (children nd)). pose proof (Hen _ _ Hi). lia.
  - specialize (IH ltac:(lia) ltac:(lia)).
    pose proof (node_size_bounds (off H) nd' (Hen _ _ Hnd') (fun e _ => Ho (child e))). lia.
Qed.

Lemma results_sorted k m :
  (k + m = length H)%nat ->
  StronglySorted (fun a b => nodeOffset a < nodeOffset b)%nat
    (flat_map (node_result H node_export_of) (seq k m)).
Proof.
  revert k. induction m as [|m IH]; intros k Hk; [constructor|]. cbn [seq flat_map].
  specialize (IH (S k) ltac:(lia)). unfold node_result at 1.
  destruct (H !! k) as [nd|] eqn:Hnd; [|done]. case_decide as Ht; [|done]. cbn [app].
  constructor; [done|]. pose proof (results_entries (S k) m ltac:(lia)) as Hall.
  apply Forall_forall. intros r Hr. apply list_elem_of_lookup_1 in Hr as [j Hj].
  destruct (Forall2_lookup_r _ _ _ _ _ Hall Hj) as (we & _ & (i & nd' & Hle & Hi & Ht' & -> & ->)).
  cbn [entry_of nodeOffset]. pose proof (lookup_lt_Some _ _ _ Hi).
  pose proof (off_lt k i nd Hnd Ht ltac:(lia) ltac:(lia)). unfold payload_at at 2. lia.
Qed.
End built.

(** ** Sorting by offset *)

#[export] Instance offset_le_trans : Transitive offset_le.
Proof. intros a b c. unfold offset_le. lia. Qed.
#[export] Instance offset_le_total : Total offset_le.
Proof. intros a b. unfold offset_le. lia. Qed.

Lemma strictly_sorted_inj l a b :
  StronglySorted (fun a b => nodeOffset a < nodeOffset b)%nat l ->
  a ∈ l -> b ∈ l -> nodeOffset a = nodeOffset b -> a = b.
Proof.
  intros Hs. induction Hs as [|x l Hs IH Hall]; intros Ha Hb Heq; [by apply elem_of_nil in Ha|].
  rewrite Forall_forall in Hall. apply elem_of_cons in Ha. apply elem_of_cons in Hb.
  destruct Ha as [->|Ha], Hb as [->|Hb]; [done|..|by apply IH].
  - specialize (Hall _ Hb). lia.
  - specialize (Hall _ Ha). lia.
Qed.

Lemma merge_sort_strict l s :
  l ≡ₚ s -> StronglySorted (fun a b => nodeOffset a < nodeOffset b)%nat s ->
  merge_sort offset_le l = s.
Proof.
  intros Hp Hs. apply (StronglySorted_unique_strong offset_le).
  - intros a b Ha Hb Hab Hba. rewrite merge_sort_Permutation, Hp in Ha.
    eapply strictly_sorted_inj; try done. unfold offset_le in *. lia.
  - apply StronglySorted_merge_sort; apply _.
  - clear Hp. induction Hs as [|a l' Hl' IH Hall]; constructor; [done|].
    eapply Forall_impl; [done|]. intros b Hab. unfold offset_le. simpl in Hab. lia.
  - by rewrite merge_sort_Permutation.
Qed.

(** ** The round trip *)

(** The entry that is read for an export: for a re-export the address is 0,
    and the import name, which is in the trie, is empty if it is the name. *)
Definition reads_as (d : list byte) (x : Export) (e : Entry) : Prop :=
  en_name e = ex_name x /\ en_flags e = ex_flags x /\
  if has_flag (ex_flags x) EXPORT_SYMBOL_FLAGS_REEXPORT then
    en_address e = 0 /\ en_other e = ex_other x /\
    exists p, en_importName e = Some p /\ name_string (drop p d) = Some (import_bytes x)
  else
    en_address e = ex_offset x /\ en_importName e = None /\
    en_other e = if has_flag (ex_flags x) EXPORT_SYMBOL_FLAGS_STUB_AND_RESOLVER
                 then ex_other x else 0.

Section parse.
Context (xs : list Export) (H : list Node) (t : tree) (last : Z) (pad : list byte).
Context (Hb : built xs H t last) (Hok : Forall export_ok xs).
Let d := trie_stream H (payloads xs) ++ pad.

Lemma payload_bytes_at i nd :
  H !! i = Some nd -> terminal nd ->
  exists rest, drop (payload_at H i nd) d = export_payload (node_export_of xs H i) ++ rest.
Proof.
  intros Hi Ht. destruct (node_at H (payloads xs) last d pad (bt_linked _ _ _ _ Hb)
    (bt_payloads _ _ _ _ Hb) (bt_laid _ _ _ _ Hb) eq_refl i nd Hi) as [rest Hr].
  destruct (node_export_ok xs H t last Hb Hok i nd Hi Ht) as (_ & _ & Hp).
  unfold node_bytes, terminal_bytes in Hr. rewrite bool_decide_false in Hr by done.
  rewrite Hp, <- !app_assoc in Hr. apply drop_behind in Hr. eexists. exact Hr.
Qed.

Lemma parsed_entries :
  Forall2 (reads_as d) xs
    (entry <$> flat_map (node_result H (node_export_of xs H)) (seq 0 (length H))).
Proof.
  pose proof (results_entries xs H 0 (length H) eq_refl) as Hall. rewrite drop_0 in Hall.
  fold (entries H) in Hall. rewrite (bt_entries _ _ _ _ Hb) in Hall.
  apply Forall2_fmap_r. apply Forall2_same_length_lookup. split.
  { apply Forall2_length in Hall. rewrite <- Hall, <- (length_fmap we_name).
    by rewrite entries_from_names, length_fmap. }
  intros j x r Hx Hr. destruct (Forall2_lookup_r _ _ _ _ _ Hall Hr)
    as (we & Hwe & (i & nd & _ & Hi & Ht & -> & ->)).
  destruct (node_export_spec xs H t last Hb i nd Hi Ht) as (Hin & Hn & Hp).
  assert (Heq : node_export_of xs H i = x).
  { pose proof (f_equal (fmap we_name) Hwe) as Hw. rewrite <- list_lookup_fmap in Hw.
    rewrite entries_from_names, list_lookup_fmap, Hx in Hw. injection Hw as Hw.
    rewrite <- (export_named_eq xs x (bt_names _ _ _ _ Hb)) by (by eapply list_elem_of_lookup_2).
    unfold node_export_of. rewrite Hi. simpl. by rewrite Hw. }
  destruct (payload_bytes_at i nd Hi Ht) as [rest Hrest]. rewrite Heq in *.
  assert (Hxok : export_ok x).
  { apply (proj1 (Forall_forall _ _) Hok). by eapply list_elem_of_lookup_2. }
  unfold reads_as, entry_of. cbn.
  destruct (has_flag (ex_flags x) EXPORT_SYMBOL_FLAGS_REEXPORT) eqn:Hre.
  - split_and!; try done. eexists. split; [done|]. by eapply import_name_at.
  - done.
Qed.

Lemma parse_built base contents :
  0 <= base -> base + Z.of_nat (length d) < 2 ^ 64 ->
  exists es, parseTrie base d contents = Ret es /\ Forall2 (reads_as d) xs es.
Proof.
  intros Hb1 Hb2. pose proof (bt_laid _ _ _ _ Hb) as Hlo. pose proof (bt_linked _ _ _ _ Hb) as Hl.
  destruct (append_nodes_eq H (payloads xs) last 0 [] Hl (bt_payloads _ _ _ _ Hb) Hlo)
    as [_ Hlast]; [lia|by rewrite (lo_first _ _ Hlo)|]. rewrite drop_0 in Hlast. cbn in Hlast.
  fold (trie_stream H (payloads xs)) in Hlast.
  assert (Hw : forall k, (k <= length H)%nat ->
            Z.of_nat (sum_list_with (weight H) (seq 0 k)) = off_end H last k /\
            (2 * k <= sum_list_with (weight H) (seq 0 k))%nat).
  { induction k as [|k IH]; intros Hk; [by rewrite (lo_first _ _ Hlo)|].
    destruct (IH ltac:(lia)) as [IH1 IH2]. rewrite seq_S, sum_list_with_app. cbn [sum_list_with Nat.add].
    rewrite (lo_step _ _ Hlo) by lia. destruct (lookup_lt_is_Some_2 H k ltac:(lia)) as [nd Hnd].
    pose proof (weight_eq H last Hl Hlo k nd Hnd) as Hwk. unfold size_at. rewrite Hnd.
    unfold off_end in IH1. rewrite (proj2 (Nat.ltb_lt _ _)) in IH1 by lia.
    destruct Hl as [_ Hen].
    pose proof (node_size_bounds (off H) nd (Hen _ _ Hnd) (fun e _ => off_ok H last Hlo (child e))).
    lia. }
  destruct (Hw (length H) ltac:(lia)) as [Hsum Hcount]. unfold off_end in Hsum.
  rewrite (proj2 (Nat.ltb_ge _ _)) in Hsum by lia.
  assert (Hlen : (sum_list_with (weight H) (seq 0 (length H)) <= length d)%nat).
  { unfold d. rewrite length_app. lia. }
  assert (Hd : d <> []).
  { assert (0 < length H)%nat; [|by intros Hd; rewrite Hd in Hlen; simpl in Hlen; lia].
    pose proof (rep_lookup _ _ _ _ (bt_rep _ _ _ _ Hb) (root_in_ids t)). lia. }
  assert (Hweights : sum_list_with (weight H) (ids t) = sum_list_with (weight H) (seq 0 (length H)))
    by by rewrite (bt_ids _ _ _ _ Hb).
  unfold parseTrie. destruct d as [|b d'] eqn:Ed; [done|]. rewrite <- Ed in *.
  set (buf := take (length d) (contents ++ repeat x00 (length d))).
  assert (Hbuf : length buf = length d).
  { unfold buf. rewrite length_take, length_app, repeat_length. lia. }
  destruct (walk_tree H (payloads xs) last d pad base (node_export_of xs H) Hl
    (bt_payloads _ _ _ _ Hb) Hlo eq_refl (node_export_ok xs H t last Hb Hok) (conj Hb1 Hb2)
    t (length d + 1)%nat [] buf []) as (buf' & Heq & _).
  - apply Hb.
  - constructor.
  - rewrite (bt_ids _ _ _ _ Hb), length_seq. lia.
  - pose proof (bt_ids _ _ _ _ Hb) as Hids. pose proof (bt_root _ _ _ _ Hb) as Hroot.
    destruct t as [i ks]. simpl in Hroot. subst i. rewrite ids_T in Hids.
    intros Hin. assert (Hnd : NoDup (0%nat :: kids_ids ks)) by (rewrite Hids; apply NoDup_seq).
    by apply NoDup_cons in Hnd as [? _].
  - done.
  - rewrite Hweights, Hbuf. simpl. lia.
  - rewrite (bt_root _ _ _ _ Hb) in Heq. cbn [length] in Heq.
    pose proof (lo_first _ _ Hlo) as Hfirst. unfold off_end in Hfirst.
    rewrite (proj2 (Nat.ltb_lt _ _)) in Hfirst
      by (pose proof (rep_lookup _ _ _ _ (bt_rep _ _ _ _ Hb) (root_in_ids t)); lia).
    rewrite Hfirst in Heq. change (Z.to_nat 0) with 0%nat in Heq. rewrite Heq. cbn [mbind outcome_bind app].
    eexists. split; [done|].
    rewrite (merge_sort_strict _ (flat_map (node_result H (node_export_of xs H)) (seq 0 (length H)))).
    + apply parsed_entries.
    + by rewrite (bt_ids _ _ _ _ Hb).
    + by eapply results_sorted.
Qed.
End parse.

Lemma built_length xs H t last :
  built xs H t last -> Z.of_nat (length (trie_stream H (payloads xs))) = last.
Proof.
  intros Hb. pose proof (bt_laid _ _ _ _ Hb) as Hlo.
  destruct (append_nodes_eq H (payloads xs) last 0 [] (bt_linked _ _ _ _ Hb)
    (bt_payloads _ _ _ _ Hb) Hlo) as [_ Hlast]; [lia|by rewrite (lo_first _ _ Hlo)|].
  rewrite drop_0 in Hlast. exact Hlast.
Qed.

Lemma length_pad8 out :
  (length (pad8 out) mod 8 = 0)%nat /\ (length out <= length (pad8 out) < length out + 8)%nat.
Proof.
  unfold pad8. rewrite length_app, repeat_length.
  pose proof (Nat.mod_upper_bound (8 - length out mod 8) 8 ltac:(lia)). split; [|lia].
  pose proof (Nat.div_mod_eq (length out) 8). pose proof (Nat.mod_upper_bound (length out) 8 ltac:(lia)).
  destruct (decide (length out mod 8 = 0)%nat) as [Hz|Hz].
  - rewrite Hz. cbn. by rewrite Nat.add_0_r.
  - rewrite (Nat.mod_small (8 - length out mod 8)) by lia.
    replace (length out + (8 - length out mod 8))%nat with ((length out / 8 + 1) * 8)%nat by lia.
    apply Nat.Div0.mod_mul.
Qed.

Lemma trie_build_ends xs :
  exports_fit xs ->
  match buildTrieBytes xs with
  | Ret d => NoDup (ex_name <$> xs) /\ (length d mod 8 = 0)%nat
  | Stop (Duplicate_symbol n) => exists xs1 x xs2,
      xs = xs1 ++ x :: xs2 /\ n = ex_name x /\ n ∈ ex_name <$> xs1
  | Stop _ => False
  end.
Proof.
  intros Hfit. destruct (build_spec xs Hfit) as [(H & t & last & Hb & ->)|(xs1 & x & xs2 & -> & Hin & ->)].
  - split; [apply Hb|apply length_pad8].
  - by exists xs1, x, xs2.
Qed.

(** C11: Building a trie from exports that fit ends with the bytes of one, a multiple of 8 of them,
    when all names differ, and otherwise with the report of the first name that was there before:
    the recursion and the rounds end, no pointer dangles and the assertion on offsets holds. *)
Theorem trie_build_total xs :
  exports_fit xs ->
  match buildTrieBytes xs with
  | Ret d => NoDup (ex_name <$> xs) /\ (length d mod 8 = 0)%nat
  | Stop (Duplicate_symbol n) => exists xs1 x xs2,
      xs = xs1 ++ x :: xs2 /\ n = ex_name x /\ n ∈ ex_name <$> xs1
  | Stop _ => False
  end.
Proof. apply trie_build_ends. Qed.

(** The size of a trie fits in the 32 bits it is kept in. *)
Lemma trie_size xs d : exports_fit xs -> buildTrieBytes xs = Ret d ->
  (length d mod 8 = 0)%nat /\ Z.of_nat (length d) < 2 ^ 32.
Proof.
  intros Hfit Hd. destruct (build_spec xs Hfit) as [(H & t & last & Hb & Heq)|Hdup].
  - rewrite Hd in Heq. injection Heq as ->. pose proof (built_length _ _ _ _ Hb).
    destruct (length_pad8 (trie_stream H (payloads xs))) as [Hm Hl]. split; [done|].
    pose proof (bt_last _ _ _ _ Hb). destruct Hfit. lia.
  - destruct Hdup as (xs1 & x & xs2 & _ & _ & Heq). congruence.
Qed.

Lemma exports_read_back xs d base contents :
  exports_fit xs -> buildTrieBytes xs = Ret d ->
  0 <= base -> base + Z.of_nat (length d) < 2 ^ 64 ->
  exists es, parseTrie base d contents = Ret es /\ Forall2 (reads_as d) xs es.
Proof.
  intros Hfit Hd Hb1 Hb2. destruct (build_spec xs Hfit) as [(H & t & last & Hb & Heq)|Hdup].
  - rewrite Hd in Heq. injection Heq as ->. eapply parse_built; try done. apply Hfit.
  - destruct Hdup as (xs1 & x & xs2 & _ & _ & Heq). congruence.
Qed.

(** C8: What parseTrie reads from the trie built of exports that fit ([exports_fit]) are these
    exports, in their order and with their names, flags, addresses, ordinals and import names,
    wherever the trie is in memory and whatever the buffer for names held before. *)
Theorem export_trie_roundtrip xs d base contents :
  exports_fit xs -> buildTrieBytes xs = Ret d ->
  0 <= base -> base + Z.of_nat (length d) < 2 ^ 64 ->
  exists es, parseTrie base d contents = Ret es /\ Forall2 (reads_as d) xs es.
Proof. apply exports_read_back. Qed.

(** ** Examples *)

(** [_foobar], [_foo] as a re-export, and [_frob] with a resolver. *)
Definition sample_exports : list Export :=
  [{| ex_name := [x5f; x66; x6f; x6f; x62; x61; x72]; ex_offset := 0x1000; ex_flags := 0;
      ex_other := 0; ex_importName := [] |};
   {| ex_name := [x5f; x66; x6f; x6f]; ex_offset := 0; ex_flags := 8; ex_other := 2;
      ex_importName := [x5f; x66] |};
   {| ex_name := [x5f; x66; x72; x6f; x62]; ex_offset := 0x2000; ex_flags := 16;
      ex_other := 0x3000; ex_importName := [] |}].

Lemma sample_fits : exports_fit sample_exports.
Proof.
  split; [|done]. repeat constructor; simpl; try done; try lia;
    intros H; repeat apply elem_of_cons in H as [H|H]; try done; by apply elem_of_nil in H.
Defined.

Lemma trie_build_total_witness :
  match buildTrieBytes sample_exports with
  | Ret d => NoDup (ex_name <$> sample_exports) /\ (length d mod 8 = 0)%nat
  | _ => False
  end.
Proof. exact (trie_build_total sample_exports sample_fits). Defined.

Lemma export_trie_roundtrip_witness :
  match buildTrieBytes sample_exports with
  | Ret d => exists es, parseTrie 0x1000 d [] = Ret es /\ Forall2 (reads_as d) sample_exports es
  | Stop _ => False
  end.
Proof.
  destruct (buildTrieBytes sample_exports) as [d|f] eqn:E; [|by vm_compute in E].
  apply (export_trie_roundtrip sample_exports d 0x1000 [] sample_fits E); [lia|].
  vm_compute in E. by injection E as <-.
Defined.
