(* ===== verification/PruneTrieSpec.v ===== *)
(** * other/PruneTrie.cpp: prune_trie, on the tries the linker builds

    What strip(1) calls to take symbols out of the export trie of a file.
    Pruning keeps exactly the exports that are not pruned, and changes no
    other thing about them; the walk over a trie that leads back to itself
    does not end. *)

From Stdlib Require Import ZArith Lia Bool.
From Stdlib Require Import Init.Byte.
From stdpp Require Import base option numbers sorting list.
From S2P Require Import Prelude CInt Leb128 TrieBuild TrieTree TrieEntries.
From S2P Require Import TrieParse TrieRoundtrip.

(** ** prune_trie *)

(** What is returned: null with the trie and its size, or a message. *)
Inductive prune_message :=
  | Parse_message (f : parse_failure)
  | Build_message (f : build_failure)
  | New_trie_larger (new_size old_size : Z).

(** The export of an entry; its import name is the string in the trie. *)
Definition entry_export (d : list byte) (old : Entry) : outcome prune_message Export :=
  importName ← match en_importName old with
               | Some p => or_stop (Parse_message Out_of_bounds) (name_string (drop p d))
               | None => Ret []
               end;
  Ret {| ex_name := en_name old; ex_offset := en_address old; ex_flags := en_flags old;
         ex_other := en_other old; ex_importName := importName |}.

Fixpoint entry_exports (d : list byte) (olds : list Entry) : outcome prune_message (list Export) :=
  match olds with
  | [] => Ret []
  | old :: olds' => x ← entry_export d old; xs ← entry_exports d olds'; Ret (x :: xs)
  end.

Definition fail_as {F G A} (f : F -> G) (m : outcome F A) : outcome G A :=
  match m with Ret a => Ret a | Stop e => Stop (f e) end.

(** 4 where the size of the trie says that the file is for a 32-bit arch. *)
Definition trie_align (trie_start_size : Z) : Z :=
  if negb (trie_start_size mod 8 =? 0) then 4 else 8.

(** The bytes of the trie afterwards and [*trie_new_size]. *)
Definition prune_trie (base : Z) (trie contents : list byte) (prune : list byte -> bool)
    : outcome prune_message (list byte * Z) :=
  let trie_start_size := Z.of_nat (length trie) in
  exports ← fail_as Parse_message (parseTrie base trie contents);
  let kept := filter (fun e => prune (en_name e) = false) exports in
  if (length kept =? length exports)%nat then Ret (trie, trie_start_size)
  else
    new_exports ← entry_exports trie kept;
    trieBytes ← fail_as Build_message (buildTrieBytes new_exports);
    let trieAlign := trie_align trie_start_size in
    let trieSize := Z.of_nat (length trieBytes) in
    let triePadding :=
      if negb (trieSize mod trieAlign =? 0) then u8 (trieAlign - trieSize mod trieAlign) else 0 in
    let trie_new_size := u32 (trieSize + triePadding) in
    if trie_start_size <? trie_new_size then
      Stop (New_trie_larger trie_new_size trie_start_size)
    else
      Ret (trieBytes ++ repeat x00 (length trie - length trieBytes), trie_new_size).

(** ** From entries back to exports *)

(** What is left of an export when it was read from a trie. *)
Definition reread (x : Export) : Export :=
  let reexport := has_flag (ex_flags x) EXPORT_SYMBOL_FLAGS_REEXPORT in
  {| ex_name := ex_name x;
     ex_offset := if reexport then 0 else ex_offset x;
     ex_flags := ex_flags x;
     ex_other := if reexport || has_flag (ex_flags x) EXPORT_SYMBOL_FLAGS_STUB_AND_RESOLVER
                 then ex_other x else 0;
     ex_importName := if reexport then import_bytes x else [] |}.

Lemma import_bytes_reread x :
  ex_name x <> [] -> has_flag (ex_flags x) EXPORT_SYMBOL_FLAGS_REEXPORT = true ->
  import_bytes (reread x) = import_bytes x.
Proof.
  intros Hn Hre. unfold import_bytes at 1, reread. simpl. rewrite Hre. unfold import_bytes.
  case_bool_decide as H1; case_bool_decide as H2; congruence.
Qed.

Lemma reread_ok x : export_ok x -> export_ok (reread x).
Proof.
  intros [Hn Hc Hi Ho Hf Ht]. split; simpl; try done.
  - destruct (has_flag _ _); [|apply not_elem_of_nil]. unfold import_bytes.
    case_bool_decide; [apply not_elem_of_nil|done].
  - destruct (has_flag _ _); [lia|done].
  - destruct (_ || _); [done|lia].
Qed.

Lemma export_payload_reread x : export_ok x -> export_payload (reread x) = export_payload x.
Proof.
  intros Hx. unfold export_payload. cbn [reread ex_flags ex_offset ex_other].
  destruct (has_flag (ex_flags x) EXPORT_SYMBOL_FLAGS_REEXPORT) eqn:Hre; cbn [orb].
  - rewrite import_bytes_reread; [done|apply Hx|done].
  - by destruct (has_flag (ex_flags x) EXPORT_SYMBOL_FLAGS_STUB_AND_RESOLVER).
Qed.

Lemma reread_fit xs : exports_fit xs -> exports_fit (reread <$> xs).
Proof.
  intros [Hok Hb]. split.
  - apply Forall_fmap. eapply Forall_impl; [done|]. apply reread_ok.
  - replace (exports_bound (reread <$> xs)) with (exports_bound xs); [done|].
    unfold exports_bound. clear Hb. induction Hok as [|x xs Hx Hok IH]; [done|].
    rewrite fmap_cons. cbn [sum_list_with]. rewrite <- IH. unfold export_bound at 1 3.
    by rewrite export_payload_reread.
Qed.

Lemma reads_as_reread d x e : ex_name x <> [] -> reads_as d (reread x) e -> reads_as d x e.
Proof.
  intros Hn (H1 & H2 & H3). unfold reads_as. split; [done|]. split; [done|].
  cbn [reread ex_flags] in H3. destruct (has_flag (ex_flags x) EXPORT_SYMBOL_FLAGS_REEXPORT) eqn:Hre.
  - destruct H3 as (Ha & Ho & p & Hp & Hs). cbn [reread ex_other] in Ho. rewrite Hre in Ho.
    split_and!; [done..|]. exists p. split; [done|]. by rewrite <- import_bytes_reread.
  - destruct H3 as (Ha & Hi & Ho). cbn [reread ex_offset] in Ha. rewrite Hre in Ha.
    split_and!; [done..|]. cbn [reread ex_other] in Ho. rewrite Hre in Ho.
    by destruct (has_flag _ EXPORT_SYMBOL_FLAGS_STUB_AND_RESOLVER).
Qed.

Lemma reads_as_reread_all d xs es :
  (forall x, x ∈ xs -> ex_name x <> []) ->
  Forall2 (reads_as d ∘ reread) xs es -> Forall2 (reads_as d) xs es.
Proof.
  intros Hn Hall. induction Hall as [|x e xs es Hx Hall IH]; constructor.
  - apply reads_as_reread; [apply Hn; left|done].
  - apply IH. intros. apply Hn. by right.
Qed.

Lemma entry_export_eq d x e : reads_as d x e -> entry_export d e = Ret (reread x).
Proof.
  intros (H1 & H2 & H3). unfold entry_export, reread.
  destruct (has_flag (ex_flags x) EXPORT_SYMBOL_FLAGS_REEXPORT).
  - destruct H3 as (-> & -> & p & -> & Hs). rewrite Hs. cbn. by rewrite H1, H2.
  - destruct H3 as (-> & -> & ->). cbn. by rewrite H1, H2.
Qed.

Lemma entry_exports_eq d xs es :
  Forall2 (reads_as d) xs es -> entry_exports d es = Ret (reread <$> xs).
Proof.
  induction 1 as [|x e xs es Hx Hall IH]; [done|]. cbn [entry_exports].
  rewrite (entry_export_eq _ _ _ Hx). cbn [mbind outcome_bind]. by rewrite IH.
Qed.

(** ** Pruning *)

Definition kept (prune : list byte -> bool) (xs : list Export) : list Export :=
  filter (fun x => prune (ex_name x) = false) xs.

Lemma filter_reads d prune xs es :
  Forall2 (reads_as d) xs es ->
  Forall2 (reads_as d) (kept prune xs) (filter (fun e => prune (en_name e) = false) es).
Proof.
  unfold kept. induction 1 as [|x e xs es Hx Hall IH]; [constructor|].
  rewrite !filter_cons. pose proof (proj1 Hx) as Hn. rewrite Hn.
  case_decide; [by constructor|done].
Qed.

Lemma reads_as_names d xs es : Forall2 (reads_as d) xs es -> en_name <$> es = ex_name <$> xs.
Proof. induction 1 as [|x e xs es Hx Hall IH]; [done|]. rewrite !fmap_cons, IH. by destruct Hx as [-> _]. Qed.

Lemma kept_names prune xs : NoDup (ex_name <$> xs) -> NoDup (ex_name <$> (reread <$> kept prune xs)).
Proof.
  intros Hnd. rewrite <- list_fmap_compose. change (ex_name ∘ reread) with ex_name.
  eapply sublist_NoDup; [exact Hnd|]. unfold kept. induction xs as [|x xs IH]; [done|].
  rewrite filter_cons, fmap_cons in *. apply NoDup_cons in Hnd as [_ Hnd].
  case_decide; rewrite ?fmap_cons; [apply sublist_skip|apply sublist_cons]; by apply IH.
Qed.

(** What pruning the trie [d] of the exports [xs] gives: nothing is changed if
    nothing is pruned; or a trie for the exports that are kept with zeros
    behind it; or the report that this trie is the larger one. *)
Definition pruned_as (d : list byte) (xs : list Export) (prune : list byte -> bool)
    (base : Z) (r : outcome prune_message (list byte * Z)) : Prop :=
  match r with
  | Ret (d', n) =>
      length d' = length d /\ 0 <= n <= Z.of_nat (length d) /\
      (forall contents, exists es, parseTrie base (take (Z.to_nat n) d') contents = Ret es /\
         Forall2 (reads_as (take (Z.to_nat n) d')) (kept prune xs) es) /\
      Forall (eq x00) (drop (Z.to_nat n) d')
  | Stop (New_trie_larger n m) => exists d', buildTrieBytes (reread <$> kept prune xs) = Ret d' /\
      n = Z.of_nat (length d') /\ m = Z.of_nat (length d) /\ m < n /\ kept prune xs <> xs
  | Stop _ => False
  end.

Lemma build_kept prune xs :
  exports_fit xs -> NoDup (ex_name <$> xs) ->
  exists d, buildTrieBytes (reread <$> kept prune xs) = Ret d.
Proof.
  intros Hfit Hnd.
  assert (Hfit' : exports_fit (reread <$> kept prune xs)).
  { apply reread_fit. eapply exports_fit_sublist; [apply sublist_filter|done]. }
  pose proof (trie_build_ends _ Hfit') as Htot. pose proof (kept_names prune xs Hnd) as Hk.
  destruct (buildTrieBytes _) as [d|f]; [by exists d|]. destruct f; try done.
  destruct Htot as (xs1 & x & xs2 & Heq & -> & Hin). rewrite Heq, fmap_app, fmap_cons in Hk.
  apply NoDup_app in Hk as (_ & Hdis & _). destruct (Hdis _ Hin). left.
Qed.

Lemma filter_full {A} (P : A -> Prop) `{!forall x, Decision (P x)} (l : list A) :
  length (filter P l) = length l -> filter P l = l.
Proof.
  induction l as [|x l IH]; [done|]. rewrite filter_cons. case_decide; simpl.
  - intros [= Hl]. by rewrite IH.
  - pose proof (length_filter P l). lia.
Qed.

Lemma kept_all d prune xs es :
  Forall2 (reads_as d) xs es ->
  (length (filter (fun e => prune (en_name e) = false) es) =? length es)%nat = true <->
  kept prune xs = xs.
Proof.
  intros Hall. rewrite Nat.eqb_eq. pose proof (Forall2_length _ _ _ Hall) as Hl.
  pose proof (Forall2_length _ _ _ (filter_reads d prune xs es Hall)) as Hf.
  rewrite <- Hl, <- Hf. split; [apply filter_full|by intros ->].
Qed.

(** C10: On the trie that buildTrieBytes makes of exports that fit ([exports_fit]: names without
    0x00 and 0xff that are not empty, 64-bit numbers, all of them within a size bound), at an
    address where it does not wrap around, prune_trie gives a trie that reads as exactly the
    exports that are not pruned, in their order and otherwise unchanged, with zeros behind it in
    the old place; for such tries it stops only with the report that the trie of these exports is
    larger than the old one.  Nothing is said of tries that were not built: on malformed ones it
    can stop with other messages, read past the end or not end ([cyclic_trie_diverges]). *)
Theorem prune_trie_correct xs d base contents prune :
  exports_fit xs -> buildTrieBytes xs = Ret d ->
  0 <= base -> base + Z.of_nat (length d) < 2 ^ 64 ->
  pruned_as d xs prune base (prune_trie base d contents prune).
Proof.
  intros Hfit Hd Hb1 Hb2. destruct (trie_size _ _ Hfit Hd) as [Hmod Hsize].
  assert (Hnd : NoDup (ex_name <$> xs)).
  { pose proof (trie_build_ends xs Hfit) as Ht. rewrite Hd in Ht. apply Ht. }
  destruct (exports_read_back xs d base contents Hfit Hd Hb1 Hb2) as (es & Hparse & Hes).
  unfold prune_trie. rewrite Hparse. cbn [fail_as mbind outcome_bind].
  destruct (_ =? _)%nat eqn:Hlen.
  - apply (kept_all d prune xs es Hes) in Hlen. unfold pruned_as.
    rewrite Hlen, Nat2Z.id, firstn_all, drop_all. split_and!; [done|lia|lia| |constructor].
    intros contents'. by apply exports_read_back.
  - assert (Hne : kept prune xs <> xs).
    { intros Hk. apply (kept_all d prune xs es Hes) in Hk. congruence. }
    rewrite (entry_exports_eq d (kept prune xs)) by by apply filter_reads.
    cbn [mbind outcome_bind]. destruct (build_kept prune xs Hfit Hnd) as [d' Hd'].
    assert (Hfit' : exports_fit (reread <$> kept prune xs)).
    { apply reread_fit. eapply exports_fit_sublist; [apply sublist_filter|done]. }
    destruct (trie_size _ _ Hfit' Hd') as [Hmod' Hsize'].
    rewrite Hd'. cbn [fail_as mbind outcome_bind]. unfold trie_align.
    assert (Hm : forall l : list byte, (length l mod 8 = 0)%nat -> Z.of_nat (length l) mod 8 = 0)
      by (intros l Hl; rewrite <- (Nat2Z.inj_mod _ 8), Hl; done).
    cbv zeta. rewrite !(Hm d Hmod). cbn [negb Z.eqb]. rewrite !(Hm d' Hmod'). cbn [negb Z.eqb].
    rewrite Z.add_0_r, uw_id by (unfold in_uw; lia).
    destruct (Z.ltb_spec (Z.of_nat (length d)) (Z.of_nat (length d'))); unfold pruned_as.
    + exists d'. by split_and!.
    + rewrite Nat2Z.id, take_app_length, drop_app_length. split_and!; [|lia|lia| |].
      * rewrite length_app, repeat_length. lia.
      * intros contents'. destruct (exports_read_back _ d' base contents' Hfit' Hd' Hb1)
          as (es' & Hp' & Hes'); [lia|]. exists es'. split; [done|].
        apply reads_as_reread_all; [|by apply (Forall2_fmap_l reread)].
        intros x [_ Hx]%list_elem_of_filter. destruct Hfit as [Hok _].
        by apply (proj1 (Forall_forall _ _) Hok x Hx).
      * apply Forall_forall. intros x Hx. apply list_elem_of_In, repeat_spec in Hx. done.
Qed.

(** Of the sample, the re-export is pruned. *)
Lemma prune_trie_correct_witness :
  match buildTrieBytes sample_exports with
  | Ret d => pruned_as d sample_exports (fun n => bool_decide (n = [x5f; x66; x6f; x6f])) 0x1000
               (prune_trie 0x1000 d [] (fun n => bool_decide (n = [x5f; x66; x6f; x6f])))
  | Stop _ => False
  end.
Proof.
  destruct (buildTrieBytes sample_exports) as [d|f] eqn:E; [|by vm_compute in E].
  apply (prune_trie_correct sample_exports d 0x1000 [] _ sample_fits E); [lia|].
  vm_compute in E. by injection E as <-.
Defined.

(** ** Malformed tries *)

(** A node whose only child is itself, behind an edge without characters. *)
Definition cyclic_trie : list byte := [x00; x01; x00; x04; x00; x01; x00; x04].

(** The walk never ends, however deep the recursion may go. *)
Lemma cyclic_trie_diverges fuel base buf out :
  buf <> [] -> 0 <= base -> base + 8 < 2 ^ 64 ->
  processExportNode fuel base cyclic_trie 4 buf 0 out = Stop Parse_fuel.
Proof.
  intros Hbuf Hb1 Hb2. revert buf out Hbuf. induction fuel as [|fuel IH]; intros buf out Hbuf; [done|].
  destruct buf as [|b buf]; [done|]. cbn [processExportNode].
  change (length cyclic_trie <=? 4)%nat with false. cbv iota.
  change (trie_read_uleb128 cyclic_trie 4) with (@Ret parse_failure _ (0, 5%nat)).
  cbn [mbind outcome_bind negb Z.eqb]. rewrite uw_id by (unfold in_uw; lia).
  change (Z.of_nat (length cyclic_trie)) with 8.
  rewrite (proj2 (Z.ltb_ge _ _)), (proj2 (Z.ltb_ge _ _)) by lia.
  replace (Z.to_nat (base + Z.of_nat 5 + 0 - base)) with 5%nat by lia.
  cbn [lookup list_lookup cyclic_trie or_stop mbind outcome_bind].
  change (Z.to_nat (byte_Z x01)) with 1%nat. cbn [process_children].
  change (drop 6 cyclic_trie) with [x00; x04]. cbn [copy_edge].
  change (write_char (b :: buf) (0 + 0) x00) with (@Ret parse_failure _ (x00 :: buf)).
  cbn [mbind outcome_bind]. change (Byte.eqb x00 x00) with true. cbn [negb mbind outcome_bind].
  change (trie_read_uleb128 cyclic_trie 7) with (@Ret parse_failure _ (4, 8%nat)).
  cbn [mbind outcome_bind]. change (u32 4 =? 0) with false. cbv iota.
  change (Z.to_nat (u32 4)) with 4%nat. cbn [Nat.add]. by rewrite IH.
Qed.

(** A trie whose node names a count of children and then ends is read past its end. *)
Lemma truncated_trie_overreads base contents :
  0 <= base -> base + 2 < 2 ^ 64 ->
  parseTrie base [x00; x01] contents = Stop Out_of_bounds.
Proof.
  intros Hb1 Hb2. unfold parseTrie. cbn [length Nat.add processExportNode].
  change (2 <=? 0)%nat with false. cbv iota.
  change (trie_read_uleb128 [x00; x01] 0) with (@Ret parse_failure _ (0, 1%nat)).
  cbn [mbind outcome_bind negb Z.eqb]. rewrite uw_id by (unfold in_uw; lia).
  change (Z.of_nat 2) with 2. rewrite (proj2 (Z.ltb_ge _ _)), (proj2 (Z.ltb_ge _ _)) by lia.
  by replace (Z.to_nat (base + Z.of_nat 1 + 0 - base)) with 1%nat by lia.
Qed.

(** A trie with a size that is a multiple of 4, as of a 32-bit file: the new
    one has fewer bytes, but it is padded to a multiple of 8 and refused. *)
Definition plain_export (n : list byte) (o : Z) : Export :=
  {| ex_name := n; ex_offset := o; ex_flags := 0; ex_other := 0; ex_importName := [] |}.

Definition trie_of_28_bytes : list byte :=
  match buildTrieBytes [plain_export [x5f; x6d; x61; x69; x6e] 1;
                        plain_export [x5f; x6d; x61; x69; x6e; x41] 2;
                        plain_export [x5f; x6d; x61; x69; x6e; x42] 3] with
  | Ret d => take 28 d
  | Stop _ => []
  end.

Lemma smaller_trie_refused :
  prune_trie 0x1000 trie_of_28_bytes [] (fun n => bool_decide (length n = 5%nat)) =
    Stop (New_trie_larger 32 28).
Proof. vm_compute. reflexivity. Qed.
