(* ===== verification/Fat.v ===== *)
(** * libstuff/ofile.c: fat files

    The part of [ofile_map_from_memory] that recognizes a fat file, swaps its
    header where it lies in memory, and hands it to [check_fat], which accepts
    it or not.  A fat file is in big-endian byte sex. *)

From Stdlib Require Import ZArith Lia Bool.
From Stdlib Require Import Init.Byte.
From stdpp Require Import base option numbers list.
From S2P Require Import Prelude CInt CpuTypes ByteSex HeaderSwap InPlace.

Definition FAT_MAGIC : Z := 0xcafebabe.
Definition FAT_MAGIC_64 : Z := 0xcafebabf.

Definition sizeof_fat_header : nat := 8.
Definition sizeof_fat_arch : nat := 20.
Definition sizeof_fat_arch_64 : nat := 32.

(** ** Swapping in memory *)

Definition fat_header_assigns : list assign := [INT 0; INT 4].
Definition fat_arch_assigns : list assign := [INT 0; INT 4; INT 8; INT 12; INT 16].
Definition fat_arch_64_assigns : list assign :=
  [INT 0; INT 4; LONG_LONG 8; LONG_LONG 16; INT 24; INT 28].

(** The calls under [#ifdef __LITTLE_ENDIAN__]. *)
Definition swap_fat_header_in (h : host) (m : mem) : option mem :=
  match h with LE => do_assigns h 0 fat_header_assigns m | BE => Some m end.

Definition swap_fat_archs_in (h : host) (magic64 : bool) (n : nat) (m : mem) : option mem :=
  match h with
  | LE => if magic64 then do_array h sizeof_fat_header sizeof_fat_arch_64 n fat_arch_64_assigns m
          else do_array h sizeof_fat_header sizeof_fat_arch n fat_arch_assigns m
  | BE => Some m
  end.

(** ** The fields of an architecture *)

(** What the loops copy from either structure. *)
Record arch_fields := {
  af_type : cpu_type_t;
  af_subtype : cpu_subtype_t;
  af_offset : Z;
  af_size : Z;
  af_align : Z;
}.

Definition fields_32 (a : fat_arch) : arch_fields :=
  {| af_type := fat_arch_cputype a; af_subtype := fat_arch_cpusubtype a;
     af_offset := fat_arch_offset a; af_size := fat_arch_size a; af_align := fat_arch_align a |}.

Definition fields_64 (a : fat_arch_64) : arch_fields :=
  {| af_type := fat_arch_64_cputype a; af_subtype := fat_arch_64_cpusubtype a;
     af_offset := fat_arch_64_offset a; af_size := fat_arch_64_size a;
     af_align := fat_arch_64_align a |}.

(** [fat_archs[i]] or [fat_archs64[i]], as the host reads it. *)
Definition arch_at (h : host) (magic64 : bool) (m : mem) (i : nat) : arch_fields :=
  if magic64 then fields_64 (ld_fat_arch_64 h m (sizeof_fat_header + i * sizeof_fat_arch_64))
  else fields_32 (ld_fat_arch h m (sizeof_fat_header + i * sizeof_fat_arch)).

Definition archs_at (h : host) (magic64 : bool) (m : mem) (n : nat) : list arch_fields :=
  arch_at h magic64 m <$> seq 0 n.

(** Two of the same architecture: equal up to the bits of CPU_SUBTYPE_MASK. *)
Definition same_arch (ct1 st1 ct2 st2 : Z) : bool := (ct1 =? ct2) && (msub st1 =? msub st2).

(** ** check_fat *)

Inductive fat_error :=
  | No_architectures
  | Past_end_of_file (i : nat)
  | Align_too_large (i : nat)
  | Not_aligned (i : nat)
  | Two_of_same (i j : nat).

Definition MAXSECTALIGN : Z := 15.

(** The first loop: its first error. *)
Definition check_arch_fields (file_size : Z) (i : nat) (a : arch_fields) : option fat_error :=
  if file_size <? u64 (af_offset a + af_size a) then Some (Past_end_of_file i)
  else if MAXSECTALIGN <? af_align a then Some (Align_too_large i)
  else if negb (af_offset a mod 2 ^ af_align a =? 0) then Some (Not_aligned i)
  else None.

Fixpoint check_archs (file_size : Z) (i : nat) (l : list arch_fields) : option fat_error :=
  match l with
  | [] => None
  | a :: l' => check_arch_fields file_size i a ;;; check_archs file_size (S i) l'
  end.

(** The second loop, over the pairs. *)
Fixpoint check_twins (i j : nat) (a : arch_fields) (l : list arch_fields) : option fat_error :=
  match l with
  | [] => None
  | b :: l' =>
      when (same_arch (af_type a) (af_subtype a) (af_type b) (af_subtype b))
        (Some (Two_of_same i j)) ;;;
      check_twins i (S j) a l'
  end.

Fixpoint check_pairs (i : nat) (l : list arch_fields) : option fat_error :=
  match l with
  | [] => None
  | a :: l' => check_twins i (S i) a l' ;;; check_pairs (S i) l'
  end.

(** [None] is CHECK_GOOD. *)
Definition check_fat (file_size : Z) (archs : list arch_fields) : option fat_error :=
  when (bool_decide (archs = [])) (Some No_architectures) ;;;
  check_archs file_size 0 archs ;;;
  check_pairs 0 archs.

(** ** ofile_map_from_memory *)

(** What comes of a file: not a fat one, one whose structures do not fit,
    which is treated as a file of unknown type, a malformed one, or a fat one
    with the memory it is in now. *)
Inductive fat_result :=
  | Not_fat
  | Fat_unknown
  | Fat_bad (e : fat_error)
  | Fat_good (m : mem) (magic64 : bool) (archs : list arch_fields).

Definition is_fat_magic (h : host) (magic : Z) : bool :=
  let magic := match h with LE => SWAP_INT magic | BE => magic end in
  (magic =? FAT_MAGIC) || (magic =? FAT_MAGIC_64).

Definition sizeof_arch (magic64 : bool) : nat :=
  if magic64 then sizeof_fat_arch_64 else sizeof_fat_arch.

(** [None] is an access outside of the file. *)
Definition map_fat (h : host) (m : mem) : option fat_result :=
  if (sizeof_fat_header <=? length m)%nat && is_fat_magic h (ld_u32 h m 0) then
    m ← swap_fat_header_in h m;
    let fat_header := ld_fat_header h m 0 in
    let magic64 := fat_header_magic fat_header =? FAT_MAGIC_64 in
    let nfat_arch := fat_header_nfat_arch fat_header in
    let big_size := u64 (u64 (nfat_arch * Z.of_nat (sizeof_arch magic64)) +
                         Z.of_nat sizeof_fat_header) in
    if Z.of_nat (length m) <? big_size then Some Fat_unknown
    else
      m ← swap_fat_archs_in h magic64 (Z.to_nat nfat_arch) m;
      let archs := archs_at h magic64 m (Z.to_nat nfat_arch) in
      match check_fat (Z.of_nat (length m)) archs with
      | Some e => Some (Fat_bad e)
      | None => Some (Fat_good m magic64 archs)
      end
  else Some Not_fat.
