(* ===== verification/FatSpec.v ===== *)
(** * Reading fat files

    Swapping the header where it lies lets any host read what a big-endian
    one reads, and [check_fat] accepts exactly the lists of architectures that
    are well formed. *)

From Stdlib Require Import ZArith Lia Bool.
From Stdlib Require Import Init.Byte.
From stdpp Require Import base option numbers list.
From S2P Require Import Prelude CInt CpuTypes ByteSex HeaderSwap InPlace InPlaceSpec Fat.

(** ** Spans of an array *)

Lemma array_spans_in base size n i spans s :
  (i < n)%nat -> In s spans -> In (shift (base + i * size) s) (array_spans base size n spans).
Proof.
  revert base i. induction n as [|n IH]; intros base i Hi Hs; [lia|]. cbn [array_spans].
  apply in_or_app. destruct i as [|i].
  - left. rewrite Nat.mul_0_l, Nat.add_0_r. by apply (in_map (shift base)).
  - right. replace (base + S i * size)%nat with (base + size + i * size)%nat by lia.
    apply IH; [lia|done].
Qed.

Definition header_spans : list (nat * nat) := [(0, 4); (4, 4)]%nat.
Definition arch_spans (magic64 : bool) : list (nat * nat) :=
  if magic64 then [(0, 4); (4, 4); (8, 8); (16, 8); (24, 4); (28, 4)]%nat
  else [(0, 4); (4, 4); (8, 4); (12, 4); (16, 4)]%nat.

Lemma arch_spans_fit b : forallb (fits (sizeof_arch b)) (arch_spans b) = true.
Proof. by destruct b. Qed.
Lemma arch_spans_separate b : separate (arch_spans b) = true.
Proof. by destruct b. Qed.

(** ** Swapping the header *)

Lemma swap_header_spec h m :
  (sizeof_fat_header <= length m)%nat ->
  exists m', swap_fat_header_in h m = Some m' /\ length m' = length m /\
    ld_fat_header h m' 0 = ld_fat_header BE m 0 /\
    forall i, (sizeof_fat_header <= i)%nat -> m' !! i = m !! i.
Proof.
  intros Hlen. destruct h; [|by exists m].
  unfold swap_fat_header_in.
  rewrite (do_assigns_spans LE 0 fat_header_assigns header_spans sizeof_fat_header) by done.
  change (shift 0 <$> header_spans) with header_spans.
  assert (Hfits : forallb (fits (length m)) header_spans = true).
  { apply forallb_forall. intros s Hs. apply fits_spec. unfold sizeof_fat_header in Hlen.
    destruct Hs as [<-|[<-|[]]]; simpl; lia. }
  eexists. split; [done|]. split; [by apply reverse_spans_length|]. split.
  - unfold ld_fat_header. change LE with (other BE).
    by rewrite !(ld_u_swapped _ BE header_spans) by (done || simpl; tauto).
  - intros i Hi. apply reverse_spans_outside; [done|]. unfold sizeof_fat_header in Hi.
    apply forallb_forall. intros s Hs. apply disj_spec. destruct Hs as [<-|[<-|[]]]; simpl; lia.
Qed.

(** Behind the header the architectures are read alike. *)
Lemma swap_archs_spec h b n m :
  (sizeof_fat_header + n * sizeof_arch b <= length m)%nat ->
  exists m', swap_fat_archs_in h b n m = Some m' /\ length m' = length m /\
    archs_at h b m' n = archs_at BE b m n /\
    forall i, (sizeof_fat_header + n * sizeof_arch b <= i)%nat -> m' !! i = m !! i.
Proof.
  intros Hlen. destruct h; [|by exists m].
  set (spans := array_spans sizeof_fat_header (sizeof_arch b) n (arch_spans b)).
  exists (reverse_spans spans m).
  assert (Hdo : swap_fat_archs_in LE b n m = Some (reverse_spans spans m)).
  { unfold swap_fat_archs_in, spans. destruct b; by apply do_array_spans. }
  assert (Hwithin : within sizeof_fat_header (sizeof_fat_header + n * sizeof_arch b) spans = true)
    by apply array_spans_within, arch_spans_fit.
  assert (Hfits : forallb (fits (length m)) spans = true) by by eapply within_fits.
  assert (Hsep : separate spans = true)
    by (apply array_spans_separate; [apply arch_spans_fit|apply arch_spans_separate]).
  split; [done|]. split; [by apply reverse_spans_length|]. split.
  - unfold archs_at. apply list_fmap_ext. intros k i Hk. apply lookup_seq in Hk as [-> Hk].
    assert (Hread : forall o w, In (o, w) (arch_spans b) ->
      ld_u w LE (reverse_spans spans m) (sizeof_fat_header + k * sizeof_arch b + o) =
      ld_u w BE m (sizeof_fat_header + k * sizeof_arch b + o)).
    { intros o w Ho. change LE with (other BE). apply ld_u_swapped; [done..|].
      apply (array_spans_in sizeof_fat_header (sizeof_arch b) n k _ (o, w)); [lia|done]. }
    unfold arch_at. cbn [Nat.add]. destruct b; unfold ld_fat_arch, ld_fat_arch_64, ld_i32.
    + change (sizeof_arch true) with sizeof_fat_arch_64 in Hread.
      by rewrite !Hread by (simpl; tauto).
    + change (sizeof_arch false) with sizeof_fat_arch in Hread.
      by rewrite !Hread by (simpl; tauto).
  - intros i Hi. apply reverse_spans_outside; [done|].
    apply forallb_forall. intros s Hs. rewrite within_spec in Hwithin.
    specialize (Hwithin s Hs). apply disj_spec. simpl. lia.
Qed.

Lemma is_fat_magic_be h m : is_fat_magic h (ld_u32 h m 0) = is_fat_magic BE (ld_u32 BE m 0).
Proof.
  destruct h; [|done]. unfold is_fat_magic.
  by rewrite SWAP_INT_reverse, (byte_reverse_ld 4 LE m 0).
Qed.

(** ** check_fat *)

(** What a fat file's architecture must be like. *)
Record arch_good (file_size : Z) (a : arch_fields) : Prop := {
  good_inside : af_offset a + af_size a <= file_size;
  good_align : af_align a <= MAXSECTALIGN;
  good_aligned : (2 ^ af_align a | af_offset a);
}.

Definition arch_key (a : arch_fields) : Z * Z := (af_type a, msub (af_subtype a)).

Lemma same_arch_spec ct1 st1 ct2 st2 :
  same_arch ct1 st1 ct2 st2 = true <-> (ct1, msub st1) = (ct2, msub st2).
Proof.
  unfold same_arch. rewrite andb_true_iff, !Z.eqb_eq. split; [intros [-> ->]; done|by intros [= -> ->]].
Qed.

Lemma check_arch_fields_None size i a :
  0 <= af_align a -> af_offset a + af_size a < 2 ^ 64 -> 0 <= af_offset a + af_size a ->
  check_arch_fields size i a = None <-> arch_good size a.
Proof.
  intros Ha Hlt Hge. unfold check_arch_fields. rewrite uw_id by (unfold in_uw; lia).
  destruct (Z.ltb_spec size (af_offset a + af_size a)).
  { split; [done|]. intros [? _ _]. lia. }
  destruct (Z.ltb_spec MAXSECTALIGN (af_align a)).
  { split; [done|]. intros [_ ? _]. lia. }
  assert (0 < 2 ^ af_align a) by lia.
  destruct (Z.eqb_spec (af_offset a mod 2 ^ af_align a) 0) as [Hm|Hm]; simpl.
  - split; [|done]. intros _. split; [done..|]. by apply Z.mod_divide; [lia|].
  - split; [done|]. intros [_ _ Hd]. apply Z.mod_divide in Hd; [done|lia].
Qed.

(** Fields the host has read, whose end is within 64 bits. *)
Definition fields_ok (a : arch_fields) : Prop :=
  0 <= af_offset a /\ 0 <= af_size a /\ 0 <= af_align a /\ af_offset a + af_size a < 2 ^ 64.

Lemma check_archs_None size i l :
  Forall fields_ok l -> check_archs size i l = None <-> Forall (arch_good size) l.
Proof.
  intros Hok. revert i. induction Hok as [|a l (H1 & H2 & H3 & H4) Hok IH]; intros i; cbn [check_archs].
  - split; [constructor|done].
  - by rewrite seq_ret_None, check_arch_fields_None, IH, Forall_cons by lia.
Qed.

Lemma check_twins_None i j a l :
  check_twins i j a l = None <-> arch_key a ∉ arch_key <$> l.
Proof.
  revert j. induction l as [|b l IH]; intros j; cbn [check_twins].
  - split; [intros _; apply not_elem_of_nil|done].
  - rewrite seq_ret_None, IH, fmap_cons, not_elem_of_cons. apply and_iff_compat_r.
    unfold when. destruct (same_arch _ _ _ _) eqn:E.
    + apply same_arch_spec in E. split; [done|]. by destruct 1.
    + split; [|done]. intros _ Heq. apply not_true_iff_false in E. by apply E, same_arch_spec.
Qed.

Lemma check_pairs_None i l : check_pairs i l = None <-> NoDup (arch_key <$> l).
Proof.
  revert i. induction l as [|a l IH]; intros i; cbn [check_pairs].
  - split; [intros _; apply NoDup_nil_2|done].
  - by rewrite seq_ret_None, check_twins_None, IH, fmap_cons, NoDup_cons.
Qed.

Lemma check_fat_None size l :
  Forall fields_ok l ->
  check_fat size l = None <-> l <> [] /\ Forall (arch_good size) l /\ NoDup (arch_key <$> l).
Proof.
  intros Hok. unfold check_fat. rewrite !seq_ret_None, check_archs_None, check_pairs_None by done.
  apply and_iff_compat_r. unfold when. case_bool_decide; split; try done.
Qed.

(** ** map_fat *)

(** The header of a fat file, as a big-endian host reads it. *)
Definition fat_magic64 (m : mem) : bool := ld_u32 BE m 0 =? FAT_MAGIC_64.
Definition fat_count (m : mem) : nat := Z.to_nat (ld_u32 BE m 4).
Definition fat_archs_of (m : mem) : list arch_fields := archs_at BE (fat_magic64 m) m (fat_count m).

Lemma archs_at_ext b m m' n :
  (forall i, (sizeof_fat_header <= i)%nat -> m' !! i = m !! i) ->
  archs_at BE b m' n = archs_at BE b m n.
Proof.
  intros He. unfold archs_at. apply list_fmap_ext. intros k i Hk. apply lookup_seq in Hk as [-> _].
  cbn [Nat.add]. unfold arch_at, sizeof_fat_header in *.
  destruct b; unfold ld_fat_arch, ld_fat_arch_64, ld_i32; do 2 f_equal;
    try (f_equal; apply ld_u_ext; intros; apply He; lia); apply ld_u_ext; intros; apply He; lia.
Qed.

(** The place behind the architectures of the header. *)
Definition archs_end (b : bool) (n : nat) : nat := (sizeof_fat_header + n * sizeof_arch b)%nat.

Lemma big_size_eq b n :
  in_uw 32 n ->
  u64 (u64 (n * Z.of_nat (sizeof_arch b)) + Z.of_nat sizeof_fat_header) =
    Z.of_nat (archs_end b (Z.to_nat n)).
Proof.
  intros Hn. unfold in_uw in Hn. unfold archs_end.
  assert (Hs : 0 <= Z.of_nat (sizeof_arch b) <= 32) by (destruct b; vm_compute; by split).
  rewrite Nat2Z.inj_add, Nat2Z.inj_mul, Z2Nat.id by lia.
  change (Z.of_nat sizeof_fat_header) with 8.
  assert (n * Z.of_nat (sizeof_arch b) <= 2 ^ 32 * 32) by (apply Z.mul_le_mono_nonneg; lia).
  assert (0 <= n * Z.of_nat (sizeof_arch b)) by (apply Z.mul_nonneg_nonneg; lia).
  rewrite (uw_id 64 (n * _)), uw_id by (unfold in_uw; lia). lia.
Qed.

(** Either host sees the same architectures. *)
Lemma map_fat_eq h m :
  (sizeof_fat_header <= length m)%nat -> is_fat_magic BE (ld_u32 BE m 0) = true ->
  (archs_end (fat_magic64 m) (fat_count m) <= length m)%nat ->
  exists m', length m' = length m /\
    (forall i, (archs_end (fat_magic64 m) (fat_count m) <= i)%nat -> m' !! i = m !! i) /\
    map_fat h m = Some match check_fat (Z.of_nat (length m)) (fat_archs_of m) with
                       | Some e => Fat_bad e
                       | None => Fat_good m' (fat_magic64 m) (fat_archs_of m)
                       end.
Proof.
  intros Hlen Hmagic Hend. unfold map_fat.
  rewrite (proj2 (Nat.leb_le _ _)), is_fat_magic_be, Hmagic by done. cbn [andb].
  destruct (swap_header_spec h m Hlen) as (m1 & -> & Hl1 & Hh & Hb1). cbn [mbind option_bind].
  rewrite Hh. cbn [ld_fat_header fat_header_magic fat_header_nfat_arch Nat.add].
  fold (fat_magic64 m) (fat_count m). rewrite big_size_eq by apply ld_u32_range.
  fold (fat_count m). rewrite Hl1, (proj2 (Z.ltb_ge _ _)) by lia.
  destruct (swap_archs_spec h (fat_magic64 m) (fat_count m) m1) as (m2 & -> & Hl2 & Ha & Hb2);
    [by rewrite Hl1|]. cbn [mbind option_bind].
  rewrite Ha, (archs_at_ext _ m m1) by done. fold (fat_archs_of m). rewrite Hl2, Hl1.
  exists m2. split; [congruence|]. split.
  - intros i Hi. unfold archs_end in Hi. rewrite Hb2 by done. apply Hb1. lia.
  - by destruct (check_fat _ _).
Qed.

(** C12: Hosts of both byte sexes accept a fat file with the magic number FAT_MAGIC (the 32-bit
    one) whose fat_arch structures fit exactly when
    there is one, each lies inside of the file at a multiple of an alignment of at most 2^15,
    and no two are the same; they then read the same architectures and do not change what is
    behind the structures.  It does not hold for FAT_MAGIC_64, where offset and size are
    added modulo 2^64. *)
Theorem fat_file_accepted h m :
  ld_u32 BE m 0 = FAT_MAGIC -> (archs_end false (fat_count m) <= length m)%nat ->
  (exists m', map_fat h m = Some (Fat_good m' false (fat_archs_of m)) /\
     drop (archs_end false (fat_count m)) m' = drop (archs_end false (fat_count m)) m) <->
  fat_count m <> 0%nat /\ Forall (arch_good (Z.of_nat (length m))) (fat_archs_of m) /\
  NoDup (arch_key <$> fat_archs_of m).
Proof.
  intros Hmagic Hend. assert (Hb : fat_magic64 m = false) by (unfold fat_magic64; by rewrite Hmagic).
  destruct (map_fat_eq h m) as (m' & Hl & Hbehind & Hmap).
  - unfold archs_end, sizeof_fat_header in *. lia.
  - by rewrite Hmagic.
  - by rewrite Hb.
  - rewrite Hb in *.
    assert (Hok : Forall fields_ok (fat_archs_of m)).
    { apply Forall_forall. intros a. unfold fat_archs_of. rewrite Hb.
      intros (i & -> & _)%list_elem_of_fmap. unfold fields_ok, arch_at, fields_32, ld_fat_arch.
      cbn [af_offset af_size af_align fat_arch_offset fat_arch_size fat_arch_align].
      pose proof (fun o => ld_u32_range BE m (sizeof_fat_header + i * sizeof_fat_arch + o)) as Hr.
      pose proof (Hr 8%nat) as H1. pose proof (Hr 12%nat) as H2. pose proof (Hr 16%nat) as H3.
      unfold in_uw in H1, H2, H3. lia. }
    pose proof (check_fat_None (Z.of_nat (length m)) _ Hok) as Hcheck.
    assert (Hcount : fat_archs_of m <> [] <-> fat_count m <> 0%nat).
    { unfold fat_archs_of, archs_at. destruct (fat_count m); [done|]. cbn. done. }
    rewrite Hcount in Hcheck. rewrite <- Hcheck, Hmap.
    destruct (check_fat _ _) as [e|].
    + split; [|done]. by intros (m2 & ? & _).
    + split; [done|]. intros _. exists m'. split; [done|]. apply list_eq. intros i.
      rewrite !lookup_drop. apply Hbehind. lia.
Qed.

Definition sample_fat : list byte :=
  byte_of <$> [0xca; 0xfe; 0xba; 0xbe; 0; 0; 0; 1;
               0; 0; 0; 7; 0; 0; 0; 3; 0; 0; 0; 32; 0; 0; 0; 2; 0; 0; 0; 4;
               0; 0; 0; 0; 1; 2].

Lemma fat_file_accepted_witness :
  exists m', map_fat LE sample_fat = Some (Fat_good m' false (fat_archs_of sample_fat)) /\
    drop (archs_end false (fat_count sample_fat)) m' =
    drop (archs_end false (fat_count sample_fat)) sample_fat.
Proof.
  apply (fat_file_accepted LE sample_fat).
  - reflexivity.
  - apply Nat.leb_le. reflexivity.
  - split; [discriminate|]. split.
    + constructor; [|constructor]. split; [by vm_compute|by vm_compute|].
      apply Z.mod_divide; [discriminate|reflexivity].
    + apply NoDup_singleton.
Defined.
