(* ===== verification/Lipo.v ===== *)
(** * misc/lipo.c: reading and writing fat files

    [create_fat], which writes the thin files into a fat file, the part of
    [process_input_file] that breaks a fat file down into thin files, and the
    selections of [-extract] and [-remove].  A call of [fatal] stops. *)

From Stdlib Require Import ZArith Lia Bool.
From Stdlib Require Import Init.Byte.
From stdpp Require Import base option numbers list.
From S2P Require Import Prelude CInt CpuTypes ByteSex HeaderSwap InPlace Rounding LoaderH Fat.

Definition MH_CIGAM : Z := 0xcefaedfe.
Definition MH_CIGAM_64 : Z := 0xcffaedfe.
Definition MH_EXECUTE : Z := 2.

(** ** Thin files *)

(** [addr] and [size] are the bytes of the file. *)
Record thin_file := {
  thin_bytes : list byte;
  thin_cputype : cpu_type_t;
  thin_cpusubtype : cpu_subtype_t;
  thin_offset : Z;
  thin_align : Z;
  thin_extract : bool;
  thin_remove : bool;
}.

Definition thin_size (t : thin_file) : Z := Z.of_nat (length (thin_bytes t)).

Definition set_thin_align (a : Z) (t : thin_file) : thin_file :=
  {| thin_bytes := thin_bytes t; thin_cputype := thin_cputype t;
     thin_cpusubtype := thin_cpusubtype t; thin_offset := thin_offset t; thin_align := a;
     thin_extract := thin_extract t; thin_remove := thin_remove t |}.

Definition set_thin_offset (o : Z) (t : thin_file) : thin_file :=
  {| thin_bytes := thin_bytes t; thin_cputype := thin_cputype t;
     thin_cpusubtype := thin_cpusubtype t; thin_offset := o; thin_align := thin_align t;
     thin_extract := thin_extract t; thin_remove := thin_remove t |}.

(** [-segalign]: the flag's cputype and cpusubtype, and the alignment. *)
Record segalign := {
  sa_cputype : cpu_type_t;
  sa_cpusubtype : cpu_subtype_t;
  sa_align : Z;
}.

(** The calls of [fatal]; [Bad_access] is an access outside of the mapped file. *)
Inductive lipo_failure :=
  | Segalign_twice
  | Segalign_no_such_arch
  | Hide_not_executable
  | Hide_wrong_order
  | Offset_exceeds_32_bits
  | Fat_truncated
  | Slice_past_end
  | Slice_align_too_large
  | Slice_not_aligned
  | Slice_twice
  | Flag_twice
  | Flag_no_such_arch
  | Empty_fat_file
  | Bad_access.

(** [if(c) fatal(...)] *)
Definition fatal_if (c : bool) (f : lipo_failure) : outcome lipo_failure unit :=
  if c then Stop f else Ret tt.

(** A loop over pairs [i < j] that looks for two of the same architecture. *)
Fixpoint has_twins {A} (ct st : A -> Z) (l : list A) : bool :=
  match l with
  | [] => false
  | a :: l' => existsb (fun b => same_arch (ct a) (st a) (ct b) (st b)) l' || has_twins ct st l'
  end.

(** ** create_fat *)

(** The alignment of the first thin file of the architecture is set. *)
Fixpoint fold_segaligns (sas : list segalign) (thins : list thin_file)
    : outcome lipo_failure (list thin_file) :=
  match sas with
  | [] => Ret thins
  | sa :: sas' =>
      match find_index (fun t => same_arch (sa_cputype sa) (sa_cpusubtype sa)
                                   (thin_cputype t) (thin_cpusubtype t)) thins with
      | Some j => fold_segaligns sas' (alter (set_thin_align (sa_align sa)) j thins)
      | None => Stop Segalign_no_such_arch
      end
  end.

(** The comparison function for [qsort]. *)
Definition cmp_qsort (thin1 thin2 : thin_file) : Z :=
  if thin_cputype thin1 =? thin_cputype thin2
  then i32 (msub (thin_cpusubtype thin1) - msub (thin_cpusubtype thin2))
  else if thin_cputype thin1 =? CPU_TYPE_ARM64 then 1
  else if thin_cputype thin2 =? CPU_TYPE_ARM64 then -1
  else i32 (thin_align thin1 - thin_align thin2).

(** [MH_CIGAM] and [MH_CIGAM_64] are the swapped magic numbers.  The second
    test for a swapped header compares with the wrong one. *)
Definition get_mh_filetype (h : host) (addr : list byte) : Z :=
  if (4 <=? length addr)%nat then
    let magic := ld_u32 h addr 0 in
    if (magic =? MH_MAGIC) || (magic =? MH_CIGAM) then
      if (28 <=? length addr)%nat then
        let mh32 := ld_mach_header h addr 0 in
        let mh32 := if magic =? MH_CIGAM then swap_mach_header mh32 else mh32 in
        mach_header_filetype mh32
      else 0
    else if (magic =? MH_MAGIC_64) || (magic =? MH_CIGAM_64) then
      if (32 <=? length addr)%nat then
        let mh64 := ld_mach_header_64 h addr 0 in
        let mh64 := if magic =? MH_CIGAM then swap_mach_header_64 mh64 else mh64 in
        mach_header_64_filetype mh64
      else 0
    else 0
  else 0.

Record hide_state := { has_arm32 : bool; has_arm64 : bool; num_archs : Z; num_archs_arm64 : Z }.

(** The loop of [-hideARM64] over the sorted thin files. *)
Fixpoint hide_loop (h : host) (thins : list thin_file) (s : hide_state)
    : outcome lipo_failure hide_state :=
  match thins with
  | [] => Ret s
  | t :: thins' =>
      _ ← fatal_if (negb (MH_EXECUTE =? get_mh_filetype h (thin_bytes t))) Hide_not_executable;
      _ ← fatal_if (has_arm64 s && negb (thin_cputype t =? CPU_TYPE_ARM64)) Hide_wrong_order;
      let arm64 := thin_cputype t =? CPU_TYPE_ARM64 in
      hide_loop h thins'
        {| has_arm32 := has_arm32 s || (thin_cputype t =? CPU_TYPE_ARM);
           has_arm64 := has_arm64 s || arm64;
           num_archs := u32 (num_archs s + 1);
           num_archs_arm64 := if arm64 then u32 (num_archs_arm64 s + 1) else num_archs_arm64 s |}
  end.

(** [fat_header.nfat_arch] *)
Definition count_archs (h : host) (hideARM64 : bool) (thins : list thin_file)
    : outcome lipo_failure Z :=
  let n := u32 (Z.of_nat (length thins)) in
  if hideARM64 then
    s ← hide_loop h thins
          {| has_arm32 := false; has_arm64 := false; num_archs := 0; num_archs_arm64 := 0 |};
    Ret (if has_arm32 s && has_arm64 s then u32 (num_archs s - num_archs_arm64 s) else n)
  else Ret n.

(** The offsets of the thin files. *)
Fixpoint lay_out (fat64 : bool) (thins : list thin_file) (offset : Z)
    : outcome lipo_failure (list thin_file) :=
  match thins with
  | [] => Ret []
  | t :: thins' =>
      let offset := rnd offset (i32 (Z.shiftl 1 (thin_align t))) in
      _ ← fatal_if (negb fat64 && (0xffffffff <? offset)) Offset_exceeds_32_bits;
      rest ← lay_out fat64 thins' (u64 (offset + thin_size t));
      Ret (set_thin_offset offset t :: rest)
  end.

(** The bytes of a structure in the memory of the host. *)
Definition st_fat_header (h : host) (x : fat_header) : list byte :=
  byte_of <$> (mem_bytes h 4 (fat_header_magic x) ++ mem_bytes h 4 (fat_header_nfat_arch x)).

Definition st_fat_arch (h : host) (x : fat_arch) : list byte :=
  byte_of <$> (mem_bytes h 4 (fat_arch_cputype x) ++ mem_bytes h 4 (fat_arch_cpusubtype x) ++
               mem_bytes h 4 (fat_arch_offset x) ++ mem_bytes h 4 (fat_arch_size x) ++
               mem_bytes h 4 (fat_arch_align x)).

Definition st_fat_arch_64 (h : host) (x : fat_arch_64) : list byte :=
  byte_of <$> (mem_bytes h 4 (fat_arch_64_cputype x) ++ mem_bytes h 4 (fat_arch_64_cpusubtype x) ++
               mem_bytes h 8 (fat_arch_64_offset x) ++ mem_bytes h 8 (fat_arch_64_size x) ++
               mem_bytes h 4 (fat_arch_64_align x) ++ mem_bytes h 4 (fat_arch_64_reserved x)).

Definition on_little {A} (h : host) (f : A -> A) (x : A) : A :=
  match h with LE => f x | BE => x end.

Definition thin_fat_arch (t : thin_file) : fat_arch :=
  {| fat_arch_cputype := thin_cputype t; fat_arch_cpusubtype := thin_cpusubtype t;
     fat_arch_offset := u32 (thin_offset t); fat_arch_size := u32 (thin_size t);
     fat_arch_align := thin_align t |}.

(** [reserved] is not assigned: it has what the memory of the variable held,
    swapped with the rest of the structure in every round. *)
Definition thin_fat_arch_64 (t : thin_file) (reserved : Z) : fat_arch_64 :=
  {| fat_arch_64_cputype := thin_cputype t; fat_arch_64_cpusubtype := thin_cpusubtype t;
     fat_arch_64_offset := thin_offset t; fat_arch_64_size := thin_size t;
     fat_arch_64_align := thin_align t; fat_arch_64_reserved := reserved |}.

(** The loop that writes the structures. *)
Fixpoint write_archs (h : host) (fat64 : bool) (thins : list thin_file) (reserved : Z) : list byte :=
  match thins with
  | [] => []
  | t :: thins' =>
      if fat64 then
        let fat_arch64 := on_little h swap_fat_arch_64_elem (thin_fat_arch_64 t reserved) in
        st_fat_arch_64 h fat_arch64 ++
          write_archs h fat64 thins' (fat_arch_64_reserved fat_arch64)
      else st_fat_arch h (on_little h swap_fat_arch_elem (thin_fat_arch t)) ++
             write_archs h fat64 thins' reserved
  end.

(** [lseek] and [write]: a gap in front of the bytes reads as zeros, and
    writing no bytes makes none. *)
Definition write_at (file : list byte) (offset : nat) (bs : list byte) : list byte :=
  match bs with
  | [] => file
  | _ => take offset (file ++ repeat x00 (offset - length file)) ++ bs ++
           drop (offset + length bs) file
  end.

(** The loop that writes the contents at their offsets. *)
Definition write_slices (file : list byte) (thins : list thin_file) : list byte :=
  fold_left (fun file t => write_at file (Z.to_nat (thin_offset t)) (thin_bytes t)) thins file.

Section create_fat.
(** [qsort] leaves the thin files in some order, [reserved] is what the
    variable [fat_arch64] holds there before it is used. *)
Variables (h : host) (qsort : list thin_file -> list thin_file) (reserved : Z).
Variables (fat64 hideARM64 extract_family : bool).

(** The thin files with their offsets, and the file. *)
Definition create_fat (segaligns : list segalign) (thins : list thin_file)
    : outcome lipo_failure (list thin_file * list byte) :=
  _ ← fatal_if (has_twins sa_cputype sa_cpusubtype segaligns) Segalign_twice;
  thins ← fold_segaligns segaligns thins;
  let thins := qsort thins in
  nfat_arch ← count_archs h hideARM64 thins;
  let fat_header :=
    {| fat_header_magic := if fat64 then FAT_MAGIC_64 else FAT_MAGIC;
       fat_header_nfat_arch := nfat_arch |} in
  let offset := Z.of_nat sizeof_fat_header +
                Z.of_nat (length thins) * Z.of_nat (sizeof_arch fat64) in
  thins ← lay_out fat64 thins (u64 offset);
  if negb extract_family || negb (length thins =? 1)%nat then
    let header := st_fat_header h (on_little h swap_fat_header fat_header) ++
                  write_archs h fat64 thins reserved in
    Ret (thins, write_slices header thins)
  else Ret (thins, concat (thin_bytes <$> thins)).
End create_fat.

(** ** process_input_file *)

(** The lowest offset of the structures, which are not swapped yet: on a
    little-endian host the swapped offset is stored in [cputype]. *)
Fixpoint lowest_offset (h : host) (m : mem) (n i : nat) (first_offset : Z) : Z :=
  match n with
  | O => first_offset
  | S n' =>
      let offset := fat_arch_offset (ld_fat_arch h m (sizeof_fat_header + i * sizeof_fat_arch)) in
      lowest_offset h m n' (S i) (if offset <? first_offset then offset else first_offset)
  end.

(** Whether there is a hidden architecture behind the [n] of the header. *)
Definition hidden_arch (h : host) (m : mem) (n : nat) : bool :=
  let big_size := Z.of_nat (sizeof_fat_header + n * sizeof_fat_arch) in
  let first_offset := lowest_offset h m n 0 0xffffffff in
  if (big_size + Z.of_nat sizeof_fat_arch <=? Z.of_nat (length m)) &&
     (big_size + Z.of_nat sizeof_fat_arch <=? first_offset)
  then
    let cputype :=
      fat_arch_cputype (ld_fat_arch h m (sizeof_fat_header + n * sizeof_fat_arch)) in
    let cputype := match h with LE => i32 (SWAP_INT cputype) | BE => cputype end in
    cputype =? CPU_TYPE_ARM64
  else false.

(** [offset + size] has the width of the fields. *)
Definition slice_end (magic64 : bool) (a : arch_fields) : Z :=
  if magic64 then u64 (af_offset a + af_size a) else u32 (af_offset a + af_size a).

Fixpoint check_slices (magic64 : bool) (size : Z) (l : list arch_fields)
    : outcome lipo_failure unit :=
  match l with
  | [] => Ret tt
  | a :: l' =>
      _ ← fatal_if (size <? slice_end magic64 a) Slice_past_end;
      _ ← fatal_if (MAXSECTALIGN <? af_align a) Slice_align_too_large;
      _ ← fatal_if (negb (af_offset a mod 2 ^ af_align a =? 0)) Slice_not_aligned;
      check_slices magic64 size l'
  end.

(** The thin file of an architecture; its bytes are read later on. *)
Definition slice_thin (m : mem) (a : arch_fields) : outcome lipo_failure thin_file :=
  if Z.of_nat (length m) <? af_offset a + af_size a then Stop Bad_access
  else Ret {| thin_bytes := take (Z.to_nat (af_size a)) (drop (Z.to_nat (af_offset a)) m);
              thin_cputype := af_type a; thin_cpusubtype := af_subtype a;
              thin_offset := af_offset a; thin_align := af_align a;
              thin_extract := false; thin_remove := false |}.

Fixpoint slice_thins (m : mem) (l : list arch_fields) : outcome lipo_failure (list thin_file) :=
  match l with
  | [] => Ret []
  | a :: l' => t ← slice_thin m a; ts ← slice_thins m l'; Ret (t :: ts)
  end.

(** A file that is a fat one: the thin files it is broken down into. *)
Definition process_fat (h : host) (m : mem) : option (outcome lipo_failure (list thin_file)) :=
  if (sizeof_fat_header <=? length m)%nat && is_fat_magic h (ld_u32 h m 0) then Some
    (m ← or_stop Bad_access (swap_fat_header_in h m);
     let fat_header := ld_fat_header h m 0 in
     let magic64 := fat_header_magic fat_header =? FAT_MAGIC_64 in
     let nfat_arch := fat_header_nfat_arch fat_header in
     let big_size := u64 (u64 (nfat_arch * Z.of_nat (sizeof_arch magic64)) +
                          Z.of_nat sizeof_fat_header) in
     let size := Z.of_nat (length m) in
     _ ← fatal_if (size <? big_size) Fat_truncated;
     let hidden := negb magic64 && hidden_arch h m (Z.to_nat nfat_arch) in
     let nfat_arch := if hidden then u32 (nfat_arch + 1) else nfat_arch in
     let m := if hidden then st_u 4 h nfat_arch m 4 else m in
     m ← or_stop Bad_access (swap_fat_archs_in h magic64 (Z.to_nat nfat_arch) m);
     let archs := archs_at h magic64 m (Z.to_nat nfat_arch) in
     _ ← check_slices magic64 size archs;
     _ ← fatal_if (has_twins af_type af_subtype archs) Slice_twice;
     slice_thins m archs)
  else None.

(** ** -extract and -remove *)

(** An architecture of the command line. *)
Definition arch_named : Type := cpu_type_t * cpu_subtype_t.

Definition set_extract (t : thin_file) : thin_file :=
  {| thin_bytes := thin_bytes t; thin_cputype := thin_cputype t;
     thin_cpusubtype := thin_cpusubtype t; thin_offset := thin_offset t;
     thin_align := thin_align t; thin_extract := true; thin_remove := thin_remove t |}.

Definition set_remove (t : thin_file) : thin_file :=
  {| thin_bytes := thin_bytes t; thin_cputype := thin_cputype t;
     thin_cpusubtype := thin_cpusubtype t; thin_offset := thin_offset t;
     thin_align := thin_align t; thin_extract := thin_extract t; thin_remove := true |}.

(** With [-extract_family] the cpusubtype does not matter. *)
Definition extract_matches (family : bool) (f : arch_named) (t : thin_file) : bool :=
  (f.1 =? thin_cputype t) && ((msub f.2 =? msub (thin_cpusubtype t)) || family).

Fixpoint mark_extract (family : bool) (flags : list arch_named) (thins : list thin_file)
    : outcome lipo_failure (list thin_file) :=
  match flags with
  | [] => Ret thins
  | f :: flags' =>
      let found := existsb (extract_matches family f) thins in
      let thins := (fun t => if extract_matches family f t then set_extract t else t) <$> thins in
      if found then mark_extract family flags' thins else Stop Flag_no_such_arch
  end.

(** Only the first thin file of the architecture is marked. *)
Fixpoint mark_remove (flags : list arch_named) (thins : list thin_file)
    : outcome lipo_failure (list thin_file) :=
  match flags with
  | [] => Ret thins
  | f :: flags' =>
      match find_index (fun t => same_arch f.1 f.2 (thin_cputype t) (thin_cpusubtype t)) thins with
      | Some j => mark_remove flags' (alter set_remove j thins)
      | None => Stop Flag_no_such_arch
      end
  end.

(** The thin files an [-extract] or a [-remove] leaves. *)
Definition lipo_extract (family : bool) (flags : list arch_named) (thins : list thin_file)
    : outcome lipo_failure (list thin_file) :=
  _ ← fatal_if (has_twins fst snd flags) Flag_twice;
  thins ← mark_extract family flags thins;
  Ret (filter (fun t => thin_extract t = true) thins).

Definition lipo_remove (flags : list arch_named) (thins : list thin_file)
    : outcome lipo_failure (list thin_file) :=
  _ ← fatal_if (has_twins fst snd flags) Flag_twice;
  thins ← mark_remove flags thins;
  let thins := filter (fun t => thin_remove t = false) thins in
  _ ← fatal_if (bool_decide (thins = [])) Empty_fat_file;
  Ret thins.
