(* ===== verification/LipoLayout.v ===== *)
(** * The bytes lipo writes

    The structures [create_fat] writes are those a big-endian host stores,
    whatever the host; the offsets are multiples of the alignments and the
    slices follow each other; and the file holds every slice at its offset. *)

From Stdlib Require Import ZArith Lia Bool.
From Stdlib Require Import Init.Byte.
From stdpp Require Import base option numbers list.
From S2P Require Import Prelude CInt CpuTypes ByteSex HeaderSwap InPlace InPlaceSpec.
From S2P Require Import Rounding Fat FatSpec Lipo.

(** ** Storing and loading *)

Lemma mem_bytes_mod h n z1 z2 :
  z1 mod 2 ^ (8 * Z.of_nat n) = z2 mod 2 ^ (8 * Z.of_nat n) -> mem_bytes h n z1 = mem_bytes h n z2.
Proof. intros H. unfold mem_bytes. by rewrite <- (le_bytes_mod n z1), H, le_bytes_mod. Qed.

Lemma swapped_bytes n v z :
  z mod 2 ^ (8 * Z.of_nat n) = byte_reverse n v mod 2 ^ (8 * Z.of_nat n) ->
  mem_bytes LE n z = mem_bytes BE n v.
Proof. intros H. rewrite (mem_bytes_mod LE n z _ H), mem_bytes_reverse. done. Qed.

Lemma swap_int_bytes v : mem_bytes LE 4 (SWAP_INT v) = mem_bytes BE 4 v.
Proof. apply swapped_bytes. by rewrite SWAP_INT_reverse. Qed.

Lemma swap_i32_bytes v : mem_bytes LE 4 (i32 (SWAP_INT v)) = mem_bytes BE 4 v.
Proof. apply swapped_bytes. rewrite SWAP_INT_reverse. apply (uw_sw 32). lia. Qed.

Lemma swap_long_bytes v : mem_bytes LE 8 (u64 (SWAP_LONG_LONG v)) = mem_bytes BE 8 v.
Proof.
  apply swapped_bytes. rewrite SWAP_LONG_LONG_reverse. change (2 ^ (8 * Z.of_nat 8)) with (2 ^ 64).
  change (u64 (u64 (i64 (byte_reverse 8 v))) = u64 (byte_reverse 8 v)).
  by rewrite uw_uw, (uw_sw 64) by lia.
Qed.

Lemma st_fat_header_be h x : st_fat_header h (on_little h swap_fat_header x) = st_fat_header BE x.
Proof.
  destruct h; [|done]. unfold st_fat_header, on_little, swap_fat_header.
  cbn [fat_header_magic fat_header_nfat_arch]. by rewrite !swap_int_bytes.
Qed.

Lemma st_fat_arch_be h x : st_fat_arch h (on_little h swap_fat_arch_elem x) = st_fat_arch BE x.
Proof.
  destruct h; [|done]. unfold st_fat_arch, on_little, swap_fat_arch_elem.
  cbn [fat_arch_cputype fat_arch_cpusubtype fat_arch_offset fat_arch_size fat_arch_align].
  by rewrite !swap_int_bytes, !swap_i32_bytes.
Qed.

Lemma st_fat_arch_64_be h x :
  st_fat_arch_64 h (on_little h swap_fat_arch_64_elem x) = st_fat_arch_64 BE x.
Proof.
  destruct h; [|done]. unfold st_fat_arch_64, on_little, swap_fat_arch_64_elem.
  cbn [fat_arch_64_cputype fat_arch_64_cpusubtype fat_arch_64_offset fat_arch_64_size
       fat_arch_64_align fat_arch_64_reserved].
  by rewrite !swap_int_bytes, !swap_i32_bytes, !swap_long_bytes.
Qed.

(** The structure of a thin file. *)
Definition arch_bytes (b : bool) (t : thin_file) (reserved : Z) : list byte :=
  if b then st_fat_arch_64 BE (thin_fat_arch_64 t reserved) else st_fat_arch BE (thin_fat_arch t).

Lemma length_arch_bytes b t r : length (arch_bytes b t r) = sizeof_arch b.
Proof.
  unfold arch_bytes. destruct b; unfold st_fat_arch, st_fat_arch_64;
    rewrite length_fmap, !length_app, !length_mem_bytes; done.
Qed.

Lemma write_archs_eq h b ts r :
  exists rs, length rs = length ts /\ write_archs h b ts r = concat (zip_with (arch_bytes b) ts rs).
Proof.
  revert r. induction ts as [|t ts IH]; intros r; [by exists []|]. cbn [write_archs]. destruct b.
  - destruct (IH (fat_arch_64_reserved (on_little h swap_fat_arch_64_elem (thin_fat_arch_64 t r))))
      as (rs & Hl & ->). exists (r :: rs). split; [simpl; lia|]. by rewrite st_fat_arch_64_be.
  - destruct (IH r) as (rs & Hl & ->). exists (r :: rs). split; [simpl; lia|].
    by rewrite st_fat_arch_be.
Qed.

Lemma length_structs b ts rs :
  length rs = length ts ->
  length (concat (zip_with (arch_bytes b) ts rs)) = (length ts * sizeof_arch b)%nat.
Proof.
  revert rs. induction ts as [|t ts IH]; intros [|r' rs] Hl; try done. injection Hl as Hl.
  cbn [zip_with concat]. rewrite length_app, length_arch_bytes, (IH rs Hl). simpl. lia.
Qed.

Lemma length_write_archs h b ts r : length (write_archs h b ts r) = (length ts * sizeof_arch b)%nat.
Proof. destruct (write_archs_eq h b ts r) as (rs & Hl & ->). by apply length_structs. Qed.

Lemma ld_u_skip n h p m o : ld_u n h (p ++ m) (length p + o) = ld_u n h m o.
Proof.
  unfold ld_u. f_equal. unfold bytes_at. apply list_fmap_ext. intros k i _. unfold byte_at.
  f_equal. rewrite !nth_lookup. f_equal. rewrite lookup_app_r by lia. f_equal. lia.
Qed.

Lemma ld_u_stored n h v q : ld_u n h ((byte_of <$> mem_bytes h n v) ++ q) 0 = v mod 2 ^ (8 * Z.of_nat n).
Proof.
  rewrite <- (value_of_mem_bytes h). unfold ld_u. f_equal.
  rewrite bytes_at_take by (rewrite length_app, length_fmap, length_mem_bytes; lia).
  rewrite drop_0, take_app_length' by (by rewrite length_fmap, length_mem_bytes).
  rewrite <- list_fmap_compose. rewrite <- (list_fmap_id (mem_bytes h n v)) at 2.
  apply Forall_fmap_ext_1. eapply Forall_impl; [apply mem_bytes_range|]. intros z Hz.
  by apply byte_Z_of.
Qed.

(** Reads the fields of a structure one after the other. *)
Lemma ld_u_next n w h v q o :
  ld_u n h ((byte_of <$> mem_bytes h w v) ++ q) (w + o) = ld_u n h q o.
Proof.
  pose proof (ld_u_skip n h (byte_of <$> mem_bytes h w v) q o) as H.
  by rewrite length_fmap, length_mem_bytes in H.
Qed.

(** What is read for a thin file. *)
Definition thin_fields (t : thin_file) : arch_fields :=
  {| af_type := thin_cputype t; af_subtype := thin_cpusubtype t; af_offset := thin_offset t;
     af_size := thin_size t; af_align := thin_align t |}.

(** The numbers of a thin file fit in the fields. *)
Record thin_fits (b : bool) (t : thin_file) : Prop := {
  fits_cputype : in_sw 32 (thin_cputype t);
  fits_cpusubtype : in_sw 32 (thin_cpusubtype t);
  fits_offset : in_uw (if b then 64 else 32) (thin_offset t);
  fits_size : in_uw (if b then 64 else 32) (thin_size t);
  fits_align : 0 <= thin_align t <= MAXSECTALIGN;
}.

Lemma i32_stored v q : in_sw 32 v -> i32 (ld_u32 BE ((byte_of <$> mem_bytes BE 4 v) ++ q) 0) = v.
Proof.
  intros Hv. rewrite ld_u_stored. change (i32 (u32 v) = v). rewrite (sw_uw 32) by lia.
  by apply sw_id.
Qed.

Lemma u32_stored v q : in_uw 32 v -> ld_u32 BE ((byte_of <$> mem_bytes BE 4 v) ++ q) 0 = v.
Proof. intros Hv. rewrite ld_u_stored. by apply (uw_id 32). Qed.

Lemma u64_stored v q : in_uw 64 v -> ld_u64 BE ((byte_of <$> mem_bytes BE 8 v) ++ q) 0 = v.
Proof. intros Hv. rewrite ld_u_stored. by apply (uw_id 64). Qed.

Lemma arch_at_bytes b t r pre q i :
  thin_fits b t -> length pre = (sizeof_fat_header + i * sizeof_arch b)%nat ->
  arch_at BE b (pre ++ arch_bytes b t r ++ q) i = thin_fields t.
Proof.
  intros [Hct Hst Ho Hs Ha] Hpre. unfold arch_at.
  assert (Hskip : forall n o, ld_u n BE (pre ++ arch_bytes b t r ++ q)
            (sizeof_fat_header + i * sizeof_arch b + o) = ld_u n BE (arch_bytes b t r ++ q) o).
  { intros n o. rewrite <- Hpre. apply ld_u_skip. }
  assert (Ha' : in_uw 32 (thin_align t)) by (unfold in_uw; unfold MAXSECTALIGN in Ha; lia).
  unfold ld_fat_arch_64, ld_fat_arch, ld_i32, fields_32, fields_64, thin_fields.
  destruct b; [change sizeof_fat_arch_64 with (sizeof_arch true)
              |change sizeof_fat_arch with (sizeof_arch false)];
    rewrite !Hskip; cbn [arch_bytes]; clear Hskip.
  - unfold st_fat_arch_64. rewrite !fmap_app, <- !app_assoc.
    cbn [thin_fat_arch_64 fat_arch_64_cputype fat_arch_64_cpusubtype fat_arch_64_offset
         fat_arch_64_size fat_arch_64_align fat_arch_64_reserved].
    f_equal.
    + by apply i32_stored.
    + rewrite (ld_u_next 4 4 BE _ _ 0). by apply i32_stored.
    + rewrite (ld_u_next 8 4 BE _ _ 4), (ld_u_next 8 4 BE _ _ 0). by apply u64_stored.
    + rewrite (ld_u_next 8 4 BE _ _ 12), (ld_u_next 8 4 BE _ _ 8), (ld_u_next 8 8 BE _ _ 0).
      by apply u64_stored.
    + rewrite (ld_u_next 4 4 BE _ _ 20), (ld_u_next 4 4 BE _ _ 16), (ld_u_next 4 8 BE _ _ 8),
        (ld_u_next 4 8 BE _ _ 0). by apply u32_stored.
  - unfold st_fat_arch. rewrite !fmap_app, <- !app_assoc.
    cbn [thin_fat_arch fat_arch_cputype fat_arch_cpusubtype fat_arch_offset fat_arch_size
         fat_arch_align].
    rewrite (uw_id 32 (thin_offset t)), (uw_id 32 (thin_size t)) by done.
    f_equal.
    + by apply i32_stored.
    + rewrite (ld_u_next 4 4 BE _ _ 0). by apply i32_stored.
    + rewrite (ld_u_next 4 4 BE _ _ 4), (ld_u_next 4 4 BE _ _ 0). by apply u32_stored.
    + rewrite (ld_u_next 4 4 BE _ _ 8), (ld_u_next 4 4 BE _ _ 4), (ld_u_next 4 4 BE _ _ 0).
      by apply u32_stored.
    + rewrite (ld_u_next 4 4 BE _ _ 12), (ld_u_next 4 4 BE _ _ 8), (ld_u_next 4 4 BE _ _ 4),
        (ld_u_next 4 4 BE _ _ 0). by apply u32_stored.
Qed.

(** The structures are read back in their order. *)
Lemma archs_at_bytes b ts rs pre q :
  Forall (thin_fits b) ts -> length rs = length ts -> length pre = sizeof_fat_header ->
  archs_at BE b (pre ++ concat (zip_with (arch_bytes b) ts rs) ++ q) (length ts) =
    thin_fields <$> ts.
Proof.
  intros Hfit Hl Hpre. unfold archs_at. apply list_eq. intros i. rewrite !list_lookup_fmap.
  destruct (decide (i < length ts)%nat) as [Hi|Hi].
  - rewrite lookup_seq_lt by done. cbn [fmap option_fmap option_map Nat.add].
    destruct (lookup_lt_is_Some_2 ts i Hi) as [t Ht]. rewrite Ht. cbn. f_equal.
    destruct (lookup_lt_is_Some_2 rs i ltac:(lia)) as [r Hr].
    rewrite <- (take_drop_middle ts i t Ht), <- (take_drop_middle rs i r Hr).
    rewrite zip_with_app by (rewrite !length_take; lia). cbn [zip_with].
    rewrite concat_app. cbn [concat]. rewrite <- !app_assoc, (app_assoc pre).
    apply arch_at_bytes; [by eapply Forall_lookup_1|].
    rewrite length_app, length_structs, length_take by (rewrite !length_take; lia). lia.
  - rewrite lookup_seq_ge, (lookup_ge_None_2 ts) by lia. done.
Qed.

(** ** The offsets *)

(** Each slice is at the least multiple of its alignment behind [cur] and the
    slices before it. *)
Fixpoint laid_out (cur : Z) (l : list thin_file) : Prop :=
  match l with
  | [] => True
  | t :: l' =>
      cur <= thin_offset t < cur + 2 ^ thin_align t /\ (2 ^ thin_align t | thin_offset t) /\
      laid_out (thin_offset t + thin_size t) l'
  end.

(** An upper bound of what the slices take up. *)
Definition slices_room (l : list thin_file) : Z :=
  foldr (fun t room => thin_size t + 2 ^ MAXSECTALIGN + room) 0 l.

Definition align_ok (t : thin_file) : Prop := 0 <= thin_align t <= MAXSECTALIGN.

Lemma thin_size_nonneg t : 0 <= thin_size t.
Proof. unfold thin_size. lia. Qed.

Lemma slices_room_nonneg l : 0 <= slices_room l.
Proof.
  induction l as [|t l IH]; [done|]. cbn [slices_room foldr]. fold (slices_room l).
  pose proof (thin_size_nonneg t). change (2 ^ MAXSECTALIGN) with 32768. lia.
Qed.

Lemma slices_room_perm l l' : l ≡ₚ l' -> slices_room l = slices_room l'.
Proof. unfold slices_room. induction 1; simpl in *; lia. Qed.

Lemma slices_room_length l : Z.of_nat (length l) <= slices_room l.
Proof.
  induction l as [|t l IH]; [done|]. cbn [slices_room foldr length]. fold (slices_room l).
  pose proof (thin_size_nonneg t). change (2 ^ MAXSECTALIGN) with 32768. lia.
Qed.

Lemma align_pow t : align_ok t -> 0 < 2 ^ thin_align t <= 2 ^ MAXSECTALIGN.
Proof.
  intros [H1 H2]. split; [by apply Z.pow_pos_nonneg|apply Z.pow_le_mono_r; lia].
Qed.

Lemma rnd_aligned v k :
  0 <= k <= MAXSECTALIGN -> 0 <= v -> v + 2 ^ MAXSECTALIGN < 2 ^ 64 ->
  let r := rnd v (i32 (Z.shiftl 1 k)) in v <= r < v + 2 ^ k /\ (2 ^ k | r).
Proof.
  intros Hk Hv Hlt. cbv zeta.
  assert (Hp : 0 < 2 ^ k <= 2 ^ MAXSECTALIGN)
    by (split; [apply Z.pow_pos_nonneg; lia|apply Z.pow_le_mono_r; lia]).
  rewrite Z.shiftl_1_l. rewrite (sw_id 32)
    by (unfold in_sw; change (2 ^ MAXSECTALIGN) with 32768 in Hp; lia).
  assert (Hrnd : rnd v (2 ^ k) = (v + 2 ^ k - 1) / 2 ^ k * 2 ^ k).
  { assert (Hk' : 0 <= k < 64) by (unfold MAXSECTALIGN in Hk; lia).
    assert (Hv' : in_uw 64 v) by (unfold in_uw; lia).
    change (rnd v (2 ^ k)) with (rnd_w 64 v (2 ^ k)). rewrite (rnd_w_pow2 64 k v Hk' Hv').
    destruct (Z.ltb_spec (v + 2 ^ k - 1) (2 ^ 64)); [done|lia]. }
  rewrite Hrnd. split; [|by exists ((v + 2 ^ k - 1) / 2 ^ k)].
  pose proof (Z.div_mod (v + 2 ^ k - 1) (2 ^ k) ltac:(lia)).
  pose proof (Z.mod_pos_bound (v + 2 ^ k - 1) (2 ^ k) ltac:(lia)). lia.
Qed.

(** [lay_out] succeeds where there is room, and changes the offsets only. *)
Lemma lay_out_spec (b : bool) ts cur :
  Forall align_ok ts -> 0 <= cur -> cur + slices_room ts < 2 ^ (if b then 64 else 32) ->
  exists outs, lay_out b ts cur = Ret outs /\ laid_out cur outs /\
    Forall2 (fun t o : thin_file => o = set_thin_offset (thin_offset o) t) ts outs /\
    Forall (fun o : thin_file => 0 <= thin_offset o /\
                     thin_offset o + thin_size o <= cur + slices_room ts) outs.
Proof.
  intros Hal. revert cur. induction Hal as [|t ts Ht Hal IH]; intros cur Hcur Hroom.
  { by exists []. }
  cbn [slices_room foldr] in *. fold (slices_room ts) in *. cbn [lay_out].
  assert (Hw : 2 ^ (if b then 64 else 32) <= 2 ^ 64) by (destruct b; lia).
  pose proof (thin_size_nonneg t) as Hs. pose proof (slices_room_nonneg ts) as Hr.
  pose proof (align_pow t Ht) as Hp.
  destruct (rnd_aligned cur (thin_align t)) as [Hb Hd]; [done|lia..|].
  set (o := rnd cur _) in *.
  assert (Hfit : negb b && (0xffffffff <? o) = false).
  { destruct b; [done|]. apply Z.ltb_ge. simpl. lia. }
  rewrite Hfit. cbn [fatal_if mbind outcome_bind].
  rewrite uw_id by (unfold in_uw; lia).
  destruct (IH (o + thin_size t)) as (outs & -> & Hlay & Hf2 & Hend); [lia..|].
  eexists. split; [done|]. split; [|split].
  - cbn [laid_out]. by split; [|split].
  - by constructor.
  - constructor.
    + change (thin_offset (set_thin_offset o t)) with o.
      change (thin_size (set_thin_offset o t)) with (thin_size t). lia.
    + eapply Forall_impl; [done|]. simpl. intros t' [? ?]. lia.
Qed.

(** ** The slices *)

(** What follows the structures: zeros and the slices. *)
Fixpoint slices_from (cur : Z) (l : list thin_file) : list byte :=
  match l with
  | [] => []
  | t :: l' =>
      repeat x00 (Z.to_nat (thin_offset t - cur)) ++ thin_bytes t ++
      slices_from (thin_offset t + thin_size t) l'
  end.

Lemma write_at_behind file o bs :
  bs <> [] -> (length file <= o)%nat ->
  write_at file o bs = file ++ repeat x00 (o - length file) ++ bs.
Proof.
  intros Hbs Ho. unfold write_at. destruct bs as [|b bs]; [done|].
  rewrite take_ge by (rewrite length_app, repeat_length; lia).
  rewrite (drop_ge file), app_nil_r, <- app_assoc by (simpl; lia). done.
Qed.

Lemma write_slices_eq file l :
  Forall (fun t => thin_bytes t <> []) l -> laid_out (Z.of_nat (length file)) l ->
  write_slices file l = file ++ slices_from (Z.of_nat (length file)) l.
Proof.
  intros Hne. revert file. induction Hne as [|t l Ht Hne IH]; intros file Hl.
  { by rewrite app_nil_r. }
  destruct Hl as ([Ho _] & _ & Hl). cbn [write_slices fold_left slices_from].
  change (write_slices (write_at file (Z.to_nat (thin_offset t)) (thin_bytes t)) l =
    file ++ repeat x00 (Z.to_nat (thin_offset t - Z.of_nat (length file))) ++
    thin_bytes t ++ slices_from (thin_offset t + thin_size t) l).
  rewrite write_at_behind by (done || lia).
  replace (Z.to_nat (thin_offset t) - length file)%nat
    with (Z.to_nat (thin_offset t - Z.of_nat (length file))) by lia.
  set (file' := file ++ _ ++ _).
  assert (Hlen : Z.of_nat (length file') = thin_offset t + thin_size t).
  { unfold file', thin_size. rewrite !length_app, repeat_length. lia. }
  rewrite <- Hlen in Hl |- *. rewrite (IH file' Hl). unfold file'. by rewrite <- !app_assoc.
Qed.

(** The slices are where their offsets say. *)
Lemma slices_from_spec pre cur l :
  Z.of_nat (length pre) = cur -> laid_out cur l ->
  Forall (fun t => thin_offset t + thin_size t <= Z.of_nat (length (pre ++ slices_from cur l)) /\
    take (length (thin_bytes t)) (drop (Z.to_nat (thin_offset t)) (pre ++ slices_from cur l)) =
      thin_bytes t) l.
Proof.
  revert pre cur. induction l as [|t l IH]; intros pre cur Hpre Hl; [constructor|].
  destruct Hl as ([Ho _] & _ & Hl). cbn [slices_from].
  set (gap := repeat x00 (Z.to_nat (thin_offset t - cur))).
  assert (Hgap : Z.of_nat (length (pre ++ gap)) = thin_offset t).
  { unfold gap. rewrite length_app, repeat_length. lia. }
  constructor.
  - rewrite app_assoc. split.
    + rewrite !length_app in *. unfold thin_size. lia.
    + rewrite drop_app_length' by lia. apply take_app_length.
  - replace (pre ++ gap ++ thin_bytes t ++ slices_from (thin_offset t + thin_size t) l)
      with ((pre ++ gap ++ thin_bytes t) ++ slices_from (thin_offset t + thin_size t) l)
      by by rewrite <- !app_assoc.
    apply IH; [|done]. rewrite app_assoc, length_app. unfold thin_size. lia.
Qed.

Lemma slices_from_end cur l bound :
  cur <= bound -> laid_out cur l ->
  Forall (fun t => thin_offset t + thin_size t <= bound) l ->
  cur + Z.of_nat (length (slices_from cur l)) <= bound.
Proof.
  revert cur. induction l as [|t l IH]; intros cur Hb Hl Hend; [simpl; lia|].
  destruct Hl as ([Ho _] & _ & Hl). apply Forall_cons in Hend as [Ht Hend]. cbn [slices_from].
  specialize (IH _ Ht Hl Hend). rewrite !length_app, repeat_length. unfold thin_size in *. lia.
Qed.
