(* ===== verification/LipoSpec.v ===== *)
(** * What lipo writes is what it reads

    A fat file [create_fat] makes is accepted by [ofile_map_from_memory] on
    hosts of either byte sex, and [process_input_file] breaks it down into the
    thin files it was made of. *)

From Stdlib Require Import ZArith Lia Bool.
From Stdlib Require Import Init.Byte.
From stdpp Require Import base option numbers list.
From S2P Require Import Prelude CInt CpuTypes ByteSex HeaderSwap InPlace InPlaceSpec.
From S2P Require Import Rounding LoaderH Fat FatSpec Lipo LipoLayout.

(** ** Pairs of the same architecture *)

Lemma has_twins_spec {A} (ct st : A -> Z) (l : list A) :
  has_twins ct st l = false <-> NoDup ((fun a => (ct a, msub (st a))) <$> l).
Proof.
  induction l as [|a l IH]; cbn [has_twins]; [split; [intros _; apply NoDup_nil_2|done]|].
  rewrite orb_false_iff, IH, fmap_cons, NoDup_cons. apply and_iff_compat_r.
  rewrite list_elem_of_fmap. split.
  - intros He (b & Hb & Hin). apply not_true_iff_false in He. apply He, existsb_exists.
    exists b. split; [by apply list_elem_of_In|by apply same_arch_spec].
  - intros Hn. apply not_true_iff_false. intros (b & Hin & Hb)%existsb_exists. apply Hn.
    exists b. split; [by apply same_arch_spec|by apply list_elem_of_In].
Qed.

(** ** Reading a well-formed fat file *)

(** A thin file as it is read: neither extracted nor removed. *)
Definition unmarked (t : thin_file) : thin_file :=
  {| thin_bytes := thin_bytes t; thin_cputype := thin_cputype t;
     thin_cpusubtype := thin_cpusubtype t; thin_offset := thin_offset t;
     thin_align := thin_align t; thin_extract := false; thin_remove := false |}.

Definition thin_key (t : thin_file) : Z * Z := (thin_cputype t, msub (thin_cpusubtype t)).

(** The thin file lies in the file. *)
Definition slice_of (m : list byte) (t : thin_file) : Prop :=
  0 <= thin_offset t /\ thin_offset t + thin_size t <= Z.of_nat (length m) /\
  take (length (thin_bytes t)) (drop (Z.to_nat (thin_offset t)) m) = thin_bytes t.

Lemma slice_thins_spec m l :
  Forall (slice_of m) l -> slice_thins m (thin_fields <$> l) = Ret (unmarked <$> l).
Proof.
  induction 1 as [|t l (Ho & Hend & Hb) _ IH]; [done|]. cbn [fmap list_fmap slice_thins].
  unfold slice_thin. cbn [thin_fields af_offset af_size af_type af_subtype af_align].
  rewrite (proj2 (Z.ltb_ge _ _)) by done. cbn [mbind outcome_bind]. fold (thin_fields <$> l).
  rewrite IH. cbn [mbind outcome_bind]. unfold thin_size. rewrite Nat2Z.id, Hb. done.
Qed.

Lemma check_slices_spec b size l :
  Forall (fun t => thin_fits b t /\ arch_good size (thin_fields t)) l ->
  size < 2 ^ (if b then 64 else 32) ->
  check_slices b size (thin_fields <$> l) = Ret tt.
Proof.
  intros Hl Hsize. induction Hl as [|t l [Hfit [Hi Ha Hd]] _ IH]; [done|].
  cbn [fmap list_fmap check_slices]. fold (thin_fields <$> l). rewrite IH.
  destruct Hfit as [_ _ Ho Hs Hal].
  cbn [thin_fields af_offset af_size af_align] in *.
  assert (He : slice_end b (thin_fields t) = thin_offset t + thin_size t).
  { unfold slice_end. cbn [thin_fields af_offset af_size].
    destruct b; apply uw_id; unfold in_uw in *; lia. }
  rewrite He, (proj2 (Z.ltb_ge _ _)), (proj2 (Z.ltb_ge _ _)) by lia.
  assert (Hp : 2 ^ thin_align t <> 0) by (pose proof (align_pow t Hal); lia).
  by rewrite (proj2 (Z.mod_divide _ _ Hp) Hd).
Qed.

(** ** Hidden architectures *)

Lemma lowest_offset_le h m n i first :
  lowest_offset h m n i first <= first.
Proof.
  revert i first. induction n as [|n IH]; intros i first; cbn [lowest_offset]; [lia|].
  etransitivity; [apply IH|]. destruct (Z.ltb_spec (fat_arch_offset
    (ld_fat_arch h m (sizeof_fat_header + i * sizeof_fat_arch))) first); lia.
Qed.

(** On a big-endian host the offset of the first structure is looked at. *)
Lemma lowest_offset_first m n first :
  lowest_offset BE m (S n) 0 first <= af_offset (arch_at BE false m 0).
Proof.
  cbn [lowest_offset]. etransitivity; [apply lowest_offset_le|].
  unfold arch_at, fields_32. cbn [af_offset]. cbn [Nat.mul].
  set (o := fat_arch_offset _). destruct (Z.ltb_spec o first); lia.
Qed.

Lemma ld_type_behind h m1 m o :
  (forall i, (sizeof_fat_header <= i)%nat -> m1 !! i = m !! i) -> (sizeof_fat_header <= o)%nat ->
  match h with LE => i32 (SWAP_INT (ld_i32 h m1 o)) | BE => ld_i32 h m1 o end =
    i32 (ld_u32 BE m o).
Proof.
  intros He Ho. assert (Hl : forall h, ld_u32 h m1 o = ld_u32 h m o)
    by (intros; apply ld_u_ext; intros; apply He; lia).
  unfold ld_i32. rewrite Hl. destruct h; [|done].
  change BE with (other LE). rewrite <- (byte_reverse_ld 4 LE m o), <- SWAP_INT_reverse.
  f_equal. rewrite !SWAP_INT_reverse. apply (byte_reverse_sw 32); [done|lia].
Qed.

(** No architecture is hidden where another word follows the structures. *)
Lemma hidden_arch_word h m1 m n :
  (forall i, (sizeof_fat_header <= i)%nat -> m1 !! i = m !! i) ->
  i32 (ld_u32 BE m (archs_end false n)) <> CPU_TYPE_ARM64 -> hidden_arch h m1 n = false.
Proof.
  intros He Hw. unfold hidden_arch. destruct (_ && _); [|done]. apply Z.eqb_neq.
  cbn [ld_fat_arch fat_arch_cputype]. rewrite Nat.add_0_r.
  rewrite (ld_type_behind h m1 m); [done|done|lia].
Qed.

(** Nor, on a big-endian host, where the structures are followed by zeros up
    to the first slice. *)
Lemma hidden_arch_gap m n cur t l pre :
  archs_at BE false m n = thin_fields <$> t :: l ->
  length pre = archs_end false n -> cur = Z.of_nat (length pre) ->
  m = pre ++ slices_from cur (t :: l) ->
  hidden_arch BE m n = false.
Proof.
  intros Ha Hpre -> Hm. unfold hidden_arch.
  destruct n as [|n]; [done|].
  assert (Hfirst : lowest_offset BE m (S n) 0 0xffffffff <= thin_offset t).
  { rewrite lowest_offset_first. apply (f_equal head) in Ha.
    change (Some (arch_at BE false m 0) = Some (thin_fields t)) in Ha.
    apply (inj Some) in Ha. by rewrite Ha. }
  destruct (Z.leb_spec (Z.of_nat (sizeof_fat_header + S n * sizeof_fat_arch) +
    Z.of_nat sizeof_fat_arch) (lowest_offset BE m (S n) 0 0xffffffff)) as [Hle|Hle];
    [|by rewrite andb_false_r].
  destruct (_ && _); [|done]. apply Z.eqb_neq.
  cbn [ld_fat_arch fat_arch_cputype]. rewrite Nat.add_0_r.
  change (ld_i32 BE m (archs_end false (S n)) <> CPU_TYPE_ARM64). unfold ld_i32.
  assert (Hz : ld_u32 BE m (archs_end false (S n)) = 0); [|by rewrite Hz].
  pose proof (ld_u_skip 4 BE pre (slices_from (Z.of_nat (length pre)) (t :: l)) 0) as Hs.
  rewrite Nat.add_0_r in Hs. rewrite Hm, <- Hpre, Hs. cbn [slices_from].
  change (Z.of_nat sizeof_fat_arch) with 20 in Hle.
  assert (Hk : exists k, Z.to_nat (thin_offset t - Z.of_nat (length pre)) = (4 + k)%nat).
  { exists (Z.to_nat (thin_offset t - Z.of_nat (length pre)) - 4)%nat. unfold archs_end in Hpre.
    change (sizeof_arch false) with sizeof_fat_arch in Hpre. lia. }
  by destruct Hk as [k ->].
Qed.

(** ** The file create_fat makes *)

(** A thin file [create_fat] can put into a fat file. *)
Record thin_ok (t : thin_file) : Prop := {
  ok_cputype : in_sw 32 (thin_cputype t);
  ok_cpusubtype : in_sw 32 (thin_cpusubtype t);
  ok_align : align_ok t;
  ok_bytes : thin_bytes t <> [];
}.

Definition fat_room (b : bool) (l : list thin_file) : Z :=
  Z.of_nat (archs_end b (length l)) + slices_room l.

(** The file: the structures, and the slices behind them. *)
Definition fat_bytes (b : bool) (rs : list Z) (l : list thin_file) : list byte :=
  let header := st_fat_header BE {| fat_header_magic := if b then FAT_MAGIC_64 else FAT_MAGIC;
                                    fat_header_nfat_arch := Z.of_nat (length l) |} ++
                concat (zip_with (arch_bytes b) l rs) in
  header ++ slices_from (Z.of_nat (archs_end b (length l))) l.

Section create.
Context (h : host) (qsort : list thin_file -> list thin_file) (reserved : Z).
Context (Hqsort : forall l, qsort l ≡ₚ l).

Lemma create_fat_bytes (b : bool) thins :
  thins <> [] -> Forall thin_ok thins -> fat_room b thins < 2 ^ (if b then 64 else 32) ->
  Z.of_nat (length thins) < 2 ^ 32 ->
  exists outs rs,
    create_fat h qsort reserved b false false [] thins = Ret (outs, fat_bytes b rs outs) /\
    Forall2 (fun t o : thin_file => o = set_thin_offset (thin_offset o) t) (qsort thins) outs /\
    length rs = length outs /\ laid_out (Z.of_nat (archs_end b (length outs))) outs /\
    Forall (fun t : thin_file =>
              0 <= thin_offset t /\ thin_offset t + thin_size t <= fat_room b thins) outs.
Proof.
  intros Hne Hok Hroom Hn. pose proof (Hqsort thins) as Hperm.
  pose proof (Permutation_length Hperm) as Hlen.
  set (cur := Z.of_nat (archs_end b (length thins))).
  assert (Hal : Forall align_ok (qsort thins)).
  { rewrite Hperm. eapply Forall_impl; [done|]. by intros t []. }
  destruct (lay_out_spec b (qsort thins) cur) as (outs & Hlay & Hlo & Hf2 & Hend);
    [done|lia|by rewrite (slices_room_perm _ _ Hperm)|].
  pose proof (Forall2_length _ _ _ Hf2) as Hlo2.
  destruct (write_archs_eq h b outs reserved) as (rs & Hrs & Hwrite).
  exists outs, rs. rewrite (slices_room_perm _ _ Hperm) in Hend.
  split; [|split_and!; [done|done|by rewrite <- Hlo2, Hlen|done]].
  unfold create_fat. cbn [has_twins fatal_if mbind outcome_bind fold_segaligns count_archs].
  cbv zeta. cbn [orb negb]. rewrite Hlen.
  replace (u64 (Z.of_nat sizeof_fat_header + Z.of_nat (length thins) * Z.of_nat (sizeof_arch b)))
    with cur.
  2:{ unfold cur, archs_end. rewrite Nat2Z.inj_add, Nat2Z.inj_mul. symmetry. apply (uw_id 64).
      pose proof (slices_room_nonneg thins). unfold fat_room, archs_end in Hroom.
      unfold in_uw. destruct b; lia. }
  rewrite Hlay. cbn [mbind outcome_bind]. do 2 f_equal.
  rewrite st_fat_header_be, Hwrite, (uw_id 32) by (unfold in_uw; lia).
  unfold fat_bytes. rewrite <- Hlo2, Hlen. fold cur.
  assert (Hhead : Z.of_nat (length (st_fat_header BE
    {| fat_header_magic := if b then FAT_MAGIC_64 else FAT_MAGIC;
       fat_header_nfat_arch := Z.of_nat (length thins) |} ++
    concat (zip_with (arch_bytes b) outs rs))) = cur).
  { rewrite length_app, length_structs, <- Hlo2, Hlen by done. done. }
  rewrite write_slices_eq, Hhead; [done| |by rewrite Hhead].
  eapply Forall2_Forall_r; [done|].
  rewrite Hperm. eapply Forall_impl; [done|]. intros t [_ _ _ Hb] o ->. exact Hb.
Qed.
End create.

(** ** Reading it *)

(** What [create_fat_bytes] says of the thin files and the numbers between
    the structures. *)
Record created (b : bool) (rs : list Z) (outs : list thin_file) : Prop := {
  created_some : outs <> [];
  created_fits : Forall (thin_fits b) outs;
  created_key : NoDup (thin_key <$> outs);
  created_count : Z.of_nat (length outs) < 2 ^ 32;
  created_reserved : length rs = length outs;
  created_laid_out : laid_out (Z.of_nat (archs_end b (length outs))) outs;
  created_size : Z.of_nat (length (fat_bytes b rs outs)) < 2 ^ (if b then 64 else 32);
}.

Lemma fat_header_fields (b : bool) n q :
  in_uw 32 n ->
  let m := st_fat_header BE {| fat_header_magic := if b then FAT_MAGIC_64 else FAT_MAGIC;
                               fat_header_nfat_arch := n |} ++ q in
  ld_u32 BE m 0 = (if b then FAT_MAGIC_64 else FAT_MAGIC) /\ ld_u32 BE m 4 = n.
Proof.
  intros Hn. unfold st_fat_header. cbn [fat_header_magic fat_header_nfat_arch]. cbv zeta.
  rewrite fmap_app, <- app_assoc. split.
  - apply u32_stored. by destruct b; split; vm_compute.
  - rewrite (ld_u_next 4 4 BE _ _ 0). by apply u32_stored.
Qed.

Section reading.
Context (b : bool) (rs : list Z) (outs : list thin_file) (Hc : created b rs outs).
Abbreviation file := (fat_bytes b rs outs).

Lemma created_header :
  fat_magic64 file = b /\ fat_count file = length outs /\ is_fat_magic BE (ld_u32 BE file 0) = true.
Proof.
  destruct (fat_header_fields b (Z.of_nat (length outs))
    (concat (zip_with (arch_bytes b) outs rs) ++
     slices_from (Z.of_nat (archs_end b (length outs))) outs)) as [Hm Hn].
  { pose proof (created_count _ _ _ Hc). unfold in_uw. lia. }
  unfold fat_magic64, fat_count, fat_bytes. rewrite <- app_assoc, Hm, Hn, Nat2Z.id.
  by destruct b.
Qed.

Lemma created_archs : fat_archs_of file = thin_fields <$> outs.
Proof.
  destruct created_header as (Hm & Hn & _). unfold fat_archs_of. rewrite Hm, Hn.
  unfold fat_bytes. rewrite <- app_assoc.
  by apply archs_at_bytes; [apply (created_fits _ _ _ Hc)|apply (created_reserved _ _ _ Hc)|].
Qed.

Lemma created_structures : exists pre,
  length pre = archs_end b (length outs) /\
  file = pre ++ slices_from (Z.of_nat (length pre)) outs.
Proof.
  unfold fat_bytes. set (pre := st_fat_header _ _ ++ _).
  assert (Hpre : length pre = archs_end b (length outs)).
  { unfold pre. rewrite length_app, length_structs by apply (created_reserved _ _ _ Hc). done. }
  exists pre. by rewrite Hpre.
Qed.

Lemma created_slices m' :
  length m' = length file ->
  (forall i, (archs_end b (length outs) <= i)%nat -> m' !! i = file !! i) ->
  Forall (slice_of m') outs.
Proof.
  intros Hl He. destruct created_structures as (pre & Hpre & Hfile).
  pose proof (created_laid_out _ _ _ Hc) as Hlo. rewrite <- Hpre in Hlo.
  pose proof (slices_from_spec pre _ outs eq_refl Hlo) as Hs. rewrite <- Hfile in Hs.
  assert (Hcur : Forall (fun t => Z.of_nat (archs_end b (length outs)) <= thin_offset t) outs).
  { rewrite <- Hpre. revert Hlo. generalize (Z.of_nat (length pre)). clear.
    induction outs as [|t l IH]; intros cur; [constructor|]. intros ([Ho _] & _ & Hlo).
    constructor; [done|]. apply IH in Hlo. eapply Forall_impl; [done|]. simpl. intros t' Ht'.
    pose proof (thin_size_nonneg t). lia. }
  eapply Forall_impl; [apply Forall_and; split; [exact Hs|exact Hcur]|].
  intros t ([Hend Hb] & Ho). split; [lia|]. split; [by rewrite Hl|]. rewrite <- Hb at 2.
  f_equal. apply list_eq. intros i. rewrite !lookup_drop. apply He. lia.
Qed.

Lemma created_good : Forall (arch_good (Z.of_nat (length file))) (thin_fields <$> outs).
Proof.
  pose proof (created_slices file eq_refl (fun i _ => eq_refl)) as Hs.
  apply Forall_fmap. pose proof (created_fits _ _ _ Hc) as Hfit.
  pose proof (created_laid_out _ _ _ Hc) as Hlo. clear Hc.
  revert Hs Hfit Hlo. generalize file (Z.of_nat (archs_end b (length outs))). intros m.
  induction outs as [|t l IH]; intros cur Hs Hfit Hlo; [constructor|].
  apply Forall_cons in Hs as [(_ & Hend & _) Hs]. apply Forall_cons in Hfit as [Hf Hfit].
  destruct Hlo as (_ & Hd & Hlo). constructor; [|by apply (IH _ Hs Hfit Hlo)].
  split; [done|apply (fits_align _ _ Hf)|done].
Qed.

Lemma created_fields_ok : Forall fields_ok (thin_fields <$> outs).
Proof.
  pose proof created_good as Hgood. pose proof (created_size _ _ _ Hc) as Hsize.
  rewrite Forall_fmap in Hgood. apply Forall_fmap. apply Forall_forall. intros t Ht.
  destruct (proj1 (Forall_forall _ _) Hgood t Ht) as [Hi _ _].
  destruct (proj1 (Forall_forall _ _) (created_fits _ _ _ Hc) t Ht) as [_ _ Ho Hs Hal].
  change (fields_ok (thin_fields t)). unfold fields_ok.
  cbn [thin_fields af_offset af_size af_align] in *.
  unfold in_uw in *. destruct b; lia.
Qed.

Lemma created_keys : NoDup (arch_key <$> (thin_fields <$> outs)).
Proof. rewrite <- list_fmap_compose. apply (created_key _ _ _ Hc). Qed.

Lemma created_enough :
  (sizeof_fat_header <= length file)%nat /\ (archs_end b (length outs) <= length file)%nat.
Proof.
  destruct created_structures as (pre & Hpre & Hf). rewrite Hf, length_app, Hpre.
  unfold archs_end. lia.
Qed.

Lemma created_map h : exists m', map_fat h file = Some (Fat_good m' b (thin_fields <$> outs)).
Proof.
  destruct created_header as (Hm & Hn & Hmagic). destruct created_enough as [Hlen Hend].
  destruct (map_fat_eq h file) as (m' & _ & _ & ->); [done|done|by rewrite Hm, Hn|].
  rewrite Hm, created_archs. exists m'.
  rewrite (proj2 (check_fat_None _ _ created_fields_ok)); [done|].
  split; [|split; [apply created_good|apply created_keys]].
  pose proof (created_some _ _ _ Hc). by destruct outs.
Qed.

(** No hidden architecture is looked for, or none is found. *)
Definition none_hidden (h : host) (m : mem) : Prop :=
  b = true \/ h = BE \/ i32 (ld_u32 BE m (archs_end false (length outs))) <> CPU_TYPE_ARM64.

Lemma created_hidden h m1 :
  none_hidden h file -> (h = BE -> m1 = file) ->
  (forall i, (sizeof_fat_header <= i)%nat -> m1 !! i = file !! i) ->
  negb b && hidden_arch h m1 (length outs) = false.
Proof.
  intros Hnone Hbe He. destruct (bool_dec b true) as [Hb|Hb%not_true_is_false]; [by rewrite Hb|].
  rewrite Hb. cbn [negb andb].
  destruct Hnone as [?|[->|Hw]]; [congruence| |by apply (hidden_arch_word _ _ _ _ He)].
  rewrite Hbe by done. destruct created_structures as (pre & Hpre & Hf).
  pose proof created_archs as Ha. destruct created_header as (Hm & Hn & _).
  unfold fat_archs_of in Ha. rewrite Hm, Hn in Ha.
  pose proof (created_some _ _ _ Hc) as Hne. clear Hc Hm Hn Hbe He. subst b.
  destruct outs as [|t l]; [done|]. by apply (hidden_arch_gap _ _ _ t l pre Ha Hpre eq_refl Hf).
Qed.

Lemma created_process h :
  none_hidden h file -> process_fat h file = Some (Ret (unmarked <$> outs)).
Proof.
  intros Hnone. destruct created_header as (Hm & Hn & Hmagic).
  destruct created_enough as [Hlen Hend].
  unfold process_fat. rewrite (proj2 (Nat.leb_le _ _) Hlen), is_fat_magic_be, Hmagic. cbn [andb].
  destruct (swap_header_spec h file Hlen) as (m1 & Hs1 & Hl1 & Hh & Hb1). rewrite Hs1.
  cbn [or_stop mbind outcome_bind]. rewrite Hh.
  cbn [ld_fat_header fat_header_magic fat_header_nfat_arch Nat.add].
  fold (fat_magic64 file). rewrite Hm, big_size_eq by apply ld_u32_range.
  fold (fat_count file). rewrite Hn, Hl1, (proj2 (Z.ltb_ge _ _)) by lia.
  cbn [fatal_if mbind outcome_bind].
  rewrite (created_hidden h m1 Hnone); [| |done].
  2:{ intros ->. by injection Hs1. }
  fold (fat_count file). rewrite Hn.
  destruct (swap_archs_spec h b (length outs) m1) as (m2 & -> & Hl2 & Ha & Hb2);
    [by rewrite Hl1|]. cbn [or_stop mbind outcome_bind].
  rewrite Ha, (archs_at_ext _ file m1) by done.
  pose proof created_archs as Hra. unfold fat_archs_of in Hra. rewrite Hm, Hn in Hra. rewrite Hra.
  rewrite check_slices_spec; [|apply Forall_and; split;
    [apply (created_fits _ _ _ Hc)|apply Forall_fmap, created_good]|apply (created_size _ _ _ Hc)].
  cbn [mbind outcome_bind].
  rewrite (proj2 (has_twins_spec _ _ _) created_keys). cbn [fatal_if mbind outcome_bind].
  rewrite slice_thins_spec; [done|]. apply created_slices; [congruence|].
  intros i Hi. unfold archs_end in Hi. rewrite Hb2 by done. apply Hb1. lia.
Qed.
End reading.

(** ** The round trip *)

Lemma Forall2_same_keys ts outs :
  Forall2 (fun t o : thin_file => o = set_thin_offset (thin_offset o) t) ts outs ->
  thin_key <$> outs = thin_key <$> ts.
Proof.
  induction 1 as [|t o ts outs Ho _ IH]; [done|]. cbn [fmap list_fmap]. f_equal; [by rewrite Ho|done].
Qed.

(** The numbers of the thin files that were laid out fit in the fields. *)
Lemma created_thins_fit (b : bool) thins outs ts :
  Forall thin_ok ts -> fat_room b thins < 2 ^ (if b then 64 else 32) ->
  Forall2 (fun t o : thin_file => o = set_thin_offset (thin_offset o) t) ts outs ->
  Forall (fun t : thin_file =>
            0 <= thin_offset t /\ thin_offset t + thin_size t <= fat_room b thins) outs ->
  Forall (thin_fits b) outs.
Proof.
  intros Hok Hroom Hf2 Hend. revert Hend.
  induction Hf2 as [|t o ts outs Ho Hf2 IH]; intros Hend; [constructor|].
  apply Forall_cons in Hok as [[Hct Hst Hal _] Hok]. apply Forall_cons in Hend as [[H0 He] Hend].
  pose proof (thin_size_nonneg o).
  constructor; [|by apply IH]. split; [by rewrite Ho|by rewrite Ho| | |by rewrite Ho];
    unfold in_uw; destruct b; lia.
Qed.

Lemma create_fat_created h qsort reserved (b : bool) thins :
  (forall l, qsort l ≡ₚ l) ->
  thins <> [] -> Forall thin_ok thins -> NoDup (thin_key <$> thins) ->
  Z.of_nat (length thins) < 2 ^ 32 -> fat_room b thins < 2 ^ (if b then 64 else 32) ->
  exists outs rs,
    create_fat h qsort reserved b false false [] thins = Ret (outs, fat_bytes b rs outs) /\
    Forall2 (fun t o : thin_file => o = set_thin_offset (thin_offset o) t) (qsort thins) outs /\
    created b rs outs.
Proof.
  intros Hqsort Hne Hok Hkey Hn Hroom. pose proof (Hqsort thins) as Hperm.
  pose proof (slices_room_nonneg thins) as Hnonneg.
  destruct (create_fat_bytes h qsort reserved Hqsort b thins)
    as (outs & rs & Hcreate & Hf2 & Hrs & Hlo & Hend); [done..|].
  exists outs, rs. split; [done|]. split; [done|].
  pose proof (Forall2_length _ _ _ Hf2) as Hlen. rewrite (Permutation_length Hperm) in Hlen.
  assert (Hcur : Z.of_nat (archs_end b (length outs)) <= fat_room b thins)
    by (unfold fat_room; rewrite Hlen; lia).
  split; [|apply (created_thins_fit b thins outs (qsort thins)); [by rewrite Hperm|done..]| |by rewrite <- Hlen|done|done|].
  - intros ->. by destruct thins.
  - rewrite (Forall2_same_keys _ _ Hf2). by rewrite Hperm.
  - eapply Z.le_lt_trans; [|exact Hroom]. unfold fat_bytes. rewrite !length_app, length_structs by done.
    rewrite Nat2Z.inj_add.
    apply slices_from_end; [done|done|]. eapply Forall_impl; [done|]. by intros t [].
Qed.

(** C9: Whatever order the sort leaves them in, thin files of distinct architectures that there is
    room for are written into a fat file whose slices follow each other at the least multiples of
    their alignments; hosts of either byte sex accept it and read the architectures that were
    written, and breaking it down gives the thin files back, on a big-endian host always, on a
    little-endian one unless the word behind the structures is that of an ARM64 cputype. *)
Theorem fat_file_roundtrip h h' qsort reserved (b : bool) thins :
  (forall l, qsort l ≡ₚ l) ->
  thins <> [] -> Forall thin_ok thins -> NoDup (thin_key <$> thins) ->
  Z.of_nat (length thins) < 2 ^ 32 -> fat_room b thins < 2 ^ (if b then 64 else 32) ->
  exists outs file m',
    create_fat h qsort reserved b false false [] thins = Ret (outs, file) /\
    Forall2 (fun t o : thin_file => o = set_thin_offset (thin_offset o) t) (qsort thins) outs /\
    laid_out (Z.of_nat (archs_end b (length outs))) outs /\
    map_fat h' file = Some (Fat_good m' b (thin_fields <$> outs)) /\
    (none_hidden b outs h' file -> process_fat h' file = Some (Ret (unmarked <$> outs))).
Proof.
  intros Hqsort Hne Hok Hkey Hn Hroom.
  destruct (create_fat_created h qsort reserved b thins) as (outs & rs & Hcreate & Hf2 & Hc);
    [done..|].
  destruct (created_map b rs outs Hc h') as [m' Hmap].
  exists outs, (fat_bytes b rs outs), m'. split; [done|]. split; [done|].
  split; [apply (created_laid_out _ _ _ Hc)|]. split; [done|]. by apply created_process.
Qed.

Definition sample_thin (ct st align : Z) (bs : list byte) : thin_file :=
  {| thin_bytes := bs; thin_cputype := ct; thin_cpusubtype := st; thin_offset := 0;
     thin_align := align; thin_extract := false; thin_remove := false |}.

Definition sample_thins : list thin_file :=
  [sample_thin CPU_TYPE_X86_64 3 3 [x01; x02; x03]; sample_thin CPU_TYPE_ARM64 0 4 [x04]].

Lemma fat_file_roundtrip_witness :
  Forall thin_ok sample_thins /\
  exists outs file m',
    create_fat LE reverse 0 false false false [] sample_thins = Ret (outs, file) /\
    Forall2 (fun t o : thin_file => o = set_thin_offset (thin_offset o) t)
      (reverse sample_thins) outs /\
    laid_out (Z.of_nat (archs_end false (length outs))) outs /\
    map_fat BE file = Some (Fat_good m' false (thin_fields <$> outs)) /\
    (none_hidden false outs BE file -> process_fat BE file = Some (Ret (unmarked <$> outs))).
Proof.
  assert (Hok : Forall thin_ok sample_thins).
  { repeat constructor; by vm_compute. }
  split; [exact Hok|].
  apply (fat_file_roundtrip LE BE reverse 0 false sample_thins).
  - intros l. apply reverse_Permutation.
  - discriminate.
  - exact Hok.
  - apply (bool_decide_unpack (NoDup (thin_key <$> sample_thins))). vm_compute. exact I.
  - reflexivity.
  - reflexivity.
Defined.

(** ** What goes wrong *)

(** On a little-endian host the bytes of a slice are taken for a hidden
    architecture, where a big-endian one reads what was written. *)
Definition sample_arm64_word : list thin_file :=
  [sample_thin CPU_TYPE_I386 3 0
     ([x01; x00; x00; x0c; x00; x00; x00; x00; x00; x00; x00; x00] ++ repeat x00 8)].

Lemma slice_taken_for_hidden :
  exists outs file,
    create_fat LE id 0 false false false [] sample_arm64_word = Ret (outs, file) /\
    process_fat BE file = Some (Ret outs) /\
    length <$> process_fat LE file ≫= (fun r => match r with Ret l => Some l | Stop _ => None end) =
      Some 2%nat.
Proof. eexists _, _. split; [vm_compute; reflexivity|]. split; vm_compute; reflexivity. Qed.

(** The hidden architecture of a file whose slices begin at 2^28 is found on
    a big-endian host and missed on a little-endian one. *)
Definition sample_hidden : list byte :=
  st_fat_header BE {| fat_header_magic := FAT_MAGIC; fat_header_nfat_arch := 1 |} ++
  (thin ← [sample_thin CPU_TYPE_ARM 0 14 []; sample_thin CPU_TYPE_ARM64 0 14 []];
   arch_bytes false (set_thin_offset (2 ^ 28) thin) 0).

Lemma hidden_arch_missed :
  hidden_arch BE sample_hidden 1 = true /\ hidden_arch LE sample_hidden 1 = false.
Proof. by vm_compute. Qed.

(** The end of a slice wraps around at 32 bits: [lipo] accepts it, where
    [check_fat] does not. *)
Definition sample_wrapped : arch_fields :=
  {| af_type := CPU_TYPE_I386; af_subtype := 3; af_offset := 2 ^ 32 - 16; af_size := 32;
     af_align := 4 |}.

Lemma slice_end_wraps :
  check_slices false 100 [sample_wrapped] = Ret tt /\
  check_arch_fields 100 0 sample_wrapped = Some (Past_end_of_file 0).
Proof. by vm_compute. Qed.

(** Nor do 64 bits stop it from wrapping around. *)
Lemma slice_end_wraps_64 :
  let a := {| af_type := CPU_TYPE_I386; af_subtype := 3; af_offset := 2 ^ 64 - 16; af_size := 32;
              af_align := 4 |} in
  check_slices true 100 [a] = Ret tt /\ check_fat 100 [a] = None.
Proof. by vm_compute. Qed.

(** The comparison function is not transitive: three thin files of two
    cputypes are before each other in turn. *)
Lemma cmp_qsort_cycle :
  let a := sample_thin CPU_TYPE_I386 3 5 [] in
  let b := sample_thin CPU_TYPE_I386 4 1 [] in
  let c := sample_thin CPU_TYPE_POWERPC 0 3 [] in
  cmp_qsort a b < 0 /\ cmp_qsort b c < 0 /\ cmp_qsort c a < 0.
Proof. by vm_compute. Qed.

(** A 64-bit file in the other byte sex: its filetype is not swapped. *)
Lemma get_mh_filetype_swapped_64 :
  let header h := byte_of <$> mem_bytes h 4 MH_MAGIC_64 ++ repeat 0 8 ++ mem_bytes h 4 MH_EXECUTE ++
                              repeat 0 16 in
  get_mh_filetype LE (header LE) = MH_EXECUTE /\ get_mh_filetype LE (header BE) <> MH_EXECUTE.
Proof. split; [by vm_compute|by vm_compute]. Qed.

(** An empty thin file behind the others makes a fat file that ends before
    its slice begins. *)
Lemma empty_slice_rejected :
  match create_fat LE id 0 false false false [] [sample_thin CPU_TYPE_I386 3 12 []] with
  | Ret (_, file) => map_fat LE file = Some (Fat_bad (Past_end_of_file 0))
  | Stop _ => False
  end.
Proof. vm_compute. reflexivity. Qed.
