(* ===== verification/CheckMachO.v ===== *)
(** * libstuff/ofile.c: check_Mach_O

    Checks the header and the load commands of an object file, so that they
    can be parsed and no field with an offset and a size points past the end
    of the file, and swaps them where they lie when the file is in the other
    byte sex.  The parts of the file that load commands point to are recorded,
    and may not overlap.

    The memory is the object file.  The pointers to load commands that are
    looked at again ([st], [dyst], [rc], [vers], ...) are the structures they
    point to, which are not changed any more; [vers] is its [cmd].  The names in the messages are
    left out, and of those that do not end the check only the kind is kept. *)

From Stdlib Require Import ZArith Lia Bool.
From Stdlib Require Import Init.Byte.
From stdpp Require Import base option numbers strings list.
From S2P Require Import Prelude CInt CpuTypes LoaderH ByteSex HeaderSwap LoadCmdSwap.
From S2P Require Import InPlace Assigns SwapHeaders Overlap.

(** ** Constants of mach-o/loader.h *)

Definition MH_CORE : Z := 0x4.
Definition MH_DYLIB_STUB : Z := 0x9.
Definition MH_DSYM : Z := 0xa.
Definition MH_SIM_SUPPORT : Z := 0x08000000.
Definition S_ZEROFILL : Z := 0x1.
Definition S_THREAD_LOCAL_ZEROFILL : Z := 0x12.
Definition PLATFORM_MACOS : Z := 1.
Definition PLATFORM_MACCATALYST : Z := 6.
Definition PLATFORM_IOSSIMULATOR : Z := 7.
Definition PLATFORM_TVOSSIMULATOR : Z := 8.
Definition PLATFORM_WATCHOSSIMULATOR : Z := 9.

Definition sizeof_nlist : Z := 12.
Definition sizeof_nlist_64 : Z := 16.
Definition sizeof_dylib_module : Z := 52.
Definition sizeof_dylib_module_64 : Z := 56.
Definition sizeof_dylib_table_of_contents : Z := 8.
Definition sizeof_dylib_reference : Z := 4.
Definition sizeof_relocation_info : Z := 8.
Definition sizeof_twolevel_hint : Z := 4.
Definition sizeof_load_command : Z := 8.
Definition sizeof_fileset_entry_command : nat := 32.

(** [swap_fileset_entry_command] *)
Definition fileset_entry_command_assigns : list assign :=
  [INT 0; INT 4; LONG_LONG 8; LONG_LONG 16; INT 24; INT 28].

(** ** Failures *)

(** The messages that come with CHECK_BAD. *)
Inductive bad :=
  | Headers_past_end | Fat_cputype_differs | Command_past_end
  | Cmdsize_not_multiple | Cmdsize_zero | Cmdsize_small | Cmdsize_wrong
  | Offset_past_end | Range_past_end | Elements_overlap
  | Filesize_too_large | Section_in_headers | Section_too_large
  | Section_below_segment | Section_above_segment
  | More_than_one | Versions_differ | String_outside
  | Flavor_outside | Count_outside | Count_wrong | State_outside
  | Flavor_unknown | Cputype_unknown | Command_unknown
  | Symtab_missing | Symbols_outside | Module_outside | Hints_differ
  | Sizeofcmds_inconsistent.

(** The messages after which the check goes on. *)
Inductive complaint := Too_many_build_versions | Platform_not_allowed | Platforms_differ.

(** [Outside] is an access outside of the file, [Null] one through the null
    pointer. *)
Inductive mach_o_failure := Bad (b : bad) | Outside | Null | No_fuel.

(** [if(c){ Mach_O_error(...); goto return_bad; }] *)
Definition bad_if (c : bool) (b : bad) : outcome mach_o_failure unit :=
  if c then Stop (Bad b) else Ret tt.

(** ** The state of the check *)

Record pointers := {
  pt_found : list Z;
  pt_st : option symtab_command;
  pt_dyst : option dysymtab_command;
  pt_rc : option routines_command;
  pt_rc64 : option routines_command_64;
  pt_hints : option twolevel_hints_command;
  pt_vers : option Z;
  pt_bv1 : option build_version_command;
  pt_bv2 : option build_version_command;
}.

Definition no_pointers : pointers :=
  {| pt_found := []; pt_st := None; pt_dyst := None; pt_rc := None; pt_rc64 := None;
     pt_hints := None; pt_vers := None; pt_bv1 := None; pt_bv2 := None |}.

(** [pt_found] has the commands of which there may be one only. *)
Definition set_found (cmd : Z) (p : pointers) : pointers :=
  {| pt_found := cmd :: pt_found p; pt_st := pt_st p; pt_dyst := pt_dyst p; pt_rc := pt_rc p;
     pt_rc64 := pt_rc64 p; pt_hints := pt_hints p; pt_vers := pt_vers p; pt_bv1 := pt_bv1 p;
     pt_bv2 := pt_bv2 p |}.

Definition set_st (st : symtab_command) (p : pointers) : pointers :=
  {| pt_found := pt_found p; pt_st := Some st; pt_dyst := pt_dyst p; pt_rc := pt_rc p;
     pt_rc64 := pt_rc64 p; pt_hints := pt_hints p; pt_vers := pt_vers p; pt_bv1 := pt_bv1 p;
     pt_bv2 := pt_bv2 p |}.

Definition set_dyst (dyst : dysymtab_command) (p : pointers) : pointers :=
  {| pt_found := pt_found p; pt_st := pt_st p; pt_dyst := Some dyst; pt_rc := pt_rc p;
     pt_rc64 := pt_rc64 p; pt_hints := pt_hints p; pt_vers := pt_vers p; pt_bv1 := pt_bv1 p;
     pt_bv2 := pt_bv2 p |}.

Definition set_rc (rc : routines_command) (p : pointers) : pointers :=
  {| pt_found := pt_found p; pt_st := pt_st p; pt_dyst := pt_dyst p; pt_rc := Some rc;
     pt_rc64 := pt_rc64 p; pt_hints := pt_hints p; pt_vers := pt_vers p; pt_bv1 := pt_bv1 p;
     pt_bv2 := pt_bv2 p |}.

Definition set_rc64 (rc64 : routines_command_64) (p : pointers) : pointers :=
  {| pt_found := pt_found p; pt_st := pt_st p; pt_dyst := pt_dyst p; pt_rc := pt_rc p;
     pt_rc64 := Some rc64; pt_hints := pt_hints p; pt_vers := pt_vers p; pt_bv1 := pt_bv1 p;
     pt_bv2 := pt_bv2 p |}.

Definition set_hints (hints : twolevel_hints_command) (p : pointers) : pointers :=
  {| pt_found := pt_found p; pt_st := pt_st p; pt_dyst := pt_dyst p; pt_rc := pt_rc p;
     pt_rc64 := pt_rc64 p; pt_hints := Some hints; pt_vers := pt_vers p; pt_bv1 := pt_bv1 p;
     pt_bv2 := pt_bv2 p |}.

Definition set_vers (vers : Z) (p : pointers) : pointers :=
  {| pt_found := pt_found p; pt_st := pt_st p; pt_dyst := pt_dyst p; pt_rc := pt_rc p;
     pt_rc64 := pt_rc64 p; pt_hints := pt_hints p; pt_vers := Some vers; pt_bv1 := pt_bv1 p;
     pt_bv2 := pt_bv2 p |}.

Definition set_bv (bv1 bv2 : option build_version_command) (p : pointers) : pointers :=
  {| pt_found := pt_found p; pt_st := pt_st p; pt_dyst := pt_dyst p; pt_rc := pt_rc p;
     pt_rc64 := pt_rc64 p; pt_hints := pt_hints p; pt_vers := pt_vers p; pt_bv1 := bv1;
     pt_bv2 := bv2 |}.

Record check_state := mk_state {
  cs_elements : list element;
  cs_pointers : pointers;
  cs_messages : list complaint;
}.

Definition set_elements (l : list element) (s : check_state) : check_state :=
  mk_state l (cs_pointers s) (cs_messages s).
Definition set_pointers (f : pointers -> pointers) (s : check_state) : check_state :=
  mk_state (cs_elements s) (f (cs_pointers s)) (cs_messages s).
Definition add_messages (l : list complaint) (s : check_state) : check_state :=
  mk_state (cs_elements s) (cs_pointers s) (cs_messages s ++ l).

(** The header, as the host reads it. *)
Record header := {
  hd_64 : bool;
  hd_cputype : cpu_type_t;
  hd_filetype : Z;
  hd_ncmds : Z;
  hd_sizeofcmds : Z;
  hd_flags : Z;
}.

Definition hd_size (is_64 : bool) : nat :=
  if is_64 then sizeof_mach_header_64 else sizeof_mach_header.

Section check.
Context (swap_bitfields : bitfield_state -> host -> list byte -> list byte).
(** [swapped]: the file is in the other byte sex. *)
Context (h : host) (swapped : bool).

(** ** Structures of the file *)

(** [if(swapped) swap_...(p, host_byte_sex)] and the structure the host reads
    afterwards. *)
Definition swap_at (l : list assign) (o : nat) (m : mem) : outcome mach_o_failure mem :=
  if swapped then or_stop Outside (do_assigns h o l m) else Ret m.

Definition swap_array_at (l : list assign) (o each n : nat) (m : mem)
    : outcome mach_o_failure mem :=
  if swapped then or_stop Outside (do_array h o each n l m) else Ret m.

Definition load_at {A} (ld : host -> mem -> nat -> A) (size o : nat) (m : mem)
    : outcome mach_o_failure A :=
  if in_bounds m o size then Ret (ld h m o) else Stop Outside.

Definition swap_load {A} (l : list assign) (ld : host -> mem -> nat -> A) (size o : nat) (m : mem)
    : outcome mach_o_failure (mem * A) :=
  m ← swap_at l o m;
  x ← load_at ld size o m;
  Ret (m, x).

(** ** Parts of the file *)

Section file.
(** [size] of the object file and [sizeofhdrs]. *)
Context (size : Z) (sizeofhdrs : Z) (hd : header).

Definition add_element (off n : Z) (name : string) (l : list element)
    : outcome mach_o_failure (list element) :=
  match check_overlaping_element l (mk_element off n name) with
  | (CHECK_GOOD, l) => Ret l
  | (CHECK_BAD, _) => Stop (Bad Elements_overlap)
  end.

(** An offset and a size. *)
Definition check_range (off n : Z) : outcome mach_o_failure unit :=
  _ ← bad_if (size <? off) Offset_past_end;
  bad_if (size <? u64 (off + n)) Range_past_end.

(** An offset and a number of structures. *)
Definition check_table (off n each : Z) : outcome mach_o_failure unit :=
  _ ← bad_if (size <? off) Offset_past_end;
  bad_if (size <? u64 (u64 (n * each) + off)) Range_past_end.

Definition range_element (off n : Z) (name : string) (l : list element)
    : outcome mach_o_failure (list element) :=
  _ ← check_range off n;
  add_element off n name l.

Definition table_element (off n each : Z) (name : string) (l : list element)
    : outcome mach_o_failure (list element) :=
  _ ← check_table off n each;
  add_element off (u32 (n * each)) name l.

(** The parts of LC_DYLD_INFO: an offset of 0 is not compared with the size. *)
Definition optional_element (off n : Z) (name : string) (l : list element)
    : outcome mach_o_failure (list element) :=
  _ ← bad_if (negb (off =? 0) && (size <? off)) Offset_past_end;
  _ ← bad_if (negb (off =? 0) && (size <? u64 (off + n))) Range_past_end;
  add_element off n name l.

(** ** LC_SEGMENT and LC_SEGMENT_64 *)

Definition not_stub (filetype : Z) : bool :=
  negb (filetype =? MH_DYLIB_STUB) && negb (filetype =? MH_DSYM).

Definition not_zerofill (flags : Z) : bool :=
  negb (flags =? S_ZEROFILL) && negb (flags =? S_THREAD_LOCAL_ZEROFILL).

Definition check_section (sg : segment_command) (s : section) (l : list element)
    : outcome mach_o_failure (list element) :=
  (* mh is NULL for a 64-bit file *)
  _ ← (if hd_64 hd then Stop Null else Ret tt);
  let contents := not_stub (hd_filetype hd) && not_zerofill (section_flags s) in
  _ ← bad_if (contents && (size <? section_offset s)) Offset_past_end;
  _ ← bad_if (contents && (segment_command_fileoff sg =? 0) &&
              (section_offset s <? sizeofhdrs) && negb (section_size s =? 0)) Section_in_headers;
  _ ← bad_if (contents && (size <? u64 (section_offset s + section_size s))) Range_past_end;
  _ ← bad_if (contents && (segment_command_filesize sg <? section_size s)) Section_too_large;
  _ ← bad_if (not_stub (hd_filetype hd) && negb (section_size s =? 0) &&
              (section_addr s <? segment_command_vmaddr sg)) Section_below_segment;
  _ ← bad_if (negb (segment_command_vmsize sg =? 0) && negb (section_size s =? 0) &&
              (u64 (segment_command_vmaddr sg + segment_command_vmsize sg) <?
               u64 (section_addr s + section_size s))) Section_above_segment;
  l ← (if contents then add_element (section_offset s) (section_size s) "section contents" l
       else Ret l);
  table_element (section_reloff s) (section_nreloc s) sizeof_relocation_info
    "section relocation entries" l.

Fixpoint check_sections (sg : segment_command) (n o : nat) (m : mem) (l : list element)
    : outcome mach_o_failure (list element) :=
  match n with
  | O => Ret l
  | S n =>
      s ← load_at ld_section sizeof_section o m;
      l ← check_section sg s l;
      check_sections sg n (o + sizeof_section) m l
  end.

Definition check_section_64 (sg64 : segment_command_64) (s64 : section_64) (l : list element)
    : outcome mach_o_failure (list element) :=
  (* mh64 is NULL for a 32-bit file *)
  _ ← (if hd_64 hd then Ret tt else Stop Null);
  let contents := not_stub (hd_filetype hd) && not_zerofill (section_64_flags s64) in
  _ ← bad_if (contents && (size <? section_64_offset s64)) Offset_past_end;
  _ ← bad_if (contents && (segment_command_64_fileoff sg64 =? 0) &&
              (section_64_offset s64 <? sizeofhdrs) && negb (section_64_size s64 =? 0))
        Section_in_headers;
  _ ← bad_if (contents && (size <? u64 (section_64_offset s64 + section_64_size s64)))
        Range_past_end;
  l ← (if contents then
         add_element (section_64_offset s64) (u32 (section_64_size s64)) "section contents" l
       else Ret l);
  table_element (section_64_reloff s64) (section_64_nreloc s64) sizeof_relocation_info
    "section relocation entries" l.

Fixpoint check_sections_64 (sg64 : segment_command_64) (n o : nat) (m : mem) (l : list element)
    : outcome mach_o_failure (list element) :=
  match n with
  | O => Ret l
  | S n =>
      s64 ← load_at ld_section_64 sizeof_section_64 o m;
      l ← check_section_64 sg64 s64 l;
      check_sections_64 sg64 n (o + sizeof_section_64) m l
  end.

(** The cases of the switch, for a command at [lc]. *)
Section command.
Context (lc : nat) (cmd cmdsize : Z).

(** [if(l.cmdsize < sizeof(...))] *)
Definition check_small (n : nat) : outcome mach_o_failure unit :=
  bad_if (cmdsize <? Z.of_nat n) Cmdsize_small.

(** [if(... != NULL)] "more than one" *)
Definition check_once (s : check_state) : outcome mach_o_failure unit :=
  bad_if (cmd_in cmd (pt_found (cs_pointers s))) More_than_one.

Definition handler : Type := mem -> check_state -> outcome mach_o_failure (mem * check_state).

Definition case_segment : handler := fun m s =>
  _ ← check_small sizeof_segment_command;
  '(m, sg) ← swap_load segment_command_assigns ld_segment_command sizeof_segment_command lc m;
  let nsects := segment_command_nsects sg in
  _ ← bad_if (negb (segment_command_cmdsize sg =?
                    u64 (u64 (nsects * Z.of_nat sizeof_section) + Z.of_nat sizeof_segment_command)))
        Cmdsize_wrong;
  _ ← check_range (segment_command_fileoff sg) (segment_command_filesize sg);
  _ ← bad_if (negb (segment_command_vmsize sg =? 0) &&
              (segment_command_vmsize sg <? segment_command_filesize sg)) Filesize_too_large;
  let o := (lc + sizeof_segment_command)%nat in
  m ← swap_array_at section_assigns o sizeof_section (Z.to_nat nsects) m;
  l ← check_sections sg (Z.to_nat nsects) o m (cs_elements s);
  Ret (m, set_elements l s).

Definition case_segment_64 : handler := fun m s =>
  _ ← check_small sizeof_segment_command_64;
  '(m, sg64) ← swap_load segment_command_64_assigns ld_segment_command_64
                 sizeof_segment_command_64 lc m;
  let nsects := segment_command_64_nsects sg64 in
  _ ← bad_if (negb (segment_command_64_cmdsize sg64 =?
                    u64 (u64 (nsects * Z.of_nat sizeof_section_64) +
                         Z.of_nat sizeof_segment_command_64)))
        Cmdsize_wrong;
  _ ← check_range (segment_command_64_fileoff sg64) (segment_command_64_filesize sg64);
  let o := (lc + sizeof_segment_command_64)%nat in
  m ← swap_array_at section_64_assigns o sizeof_section_64 (Z.to_nat nsects) m;
  l ← check_sections_64 sg64 (Z.to_nat nsects) o m (cs_elements s);
  Ret (m, set_elements l s).

(** ** Symbols *)

Definition case_symtab : handler := fun m s =>
  _ ← check_small sizeof_symtab_command;
  _ ← check_once s;
  '(m, st) ← swap_load symtab_command_assigns ld_symtab_command sizeof_symtab_command lc m;
  _ ← bad_if (negb (symtab_command_cmdsize st =? Z.of_nat sizeof_symtab_command)) Cmdsize_wrong;
  l ← table_element (symtab_command_symoff st) (symtab_command_nsyms st)
        (if hd_64 hd then sizeof_nlist_64 else sizeof_nlist) "symbol table" (cs_elements s);
  l ← range_element (symtab_command_stroff st) (symtab_command_strsize st) "string table" l;
  Ret (m, set_elements l (set_pointers (fun p => set_st st (set_found cmd p)) s)).

Definition case_dysymtab : handler := fun m s =>
  _ ← check_small sizeof_dysymtab_command;
  _ ← check_once s;
  '(m, dyst) ← swap_load dysymtab_command_assigns ld_dysymtab_command sizeof_dysymtab_command lc m;
  _ ← bad_if (negb (dysymtab_command_cmdsize dyst =? Z.of_nat sizeof_dysymtab_command))
        Cmdsize_wrong;
  l ← table_element (dysymtab_command_tocoff dyst) (dysymtab_command_ntoc dyst)
        sizeof_dylib_table_of_contents "table of contents" (cs_elements s);
  l ← table_element (dysymtab_command_modtaboff dyst) (dysymtab_command_nmodtab dyst)
        (if hd_64 hd then sizeof_dylib_module_64 else sizeof_dylib_module) "module table" l;
  l ← table_element (dysymtab_command_extrefsymoff dyst) (dysymtab_command_nextrefsyms dyst)
        sizeof_dylib_reference "reference table" l;
  l ← table_element (dysymtab_command_indirectsymoff dyst) (dysymtab_command_nindirectsyms dyst)
        4 "indirect table" l;
  l ← table_element (dysymtab_command_extreloff dyst) (dysymtab_command_nextrel dyst)
        sizeof_relocation_info "external relocation table" l;
  l ← table_element (dysymtab_command_locreloff dyst) (dysymtab_command_nlocrel dyst)
        sizeof_relocation_info "local relocation table" l;
  Ret (m, set_elements l (set_pointers (fun p => set_dyst dyst (set_found cmd p)) s)).

Definition case_routines : handler := fun m s =>
  _ ← check_small sizeof_routines_command;
  _ ← check_once s;
  '(m, rc) ← swap_load routines_command_assigns ld_routines_command sizeof_routines_command lc m;
  _ ← bad_if (negb (routines_command_cmdsize rc =? Z.of_nat sizeof_routines_command))
        Cmdsize_wrong;
  Ret (m, set_pointers (fun p => set_rc rc (set_found cmd p)) s).

Definition case_routines_64 : handler := fun m s =>
  _ ← check_small sizeof_routines_command_64;
  _ ← check_once s;
  '(m, rc64) ← swap_load routines_command_64_assigns ld_routines_command_64
                 sizeof_routines_command_64 lc m;
  _ ← bad_if (negb (routines_command_64_cmdsize rc64 =? Z.of_nat sizeof_routines_command_64))
        Cmdsize_wrong;
  Ret (m, set_pointers (fun p => set_rc64 rc64 (set_found cmd p)) s).

Definition case_twolevel_hints : handler := fun m s =>
  _ ← check_small sizeof_twolevel_hints_command;
  _ ← check_once s;
  '(m, hints) ← swap_load twolevel_hints_command_assigns ld_twolevel_hints_command
                  sizeof_twolevel_hints_command lc m;
  _ ← bad_if (negb (twolevel_hints_command_cmdsize hints =? Z.of_nat sizeof_twolevel_hints_command))
        Cmdsize_wrong;
  l ← table_element (twolevel_hints_command_offset hints) (twolevel_hints_command_nhints hints)
        sizeof_twolevel_hint "two level hints" (cs_elements s);
  Ret (m, set_elements l (set_pointers (fun p => set_hints hints (set_found cmd p)) s)).

(** ** Data of the link edit segment *)

(** [element_name] *)
Definition linkedit_name : string :=
  if cmd =? LC_SEGMENT_SPLIT_INFO then "split info data"
  else if cmd =? LC_ATOM_INFO then "atom info"
  else if cmd =? LC_CODE_SIGNATURE then "code signature data"
  else if cmd =? LC_FUNCTION_STARTS then "function starts data"
  else if cmd =? LC_DATA_IN_CODE then "data in code info"
  else if cmd =? LC_DYLIB_CODE_SIGN_DRS then "dylib codesign designated requirements data"
  else if cmd =? LC_LINKER_OPTIMIZATION_HINT then "linker optimization hint"
  else if cmd =? LC_DYLD_EXPORTS_TRIE then "exports trie"
  else "chained fixups".

Definition case_linkedit_data : handler := fun m s =>
  _ ← check_once s;
  _ ← check_small sizeof_linkedit_data_command;
  '(m, linkedit_data) ← swap_load linkedit_data_command_assigns ld_linkedit_data_command
                          sizeof_linkedit_data_command lc m;
  _ ← bad_if (negb (linkedit_data_command_cmdsize linkedit_data =?
                    Z.of_nat sizeof_linkedit_data_command)) Cmdsize_wrong;
  l ← range_element (linkedit_data_command_dataoff linkedit_data)
        (linkedit_data_command_datasize linkedit_data) linkedit_name (cs_elements s);
  Ret (m, set_elements l (set_pointers (set_found cmd) s)).

Definition case_dyld_info : handler := fun m s =>
  _ ← check_small sizeof_dyld_info_command;
  '(m, dyld_info) ← swap_load dyld_info_command_assigns ld_dyld_info_command
                      sizeof_dyld_info_command lc m;
  _ ← bad_if (negb (dyld_info_command_cmdsize dyld_info =? Z.of_nat sizeof_dyld_info_command))
        Cmdsize_wrong;
  l ← optional_element (dyld_info_command_rebase_off dyld_info)
        (dyld_info_command_rebase_size dyld_info) "dyld rebase info" (cs_elements s);
  l ← optional_element (dyld_info_command_bind_off dyld_info)
        (dyld_info_command_bind_size dyld_info) "dyld bind info" l;
  l ← optional_element (dyld_info_command_weak_bind_off dyld_info)
        (dyld_info_command_weak_bind_size dyld_info) "dyld bind info" l;
  l ← optional_element (dyld_info_command_lazy_bind_off dyld_info)
        (dyld_info_command_lazy_bind_size dyld_info) "dyld lazy bind info" l;
  l ← optional_element (dyld_info_command_export_off dyld_info)
        (dyld_info_command_export_size dyld_info) "dyld export info" l;
  Ret (m, set_elements l s).

Definition case_symseg : handler := fun m s =>
  _ ← check_small sizeof_symseg_command;
  '(m, ss) ← swap_load symseg_command_assigns ld_symseg_command sizeof_symseg_command lc m;
  _ ← bad_if (negb (symseg_command_cmdsize ss =? Z.of_nat sizeof_symseg_command)) Cmdsize_wrong;
  l ← range_element (symseg_command_offset ss) (symseg_command_size ss) "symseg info"
        (cs_elements s);
  Ret (m, set_elements l s).

(** ** Versions *)

Definition has_platform (platform : Z) (bv : option build_version_command) : bool :=
  match bv with Some bv => build_version_command_platform bv =? platform | None => false end.

Definition is_some {A} (x : option A) : bool := match x with Some _ => true | None => false end.

(** One variable for the commands LC_VERSION_MIN_MACOSX, ... *)
Definition case_version_min_macosx : handler := fun m s =>
  let p := cs_pointers s in
  _ ← check_small sizeof_version_min_command;
  _ ← bad_if (is_some (pt_vers p)) More_than_one;
  '(m, vers) ← swap_load version_min_command_assigns ld_version_min_command
                 sizeof_version_min_command lc m;
  _ ← bad_if (version_min_command_cmdsize vers <? Z.of_nat sizeof_version_min_command)
        Cmdsize_small;
  _ ← bad_if (has_platform PLATFORM_MACOS (pt_bv1 p)) Versions_differ;
  Ret (m, set_pointers (set_vers (version_min_command_cmd vers)) s).

Definition case_version_min : handler := fun m s =>
  let p := cs_pointers s in
  _ ← check_small sizeof_version_min_command;
  _ ← bad_if (is_some (pt_vers p)) More_than_one;
  _ ← bad_if (is_some (pt_bv1 p)) Versions_differ;
  '(m, vers) ← swap_load version_min_command_assigns ld_version_min_command
                 sizeof_version_min_command lc m;
  _ ← bad_if (version_min_command_cmdsize vers <? Z.of_nat sizeof_version_min_command)
        Cmdsize_small;
  Ret (m, set_pointers (set_vers (version_min_command_cmd vers)) s).

Definition sim_support : bool := negb (Z.land (hd_flags hd) MH_SIM_SUPPORT =? 0).

(** The platforms that go with MH_SIM_SUPPORT. *)
Definition sim_platform (platform : Z) : bool :=
  cmd_in platform [PLATFORM_MACOS; PLATFORM_MACCATALYST; PLATFORM_IOSSIMULATOR;
    PLATFORM_TVOSSIMULATOR; PLATFORM_WATCHOSSIMULATOR].

(** What is said of the first LC_BUILD_VERSION command, and of another. *)
Definition first_build_version (bv1 : build_version_command) : list complaint :=
  if sim_support && negb (sim_platform (build_version_command_platform bv1))
  then [Platform_not_allowed] else [].

Definition next_build_version (bv1 bv2 : build_version_command) : list complaint :=
  let platform1 := build_version_command_platform bv1 in
  let platform2 := build_version_command_platform bv2 in
  if (negb (platform1 =? PLATFORM_MACOS) && negb (platform1 =? PLATFORM_MACCATALYST)) ||
     (((platform1 =? PLATFORM_MACOS) && negb (platform2 =? PLATFORM_MACCATALYST)) ||
      ((platform1 =? PLATFORM_MACCATALYST) && negb (platform2 =? PLATFORM_MACOS)))
  then
    if negb sim_support then [Platforms_differ]
    else if negb (sim_platform platform2) then [Platform_not_allowed] else []
  else [].

Definition case_build_version : handler := fun m s =>
  let p := cs_pointers s in
  _ ← check_small sizeof_build_version_command;
  _ ← bad_if (match pt_vers p with
              | Some vers => negb (vers =? LC_VERSION_MIN_MACOSX)
              | None => false end) Versions_differ;
  let too_many :=
    if is_some (pt_bv1 p) && is_some (pt_bv2 p) && negb sim_support
    then [Too_many_build_versions] else [] in
  '(m, bv) ← swap_load build_version_command_assigns ld_build_version_command
               sizeof_build_version_command lc m;
  let ntools := build_version_command_ntools bv in
  _ ← bad_if (build_version_command_cmdsize bv <?
              Z.of_nat sizeof_build_version_command + ntools * Z.of_nat sizeof_build_tool_version)
        Cmdsize_small;
  m ← swap_array_at build_tool_version_assigns (lc + sizeof_build_version_command)
        sizeof_build_tool_version (Z.to_nat ntools) m;
  _ ← bad_if (match pt_vers p with
              | Some vers => (vers =? LC_VERSION_MIN_MACOSX) &&
                             negb (build_version_command_platform bv =? PLATFORM_MACCATALYST)
              | None => false end) Versions_differ;
  Ret (m, match pt_bv1 p with
          | None => add_messages (too_many ++ first_build_version bv)
                      (set_pointers (set_bv (Some bv) (pt_bv2 p)) s)
          | Some bv1 => add_messages (too_many ++ next_build_version bv1 bv)
                          (set_pointers (set_bv (Some bv1) (Some bv)) s)
          end).

(** ** Other commands *)

Definition case_encryption_info : handler := fun m s =>
  _ ← check_small sizeof_encryption_info_command;
  '(m, encrypt_info) ← swap_load encryption_info_command_assigns ld_encryption_info_command
                         sizeof_encryption_info_command lc m;
  _ ← bad_if (negb (encryption_info_command_cmdsize encrypt_info =?
                    Z.of_nat sizeof_encryption_info_command)) Cmdsize_wrong;
  _ ← check_range (encryption_info_command_cryptoff encrypt_info)
        (encryption_info_command_cryptsize encrypt_info);
  Ret (m, s).

Definition case_encryption_info_64 : handler := fun m s =>
  _ ← check_small sizeof_encryption_info_command_64;
  '(m, encrypt_info64) ← swap_load encryption_info_command_64_assigns
                           ld_encryption_info_command_64 sizeof_encryption_info_command_64 lc m;
  _ ← bad_if (negb (encryption_info_command_64_cmdsize encrypt_info64 =?
                    Z.of_nat sizeof_encryption_info_command_64)) Cmdsize_wrong;
  _ ← check_range (encryption_info_command_64_cryptoff encrypt_info64)
        (encryption_info_command_64_cryptsize encrypt_info64);
  Ret (m, s).

Definition case_linker_option : handler := fun m s =>
  _ ← check_small sizeof_linker_option_command;
  '(m, lo) ← swap_load linker_option_command_assigns ld_linker_option_command
               sizeof_linker_option_command lc m;
  _ ← bad_if (linker_option_command_cmdsize lo <? Z.of_nat sizeof_linker_option_command)
        Cmdsize_small;
  Ret (m, s).

Definition case_prebind_cksum : handler := fun m s =>
  _ ← check_small sizeof_prebind_cksum_command;
  _ ← check_once s;
  '(m, cs) ← swap_load prebind_cksum_command_assigns ld_prebind_cksum_command
               sizeof_prebind_cksum_command lc m;
  _ ← bad_if (negb (prebind_cksum_command_cmdsize cs =? Z.of_nat sizeof_prebind_cksum_command))
        Cmdsize_wrong;
  Ret (m, set_pointers (set_found cmd) s).

Definition case_uuid : handler := fun m s =>
  _ ← check_small sizeof_uuid_command;
  _ ← check_once s;
  '(m, uuid) ← swap_load uuid_command_assigns ld_uuid_command sizeof_uuid_command lc m;
  _ ← bad_if (negb (uuid_command_cmdsize uuid =? Z.of_nat sizeof_uuid_command)) Cmdsize_wrong;
  Ret (m, set_pointers (set_found cmd) s).

(** ** Commands with names *)

(** [if(....offset >= ...->cmdsize)] *)
Definition check_lc_str (off size : Z) : outcome mach_o_failure unit :=
  bad_if (size <=? off) String_outside.

Definition case_fvmlib : handler := fun m s =>
  _ ← check_small sizeof_fvmlib_command;
  '(m, fl) ← swap_load fvmlib_command_assigns ld_fvmlib_command sizeof_fvmlib_command lc m;
  _ ← bad_if (fvmlib_command_cmdsize fl <? Z.of_nat sizeof_fvmlib_command) Cmdsize_small;
  _ ← check_lc_str (fvmlib_command_fvmlib_name_offset fl) (fvmlib_command_cmdsize fl);
  Ret (m, s).

Definition case_dylib : handler := fun m s =>
  _ ← check_small sizeof_dylib_command;
  '(m, dl) ← swap_load dylib_command_assigns ld_dylib_command sizeof_dylib_command lc m;
  _ ← bad_if (dylib_command_cmdsize dl <? Z.of_nat sizeof_dylib_command) Cmdsize_small;
  _ ← check_lc_str (dylib_command_dylib_name_offset dl) (dylib_command_cmdsize dl);
  Ret (m, s).

Definition case_sub_framework : handler := fun m s =>
  _ ← check_small sizeof_sub_framework_command;
  '(m, sub) ← swap_load sub_framework_command_assigns ld_sub_framework_command
                sizeof_sub_framework_command lc m;
  _ ← bad_if (sub_framework_command_cmdsize sub <? Z.of_nat sizeof_sub_framework_command)
        Cmdsize_small;
  _ ← check_lc_str (sub_framework_command_umbrella_offset sub) (sub_framework_command_cmdsize sub);
  Ret (m, s).

Definition case_sub_umbrella : handler := fun m s =>
  _ ← check_small sizeof_sub_umbrella_command;
  '(m, usub) ← swap_load sub_umbrella_command_assigns ld_sub_umbrella_command
                 sizeof_sub_umbrella_command lc m;
  _ ← bad_if (sub_umbrella_command_cmdsize usub <? Z.of_nat sizeof_sub_umbrella_command)
        Cmdsize_small;
  _ ← check_lc_str (sub_umbrella_command_sub_umbrella_offset usub)
        (sub_umbrella_command_cmdsize usub);
  Ret (m, s).

Definition case_sub_library : handler := fun m s =>
  _ ← check_small sizeof_sub_library_command;
  '(m, lsub) ← swap_load sub_library_command_assigns ld_sub_library_command
                 sizeof_sub_library_command lc m;
  _ ← bad_if (sub_library_command_cmdsize lsub <? Z.of_nat sizeof_sub_library_command)
        Cmdsize_small;
  _ ← check_lc_str (sub_library_command_sub_library_offset lsub)
        (sub_library_command_cmdsize lsub);
  Ret (m, s).

Definition case_sub_client : handler := fun m s =>
  _ ← check_small sizeof_sub_client_command;
  '(m, csub) ← swap_load sub_client_command_assigns ld_sub_client_command
                 sizeof_sub_client_command lc m;
  _ ← bad_if (sub_client_command_cmdsize csub <? Z.of_nat sizeof_sub_client_command)
        Cmdsize_small;
  _ ← check_lc_str (sub_client_command_client_offset csub) (sub_client_command_cmdsize csub);
  Ret (m, s).

(** The second comparison is with the size of a dylib command. *)
Definition case_prebound_dylib : handler := fun m s =>
  _ ← check_small sizeof_prebound_dylib_command;
  '(m, pbdylib) ← swap_load prebound_dylib_command_assigns ld_prebound_dylib_command
                    sizeof_prebound_dylib_command lc m;
  _ ← bad_if (prebound_dylib_command_cmdsize pbdylib <? Z.of_nat sizeof_dylib_command)
        Cmdsize_small;
  _ ← check_lc_str (prebound_dylib_command_name_offset pbdylib)
        (prebound_dylib_command_cmdsize pbdylib);
  _ ← check_lc_str (prebound_dylib_command_linked_modules_offset pbdylib)
        (prebound_dylib_command_cmdsize pbdylib);
  Ret (m, s).

Definition case_dylinker : handler := fun m s =>
  _ ← check_small sizeof_dylinker_command;
  '(m, dyld) ← swap_load dylinker_command_assigns ld_dylinker_command sizeof_dylinker_command lc m;
  _ ← bad_if (dylinker_command_cmdsize dyld <? Z.of_nat sizeof_dylinker_command) Cmdsize_small;
  _ ← check_lc_str (dylinker_command_name_offset dyld) (dylinker_command_cmdsize dyld);
  Ret (m, s).

Definition case_rpath : handler := fun m s =>
  _ ← check_small sizeof_rpath_command;
  '(m, rpath) ← swap_load rpath_command_assigns ld_rpath_command sizeof_rpath_command lc m;
  _ ← bad_if (rpath_command_cmdsize rpath <? Z.of_nat sizeof_rpath_command) Cmdsize_small;
  _ ← check_lc_str (rpath_command_path_offset rpath) (rpath_command_cmdsize rpath);
  Ret (m, s).

Definition case_fileset_entry : handler := fun m s =>
  _ ← check_small sizeof_fileset_entry_command;
  '(m, fsentry) ← swap_load fileset_entry_command_assigns ld_fileset_entry_command
                    sizeof_fileset_entry_command lc m;
  _ ← bad_if (fileset_entry_command_cmdsize fsentry <? Z.of_nat sizeof_fileset_entry_command)
        Cmdsize_small;
  _ ← check_lc_str (fileset_entry_command_entry_id_offset fsentry)
        (fileset_entry_command_cmdsize fsentry);
  Ret (m, s).

(** ** Commands without checks of their fields *)

Definition case_main : handler := fun m s =>
  _ ← check_small sizeof_entry_point_command;
  m ← swap_at entry_point_command_assigns lc m;
  Ret (m, s).

Definition case_source_version : handler := fun m s =>
  _ ← check_small sizeof_source_version_command;
  m ← swap_at source_version_command_assigns lc m;
  Ret (m, s).

Definition case_ident : handler := fun m s =>
  _ ← check_small sizeof_ident_command;
  m ← swap_at ident_command_assigns lc m;
  Ret (m, s).

Definition case_note : handler := fun m s =>
  _ ← bad_if (negb (cmdsize =? Z.of_nat sizeof_note_command)) Cmdsize_wrong;
  '(m, nc) ← swap_load note_command_assigns ld_note_command sizeof_note_command lc m;
  _ ← check_range (note_command_offset nc) (note_command_size nc);
  Ret (m, s).

(** ** LC_THREAD and LC_UNIXTHREAD *)

(** The flavors for a cputype with their structures; the state of an i860 is
    skipped unless the host is a 68k.  [None]: there is no branch for the
    cputype. *)
Definition thread_cases_m68k : list (Z * option state_swap) :=
  [(1, Some (Assigns m68k_thread_state_regs_assigns sizeof_m68k_thread_state_regs));
   (2, Some (Assigns m68k_thread_state_68882_assigns sizeof_m68k_thread_state_68882));
   (3, Some (Assigns m68k_thread_state_user_reg_assigns sizeof_m68k_thread_state_user_reg))].

Definition thread_cases_ppc : list (Z * option state_swap) :=
  [(1, Some (Assigns ppc_thread_state_t_assigns sizeof_ppc_thread_state_t))].

Definition thread_cases_ppc64 : list (Z * option state_swap) :=
  [(5, Some (Assigns ppc_thread_state64_t_assigns sizeof_ppc_thread_state64_t))].

Definition thread_cases_m88k : list (Z * option state_swap) :=
  [(1, Some (Assigns m88k_thread_state_grf_t_assigns sizeof_m88k_thread_state_grf_t));
   (2, Some (Bitfields m88k_thread_state_xrf sizeof_m88k_thread_state_xrf_t));
   (3, Some (Assigns m88k_thread_state_user_t_assigns sizeof_m88k_thread_state_user_t));
   (4, Some (Bitfields m88110_thread_state_impl sizeof_m88110_thread_state_impl_t))].

Definition thread_cases_i860 : list (Z * option state_swap) := [(4, None)].

Definition thread_cases_i386 : list (Z * option state_swap) :=
  let cpu := Some (Assigns i386_thread_state_assigns sizeof_i386_thread_state) in
  [(1, cpu);
   (minus_one, cpu);
   (2, Some (Bitfields i386_float_state sizeof_i386_float_state));
   (3, Some (Assigns i386_exception_state_assigns sizeof_i386_exception_state))].

Definition thread_cases_x86_64 : list (Z * option state_swap) :=
  [(4, Some (Assigns x86_thread_state64_assigns sizeof_x86_thread_state64))].

Definition thread_cases_hppa : list (Z * option state_swap) :=
  [(1, Some (Assigns hppa_integer_thread_state_assigns sizeof_hp_pa_integer_thread_state));
   (2, Some (Assigns hppa_frame_thread_state_assigns sizeof_hp_pa_frame_thread_state));
   (3, Some (Assigns hppa_fp_thread_state_assigns sizeof_hp_pa_fp_thread_state))].

Definition thread_cases_sparc : list (Z * option state_swap) :=
  [(1, Some (Bitfields sparc_thread_state_regs sizeof_sparc_thread_state_regs));
   (2, Some (Bitfields sparc_thread_state_fpu sizeof_sparc_thread_state_fpu))].

Definition thread_cases_arm : list (Z * option state_swap) :=
  [(1, Some (Assigns arm_thread_state_t_assigns sizeof_arm_thread_state_t))].

Definition thread_cases_arm64 : list (Z * option state_swap) :=
  [(6, Some (Assigns arm_thread_state64_t_assigns sizeof_arm_thread_state64_t))].

Definition thread_cases (cputype : Z) : option (list (Z * option state_swap)) :=
  if cputype =? CPU_TYPE_MC680x0 then Some thread_cases_m68k
  else if (cputype =? CPU_TYPE_POWERPC) || (cputype =? CPU_TYPE_VEO) then Some thread_cases_ppc
  else if cputype =? CPU_TYPE_POWERPC64 then Some thread_cases_ppc64
  else if cputype =? CPU_TYPE_MC88000 then Some thread_cases_m88k
  else if cputype =? CPU_TYPE_I860 then Some thread_cases_i860
  else if cputype =? CPU_TYPE_I386 then Some thread_cases_i386
  else if cputype =? CPU_TYPE_X86_64 then Some thread_cases_x86_64
  else if cputype =? CPU_TYPE_HPPA then Some thread_cases_hppa
  else if cputype =? CPU_TYPE_SPARC then Some thread_cases_sparc
  else if cputype =? CPU_TYPE_ARM then Some thread_cases_arm
  else if (cputype =? CPU_TYPE_ARM64) || (cputype =? CPU_TYPE_ARM64_32)
  then Some thread_cases_arm64
  else None.

(** A word of a thread command, which is swapped where it is. *)
Definition swap_word (o : nat) (m : mem) : outcome mach_o_failure (mem * Z) :=
  w ← or_stop Outside (load32 h m o);
  m ← swap_at [INT 0] o m;
  Ret (m, if swapped then SWAP_INT w else w).

(** [while(state < p)] *)
Fixpoint check_flavors (fuel : nat) (cases : list (Z * option state_swap)) (state p : nat)
    (m : mem) : outcome mach_o_failure mem :=
  if (p <=? state)%nat then Ret m
  else match fuel with
  | O => Stop No_fuel
  | S fuel =>
      _ ← bad_if (p <? state + 4)%nat Flavor_outside;
      '(m, flavor) ← swap_word state m;
      let state := (state + 4)%nat in
      _ ← bad_if (p <? state + 4)%nat Count_outside;
      '(m, count) ← swap_word state m;
      let state := (state + 4)%nat in
      match List.find (fun c => fst c =? flavor) cases with
      | Some (_, Some st) =>
          _ ← bad_if (negb (count =? count_of (state_size st))) Count_wrong;
          _ ← bad_if (p <? state + state_size st)%nat State_outside;
          m ← (if swapped then or_stop Outside (swap_state swap_bitfields h st state m) else Ret m);
          check_flavors fuel cases (state + state_size st) p m
      | Some (_, None) => check_flavors fuel cases (state + Z.to_nat (count * 4)) p m
      | None =>
          _ ← bad_if swapped Flavor_unknown;
          check_flavors fuel cases (state + Z.to_nat (count * 4)) p m
      end
  end.

Definition case_thread : handler := fun m s =>
  _ ← check_small sizeof_thread_command;
  '(m, ut) ← swap_load thread_command_assigns ld_thread_command sizeof_thread_command lc m;
  let ut_cmdsize := Z.to_nat (thread_command_cmdsize ut) in
  match thread_cases (hd_cputype hd) with
  | Some cases =>
      m ← check_flavors ut_cmdsize cases (lc + sizeof_thread_command) (lc + ut_cmdsize) m;
      Ret (m, s)
  | None => _ ← bad_if swapped Cputype_unknown; Ret (m, s)
  end.

(** ** The switch *)

Definition is_linkedit_data (cmd : Z) : bool :=
  cmd_in cmd [LC_SEGMENT_SPLIT_INFO; LC_ATOM_INFO; LC_CODE_SIGNATURE; LC_FUNCTION_STARTS;
    LC_DATA_IN_CODE; LC_DYLIB_CODE_SIGN_DRS; LC_LINKER_OPTIMIZATION_HINT;
    LC_DYLD_EXPORTS_TRIE; LC_DYLD_CHAINED_FIXUPS].

Definition switch_cmd : handler :=
  if cmd =? LC_SEGMENT then case_segment
  else if cmd =? LC_SEGMENT_64 then case_segment_64
  else if cmd =? LC_SYMTAB then case_symtab
  else if cmd =? LC_DYSYMTAB then case_dysymtab
  else if cmd =? LC_ROUTINES then case_routines
  else if cmd =? LC_ROUTINES_64 then case_routines_64
  else if cmd =? LC_TWOLEVEL_HINTS then case_twolevel_hints
  else if is_linkedit_data cmd then case_linkedit_data
  else if cmd =? LC_VERSION_MIN_MACOSX then case_version_min_macosx
  else if cmd_in cmd [LC_VERSION_MIN_IPHONEOS; LC_VERSION_MIN_TVOS; LC_VERSION_MIN_WATCHOS]
  then case_version_min
  else if cmd =? LC_BUILD_VERSION then case_build_version
  else if cmd =? LC_ENCRYPTION_INFO then case_encryption_info
  else if cmd =? LC_ENCRYPTION_INFO_64 then case_encryption_info_64
  else if cmd =? LC_LINKER_OPTION then case_linker_option
  else if cmd_in cmd [LC_DYLD_INFO; LC_DYLD_INFO_ONLY] then case_dyld_info
  else if cmd =? LC_PREBIND_CKSUM then case_prebind_cksum
  else if cmd =? LC_UUID then case_uuid
  else if cmd =? LC_SYMSEG then case_symseg
  else if cmd_in cmd [LC_IDFVMLIB; LC_LOADFVMLIB] then case_fvmlib
  else if is_dylib cmd then case_dylib
  else if cmd =? LC_SUB_FRAMEWORK then case_sub_framework
  else if cmd =? LC_SUB_UMBRELLA then case_sub_umbrella
  else if cmd =? LC_SUB_LIBRARY then case_sub_library
  else if cmd =? LC_SUB_CLIENT then case_sub_client
  else if cmd =? LC_PREBOUND_DYLIB then case_prebound_dylib
  else if is_dylinker cmd then case_dylinker
  else if cmd_in cmd [LC_UNIXTHREAD; LC_THREAD] then case_thread
  else if cmd =? LC_MAIN then case_main
  else if cmd =? LC_SOURCE_VERSION then case_source_version
  else if cmd =? LC_IDENT then case_ident
  else if cmd =? LC_RPATH then case_rpath
  else if cmd =? LC_NOTE then case_note
  else if cmd =? LC_FILESET_ENTRY then case_fileset_entry
  else fun m s => Stop (Bad Command_unknown).
End command.

(** ** The loop over the load commands *)

(** Core files may have a thread command that is a multiple of 4. *)
Definition thread_of_core (cmd cmdsize : Z) : bool :=
  hd_64 hd && (hd_filetype hd =? MH_CORE) && (cmd =? LC_THREAD) && (cmdsize mod 4 =? 0).

(** [lc] is at [load_commands + big_load_end]. *)
Definition check_lc (big_load_end : Z) (m : mem) (s : check_state)
    : outcome mach_o_failure (Z * mem * check_state) :=
  let lc := (hd_size (hd_64 hd) + Z.to_nat big_load_end)%nat in
  _ ← bad_if (hd_sizeofcmds hd <? big_load_end + sizeof_load_command) Command_past_end;
  l ← load_at ld_load_command (Z.to_nat sizeof_load_command) lc m;
  let l := if swapped then swap_load_command l else l in
  let cmd := load_command_cmd l in
  let cmdsize := load_command_cmdsize l in
  let load_command_multiple := if hd_64 hd then 8 else 4 in
  _ ← bad_if (negb (cmdsize mod load_command_multiple =? 0) && negb (thread_of_core cmd cmdsize))
        Cmdsize_not_multiple;
  let big_load_end := big_load_end + cmdsize in
  _ ← bad_if (hd_sizeofcmds hd <? big_load_end) Command_past_end;
  _ ← bad_if (cmdsize =? 0) Cmdsize_zero;
  '(m, s) ← switch_cmd lc cmd cmdsize m s;
  _ ← bad_if (hd_sizeofcmds hd <? big_load_end) Command_past_end;
  Ret (big_load_end, m, s).

Fixpoint check_lcs (n : nat) (big_load_end : Z) (m : mem) (s : check_state)
    : outcome mach_o_failure (Z * mem * check_state) :=
  match n with
  | O => Ret (big_load_end, m, s)
  | S n =>
      '(big_load_end, m, s) ← check_lc big_load_end m s;
      check_lcs n big_load_end m s
  end.

(** ** After the loop *)

(** A group of symbols of LC_DYSYMTAB. *)
Definition check_group (st : symtab_command) (i n : Z) : outcome mach_o_failure unit :=
  _ ← bad_if (negb (n =? 0) && (symtab_command_nsyms st <? i)) Symbols_outside;
  bad_if (negb (n =? 0) && (symtab_command_nsyms st <? u64 (i + n))) Symbols_outside.

Definition check_pointers (p : pointers) : outcome mach_o_failure unit :=
  match pt_st p, pt_dyst p with
  | None, None => Ret tt
  | None, Some _ => Stop (Bad Symtab_missing)
  | Some _, None => Ret tt
  | Some st, Some dyst =>
      _ ← check_group st (dysymtab_command_ilocalsym dyst) (dysymtab_command_nlocalsym dyst);
      _ ← check_group st (dysymtab_command_iextdefsym dyst) (dysymtab_command_nextdefsym dyst);
      _ ← check_group st (dysymtab_command_iundefsym dyst) (dysymtab_command_nundefsym dyst);
      _ ← bad_if (match pt_rc p with
                  | Some rc => dysymtab_command_nmodtab dyst <? routines_command_init_module rc
                  | None => false end) Module_outside;
      _ ← bad_if (match pt_rc64 p with
                  | Some rc64 =>
                      dysymtab_command_nmodtab dyst <? routines_command_64_init_module rc64
                  | None => false end) Module_outside;
      bad_if (match pt_hints p with
              | Some hints => negb (twolevel_hints_command_nhints hints =?
                                    dysymtab_command_nundefsym dyst)
              | None => false end) Hints_differ
  end.
End file.

(** ** check_Mach_O *)

(** The header, swapped where it is, with the number of bytes of the headers. *)
Definition check_header (is_64 : bool) (m : mem) : outcome mach_o_failure (mem * header) :=
  if is_64 then
    '(m, mh64) ← swap_load mach_header_64_assigns ld_mach_header_64 sizeof_mach_header_64 0 m;
    Ret (m, {| hd_64 := true; hd_cputype := mach_header_64_cputype mh64;
               hd_filetype := mach_header_64_filetype mh64; hd_ncmds := mach_header_64_ncmds mh64;
               hd_sizeofcmds := mach_header_64_sizeofcmds mh64;
               hd_flags := mach_header_64_flags mh64 |})
  else
    '(m, mh) ← swap_load mach_header_assigns ld_mach_header sizeof_mach_header 0 m;
    Ret (m, {| hd_64 := false; hd_cputype := mach_header_cputype mh;
               hd_filetype := mach_header_filetype mh; hd_ncmds := mach_header_ncmds mh;
               hd_sizeofcmds := mach_header_sizeofcmds mh; hd_flags := mach_header_flags mh |}).

(** [Ret] is CHECK_GOOD, with the file as it is now; [fat_cputype] is that of
    the fat file the object file is in. *)
Definition check_Mach_O (is_64 : bool) (fat_cputype : option cpu_type_t) (m : mem)
    : outcome mach_o_failure (mem * check_state) :=
  let size := Z.of_nat (length m) in
  '(m, hd) ← check_header is_64 m;
  let big_size := u64 (hd_sizeofcmds hd + Z.of_nat (hd_size is_64)) in
  _ ← bad_if (size <? big_size) Headers_past_end;
  let sizeofhdrs := u32 big_size in
  elements ← add_element 0 sizeofhdrs "Mach-O headers" [];
  _ ← bad_if (match fat_cputype with
              | Some cputype => negb (cputype =? hd_cputype hd)
              | None => false end) Fat_cputype_differs;
  '(big_load_end, m, s) ← check_lcs size sizeofhdrs hd (Z.to_nat (hd_ncmds hd)) 0 m
                            (mk_state elements no_pointers []);
  _ ← check_pointers (cs_pointers s);
  _ ← bad_if (negb (hd_sizeofcmds hd =? big_load_end)) Sizeofcmds_inconsistent;
  Ret (m, s).
End check.
