(* ===== verification/CheckFrame.v ===== *)
(** * What check_Mach_O changes and reads

    The assignments to a structure change bytes of that structure only, and a
    structure that was swapped is read by the host as the other host read it
    before.  The two runs of the check, on the host of one byte sex with
    swapping and on the other without, are compared with [agrees]. *)

From Stdlib Require Import ZArith Lia Bool.
From Stdlib Require Import Init.Byte.
From stdpp Require Import base option numbers strings list.
From S2P Require Import Prelude CInt CpuTypes LoaderH ByteSex HeaderSwap LoadCmdSwap.
From S2P Require Import InPlace InPlaceSpec Assigns SwapHeaders SwapHeadersSpec SwapInPlaceSpec.
From S2P Require Import Overlap CheckMachO.

(** ** Frames *)

(** [m'] differs from [m] inside of [a, b) only. *)
Definition changes (a b : nat) (m m' : mem) : Prop :=
  length m' = length m /\ forall i, (i < a \/ b <= i)%nat -> m' !! i = m !! i.

Lemma changes_refl a b m : changes a b m m.
Proof. done. Qed.

Lemma changes_trans a b m1 m2 m3 : changes a b m1 m2 -> changes a b m2 m3 -> changes a b m1 m3.
Proof. intros [Hl1 H1] [Hl2 H2]. split; [congruence|]. intros i Hi. by rewrite H2, H1. Qed.

Lemma changes_weaken a b a' b' m m' :
  changes a b m m' -> (a' <= a)%nat -> (b <= b')%nat -> changes a' b' m m'.
Proof. intros [Hl H] Ha Hb. split; [done|]. intros i Hi. apply H. lia. Qed.

Lemma write_changes m o bs :
  (o + length bs <= length m)%nat -> changes o (o + length bs) m (write m o bs).
Proof.
  intros H. unfold write. split.
  - rewrite !length_app, length_take, length_drop. lia.
  - intros i Hi. by apply write_outside.
Qed.

Lemma st_u_changes n h v m o : (o + n <= length m)%nat -> changes o (o + n) m (st_u n h v m o).
Proof.
  intros H. unfold st_u.
  assert (Hn : length (byte_of <$> mem_bytes h n v) = n).
  { by rewrite length_fmap, length_mem_bytes. }
  rewrite <- Hn at 1. apply write_changes. by rewrite Hn.
Qed.

(** Where an assignment ends. *)
Definition assign_end (a : assign) : nat :=
  match a with
  | SHORT o | SHORT_BY_INT o => o + 2
  | INT o => o + 4
  | LONG_LONG o | DOUBLE o => o + 8
  | INT_FROM o src => Nat.max (o + 4) (src + 4)
  | EXTENDED o => o + 12
  end.

Lemma in_bounds_true m o n : (o + n <= length m)%nat -> in_bounds m o n = true.
Proof. apply Nat.leb_le. Qed.

Lemma rev_at_changes m o n : (o + n <= length m)%nat -> changes o (o + n) m (rev_at m o n).
Proof.
  intros H. split; [by apply rev_at_length|]. intros i Hi. by apply rev_at_outside.
Qed.

Lemma do_assign_changes h base a m size :
  (assign_end a <= size)%nat -> (base + size <= length m)%nat ->
  exists m', do_assign h base a m = Some m' /\ changes base (base + size) m m'.
Proof.
  intros Ha Hm. destruct (assign_span a) as [[o n]|] eqn:Hs.
  - assert (He : (o + n <= size)%nat).
    { destruct a; simplify_eq/=; done. }
    rewrite (do_assign_rev h base a o n m Hs), in_bounds_true by lia.
    eexists. split; [done|]. eapply changes_weaken; [apply rev_at_changes; lia|lia|lia].
  - destruct a; try done; cbn [do_assign assign_end] in *;
      rewrite ?in_bounds_true by lia; cbn [andb]; eexists; (split; [done|]);
      (eapply changes_weaken; [apply st_u_changes; lia|lia|lia]).
Qed.

Definition assigns_within (l : list assign) (size : nat) : bool :=
  forallb (fun a => assign_end a <=? size)%nat l.

Lemma do_assigns_changes h base l m size :
  assigns_within l size = true -> (base + size <= length m)%nat ->
  exists m', do_assigns h base l m = Some m' /\ changes base (base + size) m m'.
Proof.
  revert m. induction l as [|a l IH]; intros m Hl Hm; [by exists m|].
  cbn [assigns_within forallb] in Hl. apply andb_true_iff in Hl as [Ha%Nat.leb_le Hl].
  destruct (do_assign_changes h base a m size Ha Hm) as (m1 & Hm1 & Hc1).
  destruct (IH m1 Hl) as (m2 & Hm2 & Hc2); [destruct Hc1 as [-> _]; done|].
  exists m2. cbn [do_assigns]. rewrite Hm1. split; [done|]. by eapply changes_trans.
Qed.

(** ** Structures that were swapped *)

(** The two images are the same from [o] on. *)
Definition same_from (o : nat) (m m' : mem) : Prop :=
  length m' = length m /\ forall i, (o <= i)%nat -> m' !! i = m !! i.

Lemma same_from_weaken o o' m m' : same_from o m m' -> (o <= o')%nat -> same_from o' m m'.
Proof. intros [Hl H] Ho. split; [done|]. intros i Hi. apply H. lia. Qed.

Lemma same_from_changes a b m m' m2 :
  same_from a m m' -> changes a b m' m2 -> same_from b m m2 \/ (b < a)%nat.
Proof.
  intros [Hl H] [Hl2 H2]. destruct (decide (b < a)%nat); [by right|left].
  split; [congruence|]. intros i Hi. rewrite H2 by lia. apply H. lia.
Qed.

Lemma same_ld_u o m m' n h k :
  same_from o m m' -> (o <= k)%nat -> ld_u n h m' k = ld_u n h m k.
Proof. intros [_ H] Hk. apply ld_u_ext. intros i Hi. apply H. lia. Qed.

Lemma same_bytes_at o m m' k n :
  same_from o m m' -> (o <= k)%nat -> bytes_at m' k n = bytes_at m k n.
Proof.
  intros [_ H] Hk. unfold bytes_at. apply list_fmap_ext. intros j i Hi.
  apply lookup_seq in Hi as [-> Hi]. unfold byte_at. rewrite !nth_lookup, H by lia. done.
Qed.

(** After the assignments [l] the host reads with [ld] what the other host
    read before; [pr] is what of it. *)
Definition reread {A B} (ld : host -> mem -> nat -> A) (pr : A -> B) (l : list assign) (size : nat)
    : Prop :=
  assigns_within l size = true /\
  forall h m m1 m' base,
    same_from base m m1 -> (base + size <= length m)%nat -> do_assigns h base l m1 = Some m' ->
    pr (ld h m' base) = pr (ld (other h) m base).

Lemma reread_plain {A B} (ld : host -> mem -> nat -> A) (pr : A -> B) l size :
  plain l && (extent l <=? size)%nat && assigns_within l size = true ->
  (forall h m m1 base, same_from base m m1 -> (base + extent l <= length m1)%nat ->
    pr (ld h (reverse_spans (spans_at base l) m1) base) = pr (ld (other h) m base)) ->
  reread ld pr l size.
Proof.
  intros [[Hp He%Nat.leb_le]%andb_true_iff Hw]%andb_true_iff Hread. split; [done|].
  intros h m m1 m' base Hs Hlen Hdo. destruct Hs as [Hl Hs].
  rewrite do_assigns_plain in Hdo by (done || lia). injection Hdo as <-.
  apply Hread; [by split|lia].
Qed.

#[local] Arguments spans_at : simpl never.
#[local] Arguments bytes_at : simpl never.

Ltac reread :=
  apply reread_plain; [reflexivity|]; intros h m m1 base Hs Hlen;
  match goal with |- ?pr (?ld _ _ _) = _ => unfold ld end; cbn; unfold ld_i32;
  rewrite ?bytes_between, ?byte_between by (reflexivity || assumption);
  rewrite ?field_reread by (reflexivity || assumption);
  rewrite ?(same_ld_u base m m1), ?(same_bytes_at base m m1) by (assumption || lia);
  reflexivity.

Lemma reread_mach_header : reread ld_mach_header id mach_header_assigns sizeof_mach_header.
Proof. reread. Qed.
Lemma reread_mach_header_64 : reread ld_mach_header_64 id mach_header_64_assigns sizeof_mach_header_64.
Proof. reread. Qed.
Lemma reread_segment_command : reread ld_segment_command id segment_command_assigns sizeof_segment_command.
Proof. reread. Qed.
Lemma reread_segment_command_64 : reread ld_segment_command_64 id segment_command_64_assigns sizeof_segment_command_64.
Proof. reread. Qed.
Lemma reread_section : reread ld_section id section_assigns sizeof_section.
Proof. reread. Qed.
Lemma reread_symtab_command : reread ld_symtab_command id symtab_command_assigns sizeof_symtab_command.
Proof. reread. Qed.
Lemma reread_dysymtab_command : reread ld_dysymtab_command id dysymtab_command_assigns sizeof_dysymtab_command.
Proof. reread. Qed.
Lemma reread_routines_command : reread ld_routines_command id routines_command_assigns sizeof_routines_command.
Proof. reread. Qed.
Lemma reread_routines_command_64 : reread ld_routines_command_64 id routines_command_64_assigns sizeof_routines_command_64.
Proof. reread. Qed.
Lemma reread_twolevel_hints_command : reread ld_twolevel_hints_command id twolevel_hints_command_assigns sizeof_twolevel_hints_command.
Proof. reread. Qed.
Lemma reread_linkedit_data_command : reread ld_linkedit_data_command id linkedit_data_command_assigns sizeof_linkedit_data_command.
Proof. reread. Qed.
Lemma reread_build_version_command : reread ld_build_version_command id build_version_command_assigns sizeof_build_version_command.
Proof. reread. Qed.
Lemma reread_build_tool_version : reread ld_build_tool_version id build_tool_version_assigns sizeof_build_tool_version.
Proof. reread. Qed.
Lemma reread_encryption_info_command : reread ld_encryption_info_command id encryption_info_command_assigns sizeof_encryption_info_command.
Proof. reread. Qed.
Lemma reread_linker_option_command : reread ld_linker_option_command id linker_option_command_assigns sizeof_linker_option_command.
Proof. reread. Qed.
Lemma reread_dyld_info_command : reread ld_dyld_info_command id dyld_info_command_assigns sizeof_dyld_info_command.
Proof. reread. Qed.
Lemma reread_prebind_cksum_command : reread ld_prebind_cksum_command id prebind_cksum_command_assigns sizeof_prebind_cksum_command.
Proof. reread. Qed.
Lemma reread_uuid_command : reread ld_uuid_command id uuid_command_assigns sizeof_uuid_command.
Proof. reread. Qed.
Lemma reread_symseg_command : reread ld_symseg_command id symseg_command_assigns sizeof_symseg_command.
Proof. reread. Qed.
Lemma reread_fvmlib_command : reread ld_fvmlib_command id fvmlib_command_assigns sizeof_fvmlib_command.
Proof. reread. Qed.
Lemma reread_dylib_command : reread ld_dylib_command id dylib_command_assigns sizeof_dylib_command.
Proof. reread. Qed.
Lemma reread_sub_framework_command : reread ld_sub_framework_command id sub_framework_command_assigns sizeof_sub_framework_command.
Proof. reread. Qed.
Lemma reread_sub_umbrella_command : reread ld_sub_umbrella_command id sub_umbrella_command_assigns sizeof_sub_umbrella_command.
Proof. reread. Qed.
Lemma reread_sub_library_command : reread ld_sub_library_command id sub_library_command_assigns sizeof_sub_library_command.
Proof. reread. Qed.
Lemma reread_sub_client_command : reread ld_sub_client_command id sub_client_command_assigns sizeof_sub_client_command.
Proof. reread. Qed.
Lemma reread_prebound_dylib_command : reread ld_prebound_dylib_command id prebound_dylib_command_assigns sizeof_prebound_dylib_command.
Proof. reread. Qed.
Lemma reread_dylinker_command : reread ld_dylinker_command id dylinker_command_assigns sizeof_dylinker_command.
Proof. reread. Qed.
Lemma reread_thread_command : reread ld_thread_command id thread_command_assigns sizeof_thread_command.
Proof. reread. Qed.
Lemma reread_entry_point_command : reread ld_entry_point_command id entry_point_command_assigns sizeof_entry_point_command.
Proof. reread. Qed.
Lemma reread_source_version_command : reread ld_source_version_command id source_version_command_assigns sizeof_source_version_command.
Proof. reread. Qed.
Lemma reread_ident_command : reread ld_ident_command id ident_command_assigns sizeof_ident_command.
Proof. reread. Qed.
Lemma reread_rpath_command : reread ld_rpath_command id rpath_command_assigns sizeof_rpath_command.
Proof. reread. Qed.
Lemma reread_note_command : reread ld_note_command id note_command_assigns sizeof_note_command.
Proof. reread. Qed.
Lemma reread_fileset_entry_command : reread ld_fileset_entry_command id fileset_entry_command_assigns sizeof_fileset_entry_command.
Proof. reread. Qed.

(** Of a section with 64 bits [reserved3] is not swapped. *)
Definition section_64_checked (s : section_64) : Z * Z * Z * Z * Z :=
  (section_64_size s, section_64_offset s, section_64_reloff s, section_64_nreloc s,
   section_64_flags s).

Lemma reread_section_64 : reread ld_section_64 section_64_checked section_64_assigns sizeof_section_64.
Proof. reread. Qed.

(** Of the version commands [sdk] is not swapped. *)
Definition version_min_checked (vers : version_min_command) : Z * Z :=
  (version_min_command_cmd vers, version_min_command_cmdsize vers).

Lemma reread_version_min_command :
  reread ld_version_min_command version_min_checked version_min_command_assigns
    sizeof_version_min_command.
Proof. reread. Qed.

(** Of an encrypted segment of a 64-bit file [cryptid] is wrong. *)
Definition encryption_64_checked (e : encryption_info_command_64) : Z * Z * Z :=
  (encryption_info_command_64_cmdsize e, encryption_info_command_64_cryptoff e,
   encryption_info_command_64_cryptsize e).

Lemma reread_encryption_info_command_64 :
  reread ld_encryption_info_command_64 encryption_64_checked encryption_info_command_64_assigns
    sizeof_encryption_info_command_64.
Proof.
  split; [done|]. intros h m m1 m' base Hs Hlen Hdo.
  assert (Hl : (base + 24 <= length m1)%nat) by (destruct Hs as [-> _]; done).
  change encryption_info_command_64_assigns with (encryption_info_command_assigns ++ [INT_FROM 16 20])
    in Hdo.
  destruct reread_encryption_info_command as [Hw Hread].
  destruct (do_assigns_changes h base encryption_info_command_assigns m1
    sizeof_encryption_info_command) as (m2 & Hdo2 & Hc); [done|unfold sizeof_encryption_info_command; lia|].
  assert (Happ : do_assign h base (INT_FROM 16 20) m2 = Some m').
  { revert Hdo Hdo2. clear. generalize encryption_info_command_assigns. intros l. revert m1.
    induction l as [|a l IH]; intros m1.
    - intros Hdo [= <-]. cbn [app do_assigns] in Hdo. by destruct (do_assign h base _ m1).
    - cbn [app do_assigns]. destruct (do_assign h base a m1); [apply IH|done]. }
  specialize (Hread h m m1 m2 base Hs). unfold sizeof_encryption_info_command in Hread.
  specialize (Hread ltac:(change sizeof_encryption_info_command_64 with 24%nat in Hlen; lia) Hdo2).
  assert (Hc2 : changes (base + 16) (base + 20) m2 m').
  { destruct Hc as [Hl2 _]. cbn [do_assign] in Happ.
    rewrite !in_bounds_true in Happ by lia. injection Happ as <-.
    replace (base + 20)%nat with (base + 16 + 4)%nat by lia. apply st_u_changes. lia. }
  assert (Hu : forall o, (o + 4 <= 16)%nat -> ld_u32 h m' (base + o) = ld_u32 h m2 (base + o)).
  { intros o Ho. apply ld_u_ext. intros i Hi. apply Hc2. lia. }
  unfold encryption_64_checked, ld_encryption_info_command_64. cbn.
  rewrite !Hu by lia.
  pose proof (f_equal encryption_info_command_cmdsize Hread) as H1.
  pose proof (f_equal encryption_info_command_cryptoff Hread) as H2.
  pose proof (f_equal encryption_info_command_cryptsize Hread) as H3.
  cbn in H1, H2, H3. by rewrite H1, H2, H3.
Qed.

Lemma local_section : local_read ld_section id sizeof_section.
Proof. unfold sizeof_section. local_read. Qed.

Lemma local_section_64 : local_read ld_section_64 section_64_checked sizeof_section_64.
Proof. unfold sizeof_section_64. local_read. Qed.

(** An array of structures. *)
Lemma do_array_changes l size n h m base :
  assigns_within l size = true -> (base + n * size <= length m)%nat ->
  exists m', do_array h base size n l m = Some m' /\ changes base (base + n * size) m m'.
Proof.
  intros Hl. revert m base. induction n as [|n IH]; intros m base Hm; [by exists m|].
  destruct (do_assigns_changes h base l m size Hl) as (m1 & Hm1 & Hc1); [simpl in Hm; lia|].
  destruct (IH m1 (base + size)%nat) as (m2 & Hm2 & Hc2);
    [destruct Hc1 as [-> _]; simpl in Hm; lia|].
  exists m2. cbn [do_array]. rewrite Hm1. split; [done|].
  eapply changes_trans; (eapply changes_weaken; [done|simpl; lia..]).
Qed.

Lemma do_array_reread {A B} (ld : host -> mem -> nat -> A) (pr : A -> B) l size :
  reread ld pr l size -> local_read ld pr size -> forall n h m m1 m' base,
  same_from base m m1 -> (base + n * size <= length m)%nat ->
  do_array h base size n l m1 = Some m' ->
  forall i, (i < n)%nat ->
    pr (ld h m' (base + i * size)%nat) = pr (ld (other h) m (base + i * size)%nat).
Proof.
  intros [Hw Hread] Hlocal n h m. induction n as [|n IH]; intros m1 m' base Hs Hm Hdo i Hi; [lia|].
  pose proof Hs as [Hl _].
  destruct (do_assigns_changes h base l m1 size Hw) as (m2 & Hm2 & Hc); [simpl in Hm; lia|].
  cbn [do_array] in Hdo. rewrite Hm2 in Hdo. cbn [mbind option_bind] in Hdo.
  assert (Hs2 : same_from (base + size) m m2)
    by (destruct (same_from_changes _ _ _ _ _ Hs Hc) as [?|?]; [done|lia]).
  destruct i as [|i].
  - rewrite Nat.mul_0_l, Nat.add_0_r. destruct (do_array_changes l size n h m2 (base + size) Hw)
      as (m3 & Hm3 & Hc3); [destruct Hc as [-> _]; simpl in Hm; lia|].
    rewrite Hdo in Hm3. injection Hm3 as <-.
    rewrite (Hlocal h m2 m' base) by (intros i0 ?; apply Hc3; lia).
    apply (Hread h m m1 m2 base); [done|simpl in Hm; lia|done].
  - replace (base + S i * size)%nat with (base + size + i * size)%nat by (simpl; lia).
    apply (IH m2 m'); [done|simpl in Hm; lia|done|lia].
Qed.

(** ** Two runs *)

(** The files that one host does not check for the lack of a routine. *)
Definition cannot_swap (f : mach_o_failure) : Prop :=
  f = Bad Flavor_unknown \/ f = Bad Cputype_unknown.

(** The first run ends as the second one, unless it cannot swap. *)
Definition agrees {A B} (R : A -> B -> Prop) (o1 : outcome mach_o_failure A)
    (o2 : outcome mach_o_failure B) : Prop :=
  match o1 with
  | Ret a => exists b, o2 = Ret b /\ R a b
  | Stop f => cannot_swap f \/ o2 = Stop f
  end.

Lemma agrees_bind {A1 A2 B1 B2} (R : A1 -> A2 -> Prop) (S : B1 -> B2 -> Prop) o1 o2 k1 k2 :
  agrees R o1 o2 -> (forall a1 a2, o1 = Ret a1 -> o2 = Ret a2 -> R a1 a2 -> agrees S (k1 a1) (k2 a2)) ->
  agrees S (o1 ≫= k1) (o2 ≫= k2).
Proof.
  intros Ho Hk. destruct o1 as [a1|f].
  - destruct Ho as (a2 & -> & Hr). by apply Hk.
  - destruct Ho as [Ho| ->]; [by left|by right].
Qed.

Lemma agrees_same {A B1 B2} (S : B1 -> B2 -> Prop) (o : outcome mach_o_failure A) k1 k2 :
  (forall a, o = Ret a -> agrees S (k1 a) (k2 a)) -> agrees S (o ≫= k1) (o ≫= k2).
Proof. intros Hk. destruct o as [a|f]; [by apply Hk|by right]. Qed.

Lemma agrees_bad_if {B1 B2} (S : B1 -> B2 -> Prop) c f k1 k2 :
  (c = false -> agrees S (k1 tt) (k2 tt)) -> agrees S (bad_if c f ≫= k1) (bad_if c f ≫= k2).
Proof. intros Hk. destruct c; [by right|by apply Hk]. Qed.

(** Loading a structure. *)
Lemma agrees_load {A B C1 C2} (ld : host -> mem -> nat -> A) (pr : A -> B) l size
    (S : C1 -> C2 -> Prop) h o m m1 k1 k2 :
  reread ld pr l size -> same_from o m m1 -> (o + size <= length m)%nat ->
  (forall m' x, same_from (o + size) m m' -> changes o (o + size) m1 m' ->
     pr x = pr (ld (other h) m o) -> agrees S (k1 (m', x)) (k2 (m, ld (other h) m o))) ->
  agrees S (swap_load h true l ld size o m1 ≫= k1) (swap_load (other h) false l ld size o m ≫= k2).
Proof.
  intros [Hw Hread] Hs Hm Hk. pose proof Hs as [Hl _].
  destruct (do_assigns_changes h o l m1 size Hw) as (m' & Hdo & Hc); [lia|].
  assert (Hs' : same_from (o + size) m m')
    by (destruct (same_from_changes _ _ _ _ _ Hs Hc) as [?|?]; [done|lia]).
  unfold swap_load, swap_at, load_at. rewrite Hdo. cbn [or_stop mbind outcome_bind].
  destruct Hs' as [Hl' He']. rewrite !in_bounds_true by lia. cbn [mbind outcome_bind].
  apply Hk; [by split|done|]. by apply (Hread h m m1).
Qed.

Lemma agrees_swap {C1 C2} l size (S : C1 -> C2 -> Prop) h o m m1 k1 k2 :
  assigns_within l size = true -> same_from o m m1 -> (o + size <= length m)%nat ->
  (forall m', same_from (o + size) m m' -> agrees S (k1 m') (k2 m)) ->
  agrees S (swap_at h true l o m1 ≫= k1) (swap_at (other h) false l o m ≫= k2).
Proof.
  intros Hw Hs Hm Hk. pose proof Hs as [Hl _].
  destruct (do_assigns_changes h o l m1 size Hw) as (m' & Hdo & Hc); [lia|].
  unfold swap_at. rewrite Hdo. cbn [or_stop mbind outcome_bind]. apply Hk.
  destruct (same_from_changes _ _ _ _ _ Hs Hc) as [?|?]; [done|lia].
Qed.

Lemma agrees_swap_array {C1 C2} l size (S : C1 -> C2 -> Prop) n h o m m1 k1 k2 :
  assigns_within l size = true -> same_from o m m1 -> (o + n * size <= length m)%nat ->
  (forall m', do_array h o size n l m1 = Some m' -> same_from (o + n * size) m m' ->
     agrees S (k1 m') (k2 m)) ->
  agrees S (swap_array_at h true l o size n m1 ≫= k1)
    (swap_array_at (other h) false l o size n m ≫= k2).
Proof.
  intros Hw Hs Hm Hk. pose proof Hs as [Hl _].
  destruct (do_array_changes l size n h m1 o Hw) as (m' & Hdo & Hc); [lia|].
  unfold swap_array_at. rewrite Hdo. cbn [or_stop mbind outcome_bind]. apply Hk; [done|].
  destruct (same_from_changes _ _ _ _ _ Hs Hc) as [?|?]; [done|lia].
Qed.

Lemma agrees_load_all {A C1 C2} (ld : host -> mem -> nat -> A) l size
    (S : C1 -> C2 -> Prop) h o m m1 k1 k2 :
  reread ld id l size -> same_from o m m1 -> (o + size <= length m)%nat ->
  (forall m', same_from (o + size) m m' ->
     agrees S (k1 (m', ld (other h) m o)) (k2 (m, ld (other h) m o))) ->
  agrees S (swap_load h true l ld size o m1 ≫= k1) (swap_load (other h) false l ld size o m ≫= k2).
Proof.
  intros Hr Hs Hm Hk. eapply (agrees_load ld id); [done..|].
  intros m' x Hs' _ Hx. change (x = ld (other h) m o) in Hx. subst x. by apply Hk.
Qed.

Create HintDb reread.
#[export] Hint Resolve reread_mach_header reread_mach_header_64 reread_segment_command
  reread_segment_command_64 reread_section reread_symtab_command reread_dysymtab_command
  reread_routines_command reread_routines_command_64 reread_twolevel_hints_command
  reread_linkedit_data_command reread_build_version_command reread_encryption_info_command
  reread_linker_option_command reread_dyld_info_command reread_prebind_cksum_command
  reread_uuid_command reread_symseg_command reread_fvmlib_command reread_dylib_command
  reread_sub_framework_command reread_sub_umbrella_command reread_sub_library_command
  reread_sub_client_command reread_prebound_dylib_command reread_dylinker_command
  reread_thread_command reread_rpath_command reread_note_command
  reread_fileset_entry_command : reread.
