(* ===== verification/CheckMachOSex.v ===== *)
(** * A file is checked alike on hosts of both byte sexes

    The check on a host that swaps the file ends as the check on a host of the
    byte sex of the file: with the same failure, or accepting it with the same
    parts and pointers.  Only thread states a host has no routine for are
    refused when the file must be swapped and skipped when it need not. *)

From Stdlib Require Import ZArith Lia Bool.
From Stdlib Require Import Init.Byte.
From stdpp Require Import base option numbers strings list.
From S2P Require Import Prelude CInt CpuTypes LoaderH ByteSex HeaderSwap LoadCmdSwap.
From S2P Require Import InPlace InPlaceSpec Assigns SwapHeaders SwapHeadersSpec SwapInPlaceSpec.
From S2P Require Import Overlap CheckMachO CheckFrame.

(** The sections fill the command. *)
Lemma sections_fit (n each base : Z) :
  in_uw 32 n -> 0 <= each <= 80 -> 0 <= base <= 80 ->
  u64 (u64 (n * each) + base) = n * each + base.
Proof.
  intros Hn He Hb. unfold in_uw in Hn.
  assert (0 <= n * each <= 2 ^ 32 * 80)
    by (split; [apply Z.mul_nonneg_nonneg; lia|apply Z.mul_le_mono_nonneg; lia]).
  rewrite (uw_id 64 (n * each)), uw_id by (unfold in_uw; lia). done.
Qed.

Section sexes.
Context (swap_bitfields : bitfield_state -> host -> list byte -> list byte).
(** A routine for a state changes the bytes of the state. *)
Context (Hbits : forall st h bs, length (swap_bitfields st h bs) = length bs).
Context (h : host) (size sizeofhdrs : Z) (hd : header).

Section command.
Context (lc : nat) (cmd cmdsize : Z) (m : mem).
Context (Hcmd : cmdsize = ld_u32 (other h) m (lc + 4)).
Context (Hsize : 0 <= cmdsize) (Hin : (lc + Z.to_nat cmdsize <= length m)%nat).

(** The states are the same, and the file behind the command. *)
Definition after (o1 o2 : mem * check_state) : Prop :=
  fst o2 = m /\ snd o1 = snd o2 /\ same_from (lc + Z.to_nat cmdsize) m (fst o1).

Definition alike (c1 c2 : handler) : Prop :=
  forall m1 s, same_from lc m m1 -> agrees after (c1 m1 s) (c2 m s).

Lemma after_Ret o m1 s : same_from o m m1 -> (o <= lc + Z.to_nat cmdsize)%nat ->
  agrees after (Ret (m1, s)) (Ret (m, s)).
Proof. intros Hs Ho. exists (m, s). split; [done|]. split; [done|]. split; [done|]. by eapply same_from_weaken. Qed.

(** The commands that are swapped only. *)
Ltac swap_alike c n :=
  unfold c, check_small; intros m1 s Hs; apply agrees_bad_if; intros ?%Z.ltb_ge;
  apply (agrees_swap _ n); [reflexivity|exact Hs|lia|intros ? ?; eapply after_Ret; [eassumption|lia]].

(** Goes through the statements of a case. *)
Ltac statement :=
  first
  [ apply agrees_bad_if; intros ?
  | eapply agrees_load_all; [solve [eauto with reread]|eassumption|lia|intros ? ?; cbn beta iota]
  | apply agrees_same; intros ? ?
  | eapply after_Ret; [eassumption|lia] ].

Ltac case_alike c :=
  unfold c, check_small; intros m1 s Hs; cbv zeta;
  repeat match goal with
  | H : (_ <? _) = false |- _ => apply Z.ltb_ge in H
  | H : negb (_ =? _) = false |- _ => apply negb_false_iff, Z.eqb_eq in H
  | _ => statement
  end.

Lemma symtab_alike :
  alike (case_symtab h true size hd lc cmd cmdsize) (case_symtab (other h) false size hd lc cmd cmdsize).
Proof. case_alike case_symtab. Qed.

Lemma dysymtab_alike :
  alike (case_dysymtab h true size hd lc cmd cmdsize) (case_dysymtab (other h) false size hd lc cmd cmdsize).
Proof. case_alike case_dysymtab. Qed.

Lemma routines_alike :
  alike (case_routines h true lc cmd cmdsize) (case_routines (other h) false lc cmd cmdsize).
Proof. case_alike case_routines. Qed.

Lemma routines_64_alike :
  alike (case_routines_64 h true lc cmd cmdsize) (case_routines_64 (other h) false lc cmd cmdsize).
Proof. case_alike case_routines_64. Qed.

Lemma twolevel_hints_alike :
  alike (case_twolevel_hints h true size lc cmd cmdsize) (case_twolevel_hints (other h) false size lc cmd cmdsize).
Proof. case_alike case_twolevel_hints. Qed.

Lemma linkedit_data_alike :
  alike (case_linkedit_data h true size lc cmd cmdsize) (case_linkedit_data (other h) false size lc cmd cmdsize).
Proof. case_alike case_linkedit_data. Qed.

Lemma dyld_info_alike :
  alike (case_dyld_info h true size lc cmdsize) (case_dyld_info (other h) false size lc cmdsize).
Proof. case_alike case_dyld_info. Qed.

Lemma symseg_alike :
  alike (case_symseg h true size lc cmdsize) (case_symseg (other h) false size lc cmdsize).
Proof. case_alike case_symseg. Qed.

Lemma encryption_info_alike :
  alike (case_encryption_info h true size lc cmdsize) (case_encryption_info (other h) false size lc cmdsize).
Proof. case_alike case_encryption_info. Qed.

Lemma linker_option_alike :
  alike (case_linker_option h true lc cmdsize) (case_linker_option (other h) false lc cmdsize).
Proof. case_alike case_linker_option. Qed.

Lemma prebind_cksum_alike :
  alike (case_prebind_cksum h true lc cmd cmdsize) (case_prebind_cksum (other h) false lc cmd cmdsize).
Proof. case_alike case_prebind_cksum. Qed.

Lemma uuid_alike :
  alike (case_uuid h true lc cmd cmdsize) (case_uuid (other h) false lc cmd cmdsize).
Proof. case_alike case_uuid. Qed.

Lemma fvmlib_alike :
  alike (case_fvmlib h true lc cmdsize) (case_fvmlib (other h) false lc cmdsize).
Proof. case_alike case_fvmlib. Qed.

Lemma dylib_alike :
  alike (case_dylib h true lc cmdsize) (case_dylib (other h) false lc cmdsize).
Proof. case_alike case_dylib. Qed.

Lemma sub_framework_alike :
  alike (case_sub_framework h true lc cmdsize) (case_sub_framework (other h) false lc cmdsize).
Proof. case_alike case_sub_framework. Qed.

Lemma sub_umbrella_alike :
  alike (case_sub_umbrella h true lc cmdsize) (case_sub_umbrella (other h) false lc cmdsize).
Proof. case_alike case_sub_umbrella. Qed.

Lemma sub_library_alike :
  alike (case_sub_library h true lc cmdsize) (case_sub_library (other h) false lc cmdsize).
Proof. case_alike case_sub_library. Qed.

Lemma sub_client_alike :
  alike (case_sub_client h true lc cmdsize) (case_sub_client (other h) false lc cmdsize).
Proof. case_alike case_sub_client. Qed.

Lemma prebound_dylib_alike :
  alike (case_prebound_dylib h true lc cmdsize) (case_prebound_dylib (other h) false lc cmdsize).
Proof. case_alike case_prebound_dylib. Qed.

Lemma dylinker_alike :
  alike (case_dylinker h true lc cmdsize) (case_dylinker (other h) false lc cmdsize).
Proof. case_alike case_dylinker. Qed.

Lemma rpath_alike :
  alike (case_rpath h true lc cmdsize) (case_rpath (other h) false lc cmdsize).
Proof. case_alike case_rpath. Qed.

Lemma fileset_entry_alike :
  alike (case_fileset_entry h true lc cmdsize) (case_fileset_entry (other h) false lc cmdsize).
Proof. case_alike case_fileset_entry. Qed.

Lemma main_alike :
  alike (case_main h true lc cmdsize) (case_main (other h) false lc cmdsize).
Proof. swap_alike case_main sizeof_entry_point_command. Qed.

Lemma source_version_alike :
  alike (case_source_version h true lc cmdsize) (case_source_version (other h) false lc cmdsize).
Proof. swap_alike case_source_version sizeof_source_version_command. Qed.

Lemma ident_alike :
  alike (case_ident h true lc cmdsize) (case_ident (other h) false lc cmdsize).
Proof. swap_alike case_ident sizeof_ident_command. Qed.

Lemma note_alike :
  alike (case_note h true size lc cmdsize) (case_note (other h) false size lc cmdsize).
Proof. case_alike case_note. Qed.

(** The size of a command is compared after it was loaded. *)
Lemma version_min_macosx_alike :
  alike (case_version_min_macosx h true lc cmdsize) (case_version_min_macosx (other h) false lc cmdsize).
Proof.
  unfold case_version_min_macosx, check_small. intros m1 s Hs. cbv zeta.
  apply agrees_bad_if; intros Hc%Z.ltb_ge. apply agrees_bad_if; intros _.
  eapply (agrees_load _ version_min_checked); [apply reread_version_min_command|exact Hs|lia|].
  intros m' x Hs' _ Hx. cbn beta iota. unfold version_min_checked in Hx. injection Hx as H1 H2.
  rewrite H1, H2. apply agrees_bad_if; intros _. apply agrees_bad_if; intros _.
  eapply after_Ret; [exact Hs'|lia].
Qed.

Lemma version_min_alike :
  alike (case_version_min h true lc cmdsize) (case_version_min (other h) false lc cmdsize).
Proof.
  unfold case_version_min, check_small. intros m1 s Hs. cbv zeta.
  apply agrees_bad_if; intros Hc%Z.ltb_ge. do 2 (apply agrees_bad_if; intros _).
  eapply (agrees_load _ version_min_checked); [apply reread_version_min_command|exact Hs|lia|].
  intros m' x Hs' _ Hx. cbn beta iota. unfold version_min_checked in Hx. injection Hx as H1 H2.
  rewrite H1, H2. apply agrees_bad_if; intros _. eapply after_Ret; [exact Hs'|lia].
Qed.

Lemma encryption_info_64_alike :
  alike (case_encryption_info_64 h true size lc cmdsize)
    (case_encryption_info_64 (other h) false size lc cmdsize).
Proof.
  unfold case_encryption_info_64, check_small. intros m1 s Hs. cbv zeta.
  apply agrees_bad_if; intros Hc%Z.ltb_ge.
  eapply (agrees_load _ encryption_64_checked);
    [apply reread_encryption_info_command_64|exact Hs|lia|].
  intros m' x Hs' _ Hx. cbn beta iota. unfold encryption_64_checked in Hx. injection Hx as H1 H2 H3.
  rewrite H1, H2, H3. apply agrees_bad_if; intros _. apply agrees_same; intros _ _.
  eapply after_Ret; [exact Hs'|lia].
Qed.

Lemma build_version_alike :
  alike (case_build_version h true hd lc cmdsize) (case_build_version (other h) false hd lc cmdsize).
Proof.
  unfold case_build_version, check_small. intros m1 s Hs. cbv zeta.
  apply agrees_bad_if; intros Hc%Z.ltb_ge. apply agrees_bad_if; intros _.
  eapply agrees_load_all; [apply reread_build_version_command|exact Hs|lia|intros m' Hs'].
  cbn beta iota. apply agrees_bad_if; intros Hn%Z.ltb_ge.
  assert (Hbv : build_version_command_cmdsize (ld_build_version_command (other h) m lc) = cmdsize)
    by done.
  rewrite Hbv in Hn. pose proof (ld_u32_range (other h) m (lc + 20)) as Hr.
  change (in_uw 32 (build_version_command_ntools (ld_build_version_command (other h) m lc))) in Hr.
  set (n := build_version_command_ntools _) in *. unfold in_uw in Hr.
  assert (Hfit : (lc + sizeof_build_version_command + Z.to_nat n * sizeof_build_tool_version <=
                  lc + Z.to_nat cmdsize)%nat)
    by (unfold sizeof_build_version_command, sizeof_build_tool_version in *; lia).
  eapply agrees_swap_array; [reflexivity|exact Hs'|lia|]. intros m2 _ Hs2.
  apply agrees_bad_if; intros _. destruct (pt_bv1 (cs_pointers s)); eapply after_Ret; eauto.
Qed.

(** ** Segments *)

Lemma check_sections_alike sg n o m1 l :
  (o + n * sizeof_section <= length m)%nat -> length m1 = length m ->
  (forall i, (i < n)%nat -> ld_section h m1 (o + i * sizeof_section) =
                            ld_section (other h) m (o + i * sizeof_section)) ->
  check_sections h size sizeofhdrs hd sg n o m1 l =
  check_sections (other h) size sizeofhdrs hd sg n o m l.
Proof.
  revert o l. induction n as [|n IH]; intros o l Ho Hl He; [done|]. cbn [check_sections].
  unfold load_at. rewrite !in_bounds_true by (unfold sizeof_section, sizeof_section_64 in *; lia). cbn [mbind outcome_bind].
  specialize (He O ltac:(lia)) as H0. rewrite Nat.mul_0_l, Nat.add_0_r in H0. rewrite H0.
  destruct (check_section _ _ _ _ _ _); [|done]. cbn [mbind outcome_bind].
  apply IH; [lia|done|]. intros i Hi.
  replace (o + sizeof_section + i * sizeof_section)%nat with (o + S i * sizeof_section)%nat
    by lia. apply He. lia.
Qed.

Lemma check_section_64_checked sg64 s1 s2 l :
  section_64_checked s1 = section_64_checked s2 ->
  check_section_64 size sizeofhdrs hd sg64 s1 l = check_section_64 size sizeofhdrs hd sg64 s2 l.
Proof.
  unfold section_64_checked. intros [= H1 H2 H3 H4 H5]. unfold check_section_64.
  by rewrite H1, H2, H3, H4, H5.
Qed.

Lemma check_sections_64_alike sg64 n o m1 l :
  (o + n * sizeof_section_64 <= length m)%nat -> length m1 = length m ->
  (forall i, (i < n)%nat -> section_64_checked (ld_section_64 h m1 (o + i * sizeof_section_64)) =
     section_64_checked (ld_section_64 (other h) m (o + i * sizeof_section_64))) ->
  check_sections_64 h size sizeofhdrs hd sg64 n o m1 l =
  check_sections_64 (other h) size sizeofhdrs hd sg64 n o m l.
Proof.
  revert o l. induction n as [|n IH]; intros o l Ho Hl He; [done|]. cbn [check_sections_64].
  unfold load_at. rewrite !in_bounds_true by (unfold sizeof_section, sizeof_section_64 in *; lia). cbn [mbind outcome_bind].
  specialize (He O ltac:(lia)) as H0. rewrite Nat.mul_0_l, Nat.add_0_r in H0.
  rewrite (check_section_64_checked _ _ _ _ H0).
  destruct (check_section_64 _ _ _ _ _ _); [|done]. cbn [mbind outcome_bind].
  apply IH; [lia|done|]. intros i Hi.
  replace (o + sizeof_section_64 + i * sizeof_section_64)%nat
    with (o + S i * sizeof_section_64)%nat by lia. apply He. lia.
Qed.

Lemma segment_alike :
  alike (case_segment h true size sizeofhdrs hd lc cmdsize)
    (case_segment (other h) false size sizeofhdrs hd lc cmdsize).
Proof.
  unfold case_segment, check_small. intros m1 s Hs. cbv zeta.
  apply agrees_bad_if; intros Hc%Z.ltb_ge.
  eapply agrees_load_all; [apply reread_segment_command|exact Hs|lia|intros m' Hs'].
  cbn beta iota. apply agrees_bad_if; intros Hn%negb_false_iff%Z.eqb_eq.
  assert (Hsg : segment_command_cmdsize (ld_segment_command (other h) m lc) = cmdsize) by done.
  rewrite Hsg in Hn. pose proof (ld_u32_range (other h) m (lc + 48)) as Hr.
  change (in_uw 32 (segment_command_nsects (ld_segment_command (other h) m lc))) in Hr.
  set (n := segment_command_nsects _) in *. rewrite sections_fit in Hn by (done || vm_compute; done).
  unfold in_uw in Hr.
  assert (Hfit : (lc + sizeof_segment_command + Z.to_nat n * sizeof_section =
                  lc + Z.to_nat cmdsize)%nat)
    by (unfold sizeof_segment_command, sizeof_section in *; lia).
  apply agrees_same; intros _ _. apply agrees_bad_if; intros _.
  eapply agrees_swap_array; [reflexivity|exact Hs'|lia|]. intros m2 Hdo Hs2.
  rewrite (check_sections_alike _ _ _ m2).
  - apply agrees_same; intros l _. eapply after_Ret; [exact Hs2|lia].
  - lia.
  - apply Hs2.
  - intros i Hi. apply (do_array_reread ld_section id section_assigns sizeof_section
      reread_section local_section (Z.to_nat n) h m m' m2); [done|lia|done|done].
Qed.

Lemma segment_64_alike :
  alike (case_segment_64 h true size sizeofhdrs hd lc cmdsize)
    (case_segment_64 (other h) false size sizeofhdrs hd lc cmdsize).
Proof.
  unfold case_segment_64, check_small. intros m1 s Hs. cbv zeta.
  apply agrees_bad_if; intros Hc%Z.ltb_ge.
  eapply agrees_load_all; [apply reread_segment_command_64|exact Hs|lia|intros m' Hs'].
  cbn beta iota. apply agrees_bad_if; intros Hn%negb_false_iff%Z.eqb_eq.
  assert (Hsg : segment_command_64_cmdsize (ld_segment_command_64 (other h) m lc) = cmdsize) by done.
  rewrite Hsg in Hn. pose proof (ld_u32_range (other h) m (lc + 64)) as Hr.
  change (in_uw 32 (segment_command_64_nsects (ld_segment_command_64 (other h) m lc))) in Hr.
  set (n := segment_command_64_nsects _) in *.
  rewrite sections_fit in Hn by (done || vm_compute; done). unfold in_uw in Hr.
  assert (Hfit : (lc + sizeof_segment_command_64 + Z.to_nat n * sizeof_section_64 =
                  lc + Z.to_nat cmdsize)%nat)
    by (unfold sizeof_segment_command_64, sizeof_section_64 in *; lia).
  apply agrees_same; intros _ _.
  eapply agrees_swap_array; [reflexivity|exact Hs'|lia|]. intros m2 Hdo Hs2.
  rewrite (check_sections_64_alike _ _ _ m2).
  - apply agrees_same; intros l _. eapply after_Ret; [exact Hs2|lia].
  - lia.
  - apply Hs2.
  - intros i Hi. apply (do_array_reread ld_section_64 section_64_checked section_64_assigns
      sizeof_section_64 reread_section_64 local_section_64 (Z.to_nat n) h m m' m2);
      [done|lia|done|done].
Qed.
(** ** Thread states *)

Lemma agrees_word {C1 C2} (S : C1 -> C2 -> Prop) o m1 k1 k2 :
  same_from o m m1 -> (o + 4 <= length m)%nat ->
  (forall m', same_from (o + 4) m m' ->
     agrees S (k1 (m', ld_u32 (other h) m o)) (k2 (m, ld_u32 (other h) m o))) ->
  agrees S (swap_word h true o m1 ≫= k1) (swap_word (other h) false o m ≫= k2).
Proof.
  intros Hs Ho Hk. pose proof Hs as [Hl _]. unfold swap_word, load32, swap_at.
  rewrite !in_bounds_true by lia. cbn [or_stop mbind outcome_bind].
  destruct (do_assigns_changes h o [INT 0] m1 4) as (m' & -> & Hc); [done|lia|].
  cbn [or_stop mbind outcome_bind].
  rewrite SWAP_INT_reverse, byte_reverse_ld, (same_ld_u o m m1) by (done || lia). apply Hk.
  destruct (same_from_changes _ _ _ _ _ Hs Hc) as [?|?]; [done|lia].
Qed.

Definition state_within (c : Z * option state_swap) : bool :=
  match snd c with Some (Assigns l size) => assigns_within l size | _ => true end.

Lemma thread_cases_within cputype cases :
  thread_cases cputype = Some cases -> forallb state_within cases = true.
Proof.
  unfold thread_cases. intros H.
  repeat match type of H with (if ?c then _ else _) = _ => destruct c end;
    [injection H as <-; reflexivity..|done].
Qed.

Lemma swap_state_changes st o m1 :
  match st with Assigns l size => assigns_within l size = true | _ => True end ->
  (o + state_size st <= length m1)%nat ->
  exists m', swap_state swap_bitfields h st o m1 = Some m' /\ changes o (o + state_size st) m1 m'.
Proof.
  intros Hw Ho. destruct st as [l n|b n]; cbn [swap_state state_size] in *.
  - by apply do_assigns_changes.
  - rewrite in_bounds_true by done. eexists. split; [done|].
    assert (Hn : length (swap_bitfields b h (take n (drop o m1))) = n)
      by (rewrite Hbits, length_take, length_drop; lia).
    rewrite <- Hn at 1. apply write_changes. lia.
Qed.

Lemma check_flavors_alike fuel cases state p m1 s0 :
  forallb state_within cases = true -> (p <= length m)%nat ->
  same_from s0 m m1 -> (s0 <= state)%nat -> (s0 <= p)%nat ->
  agrees (fun m' m2 => m2 = m /\ same_from p m m')
    (check_flavors swap_bitfields h true fuel cases state p m1)
    (check_flavors swap_bitfields (other h) false fuel cases state p m).
Proof.
  intros Hcases Hp. revert state m1 s0. induction fuel as [|fuel IH]; intros state m1 s0 Hs Hs0 Hs0p;
    cbn [check_flavors]; destruct (Nat.leb_spec p state) as [Hle|Hlt].
  1,3: exists m; split; [done|]; split; [done|]; by eapply same_from_weaken.
  { by right. }
  apply (same_from_weaken _ state) in Hs; [|done].
  apply agrees_bad_if; intros H1%Nat.ltb_ge. apply agrees_word; [done|lia|]. intros m2 Hs2.
  cbn beta iota. apply agrees_bad_if; intros H2%Nat.ltb_ge.
  apply agrees_word; [done|lia|]. intros m3 Hs3. cbn beta iota.
  destruct (List.find _ cases) as [[f [st|]]|] eqn:Hf.
  - apply agrees_bad_if; intros _. apply agrees_bad_if; intros H3%Nat.ltb_ge.
    apply List.find_some in Hf as [Hfound _]. rewrite forallb_forall in Hcases.
    specialize (Hcases _ Hfound). pose proof Hs3 as [Hl3 _].
    destruct (swap_state_changes st (state + 4 + 4) m3) as (m4 & -> & Hc); [by destruct st|lia|].
    cbn [or_stop mbind outcome_bind].
    destruct (same_from_changes _ _ _ _ _ Hs3 Hc) as [Hs4|?]; [|lia].
    by apply (IH _ _ _ Hs4).
  - apply (IH _ _ _ Hs3); lia.
  - left. by left.
Qed.

Lemma thread_alike :
  alike (case_thread swap_bitfields h true hd lc cmdsize)
    (case_thread swap_bitfields (other h) false hd lc cmdsize).
Proof.
  unfold case_thread, check_small. intros m1 s Hs. cbv zeta.
  apply agrees_bad_if; intros Hc%Z.ltb_ge.
  eapply agrees_load_all; [apply reread_thread_command|exact Hs|lia|intros m' Hs'].
  cbn beta iota.
  assert (Hut : thread_command_cmdsize (ld_thread_command (other h) m lc) = cmdsize) by done.
  rewrite Hut. destruct (thread_cases (hd_cputype hd)) as [cases|] eqn:Hcases.
  - eapply agrees_bind.
    + eapply check_flavors_alike; [by eapply thread_cases_within|done|exact Hs'|lia|].
      unfold sizeof_thread_command in *. lia.
    + intros m2 m3 _ _ (-> & Hs2). eapply after_Ret; [exact Hs2|lia].
  - left. by right.
Qed.

(** ** Every command *)

Lemma switch_alike :
  alike (switch_cmd swap_bitfields h true size sizeofhdrs hd lc cmd cmdsize)
    (switch_cmd swap_bitfields (other h) false size sizeofhdrs hd lc cmd cmdsize).
Proof.
  unfold switch_cmd.
  repeat match goal with
  | |- alike (if ?c then _ else _) _ =>
      destruct c;
      [first [apply segment_alike|apply segment_64_alike|apply symtab_alike|apply dysymtab_alike
        |apply routines_alike|apply routines_64_alike|apply twolevel_hints_alike
        |apply linkedit_data_alike|apply version_min_macosx_alike|apply version_min_alike
        |apply build_version_alike|apply encryption_info_alike|apply encryption_info_64_alike
        |apply linker_option_alike|apply dyld_info_alike|apply prebind_cksum_alike
        |apply uuid_alike|apply symseg_alike|apply fvmlib_alike|apply dylib_alike
        |apply sub_framework_alike|apply sub_umbrella_alike|apply sub_library_alike
        |apply sub_client_alike|apply prebound_dylib_alike|apply dylinker_alike
        |apply thread_alike|apply main_alike|apply source_version_alike|apply ident_alike
        |apply rpath_alike|apply note_alike|apply fileset_entry_alike]|]
  end.
  intros m1 s _. by right.
Qed.
End command.

(** ** The loop *)

Section loop.
Context (m : mem).
Context (Hfit : (hd_size (hd_64 hd) + Z.to_nat (hd_sizeofcmds hd) <= length m)%nat).

(** Both runs are at the same command. *)
Definition at_command (o1 o2 : Z * mem * check_state) : Prop :=
  fst (fst o1) = fst (fst o2) /\ 0 <= fst (fst o2) /\ snd o1 = snd o2 /\
  snd (fst o2) = m /\
  same_from (hd_size (hd_64 hd) + Z.to_nat (fst (fst o2))) m (snd (fst o1)).

Lemma check_lc_alike e m1 s :
  0 <= e -> same_from (hd_size (hd_64 hd) + Z.to_nat e) m m1 ->
  agrees at_command (check_lc swap_bitfields h true size sizeofhdrs hd e m1 s)
    (check_lc swap_bitfields (other h) false size sizeofhdrs hd e m s).
Proof.
  intros He Hs. unfold check_lc. cbv zeta. apply agrees_bad_if; intros H1%Z.ltb_ge.
  set (lc := (hd_size (hd_64 hd) + Z.to_nat e)%nat) in *. pose proof Hs as [Hl _].
  unfold sizeof_load_command in *. unfold load_at.
  rewrite !in_bounds_true by (unfold lc; lia). cbn [mbind outcome_bind].
  assert (Hload : swap_load_command (ld_load_command h m1 lc) = ld_load_command (other h) m lc).
  { unfold swap_load_command, ld_load_command. cbn [load_command_cmd load_command_cmdsize].
    rewrite !SWAP_INT_reverse, !byte_reverse_ld, !(same_ld_u lc m m1) by (done || lia). done. }
  rewrite Hload. set (l := ld_load_command (other h) m lc).
  pose proof (ld_u32_range (other h) m (lc + 4)) as Hr.
  change (in_uw 32 (load_command_cmdsize l)) in Hr. unfold in_uw in Hr.
  apply agrees_bad_if; intros _. apply agrees_bad_if; intros H2%Z.ltb_ge.
  apply agrees_bad_if; intros _. eapply agrees_bind.
  - apply switch_alike; first [done|lia|unfold lc; lia].
  - intros [m2 s2] [m3 s3] _ _ (H3 & H4 & H5). cbn [fst snd] in *. subst m3 s3.
    apply agrees_bad_if; intros _. exists (e + load_command_cmdsize l, m, s2).
    split; [done|]. unfold at_command. cbn [fst snd].
    replace (hd_size (hd_64 hd) + Z.to_nat (e + load_command_cmdsize l))%nat
      with (lc + Z.to_nat (load_command_cmdsize l))%nat by (unfold lc; lia).
    by split_and!; first [done|lia].
Qed.

Lemma check_lcs_alike n e m1 s :
  0 <= e -> same_from (hd_size (hd_64 hd) + Z.to_nat e) m m1 ->
  agrees at_command (check_lcs swap_bitfields h true size sizeofhdrs hd n e m1 s)
    (check_lcs swap_bitfields (other h) false size sizeofhdrs hd n e m s).
Proof.
  revert e m1 s. induction n as [|n IH]; intros e m1 s He Hs; cbn [check_lcs].
  - exists (e, m, s). split; [done|]. by split_and!.
  - eapply agrees_bind; [by apply check_lc_alike|].
    intros [[e1 m2] s2] [[e2 m3] s3] _ _ (H1 & H2 & H3 & H4 & H5). cbn [fst snd] in *.
    subst e1 s3 m3. by apply IH.
Qed.
End loop.
End sexes.

(** ** check_Mach_O *)

Lemma bind_assoc {A B C} (o : outcome mach_o_failure A) (f : A -> outcome mach_o_failure B)
    (g : B -> outcome mach_o_failure C) :
  (o ≫= f) ≫= g = o ≫= (fun a => f a ≫= g).
Proof. by destruct o. Qed.

Lemma check_header_alike h is_64 m {B1 B2} (S : B1 -> B2 -> Prop) k1 k2 :
  (hd_size is_64 <= length m)%nat ->
  (forall m1 hd, hd_64 hd = is_64 -> hd_sizeofcmds hd = ld_u32 (other h) m 20 ->
     same_from (hd_size is_64) m m1 -> agrees S (k1 (m1, hd)) (k2 (m, hd))) ->
  agrees S (check_header h true is_64 m ≫= k1) (check_header (other h) false is_64 m ≫= k2).
Proof.
  intros Hm Hk. unfold check_header. destruct is_64; rewrite !bind_assoc;
    (eapply agrees_load_all; [solve [eauto with reread]|done|exact Hm|]); intros m' Hs;
    cbn beta iota; cbn [mbind outcome_bind]; by apply Hk.
Qed.

Lemma headers_size hd :
  in_uw 32 (hd_sizeofcmds hd) ->
  u64 (hd_sizeofcmds hd + Z.of_nat (hd_size (hd_64 hd))) =
    hd_sizeofcmds hd + Z.of_nat (hd_size (hd_64 hd)).
Proof.
  intros Hr. apply uw_id. unfold in_uw in *.
  assert ((hd_size (hd_64 hd) <= 32)%nat) by (destruct (hd_64 hd); apply Nat.leb_le; reflexivity).
  lia.
Qed.

Lemma byte_sex_agrees swap_bitfields h is_64 fat_cputype m :
  (forall st h bs, length (swap_bitfields st h bs) = length bs) ->
  (hd_size is_64 <= length m)%nat ->
  agrees (fun o1 o2 => snd o1 = snd o2 /\ fst o2 = m /\
      same_from (hd_size is_64 + Z.to_nat (ld_u32 (other h) m 20)) m (fst o1))
    (check_Mach_O swap_bitfields h true is_64 fat_cputype m)
    (check_Mach_O swap_bitfields (other h) false is_64 fat_cputype m).
Proof.
  intros Hbits Hm. unfold check_Mach_O. cbv zeta. apply check_header_alike; [done|].
  intros m1 hd <- Hcmds Hs. cbn beta iota.
  apply agrees_bad_if; intros H1%Z.ltb_ge. apply agrees_same; intros els _.
  apply agrees_bad_if; intros _.
  pose proof (ld_u32_range (other h) m 20) as Hr. rewrite <- Hcmds in Hr.
  pose proof (headers_size hd Hr) as Hsum. rewrite Hsum in *. unfold in_uw in Hr. eapply agrees_bind.
  - apply check_lcs_alike; [done|lia|lia|]. by rewrite Nat.add_0_r.
  - intros [[e1 m2] s2] [[e2 m3] s3] _ _ (H2 & H3 & H4 & H5 & H6). cbn [fst snd] in *. subst e1 s3 m3.
    apply agrees_same; intros _ _. apply agrees_bad_if; intros He%negb_false_iff%Z.eqb_eq.
    exists (m, s2). split; [done|]. split; [done|]. split; [done|]. by rewrite <- Hcmds, He.
Qed.

(** C15: On a host of the other byte sex, where the headers are swapped, check_Mach_O gives the
    answer it gives on a host of the byte sex of the file: the same failure, or acceptance with
    the same parts of the file, pointers and messages.  It changes the header and the load
    commands only.  The exception are thread states the host cannot swap, which are
    refused. *)
Theorem check_Mach_O_byte_sex swap_bitfields h is_64 fat_cputype m :
  (forall st h bs, length (swap_bitfields st h bs) = length bs) ->
  (hd_size is_64 <= length m)%nat ->
  agrees (fun o1 o2 => snd o1 = snd o2 /\ fst o2 = m /\
      same_from (hd_size is_64 + Z.to_nat (ld_u32 (other h) m 20)) m (fst o1))
    (check_Mach_O swap_bitfields h true is_64 fat_cputype m)
    (check_Mach_O swap_bitfields (other h) false is_64 fat_cputype m).
Proof. apply byte_sex_agrees. Qed.

(** A file for a 64-bit cpu with a symbol table, one local symbol, and strings. *)
Definition example_object (h : host) : mem :=
  words h ([0xfeedfacf; 0x01000007; 3; 1; 2; 104; 0; 0] ++
    [LC_SYMTAB; 24; 136; 1; 152; 4] ++
    [LC_DYSYMTAB; 80; 0; 1; 1; 0; 1; 0] ++ repeat 0 12 ++
    [1; 0; 0; 0] ++ [0]).

Lemma check_Mach_O_byte_sex_witness :
  agrees (fun o1 o2 => snd o1 = snd o2 /\ fst o2 = example_object LE /\
      same_from (hd_size true + Z.to_nat (ld_u32 LE
        (example_object LE) 20))
        (example_object LE) (fst o1))
    (check_Mach_O no_bitfields BE true true None
      (example_object LE))
    (check_Mach_O no_bitfields LE false true None
      (example_object LE)).
Proof.
  apply (check_Mach_O_byte_sex no_bitfields BE true None); [done|].
  apply Nat.leb_le. vm_compute. reflexivity.
Defined.
