(* ===== verification/CheckMachOSpec.v ===== *)
(** * What check_Mach_O promises

    A file that is accepted can be parsed: the parts its load commands point
    to lie inside of the file and were recorded, and its segments, encrypted
    ranges and notes lie inside of it, as far as the code checks them.  This is
    shown for a host of the byte sex of the file, and holds for the other by
    CheckMachOSex.  That the check never looks outside of the file is in
    CheckMachOSafe. *)

From Stdlib Require Import ZArith Lia Bool.
From Stdlib Require Import Init.Byte.
From stdpp Require Import base option numbers strings sets list.
From S2P Require Import Prelude CInt CpuTypes LoaderH ByteSex HeaderSwap LoadCmdSwap.
From S2P Require Import InPlace InPlaceSpec Assigns SwapHeaders SwapHeadersSpec SwapInPlaceSpec.
From S2P Require Import SwapFileSpec.
From S2P Require Import Overlap CheckMachO CheckFrame CheckMachOSex.

(** ** The load commands of a file *)

(** The number of load commands is at offset 16 of either header. *)
Definition load_commands_of (h : host) (is_64 : bool) (m : mem) : list (nat * Z) :=
  load_commands_from h (Z.to_nat (ld_u32 h m 16)) (hd_size is_64) m.

(** An offset in the file and a number of bytes. *)
Abbreviation part := (Z * Z)%type (only parsing).

Definition section_parts (filetype : Z) (s : section) : list part :=
  (if not_stub filetype && not_zerofill (section_flags s)
   then [(section_offset s, section_size s)] else []) ++
  [(section_reloff s, section_nreloc s * sizeof_relocation_info)].

(** A part with a 64-bit size, left out when the sum wraps around at 64 bits:
    then the check compares the wrapped sum, and the part can be outside. *)
Definition unwrapped (off n : Z) : list part := if off + n <? 2 ^ 64 then [(off, n)] else [].

Definition section_64_parts (filetype : Z) (s : section_64) : list part :=
  (if not_stub filetype && not_zerofill (section_64_flags s)
   then unwrapped (section_64_offset s) (section_64_size s) else []) ++
  [(section_64_reloff s, section_64_nreloc s * sizeof_relocation_info)].

Section parts.
Context (h : host) (is_64 : bool) (filetype : Z) (m : mem).

Definition segment_parts (lc : nat) : list part :=
  i ← seq 0 (Z.to_nat (segment_command_nsects (ld_segment_command h m lc)));
  section_parts filetype (ld_section h m (lc + sizeof_segment_command + i * sizeof_section)).

Definition segment_64_parts (lc : nat) : list part :=
  i ← seq 0 (Z.to_nat (segment_command_64_nsects (ld_segment_command_64 h m lc)));
  section_64_parts filetype
    (ld_section_64 h m (lc + sizeof_segment_command_64 + i * sizeof_section_64)).

Definition symtab_parts (lc : nat) : list part :=
  let st := ld_symtab_command h m lc in
  [(symtab_command_symoff st,
    symtab_command_nsyms st * (if is_64 then sizeof_nlist_64 else sizeof_nlist));
   (symtab_command_stroff st, symtab_command_strsize st)].

Definition dysymtab_parts (lc : nat) : list part :=
  let d := ld_dysymtab_command h m lc in
  [(dysymtab_command_tocoff d, dysymtab_command_ntoc d * sizeof_dylib_table_of_contents);
   (dysymtab_command_modtaboff d,
    dysymtab_command_nmodtab d * (if is_64 then sizeof_dylib_module_64 else sizeof_dylib_module));
   (dysymtab_command_extrefsymoff d, dysymtab_command_nextrefsyms d * sizeof_dylib_reference);
   (dysymtab_command_indirectsymoff d, dysymtab_command_nindirectsyms d * 4);
   (dysymtab_command_extreloff d, dysymtab_command_nextrel d * sizeof_relocation_info);
   (dysymtab_command_locreloff d, dysymtab_command_nlocrel d * sizeof_relocation_info)].

(** A part of LC_DYLD_INFO; the check leaves out those at offset 0. *)
Definition optional_part (off n : Z) : list part := if off =? 0 then [] else [(off, n)].

Definition dyld_info_parts (lc : nat) : list part :=
  let d := ld_dyld_info_command h m lc in
  optional_part (dyld_info_command_rebase_off d) (dyld_info_command_rebase_size d) ++
  optional_part (dyld_info_command_bind_off d) (dyld_info_command_bind_size d) ++
  optional_part (dyld_info_command_weak_bind_off d) (dyld_info_command_weak_bind_size d) ++
  optional_part (dyld_info_command_lazy_bind_off d) (dyld_info_command_lazy_bind_size d) ++
  optional_part (dyld_info_command_export_off d) (dyld_info_command_export_size d).

(** The parts of the file a load command points to that check_Mach_O records:
    contents of sections (not those of stubs and dSYM files, nor of sections
    whose flags are those of zero-filled ones) and their relocation entries,
    the symbol and string tables, the six tables of LC_DYSYMTAB, the hints,
    the data of the linkedit_data commands, the parts of LC_DYLD_INFO that are
    not at offset 0, and that of LC_SYMSEG. *)
Definition command_parts (lc : nat) (cmd : Z) : list part :=
  if cmd =? LC_SEGMENT then segment_parts lc
  else if cmd =? LC_SEGMENT_64 then segment_64_parts lc
  else if cmd =? LC_SYMTAB then symtab_parts lc
  else if cmd =? LC_DYSYMTAB then dysymtab_parts lc
  else if cmd =? LC_TWOLEVEL_HINTS then
    let t := ld_twolevel_hints_command h m lc in
    [(twolevel_hints_command_offset t, twolevel_hints_command_nhints t * sizeof_twolevel_hint)]
  else if is_linkedit_data cmd then
    let d := ld_linkedit_data_command h m lc in
    [(linkedit_data_command_dataoff d, linkedit_data_command_datasize d)]
  else if cmd_in cmd [LC_DYLD_INFO; LC_DYLD_INFO_ONLY] then dyld_info_parts lc
  else if cmd =? LC_SYMSEG then
    let s := ld_symseg_command h m lc in [(symseg_command_offset s, symseg_command_size s)]
  else [].

(** The ranges of the file a load command points to that are only compared
    with the size of the file, since they hold other parts or encrypted or
    private data: segments, encrypted ranges and notes. *)
Definition command_ranges (lc : nat) (cmd : Z) : list part :=
  if cmd =? LC_SEGMENT then
    let sg := ld_segment_command h m lc in
    [(segment_command_fileoff sg, segment_command_filesize sg)]
  else if cmd =? LC_SEGMENT_64 then
    let sg := ld_segment_command_64 h m lc in
    unwrapped (segment_command_64_fileoff sg) (segment_command_64_filesize sg)
  else if cmd =? LC_ENCRYPTION_INFO then
    let e := ld_encryption_info_command h m lc in
    [(encryption_info_command_cryptoff e, encryption_info_command_cryptsize e)]
  else if cmd =? LC_ENCRYPTION_INFO_64 then
    let e := ld_encryption_info_command_64 h m lc in
    [(encryption_info_command_64_cryptoff e, encryption_info_command_64_cryptsize e)]
  else if cmd =? LC_NOTE then
    let n := ld_note_command h m lc in unwrapped (note_command_offset n) (note_command_size n)
  else [].
End parts.

(** ** Elements *)

(** The part lies in the file; when it is not empty it was recorded. *)
Definition recorded (size : Z) (l : list element) (p : part) : Prop :=
  fst p + snd p <= size /\
  (snd p <> 0 -> exists e, e ∈ l /\ offset e = fst p /\ Overlap.size e = snd p).

Definition range_inside (size : Z) (p : part) : Prop := fst p + snd p <= size.

Lemma recorded_more size l l' p : l ⊆ l' -> recorded size l p -> recorded size l' p.
Proof.
  intros Hl [Hi Hr]. split; [done|]. intros Hn. destruct (Hr Hn) as (e & He & Ho).
  exists e. split; [by apply Hl|done].
Qed.

Lemma recorded_all size l l' ps : l ⊆ l' -> Forall (recorded size l) ps -> Forall (recorded size l') ps.
Proof. intros Hl H. eapply Forall_impl; [done|]. intros p. by apply recorded_more. Qed.

Lemma add_element_Ret off n name l l' :
  add_element off n name l = Ret l' ->
  l ⊆ l' /\ (n <> 0 -> exists e, e ∈ l' /\ offset e = off /\ Overlap.size e = n).
Proof.
  unfold add_element, check_overlaping_element. cbn [Overlap.size].
  destruct (Z.eqb_spec n 0) as [->|Hn]; [intros [= <-]; done|].
  assert (Hp : forall l2, insert_element (mk_element off n name) l = Some l2 -> l2 = l' ->
    l ⊆ l' /\ (n <> 0 -> exists e, e ∈ l' /\ offset e = off /\ Overlap.size e = n)).
  { intros l2 Hi <-. apply insert_Permutation in Hi. split.
    - intros x Hx. rewrite Hi. by right.
    - intros _. exists (mk_element off n name). split; [rewrite Hi; by left|done]. }
  destruct l as [|e l].
  - intros [= <-]. by apply (Hp [mk_element off n name]).
  - destruct (insert_element _ (e :: l)) as [l2|]; [|done]. intros [= <-]. by apply (Hp l2).
Qed.

Lemma bad_if_Ret c b u : bad_if c b = Ret u <-> c = false.
Proof. unfold bad_if. destruct c; split; try done. by destruct u. Qed.

Lemma check_range_Ret size off n u :
  0 <= off -> 0 <= n -> check_range size off n = Ret u -> Forall (range_inside size) (unwrapped off n).
Proof.
  intros Ho Hn. unfold check_range, unwrapped. intros H. invert_ret. rewrite ?bad_if_Ret in *.
  destruct (Z.ltb_spec (off + n) (2 ^ 64)); [|constructor]. constructor; [|constructor].
  unfold range_inside. cbn [fst snd]. rewrite uw_id in * by (unfold in_uw; lia). lia.
Qed.

Lemma unwrapped_32 off n : in_uw 32 off -> in_uw 32 n -> unwrapped off n = [(off, n)].
Proof.
  intros Ho Hn. unfold unwrapped, in_uw in *. destruct (Z.ltb_spec (off + n) (2 ^ 64)); [done|lia].
Qed.

Lemma range_element_Ret size off n name l l' :
  in_uw 32 off -> in_uw 32 n -> range_element size off n name l = Ret l' ->
  l ⊆ l' /\ recorded size l' (off, n).
Proof.
  intros Ho Hn. unfold range_element, check_range. intros H. invert_ret.
  rewrite ?bad_if_Ret in *. apply add_element_Ret in H as [Hl Hr]. split; [done|].
  split; [|exact Hr]. simpl. unfold in_uw in *.
  rewrite uw_id in * by (unfold in_uw; lia). lia.
Qed.

Lemma table_element_Ret size off n each name l l' :
  in_uw 32 off -> in_uw 32 n -> 0 <= each <= 80 -> size < 2 ^ 32 ->
  table_element size off n each name l = Ret l' ->
  l ⊆ l' /\ recorded size l' (off, n * each).
Proof.
  intros Ho Hn He Hs. unfold table_element, check_table. intros H. invert_ret.
  rewrite ?bad_if_Ret in *.
  assert (Hm : 0 <= n * each <= 2 ^ 32 * 80).
  { unfold in_uw in Hn. split; [apply Z.mul_nonneg_nonneg; lia|apply Z.mul_le_mono_nonneg; lia]. }
  assert (Hle : n * each + off <= size).
  { unfold in_uw in *. rewrite (uw_id 64 (n * each)), uw_id in * by (unfold in_uw; lia). lia. }
  unfold in_uw in Ho. rewrite (uw_id 32) in H by (unfold in_uw; lia).
  apply add_element_Ret in H as [Hl Hr]. split; [done|]. split; [simpl; lia|exact Hr].
Qed.

Lemma optional_element_Ret size off n name l l' :
  in_uw 32 off -> in_uw 32 n -> optional_element size off n name l = Ret l' ->
  l ⊆ l' /\ Forall (recorded size l') (optional_part off n).
Proof.
  intros Ho Hn. unfold optional_element, optional_part. intros H. invert_ret.
  rewrite ?bad_if_Ret in *. apply add_element_Ret in H as [Hl Hr]. split; [done|].
  destruct (Z.eqb_spec off 0) ; [constructor|]. constructor; [|constructor].
  split; [|exact Hr]. cbn [fst snd negb andb] in *. unfold in_uw in *.
  rewrite uw_id in * by (unfold in_uw; lia). lia.
Qed.

(** ** Sections *)

Lemma check_section_Ret size sizeofhdrs hd h m o sg l l' :
  size < 2 ^ 32 -> check_section size sizeofhdrs hd sg (ld_section h m o) l = Ret l' ->
  l ⊆ l' /\ Forall (recorded size l') (section_parts (hd_filetype hd) (ld_section h m o)).
Proof.
  intros Hs. unfold check_section, section_parts. intros H. invert_ret.
  rewrite ?bad_if_Ret in *. set (s := ld_section h m o) in *.
  apply table_element_Ret in H as [Hl2 Hr2];
    [|apply ld_u32_range|apply ld_u32_range|done|done].
  assert (Hnr : in_uw 32 (section_offset s) /\ in_uw 32 (section_size s))
    by (split; apply ld_u32_range).
  destruct (not_stub (hd_filetype hd) && not_zerofill (section_flags s)); cbn [andb app] in *.
  - match goal with Ha : add_element _ _ _ _ = Ret _ |- _ => apply add_element_Ret in Ha as [Hl1 Hr1] end.
    split; [by etransitivity|]. constructor; [|constructor; [done|constructor]].
    eapply recorded_more; [exact Hl2|]. split; [|exact Hr1]. cbn [fst snd]. unfold in_uw in *.
    rewrite (uw_id 64 (section_offset s + section_size s)) in * by (unfold in_uw; lia). lia.
  - simplify_eq. split; [done|]. constructor; [done|constructor].
Qed.

Lemma check_section_64_Ret size sizeofhdrs hd h m o sg l l' :
  size < 2 ^ 32 -> check_section_64 size sizeofhdrs hd sg (ld_section_64 h m o) l = Ret l' ->
  l ⊆ l' /\ Forall (recorded size l') (section_64_parts (hd_filetype hd) (ld_section_64 h m o)).
Proof.
  intros Hs. unfold check_section_64, section_64_parts. intros H. invert_ret.
  rewrite ?bad_if_Ret in *. set (s := ld_section_64 h m o) in *.
  apply table_element_Ret in H as [Hl2 Hr2];
    [|apply ld_u32_range|apply ld_u32_range|done|done].
  assert (Hnr : in_uw 32 (section_64_offset s) /\ in_uw 64 (section_64_size s))
    by (split; [apply ld_u32_range|apply ld_u64_range]).
  destruct (not_stub (hd_filetype hd) && not_zerofill (section_64_flags s)); cbn [andb app] in *.
  - match goal with Ha : add_element _ _ _ _ = Ret _ |- _ => apply add_element_Ret in Ha as [Hl1 Hr1] end.
    split; [by etransitivity|]. unfold unwrapped.
    destruct (Z.ltb_spec (section_64_offset s + section_64_size s) (2 ^ 64));
      cbn [app]; [|constructor; [done|constructor]].
    constructor; [|constructor; [done|constructor]]. unfold in_uw in *.
    rewrite (uw_id 64 (section_64_offset s + section_64_size s)) in * by (unfold in_uw; lia).
    rewrite (uw_id 32) in Hr1 by (unfold in_uw; lia).
    eapply recorded_more; [exact Hl2|]. split; [cbn [fst snd]; lia|exact Hr1].
  - simplify_eq. split; [done|]. constructor; [done|constructor].
Qed.

Lemma load_at_Ret {A} h (ld : host -> mem -> nat -> A) n o m x :
  load_at h ld n o m = Ret x -> x = ld h m o.
Proof. unfold load_at. destruct (in_bounds m o n); [by intros [= <-]|done]. Qed.

Lemma check_sections_Ret size sizeofhdrs hd h m n base k sg l l' :
  size < 2 ^ 32 ->
  check_sections h size sizeofhdrs hd sg n (base + k * sizeof_section) m l = Ret l' ->
  l ⊆ l' /\ Forall (recorded size l')
    (i ← seq k n; section_parts (hd_filetype hd) (ld_section h m (base + i * sizeof_section))).
Proof.
  intros Hs. revert k l. induction n as [|n IH]; intros k l H.
  { injection H as <-. by split; [|constructor]. }
  cbn [check_sections] in H. invert_ret.
  match goal with Hx : load_at _ _ _ _ _ = Ret _ |- _ => apply load_at_Ret in Hx as -> end.
  match goal with Hx : check_section _ _ _ _ _ _ = Ret _ |- _ =>
    apply check_section_Ret in Hx as [Hl1 Hr1]; [|done] end.
  replace (base + k * sizeof_section + sizeof_section)%nat
    with (base + S k * sizeof_section)%nat in H by lia.
  apply IH in H as [Hl2 Hr2]. split; [by etransitivity|]. cbn [seq mbind list_bind].
  apply Forall_app. split; [by eapply recorded_all|done].
Qed.

Lemma check_sections_64_Ret size sizeofhdrs hd h m n base k sg l l' :
  size < 2 ^ 32 ->
  check_sections_64 h size sizeofhdrs hd sg n (base + k * sizeof_section_64) m l = Ret l' ->
  l ⊆ l' /\ Forall (recorded size l')
    (i ← seq k n;
     section_64_parts (hd_filetype hd) (ld_section_64 h m (base + i * sizeof_section_64))).
Proof.
  intros Hs. revert k l. induction n as [|n IH]; intros k l H.
  { injection H as <-. by split; [|constructor]. }
  cbn [check_sections_64] in H. invert_ret.
  match goal with Hx : load_at _ _ _ _ _ = Ret _ |- _ => apply load_at_Ret in Hx as -> end.
  match goal with Hx : check_section_64 _ _ _ _ _ _ = Ret _ |- _ =>
    apply check_section_64_Ret in Hx as [Hl1 Hr1]; [|done] end.
  replace (base + k * sizeof_section_64 + sizeof_section_64)%nat
    with (base + S k * sizeof_section_64)%nat in H by lia.
  apply IH in H as [Hl2 Hr2]. split; [by etransitivity|]. cbn [seq mbind list_bind].
  apply Forall_app. split; [by eapply recorded_all|done].
Qed.

(** ** The cases *)

(** The pointers to LC_SYMTAB and LC_DYSYMTAB are to structures of the file. *)
Definition loaded (h : host) (m : mem) (p : pointers) : Prop :=
  (forall st, pt_st p = Some st -> exists lc, st = ld_symtab_command h m lc) /\
  (forall dyst, pt_dyst p = Some dyst -> exists lc, dyst = ld_dysymtab_command h m lc).

Section cases.
Context (swap_bitfields : bitfield_state -> host -> list byte -> list byte).
Context (h : host) (size sizeofhdrs : Z) (hd : header) (m : mem) (lc : nat) (cmd cmdsize : Z).
Context (Hsize : size < 2 ^ 32).

Lemma swap_load_Ret {A} l (ld : host -> mem -> nat -> A) n o m0 r :
  swap_load h false l ld n o m0 = Ret r -> r = (m0, ld h m0 o).
Proof.
  unfold swap_load, swap_at. intros H. invert_ret.
  match goal with Hx : load_at _ _ _ _ _ = Ret _ |- _ => apply load_at_Ret in Hx end.
  by subst.
Qed.

(** Nothing is forgotten, the parts [ps] are recorded, and the ranges [rs] are
    inside of the file. *)
Definition records (c : handler) (ps rs : list part) : Prop :=
  forall s m' s', c m s = Ret (m', s') ->
  m' = m /\ (loaded h m (cs_pointers s) -> loaded h m (cs_pointers s')) /\
  cs_elements s ⊆ cs_elements s' /\ Forall (recorded size (cs_elements s')) ps /\
  Forall (range_inside size) rs.

(** The equations of a case that succeeded. *)
Ltac case_ret c :=
  intros s m' s' H; unfold c, check_small, swap_at in H; cbv zeta in H;
  repeat (progress (invert_ret; cbn beta iota in *;
    try match goal with
    | H : swap_load _ _ _ _ _ _ _ = Ret ?r |- _ => apply swap_load_Ret in H; subst r
    end; cbn beta iota in *));
  simplify_eq/=.

(** One part after the other. *)
Ltac in_uw_field := first [apply ld_u32_range|apply ld_u64_range].

Ltac elements :=
  repeat match goal with
  | H : table_element _ _ _ _ _ _ = Ret _ |- _ =>
      apply table_element_Ret in H as [? ?]; [|in_uw_field|in_uw_field|by destruct (hd_64 hd)|done]
  | H : range_element _ _ _ _ _ = Ret _ |- _ =>
      apply range_element_Ret in H as [? ?]; [|in_uw_field|in_uw_field]
  | H : optional_element _ _ _ _ _ = Ret _ |- _ =>
      apply optional_element_Ret in H as [? ?]; [|in_uw_field|in_uw_field]
  end.

(** What is only compared with the size of the file. *)
Ltac ranges :=
  cbv zeta;
  first [by constructor
    |rewrite <- unwrapped_32 by in_uw_field;
     eapply check_range_Ret; [| |eassumption]; in_uw_field
    |eapply check_range_Ret; [| |eassumption]; in_uw_field].

Ltac keeps_loaded :=
  first [done|by intros [? ?]; split; intros; simplify_eq/=; eauto].

Ltac case_records c :=
  case_ret c; elements; split; [done|]; split; [keeps_loaded|]; split; [set_solver|];
  split; [|ranges];
  lazymatch goal with |- Forall _ (?f _ _ _ _) => unfold f | _ => idtac end; cbv zeta;
  repeat first [constructor|eapply recorded_more; [|eassumption]; set_solver].

Lemma symtab_records :
  records (case_symtab h false size hd lc cmd cmdsize)
    (symtab_parts h (hd_64 hd) m lc) [].
Proof. case_records case_symtab. Qed.

Lemma dysymtab_records :
  records (case_dysymtab h false size hd lc cmd cmdsize)
    (dysymtab_parts h (hd_64 hd) m lc) [].
Proof. case_records case_dysymtab. Qed.

Lemma twolevel_hints_records :
  records (case_twolevel_hints h false size lc cmd cmdsize)
    (let t := ld_twolevel_hints_command h m lc in
     [(twolevel_hints_command_offset t, twolevel_hints_command_nhints t * sizeof_twolevel_hint)]) [].
Proof. case_records case_twolevel_hints. Qed.

Lemma linkedit_data_records :
  records (case_linkedit_data h false size lc cmd cmdsize)
    (let d := ld_linkedit_data_command h m lc in
     [(linkedit_data_command_dataoff d, linkedit_data_command_datasize d)]) [].
Proof. case_records case_linkedit_data. Qed.

Lemma symseg_records :
  records (case_symseg h false size lc cmdsize)
    (let s := ld_symseg_command h m lc in [(symseg_command_offset s, symseg_command_size s)]) [].
Proof. case_records case_symseg. Qed.

Lemma routines_records : records (case_routines h false lc cmd cmdsize) [] [].
Proof. case_records case_routines. Qed.

Lemma routines_64_records : records (case_routines_64 h false lc cmd cmdsize) [] [].
Proof. case_records case_routines_64. Qed.

Lemma encryption_info_records :
  records (case_encryption_info h false size lc cmdsize) []
    (let e := ld_encryption_info_command h m lc in
     [(encryption_info_command_cryptoff e, encryption_info_command_cryptsize e)]).
Proof. case_records case_encryption_info. Qed.

Lemma encryption_info_64_records :
  records (case_encryption_info_64 h false size lc cmdsize) []
    (let e := ld_encryption_info_command_64 h m lc in
     [(encryption_info_command_64_cryptoff e, encryption_info_command_64_cryptsize e)]).
Proof. case_records case_encryption_info_64. Qed.

Lemma linker_option_records : records (case_linker_option h false lc cmdsize) [] [].
Proof. case_records case_linker_option. Qed.

Lemma prebind_cksum_records : records (case_prebind_cksum h false lc cmd cmdsize) [] [].
Proof. case_records case_prebind_cksum. Qed.

Lemma uuid_records : records (case_uuid h false lc cmd cmdsize) [] [].
Proof. case_records case_uuid. Qed.

Lemma fvmlib_records : records (case_fvmlib h false lc cmdsize) [] [].
Proof. case_records case_fvmlib. Qed.

Lemma dylib_records : records (case_dylib h false lc cmdsize) [] [].
Proof. case_records case_dylib. Qed.

Lemma sub_framework_records : records (case_sub_framework h false lc cmdsize) [] [].
Proof. case_records case_sub_framework. Qed.

Lemma sub_umbrella_records : records (case_sub_umbrella h false lc cmdsize) [] [].
Proof. case_records case_sub_umbrella. Qed.

Lemma sub_library_records : records (case_sub_library h false lc cmdsize) [] [].
Proof. case_records case_sub_library. Qed.

Lemma sub_client_records : records (case_sub_client h false lc cmdsize) [] [].
Proof. case_records case_sub_client. Qed.

Lemma prebound_dylib_records : records (case_prebound_dylib h false lc cmdsize) [] [].
Proof. case_records case_prebound_dylib. Qed.

Lemma dylinker_records : records (case_dylinker h false lc cmdsize) [] [].
Proof. case_records case_dylinker. Qed.

Lemma rpath_records : records (case_rpath h false lc cmdsize) [] [].
Proof. case_records case_rpath. Qed.

Lemma fileset_entry_records : records (case_fileset_entry h false lc cmdsize) [] [].
Proof. case_records case_fileset_entry. Qed.

Lemma main_records : records (case_main h false lc cmdsize) [] [].
Proof. case_records case_main. Qed.

Lemma source_version_records : records (case_source_version h false lc cmdsize) [] [].
Proof. case_records case_source_version. Qed.

Lemma ident_records : records (case_ident h false lc cmdsize) [] [].
Proof. case_records case_ident. Qed.

Lemma note_records :
  records (case_note h false size lc cmdsize) []
    (let n := ld_note_command h m lc in unwrapped (note_command_offset n) (note_command_size n)).
Proof. case_records case_note. Qed.

Lemma version_min_records : records (case_version_min h false lc cmdsize) [] [].
Proof. case_records case_version_min. Qed.

Lemma version_min_macosx_records : records (case_version_min_macosx h false lc cmdsize) [] [].
Proof. case_records case_version_min_macosx. Qed.

Lemma dyld_info_records :
  records (case_dyld_info h false size lc cmdsize) (dyld_info_parts h m lc) [].
Proof.
  case_ret case_dyld_info. elements. split; [done|]. split; [done|]. split; [set_solver|].
  split; [|constructor].
  unfold dyld_info_parts. cbv zeta.
  repeat (apply Forall_app; split); (eapply recorded_all; [|eassumption]; set_solver).
Qed.

Lemma build_version_records : records (case_build_version h false hd lc cmdsize) [] [].
Proof.
  case_ret case_build_version. unfold swap_array_at in *.
  simplify_eq/=. destruct (pt_bv1 (cs_pointers s)); (split; [done|]); (split; [keeps_loaded|]);
    by split.
Qed.

Lemma segment_records :
  records (case_segment h false size sizeofhdrs hd lc cmdsize)
    (segment_parts h (hd_filetype hd) m lc)
    (let sg := ld_segment_command h m lc in
     [(segment_command_fileoff sg, segment_command_filesize sg)]).
Proof.
  case_ret case_segment. unfold swap_array_at in *. simplify_eq/=.
  match goal with H : check_sections _ _ _ _ _ _ _ _ _ = Ret _ |- _ => rename H into Hs end.
  rewrite <- (Nat.add_0_r (lc + sizeof_segment_command)) in Hs.
  apply (check_sections_Ret _ _ _ _ _ _ (lc + sizeof_segment_command) 0) in Hs as [Hl Hr]; [|done].
  do 2 (split; [done|]). split; [exact Hl|]. split; [exact Hr|]. ranges.
Qed.

Lemma segment_64_records :
  records (case_segment_64 h false size sizeofhdrs hd lc cmdsize)
    (segment_64_parts h (hd_filetype hd) m lc)
    (let sg := ld_segment_command_64 h m lc in
     unwrapped (segment_command_64_fileoff sg) (segment_command_64_filesize sg)).
Proof.
  case_ret case_segment_64. unfold swap_array_at in *. simplify_eq/=.
  match goal with H : check_sections_64 _ _ _ _ _ _ _ _ _ = Ret _ |- _ => rename H into Hs end.
  rewrite <- (Nat.add_0_r (lc + sizeof_segment_command_64)) in Hs.
  apply (check_sections_64_Ret _ _ _ _ _ _ (lc + sizeof_segment_command_64) 0) in Hs as [Hl Hr]; [|done].
  do 2 (split; [done|]). split; [exact Hl|]. split; [exact Hr|]. ranges.
Qed.

Lemma swap_word_Ret o m0 r : swap_word h false o m0 = Ret r -> r = (m0, ld_u32 h m0 o).
Proof.
  unfold swap_word, swap_at, load32. intros H. invert_ret.
  destruct (in_bounds m0 o 4); simplify_eq/=. done.
Qed.

Lemma check_flavors_Ret fuel cases state p m0 m' :
  check_flavors swap_bitfields h false fuel cases state p m0 = Ret m' -> m' = m0.
Proof.
  revert state. induction fuel as [|fuel IH]; intros state; cbn [check_flavors];
    (destruct (p <=? state)%nat; [by intros [= <-]|]); [done|].
  intros H. invert_ret.
  match goal with H : swap_word _ _ _ _ = Ret _ |- _ => apply swap_word_Ret in H as -> end.
  cbn beta iota in H. invert_ret.
  match goal with H : swap_word _ _ _ _ = Ret _ |- _ => apply swap_word_Ret in H as -> end.
  cbn beta iota in H. destruct (List.find _ cases) as [[f [st|]]|]; invert_ret.
  - simplify_eq/=. by eapply IH.
  - by eapply IH.
  - by eapply IH.
Qed.

Lemma thread_records : records (case_thread swap_bitfields h false hd lc cmdsize) [] [].
Proof.
  case_ret case_thread. destruct (thread_cases (hd_cputype hd)) as [cases|]; invert_ret.
  - match goal with H : check_flavors _ _ _ _ _ _ _ _ = Ret _ |- _ => apply check_flavors_Ret in H end.
    simplify_eq/=. split_and!; [done..|constructor].
  - simplify_eq/=. split_and!; [done..|constructor].
Qed.

End cases.

Lemma records_eq h size m c ps rs ps' rs' :
  records h size m c ps rs -> ps = ps' -> rs = rs' -> records h size m c ps' rs'.
Proof. by intros H <- <-. Qed.

Lemma cmd_in_spec cmd l : cmd_in cmd l = true -> cmd ∈ l.
Proof.
  unfold cmd_in. rewrite existsb_exists. intros (x & Hx & ->%Z.eqb_eq). by apply list_elem_of_In.
Qed.

(** The commands of a list are tried one by one. *)
Ltac each_command H :=
  apply cmd_in_spec in H; cbn [is_linkedit_data is_dylib is_dylinker] in H;
  repeat (apply elem_of_cons in H as [->|H]); [..|by apply not_elem_of_nil in H].

Ltac records_case :=
  first [apply segment_records|apply segment_64_records|apply symtab_records
    |apply dysymtab_records|apply routines_records|apply routines_64_records
    |apply twolevel_hints_records|apply linkedit_data_records|apply version_min_macosx_records
    |apply version_min_records|apply build_version_records|apply encryption_info_records
    |apply encryption_info_64_records|apply linker_option_records|apply dyld_info_records
    |apply prebind_cksum_records|apply uuid_records|apply symseg_records|apply fvmlib_records
    |apply dylib_records|apply sub_framework_records|apply sub_umbrella_records
    |apply sub_library_records|apply sub_client_records|apply prebound_dylib_records
    |apply dylinker_records|apply thread_records|apply main_records
    |apply source_version_records|apply ident_records|apply rpath_records|apply note_records
    |apply fileset_entry_records]; done.

Lemma switch_records swap_bitfields h size sizeofhdrs hd m lc cmd cmdsize :
  size < 2 ^ 32 ->
  records h size m (switch_cmd swap_bitfields h false size sizeofhdrs hd lc cmd cmdsize)
    (command_parts h (hd_64 hd) (hd_filetype hd) m lc cmd) (command_ranges h m lc cmd).
Proof.
  intros Hs. unfold switch_cmd.
  repeat match goal with
  | |- records _ _ _ (if ?c =? ?d then _ else _) _ _ =>
      destruct (Z.eqb_spec c d) as [->|]; [eapply records_eq; [records_case|reflexivity..]|]
  | |- records _ _ _ (if ?b then _ else _) _ _ =>
      destruct b eqn:Hin; [each_command Hin; (eapply records_eq; [records_case|reflexivity..])|clear Hin]
  end.
  by intros s m' s'.
Qed.

(** ** The whole check *)

Lemma check_lc_Ret swap_bitfields h size sizeofhdrs hd m e s e' m' s' :
  size < 2 ^ 32 ->
  let lc := (hd_size (hd_64 hd) + Z.to_nat e)%nat in
  check_lc swap_bitfields h false size sizeofhdrs hd e m s = Ret (e', m', s') ->
  e' = e + load_command_cmdsize (ld_load_command h m lc) /\
  m' = m /\ (loaded h m (cs_pointers s) -> loaded h m (cs_pointers s')) /\
  cs_elements s ⊆ cs_elements s' /\
  Forall (recorded size (cs_elements s'))
    (command_parts h (hd_64 hd) (hd_filetype hd) m lc (load_command_cmd (ld_load_command h m lc))) /\
  Forall (range_inside size) (command_ranges h m lc (load_command_cmd (ld_load_command h m lc))).
Proof.
  intros Hs lc H. unfold check_lc in H. cbv zeta iota in H. invert_ret.
  match goal with Hx : load_at _ _ _ _ _ = Ret _ |- _ => apply load_at_Ret in Hx as -> end.
  destruct x4 as [m2 s2]. cbn beta iota in H. invert_ret. simplify_eq.
  match goal with Hx : switch_cmd _ _ _ _ _ _ _ _ _ _ _ = Ret _ |- _ =>
    apply switch_records in Hx as (-> & Hld & Hsub & Hparts & Hranges); [|done] end.
  by split_and!.
Qed.

Lemma check_lcs_records swap_bitfields h size sizeofhdrs hd n m e s e' m' s' :
  size < 2 ^ 32 -> 0 <= e ->
  check_lcs swap_bitfields h false size sizeofhdrs hd n e m s = Ret (e', m', s') ->
  m' = m /\ (loaded h m (cs_pointers s) -> loaded h m (cs_pointers s')) /\
  cs_elements s ⊆ cs_elements s' /\
  forall lc cmd, (lc, cmd) ∈ load_commands_from h n (hd_size (hd_64 hd) + Z.to_nat e) m ->
  Forall (recorded size (cs_elements s')) (command_parts h (hd_64 hd) (hd_filetype hd) m lc cmd) /\
  Forall (range_inside size) (command_ranges h m lc cmd).
Proof.
  intros Hs. revert e s. induction n as [|n IH]; intros e s He; cbn [check_lcs].
  { intros [= <- <- <-]. split; [done|]. split; [done|]. split; [done|]. intros lc cmd Hin.
    by apply not_elem_of_nil in Hin. }
  intros H. apply bind_Ret in H as ([[e1 m1] s1] & H1 & H).
  apply check_lc_Ret in H1 as (-> & -> & Hld & Hsub & Hparts & Hranges); [|done].
  set (lc := (hd_size (hd_64 hd) + Z.to_nat e)%nat) in *.
  pose proof (ld_u32_range h m (lc + 4)) as Hr. unfold in_uw in Hr.
  apply IH in H as (-> & Hld2 & Hsub2 & Hrest); [|simpl; lia].
  split; [done|]. split; [by auto|]. split; [by etransitivity|]. intros lc' cmd.
  cbn [load_commands_from]. rewrite elem_of_cons. intros [[= -> ->]|Hin].
  - split; [by eapply recorded_all|done].
  - apply Hrest. rewrite Z2Nat.inj_add, Nat.add_assoc by (done || simpl; lia). exact Hin.
Qed.

(** The symbols of a group are in the symbol table. *)
Definition group_inside (st : symtab_command) (i n : Z) : Prop :=
  n <> 0 -> i + n <= symtab_command_nsyms st.

Lemma check_group_Ret st i n u :
  in_uw 32 i -> in_uw 32 n -> check_group st i n = Ret u -> group_inside st i n.
Proof.
  intros Hi Hn. unfold check_group, group_inside. intros H Hz. invert_ret.
  rewrite ?bad_if_Ret in *. rewrite (proj2 (Z.eqb_neq n 0) Hz) in *. cbn [negb andb] in *.
  unfold in_uw in *. rewrite uw_id in * by (unfold in_uw; lia). lia.
Qed.

(** The groups of symbols of LC_DYSYMTAB are those of the symbol table. *)
Definition groups_inside (s : check_state) : Prop :=
  forall st dyst, pt_st (cs_pointers s) = Some st -> pt_dyst (cs_pointers s) = Some dyst ->
  group_inside st (dysymtab_command_ilocalsym dyst) (dysymtab_command_nlocalsym dyst) /\
  group_inside st (dysymtab_command_iextdefsym dyst) (dysymtab_command_nextdefsym dyst) /\
  group_inside st (dysymtab_command_iundefsym dyst) (dysymtab_command_nundefsym dyst).

Lemma check_header_Ret h is_64 m m1 hd :
  check_header h false is_64 m = Ret (m1, hd) ->
  m1 = m /\ hd_64 hd = is_64 /\ hd_filetype hd = ld_u32 h m 12 /\
  hd_ncmds hd = ld_u32 h m 16 /\ hd_sizeofcmds hd = ld_u32 h m 20.
Proof.
  unfold check_header. intros H. destruct is_64; invert_ret;
    match goal with Hx : swap_load _ _ _ _ _ _ _ = Ret _ |- _ => apply swap_load_Ret in Hx as -> end;
    cbn beta iota in H; by simplify_eq/=.
Qed.

Lemma check_pointers_Ret h m s u :
  loaded h m (cs_pointers s) -> check_pointers (cs_pointers s) = Ret u -> groups_inside s.
Proof.
  intros [Hst Hdyst] H st dyst H1 H2. unfold check_pointers in H. rewrite H1, H2 in H. invert_ret.
  destruct (Hst st H1) as [lc1 ->], (Hdyst dyst H2) as [lc2 ->].
  split_and!; (eapply check_group_Ret; [apply ld_u32_range..|eassumption]).
Qed.

(** Of an accepted file the parts of the load commands were recorded, inside
    of the file, their ranges are inside of it, and the groups of symbols are
    in the symbol table. *)
Definition sound (h : host) (is_64 : bool) (m : mem) (s : check_state) : Prop :=
  (forall lc cmd, (lc, cmd) ∈ load_commands_of h is_64 m ->
   Forall (recorded (Z.of_nat (length m)) (cs_elements s))
     (command_parts h is_64 (ld_u32 h m 12) m lc cmd) /\
   Forall (range_inside (Z.of_nat (length m))) (command_ranges h m lc cmd)) /\
  groups_inside s.

Lemma native_sound swap_bitfields h is_64 fat_cputype m m' s :
  Z.of_nat (length m) < 2 ^ 32 ->
  check_Mach_O swap_bitfields h false is_64 fat_cputype m = Ret (m', s) ->
  m' = m /\ sound h is_64 m s.
Proof.
  intros Hlen H. unfold check_Mach_O in H. cbv zeta in H.
  apply bind_Ret in H as ([m1 hd] & Hhd & H). apply check_header_Ret in Hhd as (-> & <- & Hft & Hn & _).
  cbn beta iota in H. invert_ret. destruct x2 as [[e m2] s2]. cbn beta iota in H. invert_ret.
  simplify_eq.
  match goal with Hx : check_lcs _ _ _ _ _ _ _ _ _ _ = Ret _ |- _ =>
    apply check_lcs_records in Hx as (-> & Hld & _ & Hall); [|done|done] end.
  split; [done|]. split.
  - intros lc cmd Hin. rewrite <- Hft. apply Hall. unfold load_commands_of in Hin.
    rewrite Nat.add_0_r, Hn. exact Hin.
  - eapply check_pointers_Ret; [|eassumption]. by apply Hld.
Qed.

(** C13: The files that check_Mach_O accepts, on hosts of both byte sexes, smaller than 2^32
    bytes and with room for their header: every part in [command_parts], as the host of the
    byte sex of the file reads it, is inside of the file and was recorded with its size; every
    range in [command_ranges] (segments, encrypted ranges, notes) is inside of the file; and
    the groups of symbols of LC_DYSYMTAB are inside of the symbol table.  Both lists leave out
    what the check lets pass: 64-bit ranges whose end wraps around at 2^64 (sections, segments,
    notes) and the parts of LC_DYLD_INFO at offset 0.  The entry point of LC_MAIN and the offset
    of LC_FILESET_ENTRY are not checked at all and are in neither list. *)
Theorem check_Mach_O_sound swap_bitfields h swapped is_64 fat_cputype m m' s :
  (forall st h bs, length (swap_bitfields st h bs) = length bs) ->
  (hd_size is_64 <= length m)%nat -> Z.of_nat (length m) < 2 ^ 32 ->
  check_Mach_O swap_bitfields h swapped is_64 fat_cputype m = Ret (m', s) ->
  sound (if swapped then other h else h) is_64 m s.
Proof.
  intros Hbits Hm Hlen H. destruct swapped; [|by eapply native_sound in H as [_ H]].
  pose proof (byte_sex_agrees swap_bitfields h is_64 fat_cputype m Hbits Hm) as Ha.
  rewrite H in Ha. destruct Ha as ([m2 s2] & Hn & Hs & _). cbn [snd] in Hs. subst s2.
  by eapply native_sound in Hn as [_ Hn].
Qed.

Lemma check_Mach_O_sound_witness :
  exists s,
    s = mk_state [mk_element 0 136 "Mach-O headers"; mk_element 136 16 "symbol table";
                  mk_element 152 4 "string table"] (cs_pointers s) [] /\
    sound LE true (example_object LE) s.
Proof.
  destruct (check_Mach_O no_bitfields BE true true None
    (example_object LE)) as [[m' s]|f] eqn:H.
  - exists s. split.
    + vm_compute in H. injection H as _ <-. reflexivity.
    + apply (check_Mach_O_sound no_bitfields BE true true None _ m' s);
        [done|apply Nat.leb_le; vm_compute; reflexivity|vm_compute; reflexivity|exact H].
  - exfalso. vm_compute in H. discriminate H.
Defined.
