(* ===== verification/CheckMachOSafe.v ===== *)
(** * check_Mach_O stays inside of the file

    A load command is looked at only after its size was compared with that of
    its structure, and the arrays behind a structure only after their sizes
    were.  So no access is outside of the file, and the loop over the thread
    states ends.  The one fault that remains is the null pointer that a segment
    command of the other width makes the check go through. *)

From Stdlib Require Import ZArith Lia Bool.
From Stdlib Require Import Init.Byte.
From stdpp Require Import base option numbers strings sets list.
From S2P Require Import Prelude CInt CpuTypes LoaderH ByteSex HeaderSwap LoadCmdSwap.
From S2P Require Import InPlace InPlaceSpec Assigns SwapHeaders SwapHeadersSpec SwapInPlaceSpec.
From S2P Require Import SwapFileSpec.
From S2P Require Import Overlap CheckMachO CheckFrame CheckMachOSex CheckMachOSpec.

(** ** Computations that stay inside *)

(** [P] allows the null pointer. *)
Definition inside (P : Prop) {A} (o : outcome mach_o_failure A) : Prop :=
  match o with Stop Outside | Stop No_fuel => False | Stop Null => P | _ => True end.

Lemma inside_impl (P Q : Prop) {A} (o : outcome mach_o_failure A) :
  (P -> Q) -> inside P o -> inside Q o.
Proof. intros H. by destruct o as [|[]]. Qed.

Section inside.
Context (P : Prop).

Lemma inside_bind {A B} (o : outcome mach_o_failure A) (k : A -> outcome mach_o_failure B) :
  inside P o -> (forall a, o = Ret a -> inside P (k a)) -> inside P (o ≫= k).
Proof. intros Ho Hk. destruct o as [a|f]; [by apply Hk|exact Ho]. Qed.

Lemma inside_bad_if {B} c b (k : unit -> outcome mach_o_failure B) :
  (c = false -> inside P (k tt)) -> inside P (bad_if c b ≫= k).
Proof. intros Hk. destruct c; [exact I|by apply Hk]. Qed.

Lemma inside_bad c b : inside P (bad_if c b).
Proof. by destruct c. Qed.

Lemma inside_element off n name l : inside P (add_element off n name l).
Proof. unfold add_element. by destruct (check_overlaping_element _ _) as [[] ?]. Qed.

Lemma inside_range size off n : inside P (check_range size off n).
Proof. apply inside_bad_if. intros _. apply inside_bad. Qed.

Lemma inside_table size off n each : inside P (check_table size off n each).
Proof. apply inside_bad_if. intros _. apply inside_bad. Qed.

Lemma inside_range_element size off n name l : inside P (range_element size off n name l).
Proof. apply inside_bind; [apply inside_range|intros _ _; apply inside_element]. Qed.

Lemma inside_table_element size off n each name l : inside P (table_element size off n each name l).
Proof. apply inside_bind; [apply inside_table|intros _ _; apply inside_element]. Qed.

Lemma inside_optional_element size off n name l : inside P (optional_element size off n name l).
Proof. do 2 (apply inside_bad_if; intros _). apply inside_element. Qed.

Lemma inside_group st i n : inside P (check_group st i n).
Proof. apply inside_bad_if. intros _. apply inside_bad. Qed.

Lemma inside_pointers p : inside P (check_pointers p).
Proof.
  unfold check_pointers. destruct (pt_st p), (pt_dyst p); try exact I.
  do 3 (apply inside_bind; [apply inside_group|intros _ _]).
  do 2 (apply inside_bad_if; intros _). apply inside_bad.
Qed.

#[local] Hint Resolve inside_bad inside_element inside_range inside_table inside_range_element
  inside_table_element inside_optional_element inside_pointers : core.

Lemma inside_load {A B} (ld : host -> mem -> nat -> A) l size h o m
    (k : mem * A -> outcome mach_o_failure B) :
  (o + size <= length m)%nat -> inside P (k (m, ld h m o)) ->
  inside P (swap_load h false l ld size o m ≫= k).
Proof.
  intros Ho Hk. unfold swap_load, swap_at, load_at. cbn [mbind outcome_bind].
  by rewrite in_bounds_true.
Qed.

(** ** The cases of the switch *)

Section command.
Context (swap_bitfields : bitfield_state -> host -> list byte -> list byte).
Context (h : host) (size sizeofhdrs : Z) (hd : header).
Context (lc : nat) (cmd cmdsize : Z) (m : mem).
Context (Hcmd : cmdsize = ld_u32 h m (lc + 4)).
Context (Hsize : 0 <= cmdsize) (Hin : (lc + Z.to_nat cmdsize <= length m)%nat).

Definition safe (c : handler) : Prop := forall s, inside P (c m s).

(** Goes through the statements of a case. *)
Ltac statement :=
  first
  [ exact I
  | apply inside_bad_if; intros ?
  | apply inside_load; [lia|cbn beta iota]
  | apply inside_bind; [solve [auto]|intros ? _] ].

Ltac case_safe c :=
  intros s; unfold c, check_small, check_once, check_lc_str, swap_at, swap_array_at; cbv zeta;
  cbn [mbind outcome_bind];
  repeat match goal with
  | H : (_ <? _) = false |- _ => apply Z.ltb_ge in H
  | H : negb (_ =? _) = false |- _ => apply negb_false_iff, Z.eqb_eq in H
  | _ => statement
  end.

Lemma symtab_safe : safe (case_symtab h false size hd lc cmd cmdsize).
Proof. case_safe case_symtab. Qed.

Lemma dysymtab_safe : safe (case_dysymtab h false size hd lc cmd cmdsize).
Proof. case_safe case_dysymtab. Qed.

Lemma routines_safe : safe (case_routines h false lc cmd cmdsize).
Proof. case_safe case_routines. Qed.

Lemma routines_64_safe : safe (case_routines_64 h false lc cmd cmdsize).
Proof. case_safe case_routines_64. Qed.

Lemma twolevel_hints_safe : safe (case_twolevel_hints h false size lc cmd cmdsize).
Proof. case_safe case_twolevel_hints. Qed.

Lemma linkedit_data_safe : safe (case_linkedit_data h false size lc cmd cmdsize).
Proof. case_safe case_linkedit_data. Qed.

Lemma dyld_info_safe : safe (case_dyld_info h false size lc cmdsize).
Proof. case_safe case_dyld_info. Qed.

Lemma symseg_safe : safe (case_symseg h false size lc cmdsize).
Proof. case_safe case_symseg. Qed.

Lemma version_min_macosx_safe : safe (case_version_min_macosx h false lc cmdsize).
Proof. case_safe case_version_min_macosx. Qed.

Lemma version_min_safe : safe (case_version_min h false lc cmdsize).
Proof. case_safe case_version_min. Qed.

Lemma build_version_safe : safe (case_build_version h false hd lc cmdsize).
Proof. case_safe case_build_version. Qed.

Lemma encryption_info_safe : safe (case_encryption_info h false size lc cmdsize).
Proof. case_safe case_encryption_info. Qed.

Lemma encryption_info_64_safe : safe (case_encryption_info_64 h false size lc cmdsize).
Proof. case_safe case_encryption_info_64. Qed.

Lemma linker_option_safe : safe (case_linker_option h false lc cmdsize).
Proof. case_safe case_linker_option. Qed.

Lemma prebind_cksum_safe : safe (case_prebind_cksum h false lc cmd cmdsize).
Proof. case_safe case_prebind_cksum. Qed.

Lemma uuid_safe : safe (case_uuid h false lc cmd cmdsize).
Proof. case_safe case_uuid. Qed.

Lemma fvmlib_safe : safe (case_fvmlib h false lc cmdsize).
Proof. case_safe case_fvmlib. Qed.

Lemma dylib_safe : safe (case_dylib h false lc cmdsize).
Proof. case_safe case_dylib. Qed.

Lemma sub_framework_safe : safe (case_sub_framework h false lc cmdsize).
Proof. case_safe case_sub_framework. Qed.

Lemma sub_umbrella_safe : safe (case_sub_umbrella h false lc cmdsize).
Proof. case_safe case_sub_umbrella. Qed.

Lemma sub_library_safe : safe (case_sub_library h false lc cmdsize).
Proof. case_safe case_sub_library. Qed.

Lemma sub_client_safe : safe (case_sub_client h false lc cmdsize).
Proof. case_safe case_sub_client. Qed.

Lemma prebound_dylib_safe : safe (case_prebound_dylib h false lc cmdsize).
Proof. case_safe case_prebound_dylib. Qed.

Lemma dylinker_safe : safe (case_dylinker h false lc cmdsize).
Proof. case_safe case_dylinker. Qed.

Lemma rpath_safe : safe (case_rpath h false lc cmdsize).
Proof. case_safe case_rpath. Qed.

Lemma fileset_entry_safe : safe (case_fileset_entry h false lc cmdsize).
Proof. case_safe case_fileset_entry. Qed.

Lemma main_safe : safe (case_main h false lc cmdsize).
Proof. case_safe case_main. Qed.

Lemma source_version_safe : safe (case_source_version h false lc cmdsize).
Proof. case_safe case_source_version. Qed.

Lemma ident_safe : safe (case_ident h false lc cmdsize).
Proof. case_safe case_ident. Qed.

Lemma note_safe : safe (case_note h false size lc cmdsize).
Proof. case_safe case_note. Qed.

(** *** Segments *)

(** The header is there through a pointer of its width. *)
Lemma inside_section sg s l : (hd_64 hd = true -> P) -> inside P (check_section size sizeofhdrs hd sg s l).
Proof.
  intros Hw. unfold check_section. apply inside_bind; [destruct (hd_64 hd); [by apply Hw|done]|intros _ _]. cbv zeta.
  do 6 (apply inside_bad_if; intros _). apply inside_bind.
  - destruct (_ && _); [apply inside_element|exact I].
  - intros l' _. apply inside_table_element.
Qed.

Lemma inside_section_64 sg64 s64 l : (hd_64 hd = false -> P) -> inside P (check_section_64 size sizeofhdrs hd sg64 s64 l).
Proof.
  intros Hw. unfold check_section_64. apply inside_bind; [destruct (hd_64 hd); [done|by apply Hw]|intros _ _]. cbv zeta.
  do 3 (apply inside_bad_if; intros _). apply inside_bind.
  - destruct (_ && _); [apply inside_element|exact I].
  - intros l' _. apply inside_table_element.
Qed.

Lemma inside_sections sg n o l :
  (hd_64 hd = true -> P) ->
  (o + n * sizeof_section <= length m)%nat ->
  inside P (check_sections h size sizeofhdrs hd sg n o m l).
Proof.
  intros Hw. revert o l. induction n as [|n IH]; intros o l Ho; [exact I|]. cbn [check_sections].
  unfold load_at. rewrite in_bounds_true by lia. cbn [mbind outcome_bind].
  apply inside_bind; [by apply inside_section|intros l' _]. apply IH. lia.
Qed.

Lemma inside_sections_64 sg64 n o l :
  (hd_64 hd = false -> P) ->
  (o + n * sizeof_section_64 <= length m)%nat ->
  inside P (check_sections_64 h size sizeofhdrs hd sg64 n o m l).
Proof.
  intros Hw. revert o l. induction n as [|n IH]; intros o l Ho; [exact I|]. cbn [check_sections_64].
  unfold load_at. rewrite in_bounds_true by lia. cbn [mbind outcome_bind].
  apply inside_bind; [by apply inside_section_64|intros l' _]. apply IH. lia.
Qed.

Lemma segment_safe : (hd_64 hd = true -> P) -> safe (case_segment h false size sizeofhdrs hd lc cmdsize).
Proof.
  intros Hw. case_safe case_segment. apply inside_bind; [|intros; exact I]. apply inside_sections; [done|].
  pose proof (ld_u32_range h m (lc + 48)) as Hr.
  match goal with H : segment_command_cmdsize _ = _ |- _ => rename H into Hn end.
  rewrite sections_fit in Hn by (done || vm_compute; done).
  change (segment_command_cmdsize _) with (ld_u32 h m (lc + 4)) in Hn. rewrite <- Hcmd in Hn.
  change (in_uw 32 (segment_command_nsects (ld_segment_command h m lc))) in Hr.
  unfold in_uw, sizeof_segment_command, sizeof_section in *. lia.
Qed.

Lemma segment_64_safe : (hd_64 hd = false -> P) -> safe (case_segment_64 h false size sizeofhdrs hd lc cmdsize).
Proof.
  intros Hw. case_safe case_segment_64. apply inside_bind; [|intros; exact I]. apply inside_sections_64; [done|].
  pose proof (ld_u32_range h m (lc + 64)) as Hr.
  match goal with H : segment_command_64_cmdsize _ = _ |- _ => rename H into Hn end.
  rewrite sections_fit in Hn by (done || vm_compute; done).
  change (segment_command_64_cmdsize _) with (ld_u32 h m (lc + 4)) in Hn. rewrite <- Hcmd in Hn.
  change (in_uw 32 (segment_command_64_nsects (ld_segment_command_64 h m lc))) in Hr.
  unfold in_uw, sizeof_segment_command_64, sizeof_section_64 in *. lia.
Qed.

(** *** Thread states *)

Lemma inside_word {B} o (k : mem * Z -> outcome mach_o_failure B) :
  (o + 4 <= length m)%nat -> inside P (k (m, ld_u32 h m o)) -> inside P (swap_word h false o m ≫= k).
Proof.
  intros Ho Hk. unfold swap_word, load32, swap_at. rewrite in_bounds_true by lia. exact Hk.
Qed.

(** Each pass takes eight bytes at least. *)
Lemma inside_flavors fuel cases state p :
  (p <= length m)%nat -> (p <= state + fuel)%nat ->
  inside P (check_flavors swap_bitfields h false fuel cases state p m).
Proof.
  intros Hp. revert state. induction fuel as [|fuel IH]; intros state Hf; cbn [check_flavors];
    destruct (Nat.leb_spec p state) as [Hle|Hlt]; [exact I|lia|exact I|].
  apply inside_bad_if; intros H1%Nat.ltb_ge. apply inside_word; [lia|]. cbn beta iota.
  apply inside_bad_if; intros H2%Nat.ltb_ge. apply inside_word; [lia|]. cbn beta iota.
  destruct (List.find _ cases) as [[f [st|]]|].
  - do 2 (apply inside_bad_if; intros _). apply IH. lia.
  - apply IH. lia.
  - apply IH. lia.
Qed.

Lemma thread_safe : safe (case_thread swap_bitfields h false hd lc cmdsize).
Proof.
  case_safe case_thread. change (thread_command_cmdsize _) with (ld_u32 h m (lc + 4)).
  rewrite <- Hcmd. destruct (thread_cases (hd_cputype hd)); [|exact I].
  apply inside_bind; [|intros; exact I]. apply inside_flavors; lia.
Qed.

(** A segment command of the other width. *)
Definition other_width (is_64 : bool) (cmd : Z) : Prop :=
  cmd = if is_64 then LC_SEGMENT else LC_SEGMENT_64.

Lemma switch_safe :
  (other_width (hd_64 hd) cmd -> P) ->
  safe (switch_cmd swap_bitfields h false size sizeofhdrs hd lc cmd cmdsize).
Proof.
  unfold other_width. intros Hw. unfold switch_cmd.
  destruct (Z.eqb_spec cmd LC_SEGMENT) as [->|]; [apply segment_safe; by intros Hx; rewrite Hx in Hw; apply Hw|].
  destruct (Z.eqb_spec cmd LC_SEGMENT_64) as [->|];
    [apply segment_64_safe; by intros Hx; rewrite Hx in Hw; apply Hw|].
  repeat match goal with
  | |- safe (if ?c then _ else _) =>
      destruct c;
      [first [apply symtab_safe|apply dysymtab_safe
        |apply routines_safe|apply routines_64_safe|apply twolevel_hints_safe
        |apply linkedit_data_safe|apply version_min_macosx_safe|apply version_min_safe
        |apply build_version_safe|apply encryption_info_safe|apply encryption_info_64_safe
        |apply linker_option_safe|apply dyld_info_safe|apply prebind_cksum_safe
        |apply uuid_safe|apply symseg_safe|apply fvmlib_safe|apply dylib_safe
        |apply sub_framework_safe|apply sub_umbrella_safe|apply sub_library_safe
        |apply sub_client_safe|apply prebound_dylib_safe|apply dylinker_safe
        |apply thread_safe|apply main_safe|apply source_version_safe|apply ident_safe
        |apply rpath_safe|apply note_safe|apply fileset_entry_safe]|]
  end.
  intros s. exact I.
Qed.
End command.
End inside.

(** ** The loop *)

Section loop.
Context (swap_bitfields : bitfield_state -> host -> list byte -> list byte).
Context (h : host) (sizeofhdrs : Z) (hd : header) (m : mem).
Context (Hlen : Z.of_nat (length m) < 2 ^ 32).
Context (Hfit : (hd_size (hd_64 hd) + Z.to_nat (hd_sizeofcmds hd) <= length m)%nat).

Lemma inside_lc (P : Prop) e s :
  (other_width (hd_64 hd)
     (load_command_cmd (ld_load_command h m (hd_size (hd_64 hd) + Z.to_nat e))) -> P) -> 0 <= e ->
  inside P (check_lc swap_bitfields h false (Z.of_nat (length m)) sizeofhdrs hd e m s).
Proof.
  intros HP He. unfold check_lc. cbv zeta. apply inside_bad_if; intros H1%Z.ltb_ge.
  set (lc := (hd_size (hd_64 hd) + Z.to_nat e)%nat) in *. unfold sizeof_load_command in *.
  unfold load_at. rewrite in_bounds_true by (unfold lc; lia). cbn [mbind outcome_bind].
  set (l := ld_load_command h m lc) in *. pose proof (ld_u32_range h m (lc + 4)) as Hr.
  change (in_uw 32 (load_command_cmdsize l)) in Hr. unfold in_uw in Hr.
  apply inside_bad_if; intros _. apply inside_bad_if; intros H2%Z.ltb_ge.
  apply inside_bad_if; intros _. apply inside_bind.
  - apply switch_safe; first [done|lia|unfold lc; lia].
  - intros [m' s'] _. by apply inside_bad_if.
Qed.

Lemma inside_lcs n e s :
  0 <= e ->
  inside (exists lc cmd, (lc, cmd) ∈ load_commands_from h n (hd_size (hd_64 hd) + Z.to_nat e) m /\
                         other_width (hd_64 hd) cmd)
    (check_lcs swap_bitfields h false (Z.of_nat (length m)) sizeofhdrs hd n e m s).
Proof.
  revert e s. induction n as [|n IH]; intros e s He; [exact I|]. cbn [check_lcs load_commands_from].
  set (lc := (hd_size (hd_64 hd) + Z.to_nat e)%nat). apply inside_bind.
  - apply inside_lc; [|done]. intros Hw. eexists lc, _. split; [by left|done].
  - intros [[e' m'] s'] H. apply check_lc_Ret in H as (-> & -> & _); [|done]. fold lc.
    pose proof (ld_u32_range h m (lc + 4)) as Hr. unfold in_uw in Hr.
    eapply inside_impl; [|apply IH; simpl; lia]. intros (lc' & cmd & Hin & Hw). exists lc', cmd.
    split; [right|done]. rewrite Z2Nat.inj_add, Nat.add_assoc in Hin by (done || simpl; lia).
    exact Hin.
Qed.
End loop.

(** ** check_Mach_O *)

(** A segment command of the other width among the load commands. *)
Definition has_other_width (h : host) (is_64 : bool) (m : mem) : Prop :=
  exists lc cmd, (lc, cmd) ∈ load_commands_of h is_64 m /\ other_width is_64 cmd.

Lemma native_safe swap_bitfields h is_64 fat_cputype m :
  (hd_size is_64 <= length m)%nat -> Z.of_nat (length m) < 2 ^ 32 ->
  inside (has_other_width h is_64 m)
    (check_Mach_O swap_bitfields h false is_64 fat_cputype m).
Proof.
  intros Hm Hlen. unfold check_Mach_O. cbv zeta. apply inside_bind.
  { unfold check_header. destruct is_64; (apply inside_load; [exact Hm|exact I]). }
  intros [m1 hd] H. apply check_header_Ret in H as (-> & <- & _ & Hn & Hcmds).
  apply inside_bad_if; intros H1%Z.ltb_ge.
  pose proof (ld_u32_range h m 20) as Hr. rewrite <- Hcmds in Hr.
  rewrite (headers_size hd Hr) in *. unfold in_uw in Hr.
  apply inside_bind; [apply inside_element|intros els _]. apply inside_bad_if; intros _.
  apply inside_bind.
  - unfold has_other_width, load_commands_of. rewrite <- Hn.
    rewrite <- (Nat.add_0_r (hd_size (hd_64 hd))). apply (inside_lcs _ _ _ _ _ Hlen); lia.
  - intros [[e m2] s] _. apply inside_bind; [apply inside_pointers|intros _ _].
    by apply inside_bad_if.
Qed.

(** C14: check_Mach_O never looks outside of the file and ends, on hosts of
    both byte sexes, whatever the file holds.  It goes through the null pointer to the header of
    the other width only for a file with a segment command of that width. *)
Theorem check_Mach_O_safe swap_bitfields h swapped is_64 fat_cputype m :
  (forall st h bs, length (swap_bitfields st h bs) = length bs) ->
  (hd_size is_64 <= length m)%nat -> Z.of_nat (length m) < 2 ^ 32 ->
  match check_Mach_O swap_bitfields h swapped is_64 fat_cputype m with
  | Stop Outside | Stop No_fuel => False
  | Stop Null => has_other_width (if swapped then other h else h) is_64 m
  | _ => True
  end.
Proof.
  intros Hbits Hm Hlen. destruct swapped; [|by apply native_safe].
  pose proof (native_safe swap_bitfields (other h) is_64 fat_cputype m Hm Hlen) as Hn.
  pose proof (byte_sex_agrees swap_bitfields h is_64 fat_cputype m Hbits Hm) as Ha.
  unfold agrees in Ha. destruct (check_Mach_O _ h true _ _ _) as [|f]; [done|].
  destruct Ha as [[->| ->]|Heq]; [done|done|]. rewrite Heq in Hn. exact Hn.
Qed.

Lemma check_Mach_O_safe_witness :
  match check_Mach_O no_bitfields BE true true None
      (example_object LE) with
  | Stop Outside | Stop No_fuel => False
  | Stop Null => has_other_width LE true (example_object LE)
  | _ => True
  end.
Proof.
  apply (check_Mach_O_safe no_bitfields BE true true None);
    [done|apply Nat.leb_le; vm_compute; reflexivity|vm_compute; reflexivity].
Defined.

(** * Files check_Mach_O does not see through

    Small files on which the check does something else than its messages and
    comments say: it goes through a null pointer, it accepts ranges that wrap
    around 64 bits, it accepts what it reports as malformed, and it refuses a
    section without contents. *)

Definition check (is_64 : bool) (m : mem) : outcome mach_o_failure (mem * check_state) :=
  check_Mach_O no_bitfields LE false is_64 None m.

(** A 64-bit file, and one for 32 bits, with one command. *)
Definition file_64 (sizeofcmds : Z) (cmds : mem) : mem :=
  words LE [MH_MAGIC_64; CPU_TYPE_X86_64; 3; 1; 1; sizeofcmds; 0; 0] ++ cmds.

Definition file_32 (sizeofcmds : Z) (cmds : mem) : mem :=
  words LE [MH_MAGIC; CPU_TYPE_I386; 3; 1; 1; sizeofcmds; 0] ++ cmds.

Definition accepted (o : outcome mach_o_failure (mem * check_state)) : bool :=
  match o with Ret _ => true | Stop _ => false end.

(** *** Segments of the other width *)

Definition one_section_32 (flags size : Z) : mem :=
  words LE ([LC_SEGMENT; 124; 0; 0; 0; 0; 0; 0; 0; 0; 7; 7; 1; 0] ++ repeat 0 8 ++
    [0; size; 0; 0; 0; 0; flags; 0; 0]).

Definition one_section_64 (fileoff filesize offset size : Z) : mem :=
  words LE [LC_SEGMENT_64; 152; 0; 0; 0; 0] ++ long_long LE 0 ++ long_long LE 0 ++
  long_long LE fileoff ++ long_long LE filesize ++ words LE [7; 7; 1; 0] ++
  words LE (repeat 0 8) ++ long_long LE 0 ++ long_long LE size ++
  words LE [offset; 0; 0; 0; 0; 0; 0; 0].

(** The first statement on a section of LC_SEGMENT_64 reads the file type
    through [mh64], which is null in a 32-bit file; that of LC_SEGMENT through
    [mh].  Here LC_SEGMENT has two sections, for a size that is a multiple of 8. *)
Lemma segment_of_other_width :
  check false (file_32 152 (one_section_64 0 0 0 0)) = Stop Null /\
  check true (file_64 192 (words LE ([LC_SEGMENT; 192; 0; 0; 0; 0; 0; 0; 0; 0; 7; 7; 2; 0] ++
    repeat 0 34))) = Stop Null.
Proof. by vm_compute. Qed.

(** *** Ranges that wrap around *)

(** A section of nearly 2^64 bytes in a file of 184 bytes. *)
Lemma section_64_wraps :
  let m := file_64 152 (one_section_64 0 0 184 (2 ^ 64 - 184)) in
  accepted (check true m) = true /\ length m = 184%nat /\
  section_64_size (ld_section_64 LE m 104) = 2 ^ 64 - 184.
Proof. by vm_compute. Qed.

Lemma segment_64_wraps :
  let m := file_64 152 (one_section_64 184 (2 ^ 64 - 184) 0 0) in
  accepted (check true m) = true /\
  segment_command_64_filesize (ld_segment_command_64 LE m 32) = 2 ^ 64 - 184.
Proof. by vm_compute. Qed.

Definition note (offset size : Z) : mem :=
  words LE ([LC_NOTE; 40] ++ repeat 0 4) ++ long_long LE offset ++ long_long LE size.

Lemma note_wraps :
  accepted (check true (file_64 40 (note 72 (2 ^ 64 - 72)))) = true /\
  check true (file_64 40 (note 72 8)) = Stop (Bad Range_past_end).
Proof. by vm_compute. Qed.

(** *** What is reported and accepted *)

Definition build_version (platform : Z) : mem := words LE [LC_BUILD_VERSION; 24; platform; 0; 0; 0].

(** Three LC_BUILD_VERSION commands, two of them for macOS. *)
Lemma malformed_accepted :
  match check true (words LE [MH_MAGIC_64; CPU_TYPE_X86_64; 3; 2; 3; 72; 0; 0] ++
      build_version PLATFORM_MACOS ++ build_version PLATFORM_MACOS ++
      build_version PLATFORM_MACCATALYST) with
  | Ret (_, s) => cs_messages s = [Platforms_differ; Too_many_build_versions]
  | Stop _ => False
  end.
Proof. by vm_compute. Qed.

(** *** Zero-filled sections *)

(** A section of the type S_ZEROFILL has no contents, unless an attribute is
    set as well. *)
Lemma zerofill_with_attribute :
  accepted (check false (file_32 124 (one_section_32 S_ZEROFILL 4096))) = true /\
  check false (file_32 124 (one_section_32 (Z.lor 0x10000000 S_ZEROFILL) 4096)) =
    Stop (Bad Section_in_headers).
Proof. by vm_compute. Qed.
