(* ===== verification/Archive.v ===== *)
(** * Archives: libstuff/ofile.c and get_toc_byte_sex.c

    include/foreign/ar.h and the routines of libstuff/ofile.c that read an
    [ar_hdr].  The fields of a header are text without an end, and
    [strtoul] reads on to the first character that is not a digit, wherever
    that is.  A pointer is an offset in the memory the file is in.

    [check_archive] goes over the members of an archive, which is a file or a
    slice of a fat file, and checks that their headers and contents lie inside
    of it.  [check_archive_toc] checks the table of contents of an archive that
    is a file, and swaps it where it is; [get_toc_byte_sex] guesses the byte
    sex of the table from the first object file.  The host has pointers of 64
    bits. *)

From Stdlib Require Import ZArith Lia Bool.
From Stdlib Require Import Init.Byte Strings.Byte Ascii.
From stdpp Require Import base option numbers strings list.
From S2P Require Import Prelude CInt Strtoul CpuTypes LoaderH ByteSex HeaderSwap LoadCmdSwap.
From S2P Require Import TableSwap Rounding InPlace Assigns SwapHeaders NXSwap Fat CheckMachO.

(** ** include/foreign/ar.h *)

Definition text (s : string) : list byte := String.list_byte_of_string s.

Definition ARMAG : list byte := text "!<arch>" ++ [x0a].
Definition SARMAG : Z := 8.
Definition AR_EFMT1 : list byte := text "#1/".

Definition sizeof_ar_hdr : Z := 60.
Definition sizeof_ar_name : nat := 16.
(** The offset of [ar_size]. *)
Definition ar_size : Z := 48.

(** ** Failures *)

(** What is wrong with an archive; each comes with a message. *)
Inductive archive_error :=
  | No_magic | First_header_past_end | Header_past_file | Name_not_digit | Name_overflows
  | Name_other_characters | Name_past_end | Member_past_end | Fat_not_allowed.

(** Accesses outside of the memory, through a null pointer and to a buffer
    that was freed, a local that was never assigned, and a loop that does not
    end.  An object file is refused by [check_Mach_O]. *)
Inductive archive_failure :=
  | Archive_bad (e : archive_error)
  | Past_memory | Freed | Null_pointer | Uninitialized | Endless
  | Object_bad (f : mach_o_failure).

(** ** Memory *)

(** The byte at an offset, which can be in front of the memory. *)
Definition load8 (m : mem) (o : Z) : outcome archive_failure byte :=
  if o <? 0 then Stop Past_memory else or_stop Past_memory (m !! Z.to_nat o).

Definition load_word (h : host) (m : mem) (o : Z) : outcome archive_failure Z :=
  if o <? 0 then Stop Past_memory else or_stop Past_memory (load32 h m (Z.to_nat o)).

Fixpoint load_bytes (m : mem) (o : Z) (n : nat) : outcome archive_failure (list byte) :=
  match n with
  | O => Ret []
  | S n => b ← load8 m o; l ← load_bytes m (o + 1) n; Ret (b :: l)
  end.

(** [strncmp(p, s, n) == 0] for a literal [s], which ends with 0: the bytes
    behind the first difference are not read. *)
Fixpoint strncmp_is (m : mem) (o : Z) (s : list byte) (n : nat) {struct n}
    : outcome archive_failure bool :=
  match n with
  | O => Ret true
  | S n =>
      b ← load8 m o;
      match s with
      | [] => Ret (Byte.eqb b x00)
      | c :: s => if Byte.eqb b c then strncmp_is m (o + 1) s n else Ret false
      end
  end.

(** [strtoul(p, NULL, 10)].  The text must end in the memory. *)
Definition strtoul_end (s : string) : string :=
  (scan_digits 0 (scan_sign (skip_spaces s)).2).2.

Definition text_at (m : mem) (o : Z) : string :=
  String.string_of_list_byte (drop (Z.to_nat o) m).

Definition strtoul_at (m : mem) (o : Z) : outcome archive_failure Z :=
  if o <? 0 then Stop Past_memory
  else if String.eqb (strtoul_end (text_at m o)) "" then Stop Past_memory
  else Ret (strtoul (text_at m o)).1.

(** ** size_ar_name *)

(** [do{ ... i--; }while(i > 0)], for a name that ends with a blank. *)
Fixpoint trailing_blanks (ar_name : list byte) (i : nat) : nat :=
  match i with
  | O => O
  | S i' => if Byte.eqb (nth i ar_name x00) x20 then trailing_blanks ar_name i' else i
  end.

Definition size_ar_name (ar_name : list byte) : Z :=
  let i := trailing_blanks ar_name (sizeof_ar_name - 1) in
  let i := if (1 <? i)%nat && Byte.eqb (nth i ar_name x00) x2f then (i - 1)%nat else i in
  Z.of_nat i + 1.

(** ** check_extend_format_1 *)

(** The loop over blanks at [endp]. *)
Fixpoint skip_blanks (s : string) : string :=
  match s with
  | String a s' => if Ascii.eqb a " " then skip_blanks s' else s
  | EmptyString => s
  end.

(** A string of the bytes in front of the first 0. *)
Fixpoint string_of (l : list byte) : string :=
  match l with
  | [] => EmptyString
  | b :: l => if Byte.eqb b x00 then EmptyString else String (ascii_of_byte b) (string_of l)
  end.

(** [erange]: the value [errno] has is ERANGE; nothing sets it to 0 before. *)
Definition check_extend_format_1 (erange : bool) (ar_name : list byte) (size_left : Z)
    : outcome archive_failure Z :=
  let p := string_of (drop (length AR_EFMT1) ar_name) in
  if negb (starts_with_digit p) then Stop (Archive_bad Name_not_digit)
  else
    let '(n, endp) := strtoul p in
    let ar_name_size := u32 n in
    if (ar_name_size =? 2 ^ 32 - 1) && erange then Stop (Archive_bad Name_overflows)
    else if negb (String.eqb (skip_blanks endp) "") then Stop (Archive_bad Name_other_characters)
    else if size_left <? ar_name_size then Stop (Archive_bad Name_past_end)
    else Ret ar_name_size.

(** ** A header *)

(** What is read of the header at an offset. *)
Record ar_hdr := {
  hdr_at : Z;
  hdr_name : list byte;
  hdr_size : Z;
}.

Definition read_ar_hdr (m : mem) (o : Z) : outcome archive_failure ar_hdr :=
  name ← load_bytes m o sizeof_ar_name;
  n ← strtoul_at m (o + ar_size);
  Ret {| hdr_at := o; hdr_name := name; hdr_size := n |}.

(** [strncmp(name, s, sizeof(s) - 1) == 0] *)
Fixpoint begins (s name : list byte) : bool :=
  match s, name with
  | [], _ => true
  | c :: s, b :: name => Byte.eqb b c && begins s name
  | _ :: _, [] => false
  end.

Definition is_efmt1 (name : list byte) : bool := begins AR_EFMT1 name.

(** The size in a name of extended format 1, read where it is: the 13
    characters have no end. *)
Definition efmt1_size (m : mem) (hdr : Z) : outcome archive_failure Z :=
  n ← strtoul_at m (hdr + 3); Ret (u32 n).

(** ** The archive *)

(** [addr - file_addr], [size], and of a slice the architecture. *)
Record archive := {
  ar_addr : Z;
  ar_bytes : Z;
  ar_fat : option (cpu_type_t * cpu_subtype_t);
}.

Definition thin_archive (m : mem) : archive :=
  {| ar_addr := 0; ar_bytes := Z.of_nat (length m); ar_fat := None |}.

Definition is_thin (a : archive) : bool := negb (is_some (ar_fat a)).

Section check.
Context (h : host).
(** The memory the file is in: the file, and what follows it in its pages. *)
Context (m : mem) (file_size : Z) (erange : bool).

(** ** check_archive *)

(** The members whose cputype differs from that of the others. *)
Record archive_check := {
  ac_cputype : cpu_type_t;
  ac_cpusubtype : cpu_subtype_t;
  ac_mismatches : list Z;
}.

(** The locals [mh] and [mh64], which keep what the last member that had a
    header left in them. *)
Record header_locals := {
  hl_mh : option (cpu_type_t * cpu_subtype_t);
  hl_mh64 : option (cpu_type_t * cpu_subtype_t);
}.

Definition no_locals : header_locals := {| hl_mh := None; hl_mh64 := None |}.

(** The header of a member at an offset, with its size, the size of its name
    and the offset of its contents. *)
Record member_header := {
  mb_hdr : ar_hdr;
  mb_name_size : Z;
  mb_offset : Z;
  mb_size : Z;
}.

(** Magic numbers of object files, and after [SWAP_INT]. *)
Definition magic_of (magic magic_h : Z) : bool :=
  (magic =? magic_h) || (magic =? SWAP_INT magic_h).

(** A cputype of a member is that of the archive, or the first one. *)
Definition note_cputype (off : Z) (mh : option (cpu_type_t * cpu_subtype_t)) (c : archive_check)
    : outcome archive_failure archive_check :=
  match mh with
  | None => Stop Uninitialized
  | Some (cputype, cpusubtype) =>
      Ret (if ac_cputype c =? 0
           then {| ac_cputype := cputype; ac_cpusubtype := cpusubtype;
                   ac_mismatches := ac_mismatches c |}
           else if negb (ac_cputype c =? cputype)
           then {| ac_cputype := ac_cputype c; ac_cpusubtype := ac_cpusubtype c;
                   ac_mismatches := ac_mismatches c ++ [off] |}
           else c)
  end.

Section archive.
Context (a : archive) (archives_with_fat_objects : bool).

(** What is done with the first word of a member. *)
Definition check_magic (off : Z) (hl : header_locals) (c : archive_check)
    : outcome archive_failure (header_locals * archive_check) :=
  let p := ar_addr a + off in
  let left := ar_bytes a - off in
  magic ← load_word h m p;
  if is_fat_magic h magic then
    if negb archives_with_fat_objects || negb (is_thin a) then Stop (Archive_bad Fat_not_allowed)
    else Ret (hl, c)
  else
    '(magic, hl) ←
      (if (Z.of_nat sizeof_mach_header <=? left) && magic_of magic MH_MAGIC then
         _ ← load_bytes m p sizeof_mach_header;
         let mh := ld_mach_header h m (Z.to_nat p) in
         let mh := if magic =? SWAP_INT MH_MAGIC then swap_mach_header mh else mh in
         Ret (MH_MAGIC, {| hl_mh := Some (mach_header_cputype mh, mach_header_cpusubtype mh);
                           hl_mh64 := hl_mh64 hl |})
       else if (Z.of_nat sizeof_mach_header_64 <=? left) && magic_of magic MH_MAGIC_64 then
         _ ← load_bytes m p sizeof_mach_header_64;
         let mh64 := ld_mach_header_64 h m (Z.to_nat p) in
         let mh64 := if magic =? SWAP_INT MH_MAGIC_64 then swap_mach_header_64 mh64 else mh64 in
         Ret (MH_MAGIC_64, {| hl_mh := hl_mh hl;
                              hl_mh64 := Some (mach_header_64_cputype mh64,
                                               mach_header_64_cpusubtype mh64) |})
       else Ret (magic, hl));
    c ← (if magic =? MH_MAGIC then note_cputype off (hl_mh hl) c
         else if magic =? MH_MAGIC_64 then note_cputype off (hl_mh64 hl) c
         else Ret c);
    Ret (hl, c).

(** The header of the member at [offset], and what it says of the contents. *)
Definition check_member_header (offset : Z) : outcome archive_failure member_header :=
  if file_size <? ar_addr a + offset then Stop (Archive_bad Header_past_file)
  else
    ar_hdr ← read_ar_hdr m (ar_addr a + offset);
    let member_size := u32 (hdr_size ar_hdr) in
    let offset := offset + sizeof_ar_hdr in
    if is_efmt1 (hdr_name ar_hdr) then
      ar_name_size ← check_extend_format_1 erange (hdr_name ar_hdr) (u32 (ar_bytes a - offset));
      Ret {| mb_hdr := ar_hdr; mb_name_size := ar_name_size; mb_offset := offset + ar_name_size;
             mb_size := u32 (member_size - ar_name_size) |}
    else
      Ret {| mb_hdr := ar_hdr; mb_name_size := 0; mb_offset := offset; mb_size := member_size |}.

(** [while(size > offset)] *)
Fixpoint check_members (fuel : nat) (offset : Z) (hl : header_locals) (c : archive_check)
    : outcome archive_failure archive_check :=
  if ar_bytes a <=? offset then Ret c
  else match fuel with
  | O => Stop Endless
  | S fuel =>
      mb ← check_member_header offset;
      let offset := mb_offset mb in
      let big_size := u64 (rnd (mb_size mb) 2 + offset) in
      if ar_bytes a <? big_size then Stop (Archive_bad Member_past_end)
      else
        '(hl, c) ← (if 4 <? ar_bytes a - offset then check_magic offset hl c else Ret (hl, c));
        check_members fuel (offset + rnd (mb_size mb) 2) hl c
  end.

Definition check_archive : outcome archive_failure archive_check :=
  let c := match ar_fat a with
           | Some (cputype, cpusubtype) =>
               {| ac_cputype := cputype; ac_cpusubtype := cpusubtype; ac_mismatches := [] |}
           | None => {| ac_cputype := 0; ac_cpusubtype := 0; ac_mismatches := [] |}
           end in
  magic ← load_bytes m (ar_addr a) (if ar_bytes a <? SARMAG then 0 else Z.to_nat SARMAG);
  if (ar_bytes a <? SARMAG) || negb (begins ARMAG magic) then Stop (Archive_bad No_magic)
  else if ar_bytes a =? SARMAG then Ret c
  else if ar_bytes a <? SARMAG + sizeof_ar_hdr then Stop (Archive_bad First_header_past_end)
  else check_members (Z.to_nat (ar_bytes a)) SARMAG no_locals c.
End archive.
End check.

(** ** include/mach-o/ranlib.h *)

Definition SYMDEF : list byte := text "__.SYMDEF".
Definition SYMDEF_SORTED : list byte := text "__.SYMDEF SORTED".
Definition SYMDEF_64 : list byte := text "__.SYMDEF_64".
Definition SYMDEF_64_SORTED : list byte := text "__.SYMDEF_64 SORTED".

Definition ranlib_assigns : list assign := [INT 0; INT 4].
Definition ranlib_64_assigns : list assign := [LONG_LONG 0; LONG_LONG 8].
Definition sizeof_ranlib : nat := 8.
Definition sizeof_ranlib_64 : nat := 16.

Definition load_long (h : host) (m : mem) (o : Z) : outcome archive_failure Z :=
  if o <? 0 then Stop Past_memory
  else if in_bounds m (Z.to_nat o) 8 then Ret (ld_u64 h m (Z.to_nat o)) else Stop Past_memory.

(** ** get_toc_byte_sex *)

Section sex.
Context (h : host) (m : mem) (size : Z).

(** [p - addr]; [size] is that of the file. *)
Fixpoint toc_byte_sex_loop (fuel : nat) (p : Z) : outcome archive_failure byte_sex :=
  if negb (p + sizeof_ar_hdr + 4 <? size) then Ret UNKNOWN_BYTE_SEX
  else match fuel with
  | O => Stop Endless
  | S fuel =>
      name ← load_bytes m p 3;
      ar_name_size ← (if is_efmt1 name then efmt1_size m p else Ret 0);
      magic ← load_word h m (p + sizeof_ar_hdr + ar_name_size);
      if (magic =? MH_MAGIC) || (magic =? MH_MAGIC_64) then Ret (host_sex h)
      else if (magic =? SWAP_INT MH_MAGIC) || (magic =? SWAP_INT MH_MAGIC_64)
      then Ret (host_sex (other h))
      else
        n ← strtoul_at m (p + ar_size);
        if size <? n then Ret UNKNOWN_BYTE_SEX
        else toc_byte_sex_loop fuel (p + sizeof_ar_hdr + rnd n 2)
  end.

(** The size of the first member is not compared with anything: the sum can
    wrap around and be in front of the file. *)
Definition get_toc_byte_sex : outcome archive_failure byte_sex :=
  n ← strtoul_at m (SARMAG + ar_size);
  toc_byte_sex_loop (Z.to_nat size) (SARMAG + sizeof_ar_hdr + i64 (rnd n 2)).
End sex.

(** ** check_archive_toc *)

(** The fields [toc_*]; [None] for the pointers that were set to NULL. *)
Record toc := {
  toc_is_32bit : bool;
  toc_ranlibs : option Z;
  toc_nranlibs : Z;
  toc_strings : option Z;
  toc_strsize : Z;
  toc_bad : bool;
}.

Definition no_toc : toc :=
  {| toc_is_32bit := true; toc_ranlibs := None; toc_nranlibs := 0; toc_strings := None;
     toc_strsize := 0; toc_bad := false |}.

Definition bad_toc : toc :=
  {| toc_is_32bit := true; toc_ranlibs := None; toc_nranlibs := 0; toc_strings := None;
     toc_strsize := 0; toc_bad := true |}.

(** The test of a [struct ranlib]: [strx] and [ran_off]. *)
Definition good_ranlib (is_32bit : bool) (strsize file_size : Z) (r : Z * Z) : bool :=
  (fst r <? strsize) && (snd r <? file_size) && (snd r mod (if is_32bit then 4 else 8) =? 0).

Section toc.
Context (h : host) (sex : byte_sex) (file_size : Z).
(** The memory the table is in, at [toc_addr]. *)
Context (toc_addr symdef_length : Z).

(** [toc_byte_sex != host_byte_sex] *)
Definition toc_swapped : bool := negb (bool_decide (sex = host_sex h)).

(** The words of a table of 32 or 64 bits. *)
Definition toc_word (is_32bit : bool) (m : mem) (o : Z) : outcome archive_failure Z :=
  if is_32bit then w ← load_word h m o; Ret (if toc_swapped then SWAP_INT w else w)
  else w ← load_long h m o; Ret (if toc_swapped then u64 (SWAP_LONG_LONG w) else w).

Definition word_size (is_32bit : bool) : Z := if is_32bit then 4 else 8.
Definition ranlib_size (is_32bit : bool) : nat :=
  if is_32bit then sizeof_ranlib else sizeof_ranlib_64.

Definition swap_ranlibs (is_32bit : bool) (n : nat) (o : Z) (m : mem)
    : outcome archive_failure mem :=
  if toc_swapped then
    or_stop Past_memory
      (do_array h (Z.to_nat o) (ranlib_size is_32bit) n
         (if is_32bit then ranlib_assigns else ranlib_64_assigns) m)
  else Ret m.

Definition ranlib_at (is_32bit : bool) (m : mem) (o : Z) : Z * Z :=
  if is_32bit then
    let r := ld_ranlib h m (Z.to_nat o) in (ranlib_ran_un_ran_strx r, ranlib_ran_off r)
  else
    let r := ld_ranlib_64 h m (Z.to_nat o) in
    (ranlib_64_ran_un_ran_strx r, ranlib_64_ran_off r).

(** [for(i = 0; i < n; i++)], until one is bad. *)
Fixpoint check_ranlibs (is_32bit : bool) (strsize : Z) (n : nat) (o : Z) (m : mem)
    : outcome archive_failure bool :=
  match n with
  | O => Ret true
  | S n =>
      _ ← load_bytes m o (ranlib_size is_32bit);
      if good_ranlib is_32bit strsize file_size (ranlib_at is_32bit m o)
      then check_ranlibs is_32bit strsize n (o + Z.of_nat (ranlib_size is_32bit)) m
      else Ret false
  end.

(** Both branches, for [toc_is_32bit] and else. *)
Definition check_toc (is_32bit : bool) (m : mem) : outcome archive_failure (mem * toc) :=
  let w := word_size is_32bit in
  let each := Z.of_nat (ranlib_size is_32bit) in
  if bool_decide (sex = UNKNOWN_BYTE_SEX) then Ret (m, bad_toc)
  else
    n ← toc_word is_32bit m toc_addr;
    let n := n / each in
    let ranlibs := toc_addr + w in
    let offset := u64 (w + each * n) in
    if n =? 0 then Ret (m, no_toc)
    else if symdef_length <? u64 (offset - 2 * w) then Ret (m, bad_toc)
    else
      strsize ← toc_word is_32bit m (toc_addr + offset);
      let offset := u64 (offset + w) in
      let strings := toc_addr + offset in
      let offset := u64 (offset + strsize) in
      if symdef_length <? u64 (offset - 2 * w) then Ret (m, bad_toc)
      else if symdef_length =? 2 * w then Ret (m, no_toc)
      else
        m ← swap_ranlibs is_32bit (Z.to_nat n) ranlibs m;
        good ← check_ranlibs is_32bit strsize (Z.to_nat n) ranlibs m;
        Ret (m, if good : bool
                then {| toc_is_32bit := is_32bit; toc_ranlibs := Some ranlibs; toc_nranlibs := n;
                        toc_strings := Some strings; toc_strsize := strsize; toc_bad := false |}
                else bad_toc).
End toc.

(** The name of the member, in the file, chooses between 32 and 64 bits. *)
Definition toc_is_64 (file : mem) (member_name member_name_size : Z)
    : outcome archive_failure bool :=
  s ← strncmp_is file member_name SYMDEF_64_SORTED (Z.to_nat member_name_size);
  if s : bool then Ret true
  else strncmp_is file member_name SYMDEF_64 (Z.to_nat member_name_size).

(** [None]: the archive is not a file, the fields are cleared only. *)
Definition check_archive_toc (h : host) (file_size : Z) (file : mem) (thin : bool)
    (member_name member_name_size : Z) (m : mem) (toc_addr toc_size : Z)
    : outcome archive_failure (mem * toc) :=
  if negb thin then Ret (m, no_toc)
  else
    is_64 ← toc_is_64 file member_name member_name_size;
    if toc_size <? 2 * word_size (negb is_64) then Ret (m, bad_toc)
    else
      sex ← get_toc_byte_sex h file (u32 file_size);
      check_toc h sex file_size toc_addr toc_size (negb is_64) m.
