(* ===== verification/Members.v ===== *)
(** * libstuff/ofile.c: the members of an archive

    [ofile_first_member], [ofile_next_member] and [ofile_specific_member] make
    a member the current one of an [ofile]: its name, where it is, and its
    type; object files are checked and swapped where they are.  A member that
    is not at a multiple of 8 bytes is copied to a buffer, which lasts until
    the next member.  LTO_SUPPORT and OTOOL are not defined. *)

From Stdlib Require Import ZArith Lia Bool.
From Stdlib Require Import Init.Byte.
From stdpp Require Import base option numbers strings pretty list.
From S2P Require Import Prelude CInt CpuTypes LoaderH ByteSex HeaderSwap LoadCmdSwap.
From S2P Require Import TableSwap Rounding InPlace Assigns SwapHeaders SwapHeadersSpec Fat CheckMachO.
From S2P Require Import Archive.

(** ** struct ofile *)

Inductive ofile_type := OFILE_UNKNOWN | OFILE_FAT | OFILE_ARCHIVE | OFILE_Mach_O.

(** A buffer has a number, so that a pointer to one that was freed is known. *)
Inductive pointer := Null_ptr | In_file (o : Z) | In_buffer (id : nat) (o : Z).

Inductive archive_message :=
  | Msg_no_magic | Msg_first_header | Msg_next_header | Msg_header_past_file
  | Msg_size_past_end | Msg_name_past_end | Msg_member_past_file | Msg_no_member_selected
  | Msg_fat_structs | Msg_fat_object | Msg_no_member_named.

(** The fields [member_*], and of object files [object_*] with [mh64 != NULL]. *)
Record member := {
  member_offset : Z;
  member_addr : pointer;
  member_size : Z;
  member_ar_hdr : option Z;
  member_name : pointer;
  member_name_size : Z;
  member_type : ofile_type;
}.

Definition no_member : member :=
  {| member_offset := 0; member_addr := Null_ptr; member_size := 0; member_ar_hdr := None;
     member_name := Null_ptr; member_name_size := 0; member_type := OFILE_UNKNOWN |}.

Record object := {
  object_addr : pointer;
  object_size : Z;
  object_byte_sex : byte_sex;
  object_64 : bool;
}.

(** The fields of the table of contents, [toc_addr] to [toc_name_size]. *)
Record toc_member := {
  tm_addr : pointer;
  tm_size : Z;
  tm_ar_hdr : option Z;
  tm_name : pointer;
  tm_name_size : Z;
}.

(** [of_buffers] counts the buffers, of which [member_buffer] is the last. *)
Record ofile := {
  file_memory : mem;
  of_buffers : nat;
  member_buffer : option mem;
  of_member : member;
  of_object : option object;
  of_fat_header : pointer;
  of_toc_member : option toc_member;
  of_toc : toc;
  sysv_ar_strtab : pointer;
  sysv_ar_strtab_size : Z;
  of_messages : list archive_message;
}.

Definition set_member (mb : member) (o : ofile) : ofile :=
  {| file_memory := file_memory o; of_buffers := of_buffers o; member_buffer := member_buffer o;
     of_member := mb; of_object := of_object o; of_fat_header := of_fat_header o;
     of_toc_member := of_toc_member o; of_toc := of_toc o; sysv_ar_strtab := sysv_ar_strtab o;
     sysv_ar_strtab_size := sysv_ar_strtab_size o; of_messages := of_messages o |}.

Definition set_object (ob : option object) (o : ofile) : ofile :=
  {| file_memory := file_memory o; of_buffers := of_buffers o; member_buffer := member_buffer o;
     of_member := of_member o; of_object := ob; of_fat_header := of_fat_header o;
     of_toc_member := of_toc_member o; of_toc := of_toc o; sysv_ar_strtab := sysv_ar_strtab o;
     sysv_ar_strtab_size := sysv_ar_strtab_size o; of_messages := of_messages o |}.

Definition set_fat_header (p : pointer) (o : ofile) : ofile :=
  {| file_memory := file_memory o; of_buffers := of_buffers o; member_buffer := member_buffer o;
     of_member := of_member o; of_object := of_object o; of_fat_header := p;
     of_toc_member := of_toc_member o; of_toc := of_toc o; sysv_ar_strtab := sysv_ar_strtab o;
     sysv_ar_strtab_size := sysv_ar_strtab_size o; of_messages := of_messages o |}.

Definition set_toc (tm : option toc_member) (t : toc) (o : ofile) : ofile :=
  {| file_memory := file_memory o; of_buffers := of_buffers o; member_buffer := member_buffer o;
     of_member := of_member o; of_object := of_object o; of_fat_header := of_fat_header o;
     of_toc_member := tm; of_toc := t; sysv_ar_strtab := sysv_ar_strtab o;
     sysv_ar_strtab_size := sysv_ar_strtab_size o; of_messages := of_messages o |}.

Definition set_strtab (p : pointer) (n : Z) (o : ofile) : ofile :=
  {| file_memory := file_memory o; of_buffers := of_buffers o; member_buffer := member_buffer o;
     of_member := of_member o; of_object := of_object o; of_fat_header := of_fat_header o;
     of_toc_member := of_toc_member o; of_toc := of_toc o; sysv_ar_strtab := p;
     sysv_ar_strtab_size := n; of_messages := of_messages o |}.

Definition say (msg : archive_message) (o : ofile) : ofile :=
  {| file_memory := file_memory o; of_buffers := of_buffers o; member_buffer := member_buffer o;
     of_member := of_member o; of_object := of_object o; of_fat_header := of_fat_header o;
     of_toc_member := of_toc_member o; of_toc := of_toc o; sysv_ar_strtab := sysv_ar_strtab o;
     sysv_ar_strtab_size := sysv_ar_strtab_size o; of_messages := of_messages o ++ [msg] |}.

Definition set_file_memory (m : mem) (id : nat) (buffer : option mem) (o : ofile) : ofile :=
  {| file_memory := m; of_buffers := id; member_buffer := buffer;
     of_member := of_member o; of_object := of_object o; of_fat_header := of_fat_header o;
     of_toc_member := of_toc_member o; of_toc := of_toc o; sysv_ar_strtab := sysv_ar_strtab o;
     sysv_ar_strtab_size := sysv_ar_strtab_size o; of_messages := of_messages o |}.

Definition free_buffer (o : ofile) : ofile := set_file_memory (file_memory o) (of_buffers o) None o.

(** What the statements at [cleanup] clear. *)
Definition clear_member (o : ofile) : ofile :=
  set_object None (set_member no_member (free_buffer o)).

(** ** Pointers *)

(** The memory a pointer points into, and the offset there. *)
Definition region (o : ofile) (p : pointer) : outcome archive_failure (mem * Z) :=
  match p with
  | Null_ptr => Stop Null_pointer
  | In_file z => Ret (file_memory o, z)
  | In_buffer id z =>
      match member_buffer o with
      | Some b => if Nat.eqb id (of_buffers o) then Ret (b, z) else Stop Freed
      | None => Stop Freed
      end
  end.

(** The memory after stores through a pointer. *)
Definition set_region (p : pointer) (m : mem) (o : ofile) : ofile :=
  match p with
  | Null_ptr => o
  | In_file _ => set_file_memory m (of_buffers o) (member_buffer o) o
  | In_buffer _ _ => set_file_memory (file_memory o) (of_buffers o) (Some m) o
  end.

Definition move (p : pointer) (n : Z) : pointer :=
  match p with
  | Null_ptr => Null_ptr
  | In_file z => In_file (z + n)
  | In_buffer id z => In_buffer id (z + n)
  end.

Section members.
Context (swap_bitfields : bitfield_state -> host -> list byte -> list byte).
Context (h : host).
(** The archive, and the size of the file, which may end before its memory. *)
Context (a : archive) (file_size : Z).

(** ** member_addr_set *)

(** The buffer has the [member_size] bytes; [None] is FALSE. *)
Definition member_addr_set (o : ofile) : outcome archive_failure (option ofile) :=
  let mb := of_member o in
  let p := ar_addr a + member_offset mb in
  let set addr := set_member
    {| member_offset := member_offset mb; member_addr := addr; member_size := member_size mb;
       member_ar_hdr := member_ar_hdr mb; member_name := member_name mb;
       member_name_size := member_name_size mb; member_type := member_type mb |} in
  if file_size <? p + member_size mb then Ret None
  else
    let o := free_buffer o in
    if negb (member_offset mb mod 8 =? 0) then
      bs ← load_bytes (file_memory o) p (Z.to_nat (member_size mb));
      let id := S (of_buffers o) in
      Ret (Some (set (In_buffer id 0) (set_file_memory (file_memory o) id (Some bs) o)))
    else Ret (Some (set (In_file p) o)).

(** ** Fat files in an archive *)

Inductive fat_object_error :=
  | Not_in_archive
  | Fat_object (e : fat_error)
  | Object_too_small (i : nat)
  | Object_bad_magic (i : nat).

(** An architecture of the fat file at [z]. *)
Definition load_arch (magic64 : bool) (m : mem) (z : nat) (i : nat)
    : outcome archive_failure arch_fields :=
  if in_bounds m (z + sizeof_fat_header + i * sizeof_arch magic64) (sizeof_arch magic64)
  then Ret (arch_at h magic64 (drop z m) i) else Stop Past_memory.

Definition check_fat_object (file : mem) (mb : member) (i : nat) (arch : arch_fields)
    : outcome archive_failure (option fat_object_error) :=
  match check_arch_fields (member_size mb) i arch with
  | Some e => Ret (Some (Fat_object e))
  | None =>
      if af_size arch <? Z.of_nat sizeof_mach_header then Ret (Some (Object_too_small i))
      else
        magic ← load_word h file (u64 (member_offset mb + af_offset arch));
        Ret (if magic_of magic MH_MAGIC || magic_of magic MH_MAGIC_64 then None
             else Some (Object_bad_magic i))
  end.

Fixpoint check_fat_objects (file : mem) (mb : member) (magic64 : bool) (m : mem) (z : nat)
    (n i : nat) : outcome archive_failure (option fat_object_error) :=
  match n with
  | O => Ret None
  | S n =>
      arch ← load_arch magic64 m z i;
      e ← check_fat_object file mb i arch;
      match e with
      | Some e => Ret (Some e)
      | None => check_fat_objects file mb magic64 m z n (S i)
      end
  end.

(** The fat header is at [z] of the memory [m]. *)
Definition check_fat_object_in_archive (o : ofile) (magic64 : bool) (m : mem) (z n : nat)
    : outcome archive_failure (option fat_object_error) :=
  if negb (is_thin a) then Ret (Some Not_in_archive)
  else if (n =? 0)%nat then Ret (Some (Fat_object No_architectures))
  else
    e ← check_fat_objects (file_memory o) (of_member o) magic64 m z n 0;
    Ret (match e with
         | Some e => Some e
         | None => Fat_object <$> check_pairs 0 (archs_at h magic64 (drop z m) n)
         end).

Definition set_member_type (t : ofile_type) (o : ofile) : ofile :=
  let mb := of_member o in
  set_member {| member_offset := member_offset mb; member_addr := member_addr mb;
                member_size := member_size mb; member_ar_hdr := member_ar_hdr mb;
                member_name := member_name mb; member_name_size := member_name_size mb;
                member_type := t |} o.

(** The calls under [#ifdef __LITTLE_ENDIAN__]. *)
Definition swap_on_LE (f : mem -> option mem) (m : mem) : outcome archive_failure mem :=
  match h with LE => or_stop Past_memory (f m) | BE => Ret m end.

(** A member that is a fat file, with its header at [p].  The sum of the sizes
    has 32 bits.  [None] is [goto fatcleanup]. *)
Definition fat_member (p : pointer) (o : ofile) : outcome archive_failure (option ofile * ofile) :=
  let o := set_fat_header p (set_member_type OFILE_FAT o) in
  '(m, z) ← region o p;
  let z := Z.to_nat z in
  m ← swap_on_LE (do_assigns h z fat_header_assigns) m;
  let o := set_region p m o in
  let fat_header := ld_fat_header h m z in
  let magic64 := fat_header_magic fat_header =? FAT_MAGIC_64 in
  let nfat_arch := fat_header_nfat_arch fat_header in
  let sizeof_fat_archs := u32 (nfat_arch * Z.of_nat (sizeof_arch magic64)) in
  if member_size (of_member o) <? Z.of_nat sizeof_fat_header + sizeof_fat_archs
  then Ret (None, say Msg_fat_structs o)
  else
    m ← swap_on_LE (do_array h (z + sizeof_fat_header) (sizeof_arch magic64) (Z.to_nat nfat_arch)
                      (if magic64 then fat_arch_64_assigns else fat_arch_assigns)) m;
    let o := set_region p m o in
    e ← check_fat_object_in_archive o magic64 m z (Z.to_nat nfat_arch);
    Ret (match e with
         | Some _ => (None, say Msg_fat_object o)
         | None => (Some o, o)
         end).

(** ** Object files *)

(** An object file in the member.  The header may reach behind the member:
    [check_Mach_O] then looks outside of the bytes it is given. *)
Definition object_member (is_64 swapped : bool) (o : ofile) : outcome archive_failure ofile :=
  let mb := of_member o in
  '(m, z) ← region o (member_addr mb);
  let bytes := take (Z.to_nat (member_size mb)) (drop (Z.to_nat z) m) in
  match check_Mach_O swap_bitfields h swapped is_64 (fst <$> ar_fat a) bytes with
  | Stop f => Stop (Object_bad f)
  | Ret (bytes, _) =>
      Ret (set_object
             (Some {| object_addr := member_addr mb; object_size := member_size mb;
                      object_byte_sex := host_sex (if swapped then other h else h);
                      object_64 := is_64 |})
             (set_member_type OFILE_Mach_O
                (set_region (member_addr mb) (write m (Z.to_nat z) bytes) o)))
  end.

(** The first word of the member, at [p]; [left] are the bytes of the archive
    from the contents of the member on. *)
Definition identify_member (p : pointer) (left : Z) (o : ofile)
    : outcome archive_failure (option ofile * ofile) :=
  '(m, z) ← region o p;
  magic ← load_word h m z;
  if is_fat_magic h magic then fat_member p o
  else
    o ← (if (Z.of_nat sizeof_mach_header <=? left) && magic_of magic MH_MAGIC
         then object_member false (negb (magic =? MH_MAGIC)) o
         else if (Z.of_nat sizeof_mach_header_64 <=? left) && magic_of magic MH_MAGIC_64
         then object_member true (negb (magic =? MH_MAGIC_64)) o
         else Ret o);
    Ret (Some o, o).

(** At [fatcleanup] and at [cleanup]. *)
Definition finish (r : option ofile * ofile) : bool * ofile :=
  match fst r with
  | Some o => (true, o)
  | None => (false, clear_member (set_fat_header Null_ptr (snd r)))
  end.

(** ** ofile_first_member *)

(** [addr] has the magic string. *)
Definition has_magic (o : ofile) : outcome archive_failure bool :=
  if ar_bytes a <? SARMAG then Ret false
  else magic ← load_bytes (file_memory o) (ar_addr a) (Z.to_nat SARMAG); Ret (begins ARMAG magic).

(** The size in the header, cut to what the archive can have. *)
Definition cut_member_size (n : Z) (o : ofile) : Z * ofile :=
  if ar_bytes a - sizeof_ar_hdr <? n
  then (u32 (ar_bytes a - sizeof_ar_hdr), say Msg_size_past_end o) else (n, o).

(** A name of extended format 1 behind the header; the size of the name. *)
Definition efmt1_member (hdr : Z) (mb : member) (o : ofile)
    : outcome archive_failure (Z * ofile) :=
  n ← efmt1_size (file_memory o) hdr;
  let '(n, o) := if member_size mb <? n then (member_size mb, say Msg_name_past_end o)
                 else (n, o) in
  Ret (n, set_member
            {| member_offset := member_offset mb + n; member_addr := member_addr mb;
               member_size := u32 (member_size mb - n); member_ar_hdr := member_ar_hdr mb;
               member_name := In_file (hdr + sizeof_ar_hdr); member_name_size := n;
               member_type := member_type mb |} o).

(** A name in the header. *)
Definition plain_member (hdr : Z) (name : list byte) (mb : member) (o : ofile) : ofile :=
  set_member
    {| member_offset := member_offset mb; member_addr := member_addr mb;
       member_size := member_size mb; member_ar_hdr := member_ar_hdr mb;
       member_name := In_file hdr; member_name_size := size_ar_name name;
       member_type := member_type mb |} o.

Definition is_symdef (m : mem) (name : Z) : outcome archive_failure bool :=
  s ← strncmp_is m name SYMDEF_SORTED (length SYMDEF_SORTED);
  if s : bool then Ret true
  else
    s ← strncmp_is m name SYMDEF (length SYMDEF);
    if s : bool then Ret true
    else
      s ← strncmp_is m name SYMDEF_64_SORTED (length SYMDEF_64_SORTED);
      if s : bool then Ret true
      else strncmp_is m name SYMDEF_64 (length SYMDEF_64).

(** [strcmp(member_name, "// ") == 0] *)
Definition is_string_table (m : mem) (name : Z) : outcome archive_failure bool :=
  strncmp_is m name (text "// ") 4.

(** A first member of no known type: a table of contents or of strings. *)
Definition first_tables (o : ofile) : outcome archive_failure ofile :=
  let mb := of_member o in
  '(file, name) ← region o (member_name mb);
  symdef ← is_symdef file name;
  if symdef : bool then
    '(m, z) ← region o (member_addr mb);
    '(m, t) ← check_archive_toc h file_size (file_memory o) (is_thin a) name (member_name_size mb)
                m z (member_size mb);
    Ret (set_toc (Some {| tm_addr := member_addr mb; tm_size := member_size mb;
                          tm_ar_hdr := member_ar_hdr mb; tm_name := member_name mb;
                          tm_name_size := member_name_size mb |}) t
           (set_region (member_addr mb) m o))
  else
    strtab ← is_string_table file name;
    Ret (if strtab : bool then set_strtab (member_addr mb) (member_size mb) o else o).

(** At [cleanup] of [ofile_next_member]. *)
Definition cleanup_next (o : ofile) : ofile :=
  clear_member (match member_type (of_member o) with
                | OFILE_FAT => set_fat_header Null_ptr o
                | _ => o
                end).

(** From [member_addr_set] on, with the offset of the contents. *)
Definition set_up_first (offset : Z) (o : ofile) : outcome archive_failure (bool * ofile) :=
  r ← member_addr_set o;
  match r with
  | None => Ret (finish (None, say Msg_member_past_file o))
  | Some o =>
      let o := set_strtab Null_ptr 0 (set_toc None no_toc o) in
      if 4 <? member_size (of_member o) then
        '(r, o) ← identify_member (member_addr (of_member o)) (u64 (ar_bytes a - offset)) o;
        match r with
        | Some o =>
            match member_type (of_member o) with
            | OFILE_UNKNOWN => o ← first_tables o; Ret (true, o)
            | _ => Ret (true, o)
            end
        | None => Ret (finish (None, o))
        end
      else Ret (true, o)
  end.

Definition ofile_first_member (o : ofile) : outcome archive_failure (bool * ofile) :=
  let o := clear_member o in
  magic ← has_magic o;
  if negb magic then Ret (false, say Msg_no_magic o)
  else if negb (ar_bytes a =? SARMAG) && (ar_bytes a <? SARMAG + sizeof_ar_hdr)
  then Ret (false, say Msg_first_header o)
  else if ar_bytes a =? SARMAG then Ret (false, o)
  else
    let hdr := ar_addr a + SARMAG in
    if file_size <? hdr then Ret (false, say Msg_header_past_file o)
    else
      ar_hdr ← read_ar_hdr (file_memory o) hdr;
      let offset := SARMAG + sizeof_ar_hdr in
      let '(n, o) := cut_member_size (u32 (hdr_size ar_hdr)) o in
      let mb := {| member_offset := offset; member_addr := Null_ptr; member_size := n;
                   member_ar_hdr := Some hdr; member_name := In_file hdr; member_name_size := 0;
                   member_type := OFILE_UNKNOWN |} in
      if is_efmt1 (hdr_name ar_hdr) then
        '(ar_name_size, o) ← efmt1_member hdr mb o;
        set_up_first (offset + ar_name_size) o
      else set_up_first offset (plain_member hdr (hdr_name ar_hdr) mb o).

(** ** ofile_next_member *)

(** The name in the table of strings of a System V archive: its characters up
    to a slash. *)
Fixpoint sysv_name_size (fuel : nat) (m : mem) (z : Z) : outcome archive_failure Z :=
  match fuel with
  | O => Ret 0
  | S fuel =>
      b ← load8 m z;
      if Byte.eqb b x2f then Ret 0 else n ← sysv_name_size fuel m (z + 1); Ret (n + 1)
  end.

(** A name that is an offset in that table. *)
Definition is_sysv_name (name : list byte) : bool :=
  let b i := nth i name x00 in
  Byte.eqb (b 0%nat) x2f && negb (Byte.eqb (b 1%nat) x20) && negb (Byte.eqb (b 1%nat) x2f).

Definition sysv_member (hdr : Z) (name : list byte) (mb : member) (o : ofile)
    : outcome archive_failure ofile :=
  n ← strtoul_at (file_memory o) (hdr + 1);
  let member_name_offset := u32 n in
  if member_name_offset <? sysv_ar_strtab_size o then
    let p := move (sysv_ar_strtab o) member_name_offset in
    '(m, z) ← region o p;
    k ← sysv_name_size (Z.to_nat (sysv_ar_strtab_size o - member_name_offset)) m z;
    Ret (set_member
           {| member_offset := member_offset mb; member_addr := member_addr mb;
              member_size := member_size mb; member_ar_hdr := member_ar_hdr mb;
              member_name := p; member_name_size := k; member_type := member_type mb |} o)
  else
    Ret (set_member
           {| member_offset := member_offset mb; member_addr := member_addr mb;
              member_size := member_size mb; member_ar_hdr := member_ar_hdr mb;
              member_name := In_file hdr; member_name_size := size_ar_name name;
              member_type := member_type mb |} o).

(** The table of strings is taken to be where the previous member is. *)
Definition note_strtab (name : list byte) (n : Z) (o : ofile) : ofile :=
  match sysv_ar_strtab o with
  | Null_ptr =>
      if (sysv_ar_strtab_size o =? 0) && begins (text "// ") name
      then set_strtab (member_addr (of_member o)) n o else o
  | _ => o
  end.

Definition set_up_next (offset : Z) (o : ofile) : outcome archive_failure (bool * ofile) :=
  r ← member_addr_set o;
  match r with
  | None => Ret (false, cleanup_next (say Msg_member_past_file o))
  | Some o =>
      let o := set_object None (set_member_type OFILE_UNKNOWN o) in
      if 4 <? member_size (of_member o) then
        r ← identify_member (member_addr (of_member o)) (u64 (ar_bytes a - offset)) o;
        Ret (finish r)
      else Ret (true, o)
  end.

Definition ofile_next_member (o : ofile) : outcome archive_failure (bool * ofile) :=
  magic ← has_magic o;
  if negb magic then Ret (false, say Msg_no_magic o)
  else match member_ar_hdr (of_member o) with
  | None => Ret (false, say Msg_no_member_selected o)
  | Some _ =>
      let mb := of_member o in
      let offset := member_offset mb + rnd (member_size mb) 2 in
      if offset =? ar_bytes a then Ret (false, cleanup_next o)
      else if ar_bytes a <? offset then Ret (false, say Msg_next_header o)
      else
        let hdr := ar_addr a + offset in
        if file_size <? hdr then Ret (false, say Msg_header_past_file o)
        else
          ar_hdr ← read_ar_hdr (file_memory o) hdr;
          let name := hdr_name ar_hdr in
          let offset := offset + sizeof_ar_hdr in
          let '(n, o) := cut_member_size (u32 (hdr_size ar_hdr)) o in
          let o := note_strtab name n o in
          let mb := {| member_offset := offset; member_addr := member_addr mb; member_size := n;
                       member_ar_hdr := Some hdr; member_name := In_file hdr;
                       member_name_size := member_name_size mb; member_type := member_type mb |} in
          if is_sysv_name name then o ← sysv_member hdr name mb o; set_up_next offset o
          else if is_efmt1 name then
            '(ar_name_size, o) ← efmt1_member hdr mb o;
            set_up_next (offset + ar_name_size) o
          else set_up_next offset (plain_member hdr name mb o)
  end.

(** ** Every member *)

(** The loop of [ofile_process]; [processor] stands for its body.  The members
    in the order they are seen. *)
Fixpoint next_members (processor : ofile -> ofile) (fuel : nat) (o : ofile)
    : outcome archive_failure (list member * ofile) :=
  match fuel with
  | O => Stop Endless
  | S fuel =>
      let mb := of_member o in
      '(more, o) ← ofile_next_member (processor o);
      if more : bool then '(l, o) ← next_members processor fuel o; Ret (mb :: l, o)
      else Ret ([mb], o)
  end.

Definition process_members (processor : ofile -> ofile) (fuel : nat) (o : ofile)
    : outcome archive_failure (list member * ofile) :=
  '(first, o) ← ofile_first_member o;
  if first : bool then next_members processor fuel o else Ret ([], o).

(** ** ofile_specific_member *)

(** The name of a member, its size, and the bytes between the header and the
    contents. *)
Definition specific_name (hdr : Z) (name : list byte) (o : ofile)
    : outcome archive_failure (pointer * Z * Z) :=
  if is_sysv_name name then
    n ← strtoul_at (file_memory o) (hdr + 1);
    let member_name_offset := u32 n in
    if member_name_offset <? sysv_ar_strtab_size o then
      let p := move (sysv_ar_strtab o) member_name_offset in
      '(m, z) ← region o p;
      k ← sysv_name_size (Z.to_nat (sysv_ar_strtab_size o - member_name_offset)) m z;
      Ret (p, k, 0)
    else Ret (In_file hdr, size_ar_name name, 0)
  else if is_efmt1 name then
    n ← efmt1_size (file_memory o) hdr;
    Ret (In_file (hdr + sizeof_ar_hdr), i32 n, n)
  else Ret (In_file hdr, size_ar_name name, 0).

(** The table of strings, which is a member called "//". *)
Definition find_strtab (hdr : Z) (ar_hdr : ar_hdr) (o : ofile) : ofile :=
  match sysv_ar_strtab o with
  | Null_ptr =>
      if (sysv_ar_strtab_size o =? 0) && begins (text "// ") (hdr_name ar_hdr)
      then set_strtab (In_file (hdr + sizeof_ar_hdr)) (u32 (hdr_size ar_hdr)) o else o
  | _ => o
  end.

Definition set_up_specific (offset : Z) (o : ofile) : outcome archive_failure (bool * ofile) :=
  r ← member_addr_set o;
  match r with
  | None => Ret (finish (None, say Msg_member_past_file o))
  | Some o =>
      if 4 <? member_size (of_member o) then
        r ← identify_member (In_file (ar_addr a + offset)) (u64 (ar_bytes a - offset)) o;
        Ret (finish r)
      else Ret (true, o)
  end.

(** [while(size > offset)]: the first member with a name that [sought] begins
    with. *)
Fixpoint find_member (sought : list byte) (fuel : nat) (offset : Z) (o : ofile)
    : outcome archive_failure (bool * ofile) :=
  if ar_bytes a <=? offset then Ret (finish (None, say Msg_no_member_named o))
  else match fuel with
  | O => Stop Endless
  | S fuel =>
      let hdr := ar_addr a + offset in
      ar_hdr ← read_ar_hdr (file_memory o) hdr;
      let offset := offset + sizeof_ar_hdr in
      let o := find_strtab hdr ar_hdr o in
      '(p, i, ar_name_size) ← specific_name hdr (hdr_name ar_hdr) o;
      same ← (if 0 <? i then '(m, z) ← region o p; strncmp_is m z sought (Z.to_nat i)
              else Ret false);
      if same : bool then
        set_up_specific (offset + ar_name_size)
          (set_member
             {| member_offset := offset + ar_name_size; member_addr := Null_ptr;
                member_size := u32 (hdr_size ar_hdr - ar_name_size); member_ar_hdr := Some hdr;
                member_name := p; member_name_size := u32 i; member_type := OFILE_UNKNOWN |} o)
      else find_member sought fuel (u64 (offset + rnd (hdr_size ar_hdr) 2)) o
  end.

Definition ofile_specific_member (sought : list byte) (o : ofile)
    : outcome archive_failure (bool * ofile) :=
  let o := clear_member o in
  magic ← has_magic o;
  if negb magic then Ret (false, say Msg_no_magic o)
  else
    let o := set_strtab Null_ptr 0 o in
    if negb (ar_bytes a =? SARMAG) && (ar_bytes a <? SARMAG + sizeof_ar_hdr)
    then Ret (false, say Msg_first_header o)
    else find_member sought (Z.to_nat (ar_bytes a)) SARMAG o.
End members.

(** * Archives the checks do not see through

    Small archives on which the routines of libstuff/ofile.c read or write
    behind what they checked, or do something else than their comments say,
    and one that the theorems are applied to. *)

(** ** Writing archives *)

(** Text in a field of [n] characters. *)
Definition field (n : nat) (s : string) : mem := take n (text s ++ replicate n x20).

Definition header_bytes (name : string) (size : Z) : mem :=
  field 16 name ++ field 12 "0" ++ field 6 "0" ++ field 6 "0" ++ field 8 "100644" ++
  field 10 (pretty size) ++ [x60; x0a].

(** A member, which ends at a multiple of 2. *)
Definition member_bytes (name : string) (contents : mem) : mem :=
  header_bytes name (Z.of_nat (length contents)) ++ contents ++
  (if Nat.even (length contents) then [] else [x0a]).

Definition archive_of (members : list mem) : mem := ARMAG ++ concat members.

(** The rest of the last page. *)
Definition mapped (m : mem) : mem := m ++ replicate 64 x00.

(** A 64-bit object file without load commands. *)
Definition object_file (h : host) : mem :=
  words h [MH_MAGIC_64; CPU_TYPE_X86_64; 3; 1; 0; 0; 0; 0].

(** An archive of three members, one of them with a name behind its header. *)
Definition example_archive : mem :=
  archive_of [member_bytes "a.txt" (text "hello"); member_bytes "#1/8" (text "long.txt" ++ text "x");
              member_bytes "b.o" (object_file LE)].

(** One with a table of contents for its only object file. *)
Definition example_with_table : mem :=
  archive_of [member_bytes "__.SYMDEF SORTED" (words LE [8; 0; 88; 4; 0]);
              member_bytes "b.o" (object_file LE)].

Definition fresh (m : mem) : ofile :=
  {| file_memory := m; of_buffers := 0; member_buffer := None; of_member := no_member;
     of_object := None; of_fat_header := Null_ptr; of_toc_member := None; of_toc := no_toc;
     sysv_ar_strtab := Null_ptr; sysv_ar_strtab_size := 0; of_messages := [] |}.

(** The members of an archive that is a file. *)
Definition members_of (h : host) (m : mem) : outcome archive_failure (list (Z * Z) * list archive_message) :=
  match process_members no_bitfields h (thin_archive m) (Z.of_nat (length m)) id (length m)
          (fresh (mapped m)) with
  | Ret (seen, o) => Ret ((fun mb => (member_offset mb, member_size mb)) <$> seen, of_messages o)
  | Stop f => Stop f
  end.

Definition check (h : host) (m : mem) : outcome archive_failure archive_check :=
  check_archive h (mapped m) (Z.of_nat (length m)) false (thin_archive m) false.

Definition accepted (o : outcome archive_failure archive_check) : bool :=
  match o with Ret _ => true | Stop _ => false end.

(** The headers of the members, as [check_archive] goes over them. *)
Fixpoint headers_from (m : mem) (fuel : nat) (offset : Z) : list member_header :=
  match fuel with
  | O => []
  | S fuel =>
      match check_member_header (mapped m) (Z.of_nat (length m)) false (thin_archive m) offset with
      | Ret mb => mb :: headers_from m fuel (mb_offset mb + rnd (mb_size mb) 2)
      | Stop _ => []
      end
  end.

Definition headers (m : mem) : list member_header := headers_from m 3 SARMAG.

Lemma example_archive_members :
  accepted (check BE example_archive) = true /\
  members_of BE example_archive = Ret ([(68, 5); (142, 1); (204, 32)], []).
Proof. by vm_compute. Qed.

(** ** Headers *)

(** [while(size > offset)] lets a header begin at the last byte of the
    archive; it is read before its size is compared with anything. *)
Lemma last_header_past_end :
  let m := archive_of [member_bytes "a.txt" (text "hi"); [x20]] in
  check_archive LE m (Z.of_nat (length m)) false (thin_archive m) false = Stop Past_memory.
Proof. by vm_compute. Qed.

(** ** The table of contents *)

Definition first (h : host) (m : mem) : outcome archive_failure (bool * ofile) :=
  ofile_first_member no_bitfields h (thin_archive m) (Z.of_nat (length m)) (fresh (mapped m)).

(** A table for 32 bits with the name "__.SYMDEF" and one entry is read as one
    for 64 bits, and has no entries; "__.SYMDEF SORTED" is not. *)
Lemma short_name_is_64 :
  let entries name := match first LE (archive_of
    [member_bytes name (words LE [8; 0; 88; 4; 0]); member_bytes "b.o" (object_file LE)]) with
    | Ret (true, o) => Some (toc_is_32bit (of_toc o), toc_nranlibs (of_toc o))
    | _ => None
    end in
  entries "__.SYMDEF" = Some (true, 0) /\ entries "__.SYMDEF SORTED" = Some (true, 1).
Proof. by vm_compute. Qed.

(** A table that is 16 bytes long and has 2 structures passes the comparison of
    [offset] less the two words, so that the last of them ends in the next
    header, where 4 bytes are reversed before the table is refused. *)
Definition table_past_end : mem :=
  archive_of [member_bytes "#1/12" (text "__.SYMDEF" ++ [x00; x00; x00] ++ words LE [16; 0; 0; 0]);
              header_bytes "abcd" 32 ++ object_file LE].

(** The name of the second header goes on with 0, as the size of the strings. *)
Definition with_name (m : mem) : mem := take 100 m ++ replicate 4 x00 ++ drop 104 m.

Lemma swaps_next_header :
  let m := with_name table_past_end in
  accepted (check BE m) = true /\
  match first BE m with
  | Ret (true, o) => toc_bad (of_toc o) = true /\ member_offset (of_member o) = 80 /\
      member_size (of_member o) = 16 /\
      take 4 (drop 96 m) = text "abcd" /\ take 4 (drop 96 (file_memory o)) = text "dcba"
  | _ => False
  end.
Proof. by vm_compute. Qed.

(** ** Names in a table of strings *)

(** The bytes of the name of the member [n] members behind the current one. *)
Fixpoint name_behind (a : archive) (size : Z) (n : nat) (o : ofile) : outcome archive_failure (list byte) :=
  match n with
  | O =>
      match region o (member_name (of_member o)) with
      | Ret (r, z) => Ret (take (Z.to_nat (member_name_size (of_member o))) (drop (Z.to_nat z) r))
      | Stop f => Stop f
      end
  | S n =>
      match ofile_next_member no_bitfields LE a size o with
      | Ret (_, o) => name_behind a size n o
      | Stop f => Stop f
      end
  end.

Definition third_name (m : mem) : outcome archive_failure (list byte) :=
  match first LE m with
  | Ret (_, o) => name_behind (thin_archive m) (Z.of_nat (length m)) 2 o
  | Stop f => Stop f
  end.

(** [member_addr] is still that of the member before the table when
    [ofile_next_member] takes it for the table: the name comes from the
    contents of the wrong member, or from a buffer that was freed. *)
Lemma strings_of_the_wrong_member :
  let strtab := member_bytes "//" (text "a_long_name.o/") in
  third_name (archive_of [member_bytes "#1/4" (text "a.o" ++ [x00] ++ text "wrong/text/...");
                         strtab; member_bytes "/0" (text "x")]) = Ret (text "wrong") /\
  third_name (archive_of [member_bytes "a.o" (text "wrong/text/..."); strtab;
                         member_bytes "/0" (text "x")]) = Stop Freed.
Proof. by vm_compute. Qed.

(** The comparison in [ofile_first_member] is with [strcmp], of a field that
    goes on with blanks. *)
Lemma first_string_table_missed :
  match first LE (archive_of [member_bytes "//" (text "a_long_name.o/")]) with
  | Ret (true, o) => sysv_ar_strtab o = Null_ptr /\ sysv_ar_strtab_size o = 0
  | _ => False
  end.
Proof. by vm_compute. Qed.

(** ** ofile_specific_member *)

(** The offset of the contents of the member that is found. *)
Definition specific (sought : string) (m : mem) : outcome archive_failure (bool * Z) :=
  match ofile_specific_member no_bitfields LE (thin_archive m) (Z.of_nat (length m))
          (text sought ++ [x00]) (fresh (mapped m)) with
  | Ret (found, o) => Ret (found, member_offset (of_member o))
  | Stop f => Stop f
  end.

(** As many characters are compared as the member's name has: "a" is found for
    "a.o", which is there, too. *)
Lemma finds_a_prefix :
  let m := archive_of [member_bytes "a" (text "no"); member_bytes "a.o" (text "yes!")] in
  specific "a.o" m = Ret (true, 68) /\ specific "b.o" m = Ret (false, 0).
Proof. by vm_compute. Qed.
