(* ===== verification/ArchiveSpec.v ===== *)
(** * What check_archive promises

    An archive that is accepted is a chain of members, each with its header
    and contents inside of the archive, up to its end.  The check ends; it
    looks at most a header behind the archive. *)

From Stdlib Require Import ZArith Lia Bool.
From Stdlib Require Import Init.Byte Strings.Byte Ascii.
From stdpp Require Import base option numbers strings list.
From S2P Require Import Prelude CInt Strtoul CpuTypes LoaderH ByteSex HeaderSwap LoadCmdSwap.
From S2P Require Import TableSwap Rounding InPlace InPlaceSpec Assigns SwapHeaders SwapHeadersSpec Fat.
From S2P Require Import SwapInPlaceSpec CheckMachO CheckFrame Archive Members.

(** ** Text that ends *)

(** A 0 ends a number. *)
Definition has_nul (s : string) : Prop := In zero (String.list_ascii_of_string s).

Lemma has_nul_skip_spaces s : has_nul s -> has_nul (skip_spaces s).
Proof.
  induction s as [|a s IH]; [done|]. intros H. cbn [skip_spaces].
  destruct (isspace a) eqn:Ha; [|exact H]. destruct H as [->|H]; [done|by apply IH].
Qed.

Lemma has_nul_scan_sign s : has_nul s -> has_nul (scan_sign s).2.
Proof.
  destruct s as [|a s]; [done|]. intros H. cbn [scan_sign].
  destruct (Ascii.eqb_spec a "-") as [->|]; [by destruct H|].
  destruct (Ascii.eqb_spec a "+") as [->|]; [by destruct H|exact H].
Qed.

Lemma has_nul_scan_digits acc s : has_nul s -> has_nul (scan_digits acc s).2.
Proof.
  revert acc. induction s as [|a s IH]; intros acc H; [done|]. cbn [scan_digits].
  destruct (digit a) eqn:Ha; [|exact H]. destruct H as [->|H]; [done|by apply IH].
Qed.

Lemma has_nul_strtoul_end s : has_nul s -> strtoul_end s <> ""%string.
Proof.
  intros H He. unfold strtoul_end in He.
  pose proof (has_nul_scan_digits 0 _ (has_nul_scan_sign _ (has_nul_skip_spaces _ H))) as Hn.
  rewrite He in Hn. done.
Qed.

Lemma text_at_nul m o i :
  0 <= o -> (Z.to_nat o <= i)%nat -> m !! i = Some x00 -> has_nul (text_at m o).
Proof.
  intros Ho Hi Hm. unfold text_at, has_nul, String.string_of_list_byte.
  rewrite String.list_ascii_of_string_of_list_ascii.
  assert (Hd : drop (Z.to_nat o) m !! (i - Z.to_nat o)%nat = Some x00).
  { rewrite lookup_drop. by replace (Z.to_nat o + (i - Z.to_nat o))%nat with i by lia. }
  apply list_elem_of_lookup_2, list_elem_of_In in Hd. change zero with (ascii_of_byte x00).
  by apply in_map.
Qed.

Lemma strtoul_at_nul m o i :
  0 <= o -> (Z.to_nat o <= i)%nat -> m !! i = Some x00 -> exists n, strtoul_at m o = Ret n.
Proof.
  intros Ho Hi Hm. unfold strtoul_at. rewrite (proj2 (Z.ltb_ge o 0)) by lia.
  destruct (String.eqb_spec (strtoul_end (text_at m o)) ""); [|by eexists].
  pose proof (text_at_nul m o i Ho Hi Hm) as Hn. by apply has_nul_strtoul_end in Hn.
Qed.

(** ** Reading what was not changed *)

Lemma same_from_drop k n m m' : same_from k m m' -> (k <= n)%nat -> drop n m' = drop n m.
Proof.
  intros [Hl H] Hn. apply list_eq. intros i. rewrite !lookup_drop. apply H. lia.
Qed.

Lemma load8_same k m m' o :
  same_from k m m' -> Z.of_nat k <= o -> load8 m' o = load8 m o.
Proof.
  intros [_ H] Ho. unfold load8. destruct (o <? 0); [done|]. by rewrite H by lia.
Qed.

Lemma load_bytes_same k m m' o n :
  same_from k m m' -> Z.of_nat k <= o -> load_bytes m' o n = load_bytes m o n.
Proof.
  intros H. revert o. induction n as [|n IH]; intros o Ho; [done|]. cbn [load_bytes].
  by rewrite (load8_same k m m'), IH by (done || lia).
Qed.

Lemma load_word_same h k m m' o :
  same_from k m m' -> Z.of_nat k <= o -> load_word h m' o = load_word h m o.
Proof.
  intros H Ho. unfold load_word, load32. pose proof H as [Hl _].
  destruct (o <? 0); [done|]. unfold in_bounds. rewrite Hl.
  by rewrite (same_ld_u k m m') by (done || lia).
Qed.

Lemma strtoul_at_same k m m' o :
  same_from k m m' -> Z.of_nat k <= o -> strtoul_at m' o = strtoul_at m o.
Proof.
  intros H Ho. unfold strtoul_at, text_at. by rewrite (same_from_drop k _ m m') by (done || lia).
Qed.

Lemma read_ar_hdr_same k m m' o :
  same_from k m m' -> Z.of_nat k <= o -> read_ar_hdr m' o = read_ar_hdr m o.
Proof.
  intros H Ho. unfold read_ar_hdr, ar_size.
  by rewrite (load_bytes_same k m m'), (strtoul_at_same k m m') by (done || lia).
Qed.

Lemma load8_Ret m o : 0 <= o < Z.of_nat (length m) -> exists b, load8 m o = Ret b.
Proof.
  intros Ho. unfold load8. rewrite (proj2 (Z.ltb_ge o 0)) by lia.
  destruct (lookup_lt_is_Some_2 m (Z.to_nat o)) as [b ->]; [lia|]. by exists b.
Qed.

Lemma load_bytes_Ret m o n :
  0 <= o -> o + Z.of_nat n <= Z.of_nat (length m) ->
  load_bytes m o n = Ret (take n (drop (Z.to_nat o) m)).
Proof.
  revert o. induction n as [|n IH]; intros o Ho Hn; [done|]. cbn [load_bytes].
  unfold load8. rewrite (proj2 (Z.ltb_ge o 0)) by lia.
  destruct (lookup_lt_is_Some_2 m (Z.to_nat o)) as [b Hb]; [lia|]. rewrite Hb.
  cbn [or_stop mbind outcome_bind]. rewrite IH by lia. cbn [mbind outcome_bind].
  rewrite (drop_S m b (Z.to_nat o) Hb). cbn [take]. by replace (Z.to_nat (o + 1)) with (S (Z.to_nat o)) by lia.
Qed.

Lemma load_word_Ret h m o :
  0 <= o -> o + 4 <= Z.of_nat (length m) -> load_word h m o = Ret (ld_u32 h m (Z.to_nat o)).
Proof.
  intros Ho Hn. unfold load_word, load32. rewrite (proj2 (Z.ltb_ge o 0)) by lia.
  by rewrite in_bounds_true by lia.
Qed.

Lemma read_ar_hdr_at m o hdr : read_ar_hdr m o = Ret hdr -> hdr_at hdr = o.
Proof. unfold read_ar_hdr. intros H. invert_ret. by subst hdr. Qed.

(** ** Rounding the size of a member *)

Lemma rnd_2 n : 0 <= n < 2 ^ 63 -> n <= rnd n 2 <= n + 1.
Proof.
  intros Hn. change (rnd n 2) with (rnd_w 64 n (2 ^ 1)).
  rewrite rnd_w_pow2 by (done || unfold in_uw; lia). change (2 ^ 1) with 2.
  rewrite (proj2 (Z.ltb_lt _ _)) by lia.
  pose proof (Z.div_mod (n + 2 - 1) 2). pose proof (Z.mod_pos_bound (n + 2 - 1) 2). lia.
Qed.

(** ** The chain of the members *)

Section chain.
Context (h : host) (m : mem) (file_size : Z) (erange : bool) (a : archive).

(** From an offset on members follow each other to the end of the archive.
    None of them is a fat file. *)
Inductive chain : Z -> list member_header -> Prop :=
  | chain_end : chain (ar_bytes a) []
  | chain_member off mb l :
      off < ar_bytes a ->
      check_member_header m file_size erange a off = Ret mb ->
      mb_offset mb + rnd (mb_size mb) 2 <= ar_bytes a ->
      (4 < ar_bytes a - mb_offset mb ->
       is_fat_magic h (ld_u32 h m (Z.to_nat (ar_addr a + mb_offset mb))) = false) ->
      chain (mb_offset mb + rnd (mb_size mb) 2) l ->
      chain off (mb :: l).

Lemma check_extend_format_1_range ar_name left n :
  check_extend_format_1 erange ar_name left = Ret n -> in_uw 32 n.
Proof.
  unfold check_extend_format_1. destruct (strtoul _) as [v endp].
  repeat case_match; intros [= <-]. apply uw_range. done.
Qed.

Lemma check_member_header_fields off mb :
  check_member_header m file_size erange a off = Ret mb ->
  mb_offset mb = off + sizeof_ar_hdr + mb_name_size mb /\ in_uw 32 (mb_name_size mb) /\
  in_uw 32 (mb_size mb) /\ hdr_at (mb_hdr mb) = ar_addr a + off /\
  mb_size mb = u32 (u32 (hdr_size (mb_hdr mb)) - mb_name_size mb) /\
  ar_addr a + off <= file_size /\
  read_ar_hdr m (ar_addr a + off) = Ret (mb_hdr mb).
Proof.
  unfold check_member_header. destruct (Z.ltb_spec file_size (ar_addr a + off)) as [|Hle]; [done|].
  intros H. apply bind_Ret in H as (hdr & Hh & H). pose proof (read_ar_hdr_at _ _ _ Hh) as Hat.
  assert (Hu : in_uw 32 (u32 (hdr_size hdr))) by by apply uw_range.
  destruct (is_efmt1 (hdr_name hdr)).
  - apply bind_Ret in H as (n & Hn & [= <-]). apply check_extend_format_1_range in Hn.
    cbn. split_and!; try done. by apply uw_range.
  - injection H as <-. cbn. rewrite Z.sub_0_r, (uw_id 32 (u32 _)) by done.
    split_and!; try done. lia.
Qed.

Context (Ha : 0 <= ar_addr a) (Hb : ar_bytes a < 2 ^ 62).

Lemma check_members_chain fuel off hl c c' :
  0 <= off <= ar_bytes a ->
  check_members h m file_size erange a false fuel off hl c = Ret c' -> exists l, chain off l.
Proof.
  revert off hl c. induction fuel as [|fuel IH]; intros off hl c Hoff; cbn [check_members];
    destruct (Z.leb_spec (ar_bytes a) off) as [Hle|Hlt].
  1,3: intros _; replace off with (ar_bytes a) by lia; exists []; constructor.
  { done. }
  intros H. apply bind_Ret in H as (mb & Hmb & H).
  pose proof (check_member_header_fields _ _ Hmb) as (Ho & Hn & Hs & _). unfold in_uw in Hn, Hs.
  unfold sizeof_ar_hdr in *. pose proof (rnd_2 (mb_size mb) ltac:(lia)) as Hr.
  rewrite (uw_id 64) in H by (unfold in_uw; lia).
  destruct (Z.ltb_spec (ar_bytes a) (rnd (mb_size mb) 2 + mb_offset mb)) as [|Hfit]; [done|].
  apply bind_Ret in H as ([hl2 c2] & Hm & H). apply IH in H as [l Hl]; [|lia].
  exists (mb :: l). constructor; try done; [lia|]. intros H4.
  rewrite (proj2 (Z.ltb_lt _ _)) in Hm by lia. unfold check_magic in Hm.
  apply bind_Ret in Hm as (magic & Hw & Hm). unfold load_word, load32 in Hw.
  destruct (_ <? 0); [done|]. destruct (in_bounds _ _ _); [|done]. injection Hw as <-.
  destruct (is_fat_magic h _); [done|done].
Qed.
End chain.

(** ** Accesses *)

(** Computations that stay in the memory; [U] allows an unassigned local. *)
Definition tame (U : Prop) {A} (o : outcome archive_failure A) : Prop :=
  match o with
  | Ret _ | Stop (Archive_bad _) => True
  | Stop Uninitialized => U
  | Stop _ => False
  end.

Lemma tame_bind U {A B} (o : outcome archive_failure A) (k : A -> outcome archive_failure B) :
  tame U o -> (forall x, o = Ret x -> tame U (k x)) -> tame U (o ≫= k).
Proof. intros Ho Hk. destruct o as [x|f]; [by apply Hk|exact Ho]. Qed.

Lemma tame_if U {A} (c : bool) e (o : outcome archive_failure A) :
  (c = false -> tame U o) -> tame U (if c then Stop (Archive_bad e) else o).
Proof. intros Ho. destruct c; [done|by apply Ho]. Qed.

Section safe.
Context (h : host) (m : mem) (file_size : Z) (erange : bool) (a : archive) (fat : bool).
Context (Ha : 0 <= ar_addr a) (Hb : ar_bytes a < 2 ^ 62).
(** The memory goes on behind the archive, with a 0 where a header could end. *)
Context (Hpad : m !! Z.to_nat (ar_addr a + ar_bytes a + sizeof_ar_hdr) = Some x00).

(** A member at the end of the archive that begins like an object file, with
    too few bytes for a header. *)
Definition short_object : Prop :=
  exists off, 0 <= off < ar_bytes a /\ ar_bytes a - off < Z.of_nat sizeof_mach_header_64 /\
    (ld_u32 h m (Z.to_nat (ar_addr a + off)) = MH_MAGIC \/
     ld_u32 h m (Z.to_nat (ar_addr a + off)) = MH_MAGIC_64).

Lemma memory_long : 0 <= ar_bytes a -> ar_addr a + ar_bytes a + 60 < Z.of_nat (length m).
Proof. intros. apply lookup_lt_Some in Hpad. unfold sizeof_ar_hdr in *. lia. Qed.

Lemma tame_read_ar_hdr U off :
  0 <= off < ar_bytes a -> tame U (read_ar_hdr m (ar_addr a + off)).
Proof.
  intros Ho. pose proof (memory_long ltac:(lia)) as Hl. unfold read_ar_hdr, sizeof_ar_name.
  rewrite load_bytes_Ret by lia. cbn [mbind outcome_bind].
  destruct (strtoul_at_nul m (ar_addr a + off + ar_size)
    (Z.to_nat (ar_addr a + ar_bytes a + sizeof_ar_hdr))) as [n ->];
    [unfold ar_size, sizeof_ar_hdr; lia..|exact Hpad|done].
Qed.

Lemma tame_check_extend_format_1 U ar_name left : tame U (check_extend_format_1 erange ar_name left).
Proof. unfold check_extend_format_1. destruct (strtoul _). by repeat case_match. Qed.

Lemma tame_check_member_header U off :
  0 <= off < ar_bytes a -> tame U (check_member_header m file_size erange a off).
Proof.
  intros Ho. unfold check_member_header. apply tame_if; intros _.
  apply tame_bind; [by apply tame_read_ar_hdr|intros hdr _]. cbv zeta.
  destruct (is_efmt1 _); [|done]. apply tame_bind; [apply tame_check_extend_format_1|done].
Qed.

Lemma tame_note_cputype off mh c : (mh = None -> short_object) -> tame short_object (note_cputype off mh c).
Proof. intros Hmh. destruct mh as [[? ?]|]; [done|by apply Hmh]. Qed.

Lemma tame_check_magic off hl c :
  0 <= off -> 4 < ar_bytes a - off -> tame short_object (check_magic h m a fat off hl c).
Proof.
  intros Ho H4. pose proof (memory_long ltac:(lia)) as Hl. unfold check_magic.
  rewrite load_word_Ret by lia. cbn [mbind outcome_bind].
  set (magic := ld_u32 _ _ _). destruct (is_fat_magic h magic); [by destruct (_ || _)|].
  destruct (Z.leb_spec (Z.of_nat sizeof_mach_header) (ar_bytes a - off)); cbn [andb].
  - destruct (magic_of magic MH_MAGIC) eqn:Hm.
    { rewrite load_bytes_Ret by lia. done. }
    destruct (Z.leb_spec (Z.of_nat sizeof_mach_header_64) (ar_bytes a - off)); cbn [andb].
    + destruct (magic_of magic MH_MAGIC_64) eqn:Hm64.
      { rewrite load_bytes_Ret by lia. done. }
      cbn [mbind outcome_bind]. unfold magic_of in Hm, Hm64.
      apply orb_false_iff in Hm as [-> _], Hm64 as [-> _]. done.
    + cbn [mbind outcome_bind]. unfold magic_of in Hm. apply orb_false_iff in Hm as [-> _].
      destruct (Z.eqb_spec magic MH_MAGIC_64); [|done]. apply tame_bind; [|done].
      apply tame_note_cputype. intros _. exists off. split_and!; [lia|lia|done|by right].
  - destruct (Z.leb_spec (Z.of_nat sizeof_mach_header_64) (ar_bytes a - off)); cbn [andb].
    { unfold sizeof_mach_header, sizeof_mach_header_64 in *. lia. }
    cbn [mbind outcome_bind].
    assert (Hs : magic = MH_MAGIC \/ magic = MH_MAGIC_64 -> short_object)
      by (intros Hs; exists off; split_and!; [lia..|exact Hs]).
    destruct (Z.eqb_spec magic MH_MAGIC);
      [|destruct (Z.eqb_spec magic MH_MAGIC_64); [|done]];
      (apply tame_bind; [apply tame_note_cputype; auto|done]).
Qed.

Lemma tame_check_members fuel off hl c :
  0 <= off -> ar_bytes a - off <= Z.of_nat fuel ->
  tame short_object (check_members h m file_size erange a fat fuel off hl c).
Proof.
  revert off hl c. induction fuel as [|fuel IH]; intros off hl c Ho Hf; cbn [check_members];
    destruct (Z.leb_spec (ar_bytes a) off) as [Hle|Hlt]; [done|lia|done|].
  apply tame_bind; [by apply tame_check_member_header|intros mb Hmb].
  pose proof (check_member_header_fields _ _ _ _ _ _ Hmb) as (Hmo & Hn & Hs & _).
  unfold in_uw, sizeof_ar_hdr in *. pose proof (rnd_2 (mb_size mb) ltac:(lia)) as Hr.
  rewrite (uw_id 64) by (unfold in_uw; lia). apply tame_if; intros Hfit%Z.ltb_ge.
  apply tame_bind.
  - destruct (Z.ltb_spec 4 (ar_bytes a - mb_offset mb)); [|done]. apply tame_check_magic; lia.
  - intros [hl2 c2] _. apply IH; lia.
Qed.

Lemma check_archive_tame :
  0 <= ar_bytes a -> tame short_object (check_archive h m file_size erange a fat).
Proof.
  intros H0. pose proof (memory_long H0) as Hl. unfold check_archive, SARMAG in *. cbv zeta.
  destruct (Z.ltb_spec (ar_bytes a) 8); [by destruct (ar_fat a) as [[? ?]|]|].
  rewrite load_bytes_Ret by lia. cbn [mbind outcome_bind orb]. apply tame_if; intros _.
  destruct (ar_bytes a =? 8); [done|]. apply tame_if; intros _. apply tame_check_members; lia.
Qed.
End safe.

(** C18: For an archive smaller than 2^62 bytes that is followed by the 60 bytes of a header
    that could begin at its end, and a 0 byte behind them, check_archive ends and accepts or
    refuses it, whatever it holds, and looks at nothing behind that 0 byte; there is one
    exception, an object file cut short at the end of the archive, whose header was never
    assigned.  The 0 byte is needed: strtoul runs over a last header that is all digits. *)
Theorem check_archive_safe h m file_size erange a fat :
  0 <= ar_addr a -> 0 <= ar_bytes a < 2 ^ 62 ->
  m !! Z.to_nat (ar_addr a + ar_bytes a + sizeof_ar_hdr) = Some x00 ->
  match check_archive h m file_size erange a fat with
  | Ret _ | Stop (Archive_bad _) => True
  | Stop Uninitialized => short_object h m a
  | Stop _ => False
  end.
Proof.
  intros Ha Hb Hpad.
  exact (check_archive_tame h m file_size erange a fat Ha (proj2 Hb) Hpad (proj1 Hb)).
Qed.

Lemma check_archive_safe_witness :
  accepted (check BE example_archive) = true /\
  match check BE example_archive with
  | Ret _ | Stop (Archive_bad _) => True
  | Stop Uninitialized => short_object BE (mapped example_archive) (thin_archive example_archive)
  | Stop _ => False
  end.
Proof.
  split; [by vm_compute|].
  apply (check_archive_safe BE (mapped example_archive) _ false (thin_archive example_archive) false).
  - by vm_compute.
  - by vm_compute.
  - by vm_compute.
Defined.

(** The chain that a successful check has seen, from the first member on. *)
Lemma check_archive_chain h m file_size erange a c :
  0 <= ar_addr a -> 0 <= ar_bytes a < 2 ^ 62 ->
  check_archive h m file_size erange a false = Ret c ->
  8 <= ar_bytes a /\
  (exists magic, load_bytes m (ar_addr a) 8 = Ret magic /\ begins ARMAG magic = true) /\
  (ar_bytes a = 8 \/ 68 <= ar_bytes a) /\
  exists l, chain h m file_size erange a SARMAG l.
Proof.
  intros Ha Hb. unfold check_archive, SARMAG. cbv zeta. intros H.
  apply bind_Ret in H as (magic & Hmagic & H).
  destruct (Z.ltb_spec (ar_bytes a) 8) as [|H8]; [done|]. cbn [orb] in H. split; [done|].
  destruct (begins ARMAG magic) eqn:Hm; [|done]. cbn [negb] in H. split; [by exists magic|].
  destruct (Z.eqb_spec (ar_bytes a) 8) as [He|].
  { split; [by left|]. rewrite <- He. exists []. constructor. }
  unfold sizeof_ar_hdr in H. destruct (Z.ltb_spec (ar_bytes a) (8 + 60)); [done|].
  split; [right; lia|]. eapply check_members_chain in H; [exact H|lia..].
Qed.

(** ** The table of contents

    For a table whose parts fit into the member it is in, the check stays
    inside of the member, swaps the table there, and accepts it exactly when
    the names it points to begin in the table of strings and the members in
    the file. *)

(** ** The structures, swapped *)

#[local] Arguments spans_at : simpl never.
#[local] Arguments bytes_at : simpl never.

Lemma reread_ranlib : reread ld_ranlib id ranlib_assigns sizeof_ranlib.
Proof. reread. Qed.
Lemma reread_ranlib_64 : reread ld_ranlib_64 id ranlib_64_assigns sizeof_ranlib_64.
Proof. reread. Qed.
Lemma local_ranlib : local_read ld_ranlib id sizeof_ranlib.
Proof. unfold sizeof_ranlib. local_read. Qed.
Lemma local_ranlib_64 : local_read ld_ranlib_64 id sizeof_ranlib_64.
Proof. unfold sizeof_ranlib_64. local_read. Qed.

(** ** The table as a host of its byte sex reads it *)

Section toc.
Context (h : host) (sex : byte_sex) (file_size : Z) (toc_addr len : Z) (is_32bit : bool).

Definition toc_host : host := if toc_swapped h sex then other h else h.

Definition toc_value (m : mem) (o : Z) : Z :=
  if is_32bit then ld_u32 toc_host m (Z.to_nat o) else ld_u64 toc_host m (Z.to_nat o).

Local Abbreviation w := (word_size is_32bit).
Local Abbreviation each := (Z.of_nat (ranlib_size is_32bit)).

Definition toc_count (m : mem) : Z := toc_value m toc_addr / each.
Definition toc_string_size (m : mem) : Z := toc_value m (toc_addr + (w + each * toc_count m)).

(** The two words, the structures and the strings fit. *)
Definition toc_fits (m : mem) : Prop :=
  w + each * toc_count m + w + toc_string_size m <= len.

Definition toc_entries (m : mem) : list (Z * Z) :=
  (fun i => ranlib_at toc_host is_32bit m (toc_addr + w + Z.of_nat i * each)) <$>
    seq 0 (Z.to_nat (toc_count m)).

(** An entry names a string in the strings and a member in the file. *)
Definition entry_ok (strsize : Z) (r : Z * Z) : bool :=
  let '(strx, off) := r in
  bool_decide (strx < strsize /\ off < file_size /\ off mod w = 0).

Lemma good_ranlib_ok strsize r : good_ranlib is_32bit strsize file_size r = entry_ok strsize r.
Proof.
  destruct r as [strx off]. unfold good_ranlib, entry_ok. cbn [fst snd].
  change (if is_32bit then 4 else 8) with w. apply eq_bool_prop_intro.
  rewrite bool_decide_spec, !andb_True, !Is_true_true, !Z.ltb_lt, Z.eqb_eq. tauto.
Qed.

Lemma good_ranlibs_ok strsize l :
  forallb (good_ranlib is_32bit strsize file_size) l = forallb (entry_ok strsize) l.
Proof. induction l as [|r l IH]; [done|]. cbn [forallb]. by rewrite good_ranlib_ok, IH. Qed.

(** The fields that are set for a table. *)
Definition toc_result (m : mem) : toc :=
  if (toc_count m =? 0) || (len =? 2 * w) then no_toc
  else if forallb (entry_ok (toc_string_size m)) (toc_entries m)
  then {| toc_is_32bit := is_32bit; toc_ranlibs := Some (toc_addr + w);
          toc_nranlibs := toc_count m;
          toc_strings := Some (toc_addr + (w + each * toc_count m + w));
          toc_strsize := toc_string_size m; toc_bad := false |}
  else bad_toc.

(** ** Words and structures *)

Context (Haddr : 0 <= toc_addr) (Hlen : 0 <= len < 2 ^ 32).

Lemma toc_word_value m o :
  0 <= o -> o + w <= Z.of_nat (length m) -> toc_word h sex is_32bit m o = Ret (toc_value m o).
Proof.
  intros Ho Hm. unfold toc_word, toc_value, toc_host. destruct is_32bit; cbn [word_size] in Hm.
  - rewrite load_word_Ret by lia. cbn [mbind outcome_bind]. destruct (toc_swapped h sex); [|done].
    by rewrite SWAP_INT_reverse, byte_reverse_ld.
  - unfold load_long. rewrite (proj2 (Z.ltb_ge o 0)), in_bounds_true by lia.
    cbn [mbind outcome_bind]. destruct (toc_swapped h sex); [|done].
    rewrite SWAP_LONG_LONG_reverse, uw_sw, byte_reverse_ld by done. by rewrite uw_id by apply ld_u64_range.
Qed.

Lemma toc_value_range m o : 0 <= toc_value m o < 2 ^ 64.
Proof.
  unfold toc_value. destruct is_32bit.
  - pose proof (ld_u32_range toc_host m (Z.to_nat o)) as H. unfold in_uw in H. lia.
  - apply ld_u64_range.
Qed.

Lemma toc_count_range m :
  0 <= toc_count m /\ w + each * toc_count m + w < 2 ^ 64 + 16 /\ each * toc_count m < 2 ^ 64.
Proof.
  pose proof (toc_value_range m toc_addr). unfold toc_count.
  assert (He : each = 8 \/ each = 16) by (destruct is_32bit; auto).
  assert (Hw : w = 4 \/ w = 8) by (destruct is_32bit; auto).
  split; [apply Z.div_pos; lia|].
  pose proof (Z.mul_div_le (toc_value m toc_addr) each ltac:(lia)).
  split; lia.
Qed.

(** Swapping the structures: the host reads them as its counterpart did. *)
Lemma swap_ranlibs_spec n o m :
  0 <= o -> o + Z.of_nat n * each <= Z.of_nat (length m) ->
  exists m', swap_ranlibs h sex is_32bit n o m = Ret m' /\
    changes (Z.to_nat o) (Z.to_nat o + n * ranlib_size is_32bit) m m' /\
    forall i, (i < n)%nat ->
      ranlib_at h is_32bit m' (o + Z.of_nat i * each) =
      ranlib_at toc_host is_32bit m (o + Z.of_nat i * each).
Proof.
  intros Ho Hn. unfold swap_ranlibs, toc_host. destruct (toc_swapped h sex).
  2:{ exists m. split_and!; [done|apply changes_refl|done]. }
  assert (Hfit : (Z.to_nat o + n * ranlib_size is_32bit <= length m)%nat) by lia.
  assert (Hsame : same_from (Z.to_nat o) m m) by done.
  assert (Hat : forall i, Z.to_nat (o + Z.of_nat i * each) =
    (Z.to_nat o + i * ranlib_size is_32bit)%nat) by (intros i; lia).
  destruct is_32bit; cbn [ranlib_size] in *.
  - destruct (do_array_changes ranlib_assigns sizeof_ranlib n h m (Z.to_nat o)) as (m' & Hdo & Hc);
      [done|done|]. exists m'. rewrite Hdo. split_and!; [done|done|]. intros i Hi. unfold ranlib_at.
    cbv zeta. rewrite !Hat.
    pose proof (do_array_reread ld_ranlib id _ _ reread_ranlib local_ranlib n h m m m'
      (Z.to_nat o) Hsame Hfit Hdo i Hi) as He. unfold id in He. by rewrite He.
  - destruct (do_array_changes ranlib_64_assigns sizeof_ranlib_64 n h m (Z.to_nat o))
      as (m' & Hdo & Hc); [done|done|].
    exists m'. rewrite Hdo. split_and!; [done|done|]. intros i Hi. unfold ranlib_at.
    cbv zeta. rewrite !Hat.
    pose proof (do_array_reread ld_ranlib_64 id _ _ reread_ranlib_64 local_ranlib_64 n h m m m'
      (Z.to_nat o) Hsame Hfit Hdo i Hi) as He. unfold id in He. by rewrite He.
Qed.

Lemma check_ranlibs_spec strsize n o m :
  0 <= o -> o + Z.of_nat n * each <= Z.of_nat (length m) ->
  check_ranlibs h file_size is_32bit strsize n o m =
  Ret (forallb (good_ranlib is_32bit strsize file_size)
         ((fun i => ranlib_at h is_32bit m (o + Z.of_nat i * each)) <$> seq 0 n)).
Proof.
  revert o. induction n as [|n IH]; intros o Ho Hn; [done|]. cbn [check_ranlibs].
  rewrite load_bytes_Ret by lia. cbn [mbind outcome_bind].
  rewrite <- cons_seq, fmap_cons. cbn [forallb]. rewrite Z.mul_0_l, Z.add_0_r.
  destruct (good_ranlib _ _ _ _); [|done]. rewrite IH by lia. cbn [andb]. f_equal. f_equal.
  rewrite <- fmap_S_seq, <- list_fmap_compose. apply list_fmap_ext. intros j i _.
  cbn [compose]. f_equal. lia.
Qed.

(** ** check_archive_toc *)

Lemma check_toc_fits m :
  sex <> UNKNOWN_BYTE_SEX -> toc_addr + len <= Z.of_nat (length m) -> 2 * w <= len -> toc_fits m ->
  exists m', check_toc h sex file_size toc_addr len is_32bit m = Ret (m', toc_result m) /\
    changes (Z.to_nat toc_addr) (Z.to_nat (toc_addr + len)) m m' /\
    (toc_ranlibs (toc_result m) <> None ->
     (fun i => ranlib_at h is_32bit m' (toc_addr + w + Z.of_nat i * each)) <$>
       seq 0 (Z.to_nat (toc_count m)) = toc_entries m).
Proof.
  intros Hsex Hm H2 Hfit. unfold toc_fits in Hfit.
  assert (He : each = 8 \/ each = 16) by (destruct is_32bit; auto).
  assert (Hw : w = 4 \/ w = 8) by (destruct is_32bit; auto).
  pose proof (toc_count_range m) as (Hc & _ & Hcb).
  pose proof (toc_value_range m (toc_addr + (w + each * toc_count m))) as Hsr.
  fold (toc_string_size m) in Hsr.
  unfold check_toc. rewrite bool_decide_false by done. cbv zeta.
  rewrite toc_word_value by lia. cbn [mbind outcome_bind]. fold (toc_count m).
  unfold toc_result. destruct (Z.eqb_spec (toc_count m) 0) as [|Hnz]; cbn [orb].
  { exists m. split_and!; [done|apply changes_refl|done]. }
  rewrite (uw_id 64 (w + each * toc_count m)) by (unfold in_uw; lia).
  rewrite (uw_id 64 (w + each * toc_count m - 2 * w)) by (unfold in_uw; lia).
  rewrite (proj2 (Z.ltb_ge len _)) by lia.
  rewrite toc_word_value by lia. cbn [mbind outcome_bind]. fold (toc_string_size m).
  rewrite (uw_id 64 (w + each * toc_count m + w)) by (unfold in_uw; lia).
  rewrite (uw_id 64 (_ + toc_string_size m)) by (unfold in_uw; lia).
  rewrite (uw_id 64 (_ - 2 * w)) by (unfold in_uw; lia).
  rewrite (proj2 (Z.ltb_ge len _)) by lia.
  destruct (len =? 2 * w). { exists m. split_and!; [done|apply changes_refl|done]. }
  destruct (swap_ranlibs_spec (Z.to_nat (toc_count m)) (toc_addr + w) m) as (m' & Hsw & Hch & Hr);
    [lia|lia|].
  rewrite Hsw. cbn [mbind outcome_bind]. destruct Hch as [Hl Hch].
  rewrite check_ranlibs_spec by lia. cbn [mbind outcome_bind].
  assert (Hentries : (fun i => ranlib_at h is_32bit m' (toc_addr + w + Z.of_nat i * each)) <$>
    seq 0 (Z.to_nat (toc_count m)) = toc_entries m).
  { apply list_fmap_ext. intros j i Hi. apply lookup_seq in Hi as [-> Hi]. apply Hr. lia. }
  exists m'. rewrite Hentries. split_and!; [|split; [done|]; intros i Hi; apply Hch; lia|done].
  by rewrite good_ranlibs_ok.
Qed.
End toc.

(** C19: A table of contents with room for its two words, whose structures and strings fit into
    its member ([toc_fits]) and whose byte sex is that of an object file of the archive, is checked and
    swapped there: no byte outside of the member changes.  A table without structures, or of the
    two words only, is taken for none; another one is accepted exactly when the names of all its
    entries begin in the strings and their members at offsets in the file that are multiples of
    the word size (4, or 8 for a 64-bit table); and then the host reads the entries that a host
    of the table's byte sex would have read before. *)
Theorem toc_checked h file_size file name name_size m toc_addr toc_size is_64 sex :
  0 <= toc_addr -> 0 <= toc_size < 2 ^ 32 -> toc_addr + toc_size <= Z.of_nat (length m) ->
  toc_is_64 file name name_size = Ret is_64 ->
  2 * word_size (negb is_64) <= toc_size ->
  get_toc_byte_sex h file (u32 file_size) = Ret sex -> sex <> UNKNOWN_BYTE_SEX ->
  toc_fits h sex toc_addr toc_size (negb is_64) m ->
  exists m', check_archive_toc h file_size file true name name_size m toc_addr toc_size =
      Ret (m', toc_result h sex file_size toc_addr toc_size (negb is_64) m) /\
    changes (Z.to_nat toc_addr) (Z.to_nat (toc_addr + toc_size)) m m' /\
    (toc_ranlibs (toc_result h sex file_size toc_addr toc_size (negb is_64) m) <> None ->
     (fun i => ranlib_at h (negb is_64) m'
        (toc_addr + word_size (negb is_64) + Z.of_nat i * Z.of_nat (ranlib_size (negb is_64)))) <$>
       seq 0 (Z.to_nat (toc_count h sex toc_addr (negb is_64) m)) =
     toc_entries h sex toc_addr (negb is_64) m).
Proof.
  intros Ha Hs Hm H64 H2 Hsex Hk Hfit. unfold check_archive_toc. cbn [negb]. rewrite H64.
  cbn [mbind outcome_bind]. rewrite (proj2 (Z.ltb_ge _ _)) by lia. rewrite Hsex.
  cbn [mbind outcome_bind]. by apply check_toc_fits.
Qed.

Lemma toc_checked_witness :
  let m := mapped example_with_table in
  exists m', check_archive_toc BE 180 m true 8 16 m 68 20 =
      Ret (m', {| toc_is_32bit := true; toc_ranlibs := Some 72; toc_nranlibs := 1;
                  toc_strings := Some 84; toc_strsize := 4; toc_bad := false |}) /\
    changes 68 88 m m' /\
    ranlib_at LE true m 72 = (0, 88) /\ ranlib_at BE true m' 72 = (0, 88).
Proof.
  intros m. assert (Hlen : Z.of_nat (length m) = 244) by by vm_compute.
  destruct (toc_checked BE 180 m 8 16 m 68 20 false LITTLE_ENDIAN_BYTE_SEX)
    as (m' & H1 & H2 & H3); [lia|lia|lia|by vm_compute|by vm_compute|by vm_compute|done|by vm_compute|].
  exists m'. rewrite H1. split_and!; [by vm_compute|exact H2|by vm_compute|].
  specialize (H3 ltac:(by vm_compute)).
  assert (Hc : toc_count BE LITTLE_ENDIAN_BYTE_SEX 68 (negb false) m = 1) by by vm_compute.
  unfold toc_entries in H3. rewrite Hc in H3. injection H3 as H3 H4.
  change (ranlib_at BE true m' 72) with (ld_u32 BE m' 72, ld_u32 BE m' 76). rewrite H3, H4.
  by vm_compute.
Defined.
