(* ===== verification/MembersSpec.v ===== *)
(** * The members of an archive that was accepted

    After [check_archive] accepted an archive, [ofile_first_member] and
    [ofile_next_member] make its members the current one, each once and in
    their order, without an access outside of the memory and without a
    message, until an object file is refused.  What happens to a member in
    between stays inside of the member. *)

From Stdlib Require Import ZArith Lia Bool.
From Stdlib Require Import Init.Byte.
From stdpp Require Import base option numbers strings list.
From S2P Require Import Prelude CInt CpuTypes LoaderH ByteSex HeaderSwap LoadCmdSwap.
From S2P Require Import TableSwap Rounding InPlace InPlaceSpec Assigns SwapHeaders SwapHeadersSpec Fat.
From S2P Require Import CheckMachO CheckFrame CheckMachOSex CheckMachOSpec.
From S2P Require Import Archive Members ArchiveSpec.

(** ** Object files *)

Lemma do_assigns_length h base l m m' : do_assigns h base l m = Some m' -> length m' = length m.
Proof.
  assert (Hst : forall n h v m o, in_bounds m o n = true -> length (st_u n h v m o) = length m).
  { intros n h0 v m0 o Hb%Nat.leb_le. by destruct (st_u_changes n h0 v m0 o Hb). }
  revert m. induction l as [|a l IH]; intros m; [by intros [= <-]|]. cbn [do_assigns].
  intros (m1 & H1 & H)%bind_Some. apply IH in H as ->.
  destruct (assign_span a) as [[o n]|] eqn:Hs.
  - rewrite (do_assign_rev h base a o n m Hs) in H1.
    destruct (in_bounds m (base + o) n) eqn:Hb; [|done]. injection H1 as <-.
    apply Nat.leb_le in Hb. by apply rev_at_length.
  - destruct a; try done; cbn [do_assign] in H1; repeat case_match; simplify_eq;
      rewrite ?andb_true_iff in *; destruct_and?; by apply Hst.
Qed.

(** A file that is accepted keeps its size. *)
Lemma check_Mach_O_length swap_bitfields h swapped is_64 fat_cputype m m' s :
  (forall st h bs, length (swap_bitfields st h bs) = length bs) ->
  Z.of_nat (length m) < 2 ^ 32 ->
  check_Mach_O swap_bitfields h swapped is_64 fat_cputype m = Ret (m', s) -> length m' = length m.
Proof.
  intros Hbits Hlen H. destruct swapped.
  2:{ by apply native_sound in H as [-> _]. }
  assert (Hm : (hd_size is_64 <= length m)%nat).
  { unfold check_Mach_O in H. cbv zeta in H. apply bind_Ret in H as ([m1 hd] & Hhd & _).
    unfold check_header, swap_load, swap_at, load_at in Hhd. destruct is_64;
      (apply bind_Ret in Hhd as ([m2 mh] & Hhd & _); apply bind_Ret in Hhd as (m3 & H3 & Hhd);
       apply or_stop_Ret, do_assigns_length in H3; apply bind_Ret in Hhd as (x & Hx & _);
       match type of Hx with (if in_bounds _ _ ?n then _ else _) = _ =>
         destruct (in_bounds m3 0 n) eqn:Hb; [|done] end;
       apply Nat.leb_le in Hb; unfold hd_size; lia). }
  pose proof (byte_sex_agrees swap_bitfields h is_64 fat_cputype m Hbits Hm) as Ha.
  rewrite H in Ha. destruct Ha as ([m2 s2] & _ & _ & _ & Hs). cbn [fst] in Hs. apply Hs.
Qed.

(** ** Changes to an ofile *)

(** The same part of the archive. *)
Definition same_place (mb mb' : member) : Prop :=
  member_offset mb' = member_offset mb /\ member_size mb' = member_size mb /\
  member_ar_hdr mb' = member_ar_hdr mb.

(** Of the file only bytes in [lo, hi) change, and nothing is said. *)
Definition updates (lo hi : nat) (o o' : ofile) : Prop :=
  same_place (of_member o) (of_member o') /\ of_messages o' = of_messages o /\
  changes lo hi (file_memory o) (file_memory o').

Lemma updates_refl lo hi o : updates lo hi o o.
Proof. done. Qed.

Lemma updates_trans lo hi o1 o2 o3 : updates lo hi o1 o2 -> updates lo hi o2 o3 -> updates lo hi o1 o3.
Proof.
  intros ((?&?&?) & ? & Hc1) ((?&?&?) & ? & Hc2). split_and!; [split_and!; congruence|congruence|].
  by eapply changes_trans.
Qed.

(** The member is in the file, or all of it in the buffer. *)
Definition addressed (p : Z) (o : ofile) : Prop :=
  let mb := of_member o in
  match member_addr mb with
  | Null_ptr => False
  | In_file z => z = p
  | In_buffer id z => id = of_buffers o /\ z = 0 /\
      member_buffer o = Some (take (Z.to_nat (member_size mb)) (drop (Z.to_nat p) (file_memory o)))
  end.

(** A word of a part of the memory. *)
Lemma byte_at_slice m p n i : (i < n)%nat -> byte_at (take n (drop p m)) i = byte_at m (p + i).
Proof.
  intros Hi. unfold byte_at. rewrite !nth_lookup. by rewrite lookup_take_lt, lookup_drop by done.
Qed.

Lemma ld_u_slice k h m p n i : (i + k <= n)%nat -> ld_u k h (take n (drop p m)) i = ld_u k h m (p + i).
Proof.
  intros Hi. unfold ld_u. f_equal. unfold bytes_at. apply list_eq. intros j.
  rewrite !list_lookup_fmap. destruct (decide (j < k)%nat).
  - rewrite !lookup_seq_lt by done. cbn. f_equal. rewrite byte_at_slice by lia. f_equal. lia.
  - by rewrite !lookup_seq_ge by lia.
Qed.

Section place.
Context (swap_bitfields : bitfield_state -> host -> list byte -> list byte).
Context (Hbits : forall st h bs, length (swap_bitfields st h bs) = length bs).
Context (h : host) (a : archive) (file_size : Z).

(** The archive is in the file, which is in the memory [m0]. *)
Context (m0 : mem).
Context (Ha : 0 <= ar_addr a) (Hb : ar_addr a + ar_bytes a <= file_size).
Context (Hf : file_size <= Z.of_nat (length m0)) (Hsmall : ar_bytes a < 2 ^ 32).

(** The current member has its place in the archive. *)
Definition placed (o : ofile) : Prop :=
  length (file_memory o) = length m0 /\
  let mb := of_member o in
  0 <= member_offset mb /\ in_uw 32 (member_size mb) /\
  member_offset mb + member_size mb <= ar_bytes a.

Local Abbreviation start o := (ar_addr a + member_offset (of_member o)).
Local Abbreviation first_byte o := (Z.to_nat (start o)).
Local Abbreviation last_byte o := (Z.to_nat (start o + member_size (of_member o))).

Lemma member_addr_set_placed o :
  placed o ->
  exists o', member_addr_set a file_size o = Ret (Some o') /\ addressed (start o) o' /\
    placed o' /\ same_place (of_member o) (of_member o') /\
    of_messages o' = of_messages o /\ file_memory o' = file_memory o /\
    member_name (of_member o') = member_name (of_member o) /\
    member_name_size (of_member o') = member_name_size (of_member o) /\
    member_type (of_member o') = member_type (of_member o).
Proof.
  intros (Hl & Ho & Hs & Hfit). unfold in_uw in Hs. unfold member_addr_set. cbv zeta.
  rewrite (proj2 (Z.ltb_ge _ _)) by lia.
  destruct (negb (member_offset (of_member o) mod 8 =? 0)).
  - change (file_memory (free_buffer o)) with (file_memory o). rewrite load_bytes_Ret by lia.
    cbn [mbind outcome_bind]. eexists. split; [reflexivity|].
    split; [by split_and!|]. split; [done|]. by split_and!.
  - eexists. split; [reflexivity|]. split; [done|]. split; [done|]. by split_and!.
Qed.

(** What a pointer to the contents reaches. *)
Lemma region_addressed o :
  placed o -> addressed (start o) o ->
  exists r z, region o (member_addr (of_member o)) = Ret (r, z) /\ 0 <= z /\
    z + member_size (of_member o) <= Z.of_nat (length r) /\
    take (Z.to_nat (member_size (of_member o))) (drop (Z.to_nat z) r) =
      take (Z.to_nat (member_size (of_member o))) (drop (first_byte o) (file_memory o)) /\
    forall r', length r' = length r ->
      changes (Z.to_nat z) (Z.to_nat (z + member_size (of_member o))) r r' ->
      updates (first_byte o) (last_byte o) o (set_region (member_addr (of_member o)) r' o).
Proof.
  intros (Hl & Ho & Hs & Hfit) Had. unfold in_uw in Hs. unfold addressed in Had. cbv zeta in Had.
  unfold region, set_region. destruct (member_addr (of_member o)) as [|z|id z]; [done|..].
  - subst z. exists (file_memory o), (start o). split_and!; [done|lia|lia|done|].
    intros r' Hr' Hc. by split_and!.
  - destruct Had as (-> & -> & ->). rewrite Nat.eqb_refl. eexists _, 0. split_and!; [done|done|..].
    + rewrite length_take, length_drop. lia.
    + change (Z.to_nat 0) with O. by rewrite drop_0, take_idemp.
    + intros r' Hr' Hc. split_and!; [done|done|]. apply changes_refl.
Qed.

Lemma set_member_type_updates lo hi t o o' :
  updates lo hi o o' -> updates lo hi o (set_member_type t o').
Proof. intros ((?&?&?) & ? & ?). by split_and!. Qed.

Lemma set_object_updates lo hi ob o o' : updates lo hi o o' -> updates lo hi o (set_object ob o').
Proof. intros ((?&?&?) & ? & ?). by split_and!. Qed.

(** An object file is refused, or swapped where it is. *)
Lemma object_member_spec is_64 swapped o :
  placed o -> addressed (start o) o ->
  match object_member swap_bitfields h a is_64 swapped o with
  | Ret o' => updates (first_byte o) (last_byte o) o o' /\ member_type (of_member o') = OFILE_Mach_O
  | Stop (Object_bad _) => True
  | Stop _ => False
  end.
Proof.
  intros Hp Had. destruct (region_addressed o Hp Had) as (r & z & Hr & Hz & Hfit & Hsl & Hup).
  destruct Hp as (Hl & Ho & Hs & Hend). unfold in_uw in Hs.
  unfold object_member. cbv zeta. rewrite Hr. cbn [mbind outcome_bind].
  set (bytes := take _ _) in *.
  assert (Hn : length bytes = Z.to_nat (member_size (of_member o)))
    by (unfold bytes; rewrite length_take, length_drop; lia).
  destruct (check_Mach_O _ _ _ _ _ bytes) as [[bytes' s]|f] eqn:Hc; [|done].
  apply check_Mach_O_length in Hc; [|done|lia]. split; [|done].
  apply set_object_updates, set_member_type_updates. apply Hup.
  - unfold write. rewrite !length_app, length_take, length_drop. lia.
  - replace (Z.to_nat (z + member_size (of_member o))) with (Z.to_nat z + length bytes')%nat by lia.
    apply write_changes. lia.
Qed.

(** The first word of a member that is not a fat file. *)
Lemma identify_member_spec left o :
  placed o -> addressed (start o) o -> 4 < member_size (of_member o) ->
  is_fat_magic h (ld_u32 h (file_memory o) (first_byte o)) = false ->
  match identify_member swap_bitfields h a (member_addr (of_member o)) left o with
  | Ret (Some o1, o2) => o1 = o2 /\ updates (first_byte o) (last_byte o) o o1 /\
      (o1 = o \/ member_type (of_member o1) = OFILE_Mach_O)
  | Stop (Object_bad _) => True
  | _ => False
  end.
Proof.
  intros Hp Had H4 Hnf. destruct (region_addressed o Hp Had) as (r & z & Hr & Hz & Hfit & Hsl & _).
  pose proof Hp as (Hl & Ho & Hs & Hend). unfold in_uw in Hs.
  unfold identify_member. rewrite Hr. cbn [mbind outcome_bind]. rewrite load_word_Ret by lia.
  cbn [mbind outcome_bind].
  assert (Hw : ld_u32 h r (Z.to_nat z) = ld_u32 h (file_memory o) (first_byte o)).
  { pose proof (ld_u_slice 4 h r (Z.to_nat z) (Z.to_nat (member_size (of_member o))) 0 ltac:(lia)) as H1.
    pose proof (ld_u_slice 4 h (file_memory o) (first_byte o)
      (Z.to_nat (member_size (of_member o))) 0 ltac:(lia)) as H2.
    rewrite Hsl in H1. rewrite Nat.add_0_r in H1, H2. congruence. }
  rewrite Hw, Hnf. set (magic := ld_u32 h (file_memory o) (first_byte o)).
  destruct (_ && magic_of magic MH_MAGIC); [|destruct (_ && magic_of magic MH_MAGIC_64)].
  1,2: (match goal with |- context [object_member _ _ _ ?b ?s _] =>
        pose proof (object_member_spec b s o Hp Had) as Hob end;
        destruct (object_member _ _ _ _ _ _) as [o'|[]]; try done; cbn; by destruct Hob; auto).
  cbn. split_and!; [done|done|by left].
Qed.

(** ** The table of contents *)

(** A table of contents [n] bytes long at [p], whose name is at [name], that
    fits when it can be read at all. *)
Definition table_ok (fm : mem) (name name_size p n : Z) : Prop :=
  is_thin a = true -> is_symdef fm name = Ret true ->
  forall is_64, toc_is_64 fm name name_size = Ret is_64 ->
  2 * word_size (negb is_64) <= n ->
  exists sex, get_toc_byte_sex h fm (u32 file_size) = Ret sex /\
    (sex = UNKNOWN_BYTE_SEX \/ toc_fits h sex p n (negb is_64) fm).

Lemma strncmp_is_Ret m o s n :
  0 <= o -> o + Z.of_nat (Nat.min n (S (length s))) <= Z.of_nat (length m) ->
  exists b, strncmp_is m o s n = Ret b.
Proof.
  revert o s. induction n as [|n IH]; intros o s Ho Hl; [by eexists|]. cbn [strncmp_is].
  destruct (load8_Ret m o) as [b ->]; [destruct s; cbn [length] in Hl; lia|].
  cbn [mbind outcome_bind]. destruct s as [|c s]; [by eexists|]. cbn [length] in Hl.
  destruct (Byte.eqb b c); [|by eexists]. apply IH; lia.
Qed.

Lemma is_symdef_Ret m name :
  0 <= name -> name + 21 <= Z.of_nat (length m) -> exists b, is_symdef m name = Ret b.
Proof.
  intros H0 Hl. unfold is_symdef.
  destruct (strncmp_is_Ret m name SYMDEF_SORTED (length SYMDEF_SORTED)) as [[] ->];
    [done|cbn; lia|by exists true|].
  destruct (strncmp_is_Ret m name SYMDEF (length SYMDEF)) as [[] ->]; [done|cbn; lia|by exists true|].
  destruct (strncmp_is_Ret m name SYMDEF_64_SORTED (length SYMDEF_64_SORTED)) as [[] ->];
    [done|cbn; lia|by exists true|].
  apply strncmp_is_Ret; [done|cbn; lia].
Qed.

Lemma toc_is_64_Ret m name n :
  0 <= name -> name + 21 <= Z.of_nat (length m) -> exists b, toc_is_64 m name n = Ret b.
Proof.
  intros H0 Hl. unfold toc_is_64.
  destruct (strncmp_is_Ret m name SYMDEF_64_SORTED (Z.to_nat n)) as [[] ->];
    [done|cbn; lia|by eexists|].
  apply strncmp_is_Ret; [done|cbn; lia].
Qed.

(** A table is the same in a copy. *)
Lemma toc_fits_copied sex is_32bit p z n fm r :
  0 <= p -> 0 <= z -> 2 * word_size is_32bit <= n ->
  take (Z.to_nat n) (drop (Z.to_nat z) r) = take (Z.to_nat n) (drop (Z.to_nat p) fm) ->
  toc_fits h sex p n is_32bit fm -> toc_fits h sex z n is_32bit r.
Proof.
  intros Hp Hz Hn Hsl. assert (Hw : word_size is_32bit = 4 \/ word_size is_32bit = 8)
    by (destruct is_32bit; auto).
  assert (Hv : forall k, 0 <= k -> k + word_size is_32bit <= n ->
    toc_value h sex is_32bit r (z + k) = toc_value h sex is_32bit fm (p + k)).
  { intros k Hk Hkn. unfold toc_value. rewrite !Z2Nat.inj_add by lia.
    destruct is_32bit; cbn [word_size] in *;
      rewrite <- !(ld_u_slice _ _ _ _ (Z.to_nat n)) by lia; by rewrite Hsl. }
  unfold toc_fits. intros Hfit.
  assert (Hc : toc_count h sex z is_32bit r = toc_count h sex p is_32bit fm).
  { unfold toc_count. pose proof (Hv 0 ltac:(lia) ltac:(lia)) as H0. rewrite !Z.add_0_r in H0.
    by rewrite H0. }
  rewrite Hc. pose proof (toc_count_range h sex p is_32bit fm) as (Hc0 & _).
  assert (He : 0 <= Z.of_nat (ranlib_size is_32bit) * toc_count h sex p is_32bit fm) by lia.
  pose proof (toc_value_range h sex is_32bit fm
    (p + (word_size is_32bit + Z.of_nat (ranlib_size is_32bit) * toc_count h sex p is_32bit fm))) as Hs.
  fold (toc_string_size h sex p is_32bit fm) in Hs.
  replace (toc_string_size h sex z is_32bit r) with (toc_string_size h sex p is_32bit fm); [done|].
  unfold toc_string_size. rewrite Hc. symmetry. apply Hv; lia.
Qed.

(** The name is in the file, before the end of the archive. *)
Context (Hpad : m0 !! Z.to_nat (ar_addr a + ar_bytes a + sizeof_ar_hdr) = Some x00).

Lemma long_memory : 0 <= ar_bytes a -> ar_addr a + ar_bytes a + 60 < Z.of_nat (length m0).
Proof. intros. apply lookup_lt_Some in Hpad. unfold sizeof_ar_hdr in *. lia. Qed.

Lemma first_tables_spec o name :
  placed o -> addressed (start o) o -> member_name (of_member o) = In_file name ->
  0 <= name < ar_addr a + ar_bytes a ->
  table_ok (file_memory o) name (member_name_size (of_member o)) (start o)
    (member_size (of_member o)) ->
  exists o', first_tables h a file_size o = Ret o' /\
    updates (first_byte o) (last_byte o) o o'.
Proof.
  intros Hp Had Hname Hn Hok. destruct (region_addressed o Hp Had) as (r & z & Hr & Hz & Hfit & Hsl & Hup).
  pose proof Hp as (Hl & Ho & Hs & Hend). unfold in_uw in Hs.
  pose proof (long_memory ltac:(lia)) as Hlong. unfold first_tables. rewrite Hname. cbn [region].
  cbn [mbind outcome_bind].
  destruct (is_symdef_Ret (file_memory o) name) as [symdef Hsym]; [lia|lia|]. rewrite Hsym.
  cbn [mbind outcome_bind]. destruct symdef.
  2:{ unfold is_string_table. destruct (strncmp_is_Ret (file_memory o) name (text "// ") 4) as [b ->];
        [lia|cbn; lia|]. cbn [mbind outcome_bind]. destruct b; eexists; (split; [done|]); done. }
  rewrite Hr. cbn [mbind outcome_bind]. unfold check_archive_toc.
  destruct (is_thin a) eqn:Hthin; cbn [negb].
  2:{ cbn [mbind outcome_bind]. eexists. split; [done|].
      destruct (Hup r) as (? & ? & ?); [done|apply changes_refl|]. by split_and!. }
  destruct (toc_is_64_Ret (file_memory o) name (member_name_size (of_member o))) as [is_64 H64];
    [lia|lia|]. rewrite H64. cbn [mbind outcome_bind].
  assert (Hkeep : forall r' t, length r' = length r ->
    changes (Z.to_nat z) (Z.to_nat (z + member_size (of_member o))) r r' ->
    exists o', Ret (F := archive_failure) (set_toc t.1 t.2 (set_region (member_addr (of_member o)) r' o)) = Ret o' /\
      updates (first_byte o) (last_byte o) o o').
  { intros r' t Hr' Hc. eexists. split; [done|]. destruct (Hup r' Hr' Hc) as (? & ? & ?). by split_and!. }
  destruct (Z.ltb_spec (member_size (of_member o)) (2 * word_size (negb is_64))) as [Hshort|Hlong2].
  { cbn [mbind outcome_bind]. apply (Hkeep r (_, _)); [done|apply changes_refl]. }
  destruct (Hok Hthin Hsym is_64 H64 Hlong2) as (sex & Hsex & Hfits). rewrite Hsex.
  cbn [mbind outcome_bind]. destruct (decide (sex = UNKNOWN_BYTE_SEX)) as [->|Hknown].
  { unfold check_toc. rewrite bool_decide_true by done. cbn [mbind outcome_bind].
    apply (Hkeep r (_, _)); [done|apply changes_refl]. }
  destruct Hfits as [|Hfits]; [done|].
  apply (toc_fits_copied _ _ _ z _ _ r) in Hfits; [|lia|lia|done|exact Hsl].
  destruct (check_toc_fits h sex file_size z (member_size (of_member o)) (negb is_64) Hz Hs r)
    as (r' & Hr' & Hc & _); [done|lia|done|done|].
  rewrite Hr'. cbn [mbind outcome_bind]. apply (Hkeep r' (_, _)); [by destruct Hc|exact Hc].
Qed.

(** ** Making a member the current one *)

Context (erange : bool).

(** A member as the check has seen it: its header begins at [off]. *)
Context (off : Z) (mb : member_header).
Context (Hoff : 0 <= off < ar_bytes a).
Context (Hmb : check_member_header m0 file_size erange a off = Ret mb).
Context (Hend : mb_offset mb + rnd (mb_size mb) 2 <= ar_bytes a).
Context (Hnf : 4 < ar_bytes a - mb_offset mb ->
  is_fat_magic h (ld_u32 h m0 (Z.to_nat (ar_addr a + mb_offset mb))) = false).

(** Its name is in the header or behind it, and a number in the header ends
    there. *)
Definition plain : Prop :=
  is_sysv_name (hdr_name (mb_hdr mb)) = false /\
  (is_efmt1 (hdr_name (mb_hdr mb)) = true ->
   efmt1_size m0 (hdr_at (mb_hdr mb)) = Ret (mb_name_size mb)).

(** [v] is the member. *)
Definition shows (v : member) : Prop :=
  member_offset v = mb_offset mb /\ member_size v = mb_size mb /\
  member_ar_hdr v = Some (hdr_at (mb_hdr mb)).

Lemma header_numbers :
  let n := u32 (hdr_size (mb_hdr mb)) in
  mb_offset mb = off + 60 + mb_name_size mb /\ 0 <= mb_name_size mb <= n /\
  mb_size mb = n - mb_name_size mb /\ n <= ar_bytes a - 60 /\ 0 <= mb_size mb < 2 ^ 32 /\
  mb_offset mb + mb_size mb <= ar_bytes a /\ in_uw 32 n.
Proof.
  pose proof (check_member_header_fields _ _ _ _ _ _ Hmb) as (Ho & Hn & Hs & _ & He & _).
  cbv zeta. set (n := u32 (hdr_size (mb_hdr mb))) in *.
  assert (Hnr : in_uw 32 n) by by apply uw_range. unfold in_uw, sizeof_ar_hdr in *.
  pose proof (rnd_2 (mb_size mb) ltac:(lia)) as Hr.
  assert (Hle : mb_name_size mb <= n).
  { destruct (Z.le_gt_cases (mb_name_size mb) n); [done|].
    assert (u32 (n - mb_name_size mb) = n - mb_name_size mb + 2 ^ 32); [|lia].
    unfold uw. symmetry. apply (Z.mod_unique_pos _ _ (-1)); lia. }
  rewrite uw_id in He by (unfold in_uw; lia). lia.
Qed.

(** The header is read from what the file is by now. *)
Context (o : ofile).
Context (Hsame : same_from (Z.to_nat (ar_addr a + off)) m0 (file_memory o)).

Lemma shows_placed o' : file_memory o' = file_memory o -> shows (of_member o') -> placed o'.
Proof.
  intros Hm (H1 & H2 & _). destruct Hsame as [Hl _]. pose proof header_numbers as H. cbv zeta in H.
  unfold placed. cbv zeta. rewrite Hm, H1, H2. unfold in_uw. lia.
Qed.

Lemma read_header : read_ar_hdr (file_memory o) (ar_addr a + off) = Ret (mb_hdr mb).
Proof.
  rewrite (read_ar_hdr_same _ m0 (file_memory o)) by (exact Hsame || lia).
  by destruct (check_member_header_fields _ _ _ _ _ _ Hmb) as (_ & _ & _ & _ & _ & _ & ?).
Qed.

Lemma no_cut o' : cut_member_size a (u32 (hdr_size (mb_hdr mb))) o' = (u32 (hdr_size (mb_hdr mb)), o').
Proof.
  pose proof header_numbers as H. cbv zeta in H. unfold cut_member_size, sizeof_ar_hdr.
  by rewrite (proj2 (Z.ltb_ge _ _)) by lia.
Qed.

(** The fields before [member_addr_set]. *)
Definition begins_member (mbr : member) (hdr : Z) : Prop :=
  member_offset mbr = off + sizeof_ar_hdr /\ member_size mbr = u32 (hdr_size (mb_hdr mb)) /\
  member_ar_hdr mbr = Some hdr.

Lemma efmt1_member_spec o' mbr :
  file_memory o' = file_memory o -> begins_member mbr (ar_addr a + off) -> plain ->
  is_efmt1 (hdr_name (mb_hdr mb)) = true ->
  exists o2, efmt1_member (ar_addr a + off) mbr o' = Ret (mb_name_size mb, o2) /\
    shows (of_member o2) /\ updates 0 0 (set_member (of_member o2) o') o2 /\
    file_memory o2 = file_memory o /\
    member_name (of_member o2) = In_file (ar_addr a + off + sizeof_ar_hdr) /\
    member_name_size (of_member o2) = mb_name_size mb /\
    member_type (of_member o2) = member_type mbr /\
    off + sizeof_ar_hdr + mb_name_size mb = mb_offset mb.
Proof.
  intros Hm (H1 & H2 & H3) [_ Hsz] Hx. specialize (Hsz Hx).
  pose proof header_numbers as Hn. cbv zeta in Hn. unfold in_uw, sizeof_ar_hdr in *.
  destruct (check_member_header_fields _ _ _ _ _ _ Hmb) as (_ & _ & _ & Hat & _).
  rewrite Hat in Hsz. unfold efmt1_size in Hsz. unfold efmt1_member, efmt1_size. rewrite Hm.
  rewrite (strtoul_at_same _ m0 (file_memory o)) by (exact Hsame || lia). rewrite Hsz.
  cbn [mbind outcome_bind]. rewrite H2, (proj2 (Z.ltb_ge _ _)) by lia.
  eexists. split; [reflexivity|]. unfold shows. cbn -[uw]. rewrite H1, H3, Hat.
  rewrite uw_id by (unfold in_uw; lia). split_and!; try done; try lia.
Qed.

Lemma plain_member_spec o' mbr :
  file_memory o' = file_memory o -> begins_member mbr (ar_addr a + off) ->
  is_efmt1 (hdr_name (mb_hdr mb)) = false ->
  let o2 := plain_member (ar_addr a + off) (hdr_name (mb_hdr mb)) mbr o' in
  shows (of_member o2) /\ file_memory o2 = file_memory o /\
  off + sizeof_ar_hdr = mb_offset mb.
Proof.
  intros Hm (H1 & H2 & H3) Hx. pose proof header_numbers as Hn. cbv zeta in Hn.
  destruct (check_member_header_fields _ _ _ _ _ _ Hmb) as (Ho & _ & _ & Hat & _).
  assert (Hz : mb_name_size mb = 0).
  { pose proof Hmb as H. unfold check_member_header in H. destruct (_ <? _); [done|].
    apply bind_Ret in H as (hdr & Hh & H). pose proof read_header as Hr.
    destruct (check_member_header_fields _ _ _ _ _ _ Hmb) as (_ & _ & _ & _ & _ & _ & Hr0).
    rewrite Hh in Hr0. injection Hr0 as ->. rewrite Hx in H. by injection H as <-. }
  unfold shows, sizeof_ar_hdr in *. cbn -[uw]. rewrite H1, H2, H3, Hat. split_and!; try done; lia.
Qed.

(** Where the contents are in the file. *)
Local Abbreviation lo := (Z.to_nat (ar_addr a + mb_offset mb)).
Local Abbreviation hi := (Z.to_nat (ar_addr a + mb_offset mb + mb_size mb)).

Lemma shows_updates o1 o2 : shows (of_member o1) ->
  updates (first_byte o1) (last_byte o1) o1 o2 ->
  shows (of_member o2) /\ of_messages o2 = of_messages o1 /\
  changes lo hi (file_memory o1) (file_memory o2).
Proof.
  intros (H1 & H2 & H3) ((E1 & E2 & E3) & Hm & Hc). rewrite H1, H2 in Hc.
  split_and!; [split_and!; congruence|done|done].
Qed.

(** The first word of the contents was seen by the check. *)
Lemma no_fat_magic o1 : file_memory o1 = file_memory o -> shows (of_member o1) ->
  4 < member_size (of_member o1) ->
  is_fat_magic h (ld_u32 h (file_memory o1) (first_byte o1)) = false.
Proof.
  intros Hm (H1 & H2 & _) H4. pose proof header_numbers as Hn. cbv zeta in Hn.
  rewrite Hm, H1. rewrite (same_ld_u (Z.to_nat (ar_addr a + off)) m0 (file_memory o))
    by (exact Hsame || lia). apply Hnf. lia.
Qed.

(** From [member_addr_set] to the type of the member. *)
Lemma addressed_member o1 :
  file_memory o1 = file_memory o -> shows (of_member o1) ->
  exists o2, member_addr_set a file_size o1 = Ret (Some o2) /\
    shows (of_member o2) /\ placed o2 /\ addressed (start o2) o2 /\
    file_memory o2 = file_memory o /\ of_messages o2 = of_messages o1 /\
    member_name (of_member o2) = member_name (of_member o1) /\
    member_name_size (of_member o2) = member_name_size (of_member o1) /\
    member_type (of_member o2) = member_type (of_member o1).
Proof.
  intros Hm Hsh. pose proof (shows_placed o1 Hm Hsh) as Hp.
  destruct (member_addr_set_placed o1 Hp) as (o2 & Hset & Had & Hp2 & (E1 & E2 & E3) & Hmsg & Hmem & Hrest).
  exists o2. rewrite E1. destruct Hsh as (H1 & H2 & H3). unfold shows.
  split_and!; try done; try congruence; apply Hrest.
Qed.

Lemma identify_shows left o1 :
  file_memory o1 = file_memory o -> shows (of_member o1) -> placed o1 -> addressed (start o1) o1 ->
  4 < member_size (of_member o1) ->
  match identify_member swap_bitfields h a (member_addr (of_member o1)) left o1 with
  | Ret (Some o2, o3) => o2 = o3 /\ shows (of_member o2) /\ of_messages o2 = of_messages o1 /\
      changes lo hi (file_memory o1) (file_memory o2) /\
      (o2 = o1 \/ member_type (of_member o2) = OFILE_Mach_O)
  | Stop (Object_bad _) => True
  | _ => False
  end.
Proof.
  intros Hm Hsh Hp Had H4.
  pose proof (identify_member_spec left o1 Hp Had H4 (no_fat_magic o1 Hm Hsh H4)) as H.
  destruct (identify_member _ _ _ _ _ _) as [[[o2|] o3]|[]]; try done.
  destruct H as (Heq & Hup & Ht). destruct (shows_updates o1 o2 Hsh Hup) as (? & ? & ?).
  by split_and!.
Qed.

Lemma set_up_next_spec o1 :
  file_memory o1 = file_memory o -> shows (of_member o1) ->
  match set_up_next swap_bitfields h a file_size (mb_offset mb) o1 with
  | Ret (true, o2) => shows (of_member o2) /\ of_messages o2 = of_messages o1 /\
      changes lo hi (file_memory o1) (file_memory o2)
  | Stop (Object_bad _) => True
  | _ => False
  end.
Proof.
  intros Hm Hsh. unfold set_up_next.
  destruct (addressed_member o1 Hm Hsh) as (o2 & -> & Hsh2 & Hp2 & Had2 & Hmem2 & Hmsg2 & _).
  cbn [mbind outcome_bind]. set (o3 := set_object None (set_member_type OFILE_UNKNOWN o2)).
  destruct (Z.ltb_spec 4 (member_size (of_member o3))) as [H4|H4].
  - pose proof (identify_shows (u64 (ar_bytes a - mb_offset mb)) o3 Hmem2 Hsh2 Hp2 Had2 H4) as H.
    destruct (identify_member _ _ _ _ _ _) as [[[o4|] o5]|[]]; try done.
    destruct H as (_ & Hsh4 & Hmsg4 & Hc & _). cbn. rewrite Hmsg4. split_and!; [done|done|].
    rewrite Hm, <- Hmem2. exact Hc.
  - cbn. rewrite Hm, <- Hmem2. split_and!; [done|done|apply changes_refl].
Qed.

(** The first member can be a table of contents. *)
Lemma set_up_first_spec o1 name :
  file_memory o1 = file_memory o -> shows (of_member o1) ->
  member_name (of_member o1) = In_file name ->
  (4 < mb_size mb -> 0 <= name < ar_addr a + ar_bytes a) ->
  member_type (of_member o1) = OFILE_UNKNOWN ->
  (4 < mb_size mb -> table_ok (file_memory o) name (member_name_size (of_member o1))
    (ar_addr a + mb_offset mb) (mb_size mb)) ->
  match set_up_first swap_bitfields h a file_size (mb_offset mb) o1 with
  | Ret (true, o2) => shows (of_member o2) /\ of_messages o2 = of_messages o1 /\
      changes lo hi (file_memory o1) (file_memory o2)
  | Stop (Object_bad _) => True
  | _ => False
  end.
Proof.
  intros Hm Hsh Hname Hnr Htype Hok. unfold set_up_first.
  destruct (addressed_member o1 Hm Hsh)
    as (o2 & -> & Hsh2 & Hp2 & Had2 & Hmem2 & Hmsg2 & Hname2 & Hns2 & Ht2).
  cbn [mbind outcome_bind]. set (o3 := set_strtab Null_ptr 0 (set_toc None no_toc o2)).
  destruct (Z.ltb_spec 4 (member_size (of_member o3))) as [H4|H4].
  2:{ cbn. rewrite Hm, <- Hmem2. split_and!; [done|done|apply changes_refl]. }
  pose proof (identify_shows (u64 (ar_bytes a - mb_offset mb)) o3 Hmem2 Hsh2 Hp2 Had2 H4) as H.
  destruct (identify_member _ _ _ _ _ _) as [[[o4|] o5]|[]]; try done.
  destruct H as (<- & Hsh4 & Hmsg4 & Hc & Ht4). cbn [mbind outcome_bind].
  assert (Hc' : changes lo hi (file_memory o1) (file_memory o4))
    by (rewrite Hm, <- Hmem2; exact Hc).
  assert (Hmsg' : of_messages o4 = of_messages o1) by (rewrite Hmsg4; exact Hmsg2).
  destruct Ht4 as [->|Hmach]; [|by rewrite Hmach].
  change (member_type (of_member o3)) with (member_type (of_member o2)). rewrite Ht2, Htype.
  destruct (first_tables_spec o3 name) as (o6 & -> & Hup).
  - exact Hp2.
  - exact Had2.
  - exact (eq_trans Hname2 Hname).
  - apply Hnr. destruct Hsh2 as (_ & E2 & _). change (of_member o3) with (of_member o2) in H4.
    by rewrite <- E2.
  - destruct Hsh2 as (E1 & E2 & _). change (file_memory o3) with (file_memory o2).
    change (of_member o3) with (of_member o2). rewrite Hmem2, Hns2, E1, E2. apply Hok.
    change (of_member o3) with (of_member o2) in H4. by rewrite <- E2.
  - destruct (shows_updates o3 o6 Hsh2 Hup) as (Hsh6 & Hmsg6 & Hc6). cbn. split_and!; [done|..].
    + by rewrite Hmsg6.
    + rewrite Hm, <- Hmem2. exact Hc6.
Qed.
(** From the header of a member that is not the first one. *)
Lemma next_name_spec o' mbr :
  file_memory o' = file_memory o -> begins_member mbr (ar_addr a + off) -> plain ->
  let name := hdr_name (mb_hdr mb) in
  match
    (if is_sysv_name name then
       o1 ← sysv_member (ar_addr a + off) name mbr o';
       set_up_next swap_bitfields h a file_size (off + sizeof_ar_hdr) o1
     else if is_efmt1 name then
       '(n, o1) ← efmt1_member (ar_addr a + off) mbr o';
       set_up_next swap_bitfields h a file_size (off + sizeof_ar_hdr + n) o1
     else set_up_next swap_bitfields h a file_size (off + sizeof_ar_hdr)
            (plain_member (ar_addr a + off) name mbr o'))
  with
  | Ret (true, o2) => shows (of_member o2) /\ of_messages o2 = of_messages o' /\
      changes lo hi (file_memory o) (file_memory o2)
  | Stop (Object_bad _) => True
  | _ => False
  end.
Proof.
  intros Hm Hbeg Hplain name. pose proof Hplain as [Hsysv _]. unfold name. rewrite Hsysv.
  destruct (is_efmt1 (hdr_name (mb_hdr mb))) eqn:Hx.
  - destruct (efmt1_member_spec o' mbr Hm Hbeg Hplain Hx)
      as (o2 & -> & Hsh & (_ & Hmsg & _) & Hmem & _ & _ & _ & He).
    cbn [mbind outcome_bind]. rewrite He. pose proof (set_up_next_spec o2 Hmem Hsh) as H.
    destruct (set_up_next _ _ _ _ _ _) as [[[] o3]|[]]; try done.
    by rewrite Hmsg, Hmem in H.
  - destruct (plain_member_spec o' mbr Hm Hbeg Hx) as (Hsh & Hmem & ->).
    pose proof (set_up_next_spec _ Hmem Hsh) as H.
    destruct (set_up_next _ _ _ _ _ _) as [[[] o3]|[]]; try done.
    by rewrite Hmem in H.
Qed.

(** From the header of the first one.  The names a table of contents can have
    are looked at where the name is. *)
Definition name_at : Z :=
  ar_addr a + off + (if is_efmt1 (hdr_name (mb_hdr mb)) then sizeof_ar_hdr else 0).

Definition name_bytes : Z :=
  if is_efmt1 (hdr_name (mb_hdr mb)) then mb_name_size mb else size_ar_name (hdr_name (mb_hdr mb)).

Lemma first_name_spec o' mbr :
  file_memory o' = file_memory o -> begins_member mbr (ar_addr a + off) -> plain ->
  member_type mbr = OFILE_UNKNOWN ->
  (4 < mb_size mb ->
   table_ok (file_memory o) name_at name_bytes (ar_addr a + mb_offset mb) (mb_size mb)) ->
  let name := hdr_name (mb_hdr mb) in
  match
    (if is_efmt1 name then
       '(n, o1) ← efmt1_member (ar_addr a + off) mbr o';
       set_up_first swap_bitfields h a file_size (off + sizeof_ar_hdr + n) o1
     else set_up_first swap_bitfields h a file_size (off + sizeof_ar_hdr)
            (plain_member (ar_addr a + off) name mbr o'))
  with
  | Ret (true, o2) => shows (of_member o2) /\ of_messages o2 = of_messages o' /\
      changes lo hi (file_memory o) (file_memory o2)
  | Stop (Object_bad _) => True
  | _ => False
  end.
Proof.
  intros Hm Hbeg Hplain Htype Hok name. pose proof header_numbers as Hnum. cbv zeta in Hnum. unfold name, name_at, name_bytes, sizeof_ar_hdr in *.
  destruct (is_efmt1 (hdr_name (mb_hdr mb))) eqn:Hx.
  - destruct (efmt1_member_spec o' mbr Hm Hbeg Hplain Hx)
      as (o2 & -> & Hsh & (_ & Hmsg & _) & Hmem & Hn2 & Hs2 & Ht2 & He).
    unfold sizeof_ar_hdr in *. cbn [mbind outcome_bind]. rewrite He.
    pose proof (set_up_first_spec o2 _ Hmem Hsh Hn2 ltac:(lia) (eq_trans Ht2 Htype)
      ltac:(by rewrite Hs2)) as H.
    destruct (set_up_first _ _ _ _ _ _) as [[[] o3]|[]]; try done.
    by rewrite Hmsg, Hmem in H.
  - destruct (plain_member_spec o' mbr Hm Hbeg Hx) as (Hsh & Hmem & He).
    unfold sizeof_ar_hdr in *. rewrite He. rewrite Z.add_0_r in Hok.
    pose proof (set_up_first_spec _ (ar_addr a + off) Hmem Hsh eq_refl ltac:(lia) Htype Hok) as H.
    destruct (set_up_first _ _ _ _ _ _) as [[[] o3]|[]]; try done.
    by rewrite Hmem in H.
Qed.
End place.

(** ** Every member *)

Section walk.
Context (swap_bitfields : bitfield_state -> host -> list byte -> list byte).
Context (Hbits : forall st h bs, length (swap_bitfields st h bs) = length bs).
Context (h : host) (a : archive) (file_size : Z) (m0 : mem) (erange : bool).
Context (Ha : 0 <= ar_addr a) (Hb : ar_addr a + ar_bytes a <= file_size).
Context (Hf : file_size <= Z.of_nat (length m0)) (Hsmall : ar_bytes a < 2 ^ 32).
Context (Hpad : m0 !! Z.to_nat (ar_addr a + ar_bytes a + sizeof_ar_hdr) = Some x00).
Context (Hmagic : exists magic, load_bytes m0 (ar_addr a) 8 = Ret magic /\ begins ARMAG magic = true).
Context (H8 : 8 <= ar_bytes a).

(** The body of the loop changes the contents of the member at most. *)
Context (processor : ofile -> ofile).
Context (Hproc : forall o,
  of_member (processor o) = of_member o /\ of_messages (processor o) = of_messages o /\
  changes (Z.to_nat (ar_addr a + member_offset (of_member o)))
    (Z.to_nat (ar_addr a + member_offset (of_member o) + member_size (of_member o)))
    (file_memory o) (file_memory (processor o))).

Local Abbreviation after_magic := (Z.to_nat (ar_addr a + 8)).

(** The members up to [off] are done. *)
Definition done_to (off : Z) (m : mem) : Prop := changes after_magic (Z.to_nat (ar_addr a + off)) m0 m.

Lemma has_magic_done off o : done_to off (file_memory o) -> has_magic a o = Ret true.
Proof.
  intros Hd. unfold has_magic, SARMAG. rewrite (proj2 (Z.ltb_ge _ _)) by lia.
  destruct Hmagic as (magic & Hl & Hm).
  assert (Heq : forall n p, p + Z.of_nat n <= ar_addr a + 8 ->
    load_bytes (file_memory o) p n = load_bytes m0 p n).
  { induction n as [|n IH]; intros p Hp; [done|]. cbn [load_bytes]. rewrite IH by lia.
    unfold load8. destruct (Z.ltb_spec p 0); [done|]. destruct Hd as [_ Hd]. by rewrite Hd by lia. }
  change (Z.to_nat 8) with 8%nat. rewrite Heq by lia. rewrite Hl. cbn [mbind outcome_bind].
  by rewrite Hm.
Qed.

Lemma done_to_same off m : done_to off m -> 0 <= off -> same_from (Z.to_nat (ar_addr a + off)) m0 m.
Proof. intros [Hl Hc] Ho. split; [done|]. intros i Hi. apply Hc. by right. Qed.

(** At the member [mb], whose successor is at [off]. *)
Definition at_member (mb : member_header) (msgs : list archive_message) (o : ofile) : Prop :=
  shows mb (of_member o) /\ of_messages o = msgs /\
  done_to (mb_offset mb + rnd (mb_size mb) 2) (file_memory o).

Lemma done_to_member off mb m1 m2 :
  0 <= off -> 8 <= mb_offset mb -> 0 <= mb_size mb < 2 ^ 32 -> off <= mb_offset mb ->
  done_to off m1 ->
  changes (Z.to_nat (ar_addr a + mb_offset mb)) (Z.to_nat (ar_addr a + mb_offset mb + mb_size mb)) m1 m2 ->
  done_to (mb_offset mb + rnd (mb_size mb) 2) m2.
Proof.
  intros Ho H1 H2 H3 Hd Hc. pose proof (rnd_2 (mb_size mb) ltac:(lia)) as Hr.
  eapply changes_trans; (eapply changes_weaken; [done|lia|lia]).
Qed.

Lemma processor_at mb msgs o :
  8 <= mb_offset mb -> 0 <= mb_size mb < 2 ^ 32 ->
  at_member mb msgs o -> at_member mb msgs (processor o).
Proof.
  intros H1 H2 (Hs & Hm & Hd). destruct (Hproc o) as (E1 & E2 & Hc). unfold at_member.
  rewrite E1, E2. split_and!; [done|done|]. destruct Hs as (S1 & S2 & _). rewrite S1, S2 in Hc.
  pose proof (rnd_2 (mb_size mb) ltac:(lia)) as Hr.
  eapply changes_trans; [exact Hd|]. eapply changes_weaken; [exact Hc|lia|lia].
Qed.

Lemma next_member_end mb msgs o :
  at_member mb msgs o -> 8 <= mb_offset mb -> 0 <= mb_size mb < 2 ^ 32 ->
  mb_offset mb + rnd (mb_size mb) 2 = ar_bytes a ->
  exists o', ofile_next_member swap_bitfields h a file_size o = Ret (false, o') /\ of_messages o' = msgs.
Proof.
  intros (Hs & Hm & Hd) H1 H2 He. unfold ofile_next_member. rewrite (has_magic_done _ o Hd).
  cbn [mbind outcome_bind negb]. destruct Hs as (S1 & S2 & S3). rewrite S3, S1, S2, He, Z.eqb_refl.
  eexists. split; [done|]. unfold cleanup_next. by destruct (member_type (of_member o)).
Qed.

Lemma next_member_step mb mb' l msgs o :
  at_member mb msgs o -> 8 <= mb_offset mb -> 0 <= mb_size mb < 2 ^ 32 ->
  chain h m0 file_size erange a (mb_offset mb + rnd (mb_size mb) 2) (mb' :: l) -> plain m0 mb' ->
  match ofile_next_member swap_bitfields h a file_size o with
  | Ret (true, o') => at_member mb' msgs o'
  | Stop (Object_bad _) => True
  | _ => False
  end.
Proof.
  intros (Hs & Hm & Hd) H1 H2 Hch Hplain. set (off := mb_offset mb + rnd (mb_size mb) 2) in *.
  inversion Hch as [|? ? ? Hlt Hmb Hend Hnf _]; subst.
  pose proof (rnd_2 (mb_size mb) ltac:(lia)) as Hr.
  pose proof (done_to_same _ _ Hd ltac:(lia)) as Hsame.
  assert (Hoff : 0 <= off < ar_bytes a) by lia.
  pose proof (header_numbers a file_size m0 Hsmall erange off mb' Hoff Hmb Hend) as Hnum. cbv zeta in Hnum.
  unfold ofile_next_member. rewrite (has_magic_done _ o Hd).
  cbn [mbind outcome_bind negb]. destruct Hs as (S1 & S2 & S3). rewrite S3. cbv zeta.
  rewrite S1, S2. fold off. rewrite (proj2 (Z.eqb_neq _ _)), (proj2 (Z.ltb_ge _ _)) by lia.
  rewrite (proj2 (Z.ltb_ge _ _)) by lia.
  rewrite (read_header a file_size m0 Ha erange off mb' Hoff Hmb o Hsame). cbn [mbind outcome_bind].
  rewrite (no_cut a file_size m0 Hsmall erange off mb' Hoff Hmb Hend).
  set (o1 := note_strtab _ _ o).
  assert (Ho1 : file_memory o1 = file_memory o /\ of_messages o1 = of_messages o).
  { unfold o1, note_strtab. destruct (sysv_ar_strtab o); [|done..]. by destruct (_ && _). }
  destruct Ho1 as [Hmem1 Hmsg1].
  match goal with |- context [efmt1_member _ ?mbr o1] =>
    pose proof (next_name_spec swap_bitfields Hbits h a file_size m0 Ha Hb Hf Hsmall erange off mb'
      Hoff Hmb Hend Hnf o Hsame o1 mbr Hmem1 (conj eq_refl (conj eq_refl eq_refl)) Hplain) as H end.
  cbv zeta in H. match type of H with match ?x with _ => _ end =>
    match goal with |- match ?y with _ => _ end => change y with x; destruct x as [[[] o2]|[]] end end;
    try done.
  destruct H as (Hsh & Hmsg & Hc). rewrite Hmsg1 in Hmsg. split_and!; [done|done|].
  by eapply (done_to_member off); [lia..| |].
Qed.
Lemma first_member_step mb l o :
  file_memory o = m0 -> chain h m0 file_size erange a SARMAG (mb :: l) -> plain m0 mb ->
  68 <= ar_bytes a ->
  (4 < mb_size mb -> table_ok h a file_size m0 (name_at a SARMAG mb) (name_bytes mb)
    (ar_addr a + mb_offset mb) (mb_size mb)) ->
  match ofile_first_member swap_bitfields h a file_size o with
  | Ret (true, o') => at_member mb (of_messages o) o'
  | Stop (Object_bad _) => True
  | _ => False
  end.
Proof.
  intros Hm Hch Hplain H68 Hok. inversion Hch as [|? ? ? Hlt Hmb Hend Hnf _]; subst.
  assert (Hoff : 0 <= SARMAG < ar_bytes a) by (unfold SARMAG; lia).
  assert (Hd : done_to SARMAG (file_memory o)) by (rewrite Hm; apply changes_refl).
  pose proof (header_numbers a file_size m0 Hsmall erange SARMAG mb Hoff Hmb Hend) as Hnum. cbv zeta in Hnum.
  unfold ofile_first_member. change (file_memory (clear_member o)) with (file_memory o).
  rewrite (has_magic_done _ (clear_member o) Hd). cbn [mbind outcome_bind negb].
  unfold SARMAG, sizeof_ar_hdr. rewrite (proj2 (Z.eqb_neq _ _)), (proj2 (Z.ltb_ge _ _)) by lia. cbn [negb andb].
  cbv zeta. rewrite (proj2 (Z.ltb_ge _ _)) by lia.
  assert (Hsame : same_from (Z.to_nat (ar_addr a + SARMAG)) m0 (file_memory (clear_member o)))
    by by apply done_to_same.
  pose proof (read_header a file_size m0 Ha erange SARMAG mb Hoff Hmb _ Hsame) as Hrd.
  change (file_memory (clear_member o)) with (file_memory o) in Hrd.
  unfold SARMAG in Hrd. rewrite Hrd. cbn [mbind outcome_bind].
  rewrite (no_cut a file_size m0 Hsmall erange SARMAG mb Hoff Hmb Hend).
  rewrite <- Hm in Hok. change (file_memory o) with (file_memory (clear_member o)) in Hok.
  match goal with |- context [efmt1_member _ ?mbr ?o1] =>
    pose proof (first_name_spec swap_bitfields Hbits h a file_size m0 Ha Hb Hf Hsmall Hpad erange SARMAG mb
      Hoff Hmb Hend Hnf _ Hsame o1 mbr eq_refl (conj eq_refl (conj eq_refl eq_refl)) Hplain eq_refl Hok) as H end.
  cbv zeta in H. match type of H with match ?x with _ => _ end =>
    match goal with |- match ?y with _ => _ end => change y with x; destruct x as [[[] o2]|[]] end end;
    try done.
  destruct H as (Hsh & Hmsg & Hc). split_and!; [done|done|].
  unfold SARMAG in *. apply (done_to_member SARMAG _ (file_memory o)); [unfold SARMAG; lia..|exact Hd|exact Hc].
Qed.

(** The members that are left. *)
Lemma next_members_spec l : forall mb msgs o fuel,
  at_member mb msgs o -> 8 <= mb_offset mb -> 0 <= mb_size mb < 2 ^ 32 ->
  chain h m0 file_size erange a (mb_offset mb + rnd (mb_size mb) 2) l -> Forall (plain m0) l ->
  (length l < fuel)%nat ->
  match next_members swap_bitfields h a file_size processor fuel o with
  | Ret (seen, o') => Forall2 shows (mb :: l) seen /\ of_messages o' = msgs
  | Stop (Object_bad _) => True
  | _ => False
  end.
Proof.
  induction l as [|mb' l IH]; intros mb msgs o fuel Hat H1 H2 Hch Hplain Hfuel;
    (destruct fuel as [|fuel]; [cbn in Hfuel; lia|]); cbn [next_members];
    pose proof (processor_at mb msgs o H1 H2 Hat) as Hat'; pose proof Hat as (Hsh & _).
  - inversion Hch as [He|]; subst.
    destruct (next_member_end mb msgs _ Hat' H1 H2 ltac:(done)) as (o' & -> & Hm).
    cbn [mbind outcome_bind]. split; [|done]. constructor; [exact Hsh|constructor].
  - apply Forall_cons in Hplain as [Hp Hplain].
    pose proof (next_member_step mb mb' l msgs _ Hat' H1 H2 Hch Hp) as H.
    destruct (ofile_next_member _ _ _ _ _) as [[[] o']|[]]; try done. cbn [mbind outcome_bind].
    inversion Hch as [|? ? ? Hlt Hmb Hend _ Hl]; subst.
    pose proof (rnd_2 (mb_size mb) ltac:(lia)) as Hr.
    pose proof (header_numbers a file_size m0 Hsmall erange _ mb' ltac:(split; [|exact Hlt]; lia) Hmb Hend)
      as Hnum. cbv zeta in Hnum.
    specialize (IH mb' msgs o' fuel H ltac:(lia) ltac:(lia) Hl Hplain ltac:(cbn in Hfuel; lia)).
    destruct (next_members _ _ _ _ _ _ _) as [[seen o2]|[]]; try done. cbn [mbind outcome_bind].
    destruct IH as [Hseen Hmsg]. split; [by constructor|done].
Qed.
End walk.

(** Each header takes 60 bytes. *)
Lemma chain_length h m file_size erange a off l :
  chain h m file_size erange a off l -> 0 <= off -> 60 * Z.of_nat (length l) + off <= ar_bytes a.
Proof.
  intros Hch. induction Hch as [|off mb l Hlt Hmb _ _ _ IH]; [cbn; lia|]. intros Ho. cbn [length].
  destruct (check_member_header_fields _ _ _ _ _ _ Hmb) as (He & Hn & Hs & _).
  unfold in_uw, sizeof_ar_hdr in *. pose proof (rnd_2 (mb_size mb) ltac:(lia)). lia.
Qed.

(** The table of contents of the first member, if that is one. *)
Definition first_table_ok (h : host) (a : archive) (file_size : Z) (m : mem) (l : list member_header)
    : Prop :=
  match l with
  | mb :: _ => 4 < mb_size mb -> table_ok h a file_size m (name_at a SARMAG mb) (name_bytes mb)
                                   (ar_addr a + mb_offset mb) (mb_size mb)
  | [] => True
  end.

(** C17: When check_archive has accepted a thin archive that is in the file, smaller than 2^32
    bytes, with a 0 byte behind the header that could begin at its end, then its members are a
    chain of headers; and when no member has a name in a System V table of strings, names
    behind headers are numbers that end in the header ([plain]), the table of contents of the
    first member, if it is one, has a known byte sex and fits into its member with its strings
    ([first_table_ok]), and the processor changes no bytes but those of its member, the loop over
    the members sees the members of that chain, all of them, each once and in their order; it
    ends and says nothing, unless check_Mach_O refuses an object file.  Object files and the table
    of contents are swapped in place meanwhile, and do not disturb it. *)
Theorem archive_walk swap_bitfields h a file_size m0 erange processor c o :
  (forall st h bs, length (swap_bitfields st h bs) = length bs) ->
  0 <= ar_addr a -> ar_addr a + ar_bytes a <= file_size ->
  file_size <= Z.of_nat (length m0) -> 0 <= ar_bytes a < 2 ^ 32 ->
  m0 !! Z.to_nat (ar_addr a + ar_bytes a + sizeof_ar_hdr) = Some x00 ->
  (forall o, of_member (processor o) = of_member o /\ of_messages (processor o) = of_messages o /\
     changes (Z.to_nat (ar_addr a + member_offset (of_member o)))
       (Z.to_nat (ar_addr a + member_offset (of_member o) + member_size (of_member o)))
       (file_memory o) (file_memory (processor o))) ->
  check_archive h m0 file_size erange a false = Ret c -> file_memory o = m0 ->
  (exists l, chain h m0 file_size erange a SARMAG l) /\
  forall l, chain h m0 file_size erange a SARMAG l ->
    (Forall (plain m0) l -> first_table_ok h a file_size m0 l ->
     match process_members swap_bitfields h a file_size processor (Z.to_nat (ar_bytes a)) o with
     | Ret (seen, o') => Forall2 shows l seen /\ of_messages o' = of_messages o
     | Stop (Object_bad _) => True
     | _ => False
     end).
Proof.
  intros Hbits Ha Hb Hf Hsmall Hpad Hproc Hc Hm.
  apply check_archive_chain in Hc as (H8 & Hmagic & H68 & l0 & Hl0); [|lia..].
  split; [by exists l0|]. intros l Hl Hplain Hok. unfold process_members.
  pose proof (chain_length _ _ _ _ _ _ _ Hl ltac:(done)) as Hlen. unfold SARMAG in Hlen.
  destruct l as [|mb l].
  - inversion Hl as [He|]; subst. unfold ofile_first_member.
    rewrite (has_magic_done a _ Ha Hmagic H8 SARMAG (clear_member o)) by apply changes_refl.
    cbn [mbind outcome_bind negb]. rewrite He. cbn. by split.
  - apply Forall_cons in Hplain as [Hp Hplain].
    pose proof (first_member_step swap_bitfields Hbits h a file_size m0 erange Ha Hb Hf ltac:(lia) Hpad
      Hmagic H8 mb l o Hm Hl Hp) as H.
    inversion Hl as [|? ? ? Hlt Hmb Hend _ Hl']; subst.
    destruct H68 as [H68|H68]; [unfold SARMAG in Hlt; lia|]. specialize (H H68 Hok).
    destruct (ofile_first_member _ _ _ _ _) as [[[] o1]|[]]; try done. cbn [mbind outcome_bind].
    pose proof (header_numbers a file_size _ ltac:(lia) erange SARMAG mb
      ltac:(unfold SARMAG; lia) Hmb Hend) as Hnum. cbv zeta in Hnum. unfold SARMAG in Hnum.
    pose proof (next_members_spec swap_bitfields Hbits h a file_size _ erange Ha Hb Hf ltac:(lia)
      Hmagic H8 processor Hproc l mb _ o1 (Z.to_nat (ar_bytes a)) H
      ltac:(lia) ltac:(lia) Hl' Hplain ltac:(cbn in Hlen; lia)) as Hw.
    by destruct (next_members _ _ _ _ _ _ _) as [[seen o2]|[]].
Qed.

Lemma archive_walk_witness :
  let m := mapped example_archive in
  let a := thin_archive example_archive in
  exists seen o,
    process_members no_bitfields BE a 236 id 236 (fresh m) = Ret (seen, o) /\
    Forall2 shows (headers example_archive) seen /\ of_messages o = [] /\
    member_offset <$> seen = [68; 142; 204].
Proof.
  intros m a.
  destruct (archive_walk no_bitfields BE a 236 m false id
    {| ac_cputype := 16777223; ac_cpusubtype := 3; ac_mismatches := [] |} (fresh m)) as [_ Hw];
    [done|done|by vm_compute|by vm_compute|by vm_compute|by vm_compute| |by vm_compute|done|].
  { intros o. split_and!; [done|done|apply changes_refl]. }
  specialize (Hw (headers example_archive)).
  assert (Hl : chain BE m 236 false a SARMAG (headers example_archive)).
  { set (l := headers example_archive). vm_compute in l. subst l.
    repeat (apply chain_member; [by vm_compute|by vm_compute|by vm_compute|intros _; by vm_compute|]).
    change (chain BE m 236 false a (ar_bytes a) []). constructor. }
  specialize (Hw Hl).
  assert (Hp : Forall (plain m) (headers example_archive)).
  { set (l := headers example_archive). vm_compute in l. subst l.
    repeat (constructor; [split; by vm_compute|]). constructor. }
  assert (Ht : first_table_ok BE a 236 m (headers example_archive)).
  { intros _ _ Hsym. vm_compute in Hsym. discriminate. }
  specialize (Hw Hp Ht).
  assert (Hm : members_of BE example_archive = Ret ([(68, 5); (142, 1); (204, 32)], []))
    by by vm_compute.
  unfold members_of in Hm. change (length example_archive) with 236%nat in Hm.
  fold a m in Hm. change (Z.of_nat 236) with 236 in Hm.
  change (Z.to_nat (ar_bytes a)) with 236%nat in Hw.
  destruct (process_members _ _ _ _ _ _ _) as [[seen o]|f]; [|done]. destruct Hw as [Hseen Hmsg].
  exists seen, o. split_and!; [done|done|done|].
  injection Hm as Hm _. apply (f_equal (fmap fst)) in Hm. rewrite <- list_fmap_compose in Hm.
  exact Hm.
Defined.
