(* ===== verification/Atof.v ===== *)
(** * as/atof-generic.c and as/atof-ieee.c: decimal numbers

    [atof_generic] turns the text of a decimal number into a flonum, and
    [gen_to_words] a flonum into the 16-bit words of an IEEE format, the most
    significant one first; [atof_ieee] does both.  NeXT_MOD is defined, as in
    the makefiles.  Text is a string that ends with 0 where it ends; a pointer
    into it is what is left of it. *)

From Stdlib Require Import ZArith Lia Bool Ascii.
From stdpp Require Import base option numbers strings list.
From S2P Require Import Prelude CInt Strtoul Flonum.

(** The search for a bit in zeros only, shifts by a negative number, stores
    behind the words, digits behind the end of the text, [abort], and what is
    undefined in flonum_multip. *)
Inductive atof_failure := Endless_search | Bad_shift | Past_words | Past_text | Aborted | Bad_product.

(** ** The bits of a flonum *)

Definition MAX_PRECISION : Z := 6.
Definition F_PRECISION : Z := 2.
Definition D_PRECISION : Z := 4.
Definition X_PRECISION : Z := 6.
Definition P_PRECISION : Z := 6.
Definition GUARD : Z := 2.

(** [mask[n]] *)
Definition mask (n : Z) : Z := Z.ones n.

(** The static variables; [littlenum_pointer] is an index. *)
Record bit_source := {
  bits_left_in_littlenum : Z;
  littlenums_left : Z;
  littlenum_pointer : Z;
}.

Section bits.
Context (f : flonum).

Definition next_bits (number_of_bits : Z) (s : bit_source) : Z * bit_source :=
  let left := bits_left_in_littlenum s in
  if littlenums_left s =? 0 then (0, s)
  else if left <=? number_of_bits then
    let value := Z.land (mask left) (littlenum f (littlenum_pointer s)) in
    let number_of_bits := number_of_bits - left in
    let value := Z.shiftl value number_of_bits in
    let littlenums_left' := littlenums_left s - 1 in
    if littlenums_left' =? 0 then
      (value, {| bits_left_in_littlenum := left; littlenums_left := 0;
                 littlenum_pointer := littlenum_pointer s |})
    else
      let left := LITTLENUM_NUMBER_OF_BITS - number_of_bits in
      let p := littlenum_pointer s - 1 in
      (Z.lor value (Z.land (Z.shiftr (littlenum f p) left) (mask number_of_bits)),
       {| bits_left_in_littlenum := left; littlenums_left := littlenums_left';
          littlenum_pointer := p |})
  else
    let left := left - number_of_bits in
    (Z.land (mask number_of_bits) (Z.shiftr (littlenum f (littlenum_pointer s)) left),
     {| bits_left_in_littlenum := left; littlenums_left := littlenums_left s;
        littlenum_pointer := littlenum_pointer s |}).

Definition unget_bits (num : Z) (s : bit_source) : bit_source :=
  if littlenums_left s =? 0 then
    {| bits_left_in_littlenum := num; littlenums_left := littlenums_left s + 1;
       littlenum_pointer := littlenum_pointer s + 1 |}
  else if LITTLENUM_NUMBER_OF_BITS <? bits_left_in_littlenum s + num then
    {| bits_left_in_littlenum := num - (LITTLENUM_NUMBER_OF_BITS - bits_left_in_littlenum s);
       littlenums_left := littlenums_left s + 1; littlenum_pointer := littlenum_pointer s + 1 |}
  else
    {| bits_left_in_littlenum := bits_left_in_littlenum s + num;
       littlenums_left := littlenums_left s; littlenum_pointer := littlenum_pointer s |}.

(** The first bit that is set is forgotten, too. *)
Fixpoint seek (fuel : nat) (exponent_skippage : Z) (s : bit_source)
    : outcome atof_failure (Z * bit_source) :=
  match fuel with
  | O => Stop Endless_search
  | S fuel =>
      let (b, s) := next_bits 1 s in
      if b =? 0 then seek fuel (exponent_skippage + 1) s else Ret (exponent_skippage, s)
  end.

(** ** Words *)

(** [*lp++ = v], with the words in front of [lp] counted. *)
Definition put (v : Z) (wl : list Z * nat) : outcome atof_failure (list Z * nat) :=
  let (words, lp) := wl in
  if (lp <? length words)%nat then Ret (<[lp := u16 v]> words, S lp) else Stop Past_words.

Fixpoint put_all (vs : list Z) (wl : list Z * nat) : outcome atof_failure (list Z * nat) :=
  match vs with
  | [] => Ret wl
  | v :: vs => wl ← put v wl; put_all vs wl
  end.

(** The words from the first one on. *)
Definition set_words (vs words : list Z) : outcome atof_failure (list Z) :=
  '(words, _) ← put_all vs (words, 0%nat); Ret words.

(** [while(lp < words + precision) *lp++ = next_bits(LITTLENUM_NUMBER_OF_BITS)] *)
Fixpoint fill (n : nat) (wl : list Z * nat) (s : bit_source)
    : outcome atof_failure (list Z * nat * bit_source) :=
  match n with
  | O => Ret (wl, s)
  | S n => let (v, s) := next_bits LITTLENUM_NUMBER_OF_BITS s in wl ← put v wl; fill n wl s
  end.

(** [carry] is added at [lp] and to the words in front of it; [n] is [lp + 1]. *)
Fixpoint propagate (n : nat) (carry : Z) (words : list Z) : list Z :=
  match n with
  | O => words
  | S lp =>
      if carry =? 0 then words
      else
        let carry := nth lp words 0 + carry in
        propagate lp (Z.shiftr carry LITTLENUM_NUMBER_OF_BITS) (<[lp := u16 carry]> words)
  end.

Definition infinity (precision : Z) : list Z :=
  if precision =? F_PRECISION then [32640; 0] else [32752; 0; 0; 0].

(** [words[0] |= 0x8000] *)
Definition set_sign (words : list Z) : list Z := <[0%nat := Z.lor (nth 0 words 0) 32768]> words.

Definition exponent_overflow (precision : Z) (words : list Z) : outcome atof_failure (list Z) :=
  words ← set_words (infinity precision) words;
  Ret (if Ascii.eqb (sign f) minus then set_sign words else words).

(** ** gen_to_words *)

Definition is_x (precision exponent_bits : Z) : bool :=
  (precision =? X_PRECISION) && (exponent_bits =? 15).

(** [while(num_bits >= LITTLENUM_NUMBER_OF_BITS)], in which [*lp++ = 0] *)
Fixpoint zero_words (fuel : nat) (num_bits : Z) (wl : list Z * nat)
    : outcome atof_failure (Z * (list Z * nat)) :=
  match fuel with
  | O => Ret (num_bits, wl)
  | S fuel =>
      if LITTLENUM_NUMBER_OF_BITS <=? num_bits then
        wl ← put 0 wl; zero_words fuel (num_bits - LITTLENUM_NUMBER_OF_BITS) wl
      else Ret (num_bits, wl)
  end.

(** The words of a denormal number up to the loop that fills the rest;
    [None] for the return at "Exponent overflow". *)
Definition denormal_head (precision exponent_bits word1 num_bits : Z) (words : list Z) (s : bit_source)
    : outcome atof_failure (option (list Z * nat * bit_source)) :=
  let wl := (words, 0%nat) in
  if LITTLENUM_NUMBER_OF_BITS - exponent_bits <=? num_bits then
    let num_bits := num_bits - (LITTLENUM_NUMBER_OF_BITS - 1 - exponent_bits) in
    wl ← put word1 wl;
    if precision * LITTLENUM_NUMBER_OF_BITS <=? num_bits + exponent_bits + 1 then Ret None
    else
      wl ← (if is_x precision exponent_bits then put_all [0; 0] wl else Ret wl);
      let num_bits := if is_x precision exponent_bits
                      then num_bits - (LITTLENUM_NUMBER_OF_BITS - 1) else num_bits in
      '(num_bits, wl) ← zero_words 4 num_bits wl;
      if num_bits =? 0 then Ret (Some (wl, s))
      else
        let (v, s) := next_bits (LITTLENUM_NUMBER_OF_BITS - num_bits) s in
        wl ← put v wl; Ret (Some (wl, s))
  else if is_x precision exponent_bits then
    wl ← put_all [word1; 0] wl;
    if num_bits =? LITTLENUM_NUMBER_OF_BITS then
      let (v, s) := next_bits (LITTLENUM_NUMBER_OF_BITS - 1) s in
      wl ← put_all [0; v] wl; Ret (Some (wl, s))
    else if num_bits =? LITTLENUM_NUMBER_OF_BITS - 1 then wl ← put 0 wl; Ret (Some (wl, s))
    else
      let (v, s) := next_bits (LITTLENUM_NUMBER_OF_BITS - 1 - num_bits) s in
      wl ← put v wl; Ret (Some (wl, s))
  else
    let (v, s) := next_bits (LITTLENUM_NUMBER_OF_BITS - 1 - (exponent_bits + num_bits)) s in
    wl ← put (Z.lor word1 v) wl; Ret (Some (wl, s)).

(** Rounding up, at the word in front of [lp]; what the loop over [lp[n]]
    finds is not used under NeXT_MOD. *)
Definition round_denormal (prec_bits : Z) (lp : nat) (words : list Z) : list Z :=
  if LITTLENUM_NUMBER_OF_BITS <? prec_bits then propagate lp 1 words
  else <[(lp - 1)%nat := u16 (nth (lp - 1) words 0 + 1)]> words.

Definition denormal_words (precision exponent_bits exponent_4 word1 : Z) (words : list Z) (s : bit_source)
    : outcome atof_failure (list Z) :=
  let s := unget_bits 1 s in
  let num_bits := - exponent_4 in
  let prec_bits := LITTLENUM_NUMBER_OF_BITS * precision - (exponent_bits + 1 + num_bits) in
  let prec_bits := if is_x precision exponent_bits
                   then prec_bits - (LITTLENUM_NUMBER_OF_BITS + 1) else prec_bits in
  r ← denormal_head precision exponent_bits word1 num_bits words s;
  match r with
  | None => exponent_overflow precision (<[0%nat := u16 word1]> words)
  | Some (words, lp, s) =>
      '(words, lp, s) ← fill (Z.to_nat precision - lp) (words, lp) s;
      let (b, _) := next_bits 1 s in
      Ret (if b =? 0 then words else round_denormal prec_bits lp words)
  end.

(** Words of a number that is not denormal. *)
Definition normal_words (precision exponent_bits exponent_4 word1 : Z) (words : list Z) (s : bit_source)
    : outcome atof_failure (list Z) :=
  let fraction := LITTLENUM_NUMBER_OF_BITS - 1 - exponent_bits in
  if fraction <? 0 then Stop Bad_shift
  else
    let (v, s) := next_bits fraction s in
    let word1 := u16 (Z.lor word1 (Z.lor (Z.shiftl exponent_4 fraction) v)) in
    wl ← put word1 (words, 0%nat);
    '(wl, s) ←
      (if is_x precision exponent_bits then
         let (v, s) := next_bits (LITTLENUM_NUMBER_OF_BITS - 1) s in
         wl ← put_all [0; Z.lor 32768 v] wl; Ret (wl, s)
       else Ret (wl, s));
    '(words, lp, s) ← fill (Z.to_nat precision - snd wl) wl s;
    let (b, _) := next_bits 1 s in
    if b =? 0 then Ret words
    else
      let words := propagate lp 1 words in
      if negb (Z.land (Z.lxor word1 (nth 0 words 0)) 32768 =? 0)
      then Ret (<[0%nat := Z.land (nth 0 words 0) 32767]> words)
      else Ret words.

Definition gen_to_words (precision exponent_bits : Z) (words : list Z) : outcome atof_failure (list Z) :=
  if leader f <? 0 then
    set_words ((if Ascii.eqb (sign f) plus then 0 else 32768) ::
               replicate (Z.to_nat (precision - 1)) 0) words
  else if Ascii.eqb (sign f) Ascii.zero then
    set_words (if precision =? F_PRECISION then [32767; 65535] else [32767; 65535; 65535; 65535]) words
  else if Ascii.eqb (sign f) "P" then set_words (infinity precision) words
  else if Ascii.eqb (sign f) "N" then
    set_words (if precision =? F_PRECISION then [65408; 0] else [65520; 0; 0; 0]) words
  else
    '(exponent_skippage, s) ←
      seek (S (Z.to_nat (16 * (leader f + 1)))) 0
        {| bits_left_in_littlenum := LITTLENUM_NUMBER_OF_BITS; littlenums_left := 1 + leader f;
           littlenum_pointer := leader f |};
    let exponent_1 := i32 (exponent f + leader f + 1) in
    let exponent_2 := i32 (exponent_1 * LITTLENUM_NUMBER_OF_BITS) in
    let exponent_3 := i32 (exponent_2 - exponent_skippage) in
    if exponent_bits - 1 <? 0 then Stop Bad_shift
    else
      let exponent_4 := i32 (exponent_3 + (Z.shiftl 1 (exponent_bits - 1) - 2)) in
      let word1 := if Ascii.eqb (sign f) plus then 0 else 32768 in
      if (exponent_4 <? 1) && (-62 <=? exponent_4)
      then denormal_words precision exponent_bits exponent_4 word1 words s
      else if negb (Z.land exponent_4 (Z.lnot (mask exponent_bits)) =? 0)
      then exponent_overflow precision words
      else normal_words precision exponent_bits exponent_4 word1 words s.
End bits.

(** ** atof_generic: the text *)

Definition char_at (s : string) (i : nat) : ascii := default Ascii.zero (String.get i s).

Definition tail (s : string) : string :=
  match s with String _ s => s | EmptyString => EmptyString end.

(** A letter in either case. *)
Definition letter (c l u : ascii) : bool := Ascii.eqb c l || Ascii.eqb c u.

Section marks.
(** The characters of [string_of_decimal_marks] and
    [string_of_decimal_exponent_marks]. *)
Context (decimal_marks exponent_marks : list ascii).

Definition is_mark (marks : list ascii) (c : ascii) : bool := existsb (Ascii.eqb c) marks.

(** The loop over the digits before the decimal mark: [p], [first_digit],
    their number, and whether one is significant. *)
Fixpoint digits_before (p first_digit : string) (n : Z) (seen : bool)
    : string * string * Z * bool :=
  match p with
  | String c p' =>
      if is_mark decimal_marks c || is_mark exponent_marks c then (p, first_digit, n, seen)
      else match digit c with
      | Some d =>
          if seen || (0 <? d) then digits_before p' first_digit (n + 1) true
          else digits_before p' (tail first_digit) n seen
      | None => (p, first_digit, n, seen)
      end
  | EmptyString => (p, first_digit, n, seen)
  end.

(** And behind it. *)
Fixpoint digits_after (p : string) (n : Z) (seen : bool) : string * Z :=
  match p with
  | String c p' =>
      if is_mark exponent_marks c then (p, n)
      else match digit c with
      | Some d => digits_after p' (n + 1) (seen || (0 <? d))
      | None => (p, if seen then n else 0)
      end
  | EmptyString => (p, n)
  end.

(** [while(number_of_digits_after_decimal && ...)] *)
Fixpoint drop_zeros (first_digit : string) (before : Z) (after : nat) : nat :=
  match after with
  | O => O
  | S after' =>
      if Ascii.eqb (char_at first_digit (Z.to_nat before + after)) "0"
      then drop_zeros first_digit before after' else after
  end.

Fixpoint exponent_digits (p : string) (e : Z) : string * Z :=
  match p with
  | String c p' =>
      match digit c with
      | Some d => exponent_digits p' (i32 (e * 10 + d))
      | None => (p, e)
      end
  | EmptyString => (p, e)
  end.

Definition decimal_exponent (p : string) : string * Z :=
  match p with
  | String c p' =>
      if is_mark exponent_marks c then
        let c := char_at p' 0 in
        let signed := Ascii.eqb c plus || Ascii.eqb c minus in
        let '(p, e) := exponent_digits (if signed then tail p' else p') 0 in
        (p, if Ascii.eqb c minus then i32 (- e) else e)
      else (p, 0)
  | EmptyString => (p, 0)
  end.

(** The numbers of digits before and behind the mark, the first digit, the
    exponent and what is left of the text. *)
Record scanned := {
  sc_first_digit : string;
  sc_before : Z;
  sc_after : Z;
  sc_exponent : Z;
  sc_rest : string;
}.

Definition scan (s : string) : scanned :=
  let '(p, first_digit, before, seen) := digits_before s s 0 false in
  let '(p, after) :=
    if is_mark decimal_marks (char_at p 0) then digits_after (tail p) 0 seen else (p, 0) in
  let after := drop_zeros first_digit before (Z.to_nat after) in
  let '(p, e) := decimal_exponent p in
  {| sc_first_digit := first_digit; sc_before := before; sc_after := Z.of_nat after;
     sc_exponent := e; sc_rest := p |}.

(** "nan" and "inf", in any case, without the sign: the rest of the text. *)
Definition nan (s : string) : option string :=
  if letter (char_at s 0) "n" "N" && letter (char_at s 1) "a" "A" && letter (char_at s 2) "n" "N"
  then Some (tail (tail (tail s))) else None.

Definition inf (s : string) : option string :=
  if letter (char_at s 0) "i" "I" && letter (char_at s 1) "n" "N" && letter (char_at s 2) "f" "F" then
    let s3 := tail (tail (tail s)) in
    Some (if letter (char_at s 3) "i" "I" && letter (char_at s 4) "n" "N" &&
             letter (char_at s 5) "i" "I" && letter (char_at s 6) "t" "T" && letter (char_at s 7) "y" "Y"
          then tail (tail (tail (tail (tail s3)))) else s3)
  else None.

(** ** atof_generic: the number *)

(** LOG_TO_BASE_2_OF_10, times 10^40.  The products with it are [double]s in
    the source, none of which is near an integer. *)
Definition LOG_TO_BASE_2_OF_10 : Z := 33219280948873623478703194294893901758651.

Definition maximum_useful_digits (precision : Z) : Z :=
  (precision - 2) * LITTLENUM_NUMBER_OF_BITS * 10 ^ 40 / LOG_TO_BASE_2_OF_10 + 2.

Definition more_than_enough_littlenums_for_digits (n : Z) : Z :=
  (n * LOG_TO_BASE_2_OF_10 / 10 ^ 40 + 1) / LITTLENUM_NUMBER_OF_BITS + 2.

(** Multiply by 10 and add [carry]. *)
Fixpoint times_ten (l : list Z) (carry : Z) : list Z * Z :=
  match l with
  | [] => ([], carry)
  | x :: l =>
      let work := i32 (carry + i32 (10 * x)) in
      let '(l, carry) := times_ten l (Z.shiftr work LITTLENUM_NUMBER_OF_BITS) in
      (Z.land work LITTLENUM_MASK :: l, carry)
  end.

(** [count] digits from [p] on; other characters are passed over. *)
Fixpoint read_digits (p : string) (count : nat) (l : list Z) : outcome atof_failure (list Z) :=
  match count with
  | O => Ret l
  | S count' =>
      match p with
      | String c p' =>
          match digit c with
          | Some d =>
              let '(l, carry) := times_ten l d in
              if carry =? 0 then read_digits p' count' l else Stop Aborted
          | None => read_digits p' count l
          end
      | EmptyString => Stop Past_text
      end
  end.

(** Without the high littlenums that are 0, but for the lowest. *)
Fixpoint significant_littlenums (l : list Z) (size : nat) : nat :=
  match size with
  | S (S n as size') => if nth size' l 0 =? 0 then significant_littlenums l size' else size
  | _ => size
  end.

Context (h : host).
(** What the array of [temporary_flonum] holds before it is assigned. *)
Context (garbage : list Z).

(** The loop over the bits of the exponent. *)
Fixpoint power_loop (table : list flonum) (fuel : nat) (e place_number : Z) (power temporary : flonum)
    : outcome atof_failure (bool * flonum) :=
  match fuel with
  | O => Stop Endless_search
  | S fuel =>
      if e =? 0 then Ret (true, power)
      else if Z.odd e then
        if table_size_of_flonum_powers_of_ten <? place_number then Ret (false, power)
        else
          temporary ← or_stop Bad_product
            (flonum_multip (nth (Z.to_nat place_number) table power) power temporary);
          power_loop table fuel (Z.shiftr e 1) (place_number + 1) (flonum_copy h temporary power) temporary
      else power_loop table fuel (Z.shiftr e 1) (place_number + 1) power temporary
  end.

Definition power_of_10 (precision e : Z) : outcome atof_failure (bool * flonum) :=
  let power := mk_flonum (1 :: replicate (Z.to_nat precision - 1) 0) 0 0 plus in
  let temporary := mk_flonum garbage 0 0 plus in
  power_loop (if e <? 0 then flonum_negative_powers_of_ten else flonum_positive_powers_of_ten)
    32 (Z.abs e) 1 power temporary.

(** [true] when 0 is returned. *)
Definition convert (digits_sign_char : ascii) (sc : scanned) (f : flonum)
    : outcome atof_failure (bool * flonum) :=
  let available := sc_before sc + sc_after sc in
  if available =? 0 then Ret (true, mk_flonum (low f) (-1) 0 digits_sign_char)
  else
    let precision := high f + 1 in
    let number_of_digits_to_use := Z.min available (maximum_useful_digits precision) in
    let e := i32 (sc_exponent sc + (sc_before sc - number_of_digits_to_use)) in
    let size := more_than_enough_littlenums_for_digits number_of_digits_to_use in
    l ← read_digits (sc_first_digit sc) (Z.to_nat number_of_digits_to_use)
          (replicate (Z.to_nat size) 0);
    let size := significant_littlenums l (length l) in
    let digits_flonum := mk_flonum (take size l) (Z.of_nat size - 1) 0 plus in
    '(ok, power) ← power_of_10 precision e;
    f ← or_stop Bad_product (flonum_multip power digits_flonum f);
    Ret (ok, mk_flonum (low f) (leader f) (exponent f) digits_sign_char).

(** The rest of the text, whether 0 is returned, and the flonum. *)
Definition atof_generic (s : string) (f : flonum) : outcome atof_failure (string * bool * flonum) :=
  let c := char_at s 0 in
  let signed := Ascii.eqb c minus || Ascii.eqb c plus in
  let digits_sign_char := if signed then c else plus in
  let s := if signed then tail s else s in
  match nan s with
  | Some rest => Ret (rest, true, mk_flonum (low f) 0 0 Ascii.zero)
  | None =>
      match inf s with
      | Some rest =>
          Ret (rest, true, mk_flonum (low f) 0 0 (if Ascii.eqb digits_sign_char plus then "P" else "N")%char)
      | None =>
          let sc := scan s in
          '(ok, f) ← convert digits_sign_char sc f;
          Ret (sc_rest sc, ok, f)
      end
  end.
End marks.

(** ** atof_ieee *)

Definition md_EXP_CHARS : list ascii := ["e"; "E"]%char.
Definition decimal_point : list ascii := ["."]%char.

(** The precision and the bits of the exponent. *)
Definition format (what_kind : ascii) : option (Z * Z) :=
  let one_of l := existsb (Ascii.eqb what_kind) l in
  if one_of ["f"; "F"; "s"; "S"]%char then Some (F_PRECISION, 8)
  else if one_of ["d"; "D"; "r"; "R"]%char then Some (D_PRECISION, 11)
  else if one_of ["x"; "X"; "e"; "E"]%char then Some (X_PRECISION, 15)
  else if one_of ["p"; "P"]%char then Some (P_PRECISION, -1)
  else None.

Definition invalid_floating_point_number : list Z := [32767; 65535; 65535; 65535; 65535; 65535].

(** [bits] is the static array from [MAX_PRECISION] on, as the last call left
    it.  The rest of the text, [None] for NULL, and the words. *)
Definition atof_ieee (h : host) (garbage bits : list Z) (str : string) (what_kind : ascii)
    (words : list Z) : outcome atof_failure (option string * list Z) :=
  match format what_kind with
  | None => words ← set_words invalid_floating_point_number words; Ret (None, words)
  | Some (precision, exponent_bits) =>
      let f := mk_flonum (take (Z.to_nat (precision + GUARD)) bits) (-1) 0 Ascii.zero in
      '(rest, ok, f) ← atof_generic decimal_point md_EXP_CHARS h garbage str f;
      if negb ok : bool then words ← exponent_overflow f precision words; Ret (Some rest, words)
      else words ← gen_to_words f precision exponent_bits words; Ret (Some rest, words)
  end.

(** [int_to_gen], from the text of the number on; [None] for the fatal error. *)
Definition int_to_gen (h : host) (garbage : list Z) (text : string) (f : flonum)
    : outcome atof_failure (option flonum) :=
  '(_, ok, f) ← atof_generic decimal_point md_EXP_CHARS h garbage text f;
  Ret (if ok : bool then Some f else None).
