(* ===== verification/AtofSpec.v ===== *)
(** * Flonums in the formats of IEEE 754

    [gen_to_words] rounds the mantissa of a flonum to the nearest number of the
    format, halves up, for normal and denormal numbers: the source of bits is
    read as a part of the mantissa, the words as one number, and the rounded
    number is compared with all others of the format. *)

From Stdlib Require Import ZArith Lia Bool Ascii.
From stdpp Require Import base option numbers strings list.
From S2P Require Import Prelude CInt Strtoul Flonum Littlenums FlonumSpec Atof.

Local Open Scope list_scope.
Local Open Scope Z_scope.

(** ** Bits *)

(** The [k] bits of [N] behind the first [q] of its [T] bits, and zeros where
    it ends. *)
Definition stream (N T q k : Z) : Z := Z.shiftl N (q + k - T) mod 2 ^ k.

Lemma stream_testbit N T q k i :
  0 <= k -> 0 <= i -> Z.testbit (stream N T q k) i = (i <? k) && Z.testbit N (i + T - q - k).
Proof.
  intros Hk Hi. unfold stream. destruct (Z.ltb_spec i k) as [H|H]; cbn [andb].
  - rewrite Z.mod_pow2_bits_low by lia. rewrite Z.shiftl_spec by lia. f_equal. lia.
  - by rewrite Z.mod_pow2_bits_high by lia.
Qed.

Lemma stream_range N T q k : 0 <= k -> 0 <= stream N T q k < 2 ^ k.
Proof. intros. apply Z.mod_pos_bound. by apply Z.pow_pos_nonneg. Qed.

Lemma lor_add a b k : 0 <= k -> 0 <= b < 2 ^ k -> Z.lor (a * 2 ^ k) b = a * 2 ^ k + b.
Proof.
  intros Hk Hb. rewrite <- Z.add_lor_land. rewrite <- Z.shiftl_mul_pow2 by done.
  enough (Z.land (Z.shiftl a k) b = 0) by lia. apply Z.bits_inj'. intros i Hi.
  rewrite Z.land_spec, Z.shiftl_spec, Z.bits_0 by done. destruct (Z.ltb_spec i k).
  - by rewrite Z.testbit_neg_r by lia.
  - rewrite <- (Z.mod_small b (2 ^ k)), Z.mod_pow2_bits_high by lia. apply andb_false_r.
Qed.

Lemma stream_app N T q a b :
  0 <= a -> 0 <= b -> stream N T q (a + b) = stream N T q a * 2 ^ b + stream N T (q + a) b.
Proof.
  intros Ha Hb. rewrite <- lor_add by (by try apply stream_range).
  rewrite <- Z.shiftl_mul_pow2 by done. apply Z.bits_inj'. intros i Hi.
  rewrite Z.lor_spec, Z.shiftl_spec, (stream_testbit N T q (a + b)), (stream_testbit N T (q + a) b) by lia.
  destruct (Z.ltb_spec i b); cbn [andb].
  - rewrite (Z.testbit_neg_r (stream _ _ _ _)) by lia.
    rewrite (proj2 (Z.ltb_lt _ _)) by lia. cbn [andb orb]. f_equal. lia.
  - rewrite orb_false_r, stream_testbit by lia.
    replace (i - b <? a) with (i <? a + b) by (apply eq_bool_prop_intro; rewrite !Is_true_true, !Z.ltb_lt; lia).
    f_equal. f_equal. lia.
Qed.

(** ** The source of bits *)

Section source.
Context (f : flonum) (Vf : valid f) (Nf : normal f).

Local Abbreviation N := (mantissa f).
Local Abbreviation T := (16 * (leader f + 1)).

Lemma littlenum_bits p : 0 <= p <= leader f -> littlenum f p = Z.shiftr N (16 * p) mod 2 ^ 16.
Proof.
  intros Hp. pose proof (significand_digit f (Z.to_nat p)) as Hd.
  rewrite Z2Nat.id, (proj2 (Z.leb_le _ _)) in Hd by lia. rewrite <- Hd. unfold mantissa.
  rewrite Z.shiftr_div_pow2 by lia. rewrite Z.pow_mul_r by lia. change (2 ^ 16) with 65536.
  pose proof (significand_digits f Vf) as Hds. pose proof (significand_length f Vf) as Hl.
  rewrite <- (Z2Nat.id p) at 2 by lia. rewrite <- digits_value_drop by done.
  destruct (drop (Z.to_nat p) (significand f)) as [|d l] eqn:Hdrop.
  { apply (f_equal length) in Hdrop. rewrite length_drop in Hdrop. cbn in Hdrop. lia. }
  assert (Hnth : digit (significand f) (Z.to_nat p) = d).
  { unfold digit. rewrite nth_lookup. replace (significand f !! Z.to_nat p) with (Some d); [done|].
    rewrite <- (Nat.add_0_r (Z.to_nat p)), <- lookup_drop, Hdrop. done. }
  assert (Hd' : digits (d :: l)) by (rewrite <- Hdrop; by apply digits_drop).
  apply Forall_cons in Hd' as [Hd' _]. unfold in_uw in Hd'. cbn [digits_value].
  rewrite (Z.mul_comm 65536), Z.mod_add, Z.mod_small by lia. done.
Qed.

Lemma littlenum_testbit p i :
  0 <= p <= leader f -> 0 <= i -> Z.testbit (littlenum f p) i = (i <? 16) && Z.testbit N (16 * p + i).
Proof.
  intros Hp Hi. rewrite littlenum_bits by done. destruct (Z.ltb_spec i 16); cbn [andb].
  - rewrite Z.mod_pow2_bits_low by lia. rewrite Z.shiftr_spec by lia. f_equal. lia.
  - by rewrite Z.mod_pow2_bits_high by lia.
Qed.

(** The next bit is the one behind [q] of them. *)
Definition at_bit (q : Z) (s : bit_source) : Prop :=
  (littlenums_left s = 0 /\ littlenum_pointer s = 0 /\ T <= q) \/
  (littlenums_left s = littlenum_pointer s + 1 /\ 0 <= littlenum_pointer s <= leader f /\
   1 <= bits_left_in_littlenum s <= 16 /\
   T - q = 16 * littlenum_pointer s + bits_left_in_littlenum s).

Lemma next_bits_spec q k s :
  0 <= q -> 0 <= k <= 16 -> at_bit q s ->
  exists s', next_bits f k s = (stream N T q k, s') /\ at_bit (q + k) s'.
Proof.
  intros Hq Hk Hs. unfold next_bits. cbv zeta. unfold LITTLENUM_NUMBER_OF_BITS, mask.
  destruct Hs as [(Hl & Hp & HT)|(Hl & Hp & Hb & HT)].
  - rewrite Hl. cbn [Z.eqb]. eexists. split; [f_equal|left; cbn [littlenums_left littlenum_pointer]; lia].
    unfold stream. replace (q + k - T) with ((q - T) + k) by lia.
    rewrite Z.shiftl_mul_pow2, Z.pow_add_r, Z.mul_assoc, Z.mod_mul by lia. done.
  - rewrite (proj2 (Z.eqb_neq _ _)) by lia. set (p := littlenum_pointer s) in *.
    set (b := bits_left_in_littlenum s) in *. destruct (Z.leb_spec b k) as [Hbk|Hbk].
    + rewrite Hl. replace (p + 1 - 1) with p by lia. destruct (Z.eqb_spec p 0) as [Hp0|Hp0].
      * eexists. split; [f_equal|left; cbn [littlenums_left littlenum_pointer]; lia].
        apply Z.bits_inj'. intros i Hi. rewrite stream_testbit, Z.shiftl_spec by lia.
        destruct (Z.ltb_spec i (k - b)).
        { rewrite Z.testbit_neg_r by lia. rewrite (Z.testbit_neg_r N) by lia. by rewrite andb_false_r. }
        rewrite Z.land_spec, Z.testbit_ones_nonneg by lia.
        rewrite littlenum_testbit by lia.
        destruct (Z.ltb_spec (i - (k - b)) b), (Z.ltb_spec i k); try lia; try done. cbn [andb].
        rewrite (proj2 (Z.ltb_lt _ _)) by lia. cbn [andb]. f_equal. lia.
      * eexists. split; [f_equal|right; cbn [littlenums_left littlenum_pointer bits_left_in_littlenum]; lia].
        apply Z.bits_inj'. intros i Hi. rewrite Z.lor_spec, stream_testbit, Z.shiftl_spec by lia.
        rewrite !Z.land_spec, Z.shiftr_spec, (Z.testbit_ones_nonneg (k - b) i) by lia.
        rewrite (littlenum_testbit (p - 1)) by lia. destruct (Z.ltb_spec i (k - b)).
        -- rewrite (Z.testbit_neg_r (Z.ones _)) by lia. rewrite (proj2 (Z.ltb_lt _ _)) by lia.
           rewrite (proj2 (Z.ltb_lt i k)) by lia. cbn [andb orb]. rewrite andb_true_r. f_equal. lia.
        -- rewrite andb_false_r, orb_false_r. rewrite Z.testbit_ones_nonneg, littlenum_testbit by lia.
           destruct (Z.ltb_spec (i - (k - b)) b), (Z.ltb_spec i k); try lia; try done. cbn [andb].
           rewrite (proj2 (Z.ltb_lt _ _)) by lia. cbn [andb]. f_equal. lia.
    + eexists. split; [f_equal|right; cbn [littlenums_left littlenum_pointer bits_left_in_littlenum]; lia].
      apply Z.bits_inj'. intros i Hi. rewrite stream_testbit, Z.land_spec, Z.shiftr_spec by lia.
      rewrite Z.testbit_ones_nonneg, littlenum_testbit by lia.
      destruct (Z.ltb_spec i k); [|done]. cbn [andb]. rewrite (proj2 (Z.ltb_lt _ _)) by lia.
      cbn [andb]. f_equal. lia.
Qed.

(** ** The first bit *)

Definition bit_length : Z := Z.log2 N + 1.
Local Abbreviation L := bit_length.

Lemma mantissa_range : 0 < N /\ 1 <= L <= T /\ T - 15 <= L.
Proof.
  destruct (normal_mantissa f Vf Nf) as [Hl Hm]. pose proof (digits_value_range _ (significand_digits f Vf)) as Hr.
  rewrite significand_length in Hr by done. fold (mantissa f) in Hr.
  assert (HR : forall n, 0 <= n -> 65536 ^ n = 2 ^ (16 * n)) by (intros; by rewrite Z.pow_mul_r by lia).
  rewrite HR in Hm, Hr by lia. pose proof (Z.pow_pos_nonneg 2 (16 * leader f) ltac:(lia) ltac:(lia)).
  unfold bit_length. assert (0 < N) by lia. split; [done|].
  pose proof (proj1 (Z.log2_le_pow2 N (16 * leader f) ltac:(lia)) Hm).
  pose proof (proj1 (Z.log2_lt_pow2 N (16 * (leader f + 1)) ltac:(lia)) (proj2 Hr)). lia.
Qed.

Lemma stream_bit q : 0 <= q -> stream N T q 1 = Z.b2z (Z.testbit N (T - 1 - q)).
Proof.
  intros Hq. apply Z.bits_inj'. intros i Hi. rewrite stream_testbit by lia.
  destruct (Z.ltb_spec i 1).
  - replace i with 0 by lia. rewrite Z.b2z_bit0. cbn [andb]. f_equal. lia.
  - cbn [andb]. symmetry. destruct (Z.testbit N (T - 1 - q)); [|by rewrite Z.bits_0].
    cbn [Z.b2z]. apply Z.bits_above_log2; [lia|]. change (Z.log2 1) with 0. lia.
Qed.

Lemma seek_spec n q s :
  at_bit q s -> 0 <= q <= T - L -> T - L - q < Z.of_nat n ->
  exists s', seek f n q s = Ret (T - L, s') /\ at_bit (T - L + 1) s'.
Proof.
  pose proof mantissa_range as (HN & HL & _). revert q s.
  induction n as [|n IH]; intros q s Hs Hq Hn; [lia|]. cbn [seek].
  destruct (next_bits_spec q 1 s ltac:(lia) ltac:(lia) Hs) as (s' & -> & Hs'). rewrite stream_bit by lia.
  destruct (decide (q = T - L)) as [->|Hne].
  - replace (T - 1 - (T - L)) with (Z.log2 N) by (unfold bit_length; lia).
    rewrite Z.bit_log2 by done. cbn. by exists s'.
  - rewrite Z.bits_above_log2 by (unfold bit_length in *; lia). cbn [Z.b2z Z.eqb].
    apply IH; [done|lia|lia].
Qed.

(** ** Words *)

(** The number in words, the most significant one first. *)
Definition words_value (ws : list Z) : Z := digits_value (rev ws).

Lemma words_value_app ws1 ws2 :
  words_value (ws1 ++ ws2) = words_value ws1 * 2 ^ (16 * Z.of_nat (length ws2)) + words_value ws2.
Proof.
  unfold words_value. rewrite rev_app_distr, digits_value_app, length_rev.
  rewrite Z.pow_mul_r by lia. change (2 ^ 16) with 65536. lia.
Qed.

Lemma words_value_one w : words_value [w] = w.
Proof. unfold words_value. cbn. lia. Qed.

Lemma words_value_range ws : digits ws -> 0 <= words_value ws < 2 ^ (16 * Z.of_nat (length ws)).
Proof.
  intros H. unfold words_value. pose proof (digits_value_range (rev ws)) as Hr.
  rewrite length_rev in Hr. rewrite Z.pow_mul_r by lia. apply Hr. by apply Forall_rev.
Qed.

Lemma put_spec v ws r rest :
  in_uw 16 v -> put v (ws ++ r :: rest, length ws) = Ret ((ws ++ [v]) ++ rest, S (length ws)).
Proof.
  intros Hv. unfold put. rewrite (proj2 (Nat.ltb_lt _ _)) by (rewrite length_app; cbn; lia).
  rewrite insert_app_r_alt, Nat.sub_diag by done. cbn [insert list_insert].
  rewrite uw_id by done. by rewrite <- app_assoc.
Qed.

Lemma fill_spec n : forall q s ws rest,
  0 <= q -> at_bit q s -> (n <= length rest)%nat ->
  exists vs s', fill f n (ws ++ rest, length ws) s =
      Ret ((ws ++ vs) ++ drop n rest, (length ws + n)%nat, s') /\
    length vs = n /\ digits vs /\ words_value vs = stream N T q (16 * Z.of_nat n) /\
    at_bit (q + 16 * Z.of_nat n) s'.
Proof.
  induction n as [|n IH]; intros q s ws rest Hq Hs Hn.
  - exists [], s. cbn [fill]. rewrite app_nil_r, drop_0, Nat.add_0_r, Z.mul_0_r, Z.add_0_r.
    split_and!; [done|done|by constructor| |done]. unfold stream. by rewrite Z.mod_1_r.
  - destruct rest as [|r rest]; [cbn in Hn; lia|]. cbn [fill].
    unfold LITTLENUM_NUMBER_OF_BITS.
    destruct (next_bits_spec q 16 s Hq ltac:(lia) Hs) as (s1 & -> & Hs1).
    rewrite put_spec by (apply stream_range; lia). cbn [mbind outcome_bind].
    destruct (IH (q + 16) s1 (ws ++ [stream N T q 16]) rest) as (vs & s' & Hfill & Hlen & Hd & Hv & Hat);
      [lia|done|cbn in Hn; lia|].
    rewrite length_app, Nat.add_comm in Hfill. cbn [length Nat.add] in Hfill. rewrite Hfill.
    exists (stream N T q 16 :: vs), s'. cbn [drop length].
    split_and!; [by rewrite <- !app_assoc, Nat.add_succ_r|lia| | |].
    + constructor; [apply stream_range; lia|done].
    + change (stream N T q 16 :: vs) with ([stream N T q 16] ++ vs).
      rewrite words_value_app, words_value_one, Hv, Hlen.
      rewrite Nat2Z.inj_succ. replace (16 * Z.succ (Z.of_nat n)) with (16 + 16 * Z.of_nat n) by lia.
      by rewrite stream_app by lia.
    + replace (q + 16 * Z.of_nat (S n)) with (q + 16 + 16 * Z.of_nat n) by lia. done.
Qed.
End source.

(** Adding a carry to the words in front of [n]. *)
Lemma propagate_spec ws : forall rest c,
  digits ws -> 0 <= c <= 1 ->
  exists ws', propagate (length ws) c (ws ++ rest) = ws' ++ rest /\ length ws' = length ws /\
    digits ws' /\ words_value ws' = (words_value ws + c) mod 2 ^ (16 * Z.of_nat (length ws)).
Proof.
  induction ws as [|w ws IH] using rev_ind; intros rest c Hd Hc.
  - exists []. split_and!; [done|done|by constructor|]. cbn [length]. by rewrite Z.mod_1_r.
  - apply Forall_app in Hd as [Hd Hw]. apply Forall_cons in Hw as [Hw _]. unfold in_uw in Hw.
    rewrite length_app. cbn [length]. rewrite Nat.add_1_r. cbn [propagate].
    assert (Hv : words_value (ws ++ [w]) = words_value ws * 65536 + w)
      by (by rewrite words_value_app, words_value_one).
    pose proof (words_value_range ws Hd) as Hr.
    assert (Hp : 2 ^ (16 * Z.of_nat (S (length ws))) = 2 ^ (16 * Z.of_nat (length ws)) * 65536).
    { replace (16 * Z.of_nat (S (length ws))) with (16 * Z.of_nat (length ws) + 16) by lia.
      by rewrite Z.pow_add_r by lia. }
    destruct (Z.eqb_spec c 0) as [->|Hne].
    + exists (ws ++ [w]). rewrite length_app. cbn [length]. split_and!; [done|lia| |].
      * apply Forall_app. split; [done|]. by constructor.
      * rewrite Hv, Hp, Z.mod_small by lia. lia.
    + assert (c = 1) as -> by lia. rewrite <- app_assoc. cbn [app].
      rewrite app_nth2, Nat.sub_diag by lia. cbn [nth].
      rewrite insert_app_r_alt, Nat.sub_diag by done. cbn [insert list_insert].
      unfold LITTLENUM_NUMBER_OF_BITS. rewrite Z.shiftr_div_pow2 by lia. change (2 ^ 16) with 65536 in *.
      destruct (IH (u16 (w + 1) :: rest) ((w + 1) / 65536)) as (ws' & -> & Hl & Hd' & Hv').
      { done. } { split; [apply Z.div_pos; lia|]. apply Z.lt_succ_r, Z.div_lt_upper_bound; lia. }
      exists (ws' ++ [u16 (w + 1)]). rewrite <- app_assoc, length_app. cbn [app length].
      split_and!; [done|lia| |].
      * apply Forall_app. split; [done|]. constructor; [by apply uw_range|done].
      * rewrite words_value_app, words_value_one, Hv', Hv, Hp. cbn [length].
        change (2 ^ (16 * Z.of_nat 1)) with 65536. unfold uw. change (2 ^ 16) with 65536.
        set (P := 2 ^ (16 * Z.of_nat (length ws))) in *.
        pose proof (Z.div_mod (w + 1) 65536 ltac:(lia)).
        pose proof (Z.mod_pos_bound (w + 1) 65536 ltac:(lia)).
        pose proof (Z.div_mod (words_value ws + (w + 1) / 65536) P ltac:(lia)).
        pose proof (Z.mod_pos_bound (words_value ws + (w + 1) / 65536) P ltac:(lia)).
        apply (Z.mod_unique_pos _ _ ((words_value ws + (w + 1) / 65536) / P)); nia.
Qed.

(** ** Rounding *)

(** [N * 2 ^ k] to the nearest integer, halves up. *)
Definition half_up (N k : Z) : Z := (Z.shiftl N (k + 1) + 1) / 2.

Lemma half_up_bit N k T q :
  q + 1 - T = k + 1 -> half_up N k = Z.shiftl N k + stream N T q 1.
Proof.
  intros Hq. unfold half_up, stream. rewrite Hq. change (2 ^ 1) with 2.
  assert (Hs : Z.shiftl N k = Z.shiftl N (k + 1) / 2).
  { rewrite <- (Z.shiftr_div_pow2 _ 1) by lia. rewrite <- Z.shiftl_opp_r.
    apply Z.bits_inj'. intros i Hi. rewrite !Z.shiftl_spec by lia. f_equal. lia. }
  rewrite Hs. pose proof (Z.div_mod (Z.shiftl N (k + 1)) 2 ltac:(lia)).
  pose proof (Z.mod_pos_bound (Z.shiftl N (k + 1)) 2 ltac:(lia)).
  symmetry. apply (Z.div_unique_pos _ _ _ ((Z.shiftl N (k + 1) mod 2 + 1) mod 2)).
  - apply Z.mod_pos_bound. lia.
  - destruct (decide (Z.shiftl N (k + 1) mod 2 = 0)) as [E|E].
    + rewrite E in *. change ((0 + 1) mod 2) with 1. lia.
    + assert (Z.shiftl N (k + 1) mod 2 = 1) as E1 by lia. rewrite E1 in *.
      change ((1 + 1) mod 2) with 0. lia.
Qed.

(** [N] has [k + 1] bits after the shift. *)
Lemma shiftl_length N L k : 0 < N -> L = Z.log2 N + 1 -> 0 <= k + L - 1 ->
  2 ^ (k + L - 1) <= Z.shiftl N k < 2 ^ (k + L).
Proof.
  intros HN -> Hk. replace (k + (Z.log2 N + 1) - 1) with (Z.log2 N + k) in * by lia.
  pose proof (Z.log2_spec N HN) as [H1 H2]. destruct (Z.le_gt_cases 0 k).
  - rewrite Z.shiftl_mul_pow2 by done. pose proof (Z.pow_pos_nonneg 2 k ltac:(lia) ltac:(lia)).
    replace (k + (Z.log2 N + 1)) with (Z.succ (Z.log2 N) + k) by lia.
    rewrite !Z.pow_add_r by (pose proof (Z.log2_nonneg N); lia). nia.
  - rewrite <- (Z.opp_involutive k), Z.shiftl_opp_r, Z.shiftr_div_pow2 by lia.
    pose proof (Z.pow_pos_nonneg 2 (- k) ltac:(lia) ltac:(lia)) as Hp. split.
    + apply Z.div_le_lower_bound; [done|]. rewrite <- Z.pow_add_r by lia.
      replace (- k + (Z.log2 N + - - k)) with (Z.log2 N) by lia. done.
    + apply Z.div_lt_upper_bound; [done|]. rewrite <- Z.pow_add_r by lia.
      replace (- k + (- - k + (Z.log2 N + 1))) with (Z.succ (Z.log2 N)) by lia. done.
Qed.

Lemma words_value_zeros k : words_value (replicate k 0) = 0.
Proof.
  induction k as [|k IH]; [done|]. change (replicate (S k) 0) with ([0] ++ replicate k 0).
  rewrite words_value_app, words_value_one, IH. lia.
Qed.

(** Without a carry out of the last word, one can be added to it alone. *)
Lemma words_value_last ws w :
  digits (ws ++ [w]) -> w + 1 < 65536 ->
  <[length ws := u16 (nth (length ws) (ws ++ [w]) 0 + 1)]> (ws ++ [w]) = ws ++ [w + 1].
Proof.
  intros [_ Hw]%Forall_app Hlt. apply Forall_cons in Hw as [Hw _]. unfold in_uw in Hw.
  rewrite app_nth2, Nat.sub_diag by lia. cbn [nth]. rewrite insert_app_r_alt, Nat.sub_diag by done.
  cbn [insert list_insert]. by rewrite uw_id by (unfold in_uw; change (2 ^ 16) with 65536; lia).
Qed.

(** Words with the same sign. *)
Lemma same_sign a b : a / 32768 = b / 32768 -> Z.land (Z.lxor a b) 32768 = 0.
Proof.
  intros H. change 32768 with (2 ^ 15) in *. apply Z.bits_inj'. intros i Hi.
  rewrite Z.land_spec, Z.lxor_spec, Z.bits_0, Z.pow2_bits_eqb by lia.
  destruct (Z.eqb_spec 15 i) as [<-|]; [|by rewrite andb_false_r].
  rewrite <- !Z.shiftr_div_pow2 in H by lia.
  assert (Hb : Z.testbit (Z.shiftr a 15) 0 = Z.testbit (Z.shiftr b 15) 0) by by rewrite H.
  rewrite !Z.shiftr_spec in Hb by lia. change (0 + 15) with 15 in Hb.
  by rewrite Hb, xorb_nilpotent.
Qed.

(** The sign is the top bit of the first word. *)
Lemma top_word x ws sgn :
  digits ws -> let Q := 2 ^ (16 * Z.of_nat (length ws) + 15) in
  sgn * Q <= words_value (x :: ws) < (sgn + 1) * Q -> x / 32768 = sgn.
Proof.
  intros Hd Q Hx. pose proof (words_value_range ws Hd) as Hr.
  change (x :: ws) with ([x] ++ ws) in Hx. rewrite words_value_app, words_value_one in Hx.
  unfold Q in Hx. rewrite Z.pow_add_r in Hx by lia. change (2 ^ 15) with 32768 in Hx.
  set (K := 2 ^ (16 * Z.of_nat (length ws))) in *.
  assert (sgn * 32768 <= x < (sgn + 1) * 32768).
  { split; [apply Z.lt_succ_r|]; apply (Z.mul_lt_mono_pos_r K); lia. }
  symmetry. apply (Z.div_unique_pos _ _ _ (x - sgn * 32768)); lia.
Qed.

Section format.
Context (f : flonum) (Vf : valid f) (Nf : normal f).
Local Abbreviation N := (mantissa f).
Local Abbreviation T := (16 * (leader f + 1)).
Local Abbreviation L := (bit_length f).

(** A format of [p] words with an exponent of [e] bits, and a sign. *)
Context (p : nat) (e sgn : Z).
Context (Hp : (1 <= p <= 6)%nat) (He : 2 <= e <= 14) (Hsgn : 0 <= sgn <= 1).
Local Abbreviation m := (16 * Z.of_nat p - 1 - e).

Lemma not_x : is_x (Z.of_nat p) e = false.
Proof. unfold is_x. rewrite (proj2 (Z.eqb_neq e 15)) by lia. apply andb_false_r. Qed.

(** The first word of a normal number. *)
Lemma first_word E v :
  let fr := 15 - e in
  1 <= E < 2 ^ e -> 0 <= v < 2 ^ fr ->
  u16 (Z.lor (sgn * 32768) (Z.lor (Z.shiftl E fr) v)) = sgn * 32768 + (E * 2 ^ fr + v) /\
  in_uw 16 (sgn * 32768 + (E * 2 ^ fr + v)).
Proof.
  intros fr HE Hv. assert (Hfe : fr = 15 - e) by done. clearbody fr.
  assert (Hfr : 2 ^ fr * 2 ^ e = 32768) by (rewrite <- Z.pow_add_r by lia; by replace (fr + e) with 15 by lia).
  assert (Hlow : 0 <= E * 2 ^ fr + v < 32768) by nia.
  assert (H16 : in_uw 16 (sgn * 32768 + (E * 2 ^ fr + v))) by (unfold in_uw; change (2 ^ 16) with 65536; lia).
  split; [|done]. rewrite Z.shiftl_mul_pow2, lor_add by lia. change 32768 with (2 ^ 15).
  rewrite lor_add by lia. by apply uw_id.
Qed.

(** The words of a normal number before it is rounded. *)
Lemma normal_value E vs :
  let fr := 15 - e in
  1 <= E -> length vs = (p - 1)%nat ->
  words_value vs = stream N T (T - L + 1 + fr) (16 * Z.of_nat (p - 1)) ->
  words_value (sgn * 32768 + (E * 2 ^ fr + stream N T (T - L + 1) fr) :: vs) =
    sgn * 2 ^ (16 * Z.of_nat p - 1) + (E - 1) * 2 ^ m + Z.shiftl N (m + 1 - L).
Proof.
  intros fr HE Hlen Hval. assert (Hfr : fr = 15 - e) by done. clearbody fr. pose proof (mantissa_range f Vf Nf) as (HN & HL & _).
  match goal with |- words_value (?w :: vs) = _ => change (w :: vs) with ([w] ++ vs) end.
  rewrite words_value_app, words_value_one, Hval, Hlen.
  assert (Hst : stream N T (T - L + 1) fr * 2 ^ (16 * Z.of_nat (p - 1)) +
    stream N T (T - L + 1 + fr) (16 * Z.of_nat (p - 1)) = Z.shiftl N (m + 1 - L) - 2 ^ m).
  { rewrite <- stream_app by lia. unfold stream. replace (fr + 16 * Z.of_nat (p - 1)) with m by lia.
    replace (T - L + 1 + m - T) with (m + 1 - L) by lia.
    pose proof (shiftl_length N L (m + 1 - L) HN eq_refl ltac:(lia)) as Hsh.
    replace (m + 1 - L + L - 1) with m in Hsh by lia.
    replace (m + 1 - L + L) with (m + 1) in Hsh by lia. rewrite Z.pow_add_r in Hsh by lia.
    symmetry. apply (Z.mod_unique_pos _ _ 1); lia. }
  rewrite <- (Z.sub_add (2 ^ m) (Z.shiftl N _)), <- Hst.
  replace m with (fr + 16 * Z.of_nat (p - 1)) by lia.
  replace (16 * Z.of_nat p - 1) with (15 + 16 * Z.of_nat (p - 1)) by lia.
  rewrite !Z.pow_add_r by lia. change (2 ^ 15) with 32768. ring.
Qed.

(** Rounding does not reach the sign. *)
Lemma normal_fits E h :
  let Q := 2 ^ (16 * Z.of_nat p - 1) in
  1 <= E <= 2 ^ e - 2 -> 0 <= h <= 2 * 2 ^ m ->
  sgn * Q <= sgn * Q + (E - 1) * 2 ^ m + h < (sgn + 1) * Q /\ (sgn + 1) * Q <= 2 ^ (16 * Z.of_nat p).
Proof.
  intros Q HE Hh.
  assert (Hpow : 2 ^ (16 * Z.of_nat p) = 2 * Q) by (unfold Q; rewrite <- Z.pow_succ_r by lia; f_equal; lia).
  assert (Hem : Q = 2 ^ e * 2 ^ m) by (unfold Q; rewrite <- Z.pow_add_r by lia; f_equal; lia).
  assert (HM : 0 < 2 ^ m) by (apply Z.pow_pos_nonneg; lia). clearbody Q.
  assert ((E + 1) * 2 ^ m <= (2 ^ e - 1) * 2 ^ m) by (apply Z.mul_le_mono_nonneg_r; lia).
  assert (0 <= (E - 1) * 2 ^ m) by (apply Z.mul_nonneg_nonneg; lia). rewrite Hpow.
  assert (sgn = 0 \/ sgn = 1) as [-> | ->] by lia; lia.
Qed.

Lemma normal_words_spec E words s :
  at_bit f (T - L + 1) s -> 1 <= E <= 2 ^ e - 2 -> (p <= length words)%nat ->
  exists ws, normal_words f (Z.of_nat p) e E (sgn * 32768) words s = Ret (ws ++ drop p words) /\
    length ws = p /\ digits ws /\
    words_value ws = sgn * 2 ^ (16 * Z.of_nat p - 1) + (E - 1) * 2 ^ m + half_up N (m + 1 - L).
Proof.
  intros Hs HE Hw. pose proof (mantissa_range f Vf Nf) as (HN & HL & _).
  unfold normal_words, LITTLENUM_NUMBER_OF_BITS. cbv zeta. replace (16 - 1 - e) with (15 - e) by lia.
  rewrite (proj2 (Z.ltb_ge _ _)) by lia.
  destruct (next_bits_spec f Vf (T - L + 1) (15 - e) s ltac:(lia) ltac:(lia) Hs) as (s1 & -> & Hs1).
  destruct (first_word E (stream N T (T - L + 1) (15 - e)) ltac:(lia) ltac:(apply stream_range; lia)) as [Hword Hw1].
  rewrite Hword. destruct words as [|w0 rest]; [cbn in Hw; lia|].
  assert (Hdrop : drop p (w0 :: rest) = drop (p - 1) rest).
  { destruct p as [|p']; [lia|]. cbn. by rewrite Nat.sub_0_r. }
  rewrite Hdrop. pose proof (put_spec _ [] w0 rest Hw1) as Hput. cbn [app length] in Hput. rewrite Hput.
  cbn [mbind outcome_bind]. rewrite not_x. cbn [mbind outcome_bind snd].
  assert (Hfill : (Z.to_nat (Z.of_nat p) - 1 = p - 1)%nat) by lia. rewrite Hfill.
  set (w1 := sgn * 32768 + _) in *.
  destruct (fill_spec f Vf (p - 1) (T - L + 1 + (15 - e)) s1 [w1] rest ltac:(lia) Hs1 ltac:(cbn in Hw; lia))
    as (vs & s2 & Hf & Hlen & Hd & Hval & Hs2).
  cbn [app length] in Hf. rewrite Hf. cbn [mbind outcome_bind].
  set (q := T - L + 1 + (15 - e) + 16 * Z.of_nat (p - 1)) in *.
  destruct (next_bits_spec f Vf q 1 s2 ltac:(lia) ltac:(lia) Hs2) as (s3 & -> & _).
  pose proof (normal_value E vs ltac:(lia) Hlen Hval) as HW. cbv zeta in HW. fold w1 in HW.
  pose proof (stream_range N T q 1 ltac:(lia)) as Hb. change (2 ^ 1) with 2 in Hb.
  pose proof (half_up_bit N (m + 1 - L) T q ltac:(lia)) as Hhu. set (b := stream N T q 1) in *.
  assert (Hdw : digits (w1 :: vs)) by by constructor.
  pose proof (shiftl_length N L (m + 1 - L) HN eq_refl ltac:(lia)) as Hsh.
  replace (m + 1 - L + L) with (1 + m) in Hsh by lia. rewrite (Z.pow_add_r 2 1 m) in Hsh by lia.
  destruct (normal_fits E (Z.shiftl N (m + 1 - L)) HE ltac:(lia)) as [Hfit _].
  destruct (normal_fits E (half_up N (m + 1 - L)) HE ltac:(lia)) as [Hfit1 Hfit2].
  destruct (Z.eqb_spec b 0) as [Hb0|Hb0].
  - exists (w1 :: vs). split_and!; [done|cbn; lia|done|]. rewrite HW, Hhu. lia.
  - replace (1 + (p - 1))%nat with (length (w1 :: vs)) by (cbn; lia).
    change (w1 :: vs ++ drop (p - 1) rest) with ((w1 :: vs) ++ drop (p - 1) rest).
    destruct (propagate_spec (w1 :: vs) (drop (p - 1) rest) 1 Hdw ltac:(lia)) as (ws & -> & Hlw & Hdws & Hvw).
    assert (Hlen2 : length (w1 :: vs) = p) by (cbn; lia). rewrite Hlen2 in *.
    assert (HWh : words_value (w1 :: vs) + 1 =
      sgn * 2 ^ (16 * Z.of_nat p - 1) + (E - 1) * 2 ^ m + half_up N (m + 1 - L)) by lia.
    rewrite HWh, Z.mod_small in Hvw by lia.
    destruct ws as [|x ws]; [cbn in Hlw; lia|]. cbn [nth app].
    apply Forall_cons in Hdws as [Hx Hdws]. cbn [length] in Hlw.
    rewrite same_sign; [exists (x :: ws); split_and!; [done|done|by constructor|exact Hvw]|].
    transitivity sgn; [|symmetry].
    + apply (top_word w1 vs sgn Hd). replace (16 * Z.of_nat (length vs) + 15) with (16 * Z.of_nat p - 1) by lia. lia.
    + apply (top_word x ws sgn Hdws). replace (16 * Z.of_nat (length ws) + 15) with (16 * Z.of_nat p - 1) by lia. lia.
Qed.

(** *** Denormal numbers *)

Lemma unget_bits_spec q s :
  0 <= q < T - 1 -> at_bit f (q + 1) s -> at_bit f q (unget_bits 1 s).
Proof.
  intros Hq [(Hl & _ & H)|(Hl & Hptr & Hb & H)]; [lia|]. unfold unget_bits, LITTLENUM_NUMBER_OF_BITS.
  rewrite (proj2 (Z.eqb_neq _ _)) by lia. right.
  destruct (Z.ltb_spec 16 (bits_left_in_littlenum s + 1));
    cbn [littlenums_left littlenum_pointer bits_left_in_littlenum]; lia.
Qed.

Lemma zero_words_spec fuel : forall num_bits ws rest,
  0 <= num_bits < 16 * Z.of_nat fuel -> num_bits / 16 <= Z.of_nat (length rest) ->
  zero_words fuel num_bits (ws ++ rest, length ws) =
    let k := Z.to_nat (num_bits / 16) in
    Ret (num_bits mod 16, ((ws ++ replicate k 0) ++ drop k rest, (length ws + k)%nat)).
Proof.
  induction fuel as [|fuel IH]; intros num_bits ws rest Hn Hr; [lia|]. cbn [zero_words]. cbv zeta.
  unfold LITTLENUM_NUMBER_OF_BITS. destruct (Z.leb_spec 16 num_bits) as [H16|H16].
  - assert (Hdiv : num_bits / 16 = (num_bits - 16) / 16 + 1).
    { rewrite <- Z.div_add by done. f_equal. lia. }
    assert (Hmod : (num_bits - 16) mod 16 = num_bits mod 16).
    { rewrite <- (Z.mod_add num_bits (-1)) by done. f_equal. }
    pose proof (Z.div_pos (num_bits - 16) 16 ltac:(lia) ltac:(lia)).
    destruct rest as [|r rest]; [cbn in Hr; lia|].
    rewrite put_spec by by split. cbn [mbind outcome_bind].
    assert (Hlen : S (length ws) = length (ws ++ [0])) by (rewrite length_app; cbn; lia).
    rewrite Hlen, IH by (cbn in Hr; lia). cbv zeta. rewrite Hmod, <- Hlen.
    replace (Z.to_nat (num_bits / 16)) with (S (Z.to_nat ((num_bits - 16) / 16))) by lia.
    cbn [replicate drop]. rewrite <- !app_assoc. cbn [app].
    by replace (S (length ws) + Z.to_nat ((num_bits - 16) / 16))%nat
      with (length ws + S (Z.to_nat ((num_bits - 16) / 16)))%nat by lia.
  - rewrite Z.div_small, Z.mod_small by lia. cbn [Z.to_nat replicate drop].
    by rewrite app_nil_r, Nat.add_0_r.
Qed.

(** The words in front of the loop that fills the rest hold the sign, zeros
    and the first bits. *)
Definition head_bits (ws : list Z) (nb : Z) : Z := 16 * Z.of_nat (length ws) - 1 - e - nb.

Lemma denormal_head_spec nb words s :
  at_bit f (T - L) s -> 0 <= nb <= m -> nb <= 62 -> (p <= length words)%nat ->
  exists ws s', denormal_head f (Z.of_nat p) e (sgn * 32768) nb words s =
      Ret (Some (ws ++ drop (length ws) words, length ws, s')) /\
    (1 <= length ws <= p)%nat /\ digits ws /\ 0 <= head_bits ws nb /\
    at_bit f (T - L + head_bits ws nb) s' /\
    words_value ws = sgn * 2 ^ (16 * Z.of_nat (length ws) - 1) + stream N T (T - L) (head_bits ws nb).
Proof.
  intros Hs Hnb H62 Hw. pose proof (mantissa_range f Vf Nf) as (HN & HL & _).
  assert (Hsg : in_uw 16 (sgn * 32768)) by (unfold in_uw; change (2 ^ 16) with 65536; lia).
  unfold denormal_head. cbv zeta. unfold LITTLENUM_NUMBER_OF_BITS. rewrite not_x.
  destruct words as [|w0 rest]; [cbn in Hw; lia|]. cbn [length] in Hw.
  pose proof (fun v => put_spec v [] w0 rest) as Hput. cbn [app length] in Hput.
  destruct (Z.leb_spec (16 - e) nb) as [Hbig|Hsmall].
  - rewrite Hput by done. cbn [mbind outcome_bind]. set (nb' := nb - (16 - 1 - e)).
    assert (Hnb' : nb' = nb - 15 + e) by (unfold nb'; lia). clearbody nb'.
    rewrite (proj2 (Z.leb_gt _ _)) by lia.
    pose proof (Z.div_mod nb' 16 ltac:(lia)) as Hdm. pose proof (Z.mod_pos_bound nb' 16 ltac:(lia)) as Hmb.
    pose proof (zero_words_spec 4 nb' [sgn * 32768] rest ltac:(lia) ltac:(lia)) as Hz.
    cbn [app length] in Hz. rewrite Hz. cbv zeta. cbn [mbind outcome_bind].
    set (k := Z.to_nat (nb' / 16)) in *. set (r := nb' mod 16) in *.
    assert (Hk : Z.of_nat k = nb' / 16) by (apply Z2Nat.id, Z.div_pos; lia).
    set (hd := sgn * 32768 :: replicate k 0) in *.
    assert (Hlh : length hd = S k) by (unfold hd; cbn; by rewrite length_replicate).
    assert (Hvh : words_value hd = sgn * 2 ^ (16 * Z.of_nat (S k) - 1)).
    { unfold hd. change (sgn * 32768 :: replicate k 0) with ([sgn * 32768] ++ replicate k 0).
      rewrite words_value_app, words_value_one, words_value_zeros, length_replicate.
      replace (16 * Z.of_nat (S k) - 1) with (15 + 16 * Z.of_nat k) by lia.
      rewrite Z.pow_add_r by lia. change (2 ^ 15) with 32768. ring. }
    assert (Hdh : digits hd).
    { constructor; [done|]. apply Forall_replicate. split; lia. }
    destruct (Z.eqb_spec r 0) as [Hr|Hr].
    + exists hd, s. unfold head_bits. rewrite Hlh.
      replace (16 * Z.of_nat (S k) - 1 - e - nb) with 0 by lia. rewrite Z.add_0_r.
      split_and!; [done|lia|lia|done|lia|done|]. rewrite Hvh. unfold stream. by rewrite Z.mod_1_r, Z.add_0_r.
    + destruct (next_bits_spec f Vf (T - L) (16 - r) s ltac:(lia) ltac:(lia) Hs) as (s1 & -> & Hs1).
      set (v := stream N T (T - L) (16 - r)) in *.
      assert (Hv : 0 <= v < 2 ^ (16 - r)) by (apply stream_range; lia).
      assert (Hv16 : in_uw 16 v).
      { split; [lia|]. eapply Z.lt_le_trans; [apply Hv|]. apply Z.pow_le_mono_r; lia. }
      destruct (drop k rest) as [|x rest'] eqn:Hdr.
      { apply (f_equal length) in Hdr. rewrite length_drop in Hdr. cbn in Hdr. lia. }
      pose proof (put_spec v hd x rest' Hv16) as Hput2. rewrite Hlh in Hput2.
      change (hd ++ x :: rest') with (sgn * 32768 :: replicate k 0 ++ x :: rest') in Hput2.
      change (1 + k)%nat with (S k). rewrite Hput2. cbn [mbind outcome_bind].
      exists (hd ++ [v]), s1. unfold head_bits. rewrite length_app, Hlh. cbn [length].
      replace (16 * Z.of_nat (S k + 1) - 1 - e - nb) with (16 - r) by lia.
      split_and!; [|lia|lia| |lia|done|].
      * apply (f_equal (drop 1)) in Hdr. rewrite drop_drop in Hdr. cbn [drop] in Hdr.
        rewrite drop_0 in Hdr. rewrite <- Hdr, !Nat.add_1_r. done.
      * apply Forall_app. split; [done|by constructor].
      * rewrite words_value_app, words_value_one, Hvh. cbn [length]. fold v.
        replace (16 * Z.of_nat (S k + 1) - 1) with (16 * Z.of_nat (S k) - 1 + 16 * Z.of_nat 1) by lia.
        rewrite (Z.pow_add_r 2 (_ - 1)) by lia. ring.
  - destruct (next_bits_spec f Vf (T - L) (16 - 1 - (e + nb)) s ltac:(lia) ltac:(lia) Hs) as (s1 & -> & Hs1).
    set (v := stream N T (T - L) (16 - 1 - (e + nb))) in *.
    assert (Hv : 0 <= v < 2 ^ (16 - 1 - (e + nb))) by (apply stream_range; lia).
    assert (Hv15 : v < 2 ^ 15).
    { eapply Z.lt_le_trans; [apply Hv|]. apply Z.pow_le_mono_r; lia. }
    assert (Hor : Z.lor (sgn * 32768) v = sgn * 32768 + v).
    { change 32768 with (2 ^ 15). by rewrite lor_add by lia. }
    rewrite Hor. change (2 ^ 15) with 32768 in Hv15.
    assert (H16 : in_uw 16 (sgn * 32768 + v)) by (unfold in_uw; change (2 ^ 16) with 65536; lia).
    rewrite Hput by done. cbn [mbind outcome_bind].
    exists [sgn * 32768 + v], s1. unfold head_bits. cbn [length drop app].
    replace (16 * Z.of_nat 1 - 1 - e - nb) with (16 - 1 - (e + nb)) by lia.
    split_and!; [done|lia|lia|by constructor|lia|done|]. rewrite words_value_one. done.
Qed.

Lemma denormal_range E : - m <= E <= 0 -> 0 <= Z.shiftl N (m + E - L) < 2 ^ (m + E).
Proof.
  intros HE. pose proof (mantissa_range f Vf Nf) as (HN & HL & _). destruct (decide (m + E = 0)) as [Hz|].
  - rewrite Hz, <- (Z.opp_involutive (0 - L)), Z.shiftl_opp_r, Z.shiftr_div_pow2 by lia.
    replace (- (0 - L)) with L by lia. rewrite Z.div_small; [done|].
    pose proof (Z.log2_spec N HN). unfold bit_length. rewrite Z.add_1_r. split; [lia|tauto].
  - pose proof (shiftl_length N L (m + E - L) HN eq_refl ltac:(lia)) as Hsh.
    replace (m + E - L + L) with (m + E) in Hsh by lia.
    pose proof (Z.pow_pos_nonneg 2 (m + E - L + L - 1) ltac:(lia) ltac:(lia)). lia.
Qed.

(** The words of a denormal number before it is rounded. *)
Lemma denormal_value E ws vs :
  - m <= E <= 0 -> (1 <= length ws <= p)%nat -> length vs = (p - length ws)%nat -> 0 <= head_bits ws (- E) ->
  words_value ws = sgn * 2 ^ (16 * Z.of_nat (length ws) - 1) + stream N T (T - L) (head_bits ws (- E)) ->
  words_value vs = stream N T (T - L + head_bits ws (- E)) (16 * Z.of_nat (p - length ws)) ->
  words_value (ws ++ vs) = sgn * 2 ^ (16 * Z.of_nat p - 1) + Z.shiftl N (m + E - L).
Proof.
  intros HE Hlen Hlv Hhb Hval Hvv. pose proof (denormal_range E HE).
  rewrite words_value_app, Hval, Hvv, Hlv, Z.mul_add_distr_r, <- Z.add_assoc, <- stream_app by lia.
  rewrite <- Z.mul_assoc, <- Z.pow_add_r by lia.
  replace (16 * Z.of_nat (length ws) - 1 + 16 * Z.of_nat (p - length ws)) with (16 * Z.of_nat p - 1) by lia.
  f_equal. replace (head_bits ws (- E) + 16 * Z.of_nat (p - length ws)) with (m + E)
    by (unfold head_bits; lia).
  unfold stream. replace (T - L + (m + E) - T) with (m + E - L) by lia. by rewrite Z.mod_small by lia.
Qed.

(** Where one is added to the last word alone, it has room. *)
Lemma denormal_no_carry E l w :
  - m <= E <= 0 -> m + E <= 16 -> digits (l ++ [w]) -> length (l ++ [w]) = p ->
  (m + E = 16 -> Z.shiftl N (16 - L) <> 65535) ->
  words_value (l ++ [w]) = sgn * 2 ^ (16 * Z.of_nat p - 1) + Z.shiftl N (m + E - L) -> w + 1 < 65536.
Proof.
  intros HE H16 Hd Hlw Hno HW. pose proof (denormal_range E HE) as Hfl.
  rewrite length_app in Hlw. cbn [length] in Hlw.
  rewrite words_value_app, words_value_one in HW. cbn [length] in HW.
  change (2 ^ (16 * Z.of_nat 1)) with 65536 in HW.
  apply Forall_app in Hd as [_ Hd]. apply Forall_cons in Hd as [Hd _]. unfold in_uw in Hd.
  change (2 ^ 16) with 65536 in Hd. destruct (decide (w = 65535)) as [->|]; [exfalso|lia].
  assert (Hk : Z.shiftl N (m + E - L) < 65535).
  { destruct (decide (m + E = 16)) as [H|].
    - rewrite H in *. change (2 ^ 16) with 65536 in *. lia.
    - assert (2 ^ (m + E) <= 2 ^ 15) by (apply Z.pow_le_mono_r; lia). change (2 ^ 15) with 32768 in *. lia. }
  destruct l as [|x l].
  - assert (Hm : 2 ^ (m + E) <= 2 ^ 13) by (apply Z.pow_le_mono_r; cbn in Hlw; lia).
    change (2 ^ 13) with 8192 in Hm.
    assert (Hq : 2 ^ (16 * Z.of_nat p - 1) = 32768) by (replace p with 1%nat by (cbn in Hlw; lia); done).
    rewrite Hq in HW. change (words_value []) with 0 in HW. lia.
  - assert (Hq : 2 ^ (16 * Z.of_nat p - 1) = 65536 * 2 ^ (16 * Z.of_nat p - 17)).
    { change 65536 with (2 ^ 16). rewrite <- Z.pow_add_r by (cbn in Hlw; lia). f_equal. lia. }
    rewrite Hq in HW. set (a := words_value (x :: l)) in *.
    assert (sgn = 0 \/ sgn = 1) as [Hs0 | Hs0] by lia; rewrite Hs0 in HW; lia.
Qed.

Lemma round_denormal_spec E ws rest :
  - m <= E <= 0 -> digits ws -> length ws = p ->
  (m + E = 16 -> Z.shiftl N (16 - L) <> 65535) ->
  words_value ws = sgn * 2 ^ (16 * Z.of_nat p - 1) + Z.shiftl N (m + E - L) ->
  exists ws', round_denormal (m + E) p (ws ++ rest) = ws' ++ rest /\ length ws' = p /\ digits ws' /\
    words_value ws' = words_value ws + 1.
Proof.
  intros HE Hd Hl Hno HW. pose proof (denormal_range E HE) as Hfl. unfold round_denormal, LITTLENUM_NUMBER_OF_BITS.
  destruct (Z.ltb_spec 16 (m + E)) as [H16|H16].
  - destruct (propagate_spec ws rest 1 Hd ltac:(lia)) as (ws' & Hpr & Hl' & Hd' & Hv').
    rewrite Hl in *. exists ws'. split_and!; [done|done|done|]. rewrite Hv'. apply Z.mod_small.
    assert (2 ^ (m + E) <= 2 ^ (16 * Z.of_nat p - 2)) by (apply Z.pow_le_mono_r; lia).
    assert (HQ : 2 ^ (16 * Z.of_nat p - 1) = 2 * 2 ^ (16 * Z.of_nat p - 2)) by (rewrite <- Z.pow_succ_r by lia; f_equal; lia).
    assert (HQ2 : 2 ^ (16 * Z.of_nat p) = 2 * 2 ^ (16 * Z.of_nat p - 1)) by (rewrite <- Z.pow_succ_r by lia; f_equal; lia).
    assert (0 <= sgn * 2 ^ (16 * Z.of_nat p - 1) <= 2 ^ (16 * Z.of_nat p - 1)).
    { assert (sgn = 0 \/ sgn = 1) as [-> | ->] by lia; lia. }
    lia.
  - destruct ws as [|w l _] using rev_ind; [cbn in Hl; lia|].
    pose proof (denormal_no_carry E l w HE ltac:(lia) Hd Hl Hno HW) as Hw.
    rewrite length_app in Hl. cbn [length] in Hl. replace (p - 1)%nat with (length l) by lia. exists (l ++ [w + 1]). split_and!.
    + rewrite app_nth1 by (rewrite length_app; cbn; lia).
      rewrite insert_app_l by (rewrite length_app; cbn; lia). by rewrite words_value_last.
    + rewrite length_app. cbn. lia.
    + apply Forall_app in Hd as [Hdl Hdw]. apply Forall_app. split; [done|].
      apply Forall_cons in Hdw as [Hdw _]. unfold in_uw in Hdw. constructor; [|done].
      unfold in_uw. change (2 ^ 16) with 65536. lia.
    + rewrite !words_value_app, !words_value_one. cbn [length]. lia.
Qed.

Lemma denormal_words_spec E words s :
  at_bit f (T - L + 1) s -> 1 < L -> - m <= E <= 0 -> -62 <= E -> (p <= length words)%nat ->
  (m + E = 16 -> Z.shiftl N (16 - L) <> 65535) ->
  exists ws, denormal_words f (Z.of_nat p) e E (sgn * 32768) words s = Ret (ws ++ drop p words) /\
    length ws = p /\ digits ws /\
    words_value ws = sgn * 2 ^ (16 * Z.of_nat p - 1) + half_up N (m + E - L).
Proof.
  intros Hs H1 HE H62 Hw Hno. pose proof (mantissa_range f Vf Nf) as (HN & HL & _).
  apply unget_bits_spec in Hs; [|lia].
  destruct (denormal_head_spec (- E) words _ Hs ltac:(lia) ltac:(lia) Hw)
    as (ws & s1 & Hhd & Hlen & Hd & Hhb & Hs1 & Hval).
  unfold denormal_words. cbv zeta. rewrite Hhd. cbn [mbind outcome_bind]. rewrite not_x, Nat2Z.id.
  destruct (fill_spec f Vf (p - length ws) (T - L + head_bits ws (- E)) s1 ws (drop (length ws) words) ltac:(lia) Hs1
    ltac:(rewrite length_drop; lia)) as (vs & s2 & Hf & Hlv & Hdv & Hvv & Hs2).
  pose proof (denormal_value E ws vs HE ltac:(lia) Hlv ltac:(lia) Hval Hvv) as HW.
  rewrite Hf. cbn [mbind outcome_bind]. rewrite drop_drop.
  replace (length ws + (p - length ws))%nat with p in * by lia.
  replace (T - L + head_bits ws (- E) + 16 * Z.of_nat (p - length ws)) with (T - L + (m + E)) in *
    by (unfold head_bits; lia).
  destruct (next_bits_spec f Vf (T - L + (m + E)) 1 s2 ltac:(lia) ltac:(lia) Hs2) as (s3 & -> & _).
  pose proof (half_up_bit N (m + E - L) T (T - L + (m + E)) ltac:(lia)) as Hhu.
  pose proof (stream_range N T (T - L + (m + E)) 1 ltac:(lia)) as Hb. change (2 ^ 1) with 2 in Hb.
  set (b := stream N T (T - L + (m + E)) 1) in *.
  assert (Hdw : digits (ws ++ vs)) by by apply Forall_app.
  assert (Hlw : length (ws ++ vs) = p) by (rewrite length_app; lia).
  destruct (Z.eqb_spec b 0) as [Hb0|Hb0].
  - exists (ws ++ vs). split_and!; [done|done|done|]. rewrite HW, Hhu. lia.
  - unfold LITTLENUM_NUMBER_OF_BITS. replace (16 * Z.of_nat p - (e + 1 + - E)) with (m + E) by lia.
    destruct (round_denormal_spec E (ws ++ vs) (drop p words) HE Hdw Hlw Hno HW) as (ws' & -> & Hl' & Hd' & Hv').
    exists ws'. split_and!; [done|done|done|]. rewrite Hv', HW, Hhu. lia.
Qed.
End format.

(** ** The nearest number of a format *)

(** The value of the bits [x] behind the sign, in units of the smallest
    denormal number: [m] bits of fraction, and the exponent in front of them. *)
Definition units (m x : Z) : Z :=
  if x <? 2 ^ m then x else (2 ^ m + x mod 2 ^ m) * 2 ^ (x / 2 ^ m - 1).

(** How far [x] is from [N * 2 ^ U] units, both scaled to integers. *)
Definition distance (m U N x : Z) : Z :=
  Z.abs (units m x * 2 ^ Z.max 0 (- U) - N * 2 ^ Z.max 0 U).

(** No number of the format is nearer, and of two that are as near it is the
    larger one. *)
Definition nearest (m U N x : Z) : Prop :=
  forall y, 0 <= y -> distance m U N x <= distance m U N y /\ (distance m U N y = distance m U N x -> y <= x).

Section units.
Context (m : Z) (Hm : 0 <= m).

(** In the binade of the exponent [d + 1], from the bits [d * 2 ^ m] on, the
    numbers are [2 ^ d] apart. *)
Lemma units_binade d j :
  0 <= d -> 0 <= j <= 2 ^ (m + 1) -> d = 0 \/ 2 ^ m <= j -> units m (d * 2 ^ m + j) = j * 2 ^ d.
Proof.
  intros Hd Hj Hc. pose proof (Z.pow_pos_nonneg 2 m ltac:(lia) Hm) as HM. unfold units.
  replace (2 ^ (m + 1)) with (2 * 2 ^ m) in Hj by (rewrite Z.pow_add_r by lia; lia).
  set (M := 2 ^ m) in *. destruct (Z.ltb_spec (d * M + j) M) as [H|H].
  - replace d with 0 by nia. change (2 ^ 0) with 1. lia.
  - assert (M <= j) as Hj1 by (destruct Hc; [subst d|]; lia).
    destruct (decide (j = 2 * M)) as [->|].
    + replace (d * M + 2 * M) with ((d + 2) * M) by lia. rewrite Z.mod_mul, Z.div_mul by lia.
      replace (d + 2 - 1) with (1 + d) by lia. rewrite Z.pow_add_r by lia. lia.
    + replace (d * M + j) with (j - M + (d + 1) * M) by lia. rewrite Z.mod_add, Z.div_add by lia.
      rewrite Z.mod_small, Z.div_small by lia. replace (0 + (d + 1) - 1) with d by lia. f_equal. lia.
Qed.

Lemma pow2_succ_le n : 0 <= n -> n + 1 <= 2 ^ n.
Proof. intros. pose proof (Z.pow_gt_lin_r 2 n). lia. Qed.

(** Everywhere else they lie above the line through the binade. *)
Lemma units_above d y : 0 <= d -> 0 <= y -> (y - d * 2 ^ m) * 2 ^ d <= units m y.
Proof.
  intros Hd Hy. pose proof (Z.pow_pos_nonneg 2 m ltac:(lia) Hm) as HM. unfold units.
  set (M := 2 ^ m) in *. pose proof (Z.pow_pos_nonneg 2 d ltac:(lia) Hd) as HD.
  destruct (Z.ltb_spec y M) as [H|H].
  - destruct (decide (d = 0)) as [->|]; [change (2 ^ 0) with 1; lia|].
    assert (M <= d * M) by nia. pose proof (Z.mul_nonpos_nonneg (y - d * M) (2 ^ d)). lia.
  - pose proof (Z.div_mod y M ltac:(lia)) as Hdm. pose proof (Z.mod_pos_bound y M HM) as Hb.
    assert (1 <= y / M) as Ha by (apply Z.div_le_lower_bound; lia).
    set (a := y / M) in *. set (b := y mod M) in *. rewrite Hdm.
    destruct (Z.le_gt_cases d (a - 1)).
    + replace (a - 1) with (d + (a - 1 - d)) by lia. rewrite Z.pow_add_r by lia.
      pose proof (pow2_succ_le (a - 1 - d) ltac:(lia)) as Hg. set (g := 2 ^ (a - 1 - d)) in *.
      replace ((M + b) * (2 ^ d * g)) with ((M + b) * g * 2 ^ d) by ring.
      apply Z.mul_le_mono_nonneg_r; [lia|].
      assert ((M + b) * (a - d) <= (M + b) * g) by (apply Z.mul_le_mono_nonneg_l; lia). nia.
    + replace (2 ^ d) with (2 ^ (a - 1) * 2 ^ (d - (a - 1)))
        by (rewrite <- Z.pow_add_r by lia; f_equal; lia).
      pose proof (Z.pow_pos_nonneg 2 (a - 1) ltac:(lia) ltac:(lia)).
      replace ((M * a + b - d * M) * (2 ^ (a - 1) * 2 ^ (d - (a - 1))))
        with ((M * a + b - d * M) * 2 ^ (d - (a - 1)) * 2 ^ (a - 1)) by ring.
      apply Z.mul_le_mono_nonneg_r; [lia|].
      destruct (decide (d = a)) as [->|].
      * replace (a - (a - 1)) with 1 by lia. change (2 ^ 1) with 2. lia.
      * pose proof (Z.pow_pos_nonneg 2 (d - (a - 1)) ltac:(lia) ltac:(lia)).
        assert (M * (d - a) >= M) by nia.
        pose proof (Z.mul_nonpos_nonneg (M * a + b - d * M) (2 ^ (d - (a - 1)))). lia.
Qed.

(** And below it they do not exceed its first number. *)
Lemma units_below d y : 0 <= d -> 0 <= y <= (d + 1) * 2 ^ m -> units m y <= 2 ^ m * 2 ^ d.
Proof.
  intros Hd Hy. pose proof (Z.pow_pos_nonneg 2 m ltac:(lia) Hm) as HM. unfold units.
  set (M := 2 ^ m) in *. pose proof (Z.pow_pos_nonneg 2 d ltac:(lia) Hd) as HD.
  destruct (Z.ltb_spec y M) as [H|H]; [nia|].
  pose proof (Z.div_mod y M ltac:(lia)) as Hdm. pose proof (Z.mod_pos_bound y M HM) as Hb.
  assert (1 <= y / M) as Ha by (apply Z.div_le_lower_bound; lia).
  destruct (decide (y / M = d + 1)) as [E|].
  - rewrite E. replace (y mod M) with 0 by nia. replace (d + 1 - 1) with d by lia. lia.
  - assert (y / M <= d) by (assert (y / M < d + 2) by (apply Z.div_lt_upper_bound; lia); lia).
    assert (2 ^ (y / M - 1) * 2 <= 2 ^ d).
    { rewrite <- (Z.pow_add_r 2 _ 1) by lia. apply Z.pow_le_mono_r; lia. }
    pose proof (Z.pow_pos_nonneg 2 (y / M - 1) ltac:(lia) ltac:(lia)). nia.
Qed.
End units.

(** ** Rounded halves up *)

Lemma half_up_scaled N k s :
  0 <= s -> 0 <= k + s ->
  (2 * half_up N k - 1) * 2 ^ s <= 2 * (N * 2 ^ (k + s)) < (2 * half_up N k + 1) * 2 ^ s.
Proof.
  intros Hs Hks. set (h := half_up N k). set (fl := Z.shiftl N (k + 1)).
  assert (Hh : 2 * h - 1 <= fl <= 2 * h).
  { unfold h, half_up. fold fl. pose proof (Z.div_mod (fl + 1) 2 ltac:(lia)).
    pose proof (Z.mod_pos_bound (fl + 1) 2 ltac:(lia)). lia. }
  assert (H2 : 2 * (N * 2 ^ (k + s)) = N * 2 ^ (k + 1 + s)).
  { replace (k + 1 + s) with (1 + (k + s)) by lia. rewrite (Z.pow_add_r 2 1) by lia.
    change (2 ^ 1) with 2. ring. }
  rewrite H2.
  assert (Hfl : fl * 2 ^ s <= N * 2 ^ (k + 1 + s) < (fl + 1) * 2 ^ s).
  { unfold fl. destruct (Z.le_gt_cases 0 (k + 1)).
    - rewrite Z.shiftl_mul_pow2, (Z.pow_add_r 2 (k + 1)) by lia.
      pose proof (Z.pow_pos_nonneg 2 s ltac:(lia) Hs). lia.
    - assert (Hk : k + 1 = - - (k + 1)) by lia. set (c := - (k + 1)) in *.
      replace (Z.shiftl N (k + 1)) with (N / 2 ^ c)
        by (rewrite Hk, Z.shiftl_opp_r, Z.shiftr_div_pow2 by lia; done).
      assert (HS : 2 ^ s = 2 ^ c * 2 ^ (k + 1 + s)) by (rewrite <- Z.pow_add_r by lia; f_equal; lia).
      rewrite HS.
      pose proof (Z.pow_pos_nonneg 2 c ltac:(lia) ltac:(lia)).
      pose proof (Z.pow_pos_nonneg 2 (k + 1 + s) ltac:(lia) ltac:(lia)).
      pose proof (Z.div_mod N (2 ^ c) ltac:(lia)). pose proof (Z.mod_pos_bound N (2 ^ c) ltac:(lia)).
      set (C := 2 ^ c) in *. set (W := 2 ^ (k + 1 + s)) in *.
      rewrite !Z.mul_assoc. split; [apply Z.mul_le_mono_nonneg_r; lia|apply Z.mul_lt_mono_pos_r; lia]. }
  pose proof (Z.pow_pos_nonneg 2 s ltac:(lia) Hs). nia.
Qed.

Lemma distance_scaled m U N x s :
  0 <= s -> - U <= s ->
  distance m U N x * 2 ^ (s - Z.max 0 (- U)) = Z.abs (units m x * 2 ^ s - N * 2 ^ (U + s)).
Proof.
  intros H1 H2. unfold distance.
  rewrite <- (Z.abs_eq (2 ^ (s - Z.max 0 (- U)))) by (apply Z.pow_nonneg; lia).
  rewrite <- Z.abs_mul, Z.mul_sub_distr_r, <- !Z.mul_assoc, <- !Z.pow_add_r by lia.
  do 3 f_equal; f_equal; lia.
Qed.

(** A multiple [h] of the distance [G] that is half of it away at most, from
    below at least, compared with the numbers [u] above and below. *)
Lemma closer_above S G h n u :
  0 < S -> 0 < G -> (2 * h - 1) * S <= 2 * n < (2 * h + 1) * S -> (h + 1) * G <= u ->
  Z.abs (h * G * S - n * G) < Z.abs (u * S - n * G).
Proof.
  intros HS HG Hn Hu. pose proof (Z.mul_le_mono_nonneg_r _ _ S ltac:(lia) Hu).
  replace (h * G * S - n * G) with ((h * S - n) * G) by ring. rewrite Z.abs_mul, (Z.abs_eq G) by lia.
  assert (Z.abs (h * S - n) * G < ((h + 1) * S - n) * G) by (apply Z.mul_lt_mono_pos_r; lia). lia.
Qed.

Lemma closer_below S G h n u :
  0 < S -> 0 < G -> (2 * h - 1) * S <= 2 * n < (2 * h + 1) * S ->
  u <= (h - 1) * G \/ (h * S <= n /\ u <= h * G) ->
  Z.abs (h * G * S - n * G) <= Z.abs (u * S - n * G).
Proof.
  intros HS HG Hn Hu.
  replace (h * G * S - n * G) with ((h * S - n) * G) by ring. rewrite Z.abs_mul, (Z.abs_eq G) by lia.
  destruct Hu as [Hu|[Hhn Hu]]; pose proof (Z.mul_le_mono_nonneg_r _ _ S ltac:(lia) Hu).
  - assert (Z.abs (h * S - n) * G <= (n - (h - 1) * S) * G) by (apply Z.mul_le_mono_nonneg_r; lia). lia.
  - rewrite (Z.abs_neq (h * S - n)) by lia. lia.
Qed.

(** The numbers below [d * 2 ^ m + h]. *)
Lemma units_before m d h y :
  0 <= m -> 0 <= d -> 0 <= y < d * 2 ^ m + h -> h <= 2 ^ (m + 1) -> d = 0 \/ 2 ^ m <= h ->
  units m y <= (h - 1) * 2 ^ d \/ (h = 2 ^ m /\ units m y <= h * 2 ^ d).
Proof.
  intros Hm Hd Hy Hh Hc. pose proof (Z.pow_nonneg 2 d ltac:(lia)).
  destruct (Z.le_gt_cases ((d + 1) * 2 ^ m) y) as [Hj|Hj].
  - left. rewrite <- (Zplus_minus (d * 2 ^ m) y), units_binade by lia. apply Z.mul_le_mono_nonneg_r; lia.
  - destruct Hc as [->|Hc].
    + left. rewrite <- (Z.add_0_l y), <- (Z.mul_0_l (2 ^ m)), units_binade by lia.
      apply Z.mul_le_mono_nonneg_r; lia.
    + pose proof (units_below m Hm d y Hd ltac:(lia)).
      destruct (decide (h = 2 ^ m)) as [->|]; [right; lia|left].
      assert (2 ^ m * 2 ^ d <= (h - 1) * 2 ^ d) by (apply Z.mul_le_mono_nonneg_r; lia). lia.
Qed.

(** What the condition on the first number of the binade says of the scaled
    number. *)
Lemma binade_scaled m N k s :
  0 <= s -> 0 <= k + s -> 2 ^ m <= Z.shiftl N k -> 2 ^ m * 2 ^ s <= N * 2 ^ (k + s).
Proof.
  intros Hs Hks Hc. destruct (Z.le_gt_cases 0 k).
  - rewrite Z.shiftl_mul_pow2 in Hc by lia. rewrite Z.pow_add_r, Z.mul_assoc by lia.
    apply Z.mul_le_mono_nonneg_r; [apply Z.pow_nonneg; lia|done].
  - rewrite <- (Z.opp_involutive k), Z.shiftl_opp_r, Z.shiftr_div_pow2 in Hc by lia.
    assert (HS : 2 ^ s = 2 ^ (- k) * 2 ^ (k + s)) by (rewrite <- Z.pow_add_r by lia; f_equal; lia).
    rewrite HS, Z.mul_assoc. apply Z.mul_le_mono_nonneg_r; [apply Z.pow_nonneg; lia|].
    pose proof (Z.pow_pos_nonneg 2 (- k) ltac:(lia) ltac:(lia)).
    pose proof (Z.mul_div_le N (2 ^ (- k)) ltac:(lia)).
    pose proof (Z.mul_le_mono_nonneg_r _ _ (2 ^ (- k)) ltac:(lia) Hc). lia.
Qed.

(** Rounding in the binade of the exponent [d + 1], or below the normal
    numbers. *)
Lemma half_up_nearest m U N d k :
  0 <= m -> 0 <= d -> U = k + d -> 0 <= half_up N k <= 2 ^ (m + 1) ->
  d = 0 \/ 2 ^ m <= Z.shiftl N k ->
  nearest m U N (d * 2 ^ m + half_up N k).
Proof.
  intros Hm Hd -> Hh Hc y Hy.
  set (s := Z.abs k + Z.abs (k + d)).
  pose proof (half_up_scaled N k s ltac:(lia) ltac:(lia)) as Hn.
  assert (Hlow : d = 0 \/ 2 ^ m <= half_up N k).
  { destruct Hc as [|Hc]; [by left|right]. rewrite (half_up_bit N k (- k) 0) by lia.
    pose proof (stream_range N (- k) 0 1). lia. }
  assert (Hscaled : forall x, distance m (k + d) N x * 2 ^ (s - Z.max 0 (- (k + d))) =
    Z.abs (units m x * 2 ^ s - N * 2 ^ (k + s) * 2 ^ d)).
  { intros x. rewrite distance_scaled by lia. replace (k + d + s) with (k + s + d) by lia.
    by rewrite (Z.pow_add_r 2 (k + s) d), Z.mul_assoc by lia. }
  pose proof (Z.pow_pos_nonneg 2 (s - Z.max 0 (- (k + d))) ltac:(lia) ltac:(lia)) as HW.
  pose proof (Z.pow_pos_nonneg 2 s ltac:(lia) ltac:(lia)) as HS.
  pose proof (Z.pow_pos_nonneg 2 d ltac:(lia) Hd) as HG.
  pose proof (units_binade m Hm d (half_up N k) Hd Hh Hlow) as Hx.
  destruct (Z.lt_trichotomy y (d * 2 ^ m + half_up N k)) as [Hlt|[->|Hlt]]; [|done|].
  - split; [|lia]. apply (Z.mul_le_mono_pos_r _ _ _ HW). rewrite !Hscaled, Hx.
    apply closer_below; [done..|]. rewrite <- (Z.mul_comm (2 ^ m)) in *.
    destruct (units_before m d (half_up N k) y) as [Hu|[Hu1 Hu2]]; [lia..| |]; auto.
    destruct Hc as [Hc|Hc].
    + left. subst d. rewrite <- (Z.add_0_l y), <- (Z.mul_0_l (2 ^ m)), units_binade by lia.
      apply Z.mul_le_mono_nonneg_r; lia.
    + right. split; [|done]. rewrite Hu1. apply binade_scaled; lia.
  - assert (distance m (k + d) N (d * 2 ^ m + half_up N k) < distance m (k + d) N y); [|lia].
    apply (Z.mul_lt_mono_pos_r _ _ _ HW). rewrite !Hscaled, Hx.
    apply closer_above; [done..|]. etrans; [|apply (units_above m Hm d y); lia].
    apply Z.mul_le_mono_nonneg_r; lia.
Qed.

(** ** gen_to_words *)

Definition sign_bit (f : flonum) : Z := if Ascii.eqb (sign f) plus then 0 else 1.

(** The exponent of the format for a number, [exponent_4] of the source, and
    that of the number in units of the smallest denormal one. *)
Definition biased_exponent (f : flonum) (e : Z) : Z := 16 * exponent f + bit_length f + 2 ^ (e - 1) - 2.
Definition unit_exponent (f : flonum) (p : nat) (e : Z) : Z :=
  16 * exponent f + 2 ^ (e - 1) - 2 + (16 * Z.of_nat p - 1 - e).

(** The words of a number of a format, with its sign, that is as near as can be. *)
Definition rounded (f : flonum) (p : nat) (e : Z) (words : list Z) (r : outcome atof_failure (list Z)) : Prop :=
  exists ws x, r = Ret (ws ++ drop p words) /\ length ws = p /\ digits ws /\
    words_value ws = sign_bit f * 2 ^ (16 * Z.of_nat p - 1) + x /\
    0 <= x <= (2 ^ e - 1) * 2 ^ (16 * Z.of_nat p - 1 - e) /\
    nearest (16 * Z.of_nat p - 1 - e) (unit_exponent f p e) (mantissa f) x.

Section gen_to_words.
Context (f : flonum) (Vf : valid f) (Nf : normal f).
Context (Hsmall : Z.abs (exponent f) <= 2 ^ 24 /\ leader f <= 2 ^ 24).
Context (p : nat) (e : Z) (Hp : (1 <= p <= 6)%nat) (He : 2 <= e <= 14).
Context (words : list Z) (Hwords : (p <= length words)%nat).
Local Abbreviation N := (mantissa f).
Local Abbreviation T := (16 * (leader f + 1)).
Local Abbreviation L := (bit_length f).
Local Abbreviation m := (16 * Z.of_nat p - 1 - e).
Local Abbreviation E := (biased_exponent f e).

Lemma sign_bit_range : 0 <= sign_bit f <= 1.
Proof. unfold sign_bit. destruct (Ascii.eqb _ _); lia. Qed.

Lemma gen_to_words_start :
  exists s, at_bit f (T - L + 1) s /\
    gen_to_words f (Z.of_nat p) e words =
      if (E <? 1) && (-62 <=? E) then denormal_words f (Z.of_nat p) e E (sign_bit f * 32768) words s
      else if negb (Z.land E (Z.lnot (Z.ones e)) =? 0) then exponent_overflow f (Z.of_nat p) words
      else normal_words f (Z.of_nat p) e E (sign_bit f * 32768) words s.
Proof.
  pose proof (mantissa_range f Vf Nf) as (HN & HL & HT). destruct Nf as [Hl _].
  assert (HQ : 0 < 2 ^ (e - 1) <= 2 ^ 13) by (split; [apply Z.pow_pos_nonneg|apply Z.pow_le_mono_r]; lia).
  change (2 ^ 13) with 8192 in HQ. change (2 ^ 24) with 16777216 in Hsmall.
  destruct (seek_spec f Vf Nf (S (Z.to_nat (16 * (leader f + 1)))) 0
    {| bits_left_in_littlenum := 16; littlenums_left := 1 + leader f; littlenum_pointer := leader f |})
    as (s & Hs & Hat).
  { right. cbn. lia. }
  { lia. }
  { lia. }
  exists s. split; [done|]. unfold gen_to_words. rewrite (proj2 (Z.ltb_ge _ _)) by lia.
  pose proof (valid_sign _ Vf) as Hsign. unfold is_sign in Hsign.
  assert (Hsg : Ascii.eqb (sign f) Ascii.zero = false /\ Ascii.eqb (sign f) "P" = false /\
    Ascii.eqb (sign f) "N" = false).
  { apply orb_true_iff in Hsign as [->%Ascii.eqb_eq | ->%Ascii.eqb_eq]; done. }
  destruct Hsg as (-> & -> & ->). unfold LITTLENUM_NUMBER_OF_BITS. rewrite Hs. cbn [mbind outcome_bind].
  rewrite (proj2 (Z.ltb_ge (e - 1) 0)) by lia. rewrite Z.shiftl_1_l.
  assert (Hi : forall z, -2 ^ 31 <= z < 2 ^ 31 -> i32 z = z) by (intros; apply sw_id; [lia|by unfold in_sw]).
  change (2 ^ 31) with 2147483648 in Hi. rewrite (Hi (exponent f + leader f + 1)) by lia.
  rewrite (Hi ((exponent f + leader f + 1) * 16)) by lia.
  rewrite (Hi (_ - (T - L))), (Hi (_ + _)) by lia.
  replace ((exponent f + leader f + 1) * 16 - (T - L) + (2 ^ (e - 1) - 2)) with E
    by (unfold biased_exponent; lia).
  unfold mask, sign_bit. by destruct (Ascii.eqb (sign f) plus).
Qed.

Lemma normal_rounded : 1 <= E <= 2 ^ e - 2 -> rounded f p e words (gen_to_words f (Z.of_nat p) e words).
Proof.
  intros HE. pose proof (mantissa_range f Vf Nf) as (HN & HL & _).
  pose proof sign_bit_range. destruct gen_to_words_start as (s & Hs & ->).
  rewrite (proj2 (Z.ltb_ge E 1)) by lia. cbn [andb].
  rewrite <- Z.ldiff_land, Z.ldiff_ones_r_low; [|lia|apply Z.log2_lt_pow2; lia]. cbn [Z.eqb negb].
  destruct (normal_words_spec f Vf Nf p e (sign_bit f) Hp He ltac:(lia) E words s Hs HE Hwords)
    as (ws & -> & Hl & Hd & Hv).
  pose proof (shiftl_length N L (m + 1 - L) HN eq_refl ltac:(lia)) as Hsh.
  replace (m + 1 - L + L - 1) with m in Hsh by lia. replace (m + 1 - L + L) with (m + 1) in Hsh by lia.
  assert (Hh : 2 ^ m <= half_up N (m + 1 - L) <= 2 ^ (m + 1)).
  { rewrite (half_up_bit N (m + 1 - L) (- (m + 1 - L)) 0) by lia.
    pose proof (stream_range N (- (m + 1 - L)) 0 1). lia. }
  assert (HM : 2 ^ (m + 1) = 2 * 2 ^ m) by (rewrite Z.pow_add_r by lia; lia).
  pose proof (Z.pow_pos_nonneg 2 m ltac:(lia) ltac:(lia)).
  exists ws, ((E - 1) * 2 ^ m + half_up N (m + 1 - L)). split_and!; [done..|lia| | |].
  - apply Z.add_nonneg_nonneg; [apply Z.mul_nonneg_nonneg|]; lia.
  - assert ((E + 1) * 2 ^ m <= (2 ^ e - 1) * 2 ^ m) by (apply Z.mul_le_mono_nonneg_r; lia). lia.
  - apply half_up_nearest; [lia|lia|unfold unit_exponent, biased_exponent; lia|lia|right; lia].
Qed.

Lemma denormal_rounded :
  - m <= E <= 0 -> -62 <= E -> 1 < L -> (m + E = 16 -> Z.shiftl N (16 - L) <> 65535) ->
  rounded f p e words (gen_to_words f (Z.of_nat p) e words).
Proof.
  intros HE H62 H1 Hno. pose proof (mantissa_range f Vf Nf) as (HN & HL & _).
  pose proof sign_bit_range. destruct gen_to_words_start as (s & Hs & ->).
  rewrite (proj2 (Z.ltb_lt E 1)), (proj2 (Z.leb_le (-62) E)) by lia. cbn [andb].
  destruct (denormal_words_spec f Vf Nf p e (sign_bit f) Hp He ltac:(lia) E words s Hs H1 HE H62 Hwords Hno)
    as (ws & -> & Hl & Hd & Hv).
  assert (Hh : 0 <= half_up N (m + E - L) <= 2 ^ m).
  { pose proof (half_up_bit N (m + E - L) (- (m + E - L)) 0 ltac:(lia)) as Hh.
    pose proof (stream_range N (- (m + E - L)) 0 1 ltac:(lia)) as Hb. change (2 ^ 1) with 2 in Hb.
    assert (2 ^ (m + E) <= 2 ^ m) by (apply Z.pow_le_mono_r; lia).
    pose proof (denormal_range f Vf Nf p e (sign_bit f) Hp He ltac:(lia) E HE). lia. }
  pose proof (Z.pow_pos_nonneg 2 m ltac:(lia) ltac:(lia)).
  assert (2 ^ m <= (2 ^ e - 1) * 2 ^ m).
  { rewrite <- (Z.mul_1_l (2 ^ m)) at 1. apply Z.mul_le_mono_nonneg_r; [lia|].
    pose proof (Z.pow_le_mono_r 2 1 e). lia. }
  exists ws, (half_up N (m + E - L)). split_and!; [done..|lia|lia|].
  rewrite <- (Z.add_0_l (half_up _ _)), <- (Z.mul_0_l (2 ^ m)).
  assert (2 ^ (m + 1) = 2 * 2 ^ m) by (rewrite Z.pow_add_r by lia; lia).
  apply half_up_nearest; [lia|lia|unfold unit_exponent, biased_exponent; lia|lia|by left].
Qed.
End gen_to_words.

(** C20: gen_to_words rounds: a number of the format, however long its mantissa is, becomes the
    nearest number of the format with [p] words (1 to 6) and [e] bits of exponent (2 to 14), the
    larger of two in the middle, in magnitude, with its sign, in exactly [p] words.  The number
    has an exponent and a leader of at most 2^24 and a biased exponent from minus the bits of
    the mantissa of the format up to its largest.  For denormal numbers more is asked: a biased
    exponent of -62 at least (a smaller one becomes an infinity), a mantissa of more than one bit (a
    single bit is lost), and, when only 16 of its bits are kept, that these are not all ones (their
    carry is lost). *)
Theorem gen_to_words_rounds f (p : nat) e words :
  valid f -> normal f -> Z.abs (exponent f) <= 2 ^ 24 -> leader f <= 2 ^ 24 ->
  (1 <= p <= 6)%nat -> 2 <= e <= 14 -> (p <= length words)%nat ->
  let m := 16 * Z.of_nat p - 1 - e in
  let E := biased_exponent f e in
  - m <= E <= 2 ^ e - 2 ->
  (E <= 0 -> -62 <= E /\ 1 < bit_length f /\
    (m + E = 16 -> Z.shiftl (mantissa f) (16 - bit_length f) <> 65535)) ->
  rounded f p e words (gen_to_words f (Z.of_nat p) e words).
Proof.
  intros Vf Nf Hx Hl Hp He Hw m E HE Hden. destruct (Z.le_gt_cases E 0) as [H0|H0].
  - destruct (Hden H0) as (H62 & H1 & Hno). apply denormal_rounded; try done; lia.
  - apply normal_rounded; try done; lia.
Qed.

(** 3 * 2 ^ -1074, the third denormal number of 64 bits. *)
Definition third_denormal : flonum := mk_flonum [49152; 0; 0; 0] 0 (-68) minus.

Lemma gen_to_words_rounds_witness :
  rounded third_denormal 4 11 [7; 7; 7; 7] (gen_to_words third_denormal 4 11 [7; 7; 7; 7]).
Proof.
  apply (gen_to_words_rounds third_denormal 4 11 [7; 7; 7; 7]).
  - split; [done| |vm_compute; split; congruence]. repeat (constructor; [split; vm_compute; congruence|]). constructor.
  - split; vm_compute; congruence.
  - vm_compute. congruence.
  - vm_compute. congruence.
  - lia.
  - lia.
  - cbn. lia.
  - vm_compute. split; congruence.
  - intros _. split_and!; vm_compute; congruence.
Defined.
