(* ===== verification/DecimalSpec.v ===== *)
(** * Decimal numbers in the formats of IEEE 754

    A decimal number that is an integer and fits the flonum is converted by
    [atof_generic] without an error: the text is scanned as its syntax says,
    the digits and the power of ten are exact and so is their product.  The
    words are then the nearest number of the format.  Other numbers carry the
    errors of the tables of powers; examples show what becomes of them. *)

From Stdlib Require Import ZArith Lia Bool Ascii.
From stdpp Require Import base option numbers strings list.
From S2P Require Import Prelude CInt Flonum Littlenums FlonumSpec Strtoul Atof AtofSpec.

Local Open Scope list_scope.
Local Open Scope Z_scope.

(** ** The syntax of decimal numbers *)

(** The number of the digits of a text, after those of [acc]. *)
Fixpoint number (acc : Z) (s : string) : Z :=
  match s with
  | String c s => number (match digit c with Some d => 10 * acc + d | None => acc end) s
  | EmptyString => acc
  end.

Fixpoint all_digits (s : string) : bool :=
  match s with
  | String c s => match digit c with Some _ => all_digits s | None => false end
  | EmptyString => true
  end.

Fixpoint without_leading_zeros (s : string) : string :=
  match s with
  | String c s' => if Ascii.eqb c "0" then without_leading_zeros s' else s
  | EmptyString => EmptyString
  end.

Fixpoint without_trailing_zeros (s : string) : string :=
  match s with
  | String c s =>
      match without_trailing_zeros s with
      | EmptyString => if Ascii.eqb c "0" then EmptyString else String c EmptyString
      | s => String c s
      end
  | EmptyString => EmptyString
  end.

(** An optional sign, digits, a decimal point with digits, an exponent with its
    mark, sign and digits, and what follows the number. *)
Record decimal := {
  dc_sign : option ascii;
  dc_whole : string;
  dc_fraction : option string;
  dc_exponent : option (ascii * option ascii * string);
  dc_rest : string
}.

Definition letters (c : option ascii) : string :=
  match c with Some c => String c EmptyString | None => EmptyString end.

Definition exponent_text (d : decimal) : string :=
  match dc_exponent d with
  | Some (mark, sgn, ds) => String mark (letters sgn +:+ ds +:+ dc_rest d)
  | None => dc_rest d
  end.

Definition text (d : decimal) : string :=
  letters (dc_sign d) +:+ dc_whole d +:+
  match dc_fraction d with
  | Some fr => String "." (fr +:+ exponent_text d)
  | None => exponent_text d
  end.

Definition opt_sign (c : option ascii) : bool :=
  match c with Some c => is_sign c | None => true end.

(** Neither a digit, nor a mark, nor a sign follows. *)
Definition stops (s : string) : bool :=
  match s with
  | String c _ =>
      negb (is_sign c || is_mark decimal_point c || is_mark md_EXP_CHARS c ||
            match digit c with Some _ => true | None => false end)
  | EmptyString => true
  end.

Definition well_formed (d : decimal) : bool :=
  opt_sign (dc_sign d) && all_digits (dc_whole d) &&
  match dc_fraction d with
  | Some fr => all_digits fr
  | None => negb (String.eqb (dc_whole d) EmptyString)
  end &&
  match dc_exponent d with
  | Some (mark, sgn, ds) =>
      is_mark md_EXP_CHARS mark && opt_sign sgn && all_digits ds && (number 0 ds <? 2 ^ 31)
  | None => true
  end && stops (dc_rest d).

(** The number is [integer d * 10 ^ power d], without the zeros at the end of
    the fraction. *)
Definition fraction_digits (d : decimal) : string := without_trailing_zeros (default EmptyString (dc_fraction d)).

Definition integer (d : decimal) : Z := number 0 (dc_whole d +:+ fraction_digits d).

Definition decimal_exponent_value (d : decimal) : Z :=
  match dc_exponent d with
  | Some (_, sgn, ds) =>
      match sgn with Some c => if Ascii.eqb c minus then - number 0 ds else number 0 ds | None => number 0 ds end
  | None => 0
  end.

Definition power (d : decimal) : Z := decimal_exponent_value d - Z.of_nat (String.length (fraction_digits d)).

Definition digit_count (d : decimal) : Z :=
  Z.of_nat (String.length (without_leading_zeros (dc_whole d)) + String.length (fraction_digits d)).

(** ** Digits *)

Lemma digit_bounds c d : digit c = Some d -> 0 <= d <= 9.
Proof. unfold digit. intros H. case_match eqn:Hc; [|done]. injection H as <-. lia. Qed.

Lemma digit_marks c d :
  digit c = Some d -> is_mark decimal_point c = false /\ is_mark md_EXP_CHARS c = false /\ is_sign c = false.
Proof. destruct c as [[] [] [] [] [] [] [] []]; vm_compute; intros H; first [done|congruence]. Qed.

Lemma digit_zero c d : digit c = Some d -> Ascii.eqb c "0" = (d =? 0).
Proof.
  unfold digit. intros H. case_match; [|done]. injection H as <-.
  destruct (Ascii.eqb_spec c "0") as [->|Hne]; [done|]. symmetry. apply Z.eqb_neq. intros Hz. apply Hne.
  rewrite <- (ascii_nat_embedding c). by replace (nat_of_ascii c) with 48%nat by lia.
Qed.

Lemma string_cons_app c s t : String c s +:+ t = String c (s +:+ t).
Proof. done. Qed.

Lemma number_app acc s t : number acc (s +:+ t) = number (number acc s) t.
Proof. revert acc. induction s as [|c s IH]; intros acc; [done|]. apply IH. Qed.

Lemma number_ge s : forall acc, 0 <= acc -> acc <= number acc s.
Proof.
  induction s as [|c s IH]; intros acc Hacc; cbn [number]; [lia|].
  destruct (digit c) as [d|] eqn:Hd; [|by apply IH]. apply digit_bounds in Hd.
  etrans; [|apply IH]; lia.
Qed.

Lemma number_lt s : all_digits s = true -> forall acc,
  number acc s < (acc + 1) * 10 ^ Z.of_nat (String.length s).
Proof.
  induction s as [|c s IH]; intros Hs acc; cbn [number String.length].
  - change (10 ^ Z.of_nat 0) with 1. lia.
  - cbn [all_digits] in Hs. destruct (digit c) as [d|] eqn:Hd; [|done]. apply digit_bounds in Hd.
    rewrite Nat2Z.inj_succ, Z.pow_succ_r by lia.
    pose proof (Z.pow_pos_nonneg 10 (Z.of_nat (String.length s)) ltac:(lia) ltac:(lia)).
    eapply Z.lt_le_trans; [by apply IH|]. rewrite Z.mul_assoc. apply Z.mul_le_mono_nonneg_r; lia.
Qed.

Lemma all_digits_app s t : all_digits (s +:+ t) = all_digits s && all_digits t.
Proof.
  induction s as [|c s IH]; [done|]. rewrite string_cons_app. cbn [all_digits]. by destruct (digit c).
Qed.

Lemma string_length_app (s t : string) : String.length (s +:+ t) = (String.length s + String.length t)%nat.
Proof. induction s as [|c s IH]; [done|]. rewrite !string_cons_app. cbn. by rewrite IH. Qed.

Lemma string_app_assoc (s t u : string) : (s +:+ t) +:+ u = s +:+ (t +:+ u).
Proof. induction s as [|c s IH]; [done|]. rewrite !string_cons_app. cbn. by rewrite IH. Qed.

Lemma leading_zeros_digits s : all_digits s = true -> all_digits (without_leading_zeros s) = true.
Proof.
  induction s as [|c s IH]; cbn [without_leading_zeros all_digits]; [done|]. destruct (Ascii.eqb c "0").
  - destruct (digit c); [apply IH|discriminate].
  - done.
Qed.

Lemma leading_zeros_number s : number 0 (without_leading_zeros s) = number 0 s.
Proof.
  induction s as [|c s IH]; cbn [without_leading_zeros]; [done|].
  destruct (Ascii.eqb_spec c "0") as [->|]; [|done]. by rewrite IH.
Qed.

(** What is left of a text is not empty but for its zeros, and then not zero. *)
Lemma leading_zeros_positive s :
  all_digits s = true -> without_leading_zeros s <> EmptyString -> 0 < number 0 s.
Proof.
  induction s as [|c s IH]; cbn [without_leading_zeros all_digits number]; [done|]. intros Hs Hne.
  destruct (digit c) as [d|] eqn:Hd; [|done]. pose proof (digit_bounds _ _ Hd).
  apply digit_zero in Hd. rewrite Hd in Hne. destruct (Z.eqb_spec d 0) as [Hz|]; [rewrite Hz; by apply IH|].
  pose proof (number_ge s (10 * 0 + d)). lia.
Qed.

Lemma trailing_zeros_split s :
  exists zs, s = without_trailing_zeros s +:+ zs /\ forall i c, String.get i zs = Some c -> c = "0"%char.
Proof.
  induction s as [|c s (zs & Hs & Hz)].
  - by exists EmptyString.
  - cbn [without_trailing_zeros]. destruct (without_trailing_zeros s) as [|c' s'].
    + destruct (Ascii.eqb_spec c "0") as [->|].
      * exists (String "0" s). split; [done|]. rewrite Hs. intros [|i] c' H; [cbn in H; congruence|].
        by apply (Hz i).
      * exists zs. rewrite string_cons_app. by rewrite Hs at 1.
    + exists zs. split; [|done]. by rewrite Hs at 1.
Qed.

Lemma trailing_zeros_digits s : all_digits s = true -> all_digits (without_trailing_zeros s) = true.
Proof.
  destruct (trailing_zeros_split s) as (zs & Hs & _). rewrite Hs at 1. rewrite all_digits_app.
  by intros [H _]%andb_true_iff.
Qed.

Lemma trailing_zeros_positive s acc :
  all_digits s = true -> 0 <= acc -> without_trailing_zeros s <> EmptyString ->
  0 < number acc (without_trailing_zeros s).
Proof.
  revert acc. induction s as [|c s IH]; intros acc Hs Hacc; cbn [without_trailing_zeros all_digits] in *; [done|].
  destruct (digit c) as [d|] eqn:Hd; [|done]. pose proof (digit_bounds _ _ Hd).
  destruct (without_trailing_zeros s) as [|c' s'] eqn:Hw.
  - rewrite (digit_zero _ _ Hd). destruct (Z.eqb_spec d 0); [done|]. intros _. cbn [number]. rewrite Hd. lia.
  - intros _. cbn [number]. rewrite Hd. apply IH; [done|lia|done].
Qed.

(** ** The scan of a decimal number *)

Definition no_digit (s : string) : Prop :=
  match s with String c _ => digit c = None | EmptyString => True end.

Definition nonempty (s : string) : bool := match s with EmptyString => false | _ => true end.

Lemma digits_before_seen s : forall t first n,
  all_digits s = true -> no_digit t ->
  digits_before decimal_point md_EXP_CHARS (s +:+ t) first n true =
    (t, first, n + Z.of_nat (String.length s), true).
Proof.
  induction s as [|c s IH]; intros t first n Hs Ht.
  - change (EmptyString +:+ t) with t. cbn [String.length]. rewrite Z.add_0_r.
    destruct t as [|c t]; [done|]. cbn [digits_before]. cbn in Ht. rewrite Ht. by destruct (_ || _).
  - rewrite string_cons_app. cbn [digits_before all_digits] in *. destruct (digit c) as [d|] eqn:Hd; [|done].
    destruct (digit_marks _ _ Hd) as (-> & -> & _). cbn [orb]. rewrite IH by done. cbn [String.length].
    do 2 f_equal. lia.
Qed.

Lemma digits_before_spec s t :
  all_digits s = true -> no_digit t ->
  digits_before decimal_point md_EXP_CHARS (s +:+ t) (s +:+ t) 0 false =
    (t, without_leading_zeros s +:+ t, Z.of_nat (String.length (without_leading_zeros s)),
     nonempty (without_leading_zeros s)).
Proof.
  induction s as [|c s IH]; intros Hs Ht.
  - change (EmptyString +:+ t) with t. destruct t as [|c t]; [done|]. cbn [digits_before without_leading_zeros].
    cbn in Ht. rewrite Ht. by destruct (_ || _).
  - pose proof Hs as Hs'. rewrite !string_cons_app. cbn [digits_before all_digits without_leading_zeros] in *.
    destruct (digit c) as [d|] eqn:Hd; [|done]. pose proof (digit_bounds _ _ Hd).
    destruct (digit_marks _ _ Hd) as (-> & -> & _). cbn [orb]. rewrite (digit_zero _ _ Hd).
    destruct (Z.eqb_spec d 0) as [Hz|].
    + rewrite Hz. cbn [Z.ltb Z.compare tail]. by apply IH.
    + rewrite (proj2 (Z.ltb_lt 0 d)) by lia. rewrite digits_before_seen by done. cbn [String.length nonempty].
      rewrite string_cons_app. do 2 f_equal. lia.
Qed.

Lemma digits_after_spec s : forall t n seen,
  all_digits s = true -> no_digit t ->
  exists k, digits_after md_EXP_CHARS (s +:+ t) n seen = (t, k) /\
    (k = n + Z.of_nat (String.length s) \/ (k = 0 /\ seen = false /\ without_trailing_zeros s = EmptyString)).
Proof.
  induction s as [|c s IH]; intros t n seen Hs Ht.
  - change (EmptyString +:+ t) with t. cbn [String.length]. rewrite Z.add_0_r.
    destruct t as [|c t]; cbn [digits_after]; [eauto|]. cbn in Ht. rewrite Ht. destruct (is_mark _ _); [eauto|].
    destruct seen; eauto 6.
  - rewrite string_cons_app. cbn [digits_after all_digits without_trailing_zeros] in *.
    destruct (digit c) as [d|] eqn:Hd; [|done]. destruct (digit_marks _ _ Hd) as (_ & -> & _).
    destruct (IH t (n + 1) (seen || (0 <? d)) Hs Ht) as (k & -> & Hk). exists k. split; [done|].
    destruct Hk as [->|(-> & [-> H0]%orb_false_iff & Hw)]; [left; cbn [String.length]; lia|right].
    pose proof (digit_bounds _ _ Hd). rewrite Hw, (digit_zero _ _ Hd).
    apply Z.ltb_ge in H0. by rewrite (proj2 (Z.eqb_eq d 0)) by lia.
Qed.

Lemma char_at_app s t i : (String.length s <= i)%nat -> char_at (s +:+ t) i = char_at t (i - String.length s).
Proof.
  revert i. induction s as [|c s IH]; intros i Hi.
  - change (EmptyString +:+ t) with t. cbn [String.length]. by rewrite Nat.sub_0_r.
  - rewrite string_cons_app. cbn [String.length] in *. destruct i as [|i]; [lia|]. apply IH. lia.
Qed.

Lemma char_at_app_l s t i : (i < String.length s)%nat -> char_at (s +:+ t) i = char_at s i.
Proof.
  revert i. induction s as [|c s IH]; intros i Hi; cbn [String.length] in *; [lia|].
  rewrite string_cons_app. destruct i as [|i]; [done|]. apply IH. lia.
Qed.

Lemma trailing_zeros_last s n :
  String.length (without_trailing_zeros s) = S n -> char_at (without_trailing_zeros s) n <> "0"%char.
Proof.
  revert n. induction s as [|c s IH]; intros n Hn; cbn [without_trailing_zeros] in *; [done|].
  destruct (without_trailing_zeros s) as [|c' s'].
  - destruct (Ascii.eqb_spec c "0") as [->|Hc]; [done|]. cbn in Hn. by replace n with 0%nat by lia.
  - destruct n as [|n]; [done|]. apply (IH n). cbn [String.length] in *. lia.
Qed.

Lemma drop_zeros_spec whole s t :
  let first := whole +:+ String "." (s +:+ t) in
  drop_zeros first (Z.of_nat (String.length whole)) (String.length s) = String.length (without_trailing_zeros s).
Proof.
  intros first. destruct (trailing_zeros_split s) as (zs & Hs & Hz). set (q := without_trailing_zeros s) in *.
  assert (Hat : forall i, char_at first (Z.to_nat (Z.of_nat (String.length whole)) + S i) = char_at (s +:+ t) i).
  { intros i. rewrite Nat2Z.id. unfold first. rewrite char_at_app by lia.
    by replace (String.length whole + S i - String.length whole)%nat with (S i) by lia. }
  assert (Hlen : String.length s = (String.length q + String.length zs)%nat) by (rewrite Hs; apply string_length_app).
  enough (Hj : forall j, (j <= String.length zs)%nat ->
    drop_zeros first (Z.of_nat (String.length whole)) (String.length q + j) = String.length q).
  { rewrite Hlen. by apply Hj. }
  induction j as [|j IH]; intros Hj.
  - rewrite Nat.add_0_r. destruct (String.length q) as [|n] eqn:Hq; [done|]. cbn [drop_zeros].
    rewrite Hat, char_at_app_l, Hs, char_at_app_l by lia.
    pose proof (trailing_zeros_last s n Hq) as Hne. fold q in Hne. by rewrite (proj2 (Ascii.eqb_neq _ _) Hne).
  - rewrite Nat.add_succ_r. cbn [drop_zeros]. rewrite Hat, char_at_app_l, Hs, char_at_app by lia.
    replace (String.length q + j - String.length q)%nat with j by lia. unfold char_at.
    destruct (String.get j zs) as [c|] eqn:Hc.
    + apply Hz in Hc as ->. cbn [default]. apply IH. lia.
    + exfalso. clear -Hj Hc. revert j Hj Hc. induction zs as [|c zs IH]; cbn [String.length]; intros j Hj; [lia|].
      destruct j; cbn [String.get]; [done|]. apply IH. lia.
Qed.

Lemma exponent_digits_spec s : forall t e,
  all_digits s = true -> no_digit t -> 0 <= e -> number e s < 2 ^ 31 ->
  exponent_digits (s +:+ t) e = (t, number e s).
Proof.
  induction s as [|c s IH]; intros t e Hs Ht He Hn.
  - change (EmptyString +:+ t) with t. destruct t as [|c t]; [done|]. cbn [exponent_digits]. cbn in Ht. by rewrite Ht.
  - rewrite string_cons_app. cbn [exponent_digits all_digits number] in *. destruct (digit c) as [d|] eqn:Hd; [|done].
    pose proof (digit_bounds _ _ Hd). pose proof (number_ge s (10 * e + d) ltac:(lia)).
    replace (i32 (e * 10 + d)) with (10 * e + d); [by apply IH; try lia|].
    change (2 ^ 31) with 2147483648 in Hn. rewrite sw_id; [lia|lia|].
    unfold in_sw. change (2 ^ (32 - 1)) with 2147483648. lia.
Qed.

Lemma stops_spec s : stops s = true ->
  no_digit s /\ is_mark decimal_point (char_at s 0) = false /\ is_mark md_EXP_CHARS (char_at s 0) = false /\
  is_sign (char_at s 0) = false.
Proof.
  destruct s as [|c s]; [done|]. unfold stops. intros [[[Hs Hp]%orb_false_iff He]%orb_false_iff Hd]%negb_true_iff%orb_false_iff.
  cbn. destruct (digit c); done.
Qed.

Lemma mark_no_digit c :
  is_mark decimal_point c = true \/ is_mark md_EXP_CHARS c = true -> digit c = None.
Proof.
  intros H. destruct (digit c) as [d|] eqn:Hd; [|done]. destruct (digit_marks _ _ Hd) as (H1 & H2 & _).
  rewrite H1, H2 in H. by destruct H.
Qed.

Section scan.
Context (d : decimal) (Wf : well_formed d = true).

Lemma well_formed_parts :
  opt_sign (dc_sign d) = true /\ all_digits (dc_whole d) = true /\
  all_digits (default EmptyString (dc_fraction d)) = true /\
  (dc_fraction d = None -> dc_whole d <> EmptyString) /\
  match dc_exponent d with
  | Some (mark, sgn, ds) =>
      is_mark md_EXP_CHARS mark = true /\ opt_sign sgn = true /\ all_digits ds = true /\ number 0 ds < 2 ^ 31
  | None => True
  end /\ stops (dc_rest d) = true.
Proof.
  pose proof Wf as H. unfold well_formed in H.
  apply andb_true_iff in H as [H Hr]. apply andb_true_iff in H as [H He].
  apply andb_true_iff in H as [H Hf]. apply andb_true_iff in H as [Hs Hw].
  split_and!; [done|done| | | |done].
  - by destruct (dc_fraction d).
  - intros Hn. rewrite Hn in Hf. by destruct (String.eqb_spec (dc_whole d) EmptyString).
  - destruct (dc_exponent d) as [[[mark sgn] ds]|]; [|done].
    apply andb_true_iff in He as [He Hlt]. apply andb_true_iff in He as [He Hd].
    apply andb_true_iff in He as [Hm Hg]. apply Z.ltb_lt in Hlt. done.
Qed.

Lemma exponent_text_spec :
  no_digit (exponent_text d) /\ is_mark decimal_point (char_at (exponent_text d) 0) = false /\
  decimal_exponent md_EXP_CHARS (exponent_text d) = (dc_rest d, decimal_exponent_value d).
Proof.
  destruct well_formed_parts as (_ & _ & _ & _ & He & Hr). unfold exponent_text, decimal_exponent_value.
  apply stops_spec in Hr as (Hrd & Hrp & Hre & Hrs).
  destruct (dc_exponent d) as [[[mark sgn] ds]|].
  - destruct He as (Hm & Hg & Hd & Hlt). split_and!.
    + cbn. apply mark_no_digit. by right.
    + cbn [char_at]. unfold is_mark, md_EXP_CHARS in Hm. cbn in Hm |- *.
      apply orb_true_iff in Hm as [->%Ascii.eqb_eq|Hm]; [done|]. by apply orb_true_iff in Hm as [->%Ascii.eqb_eq|].
    + cbn [decimal_exponent]. rewrite Hm. pose proof (number_ge ds 0 ltac:(lia)) as Hge.
      assert (Hneg : i32 (- number 0 ds) = - number 0 ds).
      { change (2 ^ 31) with 2147483648 in Hlt. rewrite sw_id; [done|lia|].
        unfold in_sw. change (2 ^ (32 - 1)) with 2147483648. lia. }
      destruct sgn as [c|]; cbn [letters opt_sign] in *.
      * rewrite string_cons_app. change (EmptyString +:+ (ds +:+ dc_rest d)) with (ds +:+ dc_rest d).
        change (char_at (String c (ds +:+ dc_rest d)) 0) with c. unfold is_sign in Hg. rewrite orb_comm, Hg. cbn [tail].
        rewrite exponent_digits_spec by (done || lia). by rewrite Hneg.
      * change (EmptyString +:+ (ds +:+ dc_rest d)) with (ds +:+ dc_rest d).
        assert (Hc : is_sign (char_at (ds +:+ dc_rest d) 0) = false).
        { destruct ds as [|c ds]; [done|]. rewrite string_cons_app. cbn [all_digits] in Hd.
          destruct (digit c) eqn:Hdc; [|done]. by apply digit_marks in Hdc as (_ & _ & ?). }
        unfold is_sign in Hc. rewrite orb_comm, Hc. apply orb_false_iff in Hc as [-> _].
        by rewrite exponent_digits_spec by (done || lia).
  - split_and!; [done|done|]. unfold decimal_exponent. destruct (dc_rest d) as [|c s]; [done|].
    change (is_mark md_EXP_CHARS c = false) in Hre. by rewrite Hre.
Qed.

(** The digits that are read, from the first that is not a leading zero of the
    number before the decimal point. *)
Definition read_text : string :=
  without_leading_zeros (dc_whole d) +:+
  match dc_fraction d with Some _ => String "." (fraction_digits d) | None => EmptyString end.

Lemma scan_spec :
  let sc := scan decimal_point md_EXP_CHARS (dc_whole d +:+
    match dc_fraction d with
    | Some fr => String "." (fr +:+ exponent_text d)
    | None => exponent_text d
    end) in
  exists more,
    sc_first_digit sc = read_text +:+ more /\ sc_before sc + sc_after sc = digit_count d /\
    sc_before sc - (sc_before sc + sc_after sc) + sc_exponent sc = power d /\
    sc_rest sc = dc_rest d.
Proof.
  destruct well_formed_parts as (_ & Hw & Hf & _ & _ & _). destruct exponent_text_spec as (Hnd & Hp & He).
  unfold scan, read_text, power, digit_count, fraction_digits. destruct (dc_fraction d) as [fr|]; cbn [default].
  - change (id fr) with fr in *. rewrite digits_before_spec by done.
    change (is_mark decimal_point (char_at (String "." (fr +:+ exponent_text d)) 0)) with true. cbn [tail].
    destruct (digits_after_spec fr (exponent_text d) 0 (nonempty (without_leading_zeros (dc_whole d))) Hf Hnd)
      as (k & -> & Hk). rewrite He.
    assert (Hdz : drop_zeros (without_leading_zeros (dc_whole d) +:+ String "." (fr +:+ exponent_text d))
      (Z.of_nat (String.length (without_leading_zeros (dc_whole d)))) (Z.to_nat k) =
      String.length (without_trailing_zeros fr)).
    { destruct Hk as [->|(-> & _ & ->)]; [|done]. rewrite Z.add_0_l, Nat2Z.id. apply drop_zeros_spec. }
    rewrite Hdz. destruct (trailing_zeros_split fr) as (zs & Hs & _).
    exists (zs +:+ exponent_text d). cbn [sc_first_digit sc_before sc_after sc_exponent sc_rest]. split_and!; [|lia|lia|done].
    rewrite Hs at 1. by rewrite !string_app_assoc, !string_cons_app.
  - rewrite digits_before_spec, Hp, He by done. cbn [Z.to_nat drop_zeros].
    exists (exponent_text d). cbn [sc_first_digit sc_before sc_after sc_exponent sc_rest].
    change (String.length (without_trailing_zeros EmptyString)) with 0%nat.
    change (drop_zeros _ _ (Z.to_nat 0)) with 0%nat. split_and!; [by rewrite string_app_assoc|lia|lia|done].
Qed.

Lemma digit_first s : 
  (exists c, char_at s 0 = c /\ (c = "."%char \/ digit c <> None)) -> nan s = None /\ inf s = None /\
  (Ascii.eqb (char_at s 0) minus || Ascii.eqb (char_at s 0) plus) = false.
Proof.
  intros (c & Hc & H). unfold nan, inf. rewrite Hc. clear Hc.
  destruct c as [[] [] [] [] [] [] [] []]; first [by split_and!|exfalso; destruct H as [H|H]; [discriminate|by apply H]].
Qed.
End scan.

(** ** The littlenums of the digits *)

Lemma times_ten_spec l : forall carry,
  digits l -> 0 <= carry <= 9 ->
  exists l' c, times_ten l carry = (l', c) /\ length l' = length l /\ digits l' /\ 0 <= c <= 9 /\
    digits_value l' + R ^ Z.of_nat (length l) * c = 10 * digits_value l + carry.
Proof.
  induction l as [|x l IH]; intros carry Hd Hc; cbn [times_ten].
  - exists [], carry. cbn. split_and!; try done; lia.
  - apply Forall_cons in Hd as [Hx Hd]. unfold in_uw in Hx. change (2 ^ 16) with 65536 in Hx.
    rewrite (sw_id 32 (10 * x)) by (unfold in_sw; change (2 ^ (32 - 1)) with 2147483648; lia).
    rewrite (sw_id 32 (carry + 10 * x)) by (unfold in_sw; change (2 ^ (32 - 1)) with 2147483648; lia).
    cbv zeta. rewrite land_mask, shiftr_littlenum. set (w := carry + 10 * x).
    pose proof (Z.div_mod w R ltac:(lia)) as Hdm. pose proof (Z.mod_pos_bound w R ltac:(lia)) as Hb.
    destruct (IH (w / R) Hd) as (l' & c & -> & Hl & Hd' & Hc' & Hv).
    { split; [apply Z.div_pos; unfold w; lia|]. assert (w / R < 10); [apply Z.div_lt_upper_bound; unfold w; lia|lia]. }
    exists (w mod R :: l'), c. cbn [length digits_value]. split_and!; [done|lia| |lia|lia|].
    + constructor; [unfold in_uw; change (2 ^ 16) with R; lia|done].
    + rewrite Nat2Z.inj_succ, Z.pow_succ_r by lia. unfold w in *. lia.
Qed.

Fixpoint count_digits (s : string) : nat :=
  match s with
  | String c s => match digit c with Some _ => S (count_digits s) | None => count_digits s end
  | EmptyString => O
  end.

Lemma read_digits_spec s : forall more l,
  digits l -> (digits_value l + 1) * 10 ^ Z.of_nat (count_digits s) <= R ^ Z.of_nat (length l) ->
  exists l', read_digits (s +:+ more) (count_digits s) l = Ret l' /\ length l' = length l /\ digits l' /\
    digits_value l' = number (digits_value l) s.
Proof.
  induction s as [|c s IH]; intros more l Hd Hv.
  - cbn [count_digits number]. exists l. by destruct more.
  - rewrite string_cons_app. cbn [count_digits number] in *. destruct (digit c) as [d|] eqn:Hdc.
    + apply digit_bounds in Hdc as Hd9. cbn [read_digits]. rewrite Hdc.
      rewrite Nat2Z.inj_succ, Z.pow_succ_r in Hv by lia.
      destruct (times_ten_spec l d Hd ltac:(lia)) as (l' & carry & Ht & Hl' & Hd' & Hc & Hv').
      pose proof (digits_value_range l Hd). pose proof (digits_value_range l' Hd') as Hr.
      pose proof (Z.pow_pos_nonneg 10 (Z.of_nat (count_digits s)) ltac:(lia) ltac:(lia)) as HP.
      set (P := 10 ^ Z.of_nat (count_digits s)) in *.
      assert (Hv1 : (10 * digits_value l + 10) * P <= R ^ Z.of_nat (length l)) by lia.
      assert (10 * digits_value l + d + 1 <= R ^ Z.of_nat (length l)).
      { etrans; [|exact Hv1]. etrans; [|apply Z.le_mul_diag_r; lia]. lia. }
      assert (carry = 0) as Hc0 by nia. rewrite Ht, Hc0. cbn [Z.eqb].
      rewrite Hc0, Z.mul_0_r, Z.add_0_r in Hv'.
      destruct (IH more l' Hd') as (l'' & -> & Hl'' & Hd'' & Hv'').
      { rewrite Hl', Hv'. etrans; [|exact Hv1]. apply Z.mul_le_mono_nonneg_r; lia. }
      exists l''. rewrite Hv'', Hv'. split_and!; [done|lia|done|done].
    + destruct (IH more l Hd Hv) as (l' & Hr & ?). exists l'. split; [|done].
      destruct (count_digits s); [by destruct more, s|]. cbn [read_digits]. by rewrite Hdc.
Qed.

Lemma significant_littlenums_spec l size :
  digits l -> (1 <= size <= length l)%nat ->
  let n := significant_littlenums l size in
  (1 <= n <= size)%nat /\ digits_value (take n l) = digits_value (take size l) /\
  (0 < digits_value (take size l) -> nth (n - 1) l 0 <> 0).
Proof.
  intros Hd. induction size as [|size IH]; intros Hs; [lia|]. cbn [significant_littlenums].
  destruct size as [|k].
  - cbn. split_and!; [lia|lia|done|]. destruct l as [|x l]; [cbn in Hs; lia|]. cbn. rewrite take_0. cbn. lia.
  - destruct (Z.eqb_spec (nth (S k) l 0) 0) as [Hz|Hz].
    + destruct IH as (H1 & H2 & H3); [lia|].
      assert (Ht : digits_value (take (S (S k)) l) = digits_value (take (S k) l)).
      { destruct (lookup_lt_is_Some_2 l (S k) ltac:(lia)) as [x Hx].
        rewrite (take_S_r _ _ _ Hx), digits_value_snoc. rewrite nth_lookup, Hx in Hz. cbn in Hz. subst x. lia. }
      rewrite Ht. split_and!; [lia|lia|done|done].
    + split_and!; [lia|lia|done|]. intros _. by replace (S (S k) - 1)%nat with (S k) by lia.
Qed.

(** ** The power of ten *)

(** A power of ten without an error, with littlenums that cannot make a column
    overflow. *)
Definition exact_power (p : nat) (x : Z) (f : flonum) : bool :=
  Ascii.eqb (sign f) plus && (0 <=? leader f) && (leader f <=? high f) &&
  (length (low f) =? p)%nat && forallb (fun d => (0 <=? d) && (d <? 65536)) (low f) &&
  negb (littlenum f (leader f) =? 0) && (0 <=? exponent f) && (exponent f <=? 8) &&
  (mantissa f * R ^ exponent f =? 10 ^ x) &&
  ((leader f =? 0) || forallb (fun d => d <=? 65000) (low f)).

Ltac each_power := repeat (apply Forall_cons; split;
  [eexists; split; [vm_compute; reflexivity|vm_compute; reflexivity]|]); apply Forall_nil; exact I.

Lemma power_exact_float h g0 g1 g2 g3 :
  Forall (fun x => exists f, power_of_10 h [g0; g1; g2; g3] 4 x = Ret (true, f) /\ exact_power 4 x f = true)
    (seqZ 0 20).
Proof. destruct h; cbn [seqZ seq fmap list_fmap Z.to_nat Pos.to_nat]; each_power. Qed.

Lemma power_exact_double h g0 g1 g2 g3 g4 g5 :
  Forall (fun x => exists f, power_of_10 h [g0; g1; g2; g3; g4; g5] 6 x = Ret (true, f) /\ exact_power 6 x f = true)
    (seqZ 0 29).
Proof. destruct h; cbn [seqZ seq fmap list_fmap Z.to_nat Pos.to_nat]; each_power. Qed.

Record power_facts (p : nat) (x : Z) (f : flonum) : Prop := {
  pf_valid : valid f;
  pf_normal : normal f;
  pf_sign : sign f = plus;
  pf_value : mantissa f * R ^ exponent f = 10 ^ x;
  pf_exponent : 0 <= exponent f <= 8;
  pf_small : leader f = 0 \/ Forall (fun d => d <= 65000) (low f)
}.

Lemma exact_power_facts p x f : exact_power p x f = true -> power_facts p x f.
Proof.
  unfold exact_power. rewrite !andb_true_iff, !Z.leb_le, orb_true_iff, Ascii.eqb_eq, !Z.eqb_eq.
  intros (((((((((Hs & Hl) & Hh) & Hlen) & Hd) & Hn) & He) & He8) & Hv) & Hsm).
  assert (Hdig : digits (low f)).
  { apply Forall_forall. intros d Hin. rewrite forallb_forall in Hd. apply list_elem_of_In in Hin. apply Hd in Hin.
    unfold in_uw. change (2 ^ 16) with 65536. lia. }
  split; [split| | | | |]; try done.
  - by rewrite Hs.
  - lia.
  - split; [done|]. by apply negb_true_iff, Z.eqb_neq in Hn.
  - destruct Hsm as [|Hsm]; [by left|right]. apply Forall_forall. intros d Hin.
    rewrite forallb_forall in Hsm. apply list_elem_of_In in Hin. apply Hsm in Hin. lia.
Qed.

(** As many littlenums as the formats of 32 and 64 bits leave room for. *)
Lemma power_exact h garbage (p : nat) x :
  p = 4%nat \/ p = 6%nat -> length garbage = p -> 0 <= x -> 10 ^ x < R ^ Z.of_nat p ->
  exists f, power_of_10 h garbage (Z.of_nat p) x = Ret (true, f) /\ power_facts p x f.
Proof.
  intros Hp Hg Hx Hlt.
  assert (Hbound : forall n k, 0 <= k -> R ^ n <= 10 ^ k -> 10 ^ x < R ^ n -> x < k).
  { intros n k Hk H1 H2. apply (Z.pow_lt_mono_r_iff 10); lia. }
  enough (exists f, power_of_10 h garbage (Z.of_nat p) x = Ret (true, f) /\ exact_power p x f = true) as (f & Hf & He).
  { exists f. split; [done|]. by apply exact_power_facts. }
  destruct Hp as [-> | ->].
  - assert (x < 20) by (apply (Hbound 4); [lia|vm_compute; congruence|exact Hlt]).
    destruct garbage as [|g0 [|g1 [|g2 [|g3 [|]]]]]; try discriminate Hg.
    apply (proj1 (Forall_forall _ _) (power_exact_float h g0 g1 g2 g3)), elem_of_seqZ. lia.
  - assert (x < 29) by (apply (Hbound 6); [lia|vm_compute; congruence|exact Hlt]).
    destruct garbage as [|g0 [|g1 [|g2 [|g3 [|g4 [|g5 [|]]]]]]]; try discriminate Hg.
    apply (proj1 (Forall_forall _ _) (power_exact_double h g0 g1 g2 g3 g4 g5)), elem_of_seqZ. lia.
Qed.

(** ** The digits and the power multiplied *)

Lemma digits_zeros k : digits (replicate k 0) /\ digits_value (replicate k 0) = 0.
Proof.
  assert (Hd : digits (replicate k 0)) by (apply Forall_replicate; unfold in_uw; change (2 ^ 16) with 65536; lia).
  split; [done|]. apply digits_value_zeros; [done|]. by apply Forall_replicate.
Qed.

Lemma enough_littlenums n :
  0 <= n <= 21 -> 10 ^ n <= R ^ Z.of_nat (Z.to_nat (more_than_enough_littlenums_for_digits n)).
Proof.
  intros Hn. assert (HF : Forall (fun n =>
      (10 ^ n <=? R ^ Z.of_nat (Z.to_nat (more_than_enough_littlenums_for_digits n))) = true)
    (seqZ 0 22)).
  { cbn [seqZ seq fmap list_fmap Z.to_nat Pos.to_nat]. repeat (apply Forall_cons; split; [vm_compute; reflexivity|]).
    by apply Forall_nil. }
  apply Z.leb_le. apply (proj1 (Forall_forall _ _) HF), elem_of_seqZ. lia.
Qed.

Lemma some_littlenums n : 0 <= n -> (1 <= Z.to_nat (more_than_enough_littlenums_for_digits n))%nat.
Proof.
  intros Hn. unfold more_than_enough_littlenums_for_digits, LITTLENUM_NUMBER_OF_BITS.
  assert (0 <= (n * LOG_TO_BASE_2_OF_10 / 10 ^ 40 + 1) / 16); [|lia].
  apply Z.div_pos; [|lia]. apply Z.add_nonneg_nonneg; [|lia].
  apply Z.div_pos; [|by apply Z.pow_pos_nonneg]. by apply Z.mul_nonneg_nonneg.
Qed.

(** A product that fits the array is exact. *)
Lemma multip_exact a b product :
  valid a -> valid b -> normal a -> normal b -> digits (low product) -> no_overflow a b ->
  sign a = plus -> sign b = plus -> 0 <= exponent a <= 8 -> exponent b = 0 ->
  (length (low product) <= 6)%nat ->
  mantissa a * mantissa b < R ^ Z.of_nat (length (low product)) ->
  exists r, flonum_multip a b product = Some r /\ valid r /\ normal r /\
    length (low r) = length (low product) /\ 0 <= exponent r <= 14 /\
    mantissa r * R ^ exponent r = mantissa a * mantissa b * R ^ exponent a.
Proof.
  intros Va Vb Na Nb Hd Hno Sa Sb Ea Eb Hlen Hlt.
  destruct (normal_mantissa a Va Na) as [Ha Hma]. destruct (normal_mantissa b Vb Nb) as [Hb Hmb].
  pose proof (Z.pow_pos_nonneg R (leader a) ltac:(lia) Ha). pose proof (Z.pow_pos_nonneg R (leader b) ltac:(lia) Hb).
  assert (HT : R ^ (leader a + leader b) <= mantissa a * mantissa b).
  { rewrite Z.pow_add_r by lia. apply Z.mul_le_mono_nonneg; lia. }
  assert (Hfit : leader a + leader b < Z.of_nat (length (low product))).
  { apply (Z.pow_lt_mono_r_iff R); lia. }
  destruct (multip_product a b product Va Vb Hd Hno) as (r & D & Hr & Vr & _ & Hl & Hm & He & Hx & Hn).
  { right. left. unfold extra0. lia. }
  assert (Nr : normal r) by (apply Hn; [done|done|intros E; rewrite E in Hfit; cbn in Hfit; lia]).
  destruct (normal_mantissa r Vr Nr) as [Hlr Hmr]. rewrite Hm in Hmr.
  assert (HD : 0 < R ^ Z.of_nat D) by (apply Z.pow_pos_nonneg; lia).
  assert (HDT : R ^ (leader r + Z.of_nat D) <= mantissa a * mantissa b).
  { rewrite Z.pow_add_r by lia. pose proof (Z.mul_div_le (mantissa a * mantissa b) (R ^ Z.of_nat D) HD). nia. }
  assert (HlD : leader r + Z.of_nat D < Z.of_nat (length (low product))).
  { apply (Z.pow_lt_mono_r_iff R); lia. }
  assert (Hexact : mantissa a * mantissa b mod R ^ Z.of_nat D = 0).
  { destruct Hx as [Hx|[Hx _]]; [done|]. unfold high in Hx. rewrite Hl in Hx.
    replace (Z.of_nat D) with 0 by lia. apply Z.mod_1_r. }
  assert (He' : exponent r = exponent a + Z.of_nat D).
  { rewrite He, Eb, Z.add_0_r. apply sw_id; [lia|]. unfold in_sw. change (2 ^ (32 - 1)) with 2147483648. lia. }
  exists r. split_and!; [done|done|done|done|lia|lia|].
  rewrite Hm, He', Z.pow_add_r by lia.
  pose proof (Z.div_mod (mantissa a * mantissa b) (R ^ Z.of_nat D) ltac:(lia)) as Hdm. rewrite Hexact in Hdm.
  rewrite Hdm at 2. ring.
Qed.

Lemma small_no_overflow a b :
  valid a -> valid b -> leader a <= 5 ->
  leader a = 0 \/ Forall (fun d => d <= 65000) (low a) -> no_overflow a b.
Proof.
  intros Va Vb Hla Hsm. destruct Hsm as [H0|Hsm]; [apply no_overflow_short; [done|done|lia]|].
  intros i j Hi Hj. unfold littlenum.
  pose proof (digit_range (low a) (Z.to_nat i) (valid_low _ Va)) as Da.
  pose proof (digit_range (low b) (Z.to_nat j) (valid_low _ Vb)) as Db.
  unfold Littlenums.digit, in_uw in *. change (2 ^ 16) with 65536 in *. change (2 ^ 32) with 4294967296.
  assert (nth (Z.to_nat i) (low a) 0 <= 65000) 
    by (apply (proj1 (Forall_nth _ 0 _) Hsm); pose proof (valid_leader _ Va); unfold high in *; lia).
  nia.
Qed.

(** The flonum of the digits, from the littlenums they are read into. *)
Definition digits_flonum (l : list Z) : flonum :=
  let k := significant_littlenums l (length l) in mk_flonum (take k l) (Z.of_nat k - 1) 0 plus.

Lemma digits_flonum_spec s more n :
  Z.of_nat (count_digits s) = n -> 0 < n <= 21 -> 0 < number 0 s ->
  exists l, read_digits (s +:+ more) (Z.to_nat n)
      (replicate (Z.to_nat (more_than_enough_littlenums_for_digits n)) 0) = Ret l /\
    valid (digits_flonum l) /\ normal (digits_flonum l) /\ mantissa (digits_flonum l) = number 0 s.
Proof.
  intros Hc Hn HV.
  destruct (digits_zeros (Z.to_nat (more_than_enough_littlenums_for_digits n))) as [Hz Hz0].
  pose proof (enough_littlenums n ltac:(lia)) as Henough.
  pose proof (some_littlenums n ltac:(lia)) as Hsize.
  set (size := Z.to_nat (more_than_enough_littlenums_for_digits n)) in *.
  destruct (read_digits_spec s more (replicate size 0) Hz) as (l & Hrd & Hll & Hdl & Hvl).
  { rewrite Hz0, length_replicate, Hc. by rewrite Z.mul_1_l. }
  replace (count_digits s) with (Z.to_nat n) in Hrd by lia.
  rewrite length_replicate in Hll. rewrite Hz0 in Hvl. exists l. split; [done|]. unfold digits_flonum.
  destruct (significant_littlenums_spec l (length l) Hdl ltac:(lia)) as (Hk & Hkv & Hkn).
  rewrite (take_ge l (length l)) in Hkv, Hkn by lia. set (k := significant_littlenums l (length l)) in *.
  split_and!.
  - split; [done|by apply digits_take|]. unfold high. cbn [low leader]. rewrite length_take. lia.
  - split; [cbn; lia|]. unfold littlenum. cbn [low leader]. replace (Z.to_nat (Z.of_nat k - 1)) with (k - 1)%nat by lia.
    rewrite nth_lookup, lookup_take_lt, <- nth_lookup by lia. apply Hkn. lia.
  - unfold mantissa, significand. cbn [low leader]. replace (Z.to_nat (Z.of_nat k - 1 + 1)) with k by lia.
    rewrite take_take, Nat.min_id. lia.
Qed.

(** The parts of [convert]. *)
Lemma convert_parts h garbage sgn sc f e l power r ok :
  let available := sc_before sc + sc_after sc in
  let n := Z.min available (maximum_useful_digits (high f + 1)) in
  available <> 0 -> i32 (sc_exponent sc + (sc_before sc - n)) = e ->
  read_digits (sc_first_digit sc) (Z.to_nat n)
    (replicate (Z.to_nat (more_than_enough_littlenums_for_digits n)) 0) = Ret l ->
  power_of_10 h garbage (high f + 1) e = Ret (ok, power) ->
  flonum_multip power (digits_flonum l) f = Some r ->
  convert h garbage sgn sc f = Ret (ok, mk_flonum (low r) (leader r) (exponent r) sgn).
Proof.
  cbv zeta. intros Ha <- Hl Hp Hr. unfold digits_flonum in Hr. unfold convert. rewrite (proj2 (Z.eqb_neq _ 0) Ha). cbv zeta.
  rewrite Hl. cbv beta iota delta [mbind outcome_bind]. rewrite Hp, Hr. reflexivity.
Qed.

Lemma convert_exact h garbage sgn sc f (p : nat) s more x :
  p = 4%nat \/ p = 6%nat -> length (low f) = p -> digits (low f) -> length garbage = p -> is_sign sgn = true ->
  sc_first_digit sc = s +:+ more -> Z.of_nat (count_digits s) = sc_before sc + sc_after sc ->
  0 < sc_before sc + sc_after sc <= maximum_useful_digits (Z.of_nat p) ->
  sc_before sc - (sc_before sc + sc_after sc) + sc_exponent sc = x -> 0 <= x ->
  0 < number 0 s -> number 0 s * 10 ^ x < R ^ Z.of_nat p ->
  exists r, convert h garbage sgn sc f = Ret (true, r) /\ valid r /\ normal r /\ sign r = sgn /\
    length (low r) = p /\ 0 <= exponent r <= 14 /\ mantissa r * R ^ exponent r = number 0 s * 10 ^ x.
Proof.
  intros Hp Hl Hd Hg Hsgn Hs Hc Hn Hx Hx0 HV Hlt.
  assert (Hmax : maximum_useful_digits (Z.of_nat p) <= 21)
    by (destruct Hp as [-> | ->]; vm_compute; congruence).
  assert (Hh : high f + 1 = Z.of_nat p) by (unfold high; lia).
  set (n := sc_before sc + sc_after sc) in *.
  assert (Hpow : 10 ^ x < R ^ Z.of_nat p) by (pose proof (Z.pow_pos_nonneg 10 x); nia).
  assert (Hx28 : x < 29).
  { apply (Z.pow_lt_mono_r_iff 10); [lia|lia|]. eapply Z.lt_le_trans; [exact Hpow|].
    destruct Hp as [-> | ->]; vm_compute; congruence. }
  assert (He : i32 (sc_exponent sc + (sc_before sc - n)) = x).
  { replace (sc_exponent sc + (sc_before sc - n)) with x by lia. apply sw_id; [lia|].
    unfold in_sw. change (2 ^ (32 - 1)) with 2147483648. lia. }
  destruct (digits_flonum_spec s more n Hc ltac:(lia) HV) as (l & Hrd & Vb & Nb & Hmb).
  destruct (power_exact h garbage p x Hp Hg Hx0 Hpow) as (a & Hpw & [Va Na Sa Hva Hea Hsm]).
  destruct (normal_mantissa a Va Na) as [Hla Hma].
  assert (Hmle : mantissa a <= 10 ^ x).
  { rewrite <- Hva. pose proof (Z.pow_pos_nonneg R (exponent a) ltac:(lia) ltac:(lia)).
    pose proof (Z.pow_pos_nonneg R (leader a) ltac:(lia) Hla). nia. }
  assert (Hla5 : leader a <= 5).
  { assert (leader a < Z.of_nat p) by (apply (Z.pow_lt_mono_r_iff R); lia). lia. }
  destruct (multip_exact a (digits_flonum l) f Va Vb Na Nb Hd
    (small_no_overflow a (digits_flonum l) Va Vb Hla5 Hsm) Sa eq_refl Hea eq_refl)
    as (r & Hr & Vr & Nr & Hlr & Her & Hv).
  { lia. }
  { rewrite Hl, Hmb. nia. }
  exists (mk_flonum (low r) (leader r) (exponent r) sgn). split.
  { rewrite <- Hh in Hpw, Hn. rewrite <- Hs in Hrd.
    apply (convert_parts h garbage sgn sc f x l a r true); fold n; rewrite ?Z.min_l by lia; [lia|done..]. }
  cbn [sign low exponent].
  split_and!; [split; [done|apply Vr|exact (valid_leader r Vr)]|exact Nr|done|lia|lia|lia|].
  unfold mantissa, significand in *. cbn [low leader] in *. rewrite Hv, Hmb, <- Hva. unfold mantissa, significand. ring.
Qed.

(** ** The words *)

Lemma put_all_spec vs : forall ws rest,
  digits vs -> (length vs <= length rest)%nat ->
  put_all vs (ws ++ rest, length ws) = Ret ((ws ++ vs) ++ drop (length vs) rest, (length ws + length vs)%nat).
Proof.
  induction vs as [|v vs IH]; intros ws rest Hd Hl.
  - cbn. by rewrite app_nil_r, drop_0, Nat.add_0_r.
  - apply Forall_cons in Hd as [Hv Hd]. destruct rest as [|r rest]; [cbn in Hl; lia|]. cbn [put_all].
    rewrite put_spec by done. cbn [mbind outcome_bind].
    replace (S (length ws)) with (length (ws ++ [v])) by (rewrite length_app; cbn; lia).
    rewrite IH by (done || (cbn in Hl; lia)). rewrite length_app, <- !app_assoc. cbn. do 2 f_equal. lia.
Qed.

Lemma set_words_spec vs words :
  digits vs -> (length vs <= length words)%nat -> set_words vs words = Ret (vs ++ drop (length vs) words).
Proof.
  intros Hd Hl. unfold set_words. pose proof (put_all_spec vs [] words Hd Hl) as H. cbn [app length] in H. by rewrite H.
Qed.

(** 0.0 has its sign. *)
Lemma zero_words_signed f (p : nat) e words :
  leader f < 0 -> (1 <= p <= length words)%nat ->
  exists ws, gen_to_words f (Z.of_nat p) e words = Ret (ws ++ drop p words) /\ length ws = p /\ digits ws /\
    words_value ws = sign_bit f * 2 ^ (16 * Z.of_nat p - 1).
Proof.
  intros Hl Hp. unfold gen_to_words. rewrite (proj2 (Z.ltb_lt _ _) Hl).
  replace (Z.to_nat (Z.of_nat p - 1)) with (p - 1)%nat by lia.
  set (s := if Ascii.eqb (sign f) plus then 0 else 32768).
  assert (Hs : s = sign_bit f * 32768) by (unfold s, sign_bit; by destruct (Ascii.eqb _ _)).
  assert (Hd : digits (s :: replicate (p - 1) 0)).
  { constructor; [|apply digits_zeros]. unfold in_uw, s. change (2 ^ 16) with 65536. destruct (Ascii.eqb _ _); lia. }
  assert (Hlen : length (s :: replicate (p - 1) 0) = p) by (cbn; rewrite length_replicate; lia).
  exists (s :: replicate (p - 1) 0). rewrite set_words_spec by (done || lia). rewrite Hlen. split_and!; [done..|].
  change (s :: replicate (p - 1) 0) with ([s] ++ replicate (p - 1) 0).
  rewrite words_value_app, words_value_one, words_value_zeros, length_replicate, Hs.
  replace (16 * Z.of_nat p - 1) with (15 + 16 * Z.of_nat (p - 1)) by lia. rewrite Z.pow_add_r by lia.
  change (2 ^ 15) with 32768. lia.
Qed.

Lemma nearest_scale m U a N x : 0 <= a -> 0 <= U -> nearest m (a + U) N x -> nearest m U (N * 2 ^ a) x.
Proof.
  intros Ha HU H. assert (Hd : forall y, distance m U (N * 2 ^ a) y = distance m (a + U) N y).
  { intros y. unfold distance. rewrite (Z.max_l 0 (- U)), (Z.max_l 0 (- (a + U))), (Z.max_r 0 U), (Z.max_r 0 (a + U)) by lia.
    by rewrite <- Z.mul_assoc, <- Z.pow_add_r by lia. }
  intros y Hy. rewrite !Hd. by apply H.
Qed.

Lemma nearest_zero m U : 0 <= m -> nearest m U 0 0.
Proof.
  intros Hm y Hy. pose proof (Z.pow_pos_nonneg 2 m ltac:(lia) Hm) as HM.
  assert (H0 : units m 0 = 0) by (unfold units; rewrite (proj2 (Z.ltb_lt _ _) HM); done).
  unfold distance. rewrite H0, !Z.mul_0_l, Z.sub_0_r. change (Z.abs 0) with 0. split; [lia|].
  intros H%Z.abs_0_iff. pose proof (Z.pow_pos_nonneg 2 (Z.max 0 (- U)) ltac:(lia) ltac:(lia)).
  assert (Hu : units m y = 0) by nia. unfold units in Hu. destruct (Z.ltb_spec y (2 ^ m)); [lia|].
  exfalso. pose proof (Z.mod_pos_bound y (2 ^ m) HM).
  assert (1 <= y / 2 ^ m) by (apply Z.div_le_lower_bound; lia).
  pose proof (Z.pow_pos_nonneg 2 (y / 2 ^ m - 1) ltac:(lia) ltac:(lia)). nia.
Qed.

(** ** A decimal number *)

Lemma count_digits_all s : all_digits s = true -> count_digits s = String.length s.
Proof.
  induction s as [|c s IH]; cbn [all_digits count_digits String.length]; [done|].
  destruct (digit c); [|done]. intros H. by rewrite IH.
Qed.

Lemma count_digits_app s t : count_digits (s +:+ t) = (count_digits s + count_digits t)%nat.
Proof.
  induction s as [|c s IH]; [done|]. rewrite string_cons_app. cbn [count_digits]. rewrite IH. by destruct (digit c).
Qed.

Section decimal.
Context (d : decimal) (Wf : well_formed d = true).

Lemma fraction_all_digits : all_digits (fraction_digits d) = true.
Proof. apply trailing_zeros_digits. by destruct (well_formed_parts d Wf) as (_ & _ & ? & _). Qed.

Lemma read_text_count : Z.of_nat (count_digits (read_text d)) = digit_count d.
Proof.
  destruct (well_formed_parts d Wf) as (_ & Hw & _). pose proof fraction_all_digits as Hf.
  unfold read_text, digit_count. rewrite count_digits_app, (count_digits_all (without_leading_zeros _))
    by by apply leading_zeros_digits.
  f_equal. f_equal. unfold fraction_digits in *. destruct (dc_fraction d) as [fr|]; [|done].
  change (count_digits (String "." ?s)) with (count_digits s). by apply count_digits_all.
Qed.

Lemma read_text_number : number 0 (read_text d) = integer d.
Proof.
  unfold read_text, integer, fraction_digits. rewrite !number_app, leading_zeros_number.
  by destruct (dc_fraction d) as [fr|].
Qed.

Lemma integer_positive : 0 < digit_count d -> 0 < integer d.
Proof.
  destruct (well_formed_parts d Wf) as (_ & Hw & Hf & _). unfold digit_count, integer, fraction_digits.
  rewrite number_app. pose proof (number_ge (dc_whole d) 0 ltac:(lia)). intros H0.
  destruct (without_leading_zeros (dc_whole d)) as [|c s] eqn:Hl.
  - apply trailing_zeros_positive; [done|lia|]. intros E. rewrite E in H0. cbn in H0. lia.
  - pose proof (leading_zeros_positive (dc_whole d) Hw ltac:(congruence)).
    eapply Z.lt_le_trans; [|apply number_ge]; lia.
Qed.

Lemma integer_zero : digit_count d = 0 -> integer d = 0.
Proof.
  unfold digit_count, integer. intros H0. rewrite number_app, <- leading_zeros_number.
  destruct (without_leading_zeros (dc_whole d)); [|cbn in H0; lia].
  destruct (fraction_digits d); [done|cbn in H0; lia].
Qed.

Definition decimal_sign : ascii := default plus (dc_sign d).

Lemma decimal_sign_ok : is_sign decimal_sign = true.
Proof. destruct (well_formed_parts d Wf) as (Hs & _). unfold decimal_sign. by destruct (dc_sign d). Qed.

(** [atof_generic] without the number itself. *)
Lemma atof_generic_decimal h garbage f :
  exists sc more, atof_generic decimal_point md_EXP_CHARS h garbage (text d) f =
      ('(ok, f) ← convert h garbage decimal_sign sc f; Ret (dc_rest d, ok, f)) /\
    sc_first_digit sc = read_text d +:+ more /\ sc_before sc + sc_after sc = digit_count d /\
    sc_before sc - (sc_before sc + sc_after sc) + sc_exponent sc = power d.
Proof.
  destruct (scan_spec d Wf) as (more & Hf & Hc & Hp & Hr). cbv zeta in *.
  destruct (well_formed_parts d Wf) as (Hs & Hw & _ & Hne & _).
  unfold text, decimal_sign. set (body := dc_whole d +:+ _) in *.
  exists (scan decimal_point md_EXP_CHARS body), more. split; [|done].
  assert (Hfirst : nan body = None /\ inf body = None /\
    (Ascii.eqb (char_at body 0) minus || Ascii.eqb (char_at body 0) plus) = false).
  { apply digit_first. exists (char_at body 0). split; [done|]. unfold body.
    destruct (dc_whole d) as [|c s].
    - destruct (dc_fraction d); [by left|]. by destruct Hne.
    - right. cbn [all_digits] in Hw. change (char_at (String c s +:+ ?t) 0) with c. by destruct (digit c). }
  destruct Hfirst as (Hnan & Hinf & Hsg). unfold atof_generic. cbv zeta. destruct (dc_sign d) as [c|]; cbn [letters].
  - change (char_at (String c "" +:+ body) 0) with c. change (tail (String c "" +:+ body)) with body.
    cbn in Hs. unfold is_sign in Hs. rewrite Hs, Hnan, Hinf, Hr. done.
  - change ("" +:+ body) with body. by rewrite Hsg, Hnan, Hinf, Hr.
Qed.
End decimal.

(** ** The theorem *)

(** C16: a decimal number with the value [N = integer d * 10 ^ power d], where [power d] is not
    negative (so that [N] is an integer), [N] is less than 2^64 for [float] and 2^96 for [double],
    and at most 11 digits for [float] and 21 for [double] are left of it without the zeros in
    front and at the end of the fraction ([maximum_useful_digits]), written with an exponent below
    2^31 if any and followed by no digit, mark or sign ([well_formed]), is converted to the nearest
    number of the format, halves up in magnitude, with its sign: nothing is lost before the one
    rounding, the words behind the format are untouched, and the text is left behind the
    number.  With more digits the number is cut before it is rounded. *)
Theorem atof_ieee_nearest h garbage bits d what_kind (p : nat) e words :
  format what_kind = Some (Z.of_nat p, e) -> (p <= 4)%nat ->
  length garbage = (p + 2)%nat -> digits bits -> (p + 2 <= length bits)%nat -> (p <= length words)%nat ->
  well_formed d = true -> digit_count d <= maximum_useful_digits (Z.of_nat (p + 2)) -> 0 <= power d ->
  let N := integer d * 10 ^ power d in
  let m := 16 * Z.of_nat p - 1 - e in
  N < R ^ Z.of_nat (p + 2) ->
  exists ws x, atof_ieee h garbage bits (text d) what_kind words = Ret (Some (dc_rest d), ws ++ drop p words) /\
    length ws = p /\ digits ws /\
    words_value ws = (if Ascii.eqb (decimal_sign d) plus then 0 else 1) * 2 ^ (16 * Z.of_nat p - 1) + x /\
    0 <= x <= (2 ^ e - 1) * 2 ^ m /\ nearest m (2 ^ (e - 1) - 2 + m) N x.
Proof.
  intros Hk Hp4 Hg Hb Hlb Hw Wf Hc Hpw N m HN.
  assert (Hpe : (p = 2%nat /\ e = 8) \/ (p = 4%nat /\ e = 11)).
  { unfold format, F_PRECISION, D_PRECISION, X_PRECISION, P_PRECISION in Hk. repeat case_match; simplify_eq; lia. }
  set (f0 := mk_flonum (take (p + 2) bits) (-1) 0 Ascii.zero).
  destruct (atof_generic_decimal d Wf h garbage f0) as (sc & more & Hag & Hf & Hn & Hpow).
  unfold atof_ieee. rewrite Hk. unfold GUARD. replace (Z.to_nat (Z.of_nat p + 2)) with (p + 2)%nat by lia. fold f0.
  rewrite Hag.
  destruct (decide (digit_count d = 0)) as [H0|H0].
  - unfold convert. rewrite Hn, H0. cbn [Z.eqb mbind outcome_bind negb].
    destruct (zero_words_signed (mk_flonum (low f0) (-1) 0 (decimal_sign d)) p e words ltac:(cbn; lia) ltac:(lia))
      as (ws & -> & Hl & Hd & Hv). cbn [mbind outcome_bind].
    exists ws, 0. split_and!; [done|done|done|by rewrite Z.add_0_r|lia| |].
    + apply Z.mul_nonneg_nonneg; [|apply Z.pow_nonneg; lia]. destruct Hpe as [[_ ->]|[_ ->]]; vm_compute; congruence.
    + unfold N. rewrite (integer_zero d H0), Z.mul_0_l. apply nearest_zero. unfold m. lia.
  - assert (0 <= digit_count d) by (unfold digit_count; lia).
    destruct (convert_exact h garbage (decimal_sign d) sc f0 (p + 2) (read_text d) more (power d))
      as (r & Hr & Vr & Nr & Hs & Hl & Hxr & Hv).
    { destruct Hpe as [[-> _]|[-> _]]; auto. }
    { cbn. rewrite length_take. lia. }
    { by apply digits_take. }
    { done. }
    { by apply decimal_sign_ok. }
    { done. }
    { rewrite Hn. by apply read_text_count. }
    { rewrite Hn. lia. }
    { done. }
    { done. }
    { rewrite read_text_number by done. apply integer_positive; [done|lia]. }
    { by rewrite read_text_number. }
    rewrite Hr. cbn [mbind outcome_bind negb]. rewrite read_text_number in Hv by done. fold N in Hv.
    destruct (normal_mantissa r Vr Nr) as [Hlr _]. pose proof (mantissa_range r Vr Nr) as (HM & _ & _).
    assert (HN1 : N = mantissa r * 2 ^ (16 * exponent r)) by (rewrite <- Hv, Z.pow_mul_r by lia; done).
    assert (HE : biased_exponent r e = Z.log2 N + 1 + 2 ^ (e - 1) - 2).
    { unfold biased_exponent, bit_length. rewrite HN1, Z.log2_mul_pow2 by lia. lia. }
    assert (Hlog : 0 <= Z.log2 N < 16 * Z.of_nat (p + 2)).
    { split; [apply Z.log2_nonneg|]. apply Z.log2_lt_pow2; [rewrite HN1; apply Z.mul_pos_pos; [lia|apply Z.pow_pos_nonneg; lia]|].
      by rewrite Z.pow_mul_r by lia. }
    pose proof (valid_leader r Vr) as Hhr. unfold high in Hhr. rewrite Hl in Hhr.
    destruct (normal_rounded r Vr Nr ltac:(change (2 ^ 24) with 16777216; lia) p e ltac:(lia) ltac:(lia) words Hw)
      as (ws & x & -> & Hlw & Hdw & Hvw & Hx & Hnear).
    { rewrite HE. destruct Hpe as [[-> ->]|[-> ->]]; cbn in *; lia. }
    cbn [mbind outcome_bind]. exists ws, x. do 3 (split; [done|]). split; [|split; [exact Hx|]].
    + rewrite Hvw. unfold sign_bit. by rewrite Hs.
    + rewrite HN1. apply nearest_scale; [lia|destruct Hpe as [[-> ->]|[-> ->]]; vm_compute; congruence|].
      unfold unit_exponent in Hnear. fold m in Hnear. by replace (16 * exponent r + (2 ^ (e - 1) - 2 + m))
        with (16 * exponent r + 2 ^ (e - 1) - 2 + m) by lia.
Qed.

(** A float that has to be rounded, in two littlenums more than its words. *)
Definition some_decimal : decimal := {|
  dc_sign := Some minus; dc_whole := "0031415"; dc_fraction := Some "92650";
  dc_exponent := Some ("E"%char, Some plus, "4"); dc_rest := ", 7"
|}.

Lemma atof_ieee_nearest_witness :
  text some_decimal = "-0031415.92650E+4, 7" /\
  exists ws x, atof_ieee LE [1; 2; 3; 4] [5; 6; 7; 8] (text some_decimal) "f" [9; 9; 9] = Ret (Some ", 7", ws ++ [9]) /\
    length ws = 2%nat /\ digits ws /\ words_value ws = 1 * 2 ^ 31 + x /\ 0 <= x <= 255 * 2 ^ 23 /\
    nearest 23 149 314159265 x.
Proof.
  split; [reflexivity|].
  apply (atof_ieee_nearest LE [1; 2; 3; 4] [5; 6; 7; 8] some_decimal "f" 2 8 [9; 9; 9]).
  - reflexivity.
  - lia.
  - reflexivity.
  - repeat (constructor; [split; vm_compute; congruence|]). constructor.
  - cbn. lia.
  - cbn. lia.
  - reflexivity.
  - vm_compute. congruence.
  - vm_compute. congruence.
  - reflexivity.
Defined.

(** ** What other numbers become *)

(** The words of a number, in place of sevens. *)
Definition words_of (what_kind : ascii) (n : nat) (str : string) : option (list Z) :=
  match atof_ieee LE (replicate (n + 2) 0) (replicate 8 0) str what_kind (replicate n 7) with
  | Ret (_, ws) => Some ws
  | Stop _ => None
  end.

(** Halves are rounded up, not to the even number. *)
Example halfway_float : words_of "f" 2 "16777217" = Some [19328; 1].
Proof. vm_compute. reflexivity. Qed.

(** A number that is too large has the exponent of the infinities when it is
    less than twice too large, and is a NaN. *)
Example large_double_is_nan : words_of "d" 4 "3e308" = Some [32762; 45933; 18657; 44272].
Proof. vm_compute. reflexivity. Qed.

(** One that is too small becomes infinity. *)
Example small_double_is_infinity : words_of "d" 4 "1e-326" = Some [32752; 0; 0; 0].
Proof. vm_compute. reflexivity. Qed.

(** The zeros at the start of a fraction use up the digits: of the first number
    two digits are left, of the second one none. *)
Example leading_zeros_float :
  words_of "f" 2 "0.00000000012345678901" = words_of "f" 2 "1.2e-10" /\
  words_of "f" 2 "0.000000000001" = Some [0; 0].
Proof. split; vm_compute; reflexivity. Qed.

(** Sixteen ones that are rounded up become zeros. *)
Example denormal_carry_lost : words_of "d" 4 "3.2378962649e-319" = Some [0; 0; 0; 0].
Proof. vm_compute. reflexivity. Qed.

(** 2 ^ -1040, as a single bit and as 2 ^ 16 times 2 ^ -1056. *)
Example denormal_single_bit :
  gen_to_words (mk_flonum [1; 0; 0; 0; 0; 0] 0 (-65) plus) 4 11 [7; 7; 7; 7] = Ret [0; 0; 0; 0] /\
  gen_to_words (mk_flonum [0; 1; 0; 0; 0; 0] 1 (-66) plus) 4 11 [7; 7; 7; 7] = Ret [0; 4; 0; 0].
Proof. split; vm_compute; reflexivity. Qed.

(** A product of three littlenums and more that is shifted loses a littlenum:
    2^68 * 10^28 is one unit in the last place too small. *)
Example shifted_product : words_of "d" 4 "295147905179352825856e28" = Some [18944; 10215; 12063; 4736].
Proof. vm_compute. reflexivity. Qed.

(** Of the six words of an extended number only four are set. *)
Example extended_nan : words_of "x" 6 "nan" = Some [32767; 65535; 65535; 65535; 7; 7].
Proof. vm_compute. reflexivity. Qed.

(** The packed format shifts by a negative number of bits. *)
Example packed_format : words_of "p" 6 "1" = None.
Proof. vm_compute. reflexivity. Qed.
